(* ===== verification/_CoqProject ===== *)
-Q . S2P
Prelude.v
Clib.v
Strings.v
UrlPath.v
Buffer.v
BodySched.v
Packet.v
ReqBuf.v
Lookup.v
ProtoBase.v
Mime.v
HttpDate.v
Writer.v
WriterProofs.v
Http.v
HttpConn.v
Protocol.v
ProtocolProofs.v
Chunked.v
ChunkedProofs.v
Fastcgi.v
FastcgiProofs.v
Reader.v
ReaderProofs.v
ReaderTheorems.v
WireProto.v
RbTimers.v
RbTimersProofs.v
RbTimersBalance.v
RbTimersInsert.v
RbTimersDelfix.v
RbTimersDelete.v
RbTimersTheorems.v
Signals.v
SigTimers.v
SigTimersProofs.v
SignalsTheorems.v
Base64.v
Websocket.v
WebsocketProofs.v
Kvlist.v
Hash.v
Bitmap.v
Cache.v
Static.v
StaticProofs.v
StaticExact.v
StaticTheorems.v
CacheUdp.v
CacheLinks.v
CacheInv.v
CacheConf.v
CacheSteps.v
CacheOps.v
CacheWrite.v
CacheFull.v
CacheSet.v
CacheProofs.v
CacheReach.v
CacheFix.v
CacheTheorems.v
