(* ===== verification/Prelude.v ===== *)
(** * upsgi: a verification of the request path of the server

    upsgi is an application server in C: a front end (an HTTP client, or a web
    server speaking HTTP, FastCGI, SCGI or the native protocol) sends requests,
    workers turn each of them into a packet of variables and a body, hand it to
    a plugin and write its response; workers share memory for a cache, for
    signals and for statistics.  This library is a shallow embedding of the
    parts that decide what a request means and what is sent, kept next to the
    sources under src/.

    ** Conventions

    - A C function is a definition of the same name.  What it reads and changes
      is passed explicitly: records have the fields of the structs that the
      modelled code uses.  [outcome] (below) is the result of code that may
      fail: [Ret], [Fault] for an access outside its object, [Exited] for a
      call of exit, [NoFuel] when the bound of a loop is used up.
    - Integers are [Z]; [u8], [u16], [u32], [u64], [i8], [i32] and [i64] are
      written where the C type wraps.  Bytes are [Z]; a block of memory is a
      list of bytes, and an offset outside of it is a [Fault].
    - The world is an argument: a system call is a function or a list of events
      with the results it gives ([EAGAIN], a short write, an error, bytes), a
      clock is a number or a sequence of readings, [malloc] gives a fresh cell.
      Code that is not under src/ (OpenSSL, SHA-1, regular expressions, the
      file system, inet_ntop) is a parameter.
    - A loop that is not structural has fuel.  A script of socket events ends
      in a timeout or in [NoFuel]; loops over memory are given the number of
      cells, of items or of bytes, and the theorems state that they return.

    ** Strings, memory, packets

    - [Clib]: the functions of the C library that the sources call.
    - [Strings] (core/strings.c): comparisons, searches and splits of sized
      strings; [Lookup] (core/cookie.c, core/querystring.c): a cookie or a
      parameter by its name; the cookie lookup is a search in the list of the
      parts of the header.
    - [UrlPath] (core/utils.c: http_url_decode4; proto/http.c:
      http_path_needs_decode): percent decoding and removal of dot segments
      stay inside their blocks; a decoded path without escapes has no dot
      segment.
    - [Buffer] (core/buffer.c): the growable buffer.  The abstract value is the
      sequence of its bytes; every writer appends or fails without a change.
    - [Packet] (proto/base.c, core/protocol.c): blocks of key/value pairs with
      16 bit lengths; the readers give back what the writers put.
    - [Base64], [HttpDate], [Mime], [Kvlist], [Hash] (core/utils.c,
      core/static.c, core/hash.c): codecs and tables, with their round trips.

    ** From the connection to the request

    - [Http], [HttpConn] (proto/http.c): [http_parse] refines a declarative
      reading of the head; framing headers never conflict; the connection
      parser gives the same result for every way of cutting the bytes.
    - [Fastcgi], [FastcgiProofs] (proto/fastcgi.c): parameters, the request
      body, the records of a response.  [WireProto] has the native protocol
      ([Native], proto/upsgi.c) and SCGI ([Scgi], proto/scgi.c).
    - [Protocol], [ProtocolProofs] (core/protocol.c): [upsgi_parse_vars] walks
      the packet and records its variables; hooks by key length; mount points;
      the body framing.  [ReqBuf]: variables added later behind the packet.
    - [BodySched] (core/body_scheduler.c): two lanes with deficits pace the
      reads of bodies; the gauges are right in every reachable state, and no
      request is served more than its quanta.
    - [Chunked], [ChunkedProofs] (core/chunked.c): the decoder reads in pieces
      and under any scheduler that keeps the promises of [ReadSchedOk] what a
      reference decoder finds in the whole stream.
    - [Reader], [ReaderProofs], [ReaderTheorems] (core/reader.c): read, readline
      and seek on a connection, on memory or on a file hand out the bytes of
      the body in order.  The protocols are used through their interface
      ([ProtoBase], proto/base.c, has the common hooks).

    ** From the response to the connection

    - [Writer], [WriterProofs] (core/writer.c): status line, headers and body are
      on the wire exactly once and in order, whatever the socket accepts at a
      time.
    - [Static], [StaticProofs], [StaticExact], [StaticTheorems] (core/static.c):
      a file is looked for under the document root; only names that pass the
      containment check are served, and the bytes are those of the range.
    - [Websocket], [WebsocketProofs] (core/websockets.c): what one side sends
      the other receives, in whatever pieces it arrives.

    ** Shared state and time

    - [Bitmap], [Cache] (core/cache.c): the shared memory cache.  [CacheLinks]
      has the doubly linked lists inside the table of items, [CacheInv] the
      invariant and the abstract map, [CacheSteps], [CacheOps], [CacheWrite],
      [CacheFull] and [CacheSet] what each operation does to them, [CacheConf]
      the creation from options, [CacheReach] every sequence of operations,
      [CacheFix] the recovery from a store, [CacheUdp] the datagrams between
      nodes.  [CacheTheorems]: each operation is an operation of a finite map;
      a full cache gives up the entry used least recently; the sweeper removes
      what is due.
    - [RbTimers] (core/rb_timers.c): the red-black tree of timers in a memory of
      cells.  [RbTimersProofs] relates the memory to a tree with a focus on a
      subtree (a zipper) and shows what stores and rotations do;
      [RbTimersBalance] has the invariant; [RbTimersInsert], [RbTimersDelfix]
      and [RbTimersDelete] the two operations; [RbTimersTheorems] the
      refinement: the tree is a sorted sequence, and walks are logarithmic.
    - [Signals] (core/signal.c) and [SigTimers] (core/master.c): the table of
      signal handlers, routing, and the timers of the master on top of the
      tree, used through [queue].  [SigTimersProofs]: exactly the timers that
      are due fire; [SignalsTheorems]: who may run what was registered.
    ** Interfaces

    [ReadSchedOk] (Chunked.v) is what a reader of bodies may expect of the
    scheduler, [BodySourceOk] (Reader.v) what it may expect of a protocol,
    [ProtoOk] (WriterProofs.v) what a response may expect of one, [Allocator]
    (SigTimers.v) what the users of the tree may expect of malloc; instances
    discharge them for the scheduler and the protocols.  [queue] of
    [RbTimersInsert] and the abstract map of [CacheInv] are all that the
    clients of the tree and of the cache see.

    ** What the sources get wrong

    Lemmas named after a behaviour state what the code does where that is not
    what it means to do, next to the theorems of the component: for example
    [continuation_first_faults], [route_out_of_range], [scgi_length_wraps],
    [index_symlink_served], [bitmap_increment_lost].

    ** Not modelled

    - Of the modelled parts: the rules of the router and the transformations
      that may end a request early or change a response, harakiri timers of
      requests, upload progress, the default wait hooks (poll), TLS variants of
      protocols (the same parsers behind OpenSSL), magic functions for remote
      caches and the options of a cache that start threads or sockets (nodes,
      udp servers, sync).
    - Process control (emperor, master, spawning, hooks, daemons), sockets and
      event queues, locks, logging, metrics, the readers of configuration files
      and the plugins: system calls, option tables, or glue to a foreign
      runtime.  Locks of modelled parts are held around each operation, so an
      operation is one step. *)
From stdpp Require Export base list numbers option strings gmap.
From Stdlib Require Export ZArith Lia.
Export Stdlib.ZArith.ZArith.
#[global] Open Scope Z_scope.

(** * Record update

    A record type gives its expansion [fun r => mk (p1 r) .. (pn r)]; the
    setter of a field abstracts that field's projection in it. *)

Class Expand (R : Type) : Type := expand : R -> R.
Class Setter {R E : Type} (proj : R -> E) : Type := setter : (R -> E) -> R -> R.
Arguments setter {R E} proj {_} _ _.

Ltac head_of t := lazymatch t with ?f _ => head_of f | _ => t end.
Ltac find_setter :=
  lazymatch goal with
  | |- @Setter ?R ?E ?proj =>
      let i := constr:(@expand R _) in
      let h := lazymatch i with @expand _ ?h => head_of h end in
      let e := eval cbv beta delta [h expand] in i in
      let p := eval pattern proj in e in
      lazymatch p with ?s proj => exact s end
  end.
#[export] Hint Extern 0 (Setter _) => find_setter : typeclass_instances.

Notation "x <| f := v |>" := (setter f (fun _ => v) x)
  (at level 1, f constr at level 1, v constr at level 99, left associativity,
   format "x <| f  :=  v |>").

(** * Machine integers

    A C integer of width [w] is a [Z] kept in range by an explicit wrap. *)

Definition wrap (w x : Z) : Z := x mod 2 ^ w.
Abbreviation u8 := (wrap 8).
Abbreviation u16 := (wrap 16).
Abbreviation u32 := (wrap 32).
Abbreviation u64 := (wrap 64).

(** Reinterpretation of a wrapped value as two's complement. *)
Definition signed (w x : Z) : Z :=
  let y := wrap w x in if y <? 2 ^ (w - 1) then y else y - 2 ^ w.
Abbreviation i8 := (signed 8).
Abbreviation i32 := (signed 32).
Abbreviation i64 := (signed 64).

Definition SIZE_MAX : Z := 2 ^ 64 - 1.
Definition INT64_MAX : Z := 2 ^ 63 - 1.

(** The macros [UMIN] and [UMAX] of upsgi.h, with their argument order. *)
Definition UMIN (a b : Z) : Z := if b <? a then b else a.
Definition UMAX (a b : Z) : Z := if a <? b then b else a.

Definition byte_ok (b : Z) : Prop := 0 <= b < 256.
Abbreviation bytes_ok := (Forall byte_ok).

(** * Outcomes

    A modelled C function either returns, performs an access outside the
    object it was given (the C program would be undefined there), calls
    [exit], or has used up the fuel that bounds its loops. *)

Inductive outcome (A : Type) : Type :=
| Ret (a : A)
| Fault
| Exited
| NoFuel.
Arguments Ret {A} a.
Arguments Fault {A}.
Arguments Exited {A}.
Arguments NoFuel {A}.

Definition obind {A B} (c : outcome A) (k : A -> outcome B) : outcome B :=
  match c with
  | Ret a => k a
  | Fault => Fault
  | Exited => Exited
  | NoFuel => NoFuel
  end.

Declare Scope c_scope.
Delimit Scope c_scope with c.
Notation "'let*' x := c 'in' k" := (obind c (fun x => k))
  (at level 10, x pattern, c at level 200, k at level 200) : c_scope.
#[global] Open Scope c_scope.

Definition returns {A} (c : outcome A) : Prop := exists a, c = Ret a.

Lemma obind_ret {A B} (a : A) (k : A -> outcome B) : obind (Ret a) k = k a.
Proof. reflexivity. Qed.

Lemma obind_Ret_inv {A B} (c : outcome A) (k : A -> outcome B) (b : B) :
  obind c k = Ret b -> exists a, c = Ret a /\ k a = Ret b.
Proof. destruct c; simpl; intros; [eauto | discriminate ..]. Qed.

Lemma obind_assoc {A B C} (c : outcome A) (f : A -> outcome B) (g : B -> outcome C) :
  obind (obind c f) g = obind c (fun x => obind (f x) g).
Proof. by destruct c. Qed.

(** * Sequences indexed by [Z] *)

Definition zlen {A} (l : list A) : Z := Z.of_nat (length l).
Definition ztake {A} (n : Z) (l : list A) : list A := take (Z.to_nat n) l.
Definition zdrop {A} (n : Z) (l : list A) : list A := drop (Z.to_nat n) l.
Definition zrep {A} (n : Z) (x : A) : list A := replicate (Z.to_nat n) x.

(** The bytes of a string literal of the source. *)
Definition chr (c : Ascii.ascii) : Z := Z.of_N (Ascii.N_of_ascii c).
Fixpoint chars (s : string) : list Z :=
  match s with
  | EmptyString => []
  | String c s => chr c :: chars s
  end.

(** Character constants the sources name. *)
Definition CR : Z := 13.
Definition LF : Z := 10.
Definition TAB : Z := 9.
Definition SP : Z := 32.

(** A load, a store of a block ([memcpy] to [p + off]) and a block load
    ([memcpy] from [p + off]) in an object of [zlen m] bytes. *)
Definition mread (m : list Z) (i : Z) : outcome Z :=
  if 0 <=? i then
    match m !! Z.to_nat i with Some b => Ret b | None => Fault end
  else Fault.

Definition mwrite (m : list Z) (off : Z) (src : list Z) : outcome (list Z) :=
  if (0 <=? off) && (off + zlen src <=? zlen m)
  then Ret (ztake off m ++ src ++ zdrop (off + zlen src) m)
  else Fault.

Definition mslice (m : list Z) (off n : Z) : outcome (list Z) :=
  if (0 <=? off) && (0 <=? n) && (off + n <=? zlen m)
  then Ret (ztake n (zdrop off m))
  else Fault.

(** [memcmp(a, b, n) == 0] on two blocks of the same size. *)
Definition bytes_eqb (a b : list Z) : bool := bool_decide (a = b).

(** ** Lemmas *)

Create HintDb cdb.

Lemma zlen_nonneg {A} (l : list A) : 0 <= zlen l.
Proof. unfold zlen; lia. Qed.
#[export] Hint Resolve zlen_nonneg : cdb.

Lemma zlen_nil {A} : zlen (@nil A) = 0.
Proof. reflexivity. Qed.
Lemma zlen_cons {A} (x : A) l : zlen (x :: l) = 1 + zlen l.
Proof. unfold zlen; simpl; lia. Qed.
Lemma zlen_app {A} (l k : list A) : zlen (l ++ k) = zlen l + zlen k.
Proof. unfold zlen; rewrite length_app; lia. Qed.
Lemma zlen_rep {A} n (x : A) : 0 <= n -> zlen (zrep n x) = n.
Proof. unfold zlen, zrep; rewrite length_replicate; lia. Qed.
Lemma zlen_take {A} n (l : list A) : 0 <= n <= zlen l -> zlen (ztake n l) = n.
Proof. unfold zlen, ztake; rewrite length_take; lia. Qed.
Lemma zlen_drop {A} n (l : list A) : 0 <= n <= zlen l -> zlen (zdrop n l) = zlen l - n.
Proof. unfold zlen, zdrop; rewrite length_drop; lia. Qed.
Lemma zlen_zero_inv {A} (l : list A) : zlen l = 0 -> l = [].
Proof. destruct l; [done | rewrite zlen_cons; pose proof (zlen_nonneg l); lia]. Qed.

Create Rewrite HintDb zlen.
#[export] Hint Rewrite @zlen_nil @zlen_cons @zlen_app : zlen.

Lemma ztake_all {A} (l : list A) n : zlen l <= n -> ztake n l = l.
Proof. unfold zlen, ztake; intros; apply take_ge; lia. Qed.
Lemma zdrop_all {A} (l : list A) n : zlen l <= n -> zdrop n l = [].
Proof. unfold zlen, zdrop; intros; apply drop_ge; lia. Qed.
Lemma zdrop_0 {A} (l : list A) : zdrop 0 l = l.
Proof. reflexivity. Qed.
Lemma ztake_0 {A} (l : list A) : ztake 0 l = [].
Proof. reflexivity. Qed.
Lemma ztake_zdrop {A} n (l : list A) : ztake n l ++ zdrop n l = l.
Proof. apply take_drop. Qed.
Lemma ztake_app_le {A} n (l k : list A) : n <= zlen l -> ztake n (l ++ k) = ztake n l.
Proof. unfold zlen, ztake; intros; apply take_app_le; lia. Qed.
Lemma ztake_app_length {A} n (l k : list A) : n = zlen l -> ztake n (l ++ k) = l.
Proof. intros ->. unfold zlen, ztake. apply take_app_length'. lia. Qed.
Lemma zdrop_app_length {A} n (l k : list A) : n = zlen l -> zdrop n (l ++ k) = k.
Proof. intros ->. unfold zlen, zdrop. apply drop_app_length'. lia. Qed.
Lemma zdrop_app_le {A} n (l k : list A) : n <= zlen l -> zdrop n (l ++ k) = zdrop n l ++ k.
Proof. unfold zlen, zdrop; intros; apply drop_app_le; lia. Qed.
Lemma ztake_app_ge {A} n (l k : list A) :
  zlen l <= n -> ztake n (l ++ k) = l ++ ztake (n - zlen l) k.
Proof.
  unfold zlen, ztake; intros. rewrite take_app_ge by lia. do 2 f_equal. lia.
Qed.
Lemma zdrop_app_ge {A} n (l k : list A) :
  zlen l <= n -> zdrop n (l ++ k) = zdrop (n - zlen l) k.
Proof. unfold zlen, zdrop; intros. rewrite drop_app_ge by lia. f_equal. lia. Qed.
Lemma zdrop_zdrop {A} a b (l : list A) :
  0 <= a -> 0 <= b -> zdrop a (zdrop b l) = zdrop (b + a) l.
Proof. unfold zdrop; intros. rewrite drop_drop. f_equal. lia. Qed.
Lemma ztake_ztake {A} a b (l : list A) : 0 <= a <= b -> ztake a (ztake b l) = ztake a l.
Proof. unfold ztake; intros. rewrite take_take. f_equal. lia. Qed.
Lemma ztake_extend {A} wp wp' (l : list A) :
  0 <= wp <= wp' -> ztake wp l ++ ztake (wp' - wp) (zdrop wp l) = ztake wp' l.
Proof.
  intros H. unfold ztake, zdrop. rewrite take_take_drop. f_equal. lia.
Qed.
Lemma zdrop_cons {A} n (x : A) l : 0 < n -> zdrop n (x :: l) = zdrop (n - 1) l.
Proof.
  unfold zdrop; intros. replace (Z.to_nat n) with (S (Z.to_nat (n - 1))) by lia. done.
Qed.
Lemma ztake_cons {A} n (x : A) l : 0 < n -> ztake n (x :: l) = x :: ztake (n - 1) l.
Proof.
  unfold ztake; intros. replace (Z.to_nat n) with (S (Z.to_nat (n - 1))) by lia. done.
Qed.

Lemma wrap_small w x : 0 <= x < 2 ^ w -> wrap w x = x.
Proof. apply Z.mod_small. Qed.
Lemma wrap_range w x : 0 <= w -> 0 <= wrap w x < 2 ^ w.
Proof. intros. apply Z.mod_pos_bound. by apply Z.pow_pos_nonneg. Qed.
Lemma byte_ok_u8 x : byte_ok (u8 x).
Proof. apply (wrap_range 8 x). lia. Qed.
#[export] Hint Resolve byte_ok_u8 : cdb.

Lemma signed_small w x : 0 < w -> 0 <= x < 2 ^ (w - 1) -> signed w x = x.
Proof.
  intros Hw Hx. unfold signed.
  assert (2 ^ w = 2 * 2 ^ (w - 1)) as Hp.
  { rewrite <- Z.pow_succ_r by lia. f_equal. lia. }
  rewrite wrap_small by lia. destruct (Z.ltb_spec x (2 ^ (w - 1))); lia.
Qed.

Lemma UMIN_spec a b : UMIN a b = Z.min a b.
Proof. unfold UMIN; destruct (Z.ltb_spec b a); lia. Qed.
Lemma UMAX_spec a b : UMAX a b = Z.max a b.
Proof. unfold UMAX; destruct (Z.ltb_spec a b); lia. Qed.

Lemma chr_ok c : byte_ok (chr c).
Proof.
  unfold chr, byte_ok. pose proof (Ascii.N_ascii_bounded c). lia.
Qed.
Lemma chars_ok s : bytes_ok (chars s).
Proof. induction s; simpl; constructor; auto using chr_ok. Qed.
#[export] Hint Resolve chars_ok chr_ok : cdb.

Lemma bytes_ok_check l : forallb (fun b => (0 <=? b) && (b <? 256)) l = true -> bytes_ok l.
Proof.
  intros H. apply Forall_forall. intros b Hb. rewrite forallb_forall in H.
  specialize (H b (proj1 (list_elem_of_In _ _) Hb)). unfold byte_ok. lia.
Qed.

Lemma mread_lookup m i b : 0 <= i -> m !! Z.to_nat i = Some b -> mread m i = Ret b.
Proof. intros Hi H. unfold mread. destruct (Z.leb_spec 0 i); [by rewrite H | lia]. Qed.

Lemma mread_in m i : 0 <= i < zlen m -> exists b, mread m i = Ret b /\ m !! Z.to_nat i = Some b.
Proof.
  intros [H1 H2]. unfold zlen in H2.
  destruct (lookup_lt_is_Some_2 m (Z.to_nat i)) as [b Hb]; [lia|].
  exists b. split; [by apply mread_lookup | done].
Qed.

Lemma mread_inv m i b : mread m i = Ret b -> 0 <= i < zlen m /\ m !! Z.to_nat i = Some b.
Proof.
  unfold mread. destruct (Z.leb_spec 0 i); [|done].
  destruct (m !! Z.to_nat i) eqn:E; [|done]. intros [= ->].
  apply lookup_lt_Some in E as E'. unfold zlen. split; [lia | done].
Qed.

Lemma mread_app_l m k i : i < zlen m -> mread (m ++ k) i = mread m i.
Proof.
  intros H. unfold mread. destruct (Z.leb_spec 0 i); [|done].
  unfold zlen in H. rewrite lookup_app_l by lia. done.
Qed.

Lemma mread_app_r m k i : 0 <= i -> mread (m ++ k) (zlen m + i) = mread k i.
Proof.
  intros H. unfold mread.
  destruct (Z.leb_spec 0 (zlen m + i)); [|pose proof (zlen_nonneg m); lia].
  destruct (Z.leb_spec 0 i); [|lia].
  rewrite lookup_app_r by (unfold zlen; lia).
  replace (Z.to_nat (zlen m + i) - length m)%nat with (Z.to_nat i) by (unfold zlen; lia).
  done.
Qed.

Lemma mwrite_ok m off src :
  0 <= off -> off + zlen src <= zlen m ->
  mwrite m off src = Ret (ztake off m ++ src ++ zdrop (off + zlen src) m).
Proof.
  intros. unfold mwrite.
  destruct (Z.leb_spec 0 off), (Z.leb_spec (off + zlen src) (zlen m)); simpl; done || lia.
Qed.

Lemma mwrite_len m off src m' : mwrite m off src = Ret m' -> zlen m' = zlen m.
Proof.
  unfold mwrite.
  destruct (Z.leb_spec 0 off), (Z.leb_spec (off + zlen src) (zlen m)); simpl; try done.
  intros [= <-]. pose proof (zlen_nonneg src).
  rewrite !zlen_app, zlen_take, zlen_drop by lia. lia.
Qed.

Lemma mslice_ok m off n :
  0 <= off -> 0 <= n -> off + n <= zlen m -> mslice m off n = Ret (ztake n (zdrop off m)).
Proof.
  intros. unfold mslice.
  destruct (Z.leb_spec 0 off), (Z.leb_spec 0 n), (Z.leb_spec (off + n) (zlen m));
    simpl; done || lia.
Qed.

(** A block between two others. *)
Lemma mslice_at a l r off n : off = zlen a -> n = zlen l -> mslice (a ++ l ++ r) off n = Ret l.
Proof.
  intros -> ->. pose proof (zlen_nonneg a). pose proof (zlen_nonneg l). pose proof (zlen_nonneg r).
  rewrite mslice_ok by (rewrite ?zlen_app; lia).
  rewrite zdrop_app_length by done. by rewrite ztake_app_length.
Qed.

Lemma bytes_eqb_spec a b : bytes_eqb a b = true <-> a = b.
Proof. apply bool_decide_eq_true. Qed.
Lemma bytes_eqb_refl a : bytes_eqb a a = true.
Proof. by apply bytes_eqb_spec. Qed.

(** ** Automation

    [zcase] splits the next integer comparison of the goal, [zcase_in H]
    the next one of [H]; [zlia] is [lia] with the sequence lengths expanded
    and known to be non-negative. *)

Ltac zcase_on t :=
  match t with
  | context [?a <? ?b] => destruct (Z.ltb_spec a b)
  | context [?a <=? ?b] => destruct (Z.leb_spec a b)
  | context [?a =? ?b] => destruct (Z.eqb_spec a b)
  end.
Ltac zcase := match goal with |- ?g => zcase_on g end; simpl andb; simpl orb; simpl negb; cbn iota.
Ltac zcase_in H :=
  match type of H with ?t => zcase_on t end;
  simpl andb in H; simpl orb in H; simpl negb in H; cbn iota in H.

Ltac zlen_facts :=
  repeat match goal with
  | |- context [zlen ?l] =>
      lazymatch goal with
      | _ : 0 <= zlen l |- _ => fail
      | _ => pose proof (zlen_nonneg l)
      end
  | _ : context [zlen ?l] |- _ =>
      lazymatch goal with
      | _ : 0 <= zlen l |- _ => fail
      | _ => pose proof (zlen_nonneg l)
      end
  end.
Ltac zlia := autorewrite with zlen in *; zlen_facts; lia.

(** Inversion of a successful bind in a hypothesis. *)
Ltac bind_inv H :=
  match type of H with
  | obind _ _ = Ret _ =>
      let a := fresh "a" in let Ha := fresh "Ha" in
      apply obind_Ret_inv in H as [a [Ha H]]
  end.
