(* ===== verification/Clib.v ===== *)
(** The functions of the C library that the modelled sources call, on the
    byte sequences of [Prelude]: character classes of the C locale,
    [memchr], the integer conversions of [snprintf] and the readers
    [strtoul] and [atoi]. *)
From S2P Require Import Prelude.

(** * Character classes and case mapping (C locale) *)

Definition isspace (c : Z) : bool := (c =? 32) || ((9 <=? c) && (c <=? 13)).
Definition isdigit (c : Z) : bool := (48 <=? c) && (c <=? 57).
Definition isupper (c : Z) : bool := (65 <=? c) && (c <=? 90).
Definition islower (c : Z) : bool := (97 <=? c) && (c <=? 122).
Definition tolower (c : Z) : Z := if isupper c then c + 32 else c.
Definition toupper (c : Z) : Z := if islower c then c - 32 else c.

(** [memchr]: the offset of the first occurrence. *)
Fixpoint memchr (l : list Z) (c : Z) : option Z :=
  match l with
  | [] => None
  | x :: l => if x =? c then Some 0 else Z.succ <$> memchr l c
  end.

(** [memrchr]/[strrchr]: the offset of the last occurrence. *)
Fixpoint memrchr (l : list Z) (c : Z) : option Z :=
  match l with
  | [] => None
  | x :: l =>
      match memrchr l c with
      | Some i => Some (Z.succ i)
      | None => if x =? c then Some 0 else None
      end
  end.

(** [strncasecmp(a, b, n) == 0] on two blocks of [n] bytes. *)
Definition caseless_eqb (a b : list Z) : bool := bytes_eqb (tolower <$> a) (tolower <$> b).

(** [strlen] of a buffer that holds a terminating zero. *)
Fixpoint strlen (l : list Z) : outcome Z :=
  match l with
  | [] => Fault
  | x :: l => if x =? 0 then Ret 0 else let* n := strlen l in Ret (1 + n)
  end.

(** * Integer conversions *)

(** The digit characters of [snprintf]: upper case, as in ["%X"]. *)
Definition digit_char (d : Z) : Z := if d <? 10 then 48 + d else 55 + d.

Fixpoint digits_fuel (fuel : nat) (base n : Z) (acc : list Z) : list Z :=
  match fuel with
  | O => acc
  | S fuel =>
      let acc := digit_char (n mod base) :: acc in
      if n <? base then acc else digits_fuel fuel base (n / base) acc
  end.

(** The conversions ["%X"] and ["%llu"]; one more digit than the binary
    length is always enough fuel. *)
Definition digits (base n : Z) : list Z := digits_fuel (S (Z.to_nat (Z.log2 n))) base n [].

Definition fmt_X (n : Z) : list Z := digits 16 n.
Definition fmt_d (n : Z) : list Z :=
  if n <? 0 then 45 :: digits 10 (- n) else digits 10 n.

(** The value of a digit character in bases up to 36. *)
Definition digit_value (c : Z) : option Z :=
  if (48 <=? c) && (c <=? 57) then Some (c - 48)
  else if (97 <=? c) && (c <=? 122) then Some (c - 87)
  else if (65 <=? c) && (c <=? 90) then Some (c - 55)
  else None.

Definition is_xdigit (c : Z) : bool :=
  ((48 <=? c) && (c <=? 57)) || ((97 <=? c) && (c <=? 102)) || ((65 <=? c) && (c <=? 70)).

(** The value read so far by [strtoul]; digits that do not fit leave the
    result at [ULONG_MAX]. *)
Fixpoint strtoul_digits (base : Z) (acc : Z) (l : list Z) : Z :=
  match l with
  | [] => acc
  | c :: l =>
      match digit_value c with
      | Some d =>
          if d <? base
          then strtoul_digits base (Z.min SIZE_MAX (acc * base + d)) l
          else acc
      | None => acc
      end
  end.

(** [strtoul(s, NULL, 16)] on a string whose first bytes are hexadecimal
    digits or a terminator: no sign, white space or [0x] prefix. *)
Definition strtoul16 (l : list Z) : Z := strtoul_digits 16 0 l.

(** [atoi] on the bytes that follow, up to the first non digit; an empty
    number is 0. *)
Fixpoint atoi_digits (acc : Z) (l : list Z) : Z :=
  match l with
  | [] => acc
  | c :: l => if isdigit c then atoi_digits (acc * 10 + (c - 48)) l else acc
  end.

Fixpoint skip_space (l : list Z) : list Z :=
  match l with
  | c :: l' => if isspace c then skip_space l' else l
  | [] => []
  end.

Definition atoi (l : list Z) : Z :=
  match skip_space l with
  | 45 :: l => i32 (- atoi_digits 0 l)
  | 43 :: l => i32 (atoi_digits 0 l)
  | l => i32 (atoi_digits 0 l)
  end.

(** * Facts *)

Lemma memchr_Some l c i :
  memchr l c = Some i ->
  0 <= i < zlen l /\ l !! Z.to_nat i = Some c /\ Forall (fun x => x <> c) (ztake i l).
Proof.
  revert i. induction l as [|x l IH]; simpl; [done|]. intros i.
  destruct (Z.eqb_spec x c) as [->|Hne].
  - intros [= <-]. repeat split; [zlia | constructor].
  - destruct (memchr l c) as [j|] eqn:E; [|done]. intros [= <-].
    destruct (IH j eq_refl) as (Hj & Hl & Hf). rewrite zlen_cons.
    replace (Z.to_nat (Z.succ j)) with (S (Z.to_nat j)) by lia.
    repeat split; [lia | lia | done |]. rewrite ztake_cons by lia.
    constructor; [done|]. by replace (Z.succ j - 1) with j by lia.
Qed.

Lemma memchr_None l c : memchr l c = None <-> Forall (fun x => x <> c) l.
Proof.
  induction l as [|x l IH]; simpl; [done|]. rewrite Forall_cons.
  destruct (Z.eqb_spec x c) as [->|Hne].
  - naive_solver.
  - rewrite <- IH. destruct (memchr l c); naive_solver.
Qed.

Lemma memchr_app_l l c k : Forall (fun x => x <> c) l -> memchr (l ++ c :: k) c = Some (zlen l).
Proof.
  induction 1 as [|x l Hx _ IH]; simpl; [by rewrite Z.eqb_refl|].
  destruct (Z.eqb_spec x c); [done|]. rewrite IH. simpl. f_equal. zlia.
Qed.

Lemma digits_fuel_acc fuel base n acc :
  digits_fuel fuel base n acc = digits_fuel fuel base n [] ++ acc.
Proof.
  revert n acc. induction fuel as [|fuel IH]; intros n acc; simpl; [done|].
  destruct (n <? base); [done|]. by rewrite IH, (IH _ [_]), <- app_assoc.
Qed.

Lemma digit_value_char d : 0 <= d < 36 -> digit_value (digit_char d) = Some d.
Proof.
  intros H. unfold digit_char. destruct (Z.ltb_spec d 10); unfold digit_value.
  - repeat (zcase; try lia). f_equal; lia.
  - repeat (zcase; try lia). f_equal; lia.
Qed.

Lemma is_xdigit_char d : 0 <= d < 16 -> is_xdigit (digit_char d) = true.
Proof.
  intros H. unfold digit_char. destruct (Z.ltb_spec d 10); unfold is_xdigit;
    repeat (zcase; try lia); done.
Qed.

Lemma isdigit_char d : 0 <= d < 10 -> isdigit (digit_char d) = true.
Proof.
  intros H. unfold digit_char. destruct (Z.ltb_spec d 10); unfold isdigit;
    repeat (zcase; try lia); done.
Qed.

(** Reading back what was printed: the digits denote [n] and stay below the
    saturation of [strtoul]. *)
Lemma log2_div_lt base n :
  2 <= base -> base <= n -> (Z.to_nat (Z.log2 (n / base)) < Z.to_nat (Z.log2 n))%nat.
Proof.
  intros Hb Hn.
  assert (0 < n / base) by (apply Z.div_str_pos; lia).
  assert (n / base <= n / 2) by (apply Z.div_le_compat_l; lia).
  assert (Z.log2 (n / base) <= Z.log2 (n / 2)) by (by apply Z.log2_le_mono).
  assert (Z.log2 (n / 2) = Z.log2 n - 1).
  { rewrite <- Z.div2_div, Z.div2_spec, Z.log2_shiftr by lia.
    pose proof (Z.log2_pos n). lia. }
  pose proof (Z.log2_nonneg (n / base)). lia.
Qed.

Lemma strtoul_digits_fuel fuel base n k :
  2 <= base <= 16 -> 0 <= n <= SIZE_MAX -> (Z.to_nat (Z.log2 n) < fuel)%nat ->
  strtoul_digits base 0 (digits_fuel fuel base n [] ++ k) = strtoul_digits base n k.
Proof.
  intros Hb. revert n k. induction fuel as [|fuel IH]; intros n k Hn Hf; [lia|].
  simpl. assert (0 <= n mod base < base) by (apply Z.mod_pos_bound; lia).
  destruct (Z.ltb_spec n base).
  - simpl. rewrite digit_value_char by lia. rewrite Z.mod_small in * by lia.
    destruct (Z.ltb_spec n base); [|lia]. f_equal. lia.
  - rewrite digits_fuel_acc, <- app_assoc. cbn [app].
    assert (0 <= n / base <= n) by (split; [apply Z.div_pos; lia | apply Z.div_le_upper_bound; nia]).
    rewrite IH by (pose proof (log2_div_lt base n); lia).
    simpl. rewrite digit_value_char by lia.
    destruct (Z.ltb_spec (n mod base) base); [|lia]. f_equal.
    pose proof (Z.div_mod n base). lia.
Qed.

Lemma strtoul16_fmt_X n k :
  0 <= n <= SIZE_MAX -> strtoul16 (fmt_X n ++ CR :: k) = n.
Proof. intros. unfold strtoul16, fmt_X, digits. rewrite strtoul_digits_fuel by lia. done. Qed.

Lemma digits_fuel_forall (P : Z -> Prop) fuel base n :
  2 <= base -> (forall d, 0 <= d < base -> P (digit_char d)) ->
  Forall P (digits_fuel fuel base n []).
Proof.
  intros Hb HP. revert n. induction fuel as [|fuel IH]; intros n; simpl; [constructor|].
  assert (0 <= n mod base < base) by (apply Z.mod_pos_bound; lia).
  destruct (n <? base); [by repeat constructor; apply HP|].
  rewrite digits_fuel_acc. apply Forall_app. split; [apply IH | by repeat constructor; apply HP].
Qed.

Lemma fmt_X_xdigits n : Forall (fun c => is_xdigit c = true) (fmt_X n).
Proof. apply digits_fuel_forall; [lia | apply is_xdigit_char]. Qed.

Lemma digits_fuel_length fuel base n k :
  2 <= base -> 0 <= n < base ^ Z.of_nat k -> (0 < k)%nat ->
  (length (digits_fuel fuel base n []) <= k)%nat.
Proof.
  intros Hb. revert n k. induction fuel as [|fuel IH]; intros n k Hn Hk; simpl; [lia|].
  destruct (Z.ltb_spec n base); [simpl; lia|].
  rewrite digits_fuel_acc, length_app. simpl.
  destruct k as [|k]; [lia|].
  assert (n / base < base ^ Z.of_nat k).
  { apply Z.div_lt_upper_bound; [lia|]. rewrite <- Z.pow_succ_r by lia.
    replace (Z.succ (Z.of_nat k)) with (Z.of_nat (S k)) by lia. lia. }
  assert (0 < k)%nat.
  { destruct k; [|lia]. simpl in *. assert (1 <= n / base) by (apply Z.div_le_lower_bound; lia). lia. }
  assert (0 <= n / base) by (apply Z.div_pos; lia).
  specialize (IH (n / base) k). lia.
Qed.

Lemma digits_nonempty base n : digits base n <> [].
Proof.
  unfold digits. simpl. destruct (n <? base); [done|].
  rewrite digits_fuel_acc. by destruct (digits_fuel _ _ _ []).
Qed.
