(* ===== verification/Strings.v ===== *)
(** The sized-string helpers of core/strings.c.

    A sized argument [(char *s, len)] is the list of its bytes, a C string
    argument the list of its bytes without the terminator; lengths are below
    [2^31], as the [int] parameters of the source require. *)
From S2P Require Import Prelude Clib.

(** * Comparison *)

(** [strncasecmp(a, b, n) == 0] on two blocks of [n] bytes: the comparison
    stops at a terminator. *)
Fixpoint strncasecmp_eq (a b : list Z) : bool :=
  match a, b with
  | x :: a, y :: b =>
      (tolower x =? tolower y) && ((x =? 0) || strncasecmp_eq a b)
  | _, _ => true
  end.

(** The comparisons return 0 on equality; the models return whether they do. *)
Definition upsgi_strncmp (src dst : list Z) : bool :=
  if negb (zlen src =? zlen dst) then false else bytes_eqb src dst.

Definition upsgi_strnicmp (src dst : list Z) : bool :=
  if negb (zlen src =? zlen dst) then false else strncasecmp_eq src dst.

Definition upsgi_starts_with (src dst : list Z) : bool :=
  if zlen src <? zlen dst then false else bytes_eqb (ztake (zlen dst) src) dst.

(** [upsgi_startswith(src, what, wlen)]: no bound on [src] but the object it
    points to. *)
Definition upsgi_startswith (src what : list Z) : outcome bool :=
  let* s := mslice src 0 (zlen what) in Ret (bytes_eqb what s).

(** [struct upsgi_string_list]: the values in list order; the result is the
    position of the item found. *)
Fixpoint upsgi_string_list_has_item (usl : list (list Z)) (key : list Z) : option nat :=
  match usl with
  | [] => None
  | v :: l => if (zlen key =? zlen v) && bytes_eqb key v then Some 0%nat
              else S <$> upsgi_string_list_has_item l key
  end.

(** * Searching *)

Definition upsgi_str_occurence (str : list Z) (what : Z) : Z :=
  foldl (fun count c => if c =? what then count + 1 else count) 0 str.

Definition upsgi_str_contains (str : list Z) (what : Z) : option Z := memchr str what.
Definition upsgi_get_last_char (what : list Z) (c : Z) : option Z := memrchr what c.
Definition upsgi_get_last_charn (what : list Z) (c : Z) : option Z := memrchr what c.

(** [ptr] is what is left of [s2]. *)
Fixpoint contains_n_loop (s1 s2 ptr : list Z) : outcome bool :=
  match s1 with
  | [] => Ret false
  | c :: s1 =>
      let* p := mread ptr 0 in
      if c =? p then
        let ptr := zdrop 1 ptr in
        if zlen ptr =? 0 then Ret true else contains_n_loop s1 s2 ptr
      else contains_n_loop s1 s2 s2
  end.
Definition upsgi_contains_n (s1 s2 : list Z) : outcome bool := contains_n_loop s1 s2 s2.

(** The field being read ([chosen], [chosen_len]) is its bytes so far. *)
Fixpoint split_nget_loop (str : list Z) (what : Z) (pos current : Z) (chosen : list Z) : option (list Z) :=
  match str with
  | [] =>
      if current =? pos then (if zlen chosen =? 0 then None else Some chosen) else None
  | c :: str =>
      if c =? what then
        if current =? pos then (if zlen chosen =? 0 then None else Some chosen)
        else split_nget_loop str what pos (current + 1) []
      else split_nget_loop str what pos current (chosen ++ [c])
  end.
Definition upsgi_str_split_nget (str : list Z) (what : Z) (pos : Z) : option (list Z) :=
  split_nget_loop str what pos 0 [].

(** * Copies

    The blocks returned are terminated. *)

Definition upsgi_lower (str : list Z) : list Z := tolower <$> str.
Definition upsgi_strncopy (s : list Z) : list Z := s ++ [0].
Definition upsgi_concatn (items : list (list Z)) : list Z := foldl app [] items ++ [0].
Definition upsgi_concat (items : list (list Z)) : list Z := foldl app [] items ++ [0].
Definition upsgi_concat2 (one two : list Z) : list Z := one ++ two ++ [0].
Definition upsgi_concat3 (one two three : list Z) : list Z := one ++ two ++ three ++ [0].
Definition upsgi_concat4 (one two three four : list Z) : list Z := one ++ two ++ three ++ four ++ [0].
Definition upsgi_concat2n (one two : list Z) : list Z := one ++ two ++ [0].
Definition upsgi_concat2nn (one two : list Z) : list Z * Z :=
  (one ++ two ++ [0], zlen one + zlen two + 1).
Definition upsgi_concat3n (one two three : list Z) : list Z := one ++ two ++ three ++ [0].
Definition upsgi_concat4n (one two three four : list Z) : list Z := one ++ two ++ three ++ four ++ [0].

(** [upsgi_cheap_string(buf, len)] moves the [len] bytes at [p] in [m] one
    byte back and terminates them. *)
Fixpoint cheap_string_loop (n : nat) (m : list Z) (src : Z) : outcome (list Z) :=
  match n with
  | O => Ret m
  | S n =>
      let* c := mread m src in
      let* m := mwrite m (src - 1) [c] in
      cheap_string_loop n m (src + 1)
  end.
Definition upsgi_cheap_string (m : list Z) (p len : Z) : outcome (list Z) :=
  let* m := cheap_string_loop (Z.to_nat len) m p in
  mwrite m (p + len - 1) [0].

(** * Splitting with quotes *)

Inductive quote_status : Type :=
| Append
| SingleQuote
| DoubleQuote
| Backslash
| BackslashSingle
| BackslashDouble.

(** An item under construction: the size of its block and its bytes. *)
Abbreviation qitem := (Z * list Z)%type.
Definition qpush (it : qitem) (c : Z) : outcome qitem :=
  if zlen it.2 <? it.1 then Ret (it.1, it.2 ++ [c]) else Fault.
(** [*ptr++ = 0; ret[rlen++] = item;] *)
Definition qemit (what_len : Z) (it : qitem) (ret : list (list Z)) : outcome (list (list Z)) :=
  let* _ := qpush it 0 in
  if zlen ret <? what_len + 1 then Ret (ret ++ [it.2]) else Fault.

(** [strchr(sep, c)], which finds the terminator of [sep] too. *)
Definition is_sep (sep : list Z) (c : Z) : bool := (c =? 0) || bool_decide (c ∈ sep).

(** One byte: the new status, the item (none when a separator closed it) and
    the items so far. *)
Definition split_quoted_step (sep : list Z) (what_len : Z) (c : Z) (status : quote_status)
    (it : qitem) (ret : list (list Z)) : outcome (quote_status * option qitem * list (list Z)) :=
  let push s := let* it := qpush it c in Ret (s, Some it, ret) in
  match status with
  | Append =>
      if c =? 92 then Ret (Backslash, Some it, ret)
      else if c =? 34 then Ret (DoubleQuote, Some it, ret)
      else if c =? 39 then Ret (SingleQuote, Some it, ret)
      else if is_sep sep c then
        let* ret := qemit what_len it ret in Ret (Append, None, ret)
      else push Append
  | Backslash => push Append
  | SingleQuote =>
      if c =? 92 then Ret (BackslashSingle, Some it, ret)
      else if c =? 39 then Ret (Append, Some it, ret)
      else push SingleQuote
  | DoubleQuote =>
      if c =? 92 then Ret (BackslashDouble, Some it, ret)
      else if c =? 34 then Ret (Append, Some it, ret)
      else push DoubleQuote
  | BackslashSingle => push SingleQuote
  | BackslashDouble => push DoubleQuote
  end.

Fixpoint split_quoted_loop (sep : list Z) (what_len : Z) (rest : list Z) (status : quote_status)
    (item : option qitem) (ret : list (list Z)) : outcome (list (list Z)) :=
  match rest with
  | [] => match item with Some it => qemit what_len it ret | None => Ret ret end
  | c :: rest' =>
      (* upsgi_malloc((what_len - i) + 1) *)
      let it := default (zlen rest + 1, []) item in
      let* (sr, ret) := split_quoted_step sep what_len c status it ret in
      split_quoted_loop sep what_len rest' sr.1 sr.2 ret
  end.

Definition upsgi_split_quoted (what sep : list Z) : outcome (list (list Z)) :=
  split_quoted_loop sep (zlen what) what Append None [].

(** * Lemmas *)

Lemma upsgi_strncmp_spec a b : upsgi_strncmp a b = bytes_eqb a b.
Proof.
  unfold upsgi_strncmp. destruct (Z.eqb_spec (zlen a) (zlen b)) as [|H]; [done|].
  cbn. symmetry. apply bool_decide_eq_false_2. by intros ->.
Qed.

Lemma strncasecmp_eq_tolower a b :
  tolower <$> a = tolower <$> b -> strncasecmp_eq a b = true.
Proof.
  revert b. induction a as [|x a IH]; intros [|y b]; cbn; try done.
  intros [= -> H]. rewrite Z.eqb_refl. cbn. rewrite IH by done. by rewrite orb_true_r.
Qed.

Lemma strncasecmp_eq_inv a b :
  Forall (fun c => c <> 0) a -> zlen a = zlen b -> strncasecmp_eq a b = true -> tolower <$> a = tolower <$> b.
Proof.
  intros HF. revert b. induction HF as [|x a Hx HF IH]; intros [|y b]; cbn [strncasecmp_eq fmap list_fmap];
    rewrite ?zlen_nil, ?zlen_cons; intros Hl; zlen_facts; try done; try lia.
  destruct (Z.eqb_spec (tolower x) (tolower y)) as [->|]; [|done].
  destruct (Z.eqb_spec x 0); [done|]. cbn. intros Heq. f_equal. apply IH; [lia | done].
Qed.

Lemma tolower_zero x : tolower x = 0 <-> x = 0.
Proof. unfold tolower, isupper. repeat zcase; lia. Qed.

Lemma strncasecmp_eq_sym a b : strncasecmp_eq a b = strncasecmp_eq b a.
Proof.
  revert b. induction a as [|x a IH]; intros [|y b]; cbn; try done. rewrite IH, Z.eqb_sym.
  destruct (Z.eqb_spec (tolower y) (tolower x)) as [E|]; [|done]. do 2 f_equal.
  apply Bool.eq_iff_eq_true. rewrite !Z.eqb_eq, <- (tolower_zero x), <- (tolower_zero y), E. done.
Qed.

Lemma strncasecmp_eq_trans a b c :
  length a = length b ->
  strncasecmp_eq a b = true -> strncasecmp_eq b c = true -> strncasecmp_eq a c = true.
Proof.
  revert b c. induction a as [|x a IH]; intros [|y b] [|z c] Hl; cbn; try done. injection Hl as Hl.
  rewrite !andb_true_iff, !orb_true_iff, !Z.eqb_eq. intros [E1 H1] [E2 H2]. split; [congruence|].
  destruct H1 as [H1|H1]; [by left|]. destruct H2 as [H2|H2]; [|right; eapply IH; eauto].
  left. apply tolower_zero. rewrite E1. by apply tolower_zero.
Qed.

Lemma upsgi_strnicmp_len a b : upsgi_strnicmp a b = true -> zlen a = zlen b.
Proof. unfold upsgi_strnicmp. destruct (Z.eqb_spec (zlen a) (zlen b)); done. Qed.

Lemma upsgi_strnicmp_refl a : upsgi_strnicmp a a = true.
Proof. unfold upsgi_strnicmp. rewrite Z.eqb_refl. by apply strncasecmp_eq_tolower. Qed.

Lemma upsgi_strnicmp_lower a b :
  Forall (fun c => c <> 0) a ->
  upsgi_strnicmp a b = true <-> tolower <$> a = tolower <$> b.
Proof.
  intros HF. unfold upsgi_strnicmp. destruct (Z.eqb_spec (zlen a) (zlen b)) as [E|E]; cbn; split.
  - by apply strncasecmp_eq_inv.
  - apply strncasecmp_eq_tolower.
  - done.
  - intros H. apply (f_equal length) in H. rewrite !length_fmap in H. unfold zlen in E. lia.
Qed.

Lemma upsgi_starts_with_spec a b : upsgi_starts_with a b = true <-> exists k, a = b ++ k.
Proof.
  unfold upsgi_starts_with. split.
  - zcase; [done|]. intros E%bytes_eqb_spec. exists (zdrop (zlen b) a). by rewrite <- E at 1; rewrite ztake_zdrop.
  - intros [k ->]. rewrite zlen_app. pose proof (zlen_nonneg k). zcase; [lia|].
    apply bytes_eqb_spec. by apply ztake_app_length.
Qed.

(** ** Quoted splitting *)

(** The room left in the block of the item and in the array of items. *)
Definition sq_inv (what_len : Z) (rest : list Z) (item : option qitem) (ret : list (list Z)) : Prop :=
  zlen ret + zlen rest <= what_len /\
    match item with Some it => (zlen it.2 + zlen rest < it.1) | None => True end.

Lemma qpush_ok it c : zlen it.2 < it.1 -> qpush it c = Ret (it.1, it.2 ++ [c]).
Proof. intros. unfold qpush. by rewrite (proj2 (Z.ltb_lt _ _)). Qed.

Lemma qemit_ok what_len it ret :
  zlen it.2 < it.1 -> zlen ret <= what_len -> qemit what_len it ret = Ret (ret ++ [it.2]).
Proof.
  intros. unfold qemit. rewrite qpush_ok by done. cbn [obind].
  by rewrite (proj2 (Z.ltb_lt _ _)) by lia.
Qed.

Lemma split_quoted_step_inv sep W c rest status item ret :
  sq_inv W (c :: rest) item ret ->
  exists s' item' ret',
    split_quoted_step sep W c status (default (zlen (c :: rest) + 1, []) item) ret = Ret (s', item', ret') /\
    sq_inv W rest item' ret'.
Proof.
  intros [Hr Hi]. rewrite zlen_cons in *. zlen_facts.
  set (it := default _ item).
  assert (zlen it.2 + 1 + zlen rest < it.1) as Hit.
  { subst it. destruct item as [it|]; cbv [default from_option id fst snd] in *; [lia | rewrite zlen_nil; lia]. }
  clearbody it. unfold split_quoted_step. destruct status;
  repeat case_match; rewrite ?qpush_ok, ?qemit_ok by lia; cbn [obind];
    do 3 eexists; (split; [done|]); split; cbn [fst snd]; rewrite ?zlen_app; cbn; try lia;
    change (zlen [_]) with 1; lia.
Qed.

Lemma split_quoted_loop_total sep W rest status item ret :
  sq_inv W rest item ret ->
  exists items, split_quoted_loop sep W rest status item ret = Ret items /\ zlen items <= W + 1.
Proof.
  revert status item ret. induction rest as [|c rest IH]; intros status item ret Hinv.
  - destruct Hinv as [Hr Hi]. rewrite zlen_nil in *. cbn. destruct item as [it|]; [|eexists; split; [done|lia]].
    rewrite qemit_ok by lia. eexists. split; [done|]. rewrite zlen_app. change (zlen [_]) with 1. lia.
  - destruct (split_quoted_step_inv sep W c rest status item ret Hinv) as (s' & item' & ret' & E & Hinv').
    cbn [split_quoted_loop]. rewrite E. cbn [obind fst snd]. by apply IH.
Qed.

(** [upsgi_split_quoted] writes inside the blocks it allocates, for every
    input: no item outgrows its [what_len - i + 1] bytes and the items fit in
    the array of [what_len + 1] pointers. *)
Theorem split_quoted_total what sep :
  exists items, upsgi_split_quoted what sep = Ret items /\ zlen items <= zlen what + 1.
Proof. apply split_quoted_loop_total. split; [rewrite zlen_nil; lia | done]. Qed.

(** An argument with every byte escaped, and arguments joined by [sepc]. *)
Definition quote_item (w : list Z) : list Z := w ≫= (fun c => [92; c]).
Fixpoint quote_join (sepc : Z) (ws : list (list Z)) : list Z :=
  match ws with
  | [] => []
  | [w] => quote_item w
  | w :: ws => quote_item w ++ sepc :: quote_join sepc ws
  end.

Lemma split_quoted_item sep W w rest cap b ret :
  sq_inv W (quote_item w ++ rest) (Some (cap, b)) ret ->
  split_quoted_loop sep W (quote_item w ++ rest) Append (Some (cap, b)) ret =
  split_quoted_loop sep W rest Append (Some (cap, b ++ w)) ret.
Proof.
  revert b. induction w as [|c w IH]; intros b; [cbn; by rewrite app_nil_r|].
  change (quote_item (c :: w) ++ rest) with (92 :: c :: (quote_item w ++ rest)).
  intros [H1 H2]. rewrite !zlen_cons in *. cbn [fst snd] in H2. zlen_facts. cbn -[qpush].
  rewrite qpush_ok by (cbn; lia). cbn -[qpush]. rewrite IH; [by rewrite <- app_assoc|].
  split; cbn [fst snd]; rewrite ?(zlen_app b); change (zlen [c]) with 1; lia.
Qed.

Lemma split_quoted_start sep W rest ret :
  rest <> [] ->
  split_quoted_loop sep W rest Append None ret =
  split_quoted_loop sep W rest Append (Some (zlen rest + 1, [])) ret.
Proof. by destruct rest. Qed.

Lemma split_quoted_join sep W sepc ws ret :
  is_sep sep sepc = true -> sepc <> 92 -> sepc <> 34 -> sepc <> 39 ->
  (forall w, last ws = Some w -> w <> []) ->
  zlen ret + zlen (quote_join sepc ws) <= W ->
  split_quoted_loop sep W (quote_join sepc ws) Append None ret = Ret (ret ++ ws).
Proof.
  intros Hsep N1 N2 N3. revert ret. induction ws as [|w [|w' ws] IH]; intros ret Hlast HW.
  - cbn. by rewrite app_nil_r.
  - cbn [quote_join] in *. rewrite split_quoted_start.
    2: { specialize (Hlast w eq_refl). by destruct w. }
    rewrite <- (app_nil_r (quote_item w)) at 1. zlen_facts.
    rewrite split_quoted_item; [|split; cbn [fst snd]; rewrite ?app_nil_r, ?zlen_nil; lia].
    cbn -[qemit]. apply qemit_ok; cbn; [|lia].
    assert (zlen w <= zlen (quote_item w)); [|lia].
    clear. induction w; [done|]. change (quote_item (a :: w)) with (92 :: a :: quote_item w).
    rewrite !zlen_cons. lia.
  - remember (w' :: ws) as ws' eqn:Ews.
    assert (quote_join sepc (w :: ws') = quote_item w ++ sepc :: quote_join sepc ws') as E by by rewrite Ews.
    rewrite E in HW |- *. rewrite split_quoted_start by (by destruct w).
    rewrite zlen_app, zlen_cons in HW. zlen_facts.
    rewrite split_quoted_item; [|split; cbn [fst snd]; rewrite ?zlen_nil, ?zlen_app, ?zlen_cons; lia].
    cbn -[qemit]. rewrite (proj2 (Z.eqb_neq _ _) N1), (proj2 (Z.eqb_neq _ _) N2), (proj2 (Z.eqb_neq _ _) N3), Hsep.
    assert (zlen w <= zlen (quote_item w)).
    { clear. induction w; [done|]. change (quote_item (a :: w)) with (92 :: a :: quote_item w).
      rewrite !zlen_cons. lia. }
    rewrite qemit_ok by (cbn; rewrite ?zlen_app, ?zlen_cons; lia). cbn [obind fst snd].
    rewrite IH; [by rewrite <- app_assoc | by rewrite Ews in * |].
    rewrite zlen_app. change (zlen [w]) with 1. lia.
Qed.

(** Round trip of the quoted splitter: any arguments, with every byte
    escaped by a backslash and joined by a separator, come back unchanged.
    (The last one must not be empty: a trailing separator ends the list.) *)
Theorem split_quoted_roundtrip sep sepc ws :
  is_sep sep sepc = true -> sepc <> 92 -> sepc <> 34 -> sepc <> 39 ->
  (forall w, last ws = Some w -> w <> []) ->
  upsgi_split_quoted (quote_join sepc ws) sep = Ret ws.
Proof.
  intros. unfold upsgi_split_quoted. rewrite split_quoted_join; try done; rewrite ?zlen_nil; lia.
Qed.

Lemma split_quoted_roundtrip_witness :
  upsgi_split_quoted (quote_join 32 [chars "a b"; []; [34; 92]]) (chars " ") = Ret [chars "a b"; []; [34; 92]].
Proof. apply (split_quoted_roundtrip); try done. intros w [= <-]. done. Defined.

(** ** Substring search *)

Lemma contains_n_loop_sound s1 s2 pre ptr :
  s2 = pre ++ ptr -> contains_n_loop s1 s2 ptr = Ret true -> exists k, pre ++ s1 = s2 ++ k \/ (exists a b, s1 = a ++ s2 ++ b) .
Proof.
  intros ->. remember (pre ++ ptr) as s2 eqn:E. revert pre ptr E.
  induction s1 as [|c s1 IH]; intros pre ptr E; [done|]. cbn [contains_n_loop].
  destruct ptr as [|p ptr]; [done|]. change (mread (p :: ptr) 0) with (Ret p). cbn [obind].
  destruct (Z.eqb_spec c p) as [->|].
  - change (zdrop 1 (p :: ptr)) with ptr. destruct (Z.eqb_spec (zlen ptr) 0) as [Hz|].
    + intros _. apply zlen_zero_inv in Hz as ->. exists s1. left. by rewrite E, <- app_assoc.
    + intros H. destruct (IH (pre ++ [p]) ptr) as [k [H1|(a & b & H1)]]; [by rewrite E, <- app_assoc | exact H | |].
      * exists k. left. by rewrite <- H1, <- app_assoc.
      * exists k. right. exists (p :: a), b. by rewrite H1.
  - intros H. destruct (IH [] s2 eq_refl H) as [k [H1|(a & b & H1)]].
    + exists k. right. exists [c], k. cbn in H1. by rewrite H1.
    + exists k. right. exists (c :: a), b. by rewrite H1.
Qed.

(** [upsgi_contains_n] answers yes only for a substring, and it misses
    some: after a partial match the byte that broke it is not compared with
    the start of the needle, so [bbr] does not contain [br]. *)
Theorem contains_n_sound_incomplete :
  (forall s1 s2, upsgi_contains_n s1 s2 = Ret true -> exists a b, s1 = a ++ s2 ++ b) /\
  upsgi_contains_n (chars "bbr") (chars "br") = Ret false.
Proof.
  split; [|reflexivity]. intros s1 s2 H.
  destruct (contains_n_loop_sound s1 s2 [] s2 eq_refl H) as [k [H1|H1]]; [|done].
  by exists [], k.
Qed.
