(* ===== verification/UrlPath.v ===== *)
(** PATH_INFO: the percent decoder with dot segment removal of core/utils.c
    ([hex2num], [http_url_decode4]) and the test of proto/http.c that lets
    the HTTP parser skip it ([http_path_needs_decode]). *)
From S2P Require Import Prelude Clib.

Definition SLASH : Z := 47.
Definition DOT : Z := 46.
Definition PERCENT : Z := 37.
Definition HASH : Z := 35.

(** * Definitions *)

(** One digit of [hex2num]; the two branches of the source for the letters
    have the same body. *)
Definition hex_digit (c : Z) : option Z :=
  if (48 <=? c) && (c <=? 57) then Some (Z.land c 15)
  else if (65 <=? c) && (c <=? 70) then Some (Z.land c 15 + 9)
  else if (97 <=? c) && (c <=? 102) then Some (Z.land c 15 + 9)
  else None.

(** The [char] result, as a byte. *)
Definition hex2num (v0 v1 : Z) : Z :=
  match hex_digit v0 with
  | Some a =>
      match hex_digit v1 with
      | Some b => u8 (Z.shiftl a 4 + b)
      | None => 0
      end
  | None => 0
  end.

Inductive ustatus : Type := zero | percent1 | percent2 | slash | dot | dotdot.

(** The bytes written to [dst] so far; [new_len] is their number.  [dst] has
    room for [cap] bytes. *)
Definition put (cap : Z) (out bs : list Z) : outcome (list Z) :=
  if zlen out + zlen bs <=? cap then Ret (out ++ bs) else Fault.

(** Remove the last segment with its slash, as the [while] loop of state
    [dotdot] does. *)
Fixpoint remove_segment (dst : list Z) (current_new_len : nat) : nat :=
  match current_new_len with
  | O => O
  | S n => if bool_decide (dst !! n = Some SLASH) then n else remove_segment dst n
  end.

(** The loop that follows the scan keeps the slash. *)
Fixpoint trim_segment (dst : list Z) (current_new_len : nat) : nat :=
  match current_new_len with
  | O => O
  | S n => if bool_decide (dst !! n = Some SLASH) then S n else trim_segment dst n
  end.

(** One byte [c] at index [i]: the new status, [value[0]] and the output. *)
Definition url_decode4_step (cap : Z) (no_slash_decode no_slash : bool) (i c : Z)
    (status : ustatus) (value0 : Z) (out : list Z) : outcome (ustatus * Z * list Z) :=
  match status with
  | zero =>
      if c =? PERCENT then Ret (percent1, value0, out)
      else if c =? SLASH then Ret (slash, value0, out)
      else let* out := put cap out [c] in Ret (zero, value0, out)
  | percent1 =>
      if c =? PERCENT then let* out := put cap out [PERCENT] in Ret (zero, value0, out)
      else Ret (percent2, c, out)
  | percent2 =>
      if no_slash_decode && (value0 =? 50) && ((c =? 70) || (c =? 102)) then
        let* out := put cap out [PERCENT; value0; c] in Ret (zero, value0, out)
      else
        let* out := put cap out [hex2num value0 c] in Ret (zero, value0, out)
  | slash =>
      if c =? DOT then Ret (dot, value0, out)
      else
        (* we could be at the first round (in non slash) *)
        let* out := if (0 <? i) || negb no_slash then put cap out [SLASH] else Ret out in
        if c =? PERCENT then Ret (percent1, value0, out)
        else if c =? SLASH then Ret (slash, value0, out)
        else let* out := put cap out [c] in Ret (zero, value0, out)
  | dot =>
      if c =? DOT then Ret (dotdot, value0, out)
      else if c =? SLASH then Ret (slash, value0, out)
      else
        let* out := if 1 <? i then put cap out [SLASH] else Ret out in
        let* out := put cap out [DOT] in
        if c =? PERCENT then Ret (percent1, value0, out)
        else let* out := put cap out [c] in Ret (zero, value0, out)
  | dotdot =>
      (* here we need to remove a segment *)
      if c =? SLASH then Ret (slash, value0, take (remove_segment out (length out)) out)
      else
        let* out := if 2 <? i then put cap out [SLASH] else Ret out in
        let* out := put cap out [DOT] in
        let* out := put cap out [DOT] in
        if c =? PERCENT then Ret (percent1, value0, out)
        else let* out := put cap out [c] in Ret (zero, value0, out)
  end.

Fixpoint url_decode4_loop (cap : Z) (no_slash_decode no_slash : bool) (i : Z) (rest : list Z)
    (status : ustatus) (value0 : Z) (out : list Z) : outcome (ustatus * list Z) :=
  match rest with
  | [] => Ret (status, out)
  | c :: rest =>
      if c =? HASH then Ret (status, out)
      else
        let* (sv, out) := url_decode4_step cap no_slash_decode no_slash i c status value0 out in
        url_decode4_loop cap no_slash_decode no_slash (i + 1) rest sv.1 sv.2 out
  end.

Definition url_decode4_finish (cap : Z) (status : ustatus) (out : list Z) : outcome (list Z) :=
  match status with
  | slash | dot => put cap out [SLASH]
  | dotdot => Ret (take (trim_segment out (length out)) out)
  | _ => Ret out
  end.

(** [dst] has [cap] bytes; the result is its first [*len] bytes. *)
Definition http_url_decode4 (cap : Z) (buf : list Z) (no_slash_decode : bool) : outcome (list Z) :=
  let no_slash := match buf with c :: _ => negb (c =? SLASH) | [] => false end in
  let status := if no_slash then slash else zero in
  let* (status, out) := url_decode4_loop cap no_slash_decode no_slash 0 buf status 48 [] in
  url_decode4_finish cap status out.

(** The body of the loop of [http_path_needs_decode] at [path = c :: rest];
    [true] means [return 1]. *)
Definition needs_decode_at (c : Z) (rest : list Z) : bool :=
  if (c =? PERCENT) || (c =? HASH) then true
  else if negb (c =? SLASH) then false
  else match rest with
  | [] => false
  | c1 :: rest =>
      if c1 =? SLASH then true
      else if negb (c1 =? DOT) then false
      else match rest with
      | [] => true
      | c2 :: rest =>
          if c2 =? SLASH then true
          else (c2 =? DOT) && match rest with [] => true | c3 :: _ => c3 =? SLASH end
      end
  end.

Fixpoint needs_decode_loop (path : list Z) : bool :=
  match path with
  | [] => false
  | c :: rest => needs_decode_at c rest || needs_decode_loop rest
  end.

Definition http_path_needs_decode (path : list Z) : bool :=
  match path with
  | [] => false
  | c :: _ => if negb (c =? SLASH) then true else needs_decode_loop path
  end.

(** * Bounds *)

Lemma put_ok cap out bs : zlen out + zlen bs <= cap -> put cap out bs = Ret (out ++ bs).
Proof. intros. unfold put. by rewrite (proj2 (Z.leb_le _ _)). Qed.

Lemma remove_segment_le dst n : (remove_segment dst n <= n)%nat.
Proof. induction n; cbn; [lia|]. case_bool_decide; lia. Qed.
Lemma trim_segment_le dst n : (trim_segment dst n <= n)%nat.
Proof. induction n; cbn; [lia|]. case_bool_decide; lia. Qed.

Lemma zlen_firstn {A} (n : nat) (l : list A) : zlen (take n l) <= zlen l.
Proof. unfold zlen. rewrite length_take. lia. Qed.

(** The bytes that a state has consumed and not written yet. *)
Definition pending (no_slash : bool) (i : Z) (status : ustatus) : Z :=
  match status with
  | zero => 0
  | percent1 => 1
  | percent2 => 2
  | slash => if (0 <? i) || negb no_slash then 1 else 0
  | dot => if 1 <? i then 2 else 1
  | dotdot => if 2 <? i then 3 else 2
  end.

Definition dec_inv (no_slash : bool) (i : Z) (status : ustatus) (out : list Z) : Prop :=
  zlen out + pending no_slash i status <= i /\ 0 <= i /\
  (status = slash -> no_slash = false -> 0 < i) /\
  (status = dot -> 0 < i /\ (no_slash = false -> 1 < i)) /\
  (status = dotdot -> 1 < i /\ (no_slash = false -> 2 < i)).

Lemma decode4_step_inv cap nsd ns i c status v out :
  dec_inv ns i status out -> i < cap ->
  exists status' v' out',
    url_decode4_step cap nsd ns i c status v out = Ret (status', v', out') /\ dec_inv ns (i + 1) status' out'.
Proof.
  intros (Hp & H0 & Hs & Hd & Hdd) Hcap. unfold dec_inv.
  assert (forall x : Z, zlen [x] = 1) as L1 by reflexivity.
  assert (forall x y z : Z, zlen [x; y; z] = 3) as L3 by reflexivity.
  pose proof (zlen_firstn (remove_segment out (length out)) out).
  destruct status; cbn [url_decode4_step pending] in *;
    repeat (match goal with |- context [if ?b then _ else _] => destruct b eqn:? end);
    cbn [obind]; repeat (rewrite put_ok by (rewrite ?zlen_app, ?L1, ?L3; lia); cbn [obind]);
    do 3 eexists; (split; [reflexivity|]);
    rewrite ?zlen_app, ?L1, ?L3; cbn [pending];
    split_and!; try done; intros; repeat split; intros; try lia;
    repeat (match goal with |- context [if ?b then _ else _] => destruct b eqn:? end); try lia.
  all: try (specialize (Hs eq_refl)); try (specialize (Hd eq_refl)); try (specialize (Hdd eq_refl)).
  all: repeat (match type of Hp with context [if ?b then _ else _] => destruct b eqn:? end);
    destruct ns; cbn [negb] in *; lia.
Qed.

Lemma decode4_loop_inv cap nsd ns rest i status v out :
  dec_inv ns i status out -> i + zlen rest <= cap ->
  exists i' status' out',
    url_decode4_loop cap nsd ns i rest status v out = Ret (status', out') /\ dec_inv ns i' status' out' /\
    i <= i' <= i + zlen rest.
Proof.
  revert i status v out. induction rest as [|c rest IH]; intros i status v out Hinv Hcap; cbn [url_decode4_loop].
  - rewrite zlen_nil in *. exists i, status, out. split_and!; [done.. | lia | lia].
  - rewrite zlen_cons in *. zlen_facts. destruct (c =? HASH).
    { exists i, status, out. split_and!; [done.. | lia | lia]. }
    destruct (decode4_step_inv cap nsd ns i c status v out Hinv ltac:(lia)) as (s' & v' & out' & -> & Hinv').
    cbn [obind fst snd].
    destruct (IH (i + 1) s' v' out' Hinv' ltac:(lia)) as (i2 & s2 & out2 & -> & Hinv2 & Hi2).
    exists i2, s2, out2. split_and!; [done.. | lia | lia].
Qed.

Lemma url_decode4_total buf nsd :
  exists out, http_url_decode4 (zlen buf) buf nsd = Ret out /\ zlen out <= zlen buf.
Proof.
  unfold http_url_decode4. destruct buf as [|c0 buf']; [eexists; split; [done | rewrite zlen_nil; lia]|].
  set (buf := c0 :: buf'). set (ns := negb (c0 =? SLASH)).
  destruct (decode4_loop_inv (zlen buf) nsd ns buf 0 (if ns then slash else zero) 48 [])
    as (i & status & out & -> & (Hp & H0 & Hs & Hd & Hdd) & Hi).
  { unfold dec_inv. rewrite zlen_nil. destruct ns; cbn; split_and!; done || lia. }
  { lia. }
  cbn [obind]. assert (1 <= zlen buf) by (unfold buf; rewrite zlen_cons; zlen_facts; lia).
  assert (forall x : Z, zlen [x] = 1) as L1 by reflexivity.
  pose proof (zlen_firstn (trim_segment out (length out)) out).
  destruct status; cbn [url_decode4_finish pending] in *; rewrite ?put_ok;
    try (eexists; split; [reflexivity|]); rewrite ?zlen_app, ?L1;
    repeat (match type of Hp with context [if ?b then _ else _] => destruct b eqn:? end); lia.
Qed.

(** C36: the decoded path never outgrows the block of [path_len] bytes the
    parser allocates for it, for every path and in both modes. *)
Theorem url_decode4_in_bounds buf nsd :
  exists out, http_url_decode4 (zlen buf) buf nsd = Ret out /\ zlen out <= zlen buf.
Proof. apply url_decode4_total. Qed.

(** * The fast path *)

Definition unwritten (status : ustatus) : list Z :=
  match status with
  | slash => [SLASH]
  | dot => [SLASH; DOT]
  | dotdot => [SLASH; DOT; DOT]
  | _ => []
  end.

Definition plain_status (status : ustatus) : Prop :=
  match status with percent1 | percent2 => False | _ => True end.

(** The scan from a state reached on [unwritten status]. *)
Lemma plain_scan cap nsd ns rest i status v out :
  plain_status status -> zlen (unwritten status) <= i ->
  needs_decode_loop (unwritten status ++ rest) = false ->
  zlen out + zlen (unwritten status) + zlen rest <= cap ->
  (let* (s, o) := url_decode4_loop cap nsd ns i rest status v out in url_decode4_finish cap s o)
  = Ret (out ++ unwritten status ++ rest).
Proof.
  assert (forall x : Z, zlen [x] = 1) as L1 by reflexivity.
  revert i status v out. induction rest as [|c rest IH]; intros i status v out Hs Hi Hn Hcap.
  - destruct status; try done; cbn [unwritten url_decode4_loop obind url_decode4_finish] in *;
      rewrite ?put_ok; rewrite ?app_nil_r; try done. rewrite zlen_nil in Hcap. lia.
  - rewrite zlen_cons in Hcap. zlen_facts.
    destruct (Z.eqb_spec c HASH) as [->|Hh].
    { destruct status; try done; cbn in Hn; rewrite ?orb_true_r in Hn; done. }
    destruct (Z.eqb_spec c PERCENT) as [->|Hp].
    { destruct status; try done; cbn in Hn; rewrite ?orb_true_r in Hn; done. }
    cbn [url_decode4_loop]. rewrite (proj2 (Z.eqb_neq _ _) Hh).
    assert (forall st, (c =? PERCENT) = false -> needs_decode_loop (unwritten st ++ c :: rest) = false ->
      needs_decode_loop rest = false) as Htail.
    { intros st _. destruct st; cbn [unwritten app needs_decode_loop]; rewrite !orb_false_iff; tauto. }
    apply Z.eqb_neq in Hp. specialize (Htail status Hp Hn).
    destruct status; try done; cbn [unwritten url_decode4_step] in *; rewrite ?Hp;
      rewrite ?zlen_cons, ?zlen_nil in Hi, Hcap.
    + destruct (Z.eqb_spec c SLASH) as [->|Hc].
      * cbn [obind fst snd]. rewrite IH; cbn [unwritten]; try done; rewrite ?L1; lia.
      * rewrite put_ok by (rewrite L1; lia). cbn [obind fst snd].
        rewrite IH; cbn [unwritten]; try done; rewrite ?zlen_app, ?L1, ?zlen_nil; try lia.
        by rewrite <- app_assoc.
    + destruct (Z.eqb_spec c DOT) as [->|Hd].
      * cbn [obind fst snd]. rewrite IH; cbn [unwritten]; try done; rewrite ?zlen_cons, ?zlen_nil; lia.
      * rewrite (proj2 (Z.ltb_lt 0 i)) by lia. cbn [orb]. rewrite put_ok by (rewrite L1; lia). cbn [obind].
        destruct (Z.eqb_spec c SLASH) as [->|Hc]; [done|].
        rewrite put_ok by (rewrite zlen_app, !L1; lia). cbn [obind fst snd].
        rewrite IH; cbn [unwritten]; try done; rewrite ?zlen_app, ?L1, ?zlen_nil; try lia.
        by rewrite <- !app_assoc.
    + destruct (Z.eqb_spec c DOT) as [->|Hd].
      * cbn [obind fst snd]. rewrite IH; cbn [unwritten]; try done; rewrite ?zlen_cons, ?zlen_nil; lia.
      * destruct (Z.eqb_spec c SLASH) as [->|Hc]; [done|].
        rewrite (proj2 (Z.ltb_lt 1 i)) by lia.
        do 2 (rewrite put_ok by (rewrite ?zlen_app, ?L1; lia); cbn [obind]).
        rewrite put_ok by (rewrite !zlen_app, !L1; lia). cbn [obind fst snd].
        rewrite IH; cbn [unwritten]; try done; rewrite ?zlen_app, ?L1, ?zlen_nil; try lia.
        by rewrite <- !app_assoc.
    + destruct (Z.eqb_spec c SLASH) as [->|Hc]; [done|].
      rewrite (proj2 (Z.ltb_lt 2 i)) by lia.
      do 3 (rewrite put_ok by (rewrite ?zlen_app, ?L1; lia); cbn [obind]).
      rewrite put_ok by (rewrite !zlen_app, !L1; lia). cbn [obind fst snd].
      rewrite IH; cbn [unwritten]; try done; rewrite ?zlen_app, ?L1, ?zlen_nil; try lia.
      by rewrite <- !app_assoc.
Qed.

(** The fast path of [http_add_path_info] is exact. *)
Lemma needs_decode_false cap path nsd :
  http_path_needs_decode path = false -> zlen path <= cap -> http_url_decode4 cap path nsd = Ret path.
Proof.
  intros Hn Hcap. destruct path as [|c path]; [done|]. cbn [http_path_needs_decode] in Hn.
  destruct (Z.eqb_spec c SLASH) as [->|]; [|done]. cbn [negb] in Hn. unfold http_url_decode4.
  change (negb (SLASH =? SLASH)) with false. cbn iota.
  rewrite plain_scan; cbn [unwritten]; try done.
Qed.

(** The fast path is exact: a path that [http_path_needs_decode] lets
    through is its own decoding, so skipping [http_url_decode4] changes
    nothing. *)
Theorem path_fast_path_exact path nsd :
  http_path_needs_decode path = false -> http_url_decode4 (zlen path) path nsd = Ret path.
Proof. intros. by apply needs_decode_false. Qed.

Lemma path_fast_path_exact_witness :
  http_url_decode4 18 (chars "/a/.b/..c/d.e/...x") false = Ret (chars "/a/.b/..c/d.e/...x").
Proof. apply (path_fast_path_exact (chars "/a/.b/..c/d.e/...x") false). by vm_compute. Defined.

(** * Dot segments *)

(** The segments of a path. *)
Fixpoint segs (l : list Z) : list (list Z) :=
  match l with
  | [] => [[]]
  | c :: l =>
      if c =? SLASH then [] :: segs l
      else match segs l with s :: r => (c :: s) :: r | [] => [[c]] end
  end.

Definition not_dots (s : list Z) : Prop := s <> [DOT] /\ s <> [DOT; DOT].
Definition dot_free (l : list Z) : Prop := Forall not_dots (segs l).

Lemma segs_nonempty l : segs l <> [].
Proof. destruct l as [|c l]; cbn; [done|]. destruct (c =? SLASH); [done|]. by destruct (segs l). Qed.

Lemma segs_app a b : segs (a ++ SLASH :: b) = segs a ++ segs b.
Proof.
  induction a as [|c a IH]; [done|]. cbn [app segs]. rewrite IH. destruct (c =? SLASH); [done|].
  pose proof (segs_nonempty a). by destruct (segs a).
Qed.

Lemma segs_snoc_slash l : segs (l ++ [SLASH]) = segs l ++ [[]].
Proof. apply segs_app. Qed.

Lemma segs_snoc l i s c :
  c <> SLASH -> segs l = i ++ [s] -> segs (l ++ [c]) = i ++ [s ++ [c]].
Proof.
  intros Hc. revert i s. induction l as [|x l IH]; intros i s; cbn [segs app].
  - rewrite (proj2 (Z.eqb_neq _ _) Hc). destruct i as [|? [|]]; intros [= <-]. done.
  - destruct (x =? SLASH).
    + destruct i as [|y i]; cbn; intros [= <- E]; [by apply segs_nonempty in E|]. by rewrite (IH i s).
    + destruct (segs l) as [|s0 r] eqn:E; [by apply segs_nonempty in E|].
      destruct i as [|y i]; cbn; intros [= <- ->].
      * by rewrite (IH [] s0).
      * by rewrite (IH (s0 :: i) s).
Qed.

(** The last segment can be extended without becoming a dot segment. *)
Definition stable_tail (l : list Z) : Prop := exists i s, segs l = i ++ [s] /\ s <> [].

Lemma dot_free_snoc l c : c <> SLASH -> dot_free l -> stable_tail l -> dot_free (l ++ [c]) /\ stable_tail (l ++ [c]).
Proof.
  intros Hc Hf (i & s & E & Hs). unfold dot_free, stable_tail in *. rewrite (segs_snoc l i s c) by done.
  rewrite E, Forall_app, Forall_singleton in Hf. destruct Hf as [Hi [H1 H2]]. split.
  - apply Forall_app. split; [done|]. apply Forall_singleton. split.
    + destruct s; [done|]. intros [= _ E']. by destruct s.
    + destruct s as [|x [|y s]]; [done | | by destruct s].
      intros [= -> ->]. done.
  - exists i, (s ++ [c]). split; [done|]. by destruct s.
Qed.

Lemma dot_free_slash l : dot_free l -> dot_free (l ++ [SLASH]).
Proof. unfold dot_free. rewrite segs_snoc_slash, Forall_app. intros. split; [done|]. repeat constructor; done. Qed.

(** A new segment that starts with one byte, or with dots and a byte. *)
Lemma dot_free_start pre s :
  (pre = [] \/ exists l, pre = l ++ [SLASH] /\ dot_free l) ->
  Forall (fun c => c <> SLASH) s -> not_dots s -> s <> [] -> dot_free (pre ++ s) /\ stable_tail (pre ++ s).
Proof.
  intros Hpre Hs Hd Hn.
  assert (segs s = [s]) as E.
  { clear Hpre Hd Hn. induction Hs as [|c s Hc Hs IH]; [done|]. cbn. rewrite (proj2 (Z.eqb_neq _ _) Hc).
    by rewrite IH. }
  unfold dot_free, stable_tail. destruct Hpre as [->|(l & -> & Hl)].
  - cbn. rewrite E. split; [by apply Forall_singleton|]. by exists [], s.
  - rewrite <- app_assoc. change ([SLASH] ++ s) with (SLASH :: s). rewrite segs_app, E. split.
    + apply Forall_app. split; [done|]. by apply Forall_singleton.
    + by exists (segs l), s.
Qed.

Lemma dot_free_remove l n : dot_free l -> (n <= length l)%nat -> dot_free (take (remove_segment l n) l).
Proof.
  intros Hf. induction n as [|n IH]; intros Hn; cbn; [by repeat constructor|].
  case_bool_decide as E; [|apply IH; lia].
  rewrite <- (take_drop_middle l n _ E) in Hf. unfold dot_free in Hf. rewrite segs_app in Hf.
  by apply Forall_app in Hf as [? _].
Qed.

Lemma dot_free_trim l n : dot_free l -> (n <= length l)%nat -> dot_free (take (trim_segment l n) l).
Proof.
  intros Hf. induction n as [|n IH]; intros Hn; cbn [trim_segment]; [by repeat constructor|].
  case_bool_decide as E; [|apply IH; lia].
  rewrite <- (take_drop_middle l n _ E) in Hf. unfold dot_free in Hf. rewrite segs_app in Hf.
  apply Forall_app in Hf as [? _]. rewrite (take_S_r _ _ _ E). by apply dot_free_slash.
Qed.

Definition seg_inv (status : ustatus) (out : list Z) : Prop :=
  plain_status status /\ dot_free out /\ (status = zero -> stable_tail out).

Lemma put_inv cap out bs o : put cap out bs = Ret o -> o = out ++ bs.
Proof. unfold put. zcase; [by intros [= <-] | done]. Qed.

Ltac put_invs H :=
  repeat (let a := fresh "o" in let Ha := fresh "Ho" in
          apply obind_Ret_inv in H as (a & Ha & H); apply put_inv in Ha; subst a).

Lemma decode4_step_segs cap nsd ns i c status v out s' v' o' :
  dec_inv ns i status out -> seg_inv status out -> c <> PERCENT ->
  url_decode4_step cap nsd ns i c status v out = Ret (s', v', o') -> seg_inv s' o'.
Proof.
  intros (Hp & H0 & Hs & Hd & Hdd) (Hpl & Hf & Hst) Hc H. apply Z.eqb_neq in Hc. zlen_facts.
  assert (forall a, a = out \/ a = out ++ [SLASH] -> forall s, (a = out -> out = []) ->
    Forall (fun c => c <> SLASH) s -> not_dots s -> s <> [] -> seg_inv zero (a ++ s)) as Hnew.
  { intros a Ha s Hempty ? ? ?. destruct (dot_free_start a s) as [? ?]; try done.
    destruct Ha as [->| ->]; [left; by apply Hempty | right; by exists out]. }
  destruct status; try done; cbn [url_decode4_step pending] in *; rewrite ?Hc in H.
  - destruct (Z.eqb_spec c SLASH); [simplify_eq; by repeat split|]. put_invs H. simplify_eq.
    destruct (dot_free_snoc out c) as [? ?]; auto. by repeat split.
  - destruct (Z.eqb_spec c DOT); [simplify_eq; by repeat split|].
    apply obind_Ret_inv in H as (a & Ha & H).
    assert ((a = out ++ [SLASH]) \/ (a = out /\ out = [])) as Hcase.
    { destruct ((0 <? i) || negb ns) eqn:E; [left; by apply put_inv in Ha|right].
      simplify_eq. split; [done|]. apply zlen_zero_inv. lia. }
    destruct (Z.eqb_spec c SLASH).
    + simplify_eq. split; [done|]. split; [|done]. destruct Hcase as [->|[-> ->]]; [by apply dot_free_slash | done].
    + put_invs H. simplify_eq. apply Hnew; [destruct Hcase as [?|[? ?]]; [by right | by left] | | | |done].
      * intros ->. destruct Hcase as [E|[_ ?]]; [|done]. apply (f_equal length) in E.
        rewrite length_app in E. cbn in E. lia.
      * by repeat constructor.
      * split; congruence.
  - destruct (Z.eqb_spec c DOT); [simplify_eq; by repeat split|].
    destruct (Z.eqb_spec c SLASH); [simplify_eq; by repeat split|].
    apply obind_Ret_inv in H as (a & Ha & H). put_invs H. simplify_eq. rewrite <- app_assoc.
    assert ((a = out ++ [SLASH]) \/ (a = out /\ out = [])) as Hcase.
    { destruct (1 <? i) eqn:E; [left; by apply put_inv in Ha|right].
      simplify_eq. split; [done|]. apply zlen_zero_inv. lia. }
    apply Hnew; [destruct Hcase as [?|[? ?]]; [by right | by left] | | by repeat constructor | split; cbn; congruence | done].
    intros ->. destruct Hcase as [E|[_ ?]]; [|done]. apply (f_equal length) in E.
    rewrite length_app in E. cbn in E. lia.
  - destruct (Z.eqb_spec c SLASH).
    { simplify_eq. split; [done|]. split; [|done]. by apply dot_free_remove. }
    apply obind_Ret_inv in H as (a & Ha & H). put_invs H. simplify_eq. rewrite <- !app_assoc.
    assert ((a = out ++ [SLASH]) \/ (a = out /\ out = [])) as Hcase.
    { destruct (2 <? i) eqn:E; [left; by apply put_inv in Ha|right].
      simplify_eq. split; [done|]. apply zlen_zero_inv. lia. }
    apply Hnew; [destruct Hcase as [?|[? ?]]; [by right | by left] | | by repeat constructor | split; cbn; congruence | done].
    intros ->. destruct Hcase as [E|[_ ?]]; [|done]. apply (f_equal length) in E.
    rewrite length_app in E. cbn in E. lia.
Qed.

Lemma decode4_loop_segs cap nsd ns rest i status v out s' o' :
  dec_inv ns i status out -> seg_inv status out -> i + zlen rest <= cap ->
  Forall (fun c => c <> PERCENT) rest ->
  url_decode4_loop cap nsd ns i rest status v out = Ret (s', o') -> seg_inv s' o'.
Proof.
  revert i status v out. induction rest as [|c rest IH]; intros i status v out Hd Hs Hcap HF; cbn [url_decode4_loop].
  - intros. by simplify_eq.
  - rewrite zlen_cons in Hcap. zlen_facts. apply Forall_cons in HF as [Hc HF].
    destruct (c =? HASH); [intros; by simplify_eq|].
    destruct (decode4_step_inv cap nsd ns i c status v out Hd ltac:(lia)) as (s1 & v1 & o1 & E & Hd1).
    rewrite E. cbn [obind fst snd]. apply IH; [done | | lia | done].
    exact (decode4_step_segs _ _ _ _ _ _ _ _ _ _ _ Hd Hs Hc E).
Qed.

(** C35: dot segment removal: for a path without percent escapes the decoded
    PATH_INFO has no [.] and no [..] segment, so it cannot climb out of a
    document root. *)
Theorem url_decode4_no_dot_segments buf nsd out :
  Forall (fun c => c <> PERCENT) buf -> http_url_decode4 (zlen buf) buf nsd = Ret out -> dot_free out.
Proof.
  intros HF H. destruct buf as [|c buf]; [unfold http_url_decode4 in H; cbn in H; simplify_eq; by repeat constructor|].
  unfold http_url_decode4 in H. apply obind_Ret_inv in H as ([s o] & E & H).
  assert (seg_inv s o) as (Hpl & Hf & _).
  { destruct (Z.eqb_spec c SLASH) as [->|Hc]; cbn [negb] in E.
    - cbn [url_decode4_loop] in E. change (SLASH =? HASH) with false in E. cbn iota in E.
      cbn [url_decode4_step] in E. change (SLASH =? PERCENT) with false in E. cbn -[zlen url_decode4_loop] in E.
      rewrite zlen_cons in E. apply Forall_cons in HF as [_ HF].
      eapply decode4_loop_segs in E; [done | | | lia | done].
      + unfold dec_inv. cbn [pending]. rewrite (@zlen_nil Z). cbn. split_and!; done || lia.
      + repeat split; done || by repeat constructor.
    - eapply decode4_loop_segs in E; [done | | | lia | done].
      + unfold dec_inv. cbn [pending]. rewrite (@zlen_nil Z). cbn. split_and!; done || lia.
      + repeat split; done || by repeat constructor. }
  destruct s; try done; cbn [url_decode4_finish] in H.
  - by simplify_eq.
  - apply put_inv in H. subst. by apply dot_free_slash.
  - apply put_inv in H. subst. by apply dot_free_slash.
  - simplify_eq. by apply dot_free_trim.
Qed.

Lemma url_decode4_no_dot_segments_witness :
  http_url_decode4 16 (chars "/a/b/./../../../") false = Ret (chars "/") /\ dot_free (chars "/").
Proof.
  split; [by vm_compute|].
  apply (url_decode4_no_dot_segments (chars "/a/b/./../../../") false); [|by vm_compute].
  by repeat constructor.
Defined.

(** The removal happens before the percent escapes are decoded: encoded
    dot segments survive in PATH_INFO. *)
Theorem url_decode4_encoded_dots :
  http_url_decode4 11 (chars "/%2e%2e/etc") false = Ret (chars "/../etc") /\ ~ dot_free (chars "/../etc").
Proof.
  split; [by vm_compute|]. intros H. apply Forall_cons in H as [_ H].
  apply Forall_cons in H as [[_ H] _]. by apply H.
Qed.
