(* ===== verification/Buffer.v ===== *)
(** The growable buffer of core/buffer.c ([struct upsgi_buffer] of upsgi.h).

    A buffer is its heap block, the number of bytes in use ([pos]), the
    allocated size ([len]) and an optional [limit] (0: none).  Its abstract
    value is [contents], the bytes in use; the operations that write are
    specified by the class [Appends], which composes. *)
From S2P Require Import Prelude Clib.

(** * Data *)

Record upsgi_buffer : Type := mk_buffer {
  buf : list Z;
  pos : Z;
  len : Z;
  limit : Z;
}.

#[export] Instance expand_buffer : Expand upsgi_buffer :=
  fun r => mk_buffer (buf r) (pos r) (len r) (limit r).

(** The run-time environment of the allocator: [upsgi.page_size], the
    requests that [malloc]/[realloc] grant, and the value of the fresh
    bytes, which the code may not rely on. *)
Record heap_env : Type := mk_env {
  page_size : Z;
  heap_ok : Z -> bool;
  junk : Z;
}.

(** Requests above [PTRDIFF_MAX] always fail. *)
Definition alloc_ok (env : heap_env) (n : Z) : bool := (n <? 2 ^ 63) && env.(heap_ok) n.

Definition malloc (env : heap_env) (n : Z) : option (list Z) :=
  if alloc_ok env n then Some (zrep n env.(junk)) else None.

Definition realloc (env : heap_env) (old : list Z) (n : Z) : option (list Z) :=
  if alloc_ok env n then Some (ztake n old ++ zrep (n - zlen old) env.(junk)) else None.

(** * Operations *)

(** The code of a [static] call is run for its effect on the buffer and its
    [int] result. *)
Definition bop : Type := upsgi_buffer -> outcome (Z * upsgi_buffer).

(** [upsgi_malloc] exits when the allocation fails. *)
Definition upsgi_buffer_new (env : heap_env) (n : Z) : outcome upsgi_buffer :=
  if n =? 0 then Ret (mk_buffer [] 0 0 0)
  else match malloc env n with
       | Some b => Ret (mk_buffer b 0 n 0)
       | None => Exited
       end.

Definition upsgi_buffer_fix (env : heap_env) (n : Z) : bop := fun ub =>
  if (0 <? ub.(limit)) && (ub.(limit) <? n) then Ret (-1, ub)
  else if ub.(len) <? n then
    match realloc env ub.(buf) n with
    | None => Ret (-1, ub)
    | Some new_buf => Ret (0, ub<|buf := new_buf|><|len := n|>)
    end
  else Ret (0, ub).

Definition upsgi_buffer_ensure (env : heap_env) (n : Z) : bop := fun ub =>
  let remains := u64 (ub.(len) - ub.(pos)) in
  if remains <? n then
    let new_len := u64 (ub.(len) + u64 (n - remains)) in
    let over := (0 <? ub.(limit)) && (ub.(limit) <? new_len) in
    let new_len := if over then ub.(limit) else new_len in
    if over && (new_len =? ub.(len)) then Ret (-1, ub)
    else match realloc env ub.(buf) new_len with
         | None => Ret (-1, ub)
         | Some new_buf => Ret (0, ub<|buf := new_buf|><|len := new_len|>)
         end
  else Ret (0, ub).

Definition upsgi_buffer_insert (env : heap_env) (at_pos : Z) (src : list Z) : bop := fun ub =>
  let to_move := u64 (ub.(pos) - at_pos) in
  let* (r, ub) := upsgi_buffer_ensure env (zlen src) ub in
  if negb (r =? 0) then Ret (-1, ub)
  else
    let* moved := mslice ub.(buf) at_pos to_move in
    let* b := mwrite ub.(buf) (at_pos + zlen src) moved in
    let* b := mwrite b at_pos src in
    Ret (0, ub<|buf := b|><|pos := u64 (ub.(pos) + zlen src)|>).

(** The growth policy of [upsgi_buffer_append]: the bytes added to the
    block, or none when the limit forbids it. *)
Definition append_chunk_size (env : heap_env) (ub : upsgi_buffer) (n : Z) : option Z :=
  let chunk_size := UMAX n env.(page_size) in
  if (0 <? ub.(limit)) && (ub.(limit) <? u64 (ub.(len) + chunk_size)) then
    (* retry with another minimal size *)
    let chunk_size := if n <? env.(page_size) then n else chunk_size in
    if ub.(limit) <? u64 (ub.(len) + chunk_size) then None else Some chunk_size
  else Some chunk_size.

(** [memcpy(ub->buf + ub->pos, buf, len); ub->pos += len; return 0;] *)
Definition append_store (src : list Z) : bop := fun ub =>
  let* b := mwrite ub.(buf) ub.(pos) src in
  Ret (0, ub<|buf := b|><|pos := u64 (ub.(pos) + zlen src)|>).

Definition upsgi_buffer_append (env : heap_env) (src : list Z) : bop := fun ub =>
  let n := zlen src in
  let remains := u64 (ub.(len) - ub.(pos)) in
  if remains <? n then
    match append_chunk_size env ub n with
    | None => Ret (-1, ub)
    | Some chunk_size =>
        let new_len := u64 (ub.(len) + chunk_size) in
        match realloc env ub.(buf) new_len with
        | None => Ret (-1, ub)
        | Some new_buf => append_store src (ub<|buf := new_buf|><|len := new_len|>)
        end
    end
  else append_store src ub.

(** [if (a) return -1; return b;] *)
Definition seq_op (a b : bop) : bop := fun ub =>
  let* (r, ub) := a ub in if r =? 0 then b ub else Ret (-1, ub).
Infix ";;;" := seq_op (at level 60, right associativity) : c_scope.

(** [snprintf(chunked, 19, "%X\r\n", (unsigned int) len)] *)
Definition chunk_line (n : Z) : list Z := fmt_X (u32 n) ++ [CR; LF].

Definition upsgi_buffer_insert_chunked (env : heap_env) (at_pos n : Z) : bop := fun ub =>
  let chunked := chunk_line n in
  let ret := zlen chunked in
  if (ret <=? 0) || (19 <=? ret) then Ret (-1, ub)
  else upsgi_buffer_insert env at_pos chunked ub.

Definition upsgi_buffer_append_chunked (env : heap_env) (n : Z) : bop := fun ub =>
  let chunked := chunk_line n in
  let ret := zlen chunked in
  if (ret <=? 0) || (19 <=? ret) then Ret (-1, ub)
  else upsgi_buffer_append env chunked ub.

Definition upsgi_buffer_decapitate (n : Z) : bop := fun ub =>
  if ub.(pos) <? n then Ret (-1, ub)
  else
    let* moved := mslice ub.(buf) n (ub.(pos) - n) in
    let* b := mwrite ub.(buf) 0 moved in
    Ret (0, ub<|buf := b|><|pos := ub.(pos) - n|>).

Definition upsgi_buffer_byte (env : heap_env) (b : Z) : bop := upsgi_buffer_append env [b].
Definition upsgi_buffer_u8 (env : heap_env) (b : Z) : bop := upsgi_buffer_append env [u8 b].

(** One byte of [upsgi_buffer_append_json]. *)
Definition json_escape (c : Z) : list Z :=
  if c =? 9 then [92; 116]
  else if c =? 10 then [92; 110]
  else if c =? 13 then [92; 114]
  else if c =? 34 then [92; 34]
  else if c =? 92 then [92; 92]
  else [c].

Fixpoint upsgi_buffer_append_json (env : heap_env) (src : list Z) : bop :=
  match src with
  | [] => fun ub => Ret (0, ub)
  | c :: src => upsgi_buffer_append env (json_escape c) ;;; upsgi_buffer_append_json env src
  end.

(** One byte of [upsgi_buffer_append_xml]. *)
Definition xml_escape (c : Z) : list Z :=
  if c =? 34 then chars "&quot;"
  else if c =? 39 then chars "&apos;"
  else if c =? 60 then chars "&lt;"
  else if c =? 62 then chars "&gt;"
  else if c =? 38 then chars "&amp;"
  else [c].

Fixpoint upsgi_buffer_append_xml (env : heap_env) (src : list Z) : bop :=
  match src with
  | [] => fun ub => Ret (0, ub)
  | c :: src => upsgi_buffer_append env (xml_escape c) ;;; upsgi_buffer_append_xml env src
  end.

(** [(uint8_t) ((num >> k) & 0xff)] *)
Definition octet (num k : Z) : Z := u8 (Z.land (Z.shiftr num k) 255).

Definition le_bytes16 (num : Z) : list Z := [octet num 0; octet num 8].
Definition be_bytes16 (num : Z) : list Z := [octet num 8; octet num 0].
Definition be_bytes24 (num : Z) : list Z := [octet num 16; octet num 8; octet num 0].
Definition be_bytes32 (num : Z) : list Z := [octet num 24; octet num 16; octet num 8; octet num 0].
Definition le_bytes32 (num : Z) : list Z := [octet num 0; octet num 8; octet num 16; octet num 24].
Definition be_bytes64 (num : Z) : list Z :=
  [octet num 56; octet num 48; octet num 40; octet num 32;
   octet num 24; octet num 16; octet num 8; octet num 0].
Definition le_bytes64 (num : Z) : list Z :=
  [octet num 0; octet num 8; octet num 16; octet num 24;
   octet num 32; octet num 40; octet num 48; octet num 56].

Definition upsgi_buffer_u16le env num : bop := upsgi_buffer_append env (le_bytes16 num).
Definition upsgi_buffer_u16be env num : bop := upsgi_buffer_append env (be_bytes16 num).
Definition upsgi_buffer_u24be env num : bop := upsgi_buffer_append env (be_bytes24 num).
Definition upsgi_buffer_u32be env num : bop := upsgi_buffer_append env (be_bytes32 num).
Definition upsgi_buffer_u32le env num : bop := upsgi_buffer_append env (le_bytes32 num).
Definition upsgi_buffer_u64be env num : bop := upsgi_buffer_append env (be_bytes64 num).
Definition upsgi_buffer_u64le env num : bop := upsgi_buffer_append env (le_bytes64 num).

(** The [float] and [double] writers store the bit pattern of the number. *)
Definition upsgi_buffer_f32be env (bits : Z) : bop := upsgi_buffer_append env (be_bytes32 bits).
Definition upsgi_buffer_f64be env (bits : Z) : bop := upsgi_buffer_append env (be_bytes64 bits).

(** [inet_ntop(AF_INET, addr, ip, INET_ADDRSTRLEN)] of four address bytes. *)
Definition inet_ntoa (a b c d : Z) : list Z :=
  fmt_d a ++ [46] ++ fmt_d b ++ [46] ++ fmt_d c ++ [46] ++ fmt_d d.

Definition upsgi_buffer_append_ipv4 env (a b c d : Z) : bop :=
  upsgi_buffer_append env (inet_ntoa a b c d).

(** [snprintf] of ["%lld"] into a buffer of [sizeof(UMAX64_STR)+1] bytes. *)
Definition num64_size : Z := 22.
Definition with_num64 (num : Z) (k : list Z -> bop) : bop := fun ub =>
  let b := fmt_d (i64 num) in
  let ret := zlen b in
  if (ret <=? 0) || (num64_size <=? ret) then Ret (-1, ub) else k b ub.

Definition upsgi_buffer_num64 env (num : Z) : bop := with_num64 num (upsgi_buffer_append env).

(** The key and value lengths are the [uint16_t] (or [uint32_t]) parameters
    of the source; the blocks hold that many bytes. *)
Definition upsgi_buffer_append_keyval env (key val : list Z) : bop :=
  upsgi_buffer_u16le env (zlen key) ;;; upsgi_buffer_append env key ;;;
  upsgi_buffer_u16le env (zlen val) ;;; upsgi_buffer_append env val.

Definition upsgi_buffer_append_keyval32 env (key val : list Z) : bop :=
  upsgi_buffer_u32be env (zlen key) ;;; upsgi_buffer_append env key ;;;
  upsgi_buffer_u32be env (zlen val) ;;; upsgi_buffer_append env val.

Definition upsgi_buffer_append_keynum env (key : list Z) (num : Z) : bop :=
  with_num64 num (fun b =>
    upsgi_buffer_u16le env (zlen key) ;;; upsgi_buffer_append env key ;;;
    upsgi_buffer_u16le env (zlen b) ;;; upsgi_buffer_append env b).

Definition upsgi_buffer_append_valnum env (num : Z) : bop :=
  with_num64 num (fun b =>
    upsgi_buffer_u16le env (zlen b) ;;; upsgi_buffer_append env b).

(** [ptr] is taken before the address is appended: when that append moves
    the block, the store through [ptr] is to freed memory. *)
Definition upsgi_buffer_append_keyipv4 env (key : list Z) (a b c d : Z) : bop := fun ub =>
  let* (r, ub) := (upsgi_buffer_u16le env (zlen key) ;;; upsgi_buffer_append env key ;;;
                   upsgi_buffer_u16le env 15) ub in
  if negb (r =? 0) then Ret (-1, ub)
  else
    let ptr := ub.(pos) - 2 in
    let* (r, ub') := upsgi_buffer_append_ipv4 env a b c d ub in
    if negb (r =? 0) then Ret (-1, ub')
    else if negb (ub'.(len) =? ub.(len)) then Fault
    else
      let* bs := mwrite ub'.(buf) ptr [u8 (ub'.(pos) - (ptr + 2))] in
      Ret (0, ub'<|buf := bs|>).

Definition upsgi_buffer_set_uh (modifier1 modifier2 : Z) : bop := fun ub =>
  if ub.(pos) <? 4 then Ret (-1, ub)
  else
    let* b := mwrite ub.(buf) 0
                [u8 modifier1; octet (ub.(pos) - 4) 0; octet (ub.(pos) - 4) 8; u8 modifier2] in
    Ret (0, ub<|buf := b|>).

Definition upsgi_buffer_map (b : list Z) (ub : upsgi_buffer) : upsgi_buffer :=
  ub<|buf := b|><|pos := zlen b|><|len := zlen b|>.

(** The socket as [upsgi_buffer_send] and [upsgi_buffer_write_simple] see
    it: the results of [upsgi_waitfd_write] and of [write], in order. *)
Fixpoint upsgi_buffer_send_loop (io : list (Z * Z)) (rest sent : list Z) : outcome (Z * list Z) :=
  if 0 <? zlen rest then
    match io with
    | [] => NoFuel
    | (ret, wlen) :: io =>
        if 0 <? ret then
          if 0 <? wlen then
            upsgi_buffer_send_loop io (zdrop wlen rest) (sent ++ ztake wlen rest)
          else Ret (-1, sent)
        else Ret (-1, sent)
    end
  else Ret (0, sent).

Definition upsgi_buffer_send (io : list (Z * Z)) (ub : upsgi_buffer) : outcome (Z * list Z) :=
  let* b := mslice ub.(buf) 0 ub.(pos) in upsgi_buffer_send_loop io b [].

Fixpoint write_simple_loop (io : list Z) (total : Z) (rest sent : list Z) : outcome (Z * list Z) :=
  if 0 <? zlen rest then
    match io with
    | [] => NoFuel
    | wlen :: io =>
        if wlen <=? 0 then Ret (wlen, sent)
        else write_simple_loop io total (zdrop wlen rest) (sent ++ ztake wlen rest)
    end
  else Ret (total, sent).

Definition upsgi_buffer_write_simple (io : list Z) (ub : upsgi_buffer) : outcome (Z * list Z) :=
  let* b := mslice ub.(buf) 0 ub.(pos) in write_simple_loop io ub.(pos) b [].

(** * Invariant and abstract value *)

Record buffer_ok (ub : upsgi_buffer) : Prop := mk_buffer_ok {
  ok_block : zlen ub.(buf) = ub.(len);
  ok_pos : 0 <= ub.(pos) <= ub.(len);
  ok_len : ub.(len) < 2 ^ 63;
  ok_limit : 0 <= ub.(limit) < 2 ^ 64;
}.

(** The limit, when there is one, bounds the allocation. *)
Definition within_limit (ub : upsgi_buffer) : Prop := 0 < ub.(limit) -> ub.(len) <= ub.(limit).

Definition contents (ub : upsgi_buffer) : list Z := ztake ub.(pos) ub.(buf).

Class EnvOk (env : heap_env) : Prop := env_page : 0 < env.(page_size) < 2 ^ 32.

Lemma zlen_contents ub : buffer_ok ub -> zlen (contents ub) = ub.(pos).
Proof. intros [? ? ? ?]. unfold contents. apply zlen_take. lia. Qed.

(** What the buffer writers promise to their callers: started on a sound
    buffer, they return, keep it sound and within its limit, and either add
    exactly [bs] and return 0 or return -1 having added a proper part of
    it. *)
Record appended (ub : upsgi_buffer) (bs : list Z) (r : Z) (ub' : upsgi_buffer) : Prop := {
  app_ok : buffer_ok ub';
  app_limit : ub'.(limit) = ub.(limit);
  app_len : ub.(len) <= ub'.(len);
  app_within : within_limit ub -> within_limit ub';
  app_result :
    (r = 0 /\ contents ub' = contents ub ++ bs) \/
    (r = -1 /\ exists p, p `prefix_of` bs /\ contents ub' = contents ub ++ p);
}.

Class Appends (f : bop) (bs : list Z) : Prop :=
  appends_run : forall ub, buffer_ok ub -> exists r ub', f ub = Ret (r, ub') /\ appended ub bs r ub'.

Lemma contents_write ub (b src : list Z) :
  0 <= ub.(pos) <= zlen b ->
  ztake (ub.(pos) + zlen src) (ztake ub.(pos) b ++ src ++ zdrop (ub.(pos) + zlen src) b) =
  ztake ub.(pos) b ++ src.
Proof.
  intros H. pose proof (zlen_nonneg src).
  assert (zlen (ztake ub.(pos) b) = ub.(pos)) as Hl by (apply zlen_take; lia).
  rewrite ztake_app_ge by lia. f_equal. rewrite Hl.
  apply ztake_app_length. lia.
Qed.

(** A store of [src] at the end of a buffer that has room for it. *)
Lemma store_appended ub0 ub (src : list Z) :
  buffer_ok ub -> ub.(len) - ub.(pos) >= zlen src ->
  contents ub = contents ub0 -> ub.(limit) = ub0.(limit) -> ub0.(len) <= ub.(len) ->
  (within_limit ub0 -> within_limit ub) ->
  exists ub', append_store src ub = Ret (0, ub') /\ appended ub0 src 0 ub'.
Proof.
  unfold append_store.
  intros [Hb Hp Hl Hlim] Hroom Hc Hlm Hle Hw. zlen_facts.
  assert (u64 (pos ub + zlen src) = pos ub + zlen src) as Hu by (apply wrap_small; lia).
  rewrite mwrite_ok by lia. cbn -[wrap]. eexists. split; [done|].
  split; cbn -[wrap]; rewrite ?Hu; auto.
  - split; cbn -[wrap]; rewrite ?Hu; try lia.
    zlen_facts. rewrite !zlen_app, zlen_take, zlen_drop by lia. lia.
  - left. split; [done|]. unfold contents in *; cbn -[wrap]. rewrite ?Hu, contents_write by lia.
    by rewrite Hc.
Qed.

Lemma realloc_grow env b n nb :
  realloc env b n = Some nb -> zlen b <= n -> zlen nb = n /\ n < 2 ^ 63 /\ ztake (zlen b) nb = b.
Proof.
  unfold realloc, alloc_ok. destruct (Z.ltb_spec n (2 ^ 63)); [|done].
  destruct (heap_ok env n); [|done]. cbn [andb]. intros [= <-] Hle. zlen_facts.
  rewrite (ztake_all b n) by lia. repeat split; [|done|].
  - rewrite zlen_app, zlen_rep; lia.
  - by apply ztake_app_length.
Qed.

Lemma grown_ok env ub n nb :
  buffer_ok ub -> realloc env ub.(buf) n = Some nb -> ub.(len) <= n ->
  buffer_ok (ub<|buf := nb|><|len := n|>) /\
  contents (ub<|buf := nb|><|len := n|>) = contents ub.
Proof.
  intros [Hb Hp Hl Hlim] Hr Hn. rewrite <- Hb in Hn.
  destruct (realloc_grow _ _ _ _ Hr Hn) as (H1 & H2 & H3). split.
  - split; cbn; lia.
  - unfold contents; cbn. rewrite <- H3. rewrite ztake_ztake; [done | lia].
Qed.

Lemma not_appended ub bs : buffer_ok ub -> appended ub bs (-1) ub.
Proof.
  intros. split; auto; try lia. right. split; [done|]. exists []. rewrite app_nil_r.
  split; [apply prefix_nil | done].
Qed.

Section with_env.
Context (env : heap_env) {Henv : EnvOk env}.

Lemma append_chunk_size_ok ub n c :
  buffer_ok ub -> 0 <= n < 2 ^ 63 -> append_chunk_size env ub n = Some c ->
  n <= c /\ u64 (ub.(len) + c) = ub.(len) + c /\ (0 < ub.(limit) -> ub.(len) + c <= ub.(limit)).
Proof.
  intros [Hb Hp Hl Hlim] Hn. pose proof env_page. unfold append_chunk_size. rewrite UMAX_spec.
  rewrite !wrap_small by (try zcase; lia).
  repeat (zcase; try lia); intros [= <-]; rewrite ?wrap_small by lia; lia.
Qed.

#[global] Instance append_Appends src :
  zlen src < 2 ^ 63 -> Appends (upsgi_buffer_append env src) src.
Proof.
  intros Hs ub Hok. pose proof Hok as [Hb Hp Hl Hlim]. zlen_facts.
  assert (exists r ub', Ret (-1, ub) = Ret (r, ub') /\ appended ub src r ub') as Hfail
    by (exists (-1), ub; auto using not_appended).
  unfold upsgi_buffer_append. rewrite wrap_small by lia.
  destruct (Z.ltb_spec (len ub - pos ub) (zlen src)).
  - destruct (append_chunk_size env ub (zlen src)) as [c|] eqn:Ec; [|done].
    destruct (append_chunk_size_ok ub (zlen src) c) as (Hc & -> & Hlc); auto.
    destruct (realloc env (buf ub) (len ub + c)) as [nb|] eqn:Er; [|done].
    destruct (grown_ok env ub (len ub + c) nb) as [Hok' Hcont]; auto; [lia|].
    destruct (store_appended ub (ub<|buf := nb|><|len := len ub + c|>) src)
      as (ub' & Hrun & Happ); auto; cbn; try lia; eauto.
  - destruct (store_appended ub ub src) as (ub' & Hrun & Happ); auto; try lia. eauto.
Qed.

#[global] Instance seq_Appends f g a b :
  Appends f a -> Appends g b -> Appends (f ;;; g) (a ++ b).
Proof.
  intros Hf Hg ub Hok. destruct (Hf ub Hok) as (r & ub1 & E1 & H1).
  unfold seq_op. rewrite E1. cbn [obind].
  destruct H1 as [Hok1 Hl1 Hn1 Hw1 [[-> Hc1]|[-> (p & Hp & Hc1)]]]; cbn.
  - destruct (Hg ub1 Hok1) as (r2 & ub2 & E2 & [Hok2 Hl2 Hn2 Hw2 Hres]).
    exists r2, ub2. split; [done|]. split; auto; [congruence | lia |].
    rewrite Hc1 in Hres. destruct Hres as [[-> Hc2]|[-> (p & Hp & Hc2)]].
    + left. by rewrite Hc2, app_assoc.
    + right. split; [done|]. exists (a ++ p). rewrite Hc2, app_assoc. split; [by apply prefix_app | done].
  - exists (-1), ub1. split; [done|]. split; auto. right. split; [done|].
    exists p. split; [by apply prefix_app_r | done].
Qed.

#[global] Instance skip_Appends : Appends (fun ub => Ret (0, ub)) [].
Proof.
  intros ub Hok. exists 0, ub. split; [done|]. split; auto; [lia|].
  left. by rewrite app_nil_r.
Qed.

Lemma zlen_fmap_small {A B} (f : A -> B) (l : list A) : zlen (f <$> l) = zlen l.
Proof. unfold zlen. by rewrite length_fmap. Qed.

Lemma json_escape_small c : zlen (json_escape c) < 2 ^ 63.
Proof. unfold json_escape. by repeat case_match. Qed.
Lemma xml_escape_small c : zlen (xml_escape c) < 2 ^ 63.
Proof. unfold xml_escape. by repeat case_match. Qed.

#[global] Instance json_Appends src :
  Appends (upsgi_buffer_append_json env src) (src ≫= json_escape).
Proof.
  induction src as [|c src IH]; simpl; [apply _|].
  apply seq_Appends; [|done]. apply append_Appends, json_escape_small.
Qed.

#[global] Instance xml_Appends src :
  Appends (upsgi_buffer_append_xml env src) (src ≫= xml_escape).
Proof.
  induction src as [|c src IH]; simpl; [apply _|].
  apply seq_Appends; [|done]. apply append_Appends, xml_escape_small.
Qed.

#[global] Instance keyval_Appends key val :
  zlen key < 2 ^ 63 -> zlen val < 2 ^ 63 ->
  Appends (upsgi_buffer_append_keyval env key val)
    (le_bytes16 (zlen key) ++ key ++ le_bytes16 (zlen val) ++ val).
Proof. intros. repeat apply seq_Appends; by apply append_Appends. Qed.

#[global] Instance keyval32_Appends key val :
  zlen key < 2 ^ 63 -> zlen val < 2 ^ 63 ->
  Appends (upsgi_buffer_append_keyval32 env key val)
    (be_bytes32 (zlen key) ++ key ++ be_bytes32 (zlen val) ++ val).
Proof. intros. repeat apply seq_Appends; by apply append_Appends. Qed.

Lemma num64_Appends num :
  zlen (fmt_d (i64 num)) < num64_size -> Appends (upsgi_buffer_num64 env num) (fmt_d (i64 num)).
Proof.
  intros Hs ub Hok. unfold upsgi_buffer_num64, with_num64. unfold num64_size in *.
  assert (0 < zlen (fmt_d (i64 num))) as Hp.
  { unfold fmt_d. destruct (_ <? 0); [rewrite zlen_cons; zlen_facts; lia|].
    pose proof (digits_nonempty 10 (i64 num)) as Hn. destruct (digits 10 (i64 num)); [done|].
    rewrite zlen_cons. zlen_facts. lia. }
  rewrite (proj2 (Z.leb_gt _ 0)), (proj2 (Z.leb_gt 22 _)) by lia. cbn [orb].
  apply append_Appends; [lia | done].
Qed.

(** An append that fails leaves the buffer as it was. *)
Lemma append_fails src ub ub' : upsgi_buffer_append env src ub = Ret (-1, ub') -> ub' = ub.
Proof.
  unfold upsgi_buffer_append, append_store.
  repeat case_match; intros Hr; try (by simplify_eq); apply obind_Ret_inv in Hr as (? & _ & Hr); by simplify_eq.
Qed.

End with_env.

(** * Theorems *)

(** The growth of [upsgi_buffer_ensure] when no limit cuts it short. *)
Lemma ensure_unlimited env n ub :
  buffer_ok ub -> 0 <= n < 2 ^ 63 -> ub.(limit) = 0 ->
  exists r ub', upsgi_buffer_ensure env n ub = Ret (r, ub') /\
    buffer_ok ub' /\ contents ub' = contents ub /\ ub'.(pos) = ub.(pos) /\ ub'.(limit) = 0 /\
    ((r = 0 /\ n <= ub'.(len) - ub'.(pos)) \/ (r = -1 /\ ub' = ub)).
Proof.
  intros Hok Hn Hlim. pose proof Hok as [Hb Hp Hl _]. unfold upsgi_buffer_ensure.
  rewrite Hlim. cbn [andb Z.ltb Z.compare]. rewrite (wrap_small 64 (len ub - pos ub)) by lia.
  zcase; [|exists 0, ub; split_and!; auto; left; lia].
  rewrite !wrap_small by (rewrite ?wrap_small; lia).
  destruct (realloc env (buf ub) _) as [nb|] eqn:E; [|exists (-1), ub; split_and!; auto].
  destruct (grown_ok env ub _ nb Hok E) as [Hok' Hc]; [lia|].
  eexists _, _. split; [done|]. cbn. split_and!; auto. left; lia.
Qed.

(** The outcome of an append. *)
Lemma append_cases env src ub :
  EnvOk env -> zlen src < 2 ^ 63 -> buffer_ok ub ->
  exists r ub', upsgi_buffer_append env src ub = Ret (r, ub') /\
    buffer_ok ub' /\ (within_limit ub -> within_limit ub') /\
    ((r = 0 /\ contents ub' = contents ub ++ src) \/ (r = -1 /\ ub' = ub)).
Proof.
  intros Henv Hs Hok. destruct (append_Appends env src Hs ub Hok) as (r & ub' & E & [H1 _ _ H4 H5]).
  exists r, ub'. split_and!; auto. destruct H5 as [?|[-> _]]; [auto|]. right. split; [done|].
  revert E. unfold upsgi_buffer_append, append_store. repeat case_match; try congruence;
    (destruct (mwrite _ _ _); cbn; congruence).
Qed.

(** [upsgi_buffer_append] on a sound buffer always returns (no byte is
    stored outside the block), keeps the buffer sound and within its limit,
    and either returns 0 having added exactly the given bytes at the end or
    returns -1 with the buffer unchanged. *)
Theorem append_total env src ub :
  EnvOk env -> zlen src < 2 ^ 63 -> buffer_ok ub ->
  exists r ub', upsgi_buffer_append env src ub = Ret (r, ub') /\
    buffer_ok ub' /\ (within_limit ub -> within_limit ub') /\
    ((r = 0 /\ contents ub' = contents ub ++ src) \/ (r = -1 /\ ub' = ub)).
Proof. apply append_cases. Qed.

Definition env4k : heap_env := mk_env 4096 (fun _ => true) 170.

Lemma append_total_witness :
  exists r ub', upsgi_buffer_append env4k (chars "hello") (mk_buffer [1; 2; 3] 2 3 8) = Ret (r, ub') /\
    buffer_ok ub' /\ (within_limit (mk_buffer [1; 2; 3] 2 3 8) -> within_limit ub') /\
    ((r = 0 /\ contents ub' = [1; 2] ++ chars "hello") \/ (r = -1 /\ ub' = mk_buffer [1; 2; 3] 2 3 8)).
Proof. apply (append_total env4k); [by split | by vm_compute | by split]. Defined.

(** The same, with what a chain of appends needs. *)
Lemma append_grows env src ub :
  EnvOk env -> buffer_ok ub -> ub.(limit) = 0 -> (forall n, n < 2 ^ 63 -> env.(heap_ok) n = true) ->
  ub.(len) + Z.max (zlen src) env.(page_size) < 2 ^ 63 ->
  exists ub', upsgi_buffer_append env src ub = Ret (0, ub') /\ contents ub' = contents ub ++ src /\
    buffer_ok ub' /\ ub'.(limit) = 0 /\ ub'.(len) <= ub.(len) + Z.max (zlen src) env.(page_size).
Proof.
  intros Henv Hok Hlim Hheap Hsz. pose proof Hok as [Hb Hp Hl _]. pose proof env_page. zlen_facts.
  destruct (append_cases env src ub) as (r & ub' & E & Hok' & _ & Hr); auto; [lia|].
  revert E. unfold upsgi_buffer_append. rewrite wrap_small by lia. zcase.
  - unfold append_chunk_size. rewrite Hlim, UMAX_spec. cbn [andb Z.ltb Z.compare].
    unfold realloc, alloc_ok. rewrite Hheap, wrap_small by (rewrite ?wrap_small; lia).
    destruct (Z.ltb_spec (len ub + Z.max (zlen src) (page_size env)) (2 ^ 63)); [|lia]. cbn [andb].
    unfold append_store. destruct (mwrite _ _ _); cbn [obind]; try done. intros [= <- E].
    destruct Hr as [[_ Hc]|[? _]]; [|done]. exists ub'. rewrite <- E in *. split_and!; auto. cbn. lia.
  - unfold append_store. destruct (mwrite _ _ _); cbn [obind]; try done. intros [= <- E].
    destruct Hr as [[_ Hc]|[? _]]; [|done]. exists ub'. rewrite <- E in *. split_and!; auto. cbn. lia.
Qed.

Lemma append_granted env src ub :
  EnvOk env -> buffer_ok ub -> ub.(limit) = 0 -> (forall n, n < 2 ^ 63 -> env.(heap_ok) n = true) ->
  ub.(len) + Z.max (zlen src) env.(page_size) < 2 ^ 63 ->
  exists ub', upsgi_buffer_append env src ub = Ret (0, ub') /\ contents ub' = contents ub ++ src.
Proof. intros. destruct (append_grows env src ub) as (ub' & ? & ? & _); eauto. Qed.

(** With no limit and an allocator that grants the request,
    [upsgi_buffer_append] succeeds: a chain of appends loses nothing. *)
Theorem append_succeeds env src ub :
  EnvOk env -> buffer_ok ub -> ub.(limit) = 0 -> (forall n, n < 2 ^ 63 -> env.(heap_ok) n = true) ->
  ub.(len) + Z.max (zlen src) env.(page_size) < 2 ^ 63 ->
  exists ub', upsgi_buffer_append env src ub = Ret (0, ub') /\ contents ub' = contents ub ++ src.
Proof. apply append_granted. Qed.

Lemma append_succeeds_witness :
  exists ub', upsgi_buffer_append env4k (chars "abc") (mk_buffer [] 0 0 0) = Ret (0, ub') /\
    contents ub' = [] ++ chars "abc".
Proof. apply (append_succeeds env4k); [by split | by split | done | done | by vm_compute]. Defined.

Lemma decapitate_cases n ub :
  buffer_ok ub -> 0 <= n ->
  (n <= ub.(pos) /\ exists ub', upsgi_buffer_decapitate n ub = Ret (0, ub') /\
     buffer_ok ub' /\ contents ub' = zdrop n (contents ub) /\
     ub'.(len) = ub.(len) /\ ub'.(limit) = ub.(limit)) \/
  (ub.(pos) < n /\ upsgi_buffer_decapitate n ub = Ret (-1, ub)).
Proof.
  intros [Hb Hp Hl Hlim] Hn. unfold upsgi_buffer_decapitate. zcase; [auto|]. left. split; [done|].
  rewrite mslice_ok by lia. cbn [obind].
  assert (zlen (ztake (pos ub - n) (zdrop n (buf ub))) = pos ub - n) as Hz
    by (rewrite zlen_take; rewrite ?zlen_drop; lia).
  rewrite mwrite_ok by lia. rewrite ztake_0, Z.add_0_l, Hz. cbn [obind app].
  eexists. split; [done|]. split_and!; [split|..]; cbn; try lia.
  - rewrite zlen_app, Hz, zlen_drop by lia. lia.
  - unfold contents; cbn. rewrite ztake_app_length by lia.
    unfold ztake, zdrop. rewrite skipn_firstn_comm. f_equal. lia.
Qed.

(** [upsgi_buffer_decapitate] removes exactly the first [n] bytes in use
    when there are that many, and refuses otherwise; it never accesses the
    block outside its bounds. *)
Theorem decapitate_spec n ub :
  buffer_ok ub -> 0 <= n ->
  (n <= ub.(pos) /\ exists ub', upsgi_buffer_decapitate n ub = Ret (0, ub') /\
     buffer_ok ub' /\ contents ub' = zdrop n (contents ub) /\
     ub'.(len) = ub.(len) /\ ub'.(limit) = ub.(limit)) \/
  (ub.(pos) < n /\ upsgi_buffer_decapitate n ub = Ret (-1, ub)).
Proof. apply decapitate_cases. Qed.

Lemma decapitate_spec_witness :
  upsgi_buffer_decapitate 2 (mk_buffer (chars "abcdef") 5 6 0) = Ret (0, mk_buffer (chars "cdedef") 3 6 0) /\
  ((2 <= 5 /\ exists ub', upsgi_buffer_decapitate 2 (mk_buffer (chars "abcdef") 5 6 0) = Ret (0, ub') /\
     buffer_ok ub' /\ contents ub' = zdrop 2 (chars "abcde") /\ ub'.(len) = 6 /\ ub'.(limit) = 0) \/
   (5 < 2 /\ upsgi_buffer_decapitate 2 (mk_buffer (chars "abcdef") 5 6 0)
             = Ret (-1, mk_buffer (chars "abcdef") 5 6 0))).
Proof.
  split; [reflexivity | apply (decapitate_spec 2 (mk_buffer (chars "abcdef") 5 6 0)); [by split | done]].
Defined.

(** Without a limit, [upsgi_buffer_insert] puts the bytes at the given
    position, moves the rest up, and stays inside the block. *)
Theorem insert_spec env at_pos src ub :
  buffer_ok ub -> ub.(limit) = 0 -> 0 <= at_pos <= ub.(pos) -> zlen src < 2 ^ 62 ->
  exists r ub', upsgi_buffer_insert env at_pos src ub = Ret (r, ub') /\
    ((r = 0 /\ buffer_ok ub' /\
      contents ub' = ztake at_pos (contents ub) ++ src ++ zdrop at_pos (contents ub)) \/
     (r = -1 /\ ub' = ub)).
Proof.
  intros Hok Hlim Hat Hs. unfold upsgi_buffer_insert. zlen_facts.
  destruct (ensure_unlimited env (zlen src) ub) as (r & u & -> & Hok' & Hc & Hp & Hl & Hr); auto; [lia|].
  cbn [obind]. destruct Hr as [[-> Hroom]|[-> ->]]; [|exists (-1), ub; auto].
  cbn [Z.eqb negb]. pose proof Hok' as [Hb' Hp' Hl' _]. pose proof Hok as [? ? ? ?].
  rewrite (wrap_small 64 (pos ub - at_pos)) by lia. rewrite mslice_ok by lia. cbn [obind].
  set (tail := ztake (pos ub - at_pos) (zdrop at_pos (buf u))).
  assert (zlen tail = pos ub - at_pos) as Ht by (unfold tail; rewrite zlen_take; rewrite ?zlen_drop; lia).
  rewrite mwrite_ok by lia. cbn [obind].
  set (b1 := ztake _ _ ++ _). assert (zlen b1 = zlen (buf u)) as Hb1.
  { unfold b1. rewrite !zlen_app, zlen_take, zlen_drop by lia. lia. }
  rewrite mwrite_ok by lia. cbn [obind]. rewrite wrap_small by lia.
  assert (ztake at_pos b1 = ztake at_pos (buf u)) as Hb1t.
  { unfold b1. rewrite ztake_app_le by (rewrite zlen_take; lia). apply ztake_ztake. lia. }
  assert (zdrop (at_pos + zlen src) b1 = tail ++ zdrop (at_pos + zlen src + zlen tail) (buf u)) as Hb1d.
  { unfold b1. apply zdrop_app_length. rewrite zlen_take; lia. }
  rewrite Hb1t, Hb1d. eexists 0, _. split; [done|]. left. split; [done|].
  assert (zlen (ztake at_pos (buf u)) = at_pos) by (apply zlen_take; lia).
  split.
  - split; cbn; try lia. rewrite !zlen_app, zlen_drop by lia. lia.
  - rewrite <- Hc. unfold contents; cbn. rewrite ztake_app_ge by lia. rewrite ztake_ztake by lia. f_equal.
    rewrite ztake_app_ge by lia. f_equal. rewrite ztake_app_length by lia.
    unfold tail, ztake, zdrop. rewrite skipn_firstn_comm. f_equal. lia.
Qed.

Lemma insert_spec_witness :
  exists r ub', upsgi_buffer_insert env4k 1 (chars "XY") (mk_buffer (chars "abcd") 3 4 0) = Ret (r, ub') /\
    ((r = 0 /\ buffer_ok ub' /\ contents ub' = chars "a" ++ chars "XY" ++ chars "bc") \/
     (r = -1 /\ ub' = mk_buffer (chars "abcd") 3 4 0)).
Proof. apply (insert_spec env4k 1); [by split | done | cbn; lia | done]. Defined.

(** With a limit, [upsgi_buffer_ensure] reports success although the
    block it leaves is too small for the request, and [upsgi_buffer_insert],
    which relies on it, then stores past the end of the block. *)
Theorem insert_overflows_limit :
  let ub := mk_buffer (chars "0123456789") 10 10 12 in
  buffer_ok ub /\ within_limit ub /\
  (exists ub', upsgi_buffer_ensure env4k 5 ub = Ret (0, ub') /\ ub'.(len) - ub'.(pos) = 2) /\
  upsgi_buffer_insert env4k 0 (chars "abcde") ub = Fault.
Proof. split; [by split | split; [by intros ? |]]. split; [by eexists; split | reflexivity]. Qed.

(** The JSON string reader the escapes are meant for. *)
Fixpoint json_unescape (l : list Z) : option (list Z) :=
  match l with
  | [] => Some []
  | c :: l =>
      if c =? 92 then
        match l with
        | [] => None
        | e :: l =>
            let dec :=
              if e =? 116 then Some 9 else if e =? 110 then Some 10
              else if e =? 114 then Some 13 else if e =? 34 then Some 34
              else if e =? 92 then Some 92 else None in
            match dec, json_unescape l with
            | Some d, Some r => Some (d :: r)
            | _, _ => None
            end
        end
      else if c =? 34 then None
      else cons c <$> json_unescape l
  end.

Lemma json_unescape_escape src : json_unescape (src ≫= json_escape) = Some src.
Proof.
  induction src as [|c src IH]; [done|]. cbn [mbind list_bind]. unfold json_escape at 1.
  repeat (zcase; [subst; cbn; by rewrite IH|]).
  cbn. destruct (Z.eqb_spec c 92), (Z.eqb_spec c 34); try lia. by rewrite IH.
Qed.

(** [upsgi_buffer_append_json] writes a string that a JSON reader turns
    back into the given bytes: no quote, backslash, tab or newline of the
    input escapes its string. *)
Theorem append_json_roundtrip env src ub :
  EnvOk env -> buffer_ok ub ->
  exists r ub', upsgi_buffer_append_json env src ub = Ret (r, ub') /\ buffer_ok ub' /\
    (r = 0 -> exists out, contents ub' = contents ub ++ out /\ json_unescape out = Some src).
Proof.
  intros Henv Hok. destruct (json_Appends env src ub Hok) as (r & ub' & E & [H1 _ _ _ H5]).
  exists r, ub'. split_and!; auto. intros ->. destruct H5 as [[_ ->]|[? _]]; [|done].
  eexists. split; [done | apply json_unescape_escape].
Qed.

Lemma append_json_roundtrip_witness :
  exists r ub', upsgi_buffer_append_json env4k [97; 34; 10; 92] (mk_buffer [] 0 0 0) = Ret (r, ub') /\
    buffer_ok ub' /\
    (r = 0 -> exists out, contents ub' = [] ++ out /\ json_unescape out = Some [97; 34; 10; 92]).
Proof. apply (append_json_roundtrip env4k); by split. Defined.

(** [upsgi_buffer_append_xml] writes no markup character: the bytes it
    adds contain no quote, apostrophe or angle bracket. *)
Theorem append_xml_safe env src ub :
  EnvOk env -> buffer_ok ub ->
  exists r ub', upsgi_buffer_append_xml env src ub = Ret (r, ub') /\ buffer_ok ub' /\
    exists out, contents ub' = contents ub ++ out /\
      Forall (fun c => c <> 34 /\ c <> 39 /\ c <> 60 /\ c <> 62) out.
Proof.
  intros Henv Hok. destruct (xml_Appends env src ub Hok) as (r & ub' & E & [H1 _ _ _ H5]).
  exists r, ub'. split_and!; auto.
  assert (Forall (fun c => c <> 34 /\ c <> 39 /\ c <> 60 /\ c <> 62) (src ≫= xml_escape)) as HF.
  { clear. induction src as [|c src IH]; cbn [mbind list_bind]; [constructor|].
    apply Forall_app. split; [|done]. unfold xml_escape.
    repeat (zcase; [cbn; rewrite !Forall_cons; by split_and! |]).
    by rewrite Forall_singleton. }
  destruct H5 as [[_ ->]|[_ (p & [q Hq] & ->)]]; eexists; (split; [done|]); [done|].
  rewrite Hq, Forall_app in HF. apply HF.
Qed.

Lemma append_xml_safe_witness :
  exists r ub', upsgi_buffer_append_xml env4k (chars "<a&b>") (mk_buffer [] 0 0 0) = Ret (r, ub') /\
    buffer_ok ub' /\
    exists out, contents ub' = [] ++ out /\
      Forall (fun c => c <> 34 /\ c <> 39 /\ c <> 60 /\ c <> 62) out.
Proof. apply (append_xml_safe env4k); by split. Defined.

Lemma send_loop_spec io rest sent r out :
  upsgi_buffer_send_loop io rest sent = Ret (r, out) ->
  (r = 0 /\ out = sent ++ rest) \/ (r = -1 /\ exists p, p `prefix_of` rest /\ out = sent ++ p).
Proof.
  revert rest sent. induction io as [|[w n] io IH]; intros rest sent; cbn.
  - zcase; [done|]. intros [= <- <-]. left. zlen_facts.
    rewrite (zlen_zero_inv rest), app_nil_r by lia. done.
  - destruct (Z.ltb_spec 0 (zlen rest));
      [|intros [= <- <-]; left; zlen_facts;
        rewrite (zlen_zero_inv rest), app_nil_r by lia; done].
    repeat zcase; cycle 1;
      [intros [= <- <-]; right; split; [done|]; exists []; rewrite app_nil_r;
       split; [apply prefix_nil | done] ..|].
    intros Hs. apply IH in Hs as [[-> ->]|[-> (p & Hp & ->)]]; rewrite <- app_assoc.
    + left. by rewrite ztake_zdrop.
    + right. split; [done|]. exists (ztake n rest ++ p). split; [|done].
      rewrite <- (ztake_zdrop n rest) at 2. by apply prefix_app.
Qed.

(** Whatever the socket answers, [upsgi_buffer_send] returns 0 only when
    it has written exactly the bytes in use, in order; on any error what was
    written is a prefix of them. *)
Theorem send_exact io ub r out :
  buffer_ok ub -> upsgi_buffer_send io ub = Ret (r, out) ->
  (r = 0 /\ out = contents ub) \/ (r = -1 /\ out `prefix_of` contents ub).
Proof.
  intros [Hb Hp Hl Hlim]. unfold upsgi_buffer_send. rewrite mslice_ok by lia. cbn [obind].
  rewrite zdrop_0. fold (contents ub). intros H.
  apply send_loop_spec in H as [?|[-> (p & Hp' & ->)]]; auto.
Qed.

Lemma send_exact_witness :
  (0 = 0 /\ chars "abc" = contents (mk_buffer (chars "abcd") 3 4 0)) \/
  (0 = -1 /\ chars "abc" `prefix_of` contents (mk_buffer (chars "abcd") 3 4 0)).
Proof.
  apply (send_exact [(1, 2); (1, 1)] (mk_buffer (chars "abcd") 3 4 0)); [by split | reflexivity].
Defined.

(** When the address does not fit in the block, [upsgi_buffer_append_keyipv4]
    stores the corrected size through a pointer into the block that the
    append has just given back to the allocator. *)
Theorem keyipv4_stale_pointer :
  let ub := mk_buffer (zrep 8 0) 0 8 0 in
  buffer_ok ub /\ upsgi_buffer_append_keyipv4 env4k (chars "addr") 10 0 0 1 ub = Fault /\
  (exists ub', upsgi_buffer_append_keyipv4 env4k (chars "addr") 10 0 0 1 (mk_buffer (zrep 64 0) 0 64 0)
               = Ret (0, ub') /\
   contents ub' = le_bytes16 4 ++ chars "addr" ++ le_bytes16 8 ++ chars "10.0.0.1").
Proof. split; [by split | split; [reflexivity | eexists; split; reflexivity]]. Qed.
