(* ===== verification/BodySched.v ===== *)
(** The request-body scheduler of core/body_scheduler.c.

    The scheduler paces the reads of one request body: it keeps a deficit
    counter per request (deficit round robin), two lanes with their own
    quantum, promotion rules from the interactive to the bulk lane, and
    statistics per core.  The state is the part of [struct wsgi_request] and
    of [struct upsgi_core] that the file uses; the clock readings of
    [upsgi_micros] are arguments, in the order in which they are taken.  The
    null tests on [wsgi_req] are not modelled: a request is always given. *)
From Stdlib Require Import Sorted.
From S2P Require Import Prelude.

Module BodySched.

(** * Constants *)

Definition INTERACTIVE_BYTES_THRESHOLD : Z := 256 * 1024.
Definition INTERACTIVE_ROUNDS_THRESHOLD : Z := 4.
Definition INTERACTIVE_RESIDENCY_US_THRESHOLD : Z := 250 * 1000.
Definition NEAR_COMPLETE_BYTES_THRESHOLD : Z := 64 * 1024.
Definition PROMOTION_MIN_BYTES : Z := 64 * 1024.
Definition FULL_BUDGET_PROMOTION_THRESHOLD : Z := 2.
Definition FULL_BUDGET_RATIO_NUM : Z := 7.
Definition FULL_BUDGET_RATIO_DEN : Z := 8.
Definition INTERACTIVE_QUANTUM_BYTES : Z := 64 * 1024.
Definition BULK_QUANTUM_BYTES : Z := 32 * 1024.
Definition DEFICIT_CAP_MULTIPLIER : Z := 4.

Definition residency_bucket_limits_us : list Z :=
  [1000; 2000; 4000; 8000; 16000; 32000; 64000; 128000; 256000; 512000;
   1000000; 2000000; 4000000; 8000000; 16000000; 2 ^ 64 - 1].

(** * State *)

(** [UPSGI_BODY_SCHED_LANE_NONE], [_INTERACTIVE] and [_BULK]. *)
Inductive lane : Type := LANE_NONE | LANE_INTERACTIVE | LANE_BULK.

#[export] Instance lane_eq_dec : EqDecision lane.
Proof. solve_decision. Defined.

Definition is_bulk (l : lane) : bool :=
  match l with LANE_BULK => true | _ => false end.

(** The fields of [struct wsgi_request]; the byte flags only hold 0 and 1. *)
Record sched_req : Type := mk_req {
  post_cl : Z;
  body_is_chunked : bool;
  started_at_us : Z;
  last_service_us : Z;
  bytes_observed : Z;
  deficit_bytes : Z;
  last_budget_bytes : Z;
  rounds_observed : Z;
  req_full_budget_turns : Z;
  registered : bool;
  lane_class : lane;
  promoted_by_bytes : bool;
  promoted_by_rounds : bool;
  promoted_by_residency : bool;
  marked_complete : bool;
  last_budget_capped : bool;
  disabled_fallback_noted : bool;
  recent_wait_event : bool;
}.
#[export] Instance expand_req : Expand sched_req := fun r =>
  mk_req
    (r.(post_cl)) (r.(body_is_chunked)) (r.(started_at_us)) (r.(last_service_us))
    (r.(bytes_observed)) (r.(deficit_bytes)) (r.(last_budget_bytes))
    (r.(rounds_observed)) (r.(req_full_budget_turns)) (r.(registered)) (r.(lane_class))
    (r.(promoted_by_bytes)) (r.(promoted_by_rounds)) (r.(promoted_by_residency))
    (r.(marked_complete)) (r.(last_budget_capped)) (r.(disabled_fallback_noted))
    (r.(recent_wait_event)).

(** The fields of [struct upsgi_core]. *)
Record sched_core : Type := mk_core {
  rounds : Z;
  interactive_turns : Z;
  bulk_turns : Z;
  requeues : Z;
  promotions_to_bulk : Z;
  no_credit_skips : Z;
  empty_read_events : Z;
  eagain_events : Z;
  completed_items : Z;
  bytes_interactive : Z;
  bytes_bulk : Z;
  bytes_total : Z;
  credit_granted_bytes : Z;
  credit_unused_bytes : Z;
  active_items : Z;
  interactive_depth_max : Z;
  bulk_depth_max : Z;
  residency_us_max : Z;
  residency_us_p50_sample : Z;
  residency_us_p95_sample : Z;
  items_promoted_by_bytes : Z;
  items_promoted_by_rounds : Z;
  items_promoted_by_residency : Z;
  near_complete_fastfinishes : Z;
  overflow_protection_hits : Z;
  disabled_fallbacks : Z;
  full_budget_turns : Z;
  wait_relief_events : Z;
  yield_hints : Z;
  interactive_depth_current : Z;
  bulk_depth_current : Z;
  residency_hist : list Z;
}.
#[export] Instance expand_core : Expand sched_core := fun r =>
  mk_core
    (r.(rounds)) (r.(interactive_turns)) (r.(bulk_turns)) (r.(requeues))
    (r.(promotions_to_bulk)) (r.(no_credit_skips)) (r.(empty_read_events))
    (r.(eagain_events)) (r.(completed_items)) (r.(bytes_interactive)) (r.(bytes_bulk))
    (r.(bytes_total)) (r.(credit_granted_bytes)) (r.(credit_unused_bytes))
    (r.(active_items)) (r.(interactive_depth_max)) (r.(bulk_depth_max))
    (r.(residency_us_max)) (r.(residency_us_p50_sample)) (r.(residency_us_p95_sample))
    (r.(items_promoted_by_bytes)) (r.(items_promoted_by_rounds))
    (r.(items_promoted_by_residency)) (r.(near_complete_fastfinishes))
    (r.(overflow_protection_hits)) (r.(disabled_fallbacks)) (r.(full_budget_turns))
    (r.(wait_relief_events)) (r.(yield_hints)) (r.(interactive_depth_current))
    (r.(bulk_depth_current)) (r.(residency_hist)).

(** A request and the core it runs on. *)
Record sched : Type := mk_sched { rq : sched_req; uc : sched_core }.
#[export] Instance expand_sched : Expand sched := fun s => mk_sched (rq s) (uc s).

(** A request just cleared by [memset], and a core at start up. *)
Definition fresh_req (cl : Z) (chunked : bool) : sched_req :=
  mk_req cl chunked 0 0 0 0 0 0 0 false LANE_NONE false false false false false false false.
Definition fresh_core : sched_core :=
  mk_core 0 0 0 0 0 0 0 0 0 0 0 0 0 0 0 0 0 0 0 0 0 0 0 0 0 0 0 0 0 0 0 (zrep 16 0).

(** * Operations *)

Definition incr (x : Z) : Z := u64 (x + 1).

Definition lane_quantum (r : sched_req) : Z :=
  if is_bulk r.(lane_class) then BULK_QUANTUM_BYTES else INTERACTIVE_QUANTUM_BYTES.

Definition is_full_budget_turn (r : sched_req) (observed_bytes : Z) : bool :=
  if r.(last_budget_bytes) =? 0 then false
  else if r.(last_budget_bytes) <=? observed_bytes then true
  else u64 (r.(last_budget_bytes) * FULL_BUDGET_RATIO_NUM) <=?
       u64 (observed_bytes * FULL_BUDGET_RATIO_DEN).

Definition update_depth_max (c : sched_core) : sched_core :=
  let c := if c.(interactive_depth_max) <? c.(interactive_depth_current)
           then c<|interactive_depth_max := c.(interactive_depth_current)|> else c in
  if c.(bulk_depth_max) <? c.(bulk_depth_current)
  then c<|bulk_depth_max := c.(bulk_depth_current)|> else c.

(** [if (x > 0) x--;] *)
Definition decr (x : Z) : Z := if 0 <? x then x - 1 else x.

Definition promote_to_bulk (s : sched) : sched :=
  if is_bulk s.(rq).(lane_class) then s
  else
    let c := s.(uc) in
    let c := c<|interactive_depth_current := decr c.(interactive_depth_current)|> in
    let c := c<|bulk_depth_current := incr c.(bulk_depth_current)|> in
    let c := update_depth_max c in
    let c := c<|promotions_to_bulk := incr c.(promotions_to_bulk)|> in
    let r := s.(rq)<|lane_class := LANE_BULK|> in
    let r := if BULK_QUANTUM_BYTES <? r.(deficit_bytes)
             then r<|deficit_bytes := BULK_QUANTUM_BYTES|> else r in
    mk_sched r c.

(** The second loop of [refresh_samples]: buckets still to visit, then
    [seen], [p50] and [p95]. *)
Fixpoint sample_loop (buckets : list (Z * Z)) (target50 target95 seen p50 p95 : Z) : Z * Z :=
  match buckets with
  | [] => (p50, p95)
  | (hist, lim) :: buckets =>
      let seen := u64 (seen + hist) in
      let p50 := if (p50 =? 0) && (target50 <=? seen) then lim else p50 in
      if (p95 =? 0) && (target95 <=? seen) then (p50, lim)
      else sample_loop buckets target50 target95 seen p50 p95
  end.

Definition hist_total (hist : list Z) : Z := foldl (fun t h => u64 (t + h)) 0 hist.

Definition refresh_samples (c : sched_core) : sched_core :=
  let total := hist_total c.(residency_hist) in
  if total =? 0 then c<|residency_us_p50_sample := 0|><|residency_us_p95_sample := 0|>
  else
    let target50 := u64 (total + 1) / 2 in
    let target95 := u64 (u64 (total * 95) + 99) / 100 in
    let target95 := if target95 =? 0 then 1 else target95 in
    let '(p50, p95) :=
      sample_loop (zip c.(residency_hist) residency_bucket_limits_us) target50 target95 0 0 0 in
    c<|residency_us_p50_sample := p50|><|residency_us_p95_sample := p95|>.

(** The index of the first bucket whose limit is not below the residency. *)
Fixpoint residency_bucket (limits : list Z) (residency_us : Z) : option nat :=
  match limits with
  | [] => None
  | l :: limits =>
      if residency_us <=? l then Some O else S <$> residency_bucket limits residency_us
  end.

Definition record_residency (c : sched_core) (residency_us : Z) : sched_core :=
  let c := if c.(residency_us_max) <? residency_us
           then c<|residency_us_max := residency_us|> else c in
  let c := match residency_bucket residency_bucket_limits_us residency_us with
           | Some i => c<|residency_hist := alter incr i c.(residency_hist)|>
           | None => c
           end in
  refresh_samples c.

(** One promotion rule: set the request's flag, count the item, promote. *)
Definition promote_rule (fires : bool) (flag : sched_req -> sched_req)
    (count : sched_core -> sched_core) (s : sched) : sched :=
  if fires then promote_to_bulk (mk_sched (flag s.(rq)) (count s.(uc))) else s.

Definition rule_bytes (s : sched) : sched :=
  promote_rule
    (negb s.(rq).(promoted_by_bytes) &&
     (INTERACTIVE_BYTES_THRESHOLD <=? s.(rq).(bytes_observed)))
    (fun r => r<|promoted_by_bytes := true|>)
    (fun c => c<|items_promoted_by_bytes := incr c.(items_promoted_by_bytes)|>) s.

Definition rule_rounds (s : sched) : sched :=
  promote_rule
    (negb s.(rq).(promoted_by_rounds) &&
     (INTERACTIVE_ROUNDS_THRESHOLD <=? s.(rq).(rounds_observed)) &&
     (PROMOTION_MIN_BYTES <=? s.(rq).(bytes_observed)) &&
     (FULL_BUDGET_PROMOTION_THRESHOLD <=? s.(rq).(req_full_budget_turns)))
    (fun r => r<|promoted_by_rounds := true|>)
    (fun c => c<|items_promoted_by_rounds := incr c.(items_promoted_by_rounds)|>) s.

Definition rule_residency (residency_us : Z) (s : sched) : sched :=
  promote_rule
    (negb s.(rq).(promoted_by_residency) &&
     (INTERACTIVE_RESIDENCY_US_THRESHOLD <=? residency_us) &&
     (PROMOTION_MIN_BYTES <=? s.(rq).(bytes_observed)) &&
     (0 <? s.(rq).(req_full_budget_turns)))
    (fun r => r<|promoted_by_residency := true|>)
    (fun c => c<|items_promoted_by_residency := incr c.(items_promoted_by_residency)|>) s.

Definition update_promotions (s : sched) : sched :=
  if negb s.(rq).(registered) then s
  else
    let residency_us := u64 (s.(rq).(last_service_us) - s.(rq).(started_at_us)) in
    rule_residency residency_us (rule_rounds (rule_bytes s)).

(** The registration of a request: the core gains one interactive item. *)
Definition register_item (now : Z) (s : sched) : sched :=
  mk_sched
    (s.(rq)<|registered := true|><|lane_class := LANE_INTERACTIVE|>
       <|started_at_us := now|><|last_service_us := now|>)
    (update_depth_max
       (s.(uc)<|active_items := incr s.(uc).(active_items)|>
          <|interactive_depth_current := incr s.(uc).(interactive_depth_current)|>)).

Definition note_request (enabled : bool) (now : Z) (s : sched) : sched :=
  if s.(rq).(registered) then s
  else if (s.(rq).(post_cl) =? 0) && negb s.(rq).(body_is_chunked) then s
  else
    let s := register_item now s in
    if negb enabled && negb s.(rq).(disabled_fallback_noted)
    then mk_sched (s.(rq)<|disabled_fallback_noted := true|>)
                  (s.(uc)<|disabled_fallbacks := incr s.(uc).(disabled_fallbacks)|>)
    else s.

(** A read that follows a wait is granted at most one quantum and leaves
    the deficit alone. *)
Definition wait_relief (requested : Z) (s : sched) : Z * sched :=
  let grant := UMIN requested (lane_quantum s.(rq)) in
  (grant,
   mk_sched (s.(rq)<|last_budget_bytes := grant|>)
     (s.(uc)<|wait_relief_events := incr s.(uc).(wait_relief_events)|>
        <|credit_granted_bytes := u64 (s.(uc).(credit_granted_bytes) + grant)|>)).

(** The deficit gains one quantum, up to its cap. *)
Definition top_up (s : sched) : sched :=
  let quantum := lane_quantum s.(rq) in
  let deficit_cap := quantum * DEFICIT_CAP_MULTIPLIER in
  let hit := s.(uc)<|overflow_protection_hits := incr s.(uc).(overflow_protection_hits)|> in
  if s.(rq).(deficit_bytes) <? deficit_cap then
    let d := u64 (s.(rq).(deficit_bytes) + quantum) in
    if deficit_cap <? d
    then mk_sched (s.(rq)<|deficit_bytes := deficit_cap|>) hit
    else mk_sched (s.(rq)<|deficit_bytes := d|>) s.(uc)
  else mk_sched s.(rq) hit.

Definition no_credit (c : sched_core) : sched_core :=
  c<|no_credit_skips := incr c.(no_credit_skips)|>.

(** What the deficit allows of the request. *)
Definition grant_credit (requested : Z) (s : sched) : Z * sched :=
  let quantum := lane_quantum s.(rq) in
  let grant := UMIN requested s.(rq).(deficit_bytes) in
  let '(grant, s) :=
    if grant =? 0
    then (UMIN requested quantum, mk_sched (s.(rq)<|deficit_bytes := 0|>) (no_credit s.(uc)))
    else (grant, s) in
  let s :=
    if grant <? requested
    then mk_sched (s.(rq)<|last_budget_capped := true|>) (no_credit s.(uc)) else s in
  (grant,
   mk_sched (s.(rq)<|last_budget_bytes := grant|>)
     (s.(uc)<|credit_granted_bytes := u64 (s.(uc).(credit_granted_bytes) + grant)|>)).

Definition read_budget (enabled : bool) (now : Z) (requested : Z) (s : sched) : Z * sched :=
  if requested =? 0 then (requested, s)
  else
    let s := note_request enabled now s in
    if negb s.(rq).(registered) then (requested, s)
    else
      let s := s<|rq := s.(rq)<|last_budget_capped := false|><|last_budget_bytes := 0|>|> in
      if negb enabled then
        (requested,
         mk_sched (s.(rq)<|last_budget_bytes := requested|>)
           (s.(uc)<|credit_granted_bytes := u64 (s.(uc).(credit_granted_bytes) + requested)|>))
      else
        let s := update_promotions s in
        if s.(rq).(recent_wait_event) then wait_relief requested s
        else grant_credit requested (top_up s).

(** The accounting of [note_bytes] up to the unused credit: the turn of the
    request's lane, then the totals.  Every counter is read once, so its
    value before the call is used. *)
Definition count_lane (bulk : bool) (observed : Z) (c : sched_core) : sched_core :=
  if bulk
  then c<|bulk_turns := incr c.(bulk_turns)|><|bytes_bulk := u64 (c.(bytes_bulk) + observed)|>
  else c<|interactive_turns := incr c.(interactive_turns)|>
         <|bytes_interactive := u64 (c.(bytes_interactive) + observed)|>.

Definition count_total (observed : Z) (c : sched_core) : sched_core :=
  c<|rounds := incr c.(rounds)|><|bytes_total := u64 (c.(bytes_total) + observed)|>.

Definition count_requeue (r : sched_req) (observed : Z) (c : sched_core) : sched_core :=
  let c := if negb r.(marked_complete) then c<|requeues := incr c.(requeues)|> else c in
  if observed <? r.(last_budget_bytes)
  then c<|credit_unused_bytes := u64 (c.(credit_unused_bytes) + (r.(last_budget_bytes) - observed))|>
  else c.

Definition count_bytes (observed now : Z) (s : sched) : sched :=
  let r := s.(rq)<|rounds_observed := u32 (s.(rq).(rounds_observed) + 1)|>
             <|bytes_observed := u64 (s.(rq).(bytes_observed) + observed)|>
             <|last_service_us := now|> in
  mk_sched r
    (count_requeue r observed
       (count_total observed (count_lane (is_bulk r.(lane_class)) observed s.(uc)))).

(** The charge of the deficit and the full budget counter. *)
Definition charge_bytes (enabled : bool) (observed : Z) (s : sched) : sched :=
  let r := s.(rq) in
  let r :=
    if enabled then
      if observed <=? r.(deficit_bytes) then r<|deficit_bytes := r.(deficit_bytes) - observed|>
      else r<|deficit_bytes := 0|>
    else r in
  if is_full_budget_turn r observed
  then mk_sched (r<|req_full_budget_turns := u32 (r.(req_full_budget_turns) + 1)|>)
         (s.(uc)<|full_budget_turns := incr s.(uc).(full_budget_turns)|>)
  else mk_sched (r<|req_full_budget_turns := 0|>) s.(uc).

(** The completion test of a body of known length. *)
Definition mark_complete (bytes_before : Z) (s : sched) : sched :=
  let r := s.(rq) in
  if negb r.(body_is_chunked) && (0 <? r.(post_cl)) && (r.(post_cl) <=? r.(bytes_observed)) then
    let c := if r.(post_cl) - UMIN bytes_before r.(post_cl) <=? NEAR_COMPLETE_BYTES_THRESHOLD
             then s.(uc)<|near_complete_fastfinishes := incr s.(uc).(near_complete_fastfinishes)|>
             else s.(uc) in
    mk_sched (r<|marked_complete := true|>) c
  else s.

Definition note_bytes (enabled : bool) (now0 now : Z) (observed : Z) (s : sched) : sched :=
  if observed =? 0 then s
  else
    let s := note_request enabled now0 s in
    if negb s.(rq).(registered) then s
    else
      let bytes_before := s.(rq).(bytes_observed) in
      let s := count_bytes observed now s in
      let full_budget_turn :=
        is_full_budget_turn s.(rq) observed in
      let s := charge_bytes enabled observed s in
      let s := update_promotions s in
      let s := mark_complete bytes_before s in
      let c :=
        if enabled && s.(rq).(last_budget_capped) && is_bulk s.(rq).(lane_class) &&
           negb s.(rq).(marked_complete) && full_budget_turn && negb s.(rq).(recent_wait_event)
        then s.(uc)<|yield_hints := incr s.(uc).(yield_hints)|> else s.(uc) in
      mk_sched (s.(rq)<|recent_wait_event := false|>) c.

Definition note_empty_read (enabled : bool) (now : Z) (s : sched) : sched :=
  let s := note_request enabled now s in
  if negb s.(rq).(registered) then s
  else mk_sched (s.(rq)<|recent_wait_event := true|><|req_full_budget_turns := 0|>)
         (s.(uc)<|empty_read_events := incr s.(uc).(empty_read_events)|>).

Definition note_eagain (enabled : bool) (now : Z) (s : sched) : sched :=
  let s := note_request enabled now s in
  if negb s.(rq).(registered) then s
  else mk_sched (s.(rq)<|recent_wait_event := true|><|req_full_budget_turns := 0|>)
         (s.(uc)<|eagain_events := incr s.(uc).(eagain_events)|>).

Definition note_chunked_complete (enabled : bool) (now : Z) (s : sched) : sched :=
  let s := note_request enabled now s in
  s<|rq := s.(rq)<|marked_complete := true|>|>.

Definition finish (now : Z) (s : sched) : sched :=
  if negb s.(rq).(registered) then s
  else
    let c := s.(uc)<|active_items := decr s.(uc).(active_items)|> in
    let c := if is_bulk s.(rq).(lane_class)
             then c<|bulk_depth_current := decr c.(bulk_depth_current)|>
             else c<|interactive_depth_current := decr c.(interactive_depth_current)|> in
    let c := record_residency c (u64 (now - s.(rq).(started_at_us))) in
    let c := if s.(rq).(marked_complete)
             then c<|completed_items := incr c.(completed_items)|> else c in
    mk_sched
      (s.(rq)<|registered := false|><|deficit_bytes := 0|><|last_budget_bytes := 0|>
         <|last_budget_capped := false|><|disabled_fallback_noted := false|>
         <|recent_wait_event := false|><|req_full_budget_turns := 0|>) c.

(** * The scheduler as a transition system

    [memset] gives the core its next request once the current one has been
    finished. *)

Inductive step (enabled : bool) : sched -> sched -> Prop :=
| step_request now s : step enabled s (note_request enabled now s)
| step_budget now n s : 0 <= n < 2 ^ 64 -> step enabled s (read_budget enabled now n s).2
| step_bytes now0 now n s : 0 <= n < 2 ^ 64 -> step enabled s (note_bytes enabled now0 now n s)
| step_empty now s : step enabled s (note_empty_read enabled now s)
| step_eagain now s : step enabled s (note_eagain enabled now s)
| step_complete now s : step enabled s (note_chunked_complete enabled now s)
| step_finish now s : step enabled s (finish now s)
| step_next cl chunked s :
    s.(rq).(registered) = false -> step enabled s (s<|rq := fresh_req cl chunked|>).

Definition initial (cl : Z) (chunked : bool) : sched := mk_sched (fresh_req cl chunked) fresh_core.
Definition reachable (enabled : bool) (s : sched) : Prop :=
  exists cl chunked, rtc (step enabled) (initial cl chunked) s.

Ltac consts :=
  unfold BULK_QUANTUM_BYTES, INTERACTIVE_QUANTUM_BYTES, DEFICIT_CAP_MULTIPLIER in *.

(** ** Invariant *)

(** The depth counters of the core describe the one request it runs. *)
Definition depth_inv (s : sched) : Prop :=
  if s.(rq).(registered) then
    s.(uc).(active_items) = 1 /\
    s.(rq).(lane_class) <> LANE_NONE /\
    s.(uc).(interactive_depth_current) = (if is_bulk s.(rq).(lane_class) then 0 else 1) /\
    s.(uc).(bulk_depth_current) = (if is_bulk s.(rq).(lane_class) then 1 else 0)
  else
    s.(uc).(active_items) = 0 /\ s.(uc).(interactive_depth_current) = 0 /\
    s.(uc).(bulk_depth_current) = 0 /\ s.(rq).(deficit_bytes) = 0.

Definition deficit_inv (r : sched_req) : Prop :=
  0 <= r.(deficit_bytes) <= lane_quantum r * DEFICIT_CAP_MULTIPLIER.

(** The per lane counters add up. *)
Definition account_inv (c : sched_core) : Prop :=
  u64 (c.(bytes_interactive) + c.(bytes_bulk)) = c.(bytes_total) /\
  u64 (c.(interactive_turns) + c.(bulk_turns)) = c.(rounds).

Definition depth_max_inv (c : sched_core) : Prop :=
  0 <= c.(interactive_depth_max) <= 1 /\ 0 <= c.(bulk_depth_max) <= 1.

Record inv (s : sched) : Prop := mk_inv {
  inv_depth : depth_inv s;
  inv_deficit : deficit_inv s.(rq);
  inv_account : account_inv s.(uc);
  inv_depth_max : depth_max_inv s.(uc);
}.

Lemma quantum_pos r : 0 < lane_quantum r <= INTERACTIVE_QUANTUM_BYTES.
Proof. unfold lane_quantum. by case_match. Qed.

Lemma incr_mod a b : u64 (incr a + b) = incr (u64 (a + b)).
Proof. unfold incr, wrap. rewrite !Zplus_mod_idemp_l. f_equal. lia. Qed.
Lemma incr_mod_r a b : u64 (a + incr b) = incr (u64 (a + b)).
Proof. unfold incr, wrap. rewrite Zplus_mod_idemp_r, Zplus_mod_idemp_l. f_equal. lia. Qed.
Lemma add_mod_l a b n : u64 (u64 (a + n) + b) = u64 (u64 (a + b) + n).
Proof. unfold wrap. rewrite !Zplus_mod_idemp_l. f_equal. lia. Qed.
Lemma add_mod_r a b n : u64 (a + u64 (b + n)) = u64 (u64 (a + b) + n).
Proof. unfold wrap. rewrite Zplus_mod_idemp_r, Zplus_mod_idemp_l. f_equal. lia. Qed.

Lemma update_depth_max_spec c :
  update_depth_max c =
    c<|interactive_depth_max := Z.max c.(interactive_depth_max) c.(interactive_depth_current)|>
     <|bulk_depth_max := Z.max c.(bulk_depth_max) c.(bulk_depth_current)|>.
Proof.
  unfold update_depth_max.
  destruct (Z.ltb_spec (interactive_depth_max c) (interactive_depth_current c)); cbn;
    destruct (Z.ltb_spec (bulk_depth_max c) (bulk_depth_current c));
    destruct c; unfold setter; cbn in *; f_equal; lia.
Qed.

Lemma promote_inv s : s.(rq).(registered) = true -> inv s -> inv (promote_to_bulk s).
Proof.
  intros Hreg [Hd Hdef Ha Hm]. unfold promote_to_bulk.
  destruct (is_bulk (lane_class (rq s))) eqn:Eb; [by split|].
  unfold depth_inv in Hd. rewrite Hreg, Eb in Hd. destruct Hd as (H1 & H2 & H3 & H4).
  rewrite update_depth_max_spec. unfold account_inv, depth_max_inv in *.
  unfold deficit_inv, lane_quantum in Hdef. rewrite Eb in Hdef.
  split; cbn.
  - unfold depth_inv; cbn. zcase; cbn; rewrite Hreg; cbn; rewrite H3, H4; by split_and!.
  - unfold deficit_inv, lane_quantum. consts. zcase; cbn in *; lia.
  - done.
  - unfold depth_max_inv; cbn. rewrite H3, H4. change (decr 1) with 0. change (incr 0) with 1. lia.
Qed.

Lemma promote_registered s : registered (rq (promote_to_bulk s)) = registered (rq s).
Proof. unfold promote_to_bulk. repeat case_match; done. Qed.

(** The statistics of the promotions are not part of the invariant. *)
Lemma inv_frame s r c :
  inv s ->
  r.(registered) = s.(rq).(registered) -> r.(lane_class) = s.(rq).(lane_class) ->
  r.(deficit_bytes) = s.(rq).(deficit_bytes) ->
  c.(active_items) = s.(uc).(active_items) ->
  c.(interactive_depth_current) = s.(uc).(interactive_depth_current) ->
  c.(bulk_depth_current) = s.(uc).(bulk_depth_current) ->
  account_inv c -> depth_max_inv c ->
  inv (mk_sched r c).
Proof.
  intros [Hd Hdef Ha Hm] E1 E2 E3 E4 E5 E6 HA HM. split; cbn; auto.
  - unfold depth_inv in *; cbn. by rewrite E1, E2, E3, E4, E5, E6.
  - unfold deficit_inv, lane_quantum in *. by rewrite E2, E3.
Qed.

Ltac frame s := eapply (inv_frame s); cbn; auto; try done.

Definition live_inv (s : sched) : Prop := inv s /\ s.(rq).(registered) = true.

Lemma promote_rule_inv b flag count s :
  live_inv s -> live_inv (mk_sched (flag (rq s)) (count (uc s))) -> live_inv (promote_rule b flag count s).
Proof.
  intros Hs [Hi Hr]. unfold promote_rule. destruct b; [|done].
  split; [by apply promote_inv | by rewrite promote_registered].
Qed.

Lemma update_promotions_inv s : live_inv s -> live_inv (update_promotions s).
Proof.
  intros H. unfold update_promotions. destruct H as [Hi Hr] eqn:E. rewrite Hr. cbn [negb]. clear E.
  assert (forall s, live_inv s -> live_inv (rule_bytes s)) as H1.
  { intros t Ht. apply promote_rule_inv; [done|]. split; [frame t; apply Ht | apply Ht]. }
  assert (forall s, live_inv s -> live_inv (rule_rounds s)) as H2.
  { intros t Ht. apply promote_rule_inv; [done|]. split; [frame t; apply Ht | apply Ht]. }
  assert (forall n s, live_inv s -> live_inv (rule_residency n s)) as H3.
  { intros n t Ht. apply promote_rule_inv; [done|]. split; [frame t; apply Ht | apply Ht]. }
  auto.
Qed.

Lemma register_item_inv now s : s.(rq).(registered) = false -> inv s -> inv (register_item now s).
Proof.
  intros Hreg [Hd Hdef Ha Hm]. unfold register_item. rewrite update_depth_max_spec.
  unfold depth_inv in Hd. rewrite Hreg in Hd. destruct Hd as (H1 & H2 & H3 & H4).
  split; cbn.
  - unfold depth_inv; cbn. by rewrite H1, H2, H3.
  - unfold deficit_inv; cbn. rewrite H4. by consts.
  - done.
  - unfold depth_max_inv in *; cbn. rewrite H2, H3. change (incr 0) with 1. lia.
Qed.

Lemma note_request_inv enabled now s : inv s -> inv (note_request enabled now s).
Proof.
  intros Hi. unfold note_request. destruct (registered (rq s)) eqn:Hreg; [done|].
  destruct (_ && _); [done|]. pose proof (register_item_inv now s Hreg Hi) as Hs.
  destruct (_ && _); [|done]. frame (register_item now s); apply Hs.
Qed.

Lemma wait_relief_inv n s : live_inv s -> live_inv (wait_relief n s).2.
Proof. intros [Hi Hr]. split; [|done]. frame s; apply Hi. Qed.

(** After the top up the deficit is positive and within its cap. *)
Lemma top_up_spec s :
  live_inv s -> live_inv (top_up s) /\
  lane_quantum (rq (top_up s)) = lane_quantum (rq s) /\
  0 < deficit_bytes (rq (top_up s)) /\
  deficit_bytes (rq (top_up s)) <= deficit_bytes (rq s) + lane_quantum (rq s).
Proof.
  intros [[Hd Hdef Ha Hm] Hr]. pose proof (quantum_pos (rq s)) as Hq. unfold deficit_inv in Hdef.
  unfold live_inv, top_up, depth_inv in *. rewrite Hr in Hd. consts.
  rewrite wrap_small by (cbn; lia).
  repeat zcase; (split_and!; [split| ..]);
    unfold depth_inv, deficit_inv, lane_quantum in *; cbn; rewrite ?Hr; consts; try done; lia.
Qed.

Lemma grant_credit_spec n s :
  live_inv s -> 0 < deficit_bytes (rq s) -> 0 < n ->
  let '(g, s') := grant_credit n s in
  live_inv s' /\ g = Z.min n (deficit_bytes (rq s)) /\
  deficit_bytes (rq s') = deficit_bytes (rq s) /\ lane_class (rq s') = lane_class (rq s).
Proof.
  intros [Hi Hr] Hd Hn. unfold grant_credit. rewrite UMIN_spec.
  destruct (Z.eqb_spec (Z.min n (deficit_bytes (rq s))) 0); [lia|].
  zcase; split_and!; try done; split; try done; frame s; apply Hi.
Qed.

Lemma cleared_inv s :
  live_inv s -> live_inv (s<|rq := s.(rq)<|last_budget_capped := false|><|last_budget_bytes := 0|>|>).
Proof. intros [Hi Hr]. split; [|done]. frame s; apply Hi. Qed.

Lemma read_budget_inv enabled now n s :
  inv s -> 0 <= n -> inv (read_budget enabled now n s).2.
Proof.
  intros Hi Hn. unfold read_budget. destruct (Z.eqb_spec n 0); [done|].
  pose proof (note_request_inv enabled now s Hi) as Hi1. set (s1 := note_request _ _ s) in *.
  clearbody s1. destruct (registered (rq s1)) eqn:Hr; [|done]. cbn [negb].
  pose proof (cleared_inv s1 (conj Hi1 Hr)) as Hl. set (s2 := s1<|rq := _|>) in *. clearbody s2.
  destruct enabled; cbn [negb]; [|frame s2; apply Hl].
  apply update_promotions_inv in Hl. set (s3 := update_promotions s2) in *. clearbody s3.
  destruct (recent_wait_event (rq s3)); [by apply wait_relief_inv|].
  destruct (top_up_spec s3 Hl) as (Hl4 & _ & Hpos & _).
  pose proof (grant_credit_spec n (top_up s3) Hl4 Hpos) as Hg.
  destruct (grant_credit n (top_up s3)) as [g s4]. cbn. apply Hg. lia.
Qed.

Lemma count_lane_account bulk n c :
  account_inv c -> account_inv (count_total n (count_lane bulk n c)).
Proof.
  intros [H1 H2]. unfold account_inv, count_total, count_lane.
  destruct bulk; cbn -[wrap incr].
  - rewrite add_mod_r, incr_mod_r, H1, H2. done.
  - rewrite add_mod_l, incr_mod, H1, H2. done.
Qed.

(** The fields of the invariant that the counters leave alone. *)
Definition same_depths (c c' : sched_core) : Prop :=
  c'.(active_items) = c.(active_items) /\
  c'.(interactive_depth_current) = c.(interactive_depth_current) /\
  c'.(bulk_depth_current) = c.(bulk_depth_current) /\
  c'.(interactive_depth_max) = c.(interactive_depth_max) /\
  c'.(bulk_depth_max) = c.(bulk_depth_max).

Lemma count_depths bulk r n c : same_depths c (count_requeue r n (count_total n (count_lane bulk n c))).
Proof.
  unfold same_depths, count_requeue, count_total, count_lane.
  destruct bulk, (negb _), (_ <? _); split_and!; reflexivity.
Qed.

Lemma count_requeue_account r n c : account_inv c -> account_inv (count_requeue r n c).
Proof. unfold count_requeue. by destruct (negb _), (_ <? _). Qed.

Lemma count_bytes_inv n now s : live_inv s -> live_inv (count_bytes n now s).
Proof.
  intros [Hi Hr]. split; [|done]. unfold count_bytes. cbn zeta.
  set (r := s.(rq)<|rounds_observed := _|><|bytes_observed := _|><|last_service_us := _|>).
  destruct (count_depths (is_bulk (lane_class r)) r n (uc s)) as (E1 & E2 & E3 & E4 & E5).
  eapply (inv_frame s); auto.
  - apply count_requeue_account, count_lane_account, Hi.
  - unfold depth_max_inv. rewrite E4, E5. apply Hi.
Qed.

Lemma charge_bytes_inv enabled n s : 0 <= n -> live_inv s -> live_inv (charge_bytes enabled n s).
Proof.
  intros Hn [[Hd Hdef Ha Hm] Hr]. unfold charge_bytes.
  set (r := if enabled then _ else _).
  assert (live_inv (mk_sched r (uc s))) as [Hi Hr'].
  { unfold r. unfold depth_inv, deficit_inv in *. rewrite Hr in Hd.
    destruct enabled; [|by split; [split; unfold depth_inv; cbn; rewrite ?Hr|]].
    zcase; (split; [split|]; unfold depth_inv, deficit_inv, lane_quantum in *; cbn; rewrite ?Hr; auto);
      consts; case_match; lia. }
  clearbody r. cbn in Hr'.
  destruct (is_full_budget_turn r n); split; try done; frame (mk_sched r (uc s)); apply Hi.
Qed.

Lemma mark_complete_inv n s : live_inv s -> live_inv (mark_complete n s).
Proof.
  intros [Hi Hr]. unfold mark_complete. destruct (_ && _); [|done]. split; [|done].
  case_match; frame s; apply Hi.
Qed.

Lemma note_bytes_inv enabled now0 now n s :
  inv s -> 0 <= n -> inv (note_bytes enabled now0 now n s).
Proof.
  intros Hi Hn. unfold note_bytes. destruct (Z.eqb_spec n 0); [done|].
  pose proof (note_request_inv enabled now0 s Hi) as Hi1. set (s1 := note_request _ _ s) in *.
  clearbody s1. destruct (registered (rq s1)) eqn:Hr; [|done]. cbn [negb].
  assert (live_inv (mark_complete (bytes_observed (rq s1))
            (update_promotions (charge_bytes enabled n (count_bytes n now s1))))) as [Hi2 Hr2].
  { apply mark_complete_inv, update_promotions_inv, charge_bytes_inv, count_bytes_inv; [lia | by split]. }
  set (s2 := mark_complete _ _) in *. clearbody s2.
  case_match; frame s2; apply Hi2.
Qed.

Lemma finish_inv now s : inv s -> inv (finish now s).
Proof.
  intros [Hd Hdef Ha Hm]. unfold finish. destruct (registered (rq s)) eqn:Hr; [|by split]. cbn [negb].
  unfold depth_inv in Hd. rewrite Hr in Hd. destruct Hd as (H1 & H2 & H3 & H4).
  set (c := if is_bulk _ then _ else _).
  assert (active_items c = 0 /\ interactive_depth_current c = 0 /\ bulk_depth_current c = 0 /\
          account_inv c /\ depth_max_inv c) as Hc.
  { unfold c. destruct (is_bulk (lane_class (rq s))); cbn; rewrite H1, ?H3, ?H4; by split_and!. }
  clearbody c.
  assert (forall c n, let c' := record_residency c n in
    active_items c' = active_items c /\ interactive_depth_current c' = interactive_depth_current c /\
    bulk_depth_current c' = bulk_depth_current c /\
    (account_inv c -> account_inv c') /\ (depth_max_inv c -> depth_max_inv c')) as Hrec.
  { clear. intros c n. cbn zeta. unfold record_residency, refresh_samples.
    repeat case_match; by split_and!. }
  destruct (Hrec c (u64 (now - started_at_us (rq s)))) as (E1 & E2 & E3 & E4 & E5).
  destruct Hc as (C1 & C2 & C3 & C4 & C5).
  set (c' := record_residency c _) in *. clearbody c'.
  assert (deficit_inv ((rq s)<|deficit_bytes := 0|>)) as Hz
    by (unfold deficit_inv; cbn; pose proof (quantum_pos (rq s)); unfold lane_quantum in *; consts; cbn; lia).
  destruct (marked_complete (rq s)); (split; cbn; [unfold depth_inv; cbn; rewrite E1, E2, E3; done | exact Hz
    | apply (E4 C4) | apply (E5 C5)]).
Qed.

Lemma step_inv enabled s s' : inv s -> step enabled s s' -> inv s'.
Proof.
  intros Hi Hs. destruct Hs.
  - by apply note_request_inv.
  - apply read_budget_inv; [done | lia].
  - apply note_bytes_inv; [done | lia].
  - unfold note_empty_read. pose proof (note_request_inv enabled now s Hi) as H1.
    case_match; [done|]. frame (note_request enabled now s); apply H1.
  - unfold note_eagain. pose proof (note_request_inv enabled now s Hi) as H1.
    case_match; [done|]. frame (note_request enabled now s); apply H1.
  - unfold note_chunked_complete. pose proof (note_request_inv enabled now s Hi) as H1.
    frame (note_request enabled now s); apply H1.
  - by apply finish_inv.
  - destruct Hi as [Hd Hdef Ha Hm]. unfold depth_inv in Hd. rewrite H in Hd.
    destruct Hd as (H1 & H2 & H3 & H4). by split.
Qed.

Lemma initial_inv cl chunked : inv (initial cl chunked).
Proof. by split. Qed.

(** * Theorems *)

(** C18: in every reachable state the core's counters describe the request
    it runs: one active item in exactly its lane while a request is
    registered and none otherwise, a deficit within the cap of the lane, per
    lane byte and turn counters that add up to the totals, and lane depths
    that never exceed one. *)
Theorem reachable_inv enabled s : reachable enabled s -> inv s.
Proof.
  intros (cl & chunked & Hrun). assert (inv (initial cl chunked)) as Hi by apply initial_inv.
  induction Hrun as [|? ? ? Hs _ IH]; [done | eauto using step_inv].
Qed.

(** A request of 100 bytes is registered, served and finished. *)
Definition run_example : sched :=
  finish 900 (note_bytes true 100 200 100 (read_budget true 100 4096 (initial 100 false)).2).

Lemma reachable_inv_witness : inv run_example /\ run_example.(uc).(completed_items) = 1.
Proof.
  split; [|vm_compute; reflexivity]. apply (reachable_inv true). exists 100, false. unfold run_example.
  eapply rtc_l; [apply (step_budget true 100 4096); lia|].
  eapply rtc_l; [apply (step_bytes true 100 200 100); lia|].
  eapply rtc_l; [apply (step_finish true 900)|]. apply rtc_refl.
Defined.

Lemma read_budget_range enabled now n s :
  inv s -> 0 < n < 2 ^ 64 ->
  let '(g, s') := read_budget enabled now n s in
  0 < g <= n /\
  (enabled = true -> s'.(rq).(registered) = true ->
   g <= lane_quantum s'.(rq) * DEFICIT_CAP_MULTIPLIER).
Proof.
  intros Hi Hn. unfold read_budget. destruct (Z.eqb_spec n 0); [lia|].
  pose proof (note_request_inv enabled now s Hi) as Hi1. set (s1 := note_request _ _ s) in *.
  clearbody s1. destruct (registered (rq s1)) eqn:Hr; cbn [negb]; [|split; [lia | by rewrite Hr]].
  pose proof (cleared_inv s1 (conj Hi1 Hr)) as Hl. set (s2 := s1<|rq := _|>) in *. clearbody s2.
  destruct enabled; cbn [negb]; [|split; [lia | done]].
  apply update_promotions_inv in Hl. set (s3 := update_promotions s2) in *. clearbody s3.
  destruct (recent_wait_event (rq s3)).
  - unfold wait_relief. rewrite UMIN_spec. pose proof (quantum_pos (rq s3)). cbn.
    unfold lane_quantum in *. cbn. consts. lia.
  - destruct (top_up_spec s3 Hl) as (Hl4 & _ & Hpos & _).
    pose proof (grant_credit_spec n (top_up s3) Hl4 Hpos) as Hg.
    destruct (grant_credit n (top_up s3)) as [g s4]. destruct Hg as (Hl5 & -> & Hd & Hlane); [lia|].
    split; [lia|]. intros _ _. destruct Hl5 as [[_ Hdef _ _] _]. unfold deficit_inv in Hdef. lia.
Qed.

(** Every read is granted something and no more than it asked for; with
    the scheduler on, a registered request is never granted more than four
    quanta of its lane (128 KiB in the bulk lane). *)
Theorem read_budget_bounds enabled now n s :
  inv s -> 0 < n < 2 ^ 64 ->
  let '(g, s') := read_budget enabled now n s in
  0 < g <= n /\
  (enabled = true -> s'.(rq).(registered) = true ->
   g <= lane_quantum s'.(rq) * DEFICIT_CAP_MULTIPLIER).
Proof. apply read_budget_range. Qed.

Lemma read_budget_bounds_witness :
  (read_budget true 7 1000000 (initial 5 false)).1 = 65536 /\
  let '(g, s') := read_budget true 7 1000000 (initial 5 false) in
  0 < g <= 1000000 /\
  (true = true -> s'.(rq).(registered) = true ->
   g <= lane_quantum s'.(rq) * DEFICIT_CAP_MULTIPLIER).
Proof.
  split; [reflexivity|]. apply (read_budget_bounds true 7 1000000 (initial 5 false)); [by split | lia].
Defined.

(** ** Fairness *)

(** A promotion only lowers the deficit and the quantum. *)
Definition lower (s s' : sched) : Prop :=
  s'.(rq).(deficit_bytes) <= s.(rq).(deficit_bytes) /\
  lane_quantum s'.(rq) <= lane_quantum s.(rq) /\
  s'.(rq).(recent_wait_event) = s.(rq).(recent_wait_event).

Lemma lower_trans a b c : lower a b -> lower b c -> lower a c.
Proof. unfold lower. intros (?&?&?) (?&?&?). split_and!; [lia | lia | congruence]. Qed.

Lemma promote_lower s : lower s (promote_to_bulk s).
Proof.
  unfold promote_to_bulk. destruct (is_bulk (lane_class (rq s))) eqn:E; [by split_and!|].
  unfold lower, lane_quantum. rewrite E. zcase; cbn in *; consts; split_and!; lia || done.
Qed.

Lemma update_promotions_lower s : lower s (update_promotions s).
Proof.
  assert (forall t, lower t (rule_bytes t)) as H1.
  { intros t. unfold rule_bytes, promote_rule. case_match; [|by split_and!]. 
    eapply lower_trans; [|apply promote_lower]. by split_and!. }
  assert (forall t, lower t (rule_rounds t)) as H2.
  { intros t. unfold rule_rounds, promote_rule. case_match; [|by split_and!]. 
    eapply lower_trans; [|apply promote_lower]. by split_and!. }
  assert (forall n t, lower t (rule_residency n t)) as H3.
  { intros n t. unfold rule_residency, promote_rule. case_match; [|by split_and!]. 
    eapply lower_trans; [|apply promote_lower]. by split_and!. }
  unfold update_promotions. destruct (negb _); [by split_and!|].
  eapply lower_trans; [apply H1|]. eapply lower_trans; [apply H2 | apply H3].
Qed.

Lemma note_request_live enabled now s : live_inv s -> note_request enabled now s = s.
Proof. intros [_ Hr]. unfold note_request. by rewrite Hr. Qed.

(** What one budgeted read leaves: the grant is covered by the deficit, or
    is at most one quantum. *)
Lemma read_budget_live now n s :
  live_inv s -> 0 < n ->
  let '(g, s') := read_budget true now n s in
  live_inv s' /\ lane_quantum (rq s') <= lane_quantum (rq s) /\
  Z.max g (deficit_bytes (rq s')) <= deficit_bytes (rq s) + lane_quantum (rq s).
Proof.
  intros Hl Hn. unfold read_budget. destruct (Z.eqb_spec n 0); [lia|].
  rewrite note_request_live by done. destruct Hl as [Hi Hr]. rewrite Hr. cbn [negb].
  pose proof (cleared_inv s (conj Hi Hr)) as Hl2.
  assert (lower s (s<|rq := (rq s)<|last_budget_capped := false|><|last_budget_bytes := 0|>|>)) as HA
    by by split_and!.
  set (s2 := s<|rq := _|>) in *. clearbody s2.
  pose proof (lower_trans _ _ _ HA (update_promotions_lower s2)) as (HA1 & HA2 & _).
  apply update_promotions_inv in Hl2. set (s3 := update_promotions s2) in *. clearbody s3.
  pose proof (quantum_pos (rq s3)). destruct (inv_deficit _ (proj1 Hl2)) as [Hd0 _].
  destruct (recent_wait_event (rq s3)).
  - pose proof (wait_relief_inv n s3 Hl2). unfold wait_relief in *. rewrite UMIN_spec in *.
    cbn [fst snd] in *. split_and!; [done | cbn; unfold lane_quantum in *; cbn; lia |]. cbn. lia.
  - destruct (top_up_spec s3 Hl2) as (Hl4 & Hq4 & Hpos & Hle).
    pose proof (grant_credit_spec n (top_up s3) Hl4 Hpos Hn) as Hg.
    destruct (grant_credit n (top_up s3)) as [g s4]. destruct Hg as (Hl5 & -> & Hd & Hlane).
    split_and!; [done | | lia]. unfold lane_quantum in *. rewrite Hlane. lia.
Qed.

Lemma note_bytes_live now0 now obs s :
  live_inv s -> 0 < obs ->
  live_inv (note_bytes true now0 now obs s) /\
  lane_quantum (rq (note_bytes true now0 now obs s)) <= lane_quantum (rq s) /\
  deficit_bytes (rq (note_bytes true now0 now obs s)) <= Z.max 0 (deficit_bytes (rq s) - obs).
Proof.
  intros Hl Hobs. unfold note_bytes. destruct (Z.eqb_spec obs 0); [lia|].
  rewrite note_request_live by done. pose proof Hl as [_ Hr]. rewrite Hr. cbn [negb].
  set (s1 := charge_bytes true obs (count_bytes obs now s)).
  assert (live_inv s1 /\ lane_quantum (rq s1) = lane_quantum (rq s) /\
          deficit_bytes (rq s1) <= Z.max 0 (deficit_bytes (rq s) - obs)) as (H1 & H2 & H3).
  { split; [apply charge_bytes_inv, count_bytes_inv; [lia | done]|].
    unfold s1, charge_bytes, count_bytes. destruct (is_full_budget_turn _ _);
      unfold lane_quantum; zcase; cbn in *; (split; [done | lia]). }
  pose proof (update_promotions_lower s1) as (HL1 & HL2 & _).
  apply update_promotions_inv in H1. set (s2 := update_promotions s1) in *. clearbody s2.
  pose proof (mark_complete_inv (bytes_observed (rq s)) s2 H1) as H4.
  assert (lower s2 (mark_complete (bytes_observed (rq s)) s2)) as (HM1 & HM2 & _)
    by (unfold mark_complete; destruct (_ && _); by split_and!).
  set (s3 := mark_complete _ s2) in *. clearbody s3.
  split_and!; [|cbn; unfold lane_quantum in *; cbn; lia | cbn; lia].
  destruct H4 as [Hi3 Hr3]. split; [|done].
  destruct (_ && negb (recent_wait_event (rq s3))); frame s3; apply Hi3.
Qed.

(** A sequence of service turns of one request: each asks for [n] bytes and
    reads [obs] of what it was granted. *)
Inductive served : sched -> Z -> nat -> sched -> Prop :=
| served_nil s : served s 0 0 s
| served_turn now now0 now1 n obs s total k s' :
    0 < n < 2 ^ 64 -> 0 < obs <= (read_budget true now n s).1 ->
    served (note_bytes true now0 now1 obs (read_budget true now n s).2) total k s' ->
    served s (obs + total) (S k) s'.

(** C17: deficit round robin fairness.  Whatever the request asks for and
    however its reads are cut, in [k] turns it is served at most [k] quanta
    of its lane on top of the credit it had: a heavy upload cannot take more
    than its share of the turns. *)
Theorem drr_fairness s total k s' :
  inv s -> s.(rq).(registered) = true -> served s total k s' ->
  total + s'.(rq).(deficit_bytes) <=
  s.(rq).(deficit_bytes) + Z.of_nat k * lane_quantum s.(rq).
Proof.
  intros Hi Hr Hs. assert (live_inv s) as Hl by done. clear Hi Hr.
  induction Hs as [s|now now0 now1 n obs s total k s' Hn Hobs _ IH]; [lia|].
  pose proof (read_budget_live now n s Hl) as Hb.
  destruct (read_budget true now n s) as [g s1]; cbn [fst snd] in *.
  destruct Hb as (Hl1 & Hq1 & Hg); [lia|].
  destruct (note_bytes_live now0 now1 obs s1 Hl1) as (Hl2 & Hq2 & Hd2); [lia|].
  specialize (IH Hl2). nia.
Qed.

Lemma drr_fairness_witness :
  exists s total s',
    s.(rq).(registered) = true /\ total = 65536 + 60000 /\
    total + s'.(rq).(deficit_bytes) <= s.(rq).(deficit_bytes) + Z.of_nat 2 * lane_quantum s.(rq).
Proof.
  set (s := note_request true 1 (initial 1000000 false)).
  eexists s, (65536 + (60000 + 0)), _. split; [reflexivity | split; [reflexivity|]].
  apply (drr_fairness s); [apply note_request_inv; by split | reflexivity |].
  eapply (served_turn 2 2 3 100000 65536); [lia | vm_compute; split; congruence |].
  eapply (served_turn 4 4 5 100000 60000); [lia | vm_compute; split; congruence |].
  apply served_nil.
Defined.

(** ** Residency percentiles *)

(** The reference: the limit of the first bucket at which the running count
    reaches the target. *)
Fixpoint quantile (buckets : list (Z * Z)) (seen target : Z) : Z :=
  match buckets with
  | [] => 0
  | (h, l) :: buckets => if target <=? seen + h then l else quantile buckets (seen + h) target
  end.

Definition hist_sum (hist : list Z) : Z := foldr Z.add 0 hist.

Lemma hist_sum_nonneg hist : Forall (fun h => 0 <= h) hist -> 0 <= hist_sum hist.
Proof. induction 1; cbn; [lia | unfold hist_sum in *; cbn in *; lia]. Qed.

Lemma hist_total_sum hist acc :
  0 <= acc -> Forall (fun h => 0 <= h) hist -> acc + hist_sum hist < 2 ^ 64 ->
  foldl (fun t h => u64 (t + h)) acc hist = acc + hist_sum hist.
Proof.
  intros Ha HF. revert acc Ha. induction HF as [|h hist Hh HF IH]; intros acc Ha; cbn; [lia|].
  intros Hb. pose proof (hist_sum_nonneg hist HF). unfold hist_sum in *.
  rewrite wrap_small by lia. rewrite IH by lia. lia.
Qed.

Lemma sample_loop_p95 buckets t50 t95 seen p50 :
  p50 <> 0 -> 0 <= seen -> Forall (fun b => 0 <= b.1) buckets ->
  seen + hist_sum buckets.*1 < 2 ^ 64 ->
  sample_loop buckets t50 t95 seen p50 0 = (p50, quantile buckets seen t95).
Proof.
  intros Hp Hs HF. revert seen Hs. induction HF as [|[h l] bs Hh HF IH]; intros seen Hs Hb; [done|].
  cbn in *. assert (0 <= hist_sum bs.*1)
    by (apply hist_sum_nonneg, Forall_fmap; exact HF). unfold hist_sum in *.
  rewrite wrap_small by lia. destruct (Z.eqb_spec p50 0); [done|]. cbn [andb].
  zcase; [done|]. apply IH; lia.
Qed.

Lemma sample_loop_spec buckets t50 t95 seen :
  t50 <= t95 -> 0 <= seen -> Forall (fun b => 0 <= b.1 /\ b.2 <> 0) buckets ->
  seen + hist_sum buckets.*1 < 2 ^ 64 ->
  sample_loop buckets t50 t95 seen 0 0 = (quantile buckets seen t50, quantile buckets seen t95).
Proof.
  intros Ht Hs HF. revert seen Hs.
  induction HF as [|[h l] bs [Hh Hl] HF IH]; intros seen Hs Hb; [done|].
  cbn in *. assert (Forall (fun b : Z * Z => 0 <= b.1) bs) as HF1 by (eapply Forall_impl; naive_solver).
  assert (0 <= hist_sum bs.*1) by (apply hist_sum_nonneg, Forall_fmap; exact HF1). unfold hist_sum in *.
  rewrite wrap_small by lia. cbn [Z.eqb andb].
  destruct (Z.leb_spec t50 (seen + h)), (Z.leb_spec t95 (seen + h)); try done; try lia.
  - rewrite sample_loop_p95 by (done || lia || (unfold hist_sum; lia)). done.
  - apply IH; lia.
Qed.

Lemma quantile_ge m buckets seen t :
  Forall (fun l => m <= l) buckets.*2 -> seen < t -> t <= seen + hist_sum buckets.*1 ->
  m <= quantile buckets seen t.
Proof.
  revert seen. induction buckets as [|[h l] bs IH]; intros seen HF H1 H2; cbn in *; [lia|].
  inversion HF; subst. unfold hist_sum in *. zcase; [done|]. apply IH; auto; lia.
Qed.

Lemma quantile_mono buckets seen t t' :
  seen < t -> t <= t' -> t' <= seen + hist_sum buckets.*1 ->
  StronglySorted Z.le buckets.*2 -> quantile buckets seen t <= quantile buckets seen t'.
Proof.
  intros Hlt Ht. revert seen Hlt.
  induction buckets as [|[h l] bs IH]; intros seen Hlt Hb Hsort; cbn in *; [lia|].
  inversion Hsort as [|? ? Hs Hf]; subst. unfold hist_sum in *.
  repeat zcase; try lia; [|apply IH; auto; lia].
  apply quantile_ge; [done | lia | unfold hist_sum; lia].
Qed.

(** The percentile samples are what their names say.  For a histogram
    of fewer than 2^57 residencies, the two samples are the limits of the
    buckets where the running count reaches one half and 95 percent of the
    total, rounded up, and the median sample is not above the other. *)
Theorem refresh_samples_spec c :
  length c.(residency_hist) = 16%nat -> Forall (fun h => 0 <= h) c.(residency_hist) ->
  0 < hist_sum c.(residency_hist) < 2 ^ 57 ->
  let total := hist_sum c.(residency_hist) in
  let buckets := zip c.(residency_hist) residency_bucket_limits_us in
  let c' := refresh_samples c in
  c'.(residency_us_p50_sample) = quantile buckets 0 ((total + 1) / 2) /\
  c'.(residency_us_p95_sample) = quantile buckets 0 ((total * 95 + 99) / 100) /\
  c'.(residency_us_p50_sample) <= c'.(residency_us_p95_sample).
Proof.
  intros Hlen HF Ht. cbv zeta. unfold refresh_samples, hist_total.
  rewrite hist_total_sum, Z.add_0_l by (done || lia).
  set (total := hist_sum (residency_hist c)) in *. set (bs := zip _ _).
  assert (bs.*1 = residency_hist c) as Hfst by (apply fst_zip; rewrite Hlen; done).
  assert (bs.*2 = residency_bucket_limits_us) as Hsnd by (apply snd_zip; rewrite Hlen; done).
  assert (Forall (fun b => 0 <= b.1 /\ b.2 <> 0) bs) as HFb.
  { apply Forall_and. split; [rewrite <- Hfst, Forall_fmap in HF; exact HF|].
    assert (Forall (fun l => l <> 0) bs.*2) as HFs by (rewrite Hsnd; by repeat constructor).
    rewrite Forall_fmap in HFs. exact HFs. }
  rewrite !wrap_small by (rewrite ?wrap_small; lia).
  assert (0 < (total + 1) / 2) by (apply Z.div_str_pos; lia).
  assert ((total + 1) / 2 <= (total * 95 + 99) / 100) by (Z.to_euclidean_division_equations; lia).
  assert ((total * 95 + 99) / 100 <= total) by (Z.to_euclidean_division_equations; lia).
  destruct (Z.eqb_spec total 0); [lia|]. destruct (Z.eqb_spec ((total * 95 + 99) / 100) 0); [lia|].
  rewrite sample_loop_spec by (rewrite ?Hfst; (done || lia)).
  cbn. split_and!; [done | done |].
  apply quantile_mono; [lia | lia | rewrite Hfst; fold total; lia |].
  rewrite Hsnd. unfold residency_bucket_limits_us. by repeat constructor.
Qed.

Definition sample_core : sched_core :=
  fresh_core<|residency_hist := [3; 4; 0; 0; 0; 1; 0; 0; 0; 0; 0; 0; 0; 0; 0; 1]|>.

Lemma refresh_samples_spec_witness :
  (refresh_samples sample_core).(residency_us_p50_sample) = 2000 /\
  let total := hist_sum sample_core.(residency_hist) in
  let buckets := zip sample_core.(residency_hist) residency_bucket_limits_us in
  let c' := refresh_samples sample_core in
  c'.(residency_us_p50_sample) = quantile buckets 0 ((total + 1) / 2) /\
  c'.(residency_us_p95_sample) = quantile buckets 0 ((total * 95 + 99) / 100) /\
  c'.(residency_us_p50_sample) <= c'.(residency_us_p95_sample).
Proof.
  split; [vm_compute; reflexivity|].
  apply (refresh_samples_spec sample_core);
    [reflexivity | repeat constructor; done | vm_compute; done].
Defined.
End BodySched.
