(* ===== verification/Packet.v ===== *)
(** The upsgi variable block: the sequence of length-prefixed keys and
    values that every protocol parser writes into [wsgi_req->buffer] and
    that core/protocol.c reads back.

    Writers: [proto_base_add_upsgi_var], [proto_base_add_upsgi_header]
    (proto/base.c); [upsgi_req_append] is in ReqBuf.  Readers:
    [upsgi_hooked_parse], [upsgi_hooked_parse_array] and [upsgi_parse_array]
    (core/protocol.c).  The state is the block of [upsgi.buffer_size] bytes
    and the number of bytes written ([wsgi_req->len]). *)
From S2P Require Import Prelude Clib Buffer.

Module Packet.

(** * Data *)

Record packet : Type := mk_packet {
  buffer : list Z;
  plen : Z;
}.
#[export] Instance expand_packet : Expand packet := fun p => mk_packet (buffer p) (plen p).

Abbreviation kv := (list Z * list Z)%type.

(** A block passed where the callee takes its length as [uint16_t]. *)
Definition arg16 (l : list Z) : list Z := ztake (u16 (zlen l)) l.

(** The little endian 16 bit read [memcpy(&strsize, ptrbuf, 2)]. *)
Definition read16 (rest : list Z) : outcome Z :=
  let* b0 := mread rest 0 in
  let* b1 := mread rest 1 in
  Ret (b0 + 256 * b1).

(** * Writers *)

(** The bytes of one variable. *)
Definition var_block (key val : list Z) : list Z :=
  le_bytes16 (zlen key) ++ key ++ le_bytes16 (zlen val) ++ val.

(** Returns the number of bytes written, which the caller adds to
    [wsgi_req->len], or 0 when the variable does not fit. *)
Definition proto_base_add_upsgi_var (buffer_size : Z) (key val : list Z) (p : packet)
    : outcome (Z * packet) :=
  let keylen := zlen key in
  let vallen := zlen val in
  if buffer_size <=? p.(plen) + keylen + vallen + 2 + 2 then Ret (0, p)
  else
    let* b := mwrite p.(buffer) p.(plen) (le_bytes16 keylen) in
    let* b := mwrite b (p.(plen) + 2) key in
    let* b := mwrite b (p.(plen) + 2 + keylen) (le_bytes16 vallen) in
    let* b := mwrite b (p.(plen) + 2 + keylen + 2) val in
    Ret (keylen + vallen + 2 + 2, p<|buffer := b|>).

(** [wsgi_req->len += proto_base_add_upsgi_var(wsgi_req, key, keylen, val, vallen)] *)
Definition add_var (buffer_size : Z) (key val : list Z) (p : packet) : outcome packet :=
  let* (n, p) := proto_base_add_upsgi_var buffer_size key (arg16 val) p in
  Ret (p<|plen := u64 (p.(plen) + n)|>).

(** The key is normalised in place to upper case and underscores. *)
Definition cgi_char (c : Z) : Z := if c =? 45 then 95 else toupper c.

Definition proto_base_add_upsgi_header (buffer_size : Z) (key val : list Z) (p : packet)
    : outcome (Z * packet) :=
  let key := cgi_char <$> key in
  if negb (bytes_eqb key (chars "CONTENT_TYPE")) && negb (bytes_eqb key (chars "CONTENT_LENGTH")) then
    let keylen := zlen key in
    if buffer_size <=? p.(plen) + keylen + zlen val + 2 + 2 + 5 then Ret (0, p)
    else
      let* b := mwrite p.(buffer) p.(plen) (le_bytes16 (keylen + 5)) in
      let* b := mwrite b (p.(plen) + 2) (chars "HTTP_") in
      let* b := mwrite b (p.(plen) + 7) key in
      let keylen := u16 (keylen + 5) in
      let* b := mwrite b (p.(plen) + 7 + zlen key) (le_bytes16 (zlen val)) in
      let* b := mwrite b (p.(plen) + 7 + zlen key + 2) val in
      Ret (keylen + zlen val + 2 + 2, p<|buffer := b|>)
  else proto_base_add_upsgi_var buffer_size key val p.

(** * Readers *)

Fixpoint hooked_parse_loop (fuel : nat) (rest : list Z) (calls : list kv) : outcome (Z * list kv) :=
  match fuel with
  | O => NoFuel
  | S fuel =>
      if 0 <? zlen rest then
        if zlen rest <=? 2 then Ret (-1, calls)
        else
          let* keysize := read16 rest in
          (* key cannot be null *)
          if keysize =? 0 then Ret (-1, calls)
          else
            let rest := zdrop 2 rest in
            if zlen rest <? keysize then Ret (-1, calls)
            else
              let key := ztake keysize rest in
              let rest := zdrop keysize rest in
              (* value can be null *)
              if zlen rest <? 2 then Ret (-1, calls)
              else
                let* valsize := read16 rest in
                let rest := zdrop 2 rest in
                if zlen rest <? valsize then Ret (-1, calls)
                else
                  (* now call the hook *)
                  hooked_parse_loop fuel (zdrop valsize rest) (calls ++ [(key, ztake valsize rest)])
      else Ret (0, calls)
  end.

(** The result and the calls made to the hook, in order. *)
Definition upsgi_hooked_parse (buf : list Z) : outcome (Z * list kv) :=
  hooked_parse_loop (S (length buf)) buf [].

Fixpoint hooked_parse_array_loop (fuel : nat) (rest : list Z) (pos : Z) (calls : list (Z * list Z))
    : outcome (Z * list (Z * list Z)) :=
  match fuel with
  | O => NoFuel
  | S fuel =>
      if 0 <? zlen rest then
        if zlen rest <? 2 then Ret (-1, calls)
        else
          let* valsize := read16 rest in
          let rest := zdrop 2 rest in
          if zlen rest <? valsize then Ret (-1, calls)
          else
            hooked_parse_array_loop fuel (zdrop valsize rest) (u16 (pos + 1))
              (calls ++ [(pos, ztake valsize rest)])
      else Ret (0, calls)
  end.

Definition upsgi_hooked_parse_array (buf : list Z) : outcome (Z * list (Z * list Z)) :=
  hooked_parse_array_loop (S (length buf)) buf 0 [].

(** [upsgi_parse_array]: at most [max] items, empty items are skipped.  The
    strings it returns are moved back one byte over their length field and
    terminated; their bytes are the items. *)
Fixpoint parse_array_loop (fuel : nat) (max : Z) (rest : list Z) (argv : list (list Z))
    : outcome (Z * list (list Z)) :=
  match fuel with
  | O => NoFuel
  | S fuel =>
      if (0 <? zlen rest) && (zlen argv <? max) then
        if 2 <? zlen rest then
          let* strsize := read16 rest in
          let rest := zdrop 2 rest in
          (* item cannot be null *)
          if strsize =? 0 then parse_array_loop fuel max rest argv
          else if strsize <=? zlen rest then
            parse_array_loop fuel max (zdrop strsize rest) (argv ++ [ztake strsize rest])
          else Ret (-1, argv)
        else Ret (-1, argv)
      else Ret (0, argv)
  end.

Definition upsgi_parse_array (buf : list Z) (max : Z) : outcome (Z * list (list Z)) :=
  parse_array_loop (S (length buf)) max buf [].

(** * Well-formed blocks *)

Definition key_ok (k : list Z) : Prop := 0 < zlen k < 2 ^ 16.
Definition val_ok (v : list Z) : Prop := zlen v < 2 ^ 16.

(** The encoding of a list of variables. *)
Definition encode (kvs : list kv) : list Z := kvs ≫= (fun '(k, v) => var_block k v).

Definition kvs_ok (kvs : list kv) : Prop := Forall (fun '(k, v) => key_ok k /\ val_ok v) kvs.

(** The state of the packet under construction: the bytes written so far
    are the encoding of [kvs]. *)
Record packet_ok (buffer_size : Z) (kvs : list kv) (p : packet) : Prop := {
  pk_block : zlen p.(buffer) = buffer_size;
  pk_len : 0 <= p.(plen) <= buffer_size;
  pk_size : buffer_size < 2 ^ 63;
  pk_kvs : kvs_ok kvs;
  pk_bytes : ztake p.(plen) p.(buffer) = encode kvs;
}.

Lemma octet_id num k : 0 <= num -> 0 <= k -> octet num k = (num / 2 ^ k) mod 256.
Proof.
  intros. unfold octet. rewrite Z.shiftr_div_pow2 by lia.
  change 255 with (Z.ones 8). rewrite Z.land_ones by lia. unfold wrap. by rewrite Z.mod_mod.
Qed.

Lemma read16_le_bytes n rest : 0 <= n < 2 ^ 16 -> read16 (le_bytes16 n ++ rest) = Ret n.
Proof.
  intros H. unfold read16, le_bytes16, mread. cbn. rewrite !octet_id by lia.
  change (2 ^ 0) with 1. change (2 ^ 8) with 256. change (2 ^ 16) with 65536 in H.
  rewrite Z.div_1_r, (Z.mod_small (n / 256)) by (split; [apply Z.div_pos | apply Z.div_lt_upper_bound]; lia).
  change (Z.to_nat 0) with 0%nat. change (Z.to_nat 1) with 1%nat. cbn -[Z.add Z.mul].
  f_equal. pose proof (Z.div_mod n 256). lia.
Qed.

Lemma zlen_le_bytes16 n : zlen (le_bytes16 n) = 2.
Proof. reflexivity. Qed.

Lemma zlen_var_block k v : zlen (var_block k v) = zlen k + zlen v + 4.
Proof. unfold var_block. rewrite !zlen_app, !zlen_le_bytes16. lia. Qed.

#[export] Hint Rewrite zlen_le_bytes16 zlen_var_block : zlen.

Lemma encode_app a b : encode (a ++ b) = encode a ++ encode b.
Proof. apply bind_app. Qed.

Lemma encode_cons k v kvs : encode ((k, v) :: kvs) = var_block k v ++ encode kvs.
Proof. reflexivity. Qed.

Lemma encode_snoc kvs k v : encode (kvs ++ [(k, v)]) = encode kvs ++ var_block k v.
Proof. rewrite encode_app. unfold encode at 2. cbn. by rewrite app_nil_r. Qed.

(** Four consecutive stores write their concatenation. *)
Lemma mwrite_app m off a b :
  0 <= off -> off + zlen a + zlen b <= zlen m ->
  (let* m1 := mwrite m off a in mwrite m1 (off + zlen a) b) = mwrite m off (a ++ b).
Proof.
  intros H1 H2. zlen_facts. rewrite mwrite_ok by lia. cbn [obind].
  assert (zlen (ztake off m) = off) as Ht by (apply zlen_take; lia).
  rewrite mwrite_ok; [|lia|rewrite !zlen_app, zlen_drop by lia; lia].
  rewrite mwrite_ok; [|lia|rewrite zlen_app; lia].
  f_equal. rewrite (app_assoc (ztake off m) a).
  rewrite ztake_app_length by (rewrite zlen_app; lia).
  rewrite <- !app_assoc. do 3 f_equal.
  rewrite (app_assoc (ztake off m) a), zdrop_app_ge by (rewrite zlen_app; lia).
  rewrite zlen_app, Ht, zdrop_zdrop by lia. rewrite zlen_app. f_equal. lia.
Qed.

Lemma write_block m off k v :
  0 <= off -> off + zlen (var_block k v) <= zlen m ->
  (let* b := mwrite m off (le_bytes16 (zlen k)) in
   let* b := mwrite b (off + 2) k in
   let* b := mwrite b (off + 2 + zlen k) (le_bytes16 (zlen v)) in
   mwrite b (off + 2 + zlen k + 2) v) = mwrite m off (var_block k v).
Proof.
  rewrite zlen_var_block. intros H1 H2. zlen_facts. unfold var_block.
  rewrite <- (mwrite_app m off (le_bytes16 (zlen k))) by (rewrite ?zlen_app, ?zlen_le_bytes16; lia).
  rewrite zlen_le_bytes16.
  destruct (mwrite m off (le_bytes16 (zlen k))) as [m1| | |] eqn:E1; try done. cbn [obind].
  apply mwrite_len in E1.
  rewrite <- (mwrite_app m1 (off + 2) k) by (rewrite ?zlen_app, ?zlen_le_bytes16; lia).
  destruct (mwrite m1 (off + 2) k) as [m2| | |] eqn:E2; try done. cbn [obind].
  apply mwrite_len in E2.
  rewrite <- (mwrite_app m2 (off + 2 + zlen k) (le_bytes16 (zlen v))) by (rewrite ?zlen_le_bytes16; lia).
  done.
Qed.

Lemma arg16_id l : zlen l < 2 ^ 16 -> arg16 l = l.
Proof. intros. unfold arg16. apply ztake_all. rewrite wrap_small; zlia. Qed.

Lemma zlen_arg16 l : zlen (arg16 l) < 2 ^ 16.
Proof.
  unfold arg16. pose proof (wrap_range 16 (zlen l)). pose proof (zlen_nonneg l).
  assert (u16 (zlen l) <= zlen l) by (apply Z.mod_le; lia).
  rewrite zlen_take; lia.
Qed.

(** A block of a variable stored behind the others. *)
Lemma store_var_ok bs kvs p k v :
  packet_ok bs kvs p -> key_ok k -> val_ok v -> p.(plen) + zlen k + zlen v + 4 <= bs ->
  exists b, mwrite p.(buffer) p.(plen) (var_block k v) = Ret b /\ ztake p.(plen) b = ztake p.(plen) p.(buffer) /\
    packet_ok bs (kvs ++ [(k, v)]) (mk_packet b (p.(plen) + (zlen k + zlen v + 4))).
Proof.
  intros [Hb Hl Hs Hkvs Hbytes] Hk Hv Hfit. unfold key_ok, val_ok in *. zlen_facts.
  rewrite mwrite_ok by (rewrite ?zlen_var_block; lia). eexists. split; [done|].
  assert (zlen (ztake (plen p) (buffer p)) = plen p) by (apply zlen_take; lia).
  split; [by apply ztake_app_length|]. split; cbn -[var_block]; try lia.
  - rewrite !zlen_app, zlen_drop, zlen_var_block by (rewrite ?zlen_var_block; lia). lia.
  - apply Forall_app. split; [done|]. by constructor; [split|].
  - rewrite encode_snoc, <- Hbytes, app_assoc. apply ztake_app_length.
    rewrite zlen_app, zlen_var_block. lia.
Qed.

(** A variable that fits is appended to the block, one that does not leaves
    it as it was. *)
Lemma add_upsgi_var_spec bs kvs p k v :
  packet_ok bs kvs p -> key_ok k -> val_ok v ->
  (p.(plen) + zlen k + zlen v + 4 < bs /\ exists p',
     proto_base_add_upsgi_var bs k v p = Ret (zlen k + zlen v + 4, p') /\
     packet_ok bs (kvs ++ [(k, v)]) (p'<|plen := p.(plen) + (zlen k + zlen v + 4)|>) /\
     p'.(plen) = p.(plen)) \/
  (bs <= p.(plen) + zlen k + zlen v + 4 /\ proto_base_add_upsgi_var bs k v p = Ret (0, p)).
Proof.
  intros Hp Hk Hv. pose proof Hp as [Hb Hl _ _ _]. unfold proto_base_add_upsgi_var.
  destruct (Z.leb_spec bs (plen p + zlen k + zlen v + 2 + 2)); [right; split; [lia | done]|].
  left. split; [lia|].
  destruct (store_var_ok bs kvs p k v Hp Hk Hv ltac:(lia)) as (b & Hw & _ & Hok).
  rewrite <- write_block in Hw by (rewrite ?zlen_var_block; lia).
  repeat (apply obind_Ret_inv in Hw as (? & ? & Hw);
          match goal with H : mwrite _ _ _ = Ret _ |- _ => rewrite H; clear H end; cbn [obind]).
  rewrite Hw. cbn [obind]. eexists. split; [f_equal; f_equal; lia|]. by split; [exact Hok|].
Qed.

Lemma add_var_spec bs kvs p k v :
  packet_ok bs kvs p -> key_ok k ->
  exists p', add_var bs k v p = Ret p' /\
    (packet_ok bs (kvs ++ [(k, arg16 v)]) p' \/ (p' = p /\ bs <= p.(plen) + zlen k + zlen (arg16 v) + 4)).
Proof.
  intros Hp Hk. pose proof (zlen_arg16 v) as Hv. unfold add_var.
  destruct (add_upsgi_var_spec bs kvs p k (arg16 v) Hp Hk Hv) as [(Hfit & p' & -> & Hok & Hpl)|[Hno ->]];
    cbn [obind].
  - rewrite Hpl. pose proof Hp as [? ? ? ? ?]. unfold key_ok in Hk. zlen_facts.
    rewrite wrap_small by lia. eexists. split; [done | by left].
  - pose proof Hp as [? ? ? ? ?]. eexists. split; [done|]. right.
    rewrite Z.add_0_r, wrap_small by lia.
    split; [by destruct p | done].
Qed.

(** ** Reading back *)

Lemma hooked_parse_loop_encode kvs fuel calls :
  kvs_ok kvs -> (length (encode kvs) < fuel)%nat ->
  hooked_parse_loop fuel (encode kvs) calls = Ret (0, calls ++ kvs).
Proof.
  intros HF. revert fuel calls.
  induction HF as [|[k v] kvs [Hk Hv] HF IH]; intros fuel calls Hfuel; (destruct fuel as [|fuel]; [lia|]).
  - cbn. by rewrite app_nil_r.
  - assert (encode ((k, v) :: kvs) = le_bytes16 (zlen k) ++ k ++ le_bytes16 (zlen v) ++ v ++ encode kvs) as E
      by (rewrite encode_cons; unfold var_block; by rewrite <- !app_assoc).
    rewrite E in Hfuel |- *. clear E. unfold key_ok, val_ok in *.
    cbn [hooked_parse_loop]. pose proof (zlen_nonneg v). pose proof (zlen_nonneg (encode kvs)).
    rewrite !zlen_app, !zlen_le_bytes16. 
    rewrite (proj2 (Z.ltb_lt 0 _)), (proj2 (Z.leb_gt _ 2)) by lia.
    rewrite read16_le_bytes by lia. cbn [obind]. rewrite (proj2 (Z.eqb_neq (zlen k) 0)) by lia.
    rewrite (zdrop_app_length 2) by done. rewrite !zlen_app, !zlen_le_bytes16. zcase; [lia|].
    rewrite (zdrop_app_length (zlen k)), (ztake_app_length (zlen k)) by done.
    rewrite !zlen_app, !zlen_le_bytes16. zcase; [lia|].
    rewrite read16_le_bytes by lia. cbn [obind]. rewrite (zdrop_app_length 2) by done.
    rewrite !zlen_app. zcase; [lia|].
    rewrite (zdrop_app_length (zlen v)), (ztake_app_length (zlen v)) by done.
    rewrite IH; [by rewrite <- app_assoc|]. rewrite !length_app in Hfuel. cbn in Hfuel. lia.
Qed.

Lemma hooked_parse_read_back bs kvs p :
  packet_ok bs kvs p -> upsgi_hooked_parse (ztake p.(plen) p.(buffer)) = Ret (0, kvs).
Proof.
  intros [? ? ? Hk ->]. unfold upsgi_hooked_parse. rewrite hooked_parse_loop_encode; [done | done | lia].
Qed.



Lemma read16_total l : bytes_ok l -> 2 <= zlen l -> exists n, read16 l = Ret n /\ 0 <= n < 2 ^ 16.
Proof.
  intros Hb Hl. unfold read16. destruct (mread_in l 0) as (a & -> & Ha); [lia|].
  destruct (mread_in l 1) as (c & -> & Hc); [lia|]. cbn [obind].
  rewrite Forall_lookup in Hb. apply Hb in Ha, Hc. unfold byte_ok in *.
  eexists. split; [done|]. lia.
Qed.

Lemma bytes_ok_zdrop n l : bytes_ok l -> bytes_ok (zdrop n l).
Proof. apply Forall_drop. Qed.
Lemma bytes_ok_ztake n l : bytes_ok l -> bytes_ok (ztake n l).
Proof. apply Forall_take. Qed.
#[local] Hint Resolve bytes_ok_zdrop bytes_ok_ztake : core.

Lemma hooked_parse_loop_inv fuel rest calls :
  bytes_ok rest -> (length rest < fuel)%nat ->
  exists r kvs (tail : list Z), hooked_parse_loop fuel rest calls = Ret (r, calls ++ kvs) /\
    kvs_ok kvs /\ zlen (encode kvs) + zlen tail = zlen rest /\
    ((r = 0 /\ tail = []) \/ (r = -1 /\ tail <> [])).
Proof.
  revert rest calls. induction fuel as [|fuel IH]; intros rest calls Hbok Hfuel; [lia|].
  cbn [hooked_parse_loop]. 
  assert (rest <> [] -> exists r kvs (tail : list Z), Ret (-1, calls) = Ret (r, calls ++ kvs) /\
    kvs_ok kvs /\ zlen (encode kvs) + zlen tail = zlen rest /\
    ((r = 0 /\ tail = []) \/ (r = -1 /\ tail <> []))) as Hstop.
  { intros Hne. exists (-1), [], rest. rewrite app_nil_r. split_and!; [done | constructor | done | by right]. }
  destruct (Z.ltb_spec 0 (zlen rest)) as [Hpos|]; cycle 1.
  { exists 0, [], []. rewrite app_nil_r. split_and!; [done | constructor | change (0 + 0 = zlen rest); pose proof (zlen_nonneg rest); lia | by left]. }
  assert (rest <> []) as Hne by (intros Hn; rewrite Hn in Hpos; vm_compute in Hpos; done). specialize (Hstop Hne).
  destruct (Z.leb_spec (zlen rest) 2); [done|].
  destruct (read16_total rest Hbok) as (ks & -> & Hks); [lia|]. cbn [obind].
  destruct (Z.eqb_spec ks 0); [done|]. destruct (Z.ltb_spec (zlen (zdrop 2 rest)) ks); [done|].
  assert (zlen (zdrop 2 rest) = zlen rest - 2) as E1 by (apply zlen_drop; lia).
  destruct (Z.ltb_spec (zlen (zdrop ks (zdrop 2 rest))) 2); [done|].
  assert (zlen (zdrop ks (zdrop 2 rest)) = zlen rest - 2 - ks) as E2 by (rewrite zlen_drop; lia).
  destruct (read16_total (zdrop ks (zdrop 2 rest))) as (vs & -> & Hvs); [auto | lia |]. cbn [obind].
  destruct (Z.ltb_spec (zlen (zdrop 2 (zdrop ks (zdrop 2 rest)))) vs); [done|].
  assert (zlen (zdrop 2 (zdrop ks (zdrop 2 rest))) = zlen rest - 4 - ks) as E3 by (rewrite zlen_drop; lia).
  set (t := zdrop vs (zdrop 2 (zdrop ks (zdrop 2 rest)))).
  assert (zlen t = zlen rest - 4 - ks - vs) as E4 by (unfold t; rewrite zlen_drop; lia).
  destruct (IH t (calls ++ [(ztake ks (zdrop 2 rest), ztake vs (zdrop 2 (zdrop ks (zdrop 2 rest))))]))
    as (r & kvs & tail & -> & Hok & Hlen & Hr);
    [unfold t; auto | unfold zlen in *; lia |].
  eexists r, ((ztake ks (zdrop 2 rest), ztake vs (zdrop 2 (zdrop ks (zdrop 2 rest)))) :: kvs), tail.
  split_and!; [by rewrite <- app_assoc | | | done].
  - constructor; [|done]. unfold key_ok, val_ok. rewrite !zlen_take by lia. lia.
  - rewrite encode_cons, zlen_app, zlen_var_block, !zlen_take by lia. lia.
Qed.

(** [upsgi_hooked_parse] terminates on every input and never reads
    outside it.  It accepts (returns 0) exactly when the calls it made to the
    hook account for every byte of the buffer; the keys it passes are not
    empty. *)
Theorem hooked_parse_total buf :
  bytes_ok buf ->
  exists r kvs, upsgi_hooked_parse buf = Ret (r, kvs) /\ kvs_ok kvs /\ (r = 0 \/ r = -1) /\
    (r = 0 <-> zlen (encode kvs) = zlen buf).
Proof.
  intros Hb. destruct (hooked_parse_loop_inv (S (length buf)) buf [] Hb) as (r & kvs & tail & E & Hok & Hl & Hr);
    [lia|].
  exists r, kvs. split; [exact E|]. split; [done|]. split; [naive_solver|].
  destruct Hr as [[-> ->]|[-> Ht]]; [rewrite zlen_nil in Hl; lia|]. split; [done|]. intros Hz. exfalso. apply Ht.
  apply zlen_zero_inv. lia.
Qed.

Lemma hooked_parse_total_witness :
  upsgi_hooked_parse [3; 0; 97; 98; 99; 0] = Ret (-1, []) /\
  exists r kvs, upsgi_hooked_parse [3; 0; 97; 98; 99; 0] = Ret (r, kvs) /\ kvs_ok kvs /\ (r = 0 \/ r = -1) /\
    (r = 0 <-> zlen (encode kvs) = zlen [3; 0; 97; 98; 99; 0]).
Proof.
  split; [reflexivity|]. apply (hooked_parse_total). unfold byte_ok. repeat constructor; lia.
Defined.

End Packet.
