(* ===== verification/ReqBuf.v ===== *)
(** Variables added to a request after it was parsed (core/protocol.c):
    [upsgi_req_append] and [upsgi_req_append_path_info_with_index] write
    behind the packet of variables, where the unread part of the body may
    still be. *)
From S2P Require Import Prelude Clib Buffer Packet.
Import Packet.

Module ReqBuf.

(** * Data *)

(** [proto_parser_remains_buf] points into [wsgi_req->buffer] or into
    [proto_parser_buf]. *)
Inductive remains_ptr : Type := InBuffer (off : Z) | InParser (off : Z).

(** The fields of [wsgi_request]: [block] is [buffer] with [len]; a vector of
    [hvec] is an offset in [buffer] and a length; [path_info] is an offset in
    [buffer]. *)
Record reqbuf : Type := mk_reqbuf {
  block : packet;
  hvec : list (Z * Z);
  var_cnt : Z;
  path_info : Z;
  path_info_len : Z;
  proto_parser_buf : option (list Z);
  proto_parser_remains : Z;
  proto_parser_remains_buf : remains_ptr;
}.
#[export] Instance expand_reqbuf : Expand reqbuf := fun r =>
  mk_reqbuf (block r) (hvec r) (var_cnt r) (path_info r) (path_info_len r) (proto_parser_buf r)
    (proto_parser_remains r) (proto_parser_remains_buf r).

(** * Operations *)

Section ops.
Context (buffer_size vec_size : Z).

(** The bytes that wait for the body readers. *)
Definition remains_bytes (r : reqbuf) : outcome (list Z) :=
  match r.(proto_parser_remains_buf) with
  | InBuffer off => mslice r.(block).(buffer) off r.(proto_parser_remains)
  | InParser off => mslice (default [] r.(proto_parser_buf)) off r.(proto_parser_remains)
  end.

(** The first block of both functions: the waiting bytes get a buffer of
    their own. *)
Definition save_remains (r : reqbuf) : outcome reqbuf :=
  match r.(proto_parser_buf) with
  | None =>
      if 0 <? r.(proto_parser_remains) then
        let* b := remains_bytes r in
        Ret (r<|proto_parser_buf := Some b|><|proto_parser_remains_buf := InParser 0|>)
      else Ret r
  | Some _ => Ret r
  end.

(** [hvec[var_cnt] = v; var_cnt++]. *)
Definition push_vec (v : Z * Z) (r : reqbuf) : outcome reqbuf :=
  if (0 <=? r.(var_cnt)) && (r.(var_cnt) <? zlen r.(hvec)) then
    Ret (r<|hvec := <[Z.to_nat r.(var_cnt) := v]> r.(hvec)|><|var_cnt := u16 (r.(var_cnt) + 1)|>)
  else Fault.

(** [*ptr++ = ...; memcpy(ptr, src, n)] at [ptr]. *)
Definition store (ptr : Z) (src : list Z) (r : reqbuf) : outcome reqbuf :=
  let* b := mwrite r.(block).(buffer) ptr src in Ret (r<|block := r.(block)<|buffer := b|>|>).

(** The offset of the value, [None] when there is no room. *)
Definition upsgi_req_append (key val : list Z) (r : reqbuf) : outcome (option Z * reqbuf) :=
  let keylen := zlen key in
  let vallen := zlen val in
  let* r := save_remains r in
  if buffer_size <? r.(block).(plen) + (2 + keylen + 2 + vallen) then Ret (None, r)
  else if vec_size - (4 + 2) <=? r.(var_cnt) then Ret (None, r)
  else
    let ptr := r.(block).(plen) in
    let* r := store ptr (le_bytes16 keylen) r in
    let ptr := ptr + 2 in
    let* r := store ptr key r in
    let* r := push_vec (ptr, keylen) r in
    let ptr := ptr + keylen in
    let* r := store ptr (le_bytes16 vallen) r in
    let ptr := ptr + 2 in
    let* r := store ptr val r in
    let* r := push_vec (ptr, vallen) r in
    Ret (Some ptr, r<|block := r.(block)<|plen := u64 (r.(block).(plen) + (2 + keylen + 2 + vallen))|>|>).

Definition upsgi_req_append_path_info_with_index (index : list Z) (r : reqbuf) : outcome (Z * reqbuf) :=
  let index_len := zlen index in
  let* r := save_remains r in
  let* need_slash :=
    if 0 <? r.(path_info_len) then
      let* c := mread r.(block).(buffer) (r.(path_info) + r.(path_info_len) - 1) in
      Ret (if c =? 47 then 0 else 1)
    else Ret 0 in
  let r := r<|path_info_len := u16 (r.(path_info_len) + (need_slash + index_len))|> in
  (* 2 + 9 + 2 *)
  if buffer_size <? r.(block).(plen) + (13 + r.(path_info_len)) then Ret (-1, r)
  else if vec_size - (4 + 2) <=? r.(var_cnt) then Ret (-1, r)
  else
    let keylen := 9 in
    let ptr := r.(block).(plen) in
    let* r := store ptr (le_bytes16 keylen) r in
    let ptr := ptr + 2 in
    let* r := store ptr (chars "PATH_INFO") r in
    let* r := push_vec (ptr, keylen) r in
    let ptr := ptr + keylen in
    let* r := store ptr (le_bytes16 r.(path_info_len)) r in
    let ptr := ptr + 2 in
    let new_path_info := ptr in
    let* old := mslice r.(block).(buffer) r.(path_info) (r.(path_info_len) - (need_slash + index_len)) in
    let* r := store ptr old r in
    let ptr := ptr + (r.(path_info_len) - (need_slash + index_len)) in
    let* r := if need_slash =? 1 then store ptr [47] r else Ret r in
    let ptr := ptr + need_slash in
    let* r := store ptr index r in
    let* r := push_vec (new_path_info, r.(path_info_len)) r in
    let r := r<|block := r.(block)<|plen := u64 (r.(block).(plen) + (13 + r.(path_info_len)))|>|> in
    Ret (0, r<|path_info := new_path_info|>).

End ops.

(** * Consecutive stores *)

Fixpoint mwrites (m : list Z) (off : Z) (srcs : list (list Z)) : outcome (list Z) :=
  match srcs with [] => Ret m | s :: srcs => let* m := mwrite m off s in mwrites m (off + zlen s) srcs end.

Lemma mwrites_concat m off srcs :
  0 <= off -> off + zlen (concat srcs) <= zlen m -> mwrites m off srcs = mwrite m off (concat srcs).
Proof.
  revert m off. induction srcs as [|s srcs IH]; intros m off H1 H2; cbn [concat mwrites] in *.
  - rewrite mwrite_ok by done. rewrite zlen_nil, Z.add_0_r. cbn [app]. by rewrite ztake_zdrop.
  - rewrite zlen_app in H2. rewrite <- mwrite_app by lia. zlen_facts.
    destruct (mwrite m off s) as [m1| | |] eqn:E; cbn [obind]; [|done ..].
    apply IH; [lia|]. apply mwrite_len in E. lia.
Qed.

Lemma mwrite_before m off src m' n : mwrite m off src = Ret m' -> n <= off -> ztake n m' = ztake n m.
Proof.
  unfold mwrite. destruct ((0 <=? off) && (off + zlen src <=? zlen m)) eqn:E; [|done]. intros [= <-] Hn.
  apply andb_true_iff in E as [E1%Z.leb_le E2%Z.leb_le]. zlen_facts.
  rewrite ztake_app_le by (rewrite zlen_take; lia). unfold ztake. rewrite take_take. f_equal. lia.
Qed.

Lemma slice_before (m m' : list Z) off len n :
  ztake n m' = ztake n m -> 0 <= off -> 0 <= len -> off + len <= n -> ztake len (zdrop off m') = ztake len (zdrop off m).
Proof.
  intros H ? ? ?. assert (forall k : list Z, ztake len (zdrop off k) = ztake len (zdrop off (ztake n k))) as Hk.
  { intros k. unfold ztake, zdrop. rewrite skipn_firstn_comm, take_take. f_equal. lia. }
  by rewrite Hk, H, <- Hk.
Qed.

(** * The state of a parsed request *)

(** The block holds [kvs], the vectors that are in use read back as [vals],
    and the bytes that wait for the body readers are readable. *)
Record req_ok (bs vs : Z) (kvs : list kv) (vals : list (list Z)) (r : reqbuf) : Prop := {
  rq_block : packet_ok bs kvs r.(block);
  rq_vec : zlen r.(hvec) = vs /\ vs < 2 ^ 16;
  rq_cnt : r.(var_cnt) = zlen vals;
  rq_vals : forall i v, vals !! i = Some v -> exists off, r.(hvec) !! i = Some (off, zlen v) /\
    0 <= off /\ off + zlen v <= r.(block).(plen) /\ ztake (zlen v) (zdrop off r.(block).(buffer)) = v;
  rq_remains : 0 <= r.(proto_parser_remains) /\ returns (remains_bytes r);
  rq_ptr : match r.(proto_parser_remains_buf) with InBuffer _ => r.(proto_parser_buf) = None | InParser _ => True end;
}.

(** The function has its own copy of the waiting bytes, or there are none. *)
Definition saved (r : reqbuf) : Prop :=
  r.(proto_parser_remains) = 0 \/ match r.(proto_parser_remains_buf) with InBuffer _ => False | InParser _ => True end.

Lemma save_remains_spec bs vs kvs vals r :
  req_ok bs vs kvs vals r ->
  exists r', save_remains r = Ret r' /\ req_ok bs vs kvs vals r' /\ saved r' /\ remains_bytes r' = remains_bytes r /\
    r' = r<|proto_parser_buf := r'.(proto_parser_buf)|><|proto_parser_remains_buf := r'.(proto_parser_remains_buf)|>.
Proof.
  intros [H1 H2 H3 H4 [H5 [b Hb]] H6]. unfold save_remains, saved. destruct (proto_parser_buf r) as [pb|] eqn:Epb.
  { exists r. split_and!; try done.
    - split; try done. split; [done | by exists b]. by rewrite Epb.
    - right. by destruct (proto_parser_remains_buf r).
    - by destruct r. }
  destruct (Z.ltb_spec 0 (proto_parser_remains r)) as [Hp|Hp].
  - rewrite Hb. cbn [obind]. eexists. split; [done|].
    assert (mslice b 0 (proto_parser_remains r) = Ret b) as Hs.
    { assert (zlen b = proto_parser_remains r) as <-.
      { unfold remains_bytes in Hb. destruct (proto_parser_remains_buf r); unfold mslice in Hb; case_match; try done; injection Hb as <-;
        match goal with E : _ = true |- _ => rewrite !andb_true_iff, !Z.leb_le in E end; zlen_facts; (rewrite zlen_take; [done | rewrite zlen_drop by lia; lia]). }
      rewrite mslice_ok by (zlen_facts; lia). by rewrite zdrop_0, ztake_all by lia. }
    split; [split; try done; split; [done | exists b; exact Hs]|]. split; [by right|]. split; [exact Hs | done].
  - exists r. split; [done|]. split; [split; try done; [split; [done | by exists b] | by rewrite Epb]|].
    split; [left; lia|]. split; [done | by destruct r].
Qed.

(** What both functions do to the state once they know that there is room:
    a block is stored behind the others and two vectors describe it. *)
Definition appended (key val : list Z) (b : list Z) (r : reqbuf) : reqbuf :=
  r<|block := mk_packet b (r.(block).(plen) + (zlen key + zlen val + 4))|>
   <|hvec := <[Z.to_nat (r.(var_cnt) + 1) := (r.(block).(plen) + 2 + zlen key + 2, zlen val)]>
              (<[Z.to_nat r.(var_cnt) := (r.(block).(plen) + 2, zlen key)]> r.(hvec))|>
   <|var_cnt := r.(var_cnt) + 2|>.

Lemma var_block_slices k v rest :
  ztake (zlen k) (zdrop 2 (var_block k v ++ rest)) = k /\ ztake (zlen v) (zdrop (2 + zlen k + 2) (var_block k v ++ rest)) = v.
Proof.
  unfold var_block. rewrite <- !app_assoc. zlen_facts. split.
  - rewrite zdrop_app_ge, zlen_le_bytes16, Z.sub_diag, zdrop_0 by (rewrite zlen_le_bytes16; lia). by apply ztake_app_length.
  - rewrite zdrop_app_ge, zlen_le_bytes16 by (rewrite zlen_le_bytes16; lia).
    rewrite zdrop_app_ge by lia. replace (2 + zlen k + 2 - 2 - zlen k) with 2 by lia.
    rewrite zdrop_app_ge, zlen_le_bytes16, Z.sub_diag, zdrop_0 by (rewrite zlen_le_bytes16; lia). by apply ztake_app_length.
Qed.

Lemma appended_ok bs vs kvs vals key val b r :
  req_ok bs vs kvs vals r -> saved r -> key_ok key -> val_ok val -> r.(block).(plen) + zlen key + zlen val + 4 <= bs ->
  r.(var_cnt) + 2 <= vs -> mwrite r.(block).(buffer) r.(block).(plen) (var_block key val) = Ret b ->
  req_ok bs vs (kvs ++ [(key, val)]) (vals ++ [key; val]) (appended key val b r) /\
  remains_bytes (appended key val b r) = remains_bytes r /\
  ztake (zlen val) (zdrop (r.(block).(plen) + 2 + zlen key + 2) b) = val.
Proof.
  intros [H1 [H2 H2'] H3 H4 [H5 H5'] H6] Hs Hk Hv Hfit Hcnt Hw.
  destruct (store_var_ok bs kvs (block r) key val H1 Hk Hv Hfit) as (b' & Hw' & Hpre & Hok).
  rewrite Hw in Hw'. injection Hw' as <-. pose proof H1 as [Hb Hl _ _ _]. zlen_facts.
  assert (remains_bytes (appended key val b r) = remains_bytes r) as Hrem.
  { unfold remains_bytes, appended. cbn. pose proof (mwrite_len _ _ _ _ Hw) as Hlen.
    destruct (proto_parser_remains_buf r) eqn:E; [|done]. destruct Hs as [Hs|Hs]; [|by rewrite E in Hs].
    rewrite Hs. unfold mslice. by rewrite Hlen. }
  assert (b = ztake (plen (block r)) (buffer (block r)) ++ var_block key val ++ zdrop (plen (block r) + zlen (var_block key val)) (buffer (block r))) as Eb.
  { rewrite mwrite_ok in Hw by (rewrite ?zlen_var_block; lia). by injection Hw as <-. }
  assert (forall n, 0 <= n -> zdrop (plen (block r) + n) b = zdrop n (var_block key val ++ zdrop (plen (block r) + zlen (var_block key val)) (buffer (block r)))) as Hd.
  { intros n Hn. rewrite Eb, zdrop_app_ge by (rewrite zlen_take; lia). f_equal. rewrite zlen_take; lia. }
  destruct (var_block_slices key val (zdrop (plen (block r) + zlen (var_block key val)) (buffer (block r)))) as [Sk Sv].
  rewrite <- Hd in Sk by lia. rewrite <- Hd in Sv by lia.
  assert (ztake (zlen val) (zdrop (plen (block r) + 2 + zlen key + 2) b) = val) as Sv'.
  { rewrite <- Sv at 2. do 2 f_equal. lia. }
  split; [|by split]. split; cbn; try done; try lia.
  - unfold zlen. by rewrite !length_insert.
  - rewrite H3, zlen_app. reflexivity.
  - intros i v Hi. replace (Z.to_nat (var_cnt r + 1)) with (S (length vals)) by (unfold zlen in *; lia).
    replace (Z.to_nat (var_cnt r)) with (length vals) by (unfold zlen in *; lia).
    assert (S (length vals) < length (hvec r))%nat as Hin by (unfold zlen in *; lia).
    apply lookup_app_Some in Hi as [Hi|[Hge Hi]].
    + pose proof (lookup_lt_Some _ _ _ Hi). rewrite !list_lookup_insert_ne by lia.
      destruct (H4 i v Hi) as (off & ? & ? & ? & Hs'). exists off. split_and!; [done .. | lia |].
      rewrite (slice_before (buffer (block r)) b off (zlen v) (plen (block r))); first [done | lia | apply zlen_nonneg].
    + destruct (i - length vals)%nat as [|[|]] eqn:Ei; cbn in Hi; [injection Hi as <- | injection Hi as <- | done].
      * replace i with (length vals) by lia. exists (plen (block r) + 2). rewrite list_lookup_insert_ne, list_lookup_insert_eq by lia.
        split_and!; [done | lia | lia | done].
      * replace i with (S (length vals)) by lia. exists (plen (block r) + 2 + zlen key + 2). rewrite list_lookup_insert_eq by (rewrite length_insert; lia).
        split_and!; [done | lia | lia | done].
  - split; [done|]. rewrite Hrem. done.
Qed.

Lemma store_ret ptr src r b :
  mwrite r.(block).(buffer) ptr src = Ret b -> store ptr src r = Ret (r<|block := r.(block)<|buffer := b|>|>).
Proof. unfold store. by intros ->. Qed.

Lemma zlen_insert {A} i (x : A) l : zlen (<[i:=x]> l) = zlen l.
Proof. unfold zlen. by rewrite length_insert. Qed.

Lemma push_vec_ret v r :
  0 <= r.(var_cnt) < zlen r.(hvec) -> zlen r.(hvec) < 2 ^ 16 ->
  push_vec v r = Ret (r<|hvec := <[Z.to_nat r.(var_cnt) := v]> r.(hvec)|><|var_cnt := r.(var_cnt) + 1|>).
Proof.
  intros H1 H2. unfold push_vec. destruct (Z.leb_spec 0 (var_cnt r)), (Z.ltb_spec (var_cnt r) (zlen (hvec r))); cbn [andb]; try lia.
  by rewrite wrap_small by lia.
Qed.

(** A variable added to a request is the last one of its packet and of
    its vectors, and the address that is returned is that of its value; the
    bytes of the body that wait behind the packet are saved first, so they are
    the same afterwards.  Without room for it nothing is added. *)
Theorem req_append_spec bs vs kvs vals key val r :
  req_ok bs vs kvs vals r -> key_ok key -> val_ok val ->
  exists o r', upsgi_req_append bs vs key val r = Ret (o, r') /\ remains_bytes r' = remains_bytes r /\
    match o with
    | Some ptr => req_ok bs vs (kvs ++ [(key, val)]) (vals ++ [key; val]) r' /\ mslice r'.(block).(buffer) ptr (zlen val) = Ret val
    | None => req_ok bs vs kvs vals r' /\ (bs < r.(block).(plen) + (zlen key + zlen val + 4) \/ vs - 6 <= r.(var_cnt))
    end.
Proof.
  intros Hr Hk Hv. unfold upsgi_req_append.
  destruct (save_remains_spec bs vs kvs vals r Hr) as (r0 & -> & Hr0 & Hs0 & Hrem & E0). cbn [obind].
  assert (plen (block r0) = plen (block r) /\ var_cnt r0 = var_cnt r) as [Epl Ecnt] by (by rewrite E0).
  zcase. { exists None, r0. rewrite <- Epl. split_and!; [done .. | left; lia]. }
  zcase. { exists None, r0. rewrite <- Ecnt. split_and!; [done .. | right; lia]. }
  pose proof Hr0 as [H1 [H2 H2'] H3 _ _ _]. pose proof H1 as [Hb Hl Hsz _ _]. unfold key_ok, val_ok in *. zlen_facts.
  destruct (store_var_ok bs kvs (block r0) key val H1 Hk Hv ltac:(lia)) as (b & Hw & _ & _).
  destruct (appended_ok bs vs kvs vals key val b r0 Hr0 Hs0 Hk Hv ltac:(lia) ltac:(lia) Hw) as (Hok & Hrem' & Hval).
  rewrite <- write_block in Hw by (rewrite ?zlen_var_block; lia).
  apply obind_Ret_inv in Hw as (b1 & W1 & Hw). apply obind_Ret_inv in Hw as (b2 & W2 & Hw). apply obind_Ret_inv in Hw as (b3 & W3 & Hw).
  rewrite (store_ret _ _ _ _ W1). cbn [obind]. rewrite (store_ret _ _ _ b2) by exact W2. cbn [obind].
  rewrite push_vec_ret by (cbn; lia). cbn [obind]. rewrite (store_ret _ _ _ b3) by exact W3. cbn [obind].
  rewrite (store_ret _ _ _ b) by exact Hw. cbn [obind].
  rewrite push_vec_ret by (cbn [setter hvec var_cnt]; unfold setter; cbn [hvec var_cnt]; rewrite ?zlen_insert; lia). cbn [obind].
  exists (Some (plen (block r0) + 2 + zlen key + 2)), (appended key val b r0). split.
  { unfold appended. destruct r0 as [[bb pl] hv cnt ? ? ? ? ?]. cbn in *. rewrite wrap_small by lia.
    replace (cnt + 1 + 1) with (cnt + 2) by lia. by replace (2 + zlen key + 2 + zlen val) with (zlen key + zlen val + 4) by lia. }
  split; [by rewrite Hrem'|]. split; [done|]. cbn. rewrite mslice_ok; [by rewrite Hval | lia | lia |].
  apply mwrite_len in W1, W2, W3, Hw. lia.
Qed.

(** The path of the index file of a directory. *)
Definition with_index (path index : list Z) : list Z :=
  path ++ (if bool_decide (last path = None \/ last path = Some 47) then [] else [47]) ++ index.

Lemma last_read (m : list Z) off n :
  0 <= off -> 0 < n -> off + n <= zlen m -> exists c, mread m (off + n - 1) = Ret c /\ last (ztake n (zdrop off m)) = Some c.
Proof.
  intros ? ? ?. destruct (mread_in m (off + n - 1) ltac:(lia)) as (c & -> & Hc). exists c. split; [done|].
  rewrite last_lookup. assert (zlen (ztake n (zdrop off m)) = n) as Hz by (rewrite zlen_take; [done | rewrite zlen_drop; lia]).
  unfold zlen in Hz. replace (length _) with (Z.to_nat n) by lia.
  unfold ztake, zdrop. rewrite lookup_take_lt, lookup_drop by lia. rewrite <- Hc. f_equal. lia.
Qed.

Lemma mwrite_nil m off : 0 <= off <= zlen m -> mwrite m off [] = Ret m.
Proof. intros ?. rewrite mwrite_ok by (rewrite ?zlen_nil; lia). rewrite zlen_nil, Z.add_0_r. cbn [app]. by rewrite ztake_zdrop. Qed.

Lemma need_slash_spec r :
  0 <= r.(path_info) -> 0 <= r.(path_info_len) -> r.(path_info) + r.(path_info_len) <= zlen r.(block).(buffer) ->
  let path := ztake r.(path_info_len) (zdrop r.(path_info) r.(block).(buffer)) in
  exists slash, (if 0 <? r.(path_info_len) then
      let* c := mread r.(block).(buffer) (r.(path_info) + r.(path_info_len) - 1) in Ret (if c =? 47 then 0 else 1)
    else Ret 0) = Ret (zlen slash) /\ (slash = [] \/ slash = [47]) /\ forall index, with_index path index = path ++ slash ++ index.
Proof.
  intros ? ? ? path. unfold with_index. zcase.
  - destruct (last_read (buffer (block r)) (path_info r) (path_info_len r)) as (c & -> & Hl); [lia .. |]. fold path in Hl. cbn [obind]. rewrite Hl.
    destruct (Z.eqb_spec c 47) as [->|Hc]; [exists [] | exists [47]]; (split; [done|]); (split; [by auto|]); intros index.
    + by rewrite bool_decide_eq_true_2 by by right.
    + rewrite bool_decide_eq_false_2; [done|]. by intros [?|[= ?]].
  - exists []. split; [done|]. split; [by left|]. intros index.
    replace path with (@nil Z); [done|]. unfold path. by replace (path_info_len r) with 0 by lia.
Qed.

Definition PATH_INFO : list Z := chars "PATH_INFO".

(** A request whose path is served by the index file of a directory gets
    the path with the index as its last PATH_INFO variable, which is also the
    path of the request from then on, and the bytes of the body that wait are
    kept.  Without room no variable is added; the length of the path is
    changed nevertheless. *)
Theorem append_index_spec bs vs kvs vals index r :
  let path := ztake r.(path_info_len) (zdrop r.(path_info) r.(block).(buffer)) in
  req_ok bs vs kvs vals r -> 0 <= r.(path_info) -> 0 <= r.(path_info_len) -> r.(path_info) + r.(path_info_len) <= r.(block).(plen) ->
  zlen (with_index path index) < 2 ^ 16 ->
  exists ret r', upsgi_req_append_path_info_with_index bs vs index r = Ret (ret, r') /\
    remains_bytes r' = remains_bytes r /\ r'.(path_info_len) = zlen (with_index path index) /\
    (ret = 0 /\ req_ok bs vs (kvs ++ [(PATH_INFO, with_index path index)]) (vals ++ [PATH_INFO; with_index path index]) r' /\
       mslice r'.(block).(buffer) r'.(path_info) r'.(path_info_len) = Ret (with_index path index) \/
     ret = -1 /\ req_ok bs vs kvs vals r' /\ r'.(path_info) = r.(path_info) /\
       (bs < r.(block).(plen) + (zlen (with_index path index) + 13) \/ vs - 6 <= r.(var_cnt))).
Proof.
  intros path Hr Hp0 Hp1 Hp2 Hz. unfold upsgi_req_append_path_info_with_index.
  destruct (save_remains_spec bs vs kvs vals r Hr) as (r0 & -> & Hr0 & Hs0 & Hrem & E0). cbn [obind].
  assert (block r0 = block r /\ var_cnt r0 = var_cnt r /\ path_info r0 = path_info r /\ path_info_len r0 = path_info_len r) as (Eb & Ecnt & Ep & El) by (by rewrite E0).
  rewrite <- Hrem, <- Ecnt. unfold path in *. rewrite <- Eb, <- Ep, <- El in *. clear E0 Eb Ecnt Ep El Hrem Hr path r. rename r0 into r.
  pose proof Hr0 as [H1 [H2 H2'] H3 _ _ _]. pose proof H1 as [Hb Hl Hsz _ _].
  destruct (need_slash_spec r) as (slash & -> & Hslash & Hwi); [lia .. |]. cbn [obind].
  set (path := ztake (path_info_len r) (zdrop (path_info r) (buffer (block r)))) in *.
  assert (zlen path = path_info_len r) as Hpl by (unfold path; rewrite zlen_take; [done | rewrite zlen_drop; lia]).
  set (v := with_index path index) in *. assert (v = path ++ slash ++ index) as Ev by apply Hwi.
  assert (zlen v = path_info_len r + (zlen slash + zlen index)) as Hv by (rewrite Ev, !zlen_app; lia). zlen_facts.
  rewrite wrap_small by lia. rewrite <- Hv.
  set (r1 := r<|path_info_len := zlen v|>).
  assert (req_ok bs vs kvs vals r1) as Hr1 by (by destruct Hr0; split).
  change (path_info_len r1) with (zlen v). change (plen (block r1)) with (plen (block r)). change (var_cnt r1) with (var_cnt r).
  zcase. { exists (-1), r1. split_and!; [done .. | right]. split_and!; [done .. | left; lia]. }
  zcase. { exists (-1), r1. split_and!; [done .. | right]. split_and!; [done .. | right; lia]. }
  assert (key_ok PATH_INFO) as Hk by (vm_compute; split; reflexivity).
  change 13 with (zlen PATH_INFO + 4) in *.
  destruct (store_var_ok bs kvs (block r1) PATH_INFO v H1 Hk Hz ltac:(cbn -[zlen PATH_INFO]; lia)) as (b & Hw & _ & _).
  destruct (appended_ok bs vs kvs vals PATH_INFO v b r1 Hr1 Hs0 Hk Hz ltac:(cbn -[zlen PATH_INFO]; lia) ltac:(cbn; lia) Hw) as (Hok & Hrem' & Hval).
  assert (zlen (buffer (block r)) = zlen b) as Hlb by (symmetry; by apply (mwrite_len _ _ _ _ Hw)).
  exists 0, ((appended PATH_INFO v b r1)<|path_info := plen (block r) + 2 + 9 + 2|>). split; cycle 1.
  { split; [exact Hrem'|]. split; [done|]. left. split; [done|]. split; [by destruct Hok; split|].
    change (mslice b (plen (block r) + 2 + zlen PATH_INFO + 2) (zlen v) = Ret v).
    rewrite mslice_ok by (change (zlen PATH_INFO) with 9 in *; lia). f_equal. exact Hval. }
  assert (mwrites (buffer (block r)) (plen (block r)) [le_bytes16 (zlen PATH_INFO); PATH_INFO; le_bytes16 (zlen v); path; slash; index] = Ret b) as W.
  { assert (concat [le_bytes16 (zlen PATH_INFO); PATH_INFO; le_bytes16 (zlen v); path; slash; index] = var_block PATH_INFO v) as Hc
      by (cbn [concat]; by rewrite app_nil_r, <- Ev).
    rewrite mwrites_concat; [rewrite Hc; exact Hw | lia | rewrite Hc, zlen_var_block; lia]. }
  change (block r1) with (block r) in Hw.
  cbn [mwrites] in W. rewrite !zlen_le_bytes16 in W. change (zlen PATH_INFO) with 9 in W.
  apply obind_Ret_inv in W as (b1 & W1 & W). apply obind_Ret_inv in W as (b2 & W2 & W). apply obind_Ret_inv in W as (b3 & W3 & W).
  apply obind_Ret_inv in W as (b4 & W4 & W). apply obind_Ret_inv in W as (b5 & W5 & W). apply obind_Ret_inv in W as (b6 & W6 & [= ->]).
  assert (ztake (plen (block r)) b3 = ztake (plen (block r)) (buffer (block r))) as Hpre.
  { rewrite (mwrite_before _ _ _ _ (plen (block r)) W3), (mwrite_before _ _ _ _ (plen (block r)) W2), (mwrite_before _ _ _ _ (plen (block r)) W1); done || lia. }
  pose proof (mwrite_len _ _ _ _ W1) as L1. pose proof (mwrite_len _ _ _ _ W2) as L2. pose proof (mwrite_len _ _ _ _ W3) as L3.
  rewrite (store_ret _ _ _ b1) by exact W1. cbn [obind]. rewrite (store_ret _ _ _ b2) by exact W2. cbn [obind].
  rewrite push_vec_ret by (unfold r1; cbn; lia). cbn [obind]. rewrite (store_ret _ _ _ b3) by exact W3. cbn [obind].
  change (mslice _ _ _) with (mslice b3 (path_info r) (zlen v - (zlen slash + zlen index))).
  replace (zlen v - (zlen slash + zlen index)) with (path_info_len r) by lia. rewrite mslice_ok by lia.
  rewrite (slice_before (buffer (block r)) b3 _ _ (plen (block r)) Hpre) by lia. fold path. cbn [obind].
  rewrite (store_ret _ _ _ b4) by exact W4. cbn [obind]. rewrite Hpl in W5, W6.
  assert (0 <= plen (block r) + 2 + 9 + 2 + path_info_len r <= zlen b4) as Hin.
  { rewrite (mwrite_len _ _ _ _ W4). change (zlen PATH_INFO) with 9 in *. lia. }
  set (at4 := plen (block r) + 2 + 9 + 2 + (zlen v - (zlen slash + zlen index))).
  assert (at4 = plen (block r) + 2 + 9 + 2 + path_info_len r) as Hat by (unfold at4; lia). rewrite <- Hat in *.
  match goal with |- context [if zlen slash =? 1 then store ?p [47] ?s else _] =>
    change p with at4; assert ((if zlen slash =? 1 then store at4 [47] s else Ret s) = Ret (s<|block := s.(block)<|buffer := b5|>|>)) as ->
  end.
  { destruct Hslash as [-> | ->].
    - rewrite mwrite_nil in W5 by lia. injection W5 as <-. reflexivity.
    - change (zlen [47] =? 1) with true. cbn iota. apply store_ret. exact W5. }
  cbn [obind]. match goal with |- context [store ?p index _] => change p with (at4 + zlen slash) end.
  rewrite (store_ret _ _ _ b) by exact W6. cbn [obind].
  rewrite push_vec_ret by (cbn [setter hvec var_cnt]; unfold setter; cbn [hvec var_cnt]; rewrite ?zlen_insert; unfold r1; cbn; lia).
  cbn [obind]. f_equal. unfold appended, r1. clear - H1 Hv H9 Hl Hsz H4. destruct r as [[bb pl] hv cnt pi pil pb rem remb].
  cbn -[zlen PATH_INFO Z.add] in *. change (zlen PATH_INFO) with 9 in *. rewrite wrap_small by lia.
  replace (cnt + 1 + 1) with (cnt + 2) by lia. by replace (9 + 4 + zlen v) with (9 + zlen v + 4) by lia.
Qed.

(** * A concrete request

    One variable and, behind it, three bytes of the body. *)

Definition small_block : list Z := var_block PATH_INFO (chars "/a").
Definition small_req (bs : Z) : reqbuf :=
  mk_reqbuf (mk_packet (small_block ++ chars "xyz" ++ zrep (bs - 18) 0) 15)
    ((2, 9) :: (13, 2) :: zrep 12 (0, 0)) 2 13 2 None 3 (InBuffer 15).

Lemma small_req_ok bs : bs = 18 \/ bs = 64 -> req_ok bs 14 [(PATH_INFO, chars "/a")] [PATH_INFO; chars "/a"] (small_req bs).
Proof.
  intros [-> | ->]; (split; [split; try by vm_compute | by vm_compute | by vm_compute | | split; [done | eexists; by vm_compute] | done]);
    [by repeat constructor | | by repeat constructor |];
    (intros [|[|]] v Hi; cbn in Hi; [injection Hi as <-; exists 2; by vm_compute | injection Hi as <-; exists 13; by vm_compute | done]).
Qed.

Lemma req_append_spec_witness :
  exists r', upsgi_req_append 64 14 (chars "K") (chars "v") (small_req 64) = Ret (Some 20, r') /\
    req_ok 64 14 [(PATH_INFO, chars "/a"); (chars "K", chars "v")] [PATH_INFO; chars "/a"; chars "K"; chars "v"] r' /\
    remains_bytes r' = Ret (chars "xyz").
Proof.
  destruct (req_append_spec 64 14 _ _ (chars "K") (chars "v") (small_req 64) (small_req_ok 64 ltac:(by right)) ltac:(by vm_compute) ltac:(by vm_compute))
    as (o & r' & E & Hrem & Ho).
  assert (o = Some 20) as -> by (vm_compute in E; by injection E). destruct Ho as [Hok _].
  exists r'. split; [exact E|]. split; [exact Hok|]. rewrite Hrem. vm_compute. reflexivity.
Defined.

Lemma append_index_spec_witness :
  exists r', upsgi_req_append_path_info_with_index 64 14 (chars "i") (small_req 64) = Ret (0, r') /\
    mslice r'.(block).(buffer) r'.(path_info) r'.(path_info_len) = Ret (chars "/a/i").
Proof.
  destruct (append_index_spec 64 14 _ _ (chars "i") (small_req 64) (small_req_ok 64 ltac:(by right)) ltac:(by vm_compute) ltac:(by vm_compute)
    ltac:(by vm_compute) ltac:(by vm_compute)) as (ret & r' & E & _ & _ & [(-> & _ & Hs)|(-> & _)]).
  - exists r'. split; [exact E|]. rewrite Hs. vm_compute. reflexivity.
  - exfalso. vm_compute in E. discriminate.
Defined.

(** Without room for the variable the path keeps its bytes and gets the
    length of the longer one: the request reads two bytes of the body as part
    of its path. *)
Theorem path_info_len_left :
  exists r', upsgi_req_append_path_info_with_index 18 14 (chars "i") (small_req 18) = Ret (-1, r') /\
    mslice r'.(block).(buffer) r'.(path_info) r'.(path_info_len) = Ret (chars "/axy").
Proof. eexists. split; vm_compute; reflexivity. Qed.

End ReqBuf.
