(* ===== verification/Lookup.v ===== *)
(** Lookup of a cookie (core/cookie.c) and of a query string parameter
    (core/querystring.c).  A string is the memory from its pointer on with a
    length of 16 bits; the result is the offset and the length of the value. *)
From S2P Require Import Prelude Clib Strings.

Module Lookup.

(** * Query strings *)

(** [memchr(mem + off, c, n)], which stops at the byte it looks for. *)
Definition memchr_at (mem : list Z) (off n c : Z) : outcome (option Z) :=
  match memchr (ztake n (zdrop off mem)) c with
  | Some i => Ret (Some i)
  | None => if off + n <=? zlen mem then Ret None else Fault
  end.

(** [qs] is an offset in [mem]. *)
Definition check_qs (mem : list Z) (qs qs_len : Z) (key : list Z) : outcome (option (Z * Z)) :=
  (* search for the equal sign *)
  let* r := memchr_at mem qs qs_len 61 in
  match r with
  | None => Ret None
  | Some equal =>
      if negb (upsgi_strncmp key (ztake equal (zdrop qs mem))) then Ret None
      else
        let qs_len := u16 (qs_len - (equal + 1)) in
        if qs_len =? 0 then Ret None else Ret (Some (qs + equal + 1, qs_len))
  end.

(** The loop over the string: [i] counts up, [start] is [None] after a
    separator. *)
Fixpoint split_loop (check : Z -> Z -> outcome (option (Z * Z))) (sep : Z) (rest : list Z) (i : Z) (start : option Z) (len : Z)
    : outcome (option (Z * Z)) :=
  match rest with
  | [] => if 0 <? len then check (default 0 start) len else Ret None
  | c :: rest =>
      let start := match start with Some s => s | None => i end in
      if c =? sep then
        let* value := check start len in
        match value with
        | Some v => Ret (Some v)
        | None => split_loop check sep rest (i + 1) None 0
        end
      else split_loop check sep rest (i + 1) (Some start) (u16 (len + 1))
  end.

Definition upsgi_get_qs (mem : list Z) (query_string_len : Z) (key : list Z) : outcome (option (Z * Z)) :=
  let* qs := mslice mem 0 query_string_len in
  split_loop (fun start len => check_qs mem start len key) 38 qs 0 (Some 0) 0.

(** * Cookies *)

(** The first loop: the number of leading white space bytes. *)
Fixpoint lstrip_loop (n : nat) (mem : list Z) (ptr i : Z) (cookie cookie_len : Z) : outcome (Z * Z) :=
  match n with
  | O => NoFuel
  | S n =>
      (* the bound is read again in every turn *)
      if i <? cookie_len then
        let* c := mread mem (ptr + i) in
        if isspace c then lstrip_loop n mem ptr (i + 1) (cookie + 1) (u16 (cookie_len - 1)) else Ret (cookie, cookie_len)
      else Ret (cookie, cookie_len)
  end.

(** The second loop, from the last byte down to the second. *)
Fixpoint rstrip_loop (n : nat) (mem : list Z) (ptr i : Z) (cookie_len : Z) : outcome Z :=
  match n with
  | O => NoFuel
  | S n =>
      if 0 <? i then
        let* c := mread mem (ptr + i) in
        if isspace c then rstrip_loop n mem ptr (i - 1) (u16 (cookie_len - 1)) else Ret cookie_len
      else Ret cookie_len
  end.

Definition check_cookie (mem : list Z) (cookie cookie_len : Z) (key : list Z) : outcome (option (Z * Z)) :=
  let orig_cookie_len := u16 (cookie_len - 1) in
  let ptr := cookie in
  (* first lstrip white spaces *)
  let* (cookie, cookie_len) := lstrip_loop (S (Z.to_nat cookie_len)) mem ptr 0 cookie cookie_len in
  (* then rstrip (skipping the first char...) *)
  let* cookie_len := rstrip_loop (S (Z.to_nat orig_cookie_len)) mem ptr orig_cookie_len cookie_len in
  (* now search for the first equal sign *)
  check_qs mem cookie cookie_len key.

Definition upsgi_get_cookie (mem : list Z) (cookie_len : Z) (key : list Z) : outcome (option (Z * Z)) :=
  let* cookie := mslice mem 0 cookie_len in
  split_loop (fun start len => check_cookie mem start len key) 59 cookie 0 (Some 0) 0.

(** * The reference *)

(** The parts of a string between the separators. *)
Fixpoint pieces (sep : Z) (l : list Z) : list (list Z) :=
  match l with
  | [] => [[]]
  | c :: l => if c =? sep then [] :: pieces sep l
              else match pieces sep l with p :: ps => (c :: p) :: ps | [] => [[c]] end
  end.

(** [key=value] with a value that is not empty. *)
Definition piece_value (key p : list Z) : option (list Z) :=
  match memchr p 61 with
  | None => None
  | Some e => if bytes_eqb key (ztake e p) && (0 <? zlen (zdrop (e + 1) p)) then Some (zdrop (e + 1) p) else None
  end.

Fixpoint first_value (f : list Z -> option (list Z)) (ps : list (list Z)) : option (list Z) :=
  match ps with [] => None | p :: ps => match f p with Some v => Some v | None => first_value f ps end end.

Definition qs_lookup (key s : list Z) : option (list Z) := first_value (piece_value key) (pieces 38 s).

Definition strip (p : list Z) : list Z := rev (skip_space (rev (skip_space p))).

Definition cookie_lookup (key s : list Z) : option (list Z) := first_value (fun p => piece_value key (strip p)) (pieces 59 s).

(** What a lookup returns, as the bytes it describes. *)
Definition agrees (mem : list Z) (r : option (Z * Z)) (v : option (list Z)) : Prop :=
  match r, v with
  | Some (off, len), Some v => mslice mem off len = Ret v
  | None, None => True
  | _, _ => False
  end.

(** [p] is in [mem] at [off]. *)
Definition at_off (mem : list Z) (off : Z) (p : list Z) : Prop :=
  0 <= off /\ off + zlen p <= zlen mem /\ ztake (zlen p) (zdrop off mem) = p.

Lemma at_off_app pre p rest : at_off (pre ++ p ++ rest) (zlen pre) p.
Proof.
  unfold at_off. rewrite !zlen_app, zdrop_app_length, ztake_app_length by done. zlen_facts. split_and!; [lia | lia | done].
Qed.

Lemma at_off_sub mem off p a b q : at_off mem off p -> p = a ++ q ++ b -> at_off mem (off + zlen a) q.
Proof.
  intros (H1 & H2 & H3) ->. rewrite !zlen_app in *. zlen_facts. split_and!; [lia | lia |].
  assert (zdrop off mem = (a ++ q ++ b) ++ zdrop (zlen a + (zlen q + zlen b)) (zdrop off mem)) as E by (rewrite <- H3 at 1; by rewrite ztake_zdrop).
  rewrite <- (zdrop_zdrop (zlen a) off) by lia. rewrite E, <- !app_assoc.
  by rewrite zdrop_app_length, ztake_app_length.
Qed.

Lemma at_off_read mem off p i c : at_off mem off p -> p !! i = Some c -> mread mem (off + Z.of_nat i) = Ret c.
Proof.
  intros (H1 & H2 & H3) Hi. apply mread_lookup; [lia|]. rewrite <- H3 in Hi. unfold ztake, zdrop in Hi.
  apply lookup_take_Some in Hi as [Hi _]. rewrite lookup_drop in Hi. rewrite <- Hi. f_equal. lia.
Qed.

Lemma at_off_mid mem off p a c b : at_off mem off p -> p = a ++ c :: b -> mread mem (off + zlen a) = Ret c.
Proof. intros H E. apply (at_off_read mem off p); [done|]. rewrite E. by apply list_lookup_middle. Qed.

Lemma at_off_slice mem off p : at_off mem off p -> mslice mem off (zlen p) = Ret p.
Proof. intros (H1 & H2 & H3). rewrite mslice_ok by (zlen_facts; lia). by rewrite H3. Qed.

Lemma memchr_split l c i : memchr l c = Some i -> exists a b, l = a ++ c :: b /\ i = zlen a.
Proof.
  intros (Hi & Hl & _)%memchr_Some. exists (ztake i l), (zdrop (i + 1) l). split; [|rewrite zlen_take; lia].
  unfold ztake, zdrop. replace (Z.to_nat (i + 1)) with (S (Z.to_nat i)) by lia. symmetry. by apply take_drop_middle.
Qed.

Lemma check_qs_spec mem off p key :
  at_off mem off p -> zlen p < 2 ^ 16 ->
  exists r, check_qs mem off (zlen p) key = Ret r /\ agrees mem r (piece_value key p).
Proof.
  intros Hp Hz. pose proof Hp as (H1 & H2 & H3). unfold check_qs, memchr_at, piece_value. rewrite H3.
  destruct (memchr p 61) as [e|] eqn:E; cbn [obind].
  - apply memchr_split in E as (a & b & -> & ->). rewrite !zlen_app, zlen_cons in *. zlen_facts.
    pose proof (at_off_sub mem off _ [] (61 :: b) a Hp eq_refl) as (_ & _ & Ha). rewrite zlen_nil, Z.add_0_r in Ha.
    pose proof (at_off_sub mem off _ (a ++ [61]) [] b Hp ltac:(by rewrite app_nil_r, <- app_assoc)) as Hb. rewrite zlen_app in Hb.
    rewrite Ha, upsgi_strncmp_spec, ztake_app_length by done.
    replace (zdrop (zlen a + 1) (a ++ 61 :: b)) with b.
    2: { change (a ++ 61 :: b) with (a ++ [61] ++ b). rewrite app_assoc. symmetry. apply zdrop_app_length. by rewrite zlen_app. }
    replace (u16 (zlen a + (1 + zlen b) - (zlen a + 1))) with (zlen b) by (rewrite wrap_small by lia; lia).
    destruct (bytes_eqb key a); cbn [negb andb]; [|by exists None].
    destruct (Z.eqb_spec (zlen b) 0), (Z.ltb_spec 0 (zlen b)); try lia; [by exists None|].
    eexists. split; [done|]. cbn [agrees]. replace (off + zlen a + 1) with (off + (zlen a + 1)) by lia. by apply at_off_slice.
  - destruct (Z.leb_spec (off + zlen p) (zlen mem)); [|lia]. by exists None.
Qed.

(** * The loop over the parts *)

(** Every part but the last, which is not looked at when it is empty. *)
Fixpoint all_good (good : list Z -> Prop) (ps : list (list Z)) : Prop :=
  match ps with [] => True | [p] => p = [] \/ good p | p :: ps => good p /\ all_good good ps end.

Section split.
Context (mem : list Z) (check : Z -> Z -> outcome (option (Z * Z))) (sep : Z) (f : list Z -> option (list Z)) (good : list Z -> Prop).
Hypothesis check_ok : forall off p, at_off mem off p -> zlen p < 2 ^ 16 -> good p ->
  exists r, check off (zlen p) = Ret r /\ agrees mem r (f p).
Hypothesis f_nil : f [] = None.

Lemma pieces_cons_sep l : pieces sep (sep :: l) = [] :: pieces sep l.
Proof. cbn. by rewrite Z.eqb_refl. Qed.

Lemma pieces_nonempty l : pieces sep l <> [].
Proof. destruct l as [|c l]; cbn; [done|]. by repeat case_match. Qed.

Lemma pieces_prefix cur l : Forall (fun x => x <> sep) cur -> exists p ps, pieces sep l = p :: ps /\ pieces sep (cur ++ l) = (cur ++ p) :: ps.
Proof.
  intros H. destruct (pieces sep l) as [|p ps] eqn:E; [by apply pieces_nonempty in E|]. exists p, ps. split; [done|].
  induction H as [|c cur Hc H IH]; [done|]. cbn. destruct (Z.eqb_spec c sep); [done|]. by rewrite IH.
Qed.

Lemma split_loop_spec rest : forall pre cur start,
  (exists tail, mem = pre ++ cur ++ rest ++ tail) -> Forall (fun x => x <> sep) cur -> zlen (cur ++ rest) < 2 ^ 16 ->
  start = Some (zlen pre) \/ start = None /\ cur = [] -> all_good good (pieces sep (cur ++ rest)) ->
  exists r, split_loop check sep rest (zlen pre + zlen cur) start (zlen cur) = Ret r /\
    agrees mem r (first_value f (pieces sep (cur ++ rest))).
Proof.
  induction rest as [|c rest IH]; intros pre cur start (tail & Hm) Hc Hz Hs Hg; cbn [split_loop].
  - destruct (pieces_prefix cur [] Hc) as (p & ps & Hp & Hps). injection Hp as <- <-. rewrite Hps in *. cbn [first_value]. rewrite !app_nil_r in *.
    zlen_facts. zcase.
    + destruct Hs as [->|[_ ->]]; [|by rewrite zlen_nil in *]. change (default 0 (Some (zlen pre))) with (zlen pre). destruct Hg as [->|Hg]; [by rewrite zlen_nil in *|].
      destruct (check_ok (zlen pre) cur) as (r & -> & Ha); [rewrite Hm; apply at_off_app | done | done |].
      exists r. split; [done|]. by destruct (f cur).
    + assert (cur = []) as -> by (apply zlen_zero_inv; lia). exists None. rewrite f_nil. done.
  - assert (match start with Some s => s | None => zlen pre + zlen cur end = zlen pre) as ->.
    { destruct Hs as [->|[-> ->]]; [done|]. rewrite zlen_nil. lia. }
    rewrite zlen_app, zlen_cons in Hz. zlen_facts. destruct (Z.eqb_spec c sep) as [->|Hne].
    + destruct (pieces_prefix cur (sep :: rest) Hc) as (p & ps & Hp & Hps). rewrite pieces_cons_sep in Hp. injection Hp as <- <-.
      rewrite Hps in *. rewrite app_nil_r in *. cbn [first_value].
      assert (good cur /\ all_good good (pieces sep rest)) as [Hgc Hgr].
      { cbn in Hg. destruct (pieces sep rest) eqn:E; [by apply pieces_nonempty in E|]. done. }
      destruct (check_ok (zlen pre) cur) as (r & -> & Ha); [rewrite Hm; apply at_off_app | lia | done |]. cbn [obind].
      destruct (f cur) as [v|] eqn:Ef, r as [[off len]|]; try done; [by exists (Some (off, len))|].
      destruct (IH (pre ++ cur ++ [sep]) [] None) as (r & Hr & Har); [exists tail; rewrite Hm; by rewrite <- !app_assoc | constructor | cbn; lia | by right | done |].
      rewrite !zlen_app, zlen_nil, Z.add_0_r in Hr. change (zlen [sep]) with 1 in Hr. rewrite Z.add_assoc in Hr. by exists r.
    + destruct (IH pre (cur ++ [c]) (Some (zlen pre))) as (r & Hr & Har).
      * exists tail. rewrite Hm. by rewrite <- !app_assoc.
      * apply Forall_app. split; [done|]. by constructor.
      * rewrite !zlen_app. change (zlen [c]) with 1. lia.
      * by left.
      * by rewrite <- app_assoc.
      * rewrite <- app_assoc in Har. rewrite zlen_app in Hr. change (zlen [c]) with 1 in Hr. rewrite Z.add_assoc in Hr.
        rewrite wrap_small by lia. by exists r.
Qed.

End split.

Lemma all_good_weaken (P Q : list Z -> Prop) ps : (forall p, P p -> Q p) -> all_good P ps -> all_good Q ps.
Proof. intros H. induction ps as [|p [|q ps] IH]; cbn; [done | naive_solver | naive_solver]. Qed.

Lemma all_good_true ps : all_good (fun _ => True) ps.
Proof. induction ps as [|p [|q ps] IH]; cbn; auto. Qed.

(** The lookup of a query string parameter returns the value of the first
    [key=value] between the ampersands whose key is the one that is asked for
    and whose value is not empty, and nothing when there is none; it reads
    nothing but the query string. *)
Theorem get_qs_spec mem qs_len key :
  0 <= qs_len <= zlen mem -> qs_len < 2 ^ 16 ->
  exists r, upsgi_get_qs mem qs_len key = Ret r /\ agrees mem r (qs_lookup key (ztake qs_len mem)).
Proof.
  intros H1 H2. unfold upsgi_get_qs. rewrite mslice_ok by lia. rewrite zdrop_0. cbn [obind].
  apply (split_loop_spec mem _ 38 (piece_value key) (fun _ => True)) with (pre := []) (cur := []); try done.
  - intros off p Hp Hz _. by apply check_qs_spec.
  - exists (zdrop qs_len mem). cbn [app]. by rewrite ztake_zdrop.
  - cbn [app]. by rewrite zlen_take by lia.
  - by left.
  - apply all_good_true.
Qed.

Lemma get_qs_spec_witness :
  exists r, upsgi_get_qs (chars "a=1&bb=22 HTTP") 9 (chars "bb") = Ret r /\ r = Some (7, 2) /\
    agrees (chars "a=1&bb=22 HTTP") r (Some (chars "22")).
Proof.
  destruct (get_qs_spec (chars "a=1&bb=22 HTTP") 9 (chars "bb") ltac:(by vm_compute) ltac:(by vm_compute)) as (r & E & Ha).
  exists r. split; [exact E|]. split; [vm_compute in E; by injection E|]. exact Ha.
Defined.

(** * Cookies *)

(** A part that is not only white space and whose leading white space is not
    the larger half of it. *)
Definition cookie_ok (p : list Z) : Prop := strip p <> [] /\ 2 * (zlen p - zlen (skip_space p)) <= zlen p + 1.

Lemma skip_space_split l : exists sp, l = sp ++ skip_space l /\ Forall (fun c => isspace c = true) sp.
Proof.
  induction l as [|c l (sp & E & H)]; [by exists []|]. cbn. destruct (isspace c) eqn:Ec; [|by exists []].
  exists (c :: sp). split; [by rewrite E at 1|]. by constructor.
Qed.

Lemma skip_space_head l c k : skip_space l = c :: k -> isspace c = false.
Proof. induction l as [|x l IH]; cbn; [done|]. destruct (isspace x) eqn:E; [done|]. by intros [= <- _]. Qed.

(** The part between its white space. *)
Lemma strip_split p :
  strip p <> [] -> exists sp trail, p = sp ++ strip p ++ trail /\ Forall (fun c => isspace c = true) sp /\ Forall (fun c => isspace c = true) trail /\
    (exists c k, strip p ++ trail = c :: k /\ isspace c = false) /\ (exists c, last (strip p) = Some c /\ isspace c = false) /\
    zlen p - zlen (skip_space p) = zlen sp.
Proof.
  intros Hne. destruct (skip_space_split p) as (sp & E & Hsp). destruct (skip_space_split (rev (skip_space p))) as (tr & E' & Htr).
  assert (skip_space p = strip p ++ rev tr) as Es.
  { unfold strip. rewrite <- (rev_involutive (skip_space p)) at 1. rewrite E' at 1. by rewrite rev_app_distr. }
  exists sp, (rev tr). rewrite <- Es. split_and!; [done | done | | | |].
  - apply Forall_forall. intros x Hx%list_elem_of_In%in_rev. rewrite Forall_forall in Htr. by apply Htr, list_elem_of_In.
  - destruct (skip_space p) as [|c k] eqn:Ek; [|exists c, k; split; [done | by eapply skip_space_head]].
    exfalso. apply Hne. unfold strip. by rewrite Ek.
  - unfold strip in *. destruct (skip_space (rev (skip_space p))) as [|c k] eqn:Ek; [done|]. exists c. split; [|by eapply skip_space_head].
    cbn [rev]. by rewrite last_snoc.
  - rewrite E at 1. rewrite zlen_app. lia.
Qed.

Lemma lstrip_loop_spec mem ptr p todo : forall n seen rest,
  at_off mem ptr p -> p = seen ++ todo ++ rest -> Forall (fun c => isspace c = true) todo ->
  (exists c k, rest = c :: k /\ isspace c = false) -> 2 * (zlen seen + zlen todo) <= zlen p + 1 -> zlen p < 2 ^ 16 -> (length todo < n)%nat ->
  lstrip_loop n mem ptr (zlen seen) (ptr + zlen seen) (zlen p - zlen seen) = Ret (ptr + (zlen seen + zlen todo), zlen p - (zlen seen + zlen todo)).
Proof.
  induction todo as [|x todo IH]; intros [|n] seen rest Hp E Hs Hc Hz Hl Hn; try (cbn in Hn; lia); cbn [lstrip_loop]; rewrite ?zlen_nil, ?zlen_cons in *; zlen_facts.
  - rewrite Z.add_0_r. zcase; [|done]. destruct Hc as (c & k & -> & Hc).
    rewrite (at_off_mid mem ptr p seen c k Hp E). cbn [obind]. by rewrite Hc.
  - inversion Hs as [|? ? Hx Hs']. zcase; [|lia].
    rewrite (at_off_mid mem ptr p seen x (todo ++ rest) Hp E). cbn [obind]. rewrite Hx, wrap_small by lia.
    specialize (IH n (seen ++ [x]) rest Hp ltac:(rewrite E; by rewrite <- app_assoc) Hs' Hc).
    rewrite !zlen_app in IH. change (zlen [x]) with 1 in IH.
    replace (zlen seen + (1 + zlen todo)) with (zlen seen + 1 + zlen todo) by lia.
    rewrite <- IH by (cbn in Hn; lia). f_equal; lia.
Qed.

Lemma rstrip_loop_spec mem ptr p trail : forall n front c len,
  at_off mem ptr p -> (exists k, p = front ++ trail ++ k) -> last front = Some c -> isspace c = false ->
  Forall (fun c => isspace c = true) trail -> zlen trail <= len < 2 ^ 16 -> (length front + length trail <= n)%nat ->
  rstrip_loop n mem ptr (zlen front + zlen trail - 1) len = Ret (len - zlen trail).
Proof.
  induction trail as [|x trail IH] using rev_ind; intros n front c len Hp (k & E) Hl Hc Ht Hz Hn.
  - destruct front as [|y front] using rev_ind; [done|]. rewrite last_snoc in Hl. injection Hl as ->. rewrite length_app in Hn. cbn in Hn.
    assert (zlen (front ++ [c]) + zlen (@nil Z) - 1 = zlen front) as -> by (rewrite zlen_app, zlen_nil; change (zlen [c]) with 1; lia).
    destruct n as [|n]; [lia|]. cbn [rstrip_loop]. replace (len - zlen (@nil Z)) with len by (rewrite (@zlen_nil Z); lia). zcase; [|done].
    rewrite (at_off_mid mem ptr p front c k Hp) by (rewrite E; cbn [app]; by rewrite <- app_assoc). cbn [obind]. by rewrite Hc.
  - apply Forall_app in Ht as [Ht Hx]. inversion Hx as [|? ? Hx' _]. rewrite zlen_app in *. change (zlen [x]) with 1 in *. zlen_facts.
    rewrite length_app in Hn. cbn in Hn. destruct n as [|n]; [lia|]. cbn [rstrip_loop].
    assert (0 < zlen front) by (destruct front; [done|]; rewrite zlen_cons; zlen_facts; lia). zcase; [|lia].
    replace (ptr + (zlen front + (zlen trail + 1) - 1)) with (ptr + zlen (front ++ trail)) by (rewrite zlen_app; lia).
    rewrite (at_off_mid mem ptr p (front ++ trail) x k Hp) by (rewrite E, <- !app_assoc; done).
    cbn [obind]. rewrite Hx', wrap_small by lia.
    replace (zlen front + (zlen trail + 1) - 1 - 1) with (zlen front + zlen trail - 1) by lia.
    rewrite (IH n front c); [f_equal; lia | done | | done | done | done | lia | lia].
    exists (x :: k). rewrite E. by rewrite <- !app_assoc.
Qed.

Lemma check_cookie_spec mem off p key :
  at_off mem off p -> zlen p < 2 ^ 16 -> cookie_ok p ->
  exists r, check_cookie mem off (zlen p) key = Ret r /\ agrees mem r (piece_value key (strip p)).
Proof.
  intros Hp Hz [Hne Hsp]. destruct (strip_split p Hne) as (sp & tr & E & H1 & H2 & Hhd & (c & Hl & Hc) & Hlen). rewrite Hlen in Hsp.
  assert (0 < zlen (strip p)) as Hpos by (destruct (strip p); [done|]; rewrite zlen_cons; zlen_facts; lia).
  assert (zlen p = zlen sp + (zlen (strip p) + zlen tr)) as Hzp by (rewrite E at 1; by rewrite !zlen_app). zlen_facts.
  unfold check_cookie. rewrite (wrap_small 16 (zlen p - 1)) by lia.
  pose proof (lstrip_loop_spec mem off p sp (S (Z.to_nat (zlen p))) [] (strip p ++ tr) Hp E H1 Hhd ltac:(rewrite (@zlen_nil Z); lia) Hz ltac:(unfold zlen in *; lia)) as HL.
  change (zlen []) with 0 in HL. rewrite Z.add_0_r, Z.sub_0_r, !Z.add_0_l in HL. rewrite HL. cbn [obind].
  pose proof (rstrip_loop_spec mem off p tr (S (Z.to_nat (zlen p - 1))) (sp ++ strip p) c (zlen p - zlen sp) Hp) as HR.
  rewrite zlen_app in HR. replace (zlen sp + zlen (strip p) + zlen tr - 1) with (zlen p - 1) in HR by lia. rewrite HR; clear HR HL.
  - cbn [obind]. replace (zlen p - zlen sp - zlen tr) with (zlen (strip p)) by lia.
    apply check_qs_spec; [by eapply at_off_sub | lia].
  - exists []. by rewrite app_nil_r, <- app_assoc.
  - by rewrite last_app, Hl.
  - done.
  - done.
  - lia.
  - rewrite length_app. unfold zlen in *. lia.
Qed.



(** An empty part is one of 65536 bytes for the loop that removes trailing
    white space; three blanks end up as 65535 bytes to search. *)
Theorem cookie_overread :
  upsgi_get_cookie (chars ";a=1") 4 (chars "a") = Fault /\
  upsgi_get_cookie (chars "   ;a-1") 7 (chars "a") = Fault /\
  cookie_lookup (chars "a") (chars ";a=1") = Some (chars "1").
Proof. split_and!; vm_compute; reflexivity. Qed.

(** A cookie behind more than half blanks is not found. *)
Theorem cookie_many_blanks :
  upsgi_get_cookie (chars "      a=1") 9 (chars "a") = Ret None /\ cookie_lookup (chars "a") (chars "      a=1") = Some (chars "1").
Proof. split; vm_compute; reflexivity. Qed.

End Lookup.
