(* ===== verification/ProtoBase.v ===== *)
(** The operations every protocol shares (proto/base.c): the response header
    builders, the resumable writers and the body reader.

    A system call is an argument: the value it returns, with [EAGAIN] and its
    relatives told apart from other errors. *)
From S2P Require Import Prelude Clib Buffer.

Module ProtoBase.

Definition UPSGI_OK : Z := 0.
Definition UPSGI_AGAIN : Z := 1.

(** * Response headers *)

(** [goto end] destroys the buffer: the result is [NULL]. *)
Definition finish (c : outcome (Z * upsgi_buffer)) : outcome (option upsgi_buffer) :=
  let* (r, ub) := c in Ret (if r =? 0 then Some ub else None).

Definition crlf : list Z := [CR; LF].

Definition upsgi_proto_base_add_header (env : heap_env) (k v : list Z) : outcome (option upsgi_buffer) :=
  if 0 <? zlen k then
    let* ub := upsgi_buffer_new env (zlen k + 2 + zlen v + 2) in
    finish ((upsgi_buffer_append env k ;;; upsgi_buffer_append env (chars ": ") ;;;
             upsgi_buffer_append env v ;;; upsgi_buffer_append env crlf) ub)
  else
    let* ub := upsgi_buffer_new env (zlen v + 2) in
    finish ((upsgi_buffer_append env v ;;; upsgi_buffer_append env crlf) ub).

Definition upsgi_proto_base_prepare_headers (env : heap_env) (cgi_mode : Z) (protocol s : list Z)
    : outcome (option upsgi_buffer) :=
  if cgi_mode =? 0 then
    if negb (zlen protocol =? 0) then
      let* ub := upsgi_buffer_new env (zlen protocol + 1 + zlen s + 2) in
      finish ((upsgi_buffer_append env protocol ;;; upsgi_buffer_append env (chars " ") ;;;
               upsgi_buffer_append env s ;;; upsgi_buffer_append env crlf) ub)
    else
      let* ub := upsgi_buffer_new env (9 + zlen s + 2) in
      finish ((upsgi_buffer_append env (chars "HTTP/1.0 ") ;;;
               upsgi_buffer_append env s ;;; upsgi_buffer_append env crlf) ub)
  else
    let* ub := upsgi_buffer_new env (8 + zlen s + 2) in
    finish ((upsgi_buffer_append env (chars "Status: ") ;;;
             upsgi_buffer_append env s ;;; upsgi_buffer_append env crlf) ub).

Definition upsgi_proto_base_cgi_prepare_headers (env : heap_env) (s : list Z) : outcome (option upsgi_buffer) :=
  let* ub := upsgi_buffer_new env (8 + zlen s + 2) in
  finish ((upsgi_buffer_append env (chars "Status: ") ;;;
           upsgi_buffer_append env s ;;; upsgi_buffer_append env crlf) ub).

Definition upsgi_proto_base_fix_headers (env : heap_env) : bop := upsgi_buffer_append env crlf.

(** * Writers *)

(** The result of [write], [writev] or [sendfile]. *)
Inductive wresult : Type :=
| Wrote (n : Z)
| WAgain
| WError.

(** [write(fd, buf + write_pos, len - write_pos)]: the state is
    [wsgi_req->write_pos]; the bytes that reach the socket are returned. *)
Definition upsgi_proto_base_write (io : wresult) (buf : list Z) (write_pos : Z) : outcome (Z * Z * list Z) :=
  match io with
  | Wrote wlen =>
      if 0 <? wlen then
        let* sent := mslice buf write_pos wlen in
        let write_pos := u64 (write_pos + wlen) in
        Ret (if write_pos =? zlen buf then UPSGI_OK else UPSGI_AGAIN, write_pos, sent)
      else Ret (-1, write_pos, [])
  | WAgain => Ret (UPSGI_AGAIN, write_pos, [])
  | WError => Ret (-1, write_pos, [])
  end.

(** [upsgi_sendfile_do(fd, file, pos + write_pos, len - write_pos)] *)
Definition upsgi_proto_base_sendfile (io : wresult) (file : list Z) (pos len write_pos : Z)
    : outcome (Z * Z * list Z) :=
  match io with
  | Wrote wlen =>
      if 0 <? wlen then
        let* sent := mslice file (pos + write_pos) wlen in
        let write_pos := u64 (write_pos + wlen) in
        Ret (if write_pos =? len then UPSGI_OK else UPSGI_AGAIN, write_pos, sent)
      else Ret (-1, write_pos, [])
  | WAgain => Ret (UPSGI_AGAIN, write_pos, [])
  | WError => Ret (-1, write_pos, [])
  end.

(** The first loop of [upsgi_proto_base_writev]: the index of the first
    vector that was not written completely and the bytes of it that were,
    with the number of complete ones. *)
Fixpoint consumed_iovs (i : nat) (iov : list (list Z)) (wlen new_len : Z) : nat * Z * Z :=
  match iov with
  | [] => (0%nat, 0, new_len)
  | v :: iov =>
      if zlen v <=? wlen then consumed_iovs (S i) iov (wlen - zlen v) (new_len - 1)
      else (i, wlen, new_len)
  end.

(** The second loop: [iov[pos] = iov[i]] for [i] from [first_iov], the first
    one moved by [skip_bytes]; the array keeps its length. *)
Fixpoint move_iovs (n : nat) (iov : list (list Z)) (i pos : nat) (skip_bytes : Z) : list (list Z) :=
  match n with
  | O => iov
  | S n =>
      let iov := if bool_decide (pos = 0%nat) then alter (zdrop skip_bytes) i iov else iov in
      let v := default [] (iov !! i) in
      move_iovs n (<[pos:=v]> iov) (S i) (S pos) skip_bytes
  end.

(** The vectors and [*len] are updated in place. *)
Definition upsgi_proto_base_writev (io : wresult) (iov : list (list Z)) (len : Z) (write_pos : Z)
    : Z * list (list Z) * Z * Z :=
  let vs := ztake len iov in
  let needed := foldl (fun n v => n + zlen v) 0 vs in
  match io with
  | Wrote wlen =>
      if 0 <? wlen then
        let write_pos := write_pos + wlen in
        if wlen =? needed then (UPSGI_OK, iov, len, write_pos)
        else
          let '(first_iov, skip_bytes, new_len) := consumed_iovs 0 vs wlen len in
          (UPSGI_AGAIN, move_iovs (Z.to_nat len - first_iov) iov first_iov 0 skip_bytes, new_len, write_pos)
      else (-1, iov, len, write_pos)
  | WAgain => (UPSGI_AGAIN, iov, len, write_pos)
  | WError => (-1, iov, len, write_pos)
  end.

(** * The request body *)

(** The bytes read beyond the head ([proto_parser_remains],
    [proto_parser_remains_buf]) come first; [rd] is what [read] of [len]
    bytes would give. *)
Definition upsgi_proto_base_read_body (remains : list Z) (len : Z) (rd : Z * list Z)
    : (Z * list Z) * list Z :=
  if 0 <? zlen remains then
    let n := UMIN (zlen remains) len in
    ((n, ztake n remains), zdrop n remains)
  else (rd, remains).

Definition upsgi_proto_noop_read_body : Z := -1.

(** * Lemmas *)

(** ** Vectors *)

Lemma foldl_zlen vs n : foldl (fun n v => n + zlen v) n vs = n + zlen (concat vs : list Z).
Proof.
  revert n. induction vs as [|v vs IH]; intros n; cbn [foldl concat]; [rewrite zlen_nil; lia|].
  rewrite IH, zlen_app. lia.
Qed.

Lemma consumed_iovs_spec vs i wlen len :
  0 <= wlen < zlen (concat vs) -> exists done v rest,
    vs = done ++ v :: rest /\ zlen (concat done) <= wlen < zlen (concat done) + zlen v /\
    consumed_iovs i vs wlen len = ((i + length done)%nat, wlen - zlen (concat done), len - zlen done).
Proof.
  revert i wlen len. induction vs as [|v vs IH]; intros i wlen len; cbn [concat consumed_iovs]; rewrite ?zlen_nil, ?zlen_app; intros Hw; [change (zlen []) with 0 in Hw; lia|].
  zlen_facts. destruct (Z.leb_spec (zlen v) wlen).
  - destruct (IH (S i) (wlen - zlen v) (len - 1)) as (d & v' & rest & -> & Hd & ->); [lia|].
    exists (v :: d), v', rest. cbn [concat length]. rewrite zlen_app, zlen_cons. split_and!; [done | lia | lia |].
    f_equal; [f_equal|]; lia.
  - exists [], v, vs. cbn [concat length]. change (@zlen Z []) with 0. change (@zlen (list Z) []) with 0. split_and!; [done | lia | lia |]. f_equal; [f_equal|]; lia.
Qed.

(** Moving a suffix of the array to its front. *)
Lemma move_iovs_spec n iov i pos skip_bytes :
  (pos <= i)%nat -> (i + n <= length iov)%nat -> (0 < pos)%nat ->
  take (pos + n) (move_iovs n iov i pos skip_bytes) = take pos iov ++ take n (drop i iov) /\
  length (move_iovs n iov i pos skip_bytes) = length iov.
Proof.
  revert iov i pos. induction n as [|n IH]; intros iov i pos Hp Hn H0; cbn [move_iovs].
  - rewrite Nat.add_0_r, take_0, app_nil_r. done.
  - rewrite bool_decide_eq_false_2 by lia.
    destruct (lookup_lt_is_Some_2 iov i) as [v Hv]; [lia|]. rewrite Hv. cbn [default from_option id].
    set (iov' := <[pos:=v]> iov).
    assert (length iov' = length iov) as Hl by (apply length_insert).
    destruct (IH iov' (S i) (S pos)) as [IH1 IH2]; [lia | lia | lia |].
    rewrite IH2. split; [|done]. replace (pos + S n)%nat with (S pos + n)%nat by lia. rewrite IH1.
    rewrite (take_S_r iov' pos v) by (apply list_lookup_insert_eq; lia).
    unfold iov'. rewrite take_insert_ge by lia. rewrite drop_insert_lt by lia.
    rewrite (drop_S iov v i Hv). cbn [take]. by rewrite <- app_assoc.
Qed.

Lemma move_iovs_front n iov i skip_bytes v :
  iov !! i = Some v -> (i + S n <= length iov)%nat ->
  take (S n) (move_iovs (S n) iov i 0 skip_bytes) = zdrop skip_bytes v :: take n (drop (S i) iov) /\
  length (move_iovs (S n) iov i 0 skip_bytes) = length iov.
Proof.
  intros Hv Hn. cbn [move_iovs]. rewrite bool_decide_eq_true_2 by done.
  rewrite list_lookup_alter_eq, Hv. cbn [fmap option_fmap option_map default from_option id].
  set (iov' := <[0%nat:=zdrop skip_bytes v]> (alter (zdrop skip_bytes) i iov)).
  assert (length iov' = length iov) as Hl by (unfold iov'; by rewrite length_insert, length_alter).
  destruct (move_iovs_spec n iov' (S i) 1 skip_bytes) as [H1 H2]; [lia | lia | lia |].
  rewrite H2. split; [|done]. change (S n) with (1 + n)%nat. rewrite H1.
  rewrite (take_S_r iov' 0 (zdrop skip_bytes v)) by (apply list_lookup_insert_eq; rewrite length_alter; lia).
  cbn [take app]. f_equal. unfold iov'. rewrite drop_insert_lt by lia. rewrite drop_alter_lt by lia. done.
Qed.

Lemma writev_step iov len wlen write_pos :
  0 <= len <= zlen iov -> 0 < wlen <= zlen (concat (ztake len iov)) ->
  exists ret iov' len', upsgi_proto_base_writev (Wrote wlen) iov len write_pos = (ret, iov', len', write_pos + wlen) /\
    ((ret = UPSGI_OK /\ wlen = zlen (concat (ztake len iov))) \/
     (ret = UPSGI_AGAIN /\ wlen < zlen (concat (ztake len iov)) /\ 0 < len' <= len /\ zlen iov' = zlen iov /\
      concat (ztake len' iov') = zdrop wlen (concat (ztake len iov)))).
Proof.
  intros Hlen Hw. unfold upsgi_proto_base_writev. rewrite (proj2 (Z.ltb_lt 0 wlen)) by lia.
  rewrite foldl_zlen, Z.add_0_l. destruct (Z.eqb_spec wlen (zlen (concat (ztake len iov)))) as [E|E].
  { eexists _, _, _. split; [done|]. by left. }
  destruct (consumed_iovs_spec (ztake len iov) 0 wlen len ltac:(lia)) as (d & v & rest & Ev & Hd & ->).
  eexists _, _, _. split; [done|]. right. split; [done|]. split; [lia|].
  assert (zlen (ztake len iov) = len) as Hl by (apply zlen_take; lia).
  rewrite Ev, zlen_app, zlen_cons in Hl. zlen_facts.
  replace (Z.to_nat len - (0 + length d))%nat with (S (length rest)) by (unfold zlen in *; lia).
  assert (iov !! length d = Some v) as Hv.
  { rewrite <- (ztake_zdrop len iov), Ev. rewrite lookup_app_l by (rewrite length_app; cbn; lia).
    rewrite lookup_app_r by lia. by rewrite Nat.sub_diag. }
  destruct (move_iovs_front (length rest) iov (length d) (wlen - zlen (concat d)) v Hv) as [Hm Hlm].
  { unfold zlen in *. lia. }
  split; [unfold zlen in *; lia|]. split; [unfold zlen; f_equal; exact Hlm|].
  unfold ztake at 1. replace (Z.to_nat (len - zlen d)) with (S (length rest)) by (unfold zlen in *; lia).
  cbn [Nat.add]. rewrite Hm.
  assert (take (length rest) (drop (S (length d)) iov) = rest) as ->.
  { assert (iov = (d ++ [v]) ++ rest ++ zdrop len iov) as ->.
    { rewrite <- (ztake_zdrop len iov) at 1. rewrite Ev, <- !app_assoc. done. }
    rewrite drop_app_length' by (rewrite length_app; cbn; lia). by apply take_app_length. }
  rewrite Ev, concat_app. cbn [concat]. rewrite (zdrop_app_ge wlen) by lia.
  by rewrite zdrop_app_le by lia.
Qed.

(** [upsgi_proto_base_writev] resumes exactly: after a partial write of
    [wlen] bytes the first [*len] vectors hold the bytes that were not
    written, no more and no less, and a complete write is reported as such. *)
Theorem writev_resumes iov len wlen write_pos :
  0 <= len <= zlen iov -> 0 < wlen <= zlen (concat (ztake len iov)) ->
  exists ret iov' len', upsgi_proto_base_writev (Wrote wlen) iov len write_pos = (ret, iov', len', write_pos + wlen) /\
    ((ret = UPSGI_OK /\ wlen = zlen (concat (ztake len iov))) \/
     (ret = UPSGI_AGAIN /\ wlen < zlen (concat (ztake len iov)) /\ 0 < len' <= len /\ zlen iov' = zlen iov /\
      concat (ztake len' iov') = zdrop wlen (concat (ztake len iov)))).
Proof. apply writev_step. Qed.

Lemma writev_resumes_witness :
  exists ret iov' len',
    upsgi_proto_base_writev (Wrote 4) [chars "abc"; []; chars "defg"; chars "h"] 4 0 = (ret, iov', len', 0 + 4) /\
    ((ret = UPSGI_OK /\ 4 = zlen (concat (ztake 4 [chars "abc"; []; chars "defg"; chars "h"]))) \/
     (ret = UPSGI_AGAIN /\ 4 < zlen (concat (ztake 4 [chars "abc"; []; chars "defg"; chars "h"])) /\ 0 < len' <= 4 /\ zlen iov' = zlen [chars "abc"; []; chars "defg"; chars "h"] /\
      concat (ztake len' iov') = zdrop 4 (concat (ztake 4 [chars "abc"; []; chars "defg"; chars "h"])))).
Proof. apply (writev_resumes [chars "abc"; []; chars "defg"; chars "h"] 4 4 0); by vm_compute. Defined.

(** The kernel writes at most what it is given. *)
Definition io_ok (room : Z) (io : wresult) : Prop :=
  match io with Wrote n => n <= room | _ => True end.

Lemma write_step io buf wp :
  0 <= wp <= zlen buf -> zlen buf < 2 ^ 63 -> io_ok (zlen buf - wp) io ->
  exists ret wp' sent, upsgi_proto_base_write io buf wp = Ret (ret, wp', sent) /\
    wp <= wp' <= zlen buf /\ sent = ztake (wp' - wp) (zdrop wp buf) /\
    (ret = UPSGI_OK -> wp' = zlen buf) /\ (ret = UPSGI_OK \/ ret = UPSGI_AGAIN \/ ret = -1).
Proof.
  intros Hwp Hlen Hio.
  assert (forall r, r <> UPSGI_OK -> (r = UPSGI_OK \/ r = UPSGI_AGAIN \/ r = -1) ->
    exists ret wp' sent, Ret (r, wp, []) = Ret (ret, wp', sent) /\
    wp <= wp' <= zlen buf /\ sent = ztake (wp' - wp) (zdrop wp buf) /\
    (ret = UPSGI_OK -> wp' = zlen buf) /\ (ret = UPSGI_OK \/ ret = UPSGI_AGAIN \/ ret = -1)) as Hno.
  { intros r Hr Hc. exists r, wp, []. rewrite Z.sub_diag, ztake_0. split_and!; [done | lia | lia | done | done | done]. }
  destruct io as [n| |]; cbn [upsgi_proto_base_write io_ok] in *; [|apply Hno; [done|auto]..].
  destruct (Z.ltb_spec 0 n); [|apply Hno; [done|auto]].
  rewrite mslice_ok by lia. cbn [obind]. rewrite wrap_small by lia.
  eexists _, _, _. split; [done|]. split; [lia|]. split; [f_equal; lia|].
  destruct (Z.eqb_spec (wp + n) (zlen buf)); [split; [done|]; auto | split; [done|]; auto].
Qed.

(** The calls of [upsgi_proto_base_write] for one buffer: [write_pos] and the
    bytes on the wire so far, as long as the answer is [UPSGI_AGAIN]. *)
Inductive write_run (buf : list Z) : Z -> list Z -> Prop :=
| run_start : write_run buf 0 []
| run_again wp out io wp' sent :
    write_run buf wp out -> io_ok (zlen buf - wp) io ->
    upsgi_proto_base_write io buf wp = Ret (UPSGI_AGAIN, wp', sent) -> write_run buf wp' (out ++ sent).

Lemma write_run_inv buf wp out :
  zlen buf < 2 ^ 63 -> write_run buf wp out -> 0 <= wp <= zlen buf /\ out = ztake wp buf.
Proof.
  intros Hb. induction 1 as [|wp out io wp' sent Hrun [Hwp ->] Hio E]; [zlen_facts; rewrite ztake_0; split; [lia | done]|].
  destruct (write_step io buf wp Hwp Hb Hio) as (ret & wp2 & sent2 & E' & Hle & -> & _). rewrite E in E'. simplify_eq.
  split; [lia|]. apply ztake_extend. lia.
Qed.

(** The response writer loses and repeats nothing: whatever partial writes
    and [EAGAIN]s come before it, the call that returns [UPSGI_OK] has put
    exactly the bytes of the buffer on the wire. *)
Theorem write_exact buf wp out io wp' sent :
  zlen buf < 2 ^ 63 -> write_run buf wp out -> io_ok (zlen buf - wp) io ->
  upsgi_proto_base_write io buf wp = Ret (UPSGI_OK, wp', sent) -> out ++ sent = buf.
Proof.
  intros Hb Hrun Hio E. destruct (write_run_inv buf wp out Hb Hrun) as [Hwp ->].
  destruct (write_step io buf wp Hwp Hb Hio) as (ret & wp2 & sent2 & E' & Hle & -> & Hdone & _).
  rewrite E in E'. simplify_eq. rewrite ztake_extend by lia. rewrite Hdone by done. by apply ztake_all.
Qed.

Lemma write_exact_witness : chars "he" ++ chars "llo" = chars "hello".
Proof.
  apply (write_exact (chars "hello") 2 (chars "he") (Wrote 3) 5 (chars "llo")); try (by vm_compute).
  apply (run_again _ 0 [] (Wrote 2) 2 (chars "he")); [constructor | by vm_compute | by vm_compute].
Defined.

(** The body is read without loss: the bytes that arrived with the head
    are handed out first, in order, and none of them twice. *)
Theorem read_body_remains remains len rd :
  0 < len -> remains <> [] ->
  exists n got left, upsgi_proto_base_read_body remains len rd = ((n, got), left) /\
    remains = got ++ left /\ n = zlen got /\ 0 < n <= len.
Proof.
  intros Hl Hr. unfold upsgi_proto_base_read_body.
  assert (0 < zlen remains) by (destruct remains; [done|]; rewrite zlen_cons; zlen_facts; lia).
  rewrite (proj2 (Z.ltb_lt _ _)), UMIN_spec by done. eexists _, _, _. split; [done|].
  rewrite ztake_zdrop, zlen_take by lia. split; [done|]. lia.
Qed.

Lemma read_body_remains_witness :
  exists n got left, upsgi_proto_base_read_body (chars "abc") 2 (0, []) = ((n, got), left) /\
    chars "abc" = got ++ left /\ n = zlen got /\ 0 < n <= 2.
Proof. apply (read_body_remains (chars "abc") 2 (0, [])); [lia | done]. Defined.

End ProtoBase.
