(* ===== verification/Mime.v ===== *)
(** The dictionary of MIME types (core/utils.c, core/static.c): reading the
    file of types and looking up the type of a file name.  Every hit may move
    the entry one place forward. *)
From S2P Require Import Prelude Clib Strings.

Module Mime.

(** * Data *)

(** [struct upsgi_dyn_dict]; the list is doubly linked. *)
Record udd : Type := mk_udd { key : list Z; value : list Z; hits : Z }.
#[export] Instance expand_udd : Expand udd := fun u => mk_udd (key u) (value u) (hits u).

Definition isalnum (c : Z) : bool := isdigit c || isupper c || islower c.
Definition isblank (c : Z) : bool := (c =? 32) || (c =? 9).

Definition upsgi_dyn_dict_new (dd : list udd) (k v : list Z) : list udd := dd ++ [mk_udd k v 0].

(** * The file of types *)

(** The line at the pointer, when a newline ends it. *)
Definition upsgi_get_line (rest : list Z) : option (list Z) :=
  match memchr rest LF with Some n => Some (ztake n rest) | None => None end.

(** The first index from [i] on with the property. *)
Fixpoint find_from (p : Z -> bool) (i : Z) (l : list Z) : option Z :=
  match l with [] => None | c :: l => if p c then Some i else find_from p (i + 1) l end.

(** The loop over the extensions: [current] and [ext_size] are the extension
    that is being read. *)
Fixpoint ext_loop (rest : list Z) (type : list Z) (current : option (list Z)) (ext_size : Z) (dd : list udd)
    : option (list Z) * Z * list udd :=
  match rest with
  | [] => (current, ext_size, dd)
  | c :: rest' =>
      if isblank c then
        (* the address is not looked at when the size is zero *)
        ext_loop rest' type None 0 (upsgi_dyn_dict_new dd (ztake ext_size (default [] current)) type)
      else
        let current := match current with None => rest | Some p => p end in
        ext_loop rest' type (Some current) (ext_size + 1) dd
  end.

Definition mime_line (line : list Z) (dd : list udd) : list udd :=
  match line with
  | [] => dd
  | c :: _ =>
      if isalnum c then
        match find_from isblank 0 line with
        | None => dd
        | Some type_size =>
            match find_from (fun c => negb (isblank c)) type_size (zdrop type_size line) with
            | None => dd
            | Some ext_start =>
                let type := ztake type_size line in
                let current := zdrop ext_start line in
                let '(current, ext_size, dd) := ext_loop current type (Some current) 0 dd in
                match current with
                | Some p => if 1 <? ext_size then upsgi_dyn_dict_new dd (ztake ext_size p) type else dd
                | None => dd
                end
            end
        end
      else dd
  end.

(** [buf] has a NUL behind [size] bytes, so [line[0]] of an empty last line is
    readable. *)
Fixpoint mime_loop (fuel : nat) (rest : list Z) (dd : list udd) : outcome (list udd) :=
  match fuel with
  | O => NoFuel
  | S fuel =>
      match upsgi_get_line rest with
      | None => Ret dd
      | Some line => mime_loop fuel (zdrop (zlen line + 1) rest) (mime_line line dd)
      end
  end.
Definition upsgi_build_mime_dict (file : list Z) (dd : list udd) : outcome (list udd) :=
  mime_loop (S (length file)) file dd.

(** * Lookup *)

(** The extension: what follows the last dot. *)
Definition extension (name : list Z) : option (list Z) :=
  match memrchr name 46 with Some i => Some (zdrop (i + 1) name) | None => None end.

(** The loop; [before] are the entries before [dd], the last one first. *)
Fixpoint mime_search (ext : list Z) (before dd : list udd) : option (list Z * list udd) :=
  match dd with
  | [] => None
  | u :: next =>
      if upsgi_strncmp ext u.(key) then
        let u := u<|hits := u64 (u.(hits) + 1)|> in
        (* auto optimization *)
        Some (u.(value),
          match before with
          | prev :: before' => if prev.(hits) <? u.(hits) then rev before' ++ u :: prev :: next else rev before ++ u :: next
          | [] => u :: next
          end)
      else mime_search ext (u :: before) next
  end.

Definition upsgi_get_mime_type (name : list Z) (dd : list udd) : option (list Z) * list udd :=
  match extension name with
  | None => (None, dd)
  | Some ext => match mime_search ext [] dd with Some (v, dd) => (Some v, dd) | None => (None, dd) end
  end.

(** * Lookup is lookup in a map *)

Definition pair_of (u : udd) : list Z * list Z := (u.(key), u.(value)).

Definition assoc (ext : list Z) (kvs : list (list Z * list Z)) : option (list Z) :=
  snd <$> find (fun kv => bytes_eqb ext kv.1) kvs.

(** The type that a dictionary gives to a name. *)
Definition type_of (name : list Z) (kvs : list (list Z * list Z)) : option (list Z) :=
  match extension name with Some ext => assoc ext kvs | None => None end.

Lemma mime_search_None ext before dd : mime_search ext before dd = None <-> assoc ext (pair_of <$> dd) = None.
Proof.
  revert before. induction dd as [|u dd IH]; intros before; cbn; [done|]. rewrite upsgi_strncmp_spec.
  unfold assoc. cbn. destruct (bytes_eqb ext (key u)); cbn; [done|]. apply IH.
Qed.

Lemma mime_search_spec ext before dd v dd' :
  mime_search ext before dd = Some (v, dd') ->
  assoc ext (pair_of <$> dd) = Some v /\ pair_of <$> dd' ≡ₚ pair_of <$> (rev before ++ dd).
Proof.
  revert before. induction dd as [|u dd IH]; intros before; cbn; [done|]. rewrite upsgi_strncmp_spec.
  destruct (bytes_eqb ext (key u)) eqn:E.
  - intros [= <- <-]. split; [done|].
    destruct before as [|p before]; [done|]. destruct (hits p <? _); cbn [rev].
    + rewrite <- app_assoc, !fmap_app. cbn. apply Permutation_app_head. constructor.
    + by rewrite !fmap_app.
  - intros H. apply IH in H as [H1 H2]. split; [exact H1|].
    cbn [rev] in H2. by rewrite <- app_assoc in H2.
Qed.

(** With distinct keys the order of the entries does not matter. *)
Lemma assoc_elem ext v kvs : NoDup kvs.*1 -> assoc ext kvs = Some v <-> (ext, v) ∈ kvs.
Proof.
  induction kvs as [|[k w] kvs IH]; cbn; [split; [done | by intros ?%elem_of_nil]|]. intros [Hn Hd]%NoDup_cons.
  unfold assoc in *. cbn. destruct (bytes_eqb ext k) eqn:E; cbn.
  - apply bytes_eqb_spec in E as ->. rewrite elem_of_cons. split; [intros [= ->]; by left|].
    intros [[= ->]|Hin]; [done|]. destruct Hn. by apply (list_elem_of_fmap_2 fst) in Hin.
  - rewrite IH by done. rewrite elem_of_cons. split; [by right|]. intros [[= -> _]|?]; [by rewrite bytes_eqb_refl in E | done].
Qed.

Lemma assoc_Permutation ext kvs kvs' : kvs ≡ₚ kvs' -> NoDup kvs.*1 -> assoc ext kvs' = assoc ext kvs.
Proof.
  intros Hp Hd. assert (NoDup kvs'.*1) as Hd' by (by rewrite <- Hp).
  destruct (assoc ext kvs) as [v|] eqn:E.
  - apply assoc_elem in E; [|done]. apply assoc_elem; [done|]. by rewrite <- Hp.
  - destruct (assoc ext kvs') as [v|] eqn:E'; [|done]. apply assoc_elem in E'; [|done]. rewrite <- Hp in E'.
    apply assoc_elem in E'; [|done]. by rewrite E in E'.
Qed.

Lemma get_mime_type_spec name dd :
  let '(v, dd') := upsgi_get_mime_type name dd in
  v = type_of name (pair_of <$> dd) /\ pair_of <$> dd' ≡ₚ pair_of <$> dd.
Proof.
  unfold upsgi_get_mime_type, type_of. destruct (extension name) as [ext|]; [|done].
  destruct (mime_search ext [] dd) as [[v dd']|] eqn:E.
  - by apply mime_search_spec in E as [-> ?].
  - by apply mime_search_None in E as ->.
Qed.

(** A server's lookups, one after the other. *)
Fixpoint lookups (names : list (list Z)) (dd : list udd) : list (option (list Z)) * list udd :=
  match names with
  | [] => ([], dd)
  | n :: names => let '(v, dd) := upsgi_get_mime_type n dd in let '(vs, dd) := lookups names dd in (v :: vs, dd)
  end.

(** The reordering of the dictionary never changes an answer: whatever is
    looked up before, every name gets the type that the dictionary gives to
    the extension behind its last dot, and no entry is lost. *)
Theorem mime_lookups_stable names dd :
  NoDup (key <$> dd) ->
  let '(vs, dd') := lookups names dd in
  vs = (fun n => type_of n (pair_of <$> dd)) <$> names /\ pair_of <$> dd' ≡ₚ pair_of <$> dd.
Proof.
  intros Hd. assert (NoDup (pair_of <$> dd).*1) as Hn by by rewrite <- list_fmap_compose.
  cut (forall names dd1, pair_of <$> dd1 ≡ₚ pair_of <$> dd ->
    let '(vs, dd') := lookups names dd1 in vs = (fun n => type_of n (pair_of <$> dd)) <$> names /\ pair_of <$> dd' ≡ₚ pair_of <$> dd).
  { intros H. by apply H. }
  clear names. induction names as [|n names IH]; intros dd1 Hp; cbn; [done|].
  pose proof (get_mime_type_spec n dd1) as Hg. destruct (upsgi_get_mime_type n dd1) as [v dd2]. destruct Hg as [-> Hp2].
  specialize (IH dd2 (transitivity Hp2 Hp)). destruct (lookups names dd2) as [vs dd3]. destruct IH as [-> Hp3]. split; [|done].
  cbn. f_equal. unfold type_of. destruct (extension n); [|done]. by apply assoc_Permutation.
Qed.

Lemma mime_lookups_stable_witness :
  lookups [chars "/a/b.css"; chars "x.html"; chars "README"] [mk_udd (chars "html") (chars "text/html") 0; mk_udd (chars "css") (chars "text/css") 0]
  = ([Some (chars "text/css"); Some (chars "text/html"); None],
     [mk_udd (chars "css") (chars "text/css") 1; mk_udd (chars "html") (chars "text/html") 1]) /\
  [Some (chars "text/css"); Some (chars "text/html"); None] =
    (fun n => type_of n [(chars "html", chars "text/html"); (chars "css", chars "text/css")]) <$> [chars "/a/b.css"; chars "x.html"; chars "README"].
Proof.
  pose proof (mime_lookups_stable [chars "/a/b.css"; chars "x.html"; chars "README"]
    [mk_udd (chars "html") (chars "text/html") 0; mk_udd (chars "css") (chars "text/css") 0]) as H.
  split; [vm_compute; reflexivity|].
  destruct (lookups _ _) as [vs dd'] eqn:E in H. assert (NoDup [chars "html"; chars "css"]) as Hn.
  { constructor; [|constructor; [apply not_elem_of_nil | constructor]]. rewrite list_elem_of_singleton. by vm_compute. }
  destruct (H Hn) as [Hv _]. vm_compute in E. injection E as <- _. exact Hv.
Defined.

(** * Reading a file of types *)

(** A line: the type and its extensions, each behind a blank. *)
Definition words (es : list (list Z)) : list Z := concat (cons SP <$> es).
Definition mime_text (l : list Z * list (list Z)) : list Z := l.1 ++ words l.2 ++ [LF].
Definition mime_entries (l : list Z * list (list Z)) : list udd := (fun e => mk_udd e l.1 0) <$> l.2.

Definition word_ok (w : list Z) : Prop := w <> [] /\ Forall (fun c => isblank c = false /\ c <> LF) w.
Definition line_ok (l : list Z * list (list Z)) : Prop :=
  word_ok l.1 /\ (exists c k, l.1 = c :: k /\ isalnum c = true) /\ Forall word_ok l.2 /\ (exists e, last l.2 = Some e /\ 1 < zlen e).

Lemma ext_loop_word w rest type p n dd :
  Forall (fun c => isblank c = false /\ c <> LF) w ->
  ext_loop (w ++ rest) type (Some p) n dd = ext_loop rest type (Some p) (n + zlen w) dd.
Proof.
  intros H. revert n. induction H as [|c w [Hc _] _ IH]; intros n; cbn [app ext_loop]; [by rewrite zlen_nil, Z.add_0_r|].
  rewrite Hc, IH, zlen_cons. f_equal. lia.
Qed.

Lemma ext_loop_words es : forall w type dd,
  word_ok w -> Forall word_ok es ->
  exists k, ext_loop (words es) type (Some (w ++ words es)) (zlen w) dd =
    (Some (default w (last es) ++ k), zlen (default w (last es)), dd ++ ((fun e => mk_udd e type 0) <$> removelast (w :: es))).
Proof.
  induction es as [|e es IH]; intros w type dd Hw He.
  - exists []. cbn. by rewrite !app_nil_r.
  - inversion He as [|? ? Hwe Hes]. unfold words. cbn [fmap list_fmap concat app ext_loop]. change (isblank SP) with true. cbn iota.
    change (default [] (Some ?x)) with x. fold (words es). rewrite ztake_app_length by done.
    destruct e as [|c e]; [by destruct Hwe|]. destruct Hwe as [_ Hc]. inversion Hc as [|? ? [Hb _] Hc']. cbn [app ext_loop].
    rewrite Hb, ext_loop_word by done. replace (0 + 1 + zlen e) with (zlen (c :: e)) by (rewrite zlen_cons; lia).
    destruct (IH (c :: e) type (upsgi_dyn_dict_new dd w type)) as (k & Hk); [by split | done|].
    change (words ((c :: e) :: es)) with (SP :: (c :: e) ++ words es) in *.
    exists k. cbn [app] in Hk |- *. rewrite Hk. rewrite last_cons. destruct (last es) as [y|] eqn:El; cbn [from_option default id].
    + f_equal. unfold upsgi_dyn_dict_new. rewrite <- app_assoc. by destruct es.
    + f_equal. unfold upsgi_dyn_dict_new. rewrite <- app_assoc. by destruct es.
Qed.

Lemma find_from_app p l rest i : Forall (fun c => p c = false) l -> find_from p i (l ++ rest) = find_from p (i + zlen l) rest.
Proof.
  intros H. revert i. induction H as [|c l Hc _ IH]; intros i; cbn; [by rewrite zlen_nil, Z.add_0_r|].
  rewrite Hc, IH, zlen_cons. f_equal. lia.
Qed.

Lemma removelast_last {A} (l : list A) x : last l = Some x -> removelast l ++ [x] = l.
Proof.
  intros H. rewrite last_Some in H. destruct H as [k ->]. by rewrite removelast_last.
Qed.

Lemma mime_line_spec l dd : line_ok l -> mime_line (l.1 ++ words l.2) dd = dd ++ mime_entries l.
Proof.
  destruct l as [t es]. unfold line_ok. cbn [fst snd]. intros ([_ Ht] & (c & k & -> & Hc) & Hes & (e & He & Hl)).
  destruct es as [|e0 es]; [done|]. inversion Hes as [|? ? Hw Hes'].
  change (mime_line ((c :: k) ++ words (e0 :: es)) dd) with
    (if isalnum c then match find_from isblank 0 ((c :: k) ++ words (e0 :: es)) with
        | None => dd
        | Some type_size =>
            match find_from (fun c => negb (isblank c)) type_size (zdrop type_size ((c :: k) ++ words (e0 :: es))) with
            | None => dd
            | Some ext_start =>
                let type := ztake type_size ((c :: k) ++ words (e0 :: es)) in
                let current := zdrop ext_start ((c :: k) ++ words (e0 :: es)) in
                let '(current, ext_size, dd) := ext_loop current type (Some current) 0 dd in
                match current with
                | Some p => if 1 <? ext_size then upsgi_dyn_dict_new dd (ztake ext_size p) type else dd
                | None => dd
                end
            end
        end else dd).
  rewrite Hc. set (t := c :: k) in *. change (words (e0 :: es)) with ([SP] ++ e0 ++ words es).
  rewrite find_from_app by (eapply Forall_impl; [exact Ht|]; by intros ? []). cbn [app find_from]. change (isblank SP) with true. cbn iota.
  rewrite Z.add_0_l, zdrop_app_length by done. cbn [find_from]. change (negb (isblank SP)) with false. cbn iota.
  destruct Hw as [Hne Hw]. destruct e0 as [|d e0]; [done|]. inversion Hw as [|? ? [Hd _] _]. cbn [app find_from]. rewrite Hd. cbn [negb].
  rewrite ztake_app_length by done. replace (zdrop (zlen t + 1) (t ++ SP :: d :: e0 ++ words es)) with ((d :: e0) ++ words es).
  2: { change (t ++ SP :: d :: e0 ++ words es) with (t ++ [SP] ++ (d :: e0) ++ words es). rewrite app_assoc. symmetry. apply zdrop_app_length. by rewrite zlen_app. }
  cbn zeta. rewrite ext_loop_word, Z.add_0_l by done. destruct (ext_loop_words es (d :: e0) t dd) as (q & ->); [by split | done|].
  rewrite last_cons in He. assert (default (d :: e0) (last es) = e) as -> by (by destruct (last es); cbn in *; congruence).
  destruct (Z.ltb_spec 1 (zlen e)); [|lia]. rewrite ztake_app_length by done. unfold upsgi_dyn_dict_new, mime_entries. rewrite <- app_assoc. f_equal.
  cbn [snd fst]. rewrite <- (removelast_last ((d :: e0) :: es) e) at 2; [by rewrite fmap_app|]. rewrite last_cons. by destruct (last es).
Qed.

(** A file of types whose lines are a type and its extensions, divided by
    single blanks, is read into the dictionary that maps every extension to
    its type, in the order of the file, when the last extension of each line
    has more than one letter. *)
Theorem build_mime_spec ls dd :
  Forall line_ok ls -> upsgi_build_mime_dict (concat (mime_text <$> ls)) dd = Ret (dd ++ concat (mime_entries <$> ls)).
Proof.
  intros H. unfold upsgi_build_mime_dict.
  assert (length ls <= length (concat (mime_text <$> ls)))%nat as Hlen.
  { clear H. induction ls as [|l ls IH]; cbn; [lia|]. unfold mime_text at 1. rewrite !length_app. cbn. lia. }
  set (fuel := S (length (concat (mime_text <$> ls)))). assert (length ls < fuel)%nat as Hf by lia. clearbody fuel. clear Hlen.
  revert fuel dd Hf. induction H as [|l ls Hl _ IH]; intros [|fuel] dd Hf; try (cbn in Hf; lia); cbn [fmap list_fmap concat mime_loop].
  - cbn. by rewrite app_nil_r.
  - assert (Forall (fun c => c <> LF) (l.1 ++ words l.2)) as Hn.
    { destruct Hl as ([_ Ht] & _ & Hes & _). apply Forall_app. split; [eapply Forall_impl; [exact Ht|]; by intros ? []|].
      unfold words. apply Forall_concat, Forall_fmap. eapply Forall_impl; [exact Hes|]. intros w [_ Hw]. constructor; [done|].
      eapply Forall_impl; [exact Hw|]. by intros ? []. }
    set (rest := concat (mime_text <$> ls)) in *. set (line := l.1 ++ words l.2) in *.
    assert (mime_text l ++ rest = line ++ LF :: rest) as -> by (unfold mime_text, line; by rewrite <- !app_assoc).
    unfold upsgi_get_line. rewrite memchr_app_l by done. rewrite ztake_app_length by done.
    assert (zdrop (zlen line + 1) (line ++ LF :: rest) = rest) as ->.
    { change (line ++ LF :: rest) with (line ++ [LF] ++ rest). rewrite app_assoc. apply zdrop_app_length. by rewrite zlen_app. }
    unfold line.
    rewrite mime_line_spec by done. rewrite IH by (cbn in Hf; lia). by rewrite <- app_assoc.
Qed.

Lemma build_mime_spec_witness :
  Forall line_ok [(chars "text/html", [chars "htm"; chars "html"]); (chars "text/css", [chars "css"])] /\
  upsgi_build_mime_dict (chars "text/html htm html" ++ [LF] ++ chars "text/css css" ++ [LF]) [] =
    Ret [mk_udd (chars "htm") (chars "text/html") 0; mk_udd (chars "html") (chars "text/html") 0; mk_udd (chars "css") (chars "text/css") 0].
Proof.
  assert (Forall line_ok [(chars "text/html", [chars "htm"; chars "html"]); (chars "text/css", [chars "css"])]) as H.
  { repeat first [apply Forall_cons; split | apply Forall_nil_2 | split]; try discriminate; try (by vm_compute);
    eexists _; first [eexists; split; [reflexivity | by vm_compute] | split; [reflexivity | by vm_compute]]. }
  split; [exact H|]. exact (build_mime_spec _ [] H).
Defined.

(** An extension of one letter at the end of a line is not read: the name
    [a.c] has no type. *)
Theorem mime_single_letter :
  upsgi_build_mime_dict (chars "text/x-c c" ++ [LF]) [] = Ret [] /\
  upsgi_build_mime_dict (chars "text/x-c c cc" ++ [LF]) [] = Ret [mk_udd (chars "c") (chars "text/x-c") 0; mk_udd (chars "cc") (chars "text/x-c") 0].
Proof. split; vm_compute; reflexivity. Qed.

End Mime.
