(* ===== verification/HttpDate.v ===== *)
(** Dates of HTTP headers: the writer and the reader of core/static.c over
    the calendar functions [gmtime] and [timegm] of the C library. *)
From S2P Require Import Prelude Clib.

Module HttpDate.

(** * The calendar *)

(** [struct tm], in UTC. *)
Record tm : Type := mk_tm { tm_year : Z; tm_mon : Z; tm_mday : Z; tm_hour : Z; tm_min : Z; tm_sec : Z; tm_wday : Z }.

(** Days are counted from March 1st, in eras of 400 years; 719468 days before
    the epoch an era begins. *)
Definition year_of_era (doe : Z) : Z := (doe - doe / 1460 + doe / 36524 - doe / 146096) / 365.
Definition day_of_year (doe : Z) : Z := doe - (365 * year_of_era doe + year_of_era doe / 4 - year_of_era doe / 100).

Definition gmtime (t : Z) : tm :=
  let days := t / 86400 in
  let secs := t mod 86400 in
  let z := days + 719468 in
  let doe := z mod 146097 in
  let doy := day_of_year doe in
  let mp := (5 * doy + 2) / 153 in
  let m := if mp <? 10 then mp + 2 else mp - 10 in
  let y := year_of_era doe + 400 * (z / 146097) + (if m <? 2 then 1 else 0) in
  mk_tm (y - 1900) m (doy - (153 * mp + 2) / 5 + 1) (secs / 3600) (secs mod 3600 / 60) (secs mod 60) ((days + 4) mod 7).

(** The fields need not be in their ranges; [tm_wday] is not looked at. *)
Definition timegm (x : tm) : Z :=
  let m := x.(tm_mon) mod 12 in
  let y := x.(tm_year) + 1900 + x.(tm_mon) / 12 - (if m <? 2 then 1 else 0) in
  let mp := (m + 10) mod 12 in
  let yoe := y mod 400 in
  let doe := yoe * 365 + yoe / 4 - yoe / 100 + (153 * mp + 2) / 5 + x.(tm_mday) - 1 in
  (y / 400 * 146097 + doe - 719468) * 86400 + x.(tm_hour) * 3600 + x.(tm_min) * 60 + x.(tm_sec).

(** * Code *)

Definition week : list (list Z) := [chars "Sun"; chars "Mon"; chars "Tue"; chars "Wed"; chars "Thu"; chars "Fri"; chars "Sat"].
Definition months : list (list Z) :=
  [chars "Jan"; chars "Feb"; chars "Mar"; chars "Apr"; chars "May"; chars "Jun"; chars "Jul"; chars "Aug"; chars "Sep";
   chars "Oct"; chars "Nov"; chars "Dec"].

(** The conversions ["%02d"] and ["%4d"] of a number that is not negative. *)
Definition fmt_pad (c n x : Z) : list Z := zrep (n - zlen (digits 10 x)) c ++ digits 10 x.

Definition http_date_text (t : Z) : list Z :=
  let x := gmtime t in
  default [] (week !! Z.to_nat x.(tm_wday)) ++ chars ", " ++ fmt_pad 48 2 x.(tm_mday) ++ chars " " ++
  default [] (months !! Z.to_nat x.(tm_mon)) ++ chars " " ++ fmt_pad 32 4 (x.(tm_year) + 1900) ++ chars " " ++
  fmt_pad 48 2 x.(tm_hour) ++ chars ":" ++ fmt_pad 48 2 x.(tm_min) ++ chars ":" ++ fmt_pad 48 2 x.(tm_sec) ++ chars " GMT".

(** [snprintf(dst, 31, ...)] stores at most thirty bytes and the NUL: the
    result and what is stored. *)
Definition upsgi_http_date (t : Z) : Z * list Z :=
  let text := http_date_text t in
  let ret := zlen text in
  (if (ret <=? 0) || (31 <? ret) then 0 else ret, ztake 30 text).

Definition num_digit (c : Z) : Z := i8 c - 48.
Definition upsgi_str2_num (str : list Z) (off : Z) : outcome Z :=
  let* a := mread str off in let* b := mread str (off + 1) in Ret (10 * num_digit a + num_digit b).
Definition upsgi_str4_num (str : list Z) (off : Z) : outcome Z :=
  let* a := mread str off in let* b := mread str (off + 1) in
  let* c := mread str (off + 2) in let* d := mread str (off + 3) in
  Ret (1000 * num_digit a + 100 * num_digit b + 10 * num_digit c + num_digit d).

(** The [switch]: the month, or [return 0]. *)
Definition parse_month (date : list Z) : outcome (option Z) :=
  let* c8 := mread date 8 in
  let* c9 := mread date 9 in
  let* c10 := mread date 10 in
  Ret (if c8 =? 74 then
         if c9 =? 97 then Some 0
         else if c9 =? 117 then if c10 =? 110 then Some 5 else if c10 =? 108 then Some 6 else None
         else None
       else if c8 =? 70 then Some 1
       else if c8 =? 77 then
         if negb (c9 =? 97) then None else if c10 =? 114 then Some 2 else if c10 =? 121 then Some 4 else None
       else if c8 =? 65 then if c10 =? 114 then Some 3 else if c10 =? 103 then Some 7 else None
       else if c8 =? 83 then Some 8
       else if c8 =? 79 then Some 9
       else if c8 =? 78 then Some 10
       else if c8 =? 68 then Some 11
       else None).

(** [date] is the memory from the pointer on, [len] the length of the header
    value in it. *)
Definition parse_http_date (date : list Z) (len : Z) : outcome Z :=
  let* bad := if negb (len =? 29) then let* c := mread date 3 in Ret (negb (c =? 44)) else Ret false in
  if bad then Ret 0
  else
    let* mday := upsgi_str2_num date 5 in
    let* mon := parse_month date in
    match mon with
    | None => Ret 0
    | Some mon =>
        let* year := upsgi_str4_num date 12 in
        let* hour := upsgi_str2_num date 17 in
        let* min := upsgi_str2_num date 20 in
        let* sec := upsgi_str2_num date 23 in
        Ret (timegm (mk_tm (year - 1900) mon mday hour min sec 0))
    end.

(** * The calendar is exact *)

(** Every day of an era is a day of a year of it. *)
Fixpoint era_ok (n : nat) (doe : Z) : bool :=
  match n with
  | O => true
  | S n => (0 <=? year_of_era doe) && (year_of_era doe <? 400) && (0 <=? day_of_year doe) && (day_of_year doe <? 366) && era_ok n (doe + 1)
  end.

Lemma era_ok_spec n doe k : era_ok n doe = true -> doe <= k < doe + Z.of_nat n -> 0 <= year_of_era k < 400 /\ 0 <= day_of_year k < 366.
Proof.
  revert doe. induction n as [|n IH]; intros doe H Hk; [lia|]. cbn [era_ok] in H. apply andb_true_iff in H as [H H5].
  destruct (decide (k = doe)) as [->|Hne].
  - rewrite !andb_true_iff, !Z.leb_le, !Z.ltb_lt in H. lia.
  - apply (IH (doe + 1)); [done | lia].
Qed.

Lemma era_days doe : 0 <= doe < 146097 -> 0 <= year_of_era doe < 400 /\ 0 <= day_of_year doe < 366.
Proof. intros H. apply (era_ok_spec (Z.to_nat 146097) 0); [vm_compute; reflexivity | lia]. Qed.

(** The fields are in their ranges. *)
Lemma gmtime_range t :
  let x := gmtime t in
  0 <= tm_mon x < 12 /\ 1 <= tm_mday x <= 31 /\ 0 <= tm_hour x < 24 /\ 0 <= tm_min x < 60 /\ 0 <= tm_sec x < 60 /\ 0 <= tm_wday x < 7.
Proof.
  cbn. set (doe := (t / 86400 + 719468) mod 146097). destruct (era_days doe) as [_ Hd]; [apply Z.mod_pos_bound; lia|].
  set (doy := day_of_year doe) in *. clearbody doy.
  destruct (Z.ltb_spec ((5 * doy + 2) / 153) 10); Z.to_euclidean_division_equations; lia.
Qed.

(** [timegm] is the inverse of [gmtime]. *)
Lemma timegm_gmtime t : timegm (gmtime t) = t.
Proof.
  unfold timegm, gmtime. cbn. set (z := t / 86400 + 719468). set (doe := z mod 146097).
  assert (0 <= doe < 146097) as Hdoe by (apply Z.mod_pos_bound; lia).
  destruct (era_days doe Hdoe) as [Hy Hd]. assert (z = 146097 * (z / 146097) + doe) as Hz by apply (Z.div_mod z 146097 ltac:(lia)).
  assert (day_of_year doe = doe - (365 * year_of_era doe + year_of_era doe / 4 - year_of_era doe / 100)) as Hdoy by done.
  set (doy := day_of_year doe) in *. clearbody doy. set (yoe := year_of_era doe) in *. clearbody yoe. set (e := z / 146097) in *. clearbody e.
  set (mp := (5 * doy + 2) / 153). assert (0 <= mp < 12) as Hmp by (unfold mp; Z.to_euclidean_division_equations; lia).
  set (m := if mp <? 10 then mp + 2 else mp - 10).
  assert (0 <= m < 12 /\ (m + 10) mod 12 = mp /\ (m <? 2) = negb (mp <? 10)) as (Hm & Emp & Em2).
  { unfold m. destruct (Z.ltb_spec mp 10); cbn [negb].
    - split; [lia|]. split;
        [replace (mp + 2 + 10) with (mp + 1 * 12) by lia; rewrite Z.mod_add, Z.mod_small by lia; done | apply Z.ltb_ge; lia].
    - split; [lia|]. split; [rewrite Z.mod_small by lia; lia | apply Z.ltb_lt; lia]. }
  rewrite (Z.mod_small m), (Z.div_small m), Emp by lia.
  replace (yoe + 400 * e + (if m <? 2 then 1 else 0) - 1900 + 1900 + 0 - (if m <? 2 then 1 else 0)) with (yoe + e * 400) by lia.
  rewrite Z.mod_add, Z.div_add, (Z.mod_small yoe), (Z.div_small yoe) by lia.
  rewrite Hdoy in *. unfold z in Hz. Z.to_euclidean_division_equations; lia.
Qed.

(** * What is written is read back *)

(** A property of the numbers below a bound, by evaluation. *)
Lemma below_ok (n : Z) (p : Z -> bool) x : forallb p (seqZ 0 n) = true -> 0 <= x < n -> p x = true.
Proof. intros H Hx. apply (proj1 (forallb_forall _ _) H). apply list_elem_of_In, elem_of_seqZ. lia. Qed.

Definition pad_2_ok (x : Z) : bool := bool_decide (fmt_pad 48 2 x = [48 + x / 10; 48 + x mod 10]).
Definition pad_4_ok (x : Z) : bool :=
  bool_decide (fmt_pad 32 4 (1000 + x) = [48 + (1000 + x) / 1000; 48 + (1000 + x) / 100 mod 10; 48 + (1000 + x) / 10 mod 10; 48 + (1000 + x) mod 10]).

Lemma fmt_pad_2 x : 0 <= x < 100 -> fmt_pad 48 2 x = [48 + x / 10; 48 + x mod 10].
Proof.
  intros Hx. assert (forallb pad_2_ok (seqZ 0 100) = true) as Hc by (vm_compute; reflexivity).
  pose proof (below_ok 100 pad_2_ok x Hc Hx) as H. by apply bool_decide_eq_true in H.
Qed.

Lemma fmt_pad_4 x :
  1000 <= x < 10000 -> fmt_pad 32 4 x = [48 + x / 1000; 48 + x / 100 mod 10; 48 + x / 10 mod 10; 48 + x mod 10].
Proof.
  intros Hx. assert (forallb pad_4_ok (seqZ 0 9000) = true) as Hc by (vm_compute; reflexivity).
  pose proof (below_ok 9000 pad_4_ok (x - 1000) Hc ltac:(lia)) as H. apply bool_decide_eq_true in H.
  replace (1000 + (x - 1000)) with x in H by lia. exact H.
Qed.

Lemma num_digit_char d : 0 <= d < 10 -> num_digit (48 + d) = d.
Proof. intros H. unfold num_digit. rewrite (signed_small 8) by (cbn; lia). lia. Qed.

(** The names, as three bytes each. *)
Lemma week_name w : 0 <= w < 7 -> exists a b c, default [] (week !! Z.to_nat w) = [a; b; c].
Proof.
  intros H. assert (w = 0 \/ w = 1 \/ w = 2 \/ w = 3 \/ w = 4 \/ w = 5 \/ w = 6) as Hw by lia.
  destruct_or! Hw; subst w; by eexists _, _, _.
Qed.

Lemma month_name m :
  0 <= m < 12 -> exists a b c, default [] (months !! Z.to_nat m) = [a; b; c] /\
    forall l r, length l = 8%nat -> parse_month (l ++ a :: b :: c :: r) = Ret (Some m).
Proof.
  intros H. assert (m = 0 \/ m = 1 \/ m = 2 \/ m = 3 \/ m = 4 \/ m = 5 \/ m = 6 \/ m = 7 \/ m = 8 \/ m = 9 \/ m = 10 \/ m = 11) as Hm by lia.
  destruct_or! Hm; subst m; eexists _, _, _; (split; [reflexivity|]); intros l r Hl;
    do 8 (destruct l as [|? l]; [done|]); (destruct l; [|done]); reflexivity.
Qed.

(** The times whose year has four digits. *)
Lemma gmtime_year t : 0 <= t < 253402300800 -> 1970 <= tm_year (gmtime t) + 1900 < 10000.
Proof.
  intros Ht. cbn. set (z := t / 86400 + 719468). set (doe := z mod 146097).
  assert (719468 <= z < 3652365) as Hz by (unfold z; Z.to_euclidean_division_equations; lia).
  assert (z = 146097 * (z / 146097) + doe) as Ez by apply (Z.div_mod z 146097 ltac:(lia)).
  assert (0 <= doe < 146097) as Hdoe by (apply Z.mod_pos_bound; lia). destruct (era_days doe Hdoe) as [Hy Hd].
  assert (day_of_year doe = doe - (365 * year_of_era doe + year_of_era doe / 4 - year_of_era doe / 100)) as Hdoy by done.
  set (doy := day_of_year doe) in *. clearbody doy. set (yoe := year_of_era doe) in *. clearbody yoe.
  set (e := z / 146097) in *. clearbody e doe z. clear Ht t.
  assert (((if (5 * doy + 2) / 153 <? 10 then (5 * doy + 2) / 153 + 2 else (5 * doy + 2) / 153 - 10) <? 2) = (306 <=? doy)) as ->.
  { destruct (Z.leb_spec 306 doy), (Z.ltb_spec ((5 * doy + 2) / 153) 10);
      rewrite ?Z.ltb_lt, ?Z.ltb_ge; Z.to_euclidean_division_equations; lia. }
  destruct (Z.leb_spec 306 doy); Z.to_euclidean_division_equations; lia.
Qed.

Lemma mread_cons c l i : 0 < i -> mread (c :: l) i = mread l (i - 1).
Proof.
  intros H. unfold mread. rewrite (proj2 (Z.leb_le 0 i)), (proj2 (Z.leb_le 0 (i - 1))) by lia.
  replace (Z.to_nat i) with (S (Z.to_nat (i - 1))) by lia. done.
Qed.

Lemma str2_num_pad x : 0 <= x < 100 -> 10 * num_digit (48 + x / 10) + num_digit (48 + x mod 10) = x.
Proof. intros Hx. rewrite !num_digit_char by (Z.to_euclidean_division_equations; lia). Z.to_euclidean_division_equations; lia. Qed.

Lemma str4_num_pad x :
  1000 <= x < 10000 ->
  1000 * num_digit (48 + x / 1000) + 100 * num_digit (48 + x / 100 mod 10) + 10 * num_digit (48 + x / 10 mod 10) + num_digit (48 + x mod 10) = x.
Proof. intros Hx. rewrite !num_digit_char by (Z.to_euclidean_division_equations; lia). Z.to_euclidean_division_equations; lia. Qed.

(** The text, byte by byte. *)
Lemma http_date_bytes t :
  0 <= t < 253402300800 -> exists w1 w2 w3 m1 m2 m3, let x := gmtime t in let y := tm_year x + 1900 in
  http_date_text t =
    [w1; w2; w3; 44; 32; 48 + tm_mday x / 10; 48 + tm_mday x mod 10; 32; m1; m2; m3; 32;
     48 + y / 1000; 48 + y / 100 mod 10; 48 + y / 10 mod 10; 48 + y mod 10; 32;
     48 + tm_hour x / 10; 48 + tm_hour x mod 10; 58; 48 + tm_min x / 10; 48 + tm_min x mod 10; 58;
     48 + tm_sec x / 10; 48 + tm_sec x mod 10; 32; 71; 77; 84] /\
  forall l r, length l = 8%nat -> parse_month (l ++ m1 :: m2 :: m3 :: r) = Ret (Some (tm_mon x)).
Proof.
  intros Ht. destruct (gmtime_range t) as (Hm & Hd & Hh & Hi & Hs & Hw). pose proof (gmtime_year t Ht) as Hy.
  destruct (week_name _ Hw) as (w1 & w2 & w3 & Ew). destruct (month_name _ Hm) as (m1 & m2 & m3 & Em & Hp).
  exists w1, w2, w3, m1, m2, m3. split; [|exact Hp]. unfold http_date_text. rewrite Ew, Em, !fmt_pad_2, fmt_pad_4 by lia. reflexivity.
Qed.

(** C33: the date that is written for a time is read back as that time, for
    every time from the epoch to the end of the year 9999, and it has the
    length that the reader asks for. *)
Theorem http_date_roundtrip t rest :
  0 <= t < 253402300800 ->
  exists text, upsgi_http_date t = (29, text) /\ zlen text = 29 /\ parse_http_date (text ++ rest) 29 = Ret t.
Proof.
  intros Ht. destruct (http_date_bytes t Ht) as (w1 & w2 & w3 & m1 & m2 & m3 & E & Hp).
  destruct (gmtime_range t) as (Hm & Hd & Hh & Hi & Hs & Hw). pose proof (gmtime_year t Ht) as Hy.
  pose proof (timegm_gmtime t) as Et. exists (http_date_text t). unfold upsgi_http_date. rewrite E.
  split; [reflexivity|]. split; [reflexivity|]. clear E. set (x := gmtime t) in *. clearbody x. clear Ht.
  match goal with |- parse_http_date ?d _ = _ => set (mem := d) end.
  assert (upsgi_str2_num mem 5 = Ret (tm_mday x)) as E1 by (rewrite <- (str2_num_pad (tm_mday x)) by lia; reflexivity).
  assert (upsgi_str2_num mem 17 = Ret (tm_hour x)) as E2 by (rewrite <- (str2_num_pad (tm_hour x)) by lia; reflexivity).
  assert (upsgi_str2_num mem 20 = Ret (tm_min x)) as E3 by (rewrite <- (str2_num_pad (tm_min x)) by lia; reflexivity).
  assert (upsgi_str2_num mem 23 = Ret (tm_sec x)) as E4 by (rewrite <- (str2_num_pad (tm_sec x)) by lia; reflexivity).
  assert (upsgi_str4_num mem 12 = Ret (tm_year x + 1900)) as E5 by (rewrite <- (str4_num_pad (tm_year x + 1900)) by lia; reflexivity).
  assert (parse_month mem = Ret (Some (tm_mon x))) as E6
    by exact (Hp [w1; w2; w3; 44; 32; 48 + tm_mday x / 10; 48 + tm_mday x mod 10; 32] _ eq_refl).
  unfold parse_http_date. change (29 =? 29) with true. cbn [negb obind]. rewrite E1, E6. cbn [obind]. rewrite E5, E2, E3, E4. cbn [obind].
  replace (tm_year x + 1900 - 1900) with (tm_year x) by lia. rewrite <- Et. by destruct x.
Qed.

Lemma http_date_fits t : 0 <= t < 253402300800 -> upsgi_http_date t = (29, http_date_text t) /\ zlen (http_date_text t) = 29.
Proof. intros Ht. unfold upsgi_http_date. destruct (http_date_bytes t Ht) as (? & ? & ? & ? & ? & ? & -> & _). done. Qed.

Lemma http_date_roundtrip_witness :
  exists text, upsgi_http_date 784111777 = (29, text) /\ zlen text = 29 /\ parse_http_date (text ++ []) 29 = Ret 784111777.
Proof. apply (http_date_roundtrip 784111777 []). lia. Defined.

Example http_date_example : (upsgi_http_date 784111777).2 = chars "Sun, 06 Nov 1994 08:49:37 GMT".
Proof. vm_compute. reflexivity. Qed.

(** A value of another length is read as a date too if its fourth byte is a
    comma, beyond its end: the two conditions of the test are joined by
    [&&]. *)
Theorem short_date_overread : parse_http_date (chars "Sun,") 4 = Fault /\ parse_http_date (chars "Sun, 06 Nov 1994") 0 = Fault.
Proof. by vm_compute. Qed.

End HttpDate.
