(* ===== verification/Writer.v ===== *)
(** The response writer (core/writer.c): status line and headers are collected
    in a buffer, then sent in front of the body through the resumable writers
    of the protocol.

    The function pointers of the socket are the record [proto].  Each system
    call on the client socket takes one event of the script [io]; the bytes
    that reach the socket are collected in [out].  No route rules, no
    transformations and no header collectors are configured. *)
From S2P Require Import Prelude Clib Strings Buffer ProtoBase HttpDate.

Module Writer.
Import ProtoBase.

(** * Data *)

(** A call of [write], [writev] or [sendfile] and, after EAGAIN, the result of
    [upsgi_wait_write_req]. *)
Record io_event : Type := mk_io { io_result : wresult; io_wait : Z }.

(** The callbacks of [struct upsgi_socket]. *)
Record proto : Type := mk_proto {
  proto_prepare_headers : list Z -> outcome (option upsgi_buffer);
  proto_add_header : list Z -> list Z -> outcome (option upsgi_buffer);
  proto_fix_headers : bop;
  proto_write : wresult -> list Z -> Z -> outcome (Z * Z * list Z);
  has_writev : bool;
}.

(** The fields of [wsgi_request] that the writer uses. *)
Record response : Type := mk_response {
  headers : option upsgi_buffer;
  header_cnt : Z;
  rstatus : Z;
  write_errors : Z;
  headers_sent : bool;
  headers_size : Z;
  response_size : Z;
  write_pos : Z;
  ignore_body : bool;
  remove_headers : list (list Z);
  additional_headers : list (list Z);
  io : list io_event;
  out : list Z;
}.
#[export] Instance expand_response : Expand response := fun r =>
  mk_response (headers r) (header_cnt r) (rstatus r) (write_errors r) (headers_sent r) (headers_size r) (response_size r)
    (write_pos r) (ignore_body r) (remove_headers r) (additional_headers r) (io r) (out r).

(** [upsgi.response_header_limit], [upsgi.remove_headers] and
    [upsgi.additional_headers]. *)
Record writer_conf : Type := mk_writer_conf {
  response_header_limit : Z;
  conf_remove_headers : list (list Z);
  conf_additional_headers : list (list Z);
}.

(** * Status messages (core/init.c) *)

Definition hsc : list (list Z * list Z) := [
  (chars "200", chars "OK");
  (chars "302", chars "Found");
  (chars "404", chars "Not Found");
  (chars "500", chars "Internal Server Error");
  (chars "301", chars "Moved Permanently");
  (chars "304", chars "Not Modified");
  (chars "303", chars "See Other");
  (chars "403", chars "Forbidden");
  (chars "307", chars "Temporary Redirect");
  (chars "401", chars "Unauthorized");
  (chars "400", chars "Bad Request");
  (chars "405", chars "Method Not Allowed");
  (chars "408", chars "Request Timeout");
  (chars "100", chars "Continue");
  (chars "101", chars "Switching Protocols");
  (chars "103", chars "Early Hints");
  (chars "201", chars "Created");
  (chars "202", chars "Accepted");
  (chars "203", chars "Non-Authoritative Information");
  (chars "204", chars "No Content");
  (chars "205", chars "Reset Content");
  (chars "206", chars "Partial Content");
  (chars "300", chars "Multiple Choices");
  (chars "305", chars "Use Proxy");
  (chars "402", chars "Payment Required");
  (chars "406", chars "Not Acceptable");
  (chars "407", chars "Proxy Authentication Required");
  (chars "409", chars "Conflict");
  (chars "410", chars "Gone");
  (chars "411", chars "Length Required");
  (chars "412", chars "Precondition Failed");
  (chars "413", chars "Request Entity Too Large");
  (chars "414", chars "Request-URI Too Long");
  (chars "415", chars "Unsupported Media Type");
  (chars "416", chars "Requested Range Not Satisfiable");
  (chars "417", chars "Expectation Failed");
  (chars "418", chars "I'm a teapot");
  (chars "422", chars "Unprocessable Entity");
  (chars "425", chars "Too Early");
  (chars "426", chars "Upgrade Required");
  (chars "428", chars "Precondition Required");
  (chars "429", chars "Too Many Requests");
  (chars "431", chars "Request Header Fields Too Large");
  (chars "451", chars "Unavailable For Legal Reasons");
  (chars "501", chars "Not Implemented");
  (chars "502", chars "Bad Gateway");
  (chars "503", chars "Service Unavailable");
  (chars "504", chars "Gateway Timeout");
  (chars "505", chars "HTTP Version Not Supported");
  (chars "509", chars "Bandwidth Limit Exceeded");
  (chars "511", chars "Network Authentication Required")].

(** [status] has at least three bytes. *)
Definition upsgi_http_status_msg (status : list Z) : option (list Z) :=
  snd <$> find (fun kv => bytes_eqb kv.1 (ztake 3 status)) hsc.

(** * Building the head *)

Section writer.
Context (env : heap_env) (P : proto) (wc : writer_conf).

Definition fail (r : response) : Z * response := (-1, r<|write_errors := u64 (r.(write_errors) + 1)|>).

(** The first test of [upsgi_response_prepare_headers] and
    [upsgi_response_add_header]. *)
Definition head_closed (r : response) : bool :=
  r.(headers_sent) || negb (r.(headers_size) =? 0) || negb (r.(response_size) =? 0) || negb (r.(write_errors) =? 0).

(** [wsgi_req->headers], allocated by the first use. *)
Definition header_buffer (r : response) : outcome upsgi_buffer :=
  match r.(headers) with
  | Some h => Ret h
  | None => let* h := upsgi_buffer_new env env.(page_size) in Ret (h<|limit := wc.(response_header_limit)|>)
  end.

Definition upsgi_str3_num (str : list Z) : outcome Z :=
  let* a := mread str 0 in let* b := mread str 1 in let* c := mread str 2 in
  Ret (100 * (i8 a - 48) + 10 * (i8 b - 48) + (i8 c - 48)).

(** What the protocol has built goes to the buffer [h]. *)
Definition append_built (hh : option upsgi_buffer) (h : upsgi_buffer) (count : Z) (r : response) : outcome (Z * response) :=
  match hh with
  | None => Ret (fail (r<|headers := Some h|>))
  | Some hh =>
      let* (ret, h) := upsgi_buffer_append env (contents hh) h in
      let r := r<|headers := Some h|> in
      if ret =? 0 then Ret (0, r<|header_cnt := u16 (r.(header_cnt) + count)|>) else Ret (fail r)
  end.

Definition upsgi_response_prepare_headers (status : list Z) (r : response) : outcome (Z * response) :=
  if head_closed r || (zlen status <? 3) then Ret (-1, r)
  else
    let* h := header_buffer r in
    (* reset the buffer (could be useful for rollbacks...) *)
    let h := h<|pos := 0|> in
    let r := r<|headers := Some h|><|header_cnt := 0|> in
    let* st := upsgi_str3_num status in
    let r := r<|rstatus := st|> in
    let* hh :=
      if zlen status <=? 4 then
        proto_prepare_headers P
          (ztake 3 status ++ match upsgi_http_status_msg status with Some sc => chars " " ++ sc | None => chars " Unknown" end)
      else proto_prepare_headers P status in
    append_built hh h 0 r.

Definition upsgi_response_add_header_do (key value : list Z) (r : response) : outcome (Z * response) :=
  let* h := header_buffer r in
  let* hh := proto_add_header P key value in
  append_built hh h 1 r.

Definition upsgi_response_add_header (key value : list Z) (r : response) : outcome (Z * response) :=
  if head_closed r then Ret (-1, r)
  else if existsb (upsgi_strnicmp key) wc.(conf_remove_headers) then Ret (0, r)
  else if existsb (upsgi_strnicmp key) r.(remove_headers) then Ret (0, r)
  else upsgi_response_add_header_do key value r.

Definition upsgi_response_add_header_force (key value : list Z) (r : response) : outcome (Z * response) :=
  if head_closed r then Ret (-1, r) else upsgi_response_add_header_do key value r.

Definition upsgi_response_add_content_length (cl : Z) (r : response) : outcome (Z * response) :=
  upsgi_response_add_header (chars "Content-Length") (digits 10 cl) r.

(** [INT64_MIN <= start, end, cl <= INT64_MAX]: the text fits the array. *)
Definition upsgi_response_add_content_range (start end_ cl : Z) (r : response) : outcome (Z * response) :=
  if (start =? -1) && (end_ =? -1) && (0 <=? cl) then
    upsgi_response_add_header (chars "Content-Range") (chars "bytes */" ++ fmt_d cl) r
  else if (start <? 0) || (end_ <? start) || (cl <=? end_) then Ret (fail r)
  else upsgi_response_add_header (chars "Content-Range") (chars "bytes " ++ fmt_d start ++ chars "-" ++ fmt_d end_ ++ chars "/" ++ fmt_d cl) r.

Definition upsgi_response_add_content_type (ct : list Z) (r : response) : outcome (Z * response) :=
  upsgi_response_add_header (chars "Content-Type") ct r.

(** The array [expires] has 31 bytes: what [upsgi_http_date] stores. *)
Definition upsgi_response_add_date (hkey : list Z) (t : Z) (r : response) : outcome (Z * response) :=
  let (len, d) := HttpDate.upsgi_http_date (i64 t) in
  if len =? 0 then Ret (fail r)
  else let* d := mslice (d ++ [0]) 0 len in upsgi_response_add_header hkey d r.
Definition upsgi_response_add_expires (t : Z) : response -> outcome (Z * response) := upsgi_response_add_date (chars "Expires") t.
Definition upsgi_response_add_last_modified (t : Z) : response -> outcome (Z * response) := upsgi_response_add_date (chars "Last-Modified") t.

Definition upsgi_response_prepare_headers_int (status : Z) (r : response) : outcome (Z * response) :=
  let* s := mslice (fmt_d status ++ [0]) 0 3 in upsgi_response_prepare_headers s r.

(** * Sending *)

(** The socket takes what it accepts of what it is given. *)
Definition kernel (room : Z) (res : wresult) : wresult :=
  match res with Wrote n => Wrote (Z.min n room) | WAgain => WAgain | WError => WError end.

(** The loop around a call of the protocol, given by its result for an event:
    the answer, the new [write_pos] and the bytes that are written.  The
    script running out is [NoFuel]. *)
Fixpoint write_loop (call : wresult -> Z -> outcome (Z * Z * list Z)) (evs : list io_event) (r : response) : outcome (Z * response) :=
  match evs with
  | [] => NoFuel
  | e :: evs =>
      let* (ret, wp, sent) := call e.(io_result) r.(write_pos) in
      let r := r<|write_pos := wp|><|out := r.(out) ++ sent|><|io := evs|> in
      if ret <? 0 then Ret (fail r)
      else if ret =? UPSGI_OK then Ret (UPSGI_OK, r)
      else match e.(io_result) with
           | WAgain => if e.(io_wait) <=? 0 then Ret (fail r) else write_loop call evs r
           | _ => write_loop call evs r
           end
  end.

Definition write_all (buf : list Z) (r : response) : outcome (Z * response) :=
  write_loop (fun res wp => proto_write P (kernel (zlen buf - wp) res) buf wp) r.(io) r.

(** The loops over the additional headers. *)
Fixpoint add_headers (l : list (list Z)) (r : response) : outcome (Z * response) :=
  match l with
  | [] => Ret (0, r)
  | v :: l => let* (ret, r) := upsgi_response_add_header [] v r in
              if negb (ret =? 0) then Ret (-1, r) else add_headers l r
  end.

Definition upsgi_response_write_headers_do0 (r : response) : outcome (Z * response) :=
  match r.(headers) with
  | None => Ret (UPSGI_OK, r)
  | Some _ =>
      if r.(headers_sent) || negb (r.(response_size) =? 0) || negb (r.(write_errors) =? 0) then Ret (UPSGI_OK, r)
      else
        let* (ret, r) := add_headers wc.(conf_additional_headers) r in
        if negb (ret =? 0) then Ret (-1, r)
        else
          let* (ret, r) := add_headers r.(additional_headers) r in
          if negb (ret =? 0) then Ret (-1, r)
          else
            let* h := header_buffer r in
            let* (ret, h) := proto_fix_headers P h in
            let r := r<|headers := Some h|> in
            if negb (ret =? 0) then Ret (fail r) else Ret (UPSGI_AGAIN, r)
  end.

Definition header_bytes (r : response) : list Z := match r.(headers) with Some h => contents h | None => [] end.

Definition upsgi_response_write_headers_do (r : response) : outcome (Z * response) :=
  let* (ret, r) := upsgi_response_write_headers_do0 r in
  if negb (ret =? UPSGI_AGAIN) then Ret (ret, r)
  else
    let* (ret, r) := write_all (header_bytes r) r in
    if ret <? 0 then Ret (-1, r)
    else
      let r := r<|headers_size := u64 (r.(headers_size) + r.(write_pos))|> in
      (* reset for the next write *)
      Ret (UPSGI_OK, r<|write_pos := 0|><|headers_sent := true|>).

(** The end of a body: [response_size += write_pos]. *)
Definition body_done (r : response) : Z * response :=
  (UPSGI_OK, r<|response_size := u64 (r.(response_size) + r.(write_pos))|><|write_pos := 0|>).

Definition write_body (buf : list Z) (r : response) : outcome (Z * response) :=
  let* (ret, r) := write_all buf r in
  if ret <? 0 then Ret (-1, r) else Ret (body_done r).

(** The loop over [writev] of the headers and the body: [iov] and [iov_len]
    as the call updates them; with a single vector left the loop goes on with
    [write] ([fallback]). *)
Fixpoint writev_loop (evs : list io_event) (iov : list (list Z)) (iov_len len : Z) (r : response) : outcome (Z * response) :=
  if iov_len =? 1 then
    (* no need to use writev if a single iovec remains; update counters *)
    let pos := zlen (header_bytes r) in
    let r := r<|headers_size := u64 (r.(headers_size) + pos)|><|headers_sent := true|> in
    let r := r<|response_size := u64 (r.(response_size) + (r.(write_pos) - r.(headers_size)))|><|write_pos := 0|><|io := evs|> in
    write_body (default [] (head iov)) r
  else
    match evs with
    | [] => NoFuel
    | e :: evs =>
        let all := concat (ztake iov_len iov) in
        let res := kernel (zlen all) e.(io_result) in
        let sent := match res with Wrote n => ztake n all | _ => [] end in
        let '(ret, iov, iov_len, wp) := upsgi_proto_base_writev res iov iov_len r.(write_pos) in
        let r := r<|write_pos := wp|><|out := r.(out) ++ sent|><|io := evs|> in
        if ret <? 0 then Ret (fail r)
        else if ret =? UPSGI_OK then
          let r := r<|headers_size := u64 (r.(headers_size) + zlen (header_bytes r))|> in
          Ret (UPSGI_OK, r<|response_size := u64 (r.(response_size) + len)|><|headers_sent := true|><|write_pos := 0|>)
        else match e.(io_result) with
             | WAgain => if e.(io_wait) <=? 0 then Ret (fail r) else writev_loop evs iov iov_len len r
             | _ => writev_loop evs iov iov_len len r
             end
    end.

Definition upsgi_response_writev_headers_and_body_do (buf : list Z) (r : response) : outcome (Z * response) :=
  let* (ret, r) := upsgi_response_write_headers_do0 r in
  if negb (ret =? UPSGI_AGAIN) then Ret (ret, r)
  else writev_loop r.(io) [header_bytes r; buf] 2 (zlen buf) r.

Definition send_body (buf : list Z) (r : response) : outcome (Z * response) :=
  if zlen buf =? 0 then Ret (UPSGI_OK, r) else write_body buf r.

(** The headers in front of a body: the body is sent unless the result is an
    error ([UPSGI_AGAIN] is not a result of [upsgi_response_write_headers_do]). *)
Definition after_headers (send : response -> outcome (Z * response)) (r : response) : outcome (Z * response) :=
  if r.(headers_sent) then send r
  else
    let* (ret, r) := upsgi_response_write_headers_do r in
    if ret =? UPSGI_OK then send r
    else if ret =? UPSGI_AGAIN then Ret (UPSGI_AGAIN, r)
    else Ret (fail r).

Definition upsgi_response_write_body_do (buf : list Z) (r : response) : outcome (Z * response) :=
  if negb (r.(write_errors) =? 0) then Ret (-1, r)
  else if r.(ignore_body) then Ret (UPSGI_OK, r)
  else if negb r.(headers_sent) && has_writev P && (0 <? zlen buf) && negb (bool_decide (r.(headers) = None))
  then upsgi_response_writev_headers_and_body_do buf r
  else after_headers (send_body buf) r.

(** [goto fallback] of [upsgi_response_writev_body_do]: the vectors one by
    one; [write_pos] is not reset between them. *)
Fixpoint write_vectors (iov : list (list Z)) (r : response) : outcome (Z * response) :=
  match iov with
  | [] => Ret (body_done r)
  | v :: iov => let* (ret, r) := write_all v r in if ret <? 0 then Ret (-1, r) else write_vectors iov r
  end.

(** The loop over [writev] of a body. *)
Fixpoint writev_body_loop (evs : list io_event) (iov : list (list Z)) (iov_len : Z) (r : response) : outcome (Z * response) :=
  match evs with
  | [] => NoFuel
  | e :: evs =>
      let all := concat (ztake iov_len iov) in
      let res := kernel (zlen all) e.(io_result) in
      let sent := match res with Wrote n => ztake n all | _ => [] end in
      let '(ret, iov, iov_len, wp) := upsgi_proto_base_writev res iov iov_len r.(write_pos) in
      let r := r<|write_pos := wp|><|out := r.(out) ++ sent|><|io := evs|> in
      if ret <? 0 then Ret (fail r)
      else if ret =? UPSGI_OK then Ret (body_done r)
      else match e.(io_result) with
           | WAgain => if e.(io_wait) <=? 0 then Ret (fail r) else writev_body_loop evs iov iov_len r
           | _ => writev_body_loop evs iov iov_len r
           end
  end.

Definition upsgi_response_writev_body_do (iov : list (list Z)) (r : response) : outcome (Z * response) :=
  if negb (r.(write_errors) =? 0) then Ret (-1, r)
  else if r.(ignore_body) then Ret (UPSGI_OK, r)
  else after_headers (fun r =>
    match iov with
    | [] => Ret (UPSGI_OK, r)
    | _ => if has_writev P then writev_body_loop r.(io) iov (zlen iov) r else write_vectors iov r
    end) r.

(** [file]: the bytes of the open file; the socket does not offload. *)
Definition send_file (file : list Z) (pos len : Z) (r : response) : outcome (Z * response) :=
  if (len =? 0) && (zlen file <=? pos) then Ret (UPSGI_OK, r)
  else
    let len := if len =? 0 then zlen file else len in
    let* (ret, r) := write_loop (fun res wp => upsgi_proto_base_sendfile (kernel (Z.min (len - wp) (zlen file - (pos + wp))) res) file pos len wp) r.(io) r in
    if ret <? 0 then Ret (-1, r) else Ret (body_done r).

Definition upsgi_response_sendfile_do (file : list Z) (pos len : Z) (r : response) : outcome (Z * response) :=
  if negb (r.(write_errors) =? 0) then Ret (-1, r)
  else if r.(ignore_body) then Ret (UPSGI_OK, r)
  else after_headers (send_file file pos len) r.

(** [upsgi_simple_write]; [write_pos] keeps the bytes it has written. *)
Definition upsgi_simple_write (buf : list Z) (r : response) : outcome (Z * response) :=
  let* (ret, r) := write_all buf (r<|write_pos := 0|>) in
  if ret <? 0 then Ret (-1, r) else Ret (0, r).

End writer.

(** * The base protocol *)

(** The callbacks of the HTTP socket ([cgi_mode] and [wsgi_req->protocol] are
    those of the request). *)
Definition base_proto (env : heap_env) (cgi_mode : Z) (protocol : list Z) : proto :=
  mk_proto (upsgi_proto_base_prepare_headers env cgi_mode protocol) (upsgi_proto_base_add_header env)
    (upsgi_proto_base_fix_headers env) upsgi_proto_base_write true.

End Writer.
