(* ===== verification/WriterProofs.v ===== *)
(** The response writer puts exactly the status line, the headers and the body
    on the wire, whatever the socket accepts at a time: the contract of the
    protocol callbacks, the loops, and the whole response. *)
From S2P Require Import Prelude Clib Strings Buffer ProtoBase Writer.

Module WriterProofs.
Import ProtoBase Writer.

(** * Outcomes *)

(** What holds of the result, and when the script of the socket may run out;
    a failed allocation ends the process. *)
Definition spec {A} (o : outcome A) (Q : A -> Prop) (stuck : Prop) : Prop :=
  match o with Ret a => Q a | NoFuel => stuck | Exited => True | Fault => False end.

Lemma spec_bind {A B} (o : outcome A) (f : A -> outcome B) Q (stuck stuck' : Prop) :
  spec o (fun a => spec (f a) Q stuck) stuck' -> (stuck' -> stuck) -> spec (obind o f) Q stuck.
Proof. by destruct o; cbn; auto. Qed.

Lemma spec_weaken {A} (o : outcome A) (Q Q' : A -> Prop) (stuck stuck' : Prop) :
  spec o Q stuck -> (forall a, Q a -> Q' a) -> (stuck -> stuck') -> spec o Q' stuck'.
Proof. destruct o; cbn; auto. Qed.

(** * The contract of the protocol *)

(** One call writes the next part of [data]; what the socket accepts moves it
    on. *)
Definition step_ok (data : list Z) (call : wresult -> Z -> outcome (Z * Z * list Z)) : Prop :=
  forall res wp, 0 <= wp < zlen data -> exists ret wp', call res wp = Ret (ret, wp', ztake (wp' - wp) (zdrop wp data)) /\
    wp <= wp' <= zlen data /\ (ret = UPSGI_OK /\ wp' = zlen data \/ ret = UPSGI_AGAIN /\ wp' < zlen data \/ ret = -1) /\
    (forall n, res = Wrote n -> 0 < n -> wp < wp' /\ ret <> -1) /\ (res = WAgain -> ret = UPSGI_AGAIN).

Definition crlf : list Z := [CR; LF].
Definition header_line (key value : list Z) : list Z :=
  if 0 <? zlen key then key ++ chars ": " ++ value ++ crlf else value ++ crlf.

Class ProtoOk (P : proto) (status_line : list Z -> list Z) : Prop := {
  po_prepare : forall s, zlen s < 2 ^ 20 ->
    spec (proto_prepare_headers P s) (fun hh => forall b, hh = Some b -> contents b = status_line s) False;
  po_add : forall k v, zlen k < 2 ^ 60 -> zlen v < 2 ^ 60 ->
    spec (proto_add_header P k v) (fun hh => forall b, hh = Some b -> contents b = header_line k v) False;
  po_fix : Appends (proto_fix_headers P) crlf;
  po_write : forall data, zlen data < 2 ^ 63 -> step_ok data (fun res wp => proto_write P (kernel (zlen data - wp) res) data wp);
}.

(** ** The base protocol *)

Lemma base_write_ok data : zlen data < 2 ^ 63 -> step_ok data (fun res wp => upsgi_proto_base_write (kernel (zlen data - wp) res) data wp).
Proof.
  intros Hd res wp Hwp. destruct res as [n| |]; cbn [kernel upsgi_proto_base_write].
  - destruct (Z.ltb_spec 0 (Z.min n (zlen data - wp))) as [Hn|Hn].
    + rewrite mslice_ok by lia. cbn [obind]. rewrite wrap_small by lia. eexists _, _.
      replace (wp + Z.min n (zlen data - wp) - wp) with (Z.min n (zlen data - wp)) by lia.
      split; [reflexivity|]. destruct (Z.eqb_spec (wp + Z.min n (zlen data - wp)) (zlen data)).
      * split_and!; [lia | lia | by left | | done]. intros n' [= <-] ?. split; [lia | done].
      * split_and!; [lia | lia | right; left; split; [done | lia] | | done]. intros n' [= <-] ?. split; [lia | done].
    + exists (-1), wp. rewrite Z.sub_diag, ztake_0. split_and!; [done | lia | lia | by right; right | | done]. intros n' [= <-] ?. lia.
  - exists UPSGI_AGAIN, wp. rewrite Z.sub_diag, ztake_0. split_and!; [done | lia | lia | right; left; split; [done | lia] | done | done].
  - exists (-1), wp. rewrite Z.sub_diag, ztake_0. split_and!; [done | lia | lia | by right; right | done | done].
Qed.

(** A chain of appends to a new buffer. *)
Lemma finish_spec env n (f : bop) bs :
  EnvOk env -> Appends f bs -> 0 <= n < 2 ^ 62 ->
  spec (let* ub := upsgi_buffer_new env n in finish (f ub)) (fun hh => forall b, hh = Some b -> contents b = bs) False.
Proof.
  intros Henv Hf Hn. assert (forall ub, buffer_ok ub -> contents ub = [] ->
    spec (finish (f ub)) (fun hh => forall b, hh = Some b -> contents b = bs) False) as Hrun.
  { intros ub Hok Hc. destruct (Hf ub Hok) as (r & ub' & -> & [_ _ _ _ Hr]). unfold finish. cbn.
    destruct Hr as [[-> Hr]|[-> _]]; cbn; intros b; [intros [= <-]; by rewrite Hr, Hc | done]. }
  unfold upsgi_buffer_new. destruct (Z.eqb_spec n 0) as [->|Hn0]; cbn [obind].
  - apply Hrun; [by split | done].
  - unfold malloc. destruct (alloc_ok env n) eqn:Ea; [|done]. cbn [obind]. apply Hrun; [|done].
    unfold alloc_ok in Ea. apply andb_true_iff in Ea as [Ea%Z.ltb_lt _].
    split; cbn; try lia. unfold zrep, zlen. rewrite length_replicate. lia.
Qed.

Definition base_status_line (cgi_mode : Z) (protocol s : list Z) : list Z :=
  (if cgi_mode =? 0 then (if negb (zlen protocol =? 0) then protocol else chars "HTTP/1.0") ++ chars " " else chars "Status: ") ++ s ++ crlf.

#[export] Instance base_proto_ok env cgi_mode protocol :
  EnvOk env -> zlen protocol < 2 ^ 16 -> ProtoOk (base_proto env cgi_mode protocol) (base_status_line cgi_mode protocol).
Proof.
  intros Henv Hp. split; cbn [base_proto proto_prepare_headers proto_add_header proto_fix_headers proto_write].
  - intros s Hs. unfold upsgi_proto_base_prepare_headers, base_status_line. zlen_facts.
    destruct (cgi_mode =? 0); [destruct (negb (zlen protocol =? 0))|].
    + rewrite <- app_assoc. apply finish_spec; [done | | lia]. repeat (apply seq_Appends; [apply append_Appends; [done | first [lia | done]]|]). by apply append_Appends.
    + rewrite <- app_assoc. apply finish_spec; [done | | lia]. change (chars "HTTP/1.0" ++ chars " " ++ s ++ crlf) with (chars "HTTP/1.0 " ++ s ++ crlf).
      repeat (apply seq_Appends; [apply append_Appends; [done | first [lia | done]]|]). by apply append_Appends.
    + apply finish_spec; [done | | lia]. repeat (apply seq_Appends; [apply append_Appends; [done | first [lia | done]]|]). by apply append_Appends.
  - intros k v Hk Hv. unfold upsgi_proto_base_add_header, header_line. zlen_facts. destruct (0 <? zlen k).
    + apply finish_spec; [done | | lia]. repeat (apply seq_Appends; [apply append_Appends; [done | first [lia | done]]|]). by apply append_Appends.
    + apply finish_spec; [done | | lia]. repeat (apply seq_Appends; [apply append_Appends; [done | first [lia | done]]|]). by apply append_Appends.
  - by apply append_Appends.
  - apply base_write_ok.
Qed.

(** * The loops *)

Definition accepting (e : io_event) : bool := match io_result e with Wrote n => 0 <? n | _ => false end.
Definition accepts (evs : list io_event) : Z := zlen (filter (fun e => accepting e = true) evs).

Lemma accepts_cons e evs : accepts (e :: evs) = (if accepting e then 1 else 0) + accepts evs.
Proof. unfold accepts. rewrite filter_cons. destruct (accepting e); [rewrite decide_True by done; by rewrite zlen_cons | by rewrite decide_False by done]. Qed.

(** What a loop over the calls for [data] may do to the response. *)
Definition progressed (data : list Z) (r r' : response) (wp : Z) : Prop :=
  exists evs, r' = r<|write_pos := wp|><|out := out r ++ ztake (wp - write_pos r) (zdrop (write_pos r) data)|><|io := evs|> /\
    accepts (io r) <= accepts evs + (wp - write_pos r).

Lemma ztake_extend_from {A} a b c (l : list A) :
  0 <= a <= b -> b <= c -> ztake (b - a) (zdrop a l) ++ ztake (c - b) (zdrop b l) = ztake (c - a) (zdrop a l).
Proof.
  intros H1 H2. replace (zdrop b l) with (zdrop (b - a) (zdrop a l)) by (rewrite zdrop_zdrop by lia; f_equal; lia).
  replace (c - b) with ((c - a) - (b - a)) by lia. apply ztake_extend. lia.
Qed.

Lemma write_loop_spec data call r :
  step_ok data call -> 0 <= write_pos r < zlen data ->
  spec (write_loop call (io r) r)
    (fun '(ret, r') => exists r1 wp, progressed data r r1 wp /\ write_pos r <= wp <= zlen data /\
       (ret = UPSGI_OK /\ wp = zlen data /\ r' = r1 \/ ret = -1 /\ (ret, r') = fail r1))
    (accepts (io r) < zlen data - write_pos r).
Proof.
  intros Hc. remember (io r) as evs eqn:Eio. symmetry in Eio. revert r Eio.
  induction evs as [|e evs IH]; intros r Eio Hwp; [cbn; change (accepts []) with 0; lia|].
  cbn [write_loop]. destruct (Hc (io_result e) (write_pos r) Hwp) as (ret & wp & -> & Hle & Hret & Hacc & Hag). cbn [obind].
  set (r1 := r<|write_pos := wp|><|out := _|><|io := evs|>).
  assert (accepting e = true -> write_pos r < wp) as Hmove.
  { unfold accepting. destruct (io_result e) as [n| |] eqn:En; try done. intros Ea%Z.ltb_lt. apply (Hacc n eq_refl Ea). }
  assert (progressed data r r1 wp) as Hp.
  { exists evs. split; [done|]. rewrite Eio, accepts_cons. destruct (accepting e); [specialize (Hmove eq_refl) | clear Hmove]; lia. }
  rewrite accepts_cons.
  assert (ret = UPSGI_AGAIN -> spec (write_loop call evs r1) (fun '(ret, r') => exists r1 wp, progressed data r r1 wp /\ write_pos r <= wp <= zlen data /\
       (ret = UPSGI_OK /\ wp = zlen data /\ r' = r1 \/ ret = -1 /\ (ret, r') = fail r1))
       ((if accepting e then 1 else 0) + accepts evs < zlen data - write_pos r)) as Hgo.
  { intros ->. destruct Hret as [[? _]|[[_ Hlt]|?]]; try done. eapply spec_weaken; [apply (IH r1); [done | cbn; lia] | |].
    - intros [ret r'] (r2 & wp2 & (evs2 & -> & Hev) & Hwp2 & Hr). cbn in Hwp2, Hev. eexists _, wp2. split; [|split; [lia | exact Hr]].
      exists evs2. split.
      + cbn. unfold setter. cbn. f_equal. rewrite <- app_assoc. f_equal. rewrite ztake_extend_from by lia. done.
      + rewrite Eio, accepts_cons. destruct (accepting e); [specialize (Hmove eq_refl) | clear Hmove]; lia.
    - cbn. intros Hacc2. destruct (accepting e); [specialize (Hmove eq_refl) | clear Hmove]; lia. }
  change UPSGI_OK with 0 in *. change UPSGI_AGAIN with 1 in *.
  destruct Hret as [[-> Hend]|[[-> Hlt]| -> ]]; cbn [Z.ltb Z.compare Z.eqb].
  - exists r1, wp. split; [done|]. split; [lia|]. by left.
  - destruct (io_result e); [by apply Hgo | | by apply Hgo]. destruct (io_wait e <=? 0); [|by apply Hgo].
    exists r1, wp. split; [done|]. split; [lia|]. by right.
  - exists r1, wp. split; [done|]. split; [lia|]. by right.
Qed.

(** A response after an error: every later call fails. *)
Definition failed (n : Z) (r : response) : Prop := 1 <= write_errors r <= n.

Lemma fail_failed n r : 0 <= n < 2 ^ 63 -> 0 <= write_errors r <= n -> failed (n + 1) (snd (fail r)).
Proof. intros Hn H. unfold failed, fail. cbn. rewrite wrap_small by lia. lia. Qed.

Lemma failed_weaken n m r : n <= m -> failed n r -> failed m r.
Proof. unfold failed. lia. Qed.

(** The error branch of a result. *)
Ltac fails :=
  right; split; [done|];
  first [ done | by (eapply failed_weaken; [|eassumption]; lia)
        | unfold failed; cbn; repeat match goal with H : write_errors _ = 0 |- _ => rewrite H end; by vm_compute ].

(** A response that has no error, and what a step adds to the wire. *)
Definition ready (r : response) : Prop := write_errors r = 0 /\ ignore_body r = false /\ write_pos r = 0.

(** The result of a call: on success all of [data] is on the wire, after an
    error a part of it, and nothing else. *)
Definition emits (data : list Z) (r : response) (ret : Z) (r' : response) : Prop :=
  exists sent, out r' = out r ++ sent /\ sent `prefix_of` data /\ (ret = UPSGI_OK /\ sent = data \/ ret = -1 /\ failed 2 r').

Lemma progressed_out data r r1 wp :
  progressed data r r1 wp -> write_pos r = 0 -> 0 <= wp -> out r1 = out r ++ ztake wp data.
Proof. intros (evs & -> & _) H0 Hwp. cbn. by rewrite H0, Z.sub_0_r, zdrop_0. Qed.

Lemma ztake_prefix {A} n (l : list A) : ztake n l `prefix_of` l.
Proof. exists (zdrop n l). by rewrite ztake_zdrop. Qed.

Section writer.
Context (env : heap_env) (P : proto) (wc : writer_conf) (status_line : list Z -> list Z).
Context `{HEnv : EnvOk env} `{HP : ProtoOk P status_line}.

Lemma write_all_spec data r :
  ready r -> 0 < zlen data < 2 ^ 63 ->
  spec (write_all P data r)
    (fun '(ret, r') => exists r1 wp, progressed data r r1 wp /\ 0 <= wp <= zlen data /\
       (ret = UPSGI_OK /\ wp = zlen data /\ r' = r1 \/ ret = -1 /\ (ret, r') = fail r1))
    (accepts (io r) < zlen data).
Proof.
  intros (_ & _ & Hwp) Hd. unfold write_all. eapply spec_weaken; [apply (write_loop_spec data) | |].
  - apply po_write; lia.
  - lia.
  - intros [ret r'] (r1 & wp & H1 & H2 & H3). exists r1, wp. rewrite Hwp in H2. done.
  - rewrite Hwp. lia.
Qed.

(** ** The body *)

Definition body_sent (data : list Z) (r r' : response) : Prop :=
  ready r' /\ headers_sent r' = headers_sent r /\ headers_size r' = headers_size r /\ response_size r' = u64 (response_size r + zlen data).

Lemma write_body_spec data r :
  ready r -> 0 < zlen data < 2 ^ 63 ->
  spec (write_body P data r)
    (fun '(ret, r') => emits data r ret r' /\ (ret = UPSGI_OK -> body_sent data r r'))
    (accepts (io r) < zlen data).
Proof.
  intros Hr Hd. unfold write_body. eapply spec_bind; [|exact id].
  eapply spec_weaken; [by apply write_all_spec | | done]. intros [ret r'] (r1 & wp & Hp & Hwp & Hret).
  pose proof (progressed_out _ _ _ _ Hp (proj2 (proj2 Hr)) (proj1 Hwp)) as Hout. destruct Hp as (evs & -> & Hev). destruct Hr as (Hr1 & Hr2 & Hr3).
  destruct Hret as [(-> & -> & ->)|(-> & E)].
  - rewrite (ztake_all data (zlen data)) in Hout by lia. split.
    + exists data. split; [exact Hout|]. split; [done|]. by left.
    + intros _. split_and!; done.
  - apply (f_equal snd) in E. cbn [snd] in E. subst r'. cbn. split; [|done].
    exists (ztake wp data). split; [exact Hout|]. split; [apply ztake_prefix|]. fails.
Qed.

(** ** The head *)

Record fresh (r : response) : Prop := {
  fr_ready : ready r;
  fr_sent : headers_sent r = false;
  fr_size : headers_size r = 0;
  fr_body : response_size r = 0;
  fr_buffer : exists h, headers r = Some h /\ buffer_ok h;
}.

(** A call that adds to the head: nothing goes to the wire yet. *)
Definition head_step (text : list Z) (r : response) (ret : Z) (r' : response) : Prop :=
  out r' = out r /\ io r' = io r /\ remove_headers r' = remove_headers r /\ additional_headers r' = additional_headers r /\
  (ret = 0 /\ fresh r' /\ header_bytes r' = header_bytes r ++ text \/ ret = -1 /\ failed 1 r').

Lemma fresh_open r : fresh r -> head_closed r = false.
Proof. intros [(H1 & _ & _) H2 H3 H4 _]. unfold head_closed. by rewrite H1, H2, H3, H4. Qed.

Lemma append_built_step hh h text cnt r :
  fresh r -> headers r = Some h -> zlen text < 2 ^ 63 -> (forall b, hh = Some b -> contents b = text) ->
  spec (append_built env hh h cnt r) (fun '(ret, r') => head_step text r ret r') False.
Proof.
  intros Hf Hh Hz Hc. destruct Hf as [(F1 & F2 & F3) F4 F5 F6 (h0 & Hh0 & Hok)]. rewrite Hh in Hh0. injection Hh0 as <-.
  unfold append_built. destruct hh as [b|]; cbn.
  - rewrite (Hc b eq_refl). destruct (append_cases env text h HEnv Hz Hok) as (ret & h' & -> & Hok' & _ & Hr). cbn [obind].
    destruct Hr as [[-> Hcont]|[-> ->]]; cbn.
    + split_and!; try done. left. split; [done|]. split; [split; try done; by exists h'|]. cbn. unfold header_bytes. cbn. by rewrite Hh, Hcont.
    + split_and!; try done. fails.
  - split_and!; try done. fails.
Qed.

(** Is the header dropped? *)
Definition removed (key : list Z) (r : response) : bool :=
  existsb (upsgi_strnicmp key) (conf_remove_headers wc) || existsb (upsgi_strnicmp key) (remove_headers r).

Lemma add_header_step key value r :
  fresh r -> zlen key < 2 ^ 60 -> zlen value < 2 ^ 60 ->
  spec (upsgi_response_add_header env P wc key value r)
    (fun '(ret, r') => head_step (if removed key r then [] else header_line key value) r ret r') False.
Proof.
  intros Hf Hk Hv. unfold upsgi_response_add_header. rewrite fresh_open by done. unfold removed.
  assert (head_step [] r 0 r) as Hno by (split_and!; try done; left; split; [done|]; split; [done|]; by rewrite app_nil_r).
  destruct (existsb (upsgi_strnicmp key) (conf_remove_headers wc)); [done|].
  destruct (existsb (upsgi_strnicmp key) (remove_headers r)); [done|]. cbn [orb].
  unfold upsgi_response_add_header_do, header_buffer. destruct (fr_buffer r Hf) as (h & Hh & Hok). rewrite Hh. cbn [obind].
  eapply spec_bind; [|exact id]. eapply spec_weaken; [by apply po_add | | done]. intros hh Hhh.
  apply append_built_step; [done | done | | done].
  unfold header_line. zlen_facts. destruct (0 <? zlen key); rewrite !zlen_app; change (zlen crlf) with 2; change (zlen (chars ": ")) with 2; lia.
Qed.

Lemma head_step_trans a b r ret1 r1 ret2 r2 :
  head_step a r ret1 r1 -> ret1 = 0 -> head_step b r1 ret2 r2 -> head_step (a ++ b) r ret2 r2.
Proof.
  intros (A1 & A2 & A3 & A4 & A5) -> (B1 & B2 & B3 & B4 & B5). split_and!; try congruence.
  destruct A5 as [(_ & _ & A)|[? _]]; [|done]. destruct B5 as [(-> & Hf & B)|[-> B]]; [left | fails].
  split; [done|]. split; [done|]. by rewrite B, A, app_assoc.
Qed.

Definition lines (r : response) (l : list (list Z)) : list Z :=
  if removed [] r then [] else concat (header_line [] <$> l).

Lemma add_headers_step l r :
  fresh r -> Forall (fun v => zlen v < 2 ^ 60) l ->
  spec (add_headers env P wc l r) (fun '(ret, r') => head_step (lines r l) r ret r') False.
Proof.
  intros Hf Hl. revert r Hf. induction Hl as [|v l Hv Hl IH]; intros r Hf; cbn [add_headers].
  - cbn. split_and!; try done. left. unfold lines. cbn. destruct (removed [] r); by rewrite app_nil_r.
  - eapply spec_bind; [|exact id]. eapply spec_weaken; [apply (add_header_step [] v); [done | done | done] | | done].
    intros [ret r1] H1. destruct (Z.eqb_spec ret 0) as [->|Hne]; cbn [negb].
    + assert (fresh r1) as Hf1 by (destruct H1 as (_ & _ & _ & _ & [(_ & ? & _)|[? _]]); done).
      eapply spec_weaken; [by apply IH | | done]. intros [ret2 r2] H2.
      replace (lines r (v :: l)) with ((if removed [] r then [] else header_line [] v) ++ lines r1 l); [by eapply head_step_trans|].
      unfold lines, removed. rewrite (proj1 (proj2 (proj2 H1))). by destruct (_ || _).
    + destruct H1 as (A1 & A2 & A3 & A4 & [(? & _)|[-> ?]]); [done|]. split_and!; try done. fails.
Qed.

(** What [upsgi_response_write_headers_do0] adds. *)
Definition extra (r : response) : list Z := lines r (conf_additional_headers wc) ++ lines r (additional_headers r) ++ crlf.
Definition extra_ok (r : response) : Prop :=
  Forall (fun v => zlen v < 2 ^ 60) (conf_additional_headers wc) /\ Forall (fun v => zlen v < 2 ^ 60) (additional_headers r).

Lemma head_step_fresh text r r' : head_step text r 0 r' -> fresh r'.
Proof. by intros (_ & _ & _ & _ & [(_ & ? & _)|[? _]]). Qed.

Lemma do0_step r :
  fresh r -> extra_ok r ->
  spec (upsgi_response_write_headers_do0 env P wc r)
    (fun '(ret, r') => ret = UPSGI_AGAIN /\ head_step (extra r) r 0 r' \/ ret = -1 /\ head_step (extra r) r (-1) r') False.
Proof.
  intros Hf [Hx1 Hx2]. unfold upsgi_response_write_headers_do0. destruct (fr_buffer r Hf) as (h0 & Hh0 & _). rewrite Hh0.
  pose proof Hf as [(F1 & _ & _) F4 _ F6 _]. rewrite F1, F4, F6. cbn [orb negb Z.eqb].
  eapply spec_bind; [|exact id]. eapply spec_weaken; [by apply add_headers_step | | done]. intros [ret r1] H1.
  destruct (Z.eqb_spec ret 0) as [->|Hne]; cbn [negb].
  2: { right. split; [done|]. destruct H1 as (A1 & A2 & A3 & A4 & [(? & _)|[-> ?]]); [done|]. split_and!; try done. fails. }
  pose proof (head_step_fresh _ _ _ H1) as Hf1. eapply spec_bind; [|exact id].
  eapply spec_weaken; [apply add_headers_step; [done|]; rewrite (proj1 (proj2 (proj2 (proj2 H1)))); done | | done]. intros [ret r2] H2.
  destruct (Z.eqb_spec ret 0) as [->|Hne]; cbn [negb].
  2: { right. split; [done|]. destruct H2 as (B1 & B2 & B3 & B4 & [(? & _)|[-> ?]]); [done|]. destruct H1 as (A1 & A2 & A3 & A4 & _).
       split_and!; try congruence. fails. }
  pose proof (head_step_trans _ _ _ _ _ _ _ H1 eq_refl H2) as H12. pose proof (head_step_fresh _ _ _ H2) as Hf2.
  destruct (fr_buffer r2 Hf2) as (h & Hh & Hok). unfold header_buffer. rewrite Hh. cbn [obind].
  destruct (po_fix (ProtoOk:=HP) h Hok) as (ret & h' & -> & [Hok' _ _ _ Hr]). cbn [obind].
  assert (lines r (conf_additional_headers wc) ++ lines r1 (additional_headers r1) = lines r (conf_additional_headers wc) ++ lines r (additional_headers r)) as El.
  { f_equal. destruct H1 as (_ & _ & A3 & A4 & _). unfold lines, removed. by rewrite A3, A4. }
  destruct Hf2 as [(G1 & G2 & G3) G4 G5 G6 _].
  destruct Hr as [[-> Hc]|[-> _]]; cbn.
  - left. split; [done|]. unfold extra. rewrite app_assoc, <- El. eapply head_step_trans; [exact H12 | done |].
    split_and!; try done. left. split; [done|]. split; [split; try done; by exists h'|]. unfold header_bytes. cbn. by rewrite Hh, Hc.
  - right. split; [done|]. destruct H12 as (A1 & A2 & A3 & A4 & _). split_and!; try done. fails.
Qed.

(** ** Headers and body together *)

(** A response after its head: [h] and [b] bytes of head and body are out. *)
Definition sent_state (h b : Z) (r : response) : Prop :=
  ready r /\ headers_sent r = true /\ headers_size r = h /\ response_size r = b.

Definition full_head (r : response) : list Z := header_bytes r ++ extra r.

Lemma crlf_nonempty (a b : list Z) : 0 < zlen ((a ++ b ++ crlf) : list Z).
Proof. rewrite !zlen_app. change (zlen crlf) with 2. zlen_facts. lia. Qed.

Lemma full_head_pos r : 0 < zlen (full_head r).
Proof. unfold full_head, extra. rewrite app_assoc, (app_assoc _ _ crlf), <- app_assoc. rewrite !zlen_app. change (zlen crlf) with 2. zlen_facts. lia. Qed.

Lemma write_headers_spec r :
  fresh r -> extra_ok r -> zlen (full_head r) < 2 ^ 63 ->
  spec (upsgi_response_write_headers_do env P wc r)
    (fun '(ret, r') => emits (full_head r) r ret r' /\ (ret = UPSGI_OK -> sent_state (zlen (full_head r)) 0 r' /\ accepts (io r) <= accepts (io r') + zlen (full_head r)) /\ (ret <> UPSGI_OK -> failed 1 r'))
    (accepts (io r) < zlen (full_head r)).
Proof.
  intros Hf Hx Hz. unfold upsgi_response_write_headers_do. eapply spec_bind; [|exact id].
  eapply spec_weaken; [by apply do0_step | | done]. intros [ret r1] [[-> H1]|[-> H1]].
  - change (UPSGI_AGAIN =? UPSGI_AGAIN) with true. cbn [negb]. pose proof (head_step_fresh _ _ _ H1) as [Hr1 F4 F5 F6 _].
    destruct H1 as (A1 & A2 & _ & _ & [(_ & _ & Hb)|[? _]]); [|done]. pose proof (full_head_pos r). fold (full_head r) in Hb.
    eapply spec_bind; [|exact id]. rewrite Hb.
    eapply spec_weaken; [apply write_all_spec; [done | lia] | | by rewrite A2]. intros [ret r2] (r3 & wp & Hp & Hwp & Hret).
    pose proof (progressed_out _ _ _ _ Hp (proj2 (proj2 Hr1)) (proj1 Hwp)) as Hout. rewrite A1 in Hout.
    destruct Hp as (evs & -> & Hev). destruct Hr1 as (G1 & G2 & G3). destruct Hret as [(-> & -> & ->)|(-> & E)].
    + rewrite (ztake_all (full_head r) (zlen (full_head r))) in Hout by lia. split.
      * exists (full_head r). split; [exact Hout|]. split; [done|]. by left.
      * split; [|done]. intros _. split; [|cbn; rewrite <- A2; lia]. cbn. split_and!; try done. cbn. rewrite F5. apply wrap_small. lia.
    + apply (f_equal snd) in E. cbn [snd] in E. subst r2. cbn. split; [|split; [done|]; intros _; unfold failed; cbn; rewrite G1; by vm_compute].
      exists (ztake wp (full_head r)). split; [exact Hout|]. split; [apply ztake_prefix|]. fails.
  - cbn. destruct H1 as (A1 & _ & _ & _ & [[? _]|[_ ?]]); [done|]. split; [|split; [done|]; by intros _]. exists []. rewrite app_nil_r.
    split; [done|]. split; [apply prefix_nil|]. fails.
Qed.

(** [r0] is the response before the loop over [writev]. *)
Record in_writev (head body out0 : list Z) (iov : list (list Z)) (iov_len : Z) (r : response) : Prop := {
  iv_err : write_errors r = 0;
  iv_body : ignore_body r = false;
  iv_head : header_bytes r = head;
  iv_sizes : headers_size r = 0 /\ response_size r = 0;
  iv_pos : 0 <= write_pos r < zlen (head ++ body);
  iv_out : out r = out0 ++ ztake (write_pos r) (head ++ body);
  iv_len : 0 < iov_len <= zlen iov /\ iov_len <= 2;
  iv_rest : concat (ztake iov_len iov) = zdrop (write_pos r) (head ++ body);
}.

Definition whole (head body out0 : list Z) (ret : Z) (r' : response) : Prop :=
  exists sent, out r' = out0 ++ sent /\ sent `prefix_of` head ++ body /\
    (ret = UPSGI_OK /\ sent = head ++ body /\ sent_state (zlen head) (zlen body) r' \/ ret = -1 /\ failed 2 r').

Lemma u64_sub_add a b c : 0 <= c < 2 ^ 64 -> a - b + (c - a + b) = c -> u64 (u64 (a - b) + (c - a + b)) = c.
Proof. intros Hc E. unfold wrap. rewrite Z.add_mod_idemp_l by lia. rewrite E. by apply Z.mod_small. Qed.

(** A single vector is left. *)
Lemma writev_last head body out0 iov r :
  in_writev head body out0 iov 1 r -> zlen (head ++ body) < 2 ^ 63 ->
  let r1 := r<|headers_size := u64 (headers_size r + zlen (header_bytes r))|><|headers_sent := true|> in
  let r2 := r1<|response_size := u64 (response_size r1 + (write_pos r1 - headers_size r1))|><|write_pos := 0|><|io := io r|> in
  spec (write_body P (default [] (List.hd_error iov)) r2) (fun '(ret, r') => whole head body out0 ret r')
    (accepts (io r) < zlen (head ++ body) - write_pos r).
Proof.
  intros [I1 I2 I3 [I4 I5] I6 I7 I8 I9] Hz. cbn zeta. pose proof (zlen_nonneg head). pose proof (zlen_nonneg body). rewrite zlen_app in *.
  set (data := zdrop (write_pos r) (head ++ body)) in *.
  assert (default [] (List.hd_error iov) = data) as ->.
  { destruct iov as [|v iov]; [change (zlen (@nil (list Z))) with 0 in I8; lia|]. cbn. rewrite <- I9. change (ztake 1 (v :: iov)) with [v]. cbn. by rewrite app_nil_r. }
  assert (zlen data = zlen head + zlen body - write_pos r) as Hd by (unfold data; rewrite zlen_drop; rewrite ?zlen_app; lia).
  eapply spec_weaken; [apply write_body_spec; [split_and!; done | lia] | | cbn; lia].
  intros [ret r'] [(sent & Hout & Hpre & Hret) Hok]. cbn in Hout, Hok.
  exists (ztake (write_pos r) (head ++ body) ++ sent). rewrite Hout, I7, <- app_assoc. split; [done|].
  assert (head ++ body = ztake (write_pos r) (head ++ body) ++ data) as Hsplit by (unfold data; by rewrite ztake_zdrop).
  split; [rewrite Hsplit at 2; by apply prefix_app|].
  destruct Hret as [[-> ->]|[-> ?]]; [left | fails]. split; [done|]. split; [done|].
  destruct (Hok eq_refl) as (Hr & K1 & K2 & K3). split_and!; try done.
  - rewrite K2, I3, I4. cbn. apply wrap_small. lia.
  - rewrite K3. unfold body_sent. cbn. rewrite I3, I4, I5, Hd. rewrite (wrap_small 64 (0 + zlen head)) by lia.
    replace (0 + (write_pos r - (0 + zlen head))) with (write_pos r - zlen head) by lia.
    replace (zlen head + zlen body - write_pos r) with (zlen body - write_pos r + zlen head) by lia. apply u64_sub_add; lia.
Qed.

Lemma writev_loop_spec head body out0 evs iov iov_len r :
  in_writev head body out0 iov iov_len r -> io r = evs -> zlen (head ++ body) < 2 ^ 63 ->
  spec (writev_loop P evs iov iov_len (zlen body) r) (fun '(ret, r') => whole head body out0 ret r')
    (accepts evs < zlen (head ++ body) - write_pos r).
Proof.
  intros Hin Hio Hz. revert iov iov_len r Hin Hio. induction evs as [|e evs IH]; intros iov iov_len r Hin Hio; cbn [writev_loop].
  { destruct (Z.eqb_spec iov_len 1) as [->|Hl].
    - pose proof (writev_last _ _ _ _ _ Hin Hz) as Hs. rewrite Hio in Hs. exact Hs.
    - cbn. change (accepts []) with 0. pose proof (iv_pos _ _ _ _ _ _ Hin). lia. }
  destruct (Z.eqb_spec iov_len 1) as [->|Hl].
  { pose proof (writev_last _ _ _ _ _ Hin Hz) as Hs. rewrite Hio in Hs. exact Hs. }
  destruct Hin as [I1 I2 I3 [I4 I5] I6 I7 I8 I9]. cbn zeta. set (all := concat (ztake iov_len iov)) in *.
  assert (zlen all = zlen (head ++ body) - write_pos r) as Hall by (rewrite I9, zlen_drop by lia; lia).
  assert (forall x, ztake x all = ztake (write_pos r + x - write_pos r) (zdrop (write_pos r) (head ++ body))) as Htake
    by (intros x; rewrite I9; f_equal; lia).
  rewrite accepts_cons.
  (* the answers other than a write *)
  assert (forall (b : Z) r1, r1 = r<|write_pos := write_pos r|><|out := out r ++ []|><|io := evs|> ->
     whole head body out0 (-1) (snd (fail r1)) /\ in_writev head body out0 iov iov_len r1 /\ io r1 = evs) as Hno.
  { intros _ r1 ->. rewrite app_nil_r. split_and!; try done.
    - exists (ztake (write_pos r) (head ++ body)). split; [exact I7|]. split; [apply ztake_prefix|]. fails. }
  destruct (io_result e) as [n| |] eqn:En; cbn [kernel].
  - destruct (Z.ltb_spec 0 (Z.min n (zlen all))) as [Hn|Hn].
    2: { unfold upsgi_proto_base_writev. rewrite (proj2 (Z.ltb_ge _ _)) by lia. cbn [Z.ltb Z.compare].
         replace (ztake (Z.min n (zlen all)) all) with (@nil Z) by (symmetry; unfold ztake; by replace (Z.to_nat (Z.min n (zlen all))) with 0%nat by lia).
         destruct (Hno 0 _ eq_refl) as (Hf & _ & _). exact Hf. }
    set (w := Z.min n (zlen all)) in *.
    destruct (writev_step iov iov_len w (write_pos r)) as (ret & iov' & il' & -> & Hr); [lia | fold all; lia |].
    assert (accepting e = true) as -> by (unfold accepting; rewrite En; apply Z.ltb_lt; lia).
    assert (out r ++ ztake w all = out0 ++ ztake (write_pos r + w) (head ++ body)) as Hout
      by (rewrite I7, <- app_assoc, Htake, ztake_extend by lia; done).
    fold all in Hr. destruct Hr as [[-> Hw]|(-> & Hlt & Hil & Hzl & Hrest)]; change UPSGI_OK with 0; change UPSGI_AGAIN with 1; cbn [Z.ltb Z.compare Z.eqb].
    + rewrite (ztake_all (head ++ body)) in Hout by lia. exists (head ++ body). split; [exact Hout|]. split; [done|]. left.
      split; [done|]. split; [done|]. cbn. zlen_facts. rewrite zlen_app in *. split_and!; try done; cbn.
      * rewrite I4. unfold header_bytes in I3 |- *. cbn. rewrite I3. apply wrap_small. lia.
      * rewrite I5. apply wrap_small. lia.
    + eapply spec_weaken; [apply (IH iov' il'); [|done] | done |].
      * split; cbn; try done; try lia.
        -- rewrite Hrest, I9. rewrite zdrop_zdrop by lia. done.
      * cbn. lia.
  - destruct (Hno 0 _ eq_refl) as (Hf & Hin & Hio1). cbn [upsgi_proto_base_writev]. change UPSGI_AGAIN with 1. cbn [Z.ltb Z.compare Z.eqb].
    destruct (io_wait e <=? 0); [exact Hf|]. eapply spec_weaken; [by apply IH | done |]. unfold accepting. rewrite En. cbn. lia.
  - destruct (Hno 0 _ eq_refl) as (Hf & _ & _). exact Hf.
Qed.

Lemma send_body_spec body h b r :
  sent_state h b r -> zlen body < 2 ^ 63 -> b + zlen body < 2 ^ 64 -> 0 <= b ->
  spec (send_body P body r)
    (fun '(ret, r') => emits body r ret r' /\ (ret = UPSGI_OK -> sent_state h (b + zlen body) r'))
    (accepts (io r) < zlen body).
Proof.
  intros (Hr & H1 & H2 & H3) Hz Hb H0. unfold send_body. pose proof (zlen_nonneg body). destruct (Z.eqb_spec (zlen body) 0) as [E|E].
  - assert (body = []) as -> by (destruct body; [done|]; rewrite zlen_cons in E; zlen_facts; lia). cbn. split.
    + exists []. rewrite app_nil_r. split; [done|]. split; [done|]. by left.
    + intros _. rewrite Z.add_0_r. by split.
  - eapply spec_weaken; [apply write_body_spec; [done | lia] | | done]. intros [ret r'] [He Hok]. split; [done|].
    intros Hret. destruct (Hok Hret) as (Hr' & K1 & K2 & K3). split_and!; [done .. | congruence | congruence |].
    rewrite K3, H3. apply wrap_small. lia.
Qed.

Lemma write_body_do_sent body h b r :
  sent_state h b r -> zlen body < 2 ^ 63 -> b + zlen body < 2 ^ 64 -> 0 <= b ->
  spec (upsgi_response_write_body_do env P wc body r)
    (fun '(ret, r') => emits body r ret r' /\ (ret = UPSGI_OK -> sent_state h (b + zlen body) r'))
    (accepts (io r) < zlen body).
Proof.
  intros Hs Hz Hb H0. pose proof Hs as ((R1 & R2 & R3) & H1 & H2 & H3). unfold upsgi_response_write_body_do, after_headers.
  rewrite R1, R2, H1. cbn [Z.eqb negb andb]. by apply send_body_spec.
Qed.

Lemma emits_then a b r ret1 r1 ret2 r2 :
  emits a r ret1 r1 -> ret1 = UPSGI_OK -> emits b r1 ret2 r2 -> emits (a ++ b) r ret2 r2.
Proof.
  intros (s1 & O1 & P1 & R1) -> (s2 & O2 & P2 & R2). destruct R1 as [[_ ->]|[? _]]; [|done].
  exists (a ++ s2). rewrite O2, O1, <- app_assoc. split; [done|]. split; [by apply prefix_app|].
  destruct R2 as [[-> ->]|[-> ?]]; [by left | fails].
Qed.

Lemma emits_stop a b r ret r' : emits a r ret r' -> ret <> UPSGI_OK -> emits (a ++ b) r ret r'.
Proof.
  intros (s & O & Hp & [[? _]|[-> R]]) Hne; [done|]. exists s. split; [done|]. split; [by apply prefix_app_r | fails].
Qed.

Lemma write_body_do_fresh body r :
  fresh r -> extra_ok r -> zlen (full_head r ++ body) < 2 ^ 63 ->
  spec (upsgi_response_write_body_do env P wc body r)
    (fun '(ret, r') => emits (full_head r ++ body) r ret r' /\ (ret = UPSGI_OK -> sent_state (zlen (full_head r)) (zlen body) r'))
    (has_writev P = true -> accepts (io r) < zlen (full_head r ++ body)).
Proof.
  intros Hf Hx Hz. pose proof Hf as [(F1 & F2 & F3) F4 F5 F6 (h & Hh & Hok)]. pose proof (zlen_nonneg body). pose proof (zlen_nonneg (full_head r)).
  unfold upsgi_response_write_body_do. rewrite F1, F2, F4, Hh. cbn [Z.eqb negb andb]. rewrite bool_decide_eq_false_2 by done.
  cbn [negb]. rewrite andb_true_r. destruct (has_writev P && (0 <? zlen body)) eqn:Hv.
  - unfold upsgi_response_writev_headers_and_body_do. eapply spec_bind; [|exact id]. eapply spec_weaken; [by apply do0_step | | done].
    intros [ret r1] [[-> H1]|[-> H1]].
    + change (UPSGI_AGAIN =? UPSGI_AGAIN) with true. cbn [negb]. pose proof (head_step_fresh _ _ _ H1) as [(G1 & G2 & G3) G4 G5 G6 _].
      destruct H1 as (A1 & A2 & _ & _ & [(_ & _ & Hb)|[? _]]); [|done]. fold (full_head r) in Hb.
      eapply spec_weaken; [apply (writev_loop_spec (full_head r) body (out r)); [|done | done] | | rewrite A2, G3; lia].
      * pose proof (full_head_pos r). rewrite zlen_app in *. split; rewrite ?G3; try done; try lia.
        -- rewrite zlen_app. lia.
        -- by rewrite A1, ztake_0, app_nil_r.
        -- change (ztake 2 [header_bytes r1; body]) with [header_bytes r1; body]. cbn [concat]. by rewrite app_nil_r, Hb, zdrop_0.
      * intros [ret r'] (sent & Ho & Hp & Hr). split.
        -- exists sent. split; [done|]. split; [done|]. destruct Hr as [(-> & -> & _)|[-> ?]]; [by left | fails].
        -- intros ->. by destruct Hr as [(_ & _ & ?)|[? _]].
    + cbn. split; [|done]. destruct H1 as (A1 & _ & _ & _ & [[? _]|[_ ?]]); [done|]. exists []. rewrite app_nil_r.
      split; [done|]. split; [apply prefix_nil|]. fails.
  - unfold after_headers. rewrite F4. eapply spec_bind; [|exact id]. rewrite zlen_app in Hz.
    assert (has_writev P = true -> zlen body = 0) as Hb0
      by (intros Hw; rewrite Hw in Hv; destruct (Z.ltb_spec 0 (zlen body)); [done | lia]).
    eapply spec_weaken; [apply write_headers_spec; [done | done | lia] | | rewrite zlen_app; intros ??; lia]. intros [ret r1] (He & Hs & Hfl).
    destruct (Z.eqb_spec ret UPSGI_OK) as [->|Hne].
    + destruct (Hs eq_refl) as [Hs1 _]. eapply spec_weaken; [apply (send_body_spec body _ 0 r1 Hs1); lia | | intros Ha Hw; specialize (Hb0 Hw); unfold accepts in Ha; zlen_facts; lia]. intros [ret r2] [He2 Hs2].
      split; [by eapply emits_then | exact Hs2].
    + specialize (Hfl Hne). assert (ret = -1) as -> by by destruct He as (? & _ & _ & [[? _]|[? _]]).
      change (-1 =? UPSGI_AGAIN) with false. cbn. split; [|done]. destruct He as (s1 & O1 & P1 & _).
      exists s1. split; [done|]. split; [by apply prefix_app_r|]. right. split; [done|]. apply (fail_failed 1); unfold failed in Hfl; lia.
Qed.

(** ** A whole response *)

(** A request that has not been answered. *)
Definition blank (r : response) : Prop :=
  ready r /\ headers_sent r = false /\ headers_size r = 0 /\ response_size r = 0 /\
  (headers r = None \/ exists h, headers r = Some h /\ buffer_ok h).

Definition status_text (status : list Z) : list Z :=
  if zlen status <=? 4 then ztake 3 status ++ match upsgi_http_status_msg status with Some sc => chars " " ++ sc | None => chars " Unknown" end
  else status.

Lemma header_buffer_spec r :
  blank r -> 0 <= response_header_limit wc < 2 ^ 64 -> spec (header_buffer env wc r) buffer_ok False.
Proof.
  intros (_ & _ & _ & _ & [E|(h & E & Hok)]) Hl; unfold header_buffer; rewrite E; [|done].
  pose proof HEnv as He. unfold EnvOk in He. unfold upsgi_buffer_new. rewrite (proj2 (Z.eqb_neq (page_size env) 0)) by lia.
  unfold malloc. destruct (alloc_ok env (page_size env)) eqn:Ea; [|done]. cbn.
  split; cbn; try lia. unfold zrep, zlen. rewrite length_replicate. lia.
Qed.

Lemma status_msg_short status sc : upsgi_http_status_msg status = Some sc -> zlen sc < 64.
Proof.
  unfold upsgi_http_status_msg. intros H. apply fmap_Some in H as ([k v] & Hf & ->). apply find_some in Hf as [Hin _].
  assert (forallb (fun kv => zlen (kv.2 : list Z) <? 64) hsc = true) as Hall by (vm_compute; reflexivity).
  rewrite forallb_forall in Hall. specialize (Hall _ Hin). by apply Z.ltb_lt in Hall.
Qed.

Lemma status_text_short status : 3 <= zlen status < 2 ^ 16 -> zlen (status_text status) < 2 ^ 20.
Proof.
  intros H. unfold status_text. destruct (Z.leb_spec (zlen status) 4); [|lia]. pose proof (zlen_take 3 status ltac:(lia)) as Ht.
  destruct (upsgi_http_status_msg status) as [sc|] eqn:E; rewrite !zlen_app.
  - pose proof (status_msg_short _ _ E). change (zlen (chars " ")) with 1. lia.
  - change (zlen (chars " Unknown")) with 8. lia.
Qed.

Lemma prepare_spec status r :
  blank r -> 3 <= zlen status < 2 ^ 16 -> 0 <= response_header_limit wc < 2 ^ 64 -> zlen (status_line (status_text status)) < 2 ^ 63 ->
  spec (upsgi_response_prepare_headers env P wc status r)
    (fun '(ret, r') => out r' = out r /\ io r' = io r /\ remove_headers r' = remove_headers r /\ additional_headers r' = additional_headers r /\
       (ret = 0 /\ fresh r' /\ header_bytes r' = status_line (status_text status) \/ ret = -1 /\ failed 1 r')) False.
Proof.
  intros Hb Hs Hlim Hz. pose proof Hb as ((R1 & R2 & R3) & H1 & H2 & H3 & _). unfold upsgi_response_prepare_headers, head_closed.
  rewrite H1, H2, H3, R1, (proj2 (Z.ltb_ge (zlen status) 3)) by lia. cbn [orb negb Z.eqb].
  eapply spec_bind; [|exact id]. eapply spec_weaken; [by apply header_buffer_spec | | done]. intros h [K1 K2 K3 K4].
  set (h0 := h<|pos := 0|>). set (r0 := r<|headers := Some h0|><|header_cnt := 0|>).
  assert (buffer_ok h0) as Hok by (split; cbn; try done; lia).
  assert (exists st, upsgi_str3_num status = Ret st) as [st ->].
  { destruct status as [|a [|b [|c l]]]; try (exfalso; rewrite ?zlen_cons in Hs; change (zlen (@nil Z)) with 0 in Hs; lia). eexists. reflexivity. }
  cbn [obind]. eapply spec_bind; [|exact id].
  replace (if zlen status <=? 4 then _ else _) with (proto_prepare_headers P (status_text status)) by (unfold status_text; by destruct (zlen status <=? 4)).
  eapply spec_weaken; [apply po_prepare; apply status_text_short; lia | | done]. intros hh Hhh.
  assert (fresh (r0<|rstatus := st|>)) as Hf by (split; try done; by exists h0).
  eapply spec_weaken; [by apply (append_built_step hh h0 (status_line (status_text status)) 0 (r0<|rstatus := st|>) Hf) | | done].
  intros [ret r'] (A1 & A2 & A3 & A4 & A5). split_and!; try done.
Qed.

(** The headers of a response, one call after the other. *)
Fixpoint add_all (hs : list (list Z * list Z)) (r : response) : outcome (Z * response) :=
  match hs with
  | [] => Ret (0, r)
  | (k, v) :: hs => let* (ret, r) := upsgi_response_add_header env P wc k v r in if negb (ret =? 0) then Ret (-1, r) else add_all hs r
  end.

(** What an application does: status, headers, body. *)
Definition respond (status : list Z) (hs : list (list Z * list Z)) (body : list Z) (r : response) : outcome (Z * response) :=
  let* (ret, r) := upsgi_response_prepare_headers env P wc status r in
  if negb (ret =? 0) then Ret (-1, r)
  else
    let* (ret, r) := add_all hs r in
    if negb (ret =? 0) then Ret (-1, r) else upsgi_response_write_body_do env P wc body r.

Definition header_text (r : response) (hs : list (list Z * list Z)) : list Z :=
  concat ((fun kv => if removed kv.1 r then [] else header_line kv.1 kv.2) <$> hs).

Lemma add_all_step hs r :
  fresh r -> Forall (fun kv => zlen kv.1 < 2 ^ 60 /\ zlen kv.2 < 2 ^ 60) hs ->
  spec (add_all hs r) (fun '(ret, r') => head_step (header_text r hs) r ret r') False.
Proof.
  intros Hf Hl. revert r Hf. induction Hl as [|[k v] hs [Hk Hv] _ IH]; intros r Hf; cbn [add_all].
  - cbn. split_and!; try done. left. split_and!; try done. by rewrite app_nil_r.
  - eapply spec_bind; [|exact id]. eapply spec_weaken; [by apply add_header_step | | done].
    intros [ret r1] H1. destruct (Z.eqb_spec ret 0) as [->|Hne]; cbn [negb].
    + eapply spec_weaken; [apply IH; by eapply head_step_fresh | | done]. intros [ret2 r2] H2.
      replace (header_text r ((k, v) :: hs)) with ((if removed k r then [] else header_line k v) ++ header_text r1 hs);
        [by eapply head_step_trans|].
      unfold header_text, removed. by rewrite (proj1 (proj2 (proj2 H1))).
    + destruct H1 as (A1 & A2 & A3 & A4 & [(? & _)|[-> ?]]); [done|]. split_and!; try done. fails.
Qed.

(** The text of the response. *)
Definition response_text (status : list Z) (hs : list (list Z * list Z)) (body : list Z) (r : response) : list Z :=
  status_line (status_text status) ++ header_text r hs ++ extra r ++ body.

Record args_ok (status : list Z) (hs : list (list Z * list Z)) (body : list Z) (r : response) : Prop := {
  ao_status : 3 <= zlen status < 2 ^ 16;
  ao_limit : 0 <= response_header_limit wc < 2 ^ 64;
  ao_headers : Forall (fun kv => zlen kv.1 < 2 ^ 60 /\ zlen kv.2 < 2 ^ 60) hs;
  ao_extra : extra_ok r;
  ao_size : zlen (response_text status hs body r) < 2 ^ 63;
}.

Lemma respond_spec status hs body r :
  blank r -> args_ok status hs body r ->
  spec (respond status hs body r) (fun '(ret, r') => emits (response_text status hs body r) r ret r')
    (has_writev P = true -> accepts (io r) < zlen (response_text status hs body r)).
Proof.
  intros Hb [H1 H2 H3 [H4 H4'] H5]. unfold respond. assert (forall r', out r' = out r -> failed 1 r' -> emits (response_text status hs body r) r (-1) r') as Hno.
  { intros r' E Hfl. exists []. rewrite app_nil_r. split; [done|]. split; [apply prefix_nil | fails]. }
  eapply spec_bind with (stuck' := False); [|done].
  eapply spec_weaken; [apply prepare_spec; try done | | done].
  { unfold response_text in H5. rewrite zlen_app in H5. zlen_facts. lia. }
  intros [ret r1] (A1 & A2 & A3 & A4 & A5). destruct A5 as [(-> & Hf & Hbytes)|[-> ?]]; [|by apply Hno]. cbn [Z.eqb negb].
  eapply spec_bind with (stuck' := False); [|done]. eapply spec_weaken; [by apply add_all_step | | done].
  intros [ret r2] (B1 & B2 & B3 & B4 & B5). destruct B5 as [(-> & Hf2 & Hbytes2)|[-> ?]]; [|apply Hno; [congruence | done]]. cbn [Z.eqb negb].
  assert (full_head r2 ++ body = response_text status hs body r) as E.
  { unfold full_head, response_text. rewrite Hbytes2, Hbytes, <- !app_assoc. f_equal.
    unfold header_text, extra, lines, removed. by rewrite B3, A3, B4, A4. }
  eapply spec_weaken; [apply write_body_do_fresh; [done | | by rewrite E] | |].
  - split; [done | by rewrite B4, A4].
  - intros [ret r3] [(sent & O & Hp & Hr) _]. rewrite E in Hp, Hr. exists sent. split; [congruence|]. done.
  - rewrite E. intros Hs Hw. specialize (Hs Hw). by rewrite B2, A2 in Hs.
Qed.

(** ** Files *)

Lemma zlen_part (file : list Z) p n : 0 <= p -> 0 <= n -> p + n <= zlen file -> zlen (ztake n (zdrop p file)) = n.
Proof. intros. rewrite zlen_take; [done|]. rewrite zlen_drop; lia. Qed.

Lemma sendfile_step file p n :
  0 <= p -> 0 < n -> p + n <= zlen file -> zlen file < 2 ^ 63 ->
  step_ok (ztake n (zdrop p file)) (fun res wp => upsgi_proto_base_sendfile (kernel (Z.min (n - wp) (zlen file - (p + wp))) res) file p n wp).
Proof.
  intros Hp Hn Hfit Hz res wp. rewrite zlen_part by lia. intros Hwp. rewrite Z.min_l by lia.
  assert (forall k, 0 <= k <= n - wp -> ztake (wp + k - wp) (zdrop wp (ztake n (zdrop p file))) = ztake k (zdrop (p + wp) file)) as Hpart.
  { intros k Hk. replace (wp + k - wp) with k by lia. unfold ztake, zdrop.
    rewrite skipn_firstn_comm, take_take, drop_drop. f_equal; [lia|]. f_equal. lia. }
  destruct res as [m| |]; cbn [kernel upsgi_proto_base_sendfile].
  - destruct (Z.ltb_spec 0 (Z.min m (n - wp))) as [Hm|Hm].
    + rewrite mslice_ok by lia. cbn [obind]. rewrite wrap_small by lia. rewrite <- (Hpart (Z.min m (n - wp))) by lia. eexists _, _.
      split; [reflexivity|]. destruct (Z.eqb_spec (wp + Z.min m (n - wp)) n).
      * split_and!; [lia | lia | by left | | done]. intros m' [= <-] ?. split; [lia | done].
      * split_and!; [lia | lia | right; left; split; [done | lia] | | done]. intros m' [= <-] ?. split; [lia | done].
    + exists (-1), wp. rewrite Z.sub_diag, ztake_0. split_and!; [done | lia | lia | by right; right | | done]. intros m' [= <-] ?. lia.
  - exists UPSGI_AGAIN, wp. rewrite Z.sub_diag, ztake_0. split_and!; [done | lia | lia | right; left; split; [done | lia] | done | done].
  - exists (-1), wp. rewrite Z.sub_diag, ztake_0. split_and!; [done | lia | lia | by right; right | done | done].
Qed.

(** What [upsgi_response_sendfile_do] sends of the file. *)
Definition file_part (file : list Z) (p n : Z) : list Z := if n =? 0 then zdrop p file else ztake n (zdrop p file).

Lemma send_file_spec file p n r :
  ready r -> 0 <= p -> 0 <= n -> p + n <= zlen file -> zlen file < 2 ^ 63 -> (n = 0 -> p = 0) ->
  spec (send_file file p n r)
    (fun '(ret, r') => emits (file_part file p n) r ret r') (accepts (io r) < zlen (file_part file p n)).
Proof.
  intros (R1 & R2 & R3) Hp Hn Hfit Hz Hn0. unfold send_file, file_part. zlen_facts.
  assert (forall m, 0 < m -> p + m <= zlen file -> spec
    (let* (ret, r1) := write_loop (fun res wp => upsgi_proto_base_sendfile (kernel (Z.min (m - wp) (zlen file - (p + wp))) res) file p m wp) (io r) r in
     if ret <? 0 then Ret (-1, r1) else Ret (body_done r1))
    (fun '(ret, r') => emits (ztake m (zdrop p file)) r ret r') (accepts (io r) < zlen (ztake m (zdrop p file)))) as Hloop.
  { intros m Hm Hfm. eapply spec_bind; [|exact id]. eapply spec_weaken.
    { apply (write_loop_spec (ztake m (zdrop p file))); [apply sendfile_step; lia | rewrite zlen_part; lia]. }
    2: { rewrite R3. lia. }
    intros [ret r'] (r1 & wp & Hpr & Hwp & Hret). rewrite R3 in Hwp.
    pose proof (progressed_out _ _ _ _ Hpr R3 (proj1 Hwp)) as Hout. destruct Hpr as (evs & -> & _). destruct Hret as [(-> & -> & ->)|(-> & E')].
    - exists (ztake m (zdrop p file)). rewrite (ztake_all (ztake m (zdrop p file))) in Hout by lia. split; [exact Hout|]. split; [done|]. by left.
    - apply (f_equal snd) in E'. cbn [snd] in E'. subst r'. cbn. eexists. split; [exact Hout|]. split; [apply ztake_prefix | fails]. }
  destruct (Z.eqb_spec n 0) as [->|Hne]; cbn [andb]; [|by apply Hloop; lia].
  rewrite Hn0 in * by done. destruct (Z.leb_spec (zlen file) 0) as [E|E].
  - rewrite (zlen_zero_inv file) by lia. cbn. exists []. rewrite app_nil_r. split; [done|]. split; [done|]. by left.
  - specialize (Hloop (zlen file) ltac:(lia) ltac:(lia)). by rewrite zdrop_0, ztake_all in Hloop by lia.
Qed.

(** A file behind a head that has not been sent. *)
Lemma sendfile_do_fresh file p n r :
  fresh r -> extra_ok r -> 0 <= p -> 0 <= n -> p + n <= zlen file -> (n = 0 -> p = 0) ->
  zlen (full_head r) < 2 ^ 63 -> zlen file < 2 ^ 63 ->
  spec (upsgi_response_sendfile_do env P wc file p n r)
    (fun '(ret, r') => emits (full_head r ++ file_part file p n) r ret r')
    (accepts (io r) < zlen (full_head r ++ file_part file p n)).
Proof.
  intros Hf Hx Hp Hn Hfit Hn0 Hz Hzf. pose proof Hf as [(F1 & F2 & F3) F4 F5 F6 _]. unfold upsgi_response_sendfile_do, after_headers.
  rewrite F1, F2, F4. cbn [Z.eqb negb]. eapply spec_bind; [|exact id].
  eapply spec_weaken; [by apply write_headers_spec | | rewrite zlen_app; zlen_facts; lia]. intros [ret r1] (He & Hs & Hfl).
  destruct (Z.eqb_spec ret UPSGI_OK) as [->|Hne].
  - destruct (Hs eq_refl) as [Hs1 Hio]. eapply spec_weaken; [apply (send_file_spec file p n r1); try done; by destruct Hs1 | |].
    + intros [ret r2] He2. by eapply emits_then.
    + rewrite zlen_app. lia.
  - specialize (Hfl Hne). assert (ret = -1) as -> by by destruct He as (? & _ & _ & [[? _]|[? _]]).
    change (-1 =? UPSGI_AGAIN) with false. cbn. destruct He as (s1 & O1 & P1 & _).
    exists s1. split; [done|]. split; [by apply prefix_app_r|]. right. split; [done|]. apply (fail_failed 1); unfold failed in Hfl; lia.
Qed.

End writer.

(** * Theorems *)


Definition slow_socket : list io_event :=
  [mk_io WAgain 1; mk_io (Wrote 7) 0; mk_io (Wrote 20) 0; mk_io WAgain 1; mk_io (Wrote 100) 0].
Definition new_response (script : list io_event) : response := mk_response None 0 0 0 false 0 0 0 false [] [] script [].


(** Where the protocol has no vectored write the position is not reset
    between the vectors of a body: of the second one the first bytes are
    skipped, and a vector that is not longer than the one before makes the
    call fail. *)
Theorem vectors_without_writev :
  let p := mk_proto (upsgi_proto_base_prepare_headers env4k 0 (chars "HTTP/1.1")) (upsgi_proto_base_add_header env4k)
             (upsgi_proto_base_fix_headers env4k) upsgi_proto_base_write false in
  let r := (new_response [mk_io (Wrote 100) 0; mk_io (Wrote 100) 0])<|headers_sent := true|> in
  let wc := mk_writer_conf 0 [] [] in
  (let* (ret, r) := upsgi_response_writev_body_do env4k p wc [chars "abc"; chars "defgh"] r in Ret (ret, out r)) = Ret (UPSGI_OK, chars "abcgh") /\
  (let* (ret, r) := upsgi_response_writev_body_do env4k p wc [chars "abc"; chars "def"] r in Ret (ret, out r)) = Ret (-1, chars "abc").
Proof. split; vm_compute; reflexivity. Qed.

End WriterProofs.
