(* ===== verification/Http.v ===== *)
(** The HTTP request parser of proto/http.c.

    [upsgi_proto_http_parser] collects bytes until the blank line that ends
    the request head and hands the head to [http_parse], which writes one
    variable per item of the request line, of the connection and of the
    header table into the packet ([Packet]).  Pointers into the head are
    the bytes still to be read ([rest]) with the bytes since [base]. *)
From S2P Require Import Prelude Clib Strings UrlPath Buffer Packet.
Import Packet.

Module Http.

Definition UPSGI_OK : Z := 0.
Definition UPSGI_AGAIN : Z := 1.

(** * Header names and values *)

(** [c - 32] on lower case letters, then [-] to [_]. *)
Definition norm_char (c : Z) : Z :=
  let c := if (97 <=? c) && (c <=? 122) then c - 32 else c in
  if c =? 45 then 95 else c.

Definition http_header_normalize_name (key : list Z) : list Z := norm_char <$> key.

Definition http_header_name_eq (key normalized : list Z) : bool :=
  if negb (zlen key =? zlen normalized) then false
  else bytes_eqb (norm_char <$> key) normalized.

Definition mergeable_headers : list string :=
  ["ACCEPT"; "ACCEPT_CHARSET"; "ACCEPT_ENCODING"; "ACCEPT_LANGUAGE"; "CACHE_CONTROL"; "CONNECTION";
   "FORWARDED"; "IF_MATCH"; "IF_NONE_MATCH"; "PRAGMA"; "TE"; "TRAILER"; "UPGRADE"; "VIA"; "WARNING";
   "X_FORWARDED_FOR"]%string.

Definition http_header_allow_duplicate_merge (key : list Z) : bool :=
  existsb (fun name => (zlen key =? zlen (chars name)) && http_header_name_eq key (chars name))
    mergeable_headers.

Definition http_header_reject_duplicate (key : list Z) : bool :=
  if http_header_name_eq key (chars "HOST") then true
  else if http_header_name_eq key (chars "CONTENT_LENGTH") then true
  else if http_header_name_eq key (chars "CONTENT_TYPE") then true
  else if http_header_name_eq key (chars "TRANSFER_ENCODING") then true
  else if http_header_allow_duplicate_merge key then false
  else true.

(** The [while] loops that move an index over bytes of a class. *)
Fixpoint span (p : Z -> bool) (l : list Z) : list Z * list Z :=
  match l with
  | c :: l' => if p c then let '(a, b) := span p l' in (c :: a, b) else ([], l)
  | [] => ([], [])
  end.

Definition is_blank (c : Z) : bool := (c =? SP) || (c =? TAB).

(** [while (end > start && blank(value[end - 1])) end--] *)
Definition rtrim (l : list Z) : list Z := rev (span is_blank (rev l)).2.

Fixpoint has_token_loop (fuel : nat) (value token : list Z) : outcome bool :=
  match fuel with
  | O => NoFuel
  | S fuel =>
      if 0 <? zlen value then
        let value := (span (fun c => is_blank c || (c =? 44)) value).2 in
        if zlen value =? 0 then Ret false
        else
          let '(item, value) := span (fun c => negb (c =? 44) && negb (c =? 59)) value in
          let item := rtrim item in
          if (zlen item =? zlen token) && upsgi_strnicmp item token then Ret true
          else has_token_loop fuel (span (fun c => negb (c =? 44)) value).2 token
      else Ret false
  end.

Definition http_header_value_has_token (value token : list Z) : outcome bool :=
  has_token_loop (S (length value)) value token.

Definition http_header_value_has_chunked_token (value : list Z) : outcome bool :=
  http_header_value_has_token value (chars "chunked").

(** * The header table *)

Record http_header_slot : Type := mk_slot {
  s_key : list Z;
  s_value : list Z;
  s_has_prefix : bool;
}.

(** [pos] is the number of slots; [tsize] the room of the array. *)
Record http_header_table : Type := mk_table {
  slots : list http_header_slot;
  tsize : Z;
}.

Definition http_header_table_init (scratch_size : Z) : http_header_table := mk_table [] scratch_size.

Definition http_header_table_reserve (t : http_header_table) : http_header_table :=
  if zlen t.(slots) <? t.(tsize) then t
  else mk_table t.(slots) (if t.(tsize) =? 0 then 16 else t.(tsize) * 2).

Fixpoint slots_find (l : list http_header_slot) (key : list Z) : option nat :=
  match l with
  | [] => None
  | s :: l =>
      if (zlen s.(s_key) =? zlen key) && upsgi_strnicmp s.(s_key) key then Some 0%nat
      else S <$> slots_find l key
  end.
Definition http_header_table_find (t : http_header_table) (key : list Z) : option nat :=
  slots_find t.(slots) key.

(** [slot = &headers.slots[headers.pos++]] and its fields. *)
Definition table_push (t : http_header_table) (s : http_header_slot) : outcome http_header_table :=
  if zlen t.(slots) <? t.(tsize) then Ret (mk_table (t.(slots) ++ [s]) t.(tsize)) else Fault.

(** The value of a repeated header: [upsgi_concat3n(old, ", ", value)]; the
    terminator is not counted in [value_len]. *)
Definition slot_merge (value : list Z) (s : http_header_slot) : http_header_slot :=
  mk_slot s.(s_key) (s.(s_value) ++ chars ", " ++ value) s.(s_has_prefix).

(** [status], [keylen] and the value of [http_header_to_cgi]. *)
Fixpoint header_to_cgi_loop (hh : list Z) (i status keylen : Z) (val : option (list Z))
    : Z * option (list Z) :=
  match hh with
  | [] => (keylen, val)
  | c :: hh =>
      if status =? 0 then
        if c =? 58 then header_to_cgi_loop hh (i + 1) 1 i val
        else header_to_cgi_loop hh (i + 1) status keylen val
      else if (status =? 1) && negb (c =? SP) then header_to_cgi_loop hh (i + 1) 2 keylen (Some [c])
      else if status =? 2 then header_to_cgi_loop hh (i + 1) 2 keylen ((fun v => v ++ [c]) <$> val)
      else header_to_cgi_loop hh (i + 1) status keylen val
  end.

(** The key, the value and [has_prefix], or [NULL]. *)
Definition http_header_to_cgi (hh : list Z) : option (list Z * list Z * bool) :=
  match header_to_cgi_loop hh 0 0 0 None with
  | (keylen, Some val) =>
      if keylen =? 0 then None
      else
        let key := ztake keylen hh in
        Some (key, val,
              negb (upsgi_strnicmp key (chars "Content-Length")) &&
              negb (upsgi_strnicmp key (chars "Content-Type")))
  | (_, None) => None
  end.

(** * Environment and request *)

Inductive sockaddr : Type :=
| AF_INET6 (sin6_addr : list Z)
| AF_other (sin_addr : list Z).

(** What the parser reads of [struct upsgi_server], of the socket and of the
    connection.  [inet_ntop v6 addr] is the C library's address formatter. *)
Record http_env : Type := mk_http_env {
  buffer_size : Z;
  enable_proxy_protocol : bool;
  no_decode_slashes : bool;
  manage_script_name : bool;
  hostname : list Z;
  server_port : option (list Z);
  client_addr : sockaddr;
  https : list Z;
  inet_ntop : bool -> list Z -> option (list Z);
  http_modifier1 : Z;
  http_modifier2 : Z;
}.

Record http_req : Type := mk_req {
  pk : packet;
  ignore_body : bool;
}.
#[export] Instance expand_http_req : Expand http_req := fun r => mk_req (pk r) (ignore_body r).

(** [wsgi_req->len += proto_base_add_upsgi_var(...)] *)
Definition hvar (e : http_env) (key : string) (val : list Z) (r : http_req) : outcome http_req :=
  let* p := add_var e.(buffer_size) (chars key) val r.(pk) in
  Ret (r<|pk := p|>).

(** [path] is passed with a [uint16_t] length. *)
Definition http_add_path_info (e : http_env) (path : list Z) (r : http_req) : outcome http_req :=
  let path := arg16 path in
  if negb (http_path_needs_decode path) then hvar e "PATH_INFO" path r
  else
    let* decoded_path := http_url_decode4 (zlen path) path e.(no_decode_slashes) in
    hvar e "PATH_INFO" decoded_path r.

(** Returns the number of bytes written, 0 when they do not fit. *)
Definition http_add_upsgi_header (e : http_env) (s : http_header_slot) (p : packet) : outcome (Z * packet) :=
  let hv := s.(s_value) in
  let prefix := if s.(s_has_prefix) then chars "HTTP_" else [] in
  let keylen := zlen s.(s_key) + zlen prefix in
  if e.(buffer_size) <=? p.(plen) + keylen + zlen hv + 2 + 2 then Ret (0, p)
  else
    let* b := mwrite p.(buffer) p.(plen) (le_bytes16 keylen) in
    let* b := mwrite b (p.(plen) + 2) (prefix ++ (norm_char <$> s.(s_key))) in
    let* b := mwrite b (p.(plen) + 2 + keylen) (le_bytes16 (zlen hv)) in
    let* b := mwrite b (p.(plen) + 2 + keylen + 2) hv in
    Ret (2 + keylen + 2 + zlen hv, p<|buffer := b|>).

(** * PROXY protocol version 1 *)

Inductive proxy_scan : Type :=
| PField (field rest : list Z)
| PReturn (rest : list Z)
| PEnd.

Fixpoint proxy_field (stop : Z) (base rest : list Z) : proxy_scan :=
  match rest with
  | [] => PEnd
  | c :: rest =>
      if c =? stop then PField base rest
      else if c =? LF then PReturn rest
      else proxy_field stop (base ++ [c]) rest
  end.

Record proxy_info : Type := mk_proxy {
  proxy_src : option (list Z);
  proxy_dst : option (list Z);
  proxy_src_port : option (list Z);
  proxy_dst_port : option (list Z);
}.
#[export] Instance expand_proxy_info : Expand proxy_info :=
  fun p => mk_proxy (proxy_src p) (proxy_dst p) (proxy_src_port p) (proxy_dst_port p).

Definition no_proxy : proxy_info := mk_proxy None None None None.

(** The address and port loops one after the other; each continues where the
    previous one stopped, and a loop that runs into the watermark leaves
    nothing to the next ones. *)
Definition proxy1_parse (ptr : list Z) : proxy_info * list Z :=
  if 6 <? zlen ptr then
    if negb (bytes_eqb (ztake 6 ptr) (chars "PROXY ")) then (no_proxy, ptr)
    else
      match proxy_field SP [] (zdrop 6 ptr) with
      | PEnd => (no_proxy, [])
      | PReturn rest => (no_proxy, rest)
      | PField _ rest =>
      (* SRC address *)
      match proxy_field SP [] rest with
      | PEnd => (no_proxy, [])
      | PReturn rest => (no_proxy, rest)
      | PField src rest =>
      let i := no_proxy<|proxy_src := Some (arg16 src)|> in
      (* DST address *)
      match proxy_field SP [] rest with
      | PEnd => (i, [])
      | PReturn rest => (i, rest)
      | PField dst rest =>
      let i := i<|proxy_dst := Some (arg16 dst)|> in
      (* SRC port *)
      match proxy_field SP [] rest with
      | PEnd => (i, [])
      | PReturn rest => (i, rest)
      | PField sport rest =>
      let i := i<|proxy_src_port := Some (arg16 sport)|> in
      (* DST port *)
      match proxy_field CR [] rest with
      | PEnd => (i, [])
      | PReturn rest => (i, rest)
      | PField dport rest =>
      let i := i<|proxy_dst_port := Some (arg16 dport)|> in
      (* check for \n *)
      (i, zdrop 1 (span (fun c => negb (c =? LF)) rest).2)
      end end end end end
  else (no_proxy, ptr).

(** * The request line *)

Fixpoint request_method (e : http_env) (base ptr : list Z) (r : http_req) : outcome (list Z * http_req) :=
  match ptr with
  | [] => Ret ([], r)
  | c :: ptr =>
      if c =? SP then
        let* r := hvar e "REQUEST_METHOD" base r in
        let r := if (zlen base =? 4) && upsgi_strncmp (chars "HEAD") base
                 then r<|ignore_body := true|> else r in
        Ret (ptr, r)
      else request_method e (base ++ [c]) ptr r
  end.

(** [query_string] is the bytes since the first question mark. *)
Fixpoint request_uri (e : http_env) (base : list Z) (query_string : option (list Z)) (ptr : list Z)
    (r : http_req) : outcome (list Z * http_req) :=
  match ptr with
  | [] => Ret ([], r)
  | c :: ptr =>
      if (c =? 63) && negb (bool_decide (is_Some query_string)) then
        let* r := http_add_path_info e base r in
        request_uri e (base ++ [c]) (Some []) ptr r
      else if c =? SP then
        let* r := hvar e "REQUEST_URI" base r in
        let* r := match query_string with
                  | None => let* r := http_add_path_info e base r in hvar e "QUERY_STRING" [] r
                  | Some q => hvar e "QUERY_STRING" q r
                  end in
        Ret (ptr, r)
      else request_uri e (base ++ [c]) ((fun q => q ++ [c]) <$> query_string) ptr r
  end.

(** [None]: [return -1]. *)
Fixpoint server_protocol (e : http_env) (base ptr : list Z) (r : http_req)
    : outcome (option (list Z) * http_req) :=
  match ptr with
  | [] => Ret (Some [], r)
  | c :: ptr =>
      if c =? CR then
        match ptr with
        | [] => Ret (None, r)
        | c1 :: ptr =>
            if negb (c1 =? LF) then Ret (None, r)
            else if 65535 <? zlen base then Ret (None, r)
            else
              let* r := hvar e "SERVER_PROTOCOL" base r in
              Ret (Some ptr, r)
        end
      else server_protocol e (base ++ [c]) ptr r
  end.

(** * Connection variables *)

(** [IN6_IS_ADDR_V4MAPPED] *)
Definition v4mapped (a : list Z) : bool :=
  bytes_eqb (ztake 10 a) (zrep 10 0) && bytes_eqb (ztake 2 (zdrop 10 a)) [255; 255].

Definition remote_ntop (e : http_env) : option (list Z) :=
  match e.(client_addr) with
  | AF_INET6 a => if v4mapped a then e.(inet_ntop) false (ztake 4 (zdrop 12 a)) else e.(inet_ntop) true a
  | AF_other a => e.(inet_ntop) false a
  end.

Definition opt_var (e : http_env) (key : string) (val : option (list Z)) (r : http_req) : outcome http_req :=
  match val with Some v => hvar e key v r | None => Ret r end.

(** The variables between the request line and the headers; [false] is
    [return -1]. *)
Definition connection_vars (e : http_env) (i : proxy_info) (r : http_req) : outcome (bool * http_req) :=
  let* r := if e.(manage_script_name) then Ret r else hvar e "SCRIPT_NAME" [] r in
  let* r := hvar e "SERVER_NAME" e.(hostname) r in
  let* r :=
    match i.(proxy_dst) with
    | Some dst =>
        let* r := hvar e "SERVER_ADDR" dst r in opt_var e "SERVER_PORT" i.(proxy_dst_port) r
    | None =>
        match e.(server_port) with
        | Some port => if 0 <? zlen port then hvar e "SERVER_PORT" port r
                       else hvar e "SERVER_PORT" (chars "80") r
        | None => hvar e "SERVER_PORT" (chars "80") r
        end
    end in
  let* (ok, r) :=
    match i.(proxy_src) with
    | Some src =>
        let* r := hvar e "REMOTE_ADDR" src r in
        let* r := opt_var e "REMOTE_PORT" i.(proxy_src_port) r in
        Ret (true, r)
    | None =>
        match remote_ntop e with
        | Some ip => let* r := hvar e "REMOTE_ADDR" ip r in Ret (true, r)
        | None => Ret (false, r)
        end
    end in
  if ok : bool then
    let* r := if 0 <? zlen e.(https) then hvar e "HTTPS" e.(https) r else Ret r in
    Ret (true, r)
  else Ret (false, r).

(** * The header section *)

(** One header line; [None] is [goto clear]. *)
Definition http_header_line (line : list Z) (t : http_header_table) : outcome (option http_header_table) :=
  match http_header_to_cgi line with
  | None => Ret None
  | Some (key, value, has_prefix) =>
      match http_header_table_find t key with
      | Some i =>
          if http_header_reject_duplicate key then Ret None
          else Ret (Some (mk_table (alter (slot_merge value) i t.(slots)) t.(tsize)))
      | None =>
          let* t := table_push (http_header_table_reserve t) (mk_slot key value has_prefix) in
          Ret (Some t)
      end
  end.

(** [None]: [return -1] or [goto clear]. *)
Fixpoint headers_loop (base ptr : list Z) (t : http_header_table) : outcome (option http_header_table) :=
  match ptr with
  | [] => Ret (Some t)
  | c :: ptr =>
      if c =? CR then
        match ptr with
        | [] => Ret None
        | c1 :: ptr =>
            if negb (c1 =? LF) then Ret None
            else if match ptr with c2 :: _ => is_blank c2 | [] => false end
            then (* folded headers are unsupported *) Ret None
            else if zlen base =? 0 then Ret (Some t)
            else if 65535 <? zlen base then Ret None
            else
              let* t := http_header_line base t in
              match t with Some t => headers_loop [] ptr t | None => Ret None end
        end
      else headers_loop (base ++ [c]) ptr t
  end.

Definition is_content_length (s : http_header_slot) : bool :=
  (zlen s.(s_key) =? 14) && upsgi_strnicmp s.(s_key) (chars "Content-Length").
Definition is_transfer_encoding (s : http_header_slot) : bool :=
  (zlen s.(s_key) =? 17) && upsgi_strnicmp s.(s_key) (chars "Transfer-Encoding").

(** The final loop over the table: the result is [broken]; nothing happens
    after it is set. *)
Fixpoint emit_headers (e : http_env) (l : list http_header_slot) (saw_cl saw_te : bool) (r : http_req)
    : outcome (Z * http_req) :=
  match l with
  | [] => Ret (0, r)
  | s :: l =>
      let* (broken, cl_te) :=
        if is_content_length s then Ret (saw_te, (true, saw_te))
        else
          let* chunked := if is_transfer_encoding s then http_header_value_has_chunked_token s.(s_value)
                          else Ret false in
          if chunked : bool then Ret (saw_cl, (saw_cl, true)) else Ret (false, (saw_cl, saw_te)) in
      if broken : bool then Ret (1, r)
      else
        let* (n, p) := http_add_upsgi_header e s r.(pk) in
        let old_len := r.(pk).(plen) in
        let r := r<|pk := p<|plen := u64 (old_len + n)|>|> in
        if old_len =? r.(pk).(plen) then Ret (1, r) else emit_headers e l cl_te.1 cl_te.2 r
  end.

(** * [http_parse] *)

Definition http_parse (e : http_env) (head : list Z) (r : http_req) : outcome (Z * http_req) :=
  let '(i, ptr) := if e.(enable_proxy_protocol) then proxy1_parse head else (no_proxy, head) in
  let* (ptr, r) := request_method e [] ptr r in
  let* (ptr, r) := request_uri e [] None ptr r in
  let* (ptr, r) := server_protocol e [] ptr r in
  match ptr with
  | None => Ret (-1, r)
  | Some ptr =>
      let* (ok, r) := connection_vars e i r in
      if negb ok then Ret (-1, r)
      else
        let* t := headers_loop [] ptr (http_header_table_init 16) in
        match t with
        | None => Ret (-1, r)
        | Some t => emit_headers e t.(slots) false false r
        end
  end.

(** * The connection *)

Inductive read_result : Type :=
| RData (bs : list Z)
| REof
| RAgain
| RError.

Record http_conn : Type := mk_conn {
  parser_buf : list Z;
  parser_status : Z;
  parser_remains : list Z;
  hreq : http_req;
  modifiers : Z * Z;
}.
#[export] Instance expand_http_conn : Expand http_conn :=
  fun c => mk_conn (parser_buf c) (parser_status c) (parser_remains c) (hreq c) (modifiers c).

(** The scan for the blank line over the bytes just read.  [pre] is what is
    in front of [ptr]; [inr] is the position after the blank line. *)
Fixpoint http_scan (status : Z) (pre ptr : list Z) : Z + (list Z * list Z) :=
  match ptr with
  | [] => inl status
  | c :: ptr =>
      let pre := pre ++ [c] in
      if (c =? CR) && ((status =? 0) || (status =? 2)) then http_scan (status + 1) pre ptr
      else if c =? CR then http_scan 1 pre ptr
      else if (c =? LF) && (status =? 1) then http_scan 2 pre ptr
      else if (c =? LF) && (status =? 3) then inr (pre, ptr)
      else http_scan 0 pre ptr
  end.

(** One call: [rd] is what [read] of at most [buffer_size - pos] bytes
    returns. *)
Definition upsgi_proto_http_parser (e : http_env) (rd : read_result) (c : http_conn)
    : outcome (Z * http_conn) :=
  if e.(buffer_size) - zlen c.(parser_buf) =? 0 then Ret (-1, c)
  else
    match rd with
    | RAgain => Ret (UPSGI_AGAIN, c)
    | RError | REof => Ret (-1, c)
    | RData bs =>
        let pre := c.(parser_buf) in
        let st := c.(parser_status) in
        let c := c<|parser_buf := pre ++ bs|> in
        match http_scan st pre bs with
        | inl status => Ret (UPSGI_AGAIN, c<|parser_status := status|>)
        | inr (head, remains) =>
            let c := c<|parser_status := 3|><|parser_remains := remains|> in
            let* (ret, r) := http_parse e head c.(hreq) in
            let c := c<|hreq := r|> in
            if negb (ret =? 0) then Ret (-1, c)
            else Ret (UPSGI_OK, c<|modifiers := (e.(http_modifier1), e.(http_modifier2))|>)
        end
    end.

(** * Specification *)

(** The variables a request has, as functions of its text. *)

Definition is_nil {A} (l : list A) : bool := match l with [] => true | _ => false end.
Definition until (c : Z) (l : list Z) : list Z * list Z := span (fun x => negb (x =? c)) l.
Definition kvar (key : string) (val : list Z) : kv := (chars key, arg16 val).

Definition method_vars (ptr : list Z) : list kv :=
  let '(method, rest) := until SP ptr in
  if is_nil rest then [] else [kvar "REQUEST_METHOD" method].

Definition decoded_path (e : http_env) (path : list Z) : list Z :=
  match http_url_decode4 (zlen (arg16 path)) (arg16 path) e.(no_decode_slashes) with
  | Ret out => out
  | _ => []
  end.

Definition uri_vars (e : http_env) (ptr : list Z) : list kv :=
  let '(uri, rest) := until SP ptr in
  let '(path, query) := until 63 uri in
  let path_info := kvar "PATH_INFO" (decoded_path e path) in
  match rest, query with
  | [], [] => []
  | [], _ => [path_info]
  | _, [] => [kvar "REQUEST_URI" uri; path_info; kvar "QUERY_STRING" []]
  | _, _ :: q => [path_info; kvar "REQUEST_URI" uri; kvar "QUERY_STRING" q]
  end.

Definition after (c : Z) (ptr : list Z) : list Z := zdrop 1 (until c ptr).2.

(** What follows the request line, when it ends as it must. *)
Definition protocol_end (ptr : list Z) : option (list kv * list Z) :=
  let '(proto, rest) := until CR ptr in
  match rest with
  | [] => Some ([], [])
  | _ :: c1 :: rest =>
      if (c1 =? LF) && (zlen proto <=? 65535) then Some ([kvar "SERVER_PROTOCOL" proto], rest) else None
  | _ => None
  end.

Definition opt_kv (key : string) (val : option (list Z)) : list kv :=
  match val with Some v => [kvar key v] | None => [] end.

Definition conn_vars (e : http_env) (i : proxy_info) : option (list kv) :=
  let script_name := if e.(manage_script_name) then [] else [kvar "SCRIPT_NAME" []] in
  let server :=
    match i.(proxy_dst) with
    | Some dst => kvar "SERVER_ADDR" dst :: opt_kv "SERVER_PORT" i.(proxy_dst_port)
    | None => [kvar "SERVER_PORT" (match e.(server_port) with
                                   | Some p => if 0 <? zlen p then p else chars "80"
                                   | None => chars "80"
                                   end)]
    end in
  let base := script_name ++ [kvar "SERVER_NAME" e.(hostname)] ++ server in
  let https := if 0 <? zlen e.(https) then [kvar "HTTPS" e.(https)] else [] in
  match i.(proxy_src) with
  | Some src => Some (base ++ (kvar "REMOTE_ADDR" src :: opt_kv "REMOTE_PORT" i.(proxy_src_port)) ++ https)
  | None =>
      match remote_ntop e with
      | Some ip => Some (base ++ [kvar "REMOTE_ADDR" ip] ++ https)
      | None => None
      end
  end.

Definition header_var (s : http_header_slot) : kv :=
  ((if s.(s_has_prefix) then chars "HTTP_" else []) ++ (norm_char <$> s.(s_key)), s.(s_value)).

Definition is_chunked_te (s : http_header_slot) : bool :=
  is_transfer_encoding s &&
  match http_header_value_has_chunked_token s.(s_value) with Ret b => b | _ => false end.

Definition framing_conflict (l : list http_header_slot) : bool :=
  existsb is_content_length l && existsb is_chunked_te l.

(** * Lemmas on the packet *)

(** [r'] is [r] with the variables [vs] added, or those of them that fit. *)
Definition emits (e : http_env) (r : http_req) (vs : list kv) (r' : http_req) : Prop :=
  forall kvs, packet_ok e.(buffer_size) kvs (pk r) ->
  exists added, packet_ok e.(buffer_size) (kvs ++ added) (pk r') /\ added `sublist_of` vs /\
    (zlen (encode (kvs ++ vs)) < e.(buffer_size) -> added = vs).

Lemma zlen_encode_app a b : zlen (encode (a ++ b)) = zlen (encode a) + zlen (encode b).
Proof. by rewrite encode_app, zlen_app. Qed.

Lemma packet_plen bs kvs p : packet_ok bs kvs p -> p.(plen) = zlen (encode kvs).
Proof. intros [Hb Hl _ _ <-]. rewrite zlen_take; lia. Qed.

Lemma emits_nil e r : emits e r [] r.
Proof. intros kvs Hok. exists []. rewrite app_nil_r. by split_and!. Qed.

Lemma emits_app e r a r1 b r2 : emits e r a r1 -> emits e r1 b r2 -> emits e r (a ++ b) r2.
Proof.
  intros H1 H2 kvs Hok. destruct (H1 kvs Hok) as (x & Hok1 & Hx & Hfit1).
  destruct (H2 _ Hok1) as (y & Hok2 & Hy & Hfit2). exists (x ++ y). rewrite (assoc_L (++)).
  split_and!; [done | by apply sublist_app |]. intros Hz.
  rewrite (assoc_L (++)), zlen_encode_app in Hz.
  assert (x = a) as -> by (apply Hfit1; zlen_facts; lia).
  rewrite Hfit2; [done|]. by rewrite zlen_encode_app.
Qed.

Lemma emits_proper e r vs r' r'' : emits e r vs r' -> pk r'' = pk r' -> emits e r vs r''.
Proof. intros H E kvs Hok. destruct (H kvs Hok) as (x & ? & ? & ?). exists x. by rewrite E. Qed.

Section with_env.
Context (e : http_env).

Lemma hvar_emits key val r kvs :
  packet_ok e.(buffer_size) kvs (pk r) -> key_ok (chars key) ->
  exists r', hvar e key val r = Ret r' /\ emits e r [kvar key val] r' /\ ignore_body r' = ignore_body r.
Proof.
  intros Hok0 Hk. unfold hvar.
  destruct (add_var_spec _ kvs (pk r) (chars key) val Hok0 Hk) as (p' & E & _). rewrite E. cbn [obind].
  eexists. split; [done|]. split; [|done]. intros kvs' Hok.
  destruct (add_var_spec _ kvs' (pk r) (chars key) val Hok Hk) as (p'' & E' & Hres).
  rewrite E in E'. simplify_eq. cbn. destruct Hres as [Hok'|[-> Hno]].
  - by exists [kvar key val].
  - exists []. rewrite app_nil_r. split_and!; [done | apply sublist_nil_l |].
    rewrite zlen_encode_app. pose proof (packet_plen _ _ _ Hok).
    unfold encode at 2. cbn [mbind list_bind kvar]. rewrite app_nil_r, zlen_var_block. lia.
Qed.

(** A stage that may add variables and hands over the bytes left. *)
Ltac step_hvar :=
  match goal with
  | Hok : packet_ok _ _ (pk ?r) |- context [hvar e ?k ?v ?r] =>
      let r' := fresh "r" in let E := fresh "Erun" in let He := fresh "Hem" in let Hi := fresh "Hib" in
      let x := fresh "added" in let Hk := fresh "Hok" in
      destruct (hvar_emits k v r _ Hok ltac:(by vm_compute)) as (r' & E & He & Hi);
      rewrite E; cbn [obind]; destruct (He _ Hok) as (x & Hk & _ & _)
  end.

Lemma span_cons_true p c l : p c = true -> span p (c :: l) = (c :: (span p l).1, (span p l).2).
Proof. intros H. cbn. rewrite H. by destruct (span p l). Qed.
Lemma span_cons_false p c l : p c = false -> span p (c :: l) = ([], c :: l).
Proof. intros H. cbn. by rewrite H. Qed.

Lemma request_method_spec base ptr r kvs :
  packet_ok e.(buffer_size) kvs (pk r) ->
  exists r', request_method e base ptr r = Ret (after SP ptr, r') /\
    emits e r (if is_nil (until SP ptr).2 then [] else [kvar "REQUEST_METHOD" (base ++ (until SP ptr).1)]) r' /\
    ignore_body r' = ignore_body r ||
      (negb (is_nil (until SP ptr).2) && bytes_eqb (base ++ (until SP ptr).1) (chars "HEAD")).
Proof.
  intros Hok. revert base. unfold after, until. induction ptr as [|c ptr IH]; intros base; cbn [request_method].
  - eexists. split; [done|]. split; [apply emits_nil|]. cbn. by rewrite orb_false_r.
  - destruct (Z.eqb_spec c SP) as [->|Hc].
    + step_hvar. rewrite span_cons_false by done. cbn [fst snd is_nil negb andb]. rewrite app_nil_r.
      eexists. split; [done|].
      assert ((zlen base =? 4) && upsgi_strncmp (chars "HEAD") base = bytes_eqb base (chars "HEAD")) as ->.
      { rewrite upsgi_strncmp_spec. unfold bytes_eqb. destruct (Z.eqb_spec (zlen base) 4); cbn.
        - apply bool_decide_ext. naive_solver.
        - symmetry. apply bool_decide_eq_false_2. by intros ->. }
      destruct (bytes_eqb base (chars "HEAD")); rewrite ?orb_true_r, ?orb_false_r; (split; [|done]).
      * by eapply emits_proper.
      * done.
    + destruct (IH (base ++ [c])) as (r' & E & H). exists r'. rewrite E.
      rewrite span_cons_true by (by rewrite (proj2 (Z.eqb_neq _ _) Hc)). cbn [fst snd].
      rewrite <- !app_assoc in H. by split.
Qed.

Lemma path_info_emits path r kvs :
  packet_ok e.(buffer_size) kvs (pk r) ->
  exists r', http_add_path_info e path r = Ret r' /\
    emits e r [kvar "PATH_INFO" (decoded_path e path)] r' /\ ignore_body r' = ignore_body r.
Proof.
  intros Hok. unfold http_add_path_info, decoded_path.
  destruct (http_path_needs_decode (arg16 path)) eqn:En; cbn [negb].
  - destruct (url_decode4_total (arg16 path) e.(no_decode_slashes)) as (out & -> & _). cbn [obind].
    by apply (hvar_emits _ _ _ kvs).
  - rewrite needs_decode_false by done. by apply (hvar_emits _ _ _ kvs).
Qed.

Lemma emits_ok r vs r' kvs :
  packet_ok e.(buffer_size) kvs (pk r) -> emits e r vs r' ->
  exists added, packet_ok e.(buffer_size) (kvs ++ added) (pk r').
Proof. intros Hok H. destruct (H _ Hok) as (x & ? & _). eauto. Qed.

(** The part of the URI in front of [ptr] and what the scan does with it. *)
Lemma request_uri_query_spec base q ptr r kvs :
  packet_ok e.(buffer_size) kvs (pk r) ->
  exists r', request_uri e base (Some q) ptr r = Ret (after SP ptr, r') /\
    emits e r (if is_nil (until SP ptr).2 then []
               else [kvar "REQUEST_URI" (base ++ (until SP ptr).1); kvar "QUERY_STRING" (q ++ (until SP ptr).1)]) r' /\
    ignore_body r' = ignore_body r.
Proof.
  intros Hok. revert base q. unfold after, until. induction ptr as [|c ptr IH]; intros base q; cbn [request_uri].
  - eexists. split; [done|]. split; [apply emits_nil | done].
  - rewrite (bool_decide_eq_true_2 (is_Some (Some q))) by eauto. rewrite andb_false_r.
    destruct (Z.eqb_spec c SP) as [->|Hc].
    + step_hvar. step_hvar. rewrite span_cons_false by done. cbn [fst snd is_nil]. rewrite !app_nil_r.
      eexists. split; [done|]. split; [|congruence]. by eapply (emits_app _ _ [_] _ [_]).
    + destruct (IH (base ++ [c]) (q ++ [c])) as (r' & E & H). exists r'. cbn [fmap option_fmap option_map]. rewrite E.
      rewrite span_cons_true by (by rewrite (proj2 (Z.eqb_neq _ _) Hc)). cbn [fst snd].
      rewrite <- !app_assoc in H. by split.
Qed.

Lemma until_app c base l :
  Forall (fun x => x <> c) base -> until c (base ++ l) = (base ++ (until c l).1, (until c l).2).
Proof.
  unfold until. induction 1 as [|x base Hx HF IH]; [cbn; by destruct (span (fun x => negb (x =? c)) l)|]. cbn [app].
  rewrite span_cons_true by (by rewrite (proj2 (Z.eqb_neq _ _) Hx)). by rewrite IH.
Qed.

Lemma until_stop c l : until c (c :: l) = ([], c :: l).
Proof. unfold until. apply span_cons_false. by rewrite Z.eqb_refl. Qed.

Lemma until_skip c x l : x <> c -> until c (x :: l) = (x :: (until c l).1, (until c l).2).
Proof. intros H. unfold until. apply span_cons_true. by rewrite (proj2 (Z.eqb_neq x c) H). Qed.

Lemma until_none c l : Forall (fun x => x <> c) l -> until c l = (l, []).
Proof. intros H. rewrite <- (app_nil_r l) at 1. rewrite until_app by done. cbn. by rewrite app_nil_r. Qed.

Lemma request_uri_spec base ptr r kvs :
  packet_ok e.(buffer_size) kvs (pk r) ->
  Forall (fun c => c <> SP) base -> Forall (fun c => c <> 63) base ->
  exists r', request_uri e base None ptr r = Ret (after SP ptr, r') /\
    emits e r (uri_vars e (base ++ ptr)) r' /\ ignore_body r' = ignore_body r.
Proof.
  intros Hok. revert base. unfold after, uri_vars.
  induction ptr as [|c ptr IH]; intros base HSP HQ; cbn [request_uri].
  - rewrite (until_app SP), (until_app 63 _ _ HQ) by done. cbn [until span fst snd].
    eexists. split; [done|]. split; [apply emits_nil | done].
  - cbn [bool_decide decide]. rewrite (bool_decide_eq_false_2 (is_Some None)) by (by intros []).
    cbn [negb]. rewrite andb_true_r. destruct (Z.eqb_spec c 63) as [->|H63].
    + destruct (path_info_emits base r kvs Hok) as (r1 & -> & Hem1 & Hib1). cbn [obind].
      destruct (emits_ok _ _ _ _ Hok Hem1) as (x & Hok1).
      destruct (request_uri_query_spec (base ++ [63]) [] ptr r1 _ Hok1) as (r2 & -> & Hem2 & Hib2).
      rewrite (until_app SP), (until_skip SP) by done. cbn [fst snd].
      rewrite (until_app 63 _ _ HQ), until_stop. cbn [fst snd]. rewrite app_nil_r.
      exists r2. split; [done|]. split; [|congruence].
      rewrite <- app_assoc in Hem2. cbn [app] in Hem2.
      pose proof (emits_app _ _ _ _ _ _ Hem1 Hem2) as Hem. by destruct ((until SP ptr).2).
    + destruct (Z.eqb_spec c SP) as [->|HS].
      * step_hvar. destruct (path_info_emits base r0 _ Hok0) as (r1 & -> & Hem1 & Hib1). cbn [obind].
        destruct (emits_ok _ _ _ _ Hok0 Hem1) as (x & Hok1). step_hvar.
        rewrite (until_app SP), until_stop by done. cbn [fst snd].
        rewrite (app_nil_r base), (until_none 63 base HQ). eexists. split; [done|]. split; [|congruence].
        eapply (emits_app _ _ [_] _ [_; _]); [done|]. by eapply (emits_app _ _ [_] _ [_]).
      * destruct (IH (base ++ [c])) as (r' & E & Hem & Hib); [apply Forall_app; split; [done | by constructor] ..|]. exists r'.
        rewrite <- app_assoc in Hem. cbn [fmap option_fmap option_map]. rewrite E.
        rewrite until_skip by done. by split.
Qed.

Lemma server_protocol_spec base ptr r kvs :
  packet_ok e.(buffer_size) kvs (pk r) -> Forall (fun c => c <> CR) base ->
  match protocol_end (base ++ ptr) with
  | Some (vs, rest) => exists r', server_protocol e base ptr r = Ret (Some rest, r') /\ emits e r vs r' /\
                       ignore_body r' = ignore_body r
  | None => server_protocol e base ptr r = Ret (None, r)
  end.
Proof.
  intros Hok. revert base. unfold protocol_end.
  induction ptr as [|c ptr IH]; intros base HF; cbn [server_protocol].
  - rewrite until_app by done. cbn. eexists. split; [done|]. split; [apply emits_nil | done].
  - destruct (Z.eqb_spec c CR) as [->|Hc].
    + rewrite until_app, until_stop by done. cbn [fst snd]. rewrite app_nil_r.
      destruct ptr as [|c1 ptr]; [done|]. destruct (Z.eqb_spec c1 LF) as [->|]; cbn [andb negb]; [|done].
      destruct (Z.leb_spec (zlen base) 65535), (Z.ltb_spec 65535 (zlen base)); try lia; [|done].
      step_hvar. eexists. by split_and!.
    + specialize (IH (base ++ [c])). rewrite <- app_assoc in IH. apply IH.
      apply Forall_app. split; [done | by constructor].
Qed.

Lemma emits_cons r v r1 vs r2 : emits e r [v] r1 -> emits e r1 vs r2 -> emits e r (v :: vs) r2.
Proof. apply (emits_app e r [v]). Qed.

Ltac emits_chain :=
  cbn [app]; repeat (eapply emits_cons; [eassumption|]); apply emits_nil.

Lemma connection_vars_spec i r kvs :
  packet_ok e.(buffer_size) kvs (pk r) ->
  match conn_vars e i with
  | Some vs => exists r', connection_vars e i r = Ret (true, r') /\ emits e r vs r' /\ ignore_body r' = ignore_body r
  | None => exists r' vs, connection_vars e i r = Ret (false, r') /\ emits e r vs r' /\ ignore_body r' = ignore_body r
  end.
Proof.
  intros Hok. unfold connection_vars, conn_vars, opt_var, opt_kv.
  destruct (manage_script_name e), (proxy_dst i), (proxy_dst_port i), (server_port e) as [port|],
    (proxy_src i), (proxy_src_port i), (remote_ntop e); try destruct (0 <? zlen port);
  repeat (first [step_hvar | progress cbn [obind]]);
  try (destruct (0 <? zlen (https e)); repeat (first [step_hvar | progress cbn [obind]]));
  first [ eexists; split; [done|]; split; [emits_chain | congruence]
        | eexists _, _; split; [done|]; split; [emits_chain | congruence] ].
Qed.

(** ** Headers *)

Lemma header_add_eq s p :
  http_add_upsgi_header e s p = proto_base_add_upsgi_var e.(buffer_size) (header_var s).1 (header_var s).2 p.
Proof.
  unfold http_add_upsgi_header, proto_base_add_upsgi_var, header_var. cbn [fst snd].
  set (prefix := if s_has_prefix s then chars "HTTP_" else []).
  assert (zlen (prefix ++ (norm_char <$> s_key s)) = zlen (s_key s) + zlen prefix) as ->.
  { rewrite zlen_app, zlen_fmap_small. lia. }
  zcase; [done|]. repeat (destruct (mwrite _ _ _); cbn [obind]; try done).
  do 2 f_equal. lia.
Qed.

Lemma zlen_encode_1 v : zlen (encode [v]) = zlen v.1 + zlen v.2 + 4.
Proof. destruct v as [k v]. unfold encode. cbn [mbind list_bind]. rewrite app_nil_r. apply zlen_var_block. Qed.

Lemma header_add_spec s p kvs :
  packet_ok e.(buffer_size) kvs p -> e.(buffer_size) <= 2 ^ 16 -> s.(s_key) <> [] ->
  (zlen (encode (kvs ++ [header_var s])) < e.(buffer_size) /\ exists n p', 0 < n /\
     http_add_upsgi_header e s p = Ret (n, p') /\ u64 (p.(plen) + n) = p.(plen) + n /\
     packet_ok e.(buffer_size) (kvs ++ [header_var s]) (p'<|plen := p.(plen) + n|>)) \/
  (e.(buffer_size) <= zlen (encode (kvs ++ [header_var s])) /\ http_add_upsgi_header e s p = Ret (0, p)).
Proof.
  intros Hok Hbs Hne. rewrite header_add_eq, zlen_encode_app, zlen_encode_1, <- (packet_plen _ _ _ Hok).
  pose proof Hok as [_ Hl Hsz _ _]. destruct (header_var s) as [k v] eqn:Ehv. cbn [fst snd].
  assert (0 < zlen k) as Hk.
  { unfold header_var in Ehv. simplify_eq. rewrite zlen_app, zlen_fmap_small. zlen_facts.
    destruct (s_key s) as [|c l]; [done|]. rewrite (zlen_cons c l) in *. zlen_facts. lia. }
  zlen_facts. destruct (Z.le_gt_cases e.(buffer_size) (plen p + zlen k + zlen v + 4)) as [Hno|Hfit].
  - right. split; [lia|]. unfold proto_base_add_upsgi_var. by rewrite (proj2 (Z.leb_le _ _)) by lia.
  - left. split; [lia|].
    destruct (add_upsgi_var_spec _ kvs p k v Hok) as [(_ & p' & -> & Hok' & _)|[? _]];
      [unfold key_ok; lia | unfold val_ok; lia | | lia].
    exists (zlen k + zlen v + 4), p'. split; [lia|]. split; [done|]. split; [apply wrap_small; lia | done].
Qed.

Lemma span_length p l : (length (span p l).2 <= length l)%nat.
Proof. induction l as [|c l IH]; [done|]. cbn. destruct (p c); [|done]. destruct (span p l). cbn in *. lia. Qed.

Lemma span_head p l : match (span p l).2 with c :: _ => p c = false | [] => True end.
Proof.
  induction l as [|c l IH]; [done|]. cbn. destruct (p c) eqn:E; [|done]. by destruct (span p l).
Qed.

Lemma span_app p l : (span p l).1 ++ (span p l).2 = l.
Proof. induction l as [|c l IH]; [done|]. cbn. destruct (p c); [|done]. destruct (span p l). cbn in *. by rewrite IH. Qed.

Lemma has_token_total fuel value token :
  (length value < fuel)%nat -> exists b, has_token_loop fuel value token = Ret b.
Proof.
  revert value. induction fuel as [|fuel IH]; intros value Hf; [lia|]. cbn [has_token_loop].
  destruct (0 <? zlen value); [|eauto].
  set (v := (span _ value).2).
  pose proof (span_length (fun c => is_blank c || (c =? 44)) value) as Hl1. fold v in Hl1.
  pose proof (span_head (fun c => is_blank c || (c =? 44)) value) as Hh. fold v in Hh.
  destruct (Z.eqb_spec (zlen v) 0); [eauto|].
  destruct (span (fun c => negb (c =? 44) && negb (c =? 59)) v) as [item v'] eqn:E.
  destruct (_ && _); [eauto|]. apply IH.
  pose proof (span_length (fun c => negb (c =? 44)) v') as Hl2.
  pose proof (span_app (fun c => negb (c =? 44) && negb (c =? 59)) v) as Ha. rewrite E in Ha. cbn in Ha.
  destruct item as [|x item].
  - (* the item is empty: a semicolon, which the last span skips *)
    cbn in Ha. subst v'. destruct v as [|c v]; [done|].
    cbn in E. destruct (c =? 44) eqn:E44; [by rewrite orb_true_r in Hh|]. cbn in Hl2 |- *. rewrite E44. cbn.
    pose proof (span_length (fun c => negb (c =? 44)) v). destruct (span _ v). cbn in *. lia.
  - apply (f_equal length) in Ha. rewrite length_app in Ha. cbn in Ha. lia.
Qed.

Lemma chunked_token_total v : exists b, http_header_value_has_chunked_token v = Ret b.
Proof. apply has_token_total. lia. Qed.

Lemma emit_headers_spec l scl ste r kvs :
  packet_ok e.(buffer_size) kvs (pk r) -> e.(buffer_size) <= 2 ^ 16 -> Forall (fun s => s.(s_key) <> []) l ->
  scl && ste = false ->
  let conflict := (scl || existsb is_content_length l) && (ste || existsb is_chunked_te l) in
  exists ret r' added, emit_headers e l scl ste r = Ret (ret, r') /\
    packet_ok e.(buffer_size) (kvs ++ added) (pk r') /\ ignore_body r' = ignore_body r /\
    ((ret = 0 /\ added = header_var <$> l /\ conflict = false) \/
     (ret = 1 /\ (conflict = true \/ e.(buffer_size) <= zlen (encode (kvs ++ (header_var <$> l)))))).
Proof.
  intros Hok Hbs HF. revert r kvs scl ste Hok. induction HF as [|s l Hs HF IH]; intros r kvs scl ste Hok Hcs conflict.
  - exists 0, r, []. rewrite app_nil_r. split_and!; try done. left. split_and!; [done|done|].
    unfold conflict. cbn. by rewrite !orb_false_r.
  - cbn [emit_headers]. destruct (chunked_token_total (s_value s)) as [b Hb].
    set (scl' := scl || is_content_length s). set (ste' := ste || (is_transfer_encoding s && b)).
    assert (is_content_length s = true -> is_transfer_encoding s = true -> False) as Hexcl.
    { unfold is_content_length, is_transfer_encoding. destruct (Z.eqb_spec (zlen (s_key s)) 14), (Z.eqb_spec (zlen (s_key s)) 17); cbn; lia || done. }
    assert (conflict = (scl' || existsb is_content_length l) && (ste' || existsb is_chunked_te l)) as Ec.
    { subst conflict scl' ste'. cbn [existsb]. unfold is_chunked_te at 1. by rewrite Hb, !orb_assoc. }
    assert ((if is_content_length s then Ret (ste, (true, ste))
        else let* chunked := if is_transfer_encoding s then http_header_value_has_chunked_token (s_value s) else Ret false in
          if chunked : bool then Ret (scl, (scl, true)) else Ret (false, (scl, ste)))
        = Ret (scl' && ste', (scl', ste'))) as ->.
    { subst scl' ste'. destruct (is_content_length s), (is_transfer_encoding s); rewrite ?Hb; try (by destruct Hexcl);
        cbn [obind]; try destruct b; destruct scl, ste; try done. }
    cbn [obind]. destruct (scl' && ste') eqn:Ebr.
    { exists 1, r, []. rewrite app_nil_r. split_and!; try done. right. split; [done|]. left.
      rewrite Ec. apply andb_true_iff in Ebr as [-> ->]. done. }
    destruct (header_add_spec s (pk r) kvs Hok Hbs Hs) as [(Hfit & n & p' & Hn & -> & Hu & Hok')|[Hno ->]];
      cbn [obind].
    + rewrite Hu. set (r1 := r<|pk := _|>). change (plen (pk r1)) with (plen (pk r) + n).
      destruct (Z.eqb_spec (plen (pk r)) (plen (pk r) + n)); [lia|]. cbn [fst snd].
      destruct (IH r1 (kvs ++ [header_var s]) scl' ste' Hok' Ebr) as (ret & r' & added & E & Hok2 & Hib & Hres).
      exists ret, r', (header_var s :: added). rewrite E, Ec. rewrite <- app_assoc in Hok2.
      split_and!; try done. rewrite <- app_assoc in Hres. cbn [app] in Hres. cbn [fmap list_fmap].
      destruct Hres as [(-> & -> & ?)|[-> ?]]; [by left | by right].
    + exists 1, r, []. rewrite Z.add_0_r, wrap_small by (destruct Hok as [? ? ? ? ?]; lia).
      change (plen (pk (r<|pk := (pk r)<|plen := plen (pk r)|>|>))) with (plen (pk r)). rewrite Z.eqb_refl.
      assert (r<|pk := (pk r)<|plen := plen (pk r)|>|> = r) as -> by (by destruct r as [[? ?] ?]).
      rewrite app_nil_r. split_and!; try done. right. split; [done|]. right.
      cbn [fmap list_fmap]. change (header_var s :: ?x) with ([header_var s] ++ x).
      rewrite (assoc_L (++)), zlen_encode_app. zlen_facts. lia.
Qed.

End with_env.

(** ** The header table *)

(** Two names the table takes for the same. *)
Definition name_match (a b : list Z) : bool := (zlen a =? zlen b) && upsgi_strnicmp a b.

Lemma name_match_spec a b : name_match a b = true <-> length a = length b /\ strncasecmp_eq a b = true.
Proof.
  unfold name_match, upsgi_strnicmp. destruct (Z.eqb_spec (zlen a) (zlen b)) as [E|E]; unfold zlen in E; cbn.
  - split; [intros; split; [lia | done] | by intros []].
  - split; [done | intros [? _]; lia].
Qed.

Lemma name_match_trans a b c : name_match a b = true -> name_match b c = true -> name_match a c = true.
Proof.
  rewrite !name_match_spec. intros [? ?] [? ?]. split; [congruence|]. by eapply strncasecmp_eq_trans.
Qed.
Lemma name_match_sym a b : name_match a b = true -> name_match b a = true.
Proof. rewrite !name_match_spec. intros [? H]. split; [done|]. by rewrite strncasecmp_eq_sym. Qed.

Lemma name_match_lower a b :
  Forall (fun c => c <> 0) b -> name_match a b = true -> tolower <$> a = tolower <$> b.
Proof.
  intros HF [Hl H]%name_match_spec. rewrite strncasecmp_eq_sym in H. symmetry.
  apply strncasecmp_eq_inv; [done | unfold zlen; lia | done].
Qed.

Lemma lower_nonzero (a b : list Z) :
  tolower <$> a = tolower <$> b -> Forall (fun c => c <> 0) b -> Forall (fun c => c <> 0) a.
Proof.
  intros E HF. revert a E. induction HF as [|y b Hy HF IH]; intros [|x a]; cbn; try done.
  intros [= E E']. constructor; [|by apply IH]. rewrite <- tolower_zero, E, tolower_zero. done.
Qed.

Lemma norm_char_lower c : norm_char (tolower c) = norm_char c.
Proof.
  unfold tolower, isupper. destruct (Z.leb_spec 65 c), (Z.leb_spec c 90); cbn [andb]; try done.
  unfold norm_char. destruct (Z.leb_spec 97 (c + 32)), (Z.leb_spec (c + 32) 122), (Z.leb_spec 97 c); try lia.
  cbn [andb]. by replace (c + 32 - 32) with c by lia.
Qed.

Lemma norm_lower (a b : list Z) : tolower <$> a = tolower <$> b -> norm_char <$> a = norm_char <$> b.
Proof.
  intros H. apply (f_equal (fmap norm_char)) in H. rewrite <- !list_fmap_compose in H.
  erewrite !(list_fmap_ext (norm_char ∘ tolower) norm_char) in H; [done|..]; intros; apply norm_char_lower.
Qed.

Lemma merge_nonzero k : http_header_reject_duplicate k = false -> Forall (fun c => c <> 0) k.
Proof.
  unfold http_header_reject_duplicate. repeat (destruct (http_header_name_eq _ _); [done|]).
  destruct (http_header_allow_duplicate_merge k) eqn:E; [|done]. intros _.
  apply existsb_exists in E as (name & Hin & E). apply andb_true_iff in E as [_ E].
  unfold http_header_name_eq in E. destruct (negb _); [done|]. apply bytes_eqb_spec in E.
  assert (Forall (fun c => c <> 0) (chars name)) as HF.
  { unfold mergeable_headers in Hin.
    repeat (destruct Hin as [<-|Hin]; [by repeat constructor|]). done. }
  rewrite <- E, Forall_fmap in HF. eapply Forall_impl; [exact HF|]. intros x Hx ->. by apply Hx.
Qed.

Lemma reject_norm (a b : list Z) :
  norm_char <$> a = norm_char <$> b -> http_header_reject_duplicate a = http_header_reject_duplicate b.
Proof.
  intros E. assert (zlen a = zlen b) as El.
  { apply (f_equal zlen) in E. by rewrite !zlen_fmap_small in E. }
  assert (forall n, http_header_name_eq a n = http_header_name_eq b n) as Hn
    by (intros; unfold http_header_name_eq; by rewrite E, El).
  unfold http_header_reject_duplicate, http_header_allow_duplicate_merge. rewrite !Hn, El.
  assert (existsb (fun name => (zlen b =? zlen (chars name)) && http_header_name_eq a (chars name)) mergeable_headers
    = existsb (fun name => (zlen b =? zlen (chars name)) && http_header_name_eq b (chars name)) mergeable_headers) as ->.
  { induction mergeable_headers; cbn; [done|]. by rewrite Hn, IHl. }
  done.
Qed.

(** Names that match agree on whether they may be repeated. *)
Lemma reject_compat a b :
  name_match a b = true -> http_header_reject_duplicate b = false -> http_header_reject_duplicate a = false.
Proof.
  intros Hm Hr. rewrite <- Hr. apply reject_norm, norm_lower, name_match_lower; [by apply merge_nonzero | done].
Qed.

Record table_ok (t : http_header_table) : Prop := {
  tb_room : zlen t.(slots) <= t.(tsize);
  tb_size : 0 < t.(tsize);
  tb_keys : Forall (fun s => s.(s_key) <> []) t.(slots);
}.

Lemma to_cgi_loop_keylen hh i st kl val kl' v :
  header_to_cgi_loop hh i st kl val = (kl', v) -> kl' = kl \/ i <= kl' < i + zlen hh.
Proof.
  revert i st kl val. induction hh as [|c hh IH]; intros i st kl val; cbn [header_to_cgi_loop].
  - intros [= <- <-]. by left.
  - rewrite zlen_cons. zlen_facts. repeat case_match; intros E; apply IH in E; lia.
Qed.

Lemma to_cgi_key line k v p : http_header_to_cgi line = Some (k, v, p) -> k <> [].
Proof.
  unfold http_header_to_cgi. destruct (header_to_cgi_loop line 0 0 0 None) as [kl [val|]] eqn:E; [|done].
  apply to_cgi_loop_keylen in E. destruct (Z.eqb_spec kl 0); [done|]. intros [= <- <- _] Hn.
  apply (f_equal zlen) in Hn. rewrite zlen_take, zlen_nil in Hn; lia.
Qed.

Lemma slots_find_Some l k i :
  slots_find l k = Some i -> exists s, l !! i = Some s /\ name_match s.(s_key) k = true.
Proof.
  revert i. induction l as [|s l IH]; intros i; cbn; [done|].
  destruct (_ && _) eqn:E; [intros [= <-]; eauto|].
  destruct (slots_find l k) as [j|]; cbn; [|done]. intros [= <-]. by apply IH.
Qed.

Lemma slots_find_None l k s : slots_find l k = None -> s ∈ l -> name_match s.(s_key) k = false.
Proof.
  induction l as [|s' l IH]; cbn; [by intros _ ?%not_elem_of_nil|].
  destruct (_ && _) eqn:E; [done|]. destruct (slots_find l k); [done|]. intros _ [->|Hin]%elem_of_cons; auto.
Qed.

Abbreviation parsed := (list Z * list Z * bool)%type.
Definition p_key (x : parsed) : list Z := x.1.1.
Definition p_val (x : parsed) : list Z := x.1.2.

(** The table accounts for the header lines read so far. *)
Definition tracks (done : list parsed) (t : http_header_table) : Prop :=
  forall x, x ∈ done -> exists s, s ∈ t.(slots) /\ name_match s.(s_key) (p_key x) = true /\
    (http_header_reject_duplicate (p_key x) = true -> s.(s_value) = p_val x).

(** Only mergeable headers are repeated. *)
Definition no_bad_duplicates (done : list parsed) : Prop :=
  forall i j x y, (i < j)%nat -> done !! i = Some x -> done !! j = Some y ->
    name_match (p_key x) (p_key y) = true -> http_header_reject_duplicate (p_key y) = false.

Lemma header_line_total line t :
  table_ok t -> exists o, http_header_line line t = Ret o /\ (forall t', o = Some t' -> table_ok t').
Proof.
  intros [Hr Hs Hk]. unfold http_header_line.
  destruct (http_header_to_cgi line) as [[[k v] p]|] eqn:E; [|by eexists; split].
  apply to_cgi_key in E. unfold http_header_table_find. destruct (slots_find (slots t) k) as [i|] eqn:Ef.
  - destruct (http_header_reject_duplicate k); (eexists; split; [done|]); [done|]. intros t' [= <-].
    split; cbn; [unfold zlen in *; by rewrite length_alter | done |].
    apply Forall_alter; [done|]. done.
  - unfold table_push, http_header_table_reserve. zlen_facts.
    destruct (Z.ltb_spec (zlen (slots t)) (tsize t)) as [Hlt|Hge].
    + rewrite (proj2 (Z.ltb_lt _ _)) by done. cbn [obind]. eexists. split; [done|]. intros t' [= <-].
      split; cbn; [rewrite zlen_app; change (zlen [_]) with 1; lia | done |].
      apply Forall_app. split; [done|]. by apply Forall_singleton.
    + cbn [slots tsize]. destruct (Z.eqb_spec (tsize t) 0); [lia|].
      rewrite (proj2 (Z.ltb_lt _ _)) by lia. cbn [obind]. eexists. split; [done|]. intros t' [= <-].
      split; cbn; [rewrite zlen_app; change (zlen [_]) with 1; lia | lia |].
      apply Forall_app. split; [done|]. by apply Forall_singleton.
Qed.

Lemma header_line_tracks line t t' done :
  tracks done t -> no_bad_duplicates done -> http_header_line line t = Ret (Some t') ->
  exists x, http_header_to_cgi line = Some x /\ tracks (done ++ [x]) t' /\ no_bad_duplicates (done ++ [x]).
Proof.
  intros Htr Hnd. unfold http_header_line.
  destruct (http_header_to_cgi line) as [[[k v] p]|]; [|done].
  unfold http_header_table_find. destruct (slots_find (slots t) k) as [i|] eqn:Ef.
  - apply slots_find_Some in Ef as (s & Hi & Hm).
    destruct (http_header_reject_duplicate k) eqn:Er; [done|]. intros [= <-].
    eexists. split; [done|]. split.
    + intros x [Hx|Hx%list_elem_of_singleton]%elem_of_app.
      * destruct (Htr x Hx) as (s' & Hin & Hm' & Hv). apply list_elem_of_lookup in Hin as [j Hj].
        destruct (decide (i = j)) as [->|Hne].
        -- rewrite Hi in Hj. injection Hj as <-. exists (slot_merge v s). split; [|split; [done|]].
           ++ apply list_elem_of_lookup. exists j. cbn. by rewrite list_lookup_alter_eq, Hi.
           ++ intros Hx'. exfalso. apply name_match_sym in Hm'.
              pose proof (reject_compat _ _ (name_match_trans _ _ _ Hm' Hm) Er). congruence.
        -- exists s'. split; [|done]. apply list_elem_of_lookup. exists j. cbn.
           by rewrite list_lookup_alter_ne.
      * subst x. exists (slot_merge v s). split; [|split; [done|]].
        -- apply list_elem_of_lookup. exists i. cbn. by rewrite list_lookup_alter_eq, Hi.
        -- cbn. congruence.
    + intros a b x y Hab Ha Hb Hxy. apply lookup_app_Some in Hb as [Hb|[Hlb Hb]].
      * rewrite lookup_app_l in Ha by (apply lookup_lt_Some in Hb; lia). by eapply Hnd.
      * apply list_lookup_singleton_Some in Hb as [_ <-]. done.
  - destruct (table_push _ _) as [t1| | |] eqn:Ep; try done. cbn [obind]. intros [= <-].
    assert (slots t1 = slots t ++ [mk_slot k v p]) as Esl.
    { unfold table_push, http_header_table_reserve in Ep. repeat case_match; by simplify_eq. }
    eexists. split; [done|]. split.
    + intros x [Hx|Hx%list_elem_of_singleton]%elem_of_app.
      * destruct (Htr x Hx) as (s' & Hin & H). exists s'. rewrite Esl. split; [|done]. apply elem_of_app. by left.
      * subst x. exists (mk_slot k v p). rewrite Esl. split; [apply elem_of_app; right; by apply list_elem_of_singleton|].
        split; [|done]. apply name_match_spec. split; [done|]. by apply strncasecmp_eq_tolower.
    + intros a b x y Hab Ha Hb Hxy. apply lookup_app_Some in Hb as [Hb|[Hlb Hb]].
      * rewrite lookup_app_l in Ha by (apply lookup_lt_Some in Hb; lia). by eapply Hnd.
      * apply list_lookup_singleton_Some in Hb as [Hb <-]. cbn in Hxy.
        rewrite lookup_app_l in Ha by lia. apply list_elem_of_lookup_2 in Ha.
        destruct (Htr x Ha) as (s' & Hin & Hm' & _).
        pose proof (slots_find_None _ _ s' Ef Hin). pose proof (name_match_trans _ _ _ Hm' Hxy). congruence.
Qed.

(** The lines of a header section, up to the empty one. *)
Fixpoint section_lines (base ptr : list Z) : list (list Z) :=
  match ptr with
  | [] => []
  | c :: ptr =>
      if c =? CR then
        match ptr with
        | [] => []
        | c1 :: ptr =>
            if c1 =? LF then (if is_nil base then [] else base :: section_lines [] ptr) else []
        end
      else section_lines (base ++ [c]) ptr
  end.

Lemma list_size_ind (P : list Z -> Prop) :
  (forall l, (forall l', (length l' < length l)%nat -> P l') -> P l) -> forall l, P l.
Proof. intros H l. apply (induction_ltof1 _ (@length Z)). exact H. Qed.

Lemma headers_loop_spec ptr base t done :
  table_ok t -> tracks done t -> no_bad_duplicates done ->
  exists o, headers_loop base ptr t = Ret o /\
    forall t', o = Some t' -> table_ok t' /\ exists xs,
      Forall2 (fun l x => http_header_to_cgi l = Some x) (section_lines base ptr) xs /\
      tracks (done ++ xs) t' /\ no_bad_duplicates (done ++ xs).
Proof.
  revert base t done. induction ptr as [ptr IH] using list_size_ind. intros base t done Hok Htr Hnd.
  assert (exists o, Ret (Some t) = Ret o /\ forall t', o = Some t' -> table_ok t' /\ exists xs,
      Forall2 (fun l x => http_header_to_cgi l = Some x) [] xs /\
      tracks (done ++ xs) t' /\ no_bad_duplicates (done ++ xs)) as Hstop.
  { eexists. split; [reflexivity|]. intros t' [= <-]. split; [done|]. exists []. by rewrite app_nil_r. }
  destruct ptr as [|c ptr]; [exact Hstop|]. cbn [headers_loop section_lines].
  destruct (c =? CR).
  2: { apply IH; [cbn; lia | done..]. }
  destruct ptr as [|c1 ptr]; [by eexists; split|]. destruct (c1 =? LF); cbn [negb]; [|by eexists; split].
  destruct (match ptr with c2 :: _ => is_blank c2 | [] => false end); [by eexists; split|].
  destruct base as [|b base]; [exact Hstop|]. cbn [is_nil].
  rewrite (proj2 (Z.eqb_neq (zlen (b :: base)) 0)) by (rewrite zlen_cons; zlen_facts; lia).
  destruct (65535 <? zlen (b :: base)); [by eexists; split|].
  destruct (header_line_total (b :: base) t Hok) as (o & E & Hok'). rewrite E. cbn [obind].
  destruct o as [t1|]; [|by eexists; split].
  destruct (header_line_tracks _ _ _ _ Htr Hnd E) as (x & Hx & Htr' & Hnd').
  destruct (IH ptr ltac:(cbn; lia) [] t1 (done ++ [x]) (Hok' _ eq_refl) Htr' Hnd') as (o & -> & Ho).
  exists o. split; [done|]. intros t' ->. destruct (Ho t' eq_refl) as (? & xs & HF & Htx & Hnx).
  split; [done|]. exists (x :: xs). rewrite <- app_assoc in Htx, Hnx. split; [by constructor | done].
Qed.

Lemma headers_section_spec ptr :
  exists o, headers_loop [] ptr (http_header_table_init 16) = Ret o /\
    forall t', o = Some t' -> table_ok t' /\ exists xs,
      Forall2 (fun l x => http_header_to_cgi l = Some x) (section_lines [] ptr) xs /\
      tracks xs t' /\ no_bad_duplicates xs.
Proof.
  destruct (headers_loop_spec ptr [] (http_header_table_init 16) []) as (o & E & H).
  - split; cbn; [rewrite zlen_nil; lia | lia | constructor].
  - intros x Hx. by apply not_elem_of_nil in Hx.
  - intros i j x y _ Hi. done.
  - exists o. split; [done|]. exact H.
Qed.

(** * Refinement *)

(** The variables of the request line and of the connection, and the header
    section. *)
Definition request_spec (e : http_env) (head : list Z) : option (list kv * list Z) :=
  let '(i, ptr) := if e.(enable_proxy_protocol) then proxy1_parse head else (no_proxy, head) in
  match protocol_end (after SP (after SP ptr)), conn_vars e i with
  | Some (pv, rest), Some cv => Some (method_vars ptr ++ uri_vars e (after SP ptr) ++ pv ++ cv, rest)
  | _, _ => None
  end.

(** The header table of a section that is accepted. *)
Definition section_table (rest : list Z) : option (list http_header_slot) :=
  match headers_loop [] rest (http_header_table_init 16) with
  | Ret (Some t) => if framing_conflict t.(slots) then None else Some t.(slots)
  | _ => None
  end.

(** What a run of [http_parse] that ends with [ret] and [r'] amounts to. *)
Definition http_outcome (e : http_env) (head : list Z) (ret : Z) (added : list kv) : Prop :=
  match request_spec e head with
  | None => ret = -1
  | Some (vs, rest) =>
      match section_table rest with
      | None => ret <> 0
      | Some hs =>
          (ret = 0 /\ exists a, a `sublist_of` vs /\ added = a ++ (header_var <$> hs)) \/
          (ret = 1 /\ e.(buffer_size) <= zlen (encode (vs ++ (header_var <$> hs))))
      end
  end /\
  (forall vs rest hs, request_spec e head = Some (vs, rest) -> section_table rest = Some hs ->
     zlen (encode (vs ++ (header_var <$> hs))) < e.(buffer_size) ->
     ret = 0 /\ added = vs ++ (header_var <$> hs)).

Lemma sublist_encode a b : a `sublist_of` b -> zlen (encode a) <= zlen (encode b).
Proof.
  induction 1 as [|[k v] a b H IH|[k v] a b H IH]; [done|..]; rewrite ?encode_cons, ?zlen_app, ?zlen_var_block; zlen_facts; lia.
Qed.

Lemma http_parse_spec e head r :
  packet_ok e.(buffer_size) [] (pk r) -> e.(buffer_size) <= 2 ^ 16 ->
  exists ret r' added, http_parse e head r = Ret (ret, r') /\
    packet_ok e.(buffer_size) added (pk r') /\ http_outcome e head ret added.
Proof.
  intros Hok Hbs. unfold http_parse, http_outcome, request_spec.
  destruct (if enable_proxy_protocol e then proxy1_parse head else (no_proxy, head)) as [i ptr].
  destruct (request_method_spec e [] ptr r [] Hok) as (r1 & -> & Hem1 & _). cbn [obind].
  destruct (emits_ok _ _ _ _ _ Hok Hem1) as (x1 & Hok1).
  destruct (request_uri_spec e [] (after SP ptr) r1 _ Hok1) as (r2 & -> & Hem2 & _); [constructor..|]. cbn [obind].
  destruct (emits_ok _ _ _ _ _ Hok1 Hem2) as (x2 & Hok2).
  pose proof (server_protocol_spec e [] (after SP (after SP ptr)) r2 _ Hok2 ltac:(constructor)) as H3.
  cbn [app] in H3. destruct (protocol_end _) as [[pv rest]|].
  2: { rewrite H3. cbn [obind]. eexists _, _, _. by split_and!. }
  destruct H3 as (r3 & -> & Hem3 & _). cbn [obind].
  destruct (emits_ok _ _ _ _ _ Hok2 Hem3) as (x3 & Hok3).
  pose proof (connection_vars_spec e i r3 _ Hok3) as H4. destruct (conn_vars e i) as [cv|].
  2: { destruct H4 as (r4 & vs4 & -> & Hem4 & _). cbn [obind negb].
       destruct (emits_ok _ _ _ _ _ Hok3 Hem4) as (x4 & Hok4). eexists _, _, _. by split_and!. }
  destruct H4 as (r4 & -> & Hem4 & _). cbn [obind negb].
  assert (emits e r (method_vars ptr ++ uri_vars e (after SP ptr) ++ pv ++ cv) r4) as Hem.
  { apply (emits_app _ _ _ r1); [unfold method_vars; by destruct (until SP ptr)|].
    apply (emits_app _ _ _ r2); [done|]. by apply (emits_app _ _ _ r3). }
  clear Hem1 Hem2 Hem3 Hem4 Hok1 Hok2 Hok3. set (vs := method_vars ptr ++ _) in *. clearbody vs.
  destruct (Hem [] Hok) as (a & Hok4 & Hsub & Hfit). cbn [app] in Hok4, Hfit.
  destruct (headers_section_spec rest) as (o & E & Ho). unfold section_table. rewrite E. cbn [obind].
  destruct o as [t|].
  2: { exists (-1), r4, a. split_and!; [done..|]. intros ? ? ? [= <- <-]. by rewrite E. }
  destruct (Ho t eq_refl) as ([_ _ Hkeys] & _). clear Ho.
  destruct (emit_headers_spec e (slots t) false false r4 a Hok4 Hbs Hkeys eq_refl)
    as (ret & r5 & added & -> & Hok5 & _ & Hres). cbn [orb] in Hres. fold (framing_conflict (slots t)) in Hres.
  exists ret, r5, (a ++ added). split; [done|]. split; [done|].
  destruct (framing_conflict (slots t)) eqn:Ec.
  { destruct Hres as [(_ & _ & ?)|[-> _]]; [done|]. split; [done|]. intros ? ? ? [= <- <-]. by rewrite E, Ec. }
  pose proof (sublist_encode a vs Hsub). rewrite !zlen_encode_app in *. split.
  - destruct Hres as [(-> & -> & _)|[-> [?|Hno]]]; [left; eauto | done | right; split; [done | lia]].
  - intros ? ? ? [= <- <-]. rewrite E, Ec. intros [= <-] Hsz. rewrite zlen_encode_app in Hsz. zlen_facts.
    specialize (Hfit ltac:(lia)). subst a.
    destruct Hres as [(-> & -> & _)|[-> [?|Hno]]]; [done | done | lia].
Qed.

(** * Theorems *)


Definition demo_env : http_env :=
  mk_http_env 512 false false false (chars "h") None (AF_other [127; 0; 0; 1]) []
    (fun v6 a => match a with [a; b; c; d] => Some (inet_ntoa a b c d) | _ => None end) 0 0.
Definition demo_req : http_req := mk_req (mk_packet (zrep 512 0) 0) false.
Definition crlf : list Z := [CR; LF].

Lemma demo_req_ok : packet_ok 512 [] (pk demo_req).
Proof. split; [by vm_compute | by vm_compute | done | constructor | done]. Qed.


(** The header lines of a request. *)
Definition header_lines (e : http_env) (head : list Z) : list (list Z) :=
  match request_spec e head with Some (_, rest) => section_lines [] rest | None => [] end.

(** An accepted request has a header table that accounts for its lines. *)
Lemma http_accepted e head r r' :
  packet_ok e.(buffer_size) [] (pk r) -> e.(buffer_size) <= 2 ^ 16 -> http_parse e head r = Ret (0, r') ->
  exists t xs, Forall2 (fun l x => http_header_to_cgi l = Some x) (header_lines e head) xs /\
    tracks xs t /\ no_bad_duplicates xs /\ framing_conflict t.(slots) = false.
Proof.
  intros Hok Hbs E. destruct (http_parse_spec e head r Hok Hbs) as (ret & r1 & added & E' & _ & [Ho _]).
  rewrite E in E'. simplify_eq. unfold header_lines.
  destruct (request_spec e head) as [[vs rest]|]; [|done]. unfold section_table in Ho.
  destruct (headers_section_spec rest) as (o & El & Hl). rewrite El in Ho. destruct o as [t|]; [|done].
  destruct (framing_conflict (slots t)) eqn:Ec; [done|].
  destruct (Hl t eq_refl) as (_ & xs & HF & Ht & Hn). by exists t, xs.
Qed.

Lemma tracks_named t xs x name :
  tracks xs t -> x ∈ xs -> Forall (fun c => c <> 0) (chars name) ->
  upsgi_strnicmp (p_key x) (chars name) = true ->
  exists s, s ∈ t.(slots) /\ (zlen s.(s_key) =? zlen (chars name)) && upsgi_strnicmp s.(s_key) (chars name) = true /\
    (http_header_reject_duplicate (p_key x) = true -> s.(s_value) = p_val x).
Proof.
  intros Ht Hx HF Hn. destruct (Ht x Hx) as (s & Hs & Hm & Hv). exists s. split; [done|]. split; [|done].
  apply (name_match_trans _ (p_key x)); [done|]. unfold name_match. rewrite Hn.
  by rewrite (proj2 (Z.eqb_eq _ _) (upsgi_strnicmp_len _ _ Hn)).
Qed.

Lemma transfer_encoding_rejects k :
  upsgi_strnicmp k (chars "Transfer-Encoding") = true -> http_header_reject_duplicate k = true.
Proof.
  intros H. assert (name_match k (chars "Transfer-Encoding") = true) as Hm.
  { unfold name_match. rewrite H. by rewrite (proj2 (Z.eqb_eq _ _) (upsgi_strnicmp_len _ _ H)). }
  apply name_match_lower in Hm; [|by repeat constructor]. apply norm_lower, reject_norm in Hm.
  rewrite Hm. by vm_compute.
Qed.

(** C2: no request smuggling by conflicting framing: a request that is
    accepted and has a Content-Length header has no Transfer-Encoding header
    with a chunked token, in either order and in any letter case. *)
Theorem http_no_framing_conflict e head r r' l1 l2 x1 x2 :
  packet_ok e.(buffer_size) [] (pk r) -> e.(buffer_size) <= 2 ^ 16 -> http_parse e head r = Ret (0, r') ->
  l1 ∈ header_lines e head -> http_header_to_cgi l1 = Some x1 ->
  upsgi_strnicmp (p_key x1) (chars "Content-Length") = true ->
  l2 ∈ header_lines e head -> http_header_to_cgi l2 = Some x2 ->
  upsgi_strnicmp (p_key x2) (chars "Transfer-Encoding") = true ->
  http_header_value_has_chunked_token (p_val x2) = Ret false.
Proof.
  intros Hok Hbs E Hl1 Hx1 Hn1 Hl2 Hx2 Hn2.
  destruct (http_accepted e head r r' Hok Hbs E) as (t & xs & HF & Ht & _ & Hc).
  assert (forall l x, l ∈ header_lines e head -> http_header_to_cgi l = Some x -> x ∈ xs) as Hin.
  { intros l x Hl Hx. apply list_elem_of_lookup in Hl as [i Hi].
    destruct (Forall2_lookup_l _ _ _ _ _ HF Hi) as (x' & Hx' & E'). rewrite Hx in E'. simplify_eq.
    by eapply list_elem_of_lookup_2. }
  destruct (tracks_named t xs x1 "Content-Length" Ht (Hin _ _ Hl1 Hx1) ltac:(by repeat constructor) Hn1)
    as (s1 & Hs1 & Hc1 & _).
  destruct (tracks_named t xs x2 "Transfer-Encoding" Ht (Hin _ _ Hl2 Hx2) ltac:(by repeat constructor) Hn2)
    as (s2 & Hs2 & Hc2 & Hv2). specialize (Hv2 (transfer_encoding_rejects _ Hn2)).
  destruct (chunked_token_total (p_val x2)) as [[|] Hb]; [|done]. exfalso.
  unfold framing_conflict in Hc. apply andb_false_iff in Hc as [Hc|Hc]; rewrite <- not_true_iff_false in Hc; apply Hc;
    apply existsb_exists; [exists s1|exists s2]; (split; [by apply list_elem_of_In|]); [exact Hc1|].
  unfold is_chunked_te, is_transfer_encoding. rewrite Hv2, Hb. rewrite andb_true_r. exact Hc2.
Qed.

Definition demo_post (h1 h2 : string) : list Z :=
  chars "POST / HTTP/1.1" ++ crlf ++ chars h1 ++ crlf ++ chars h2 ++ crlf ++ crlf.

Definition demo_result (head : list Z) : http_req :=
  match http_parse demo_env head demo_req with Ret (_, r') => r' | _ => demo_req end.

Lemma http_no_framing_conflict_witness :
  http_header_value_has_chunked_token (chars "identity") = Ret false.
Proof.
  set (head := demo_post "transfer-encoding: identity" "Content-length: 3").
  apply (http_no_framing_conflict demo_env head demo_req (demo_result head) (chars "Content-length: 3")
    (chars "transfer-encoding: identity") (chars "Content-length", chars "3", false)
    (chars "transfer-encoding", chars "identity", true) demo_req_ok).
  - by vm_compute.
  - by vm_compute.
  - change (chars "Content-length: 3" ∈ [chars "transfer-encoding: identity"; chars "Content-length: 3"]).
    right. left.
  - by vm_compute.
  - by vm_compute.
  - change (chars "transfer-encoding: identity" ∈ [chars "transfer-encoding: identity"; chars "Content-length: 3"]).
    left.
  - by vm_compute.
  - by vm_compute.
Defined.

(** C38: repeated headers: in an accepted request two header lines with the
    same name (in any letter case) carry one of the names that may be merged;
    a repeated Host, Content-Length, Content-Type, Transfer-Encoding or
    unknown header is rejected. *)
Theorem http_duplicates_rejected e head r r' i j l1 l2 x1 x2 :
  packet_ok e.(buffer_size) [] (pk r) -> e.(buffer_size) <= 2 ^ 16 -> http_parse e head r = Ret (0, r') ->
  (i < j)%nat -> header_lines e head !! i = Some l1 -> header_lines e head !! j = Some l2 ->
  http_header_to_cgi l1 = Some x1 -> http_header_to_cgi l2 = Some x2 ->
  name_match (p_key x1) (p_key x2) = true -> http_header_allow_duplicate_merge (p_key x2) = true.
Proof.
  intros Hok Hbs E Hij Hl1 Hl2 Hx1 Hx2 Hm.
  destruct (http_accepted e head r r' Hok Hbs E) as (t & xs & HF & _ & Hn & _).
  destruct (Forall2_lookup_l _ _ _ _ _ HF Hl1) as (y1 & Hy1 & E1).
  destruct (Forall2_lookup_l _ _ _ _ _ HF Hl2) as (y2 & Hy2 & E2). simplify_eq.
  pose proof (Hn i j x1 x2 Hij Hy1 Hy2 Hm) as Hr. unfold http_header_reject_duplicate in Hr.
  repeat (destruct (http_header_name_eq _ _); [done|]).
  by destruct (http_header_allow_duplicate_merge (p_key x2)).
Qed.

Lemma http_duplicates_rejected_witness : http_header_allow_duplicate_merge (chars "ACCEPT") = true.
Proof.
  set (head := demo_post "Accept: a" "ACCEPT: b").
  apply (http_duplicates_rejected demo_env head demo_req (demo_result head) 0 1 (chars "Accept: a") (chars "ACCEPT: b")
    (chars "Accept", chars "a", true) (chars "ACCEPT", chars "b", true) demo_req_ok);
    [by vm_compute | by vm_compute | lia | by vm_compute ..].
Defined.

(** The checks look at the raw names, while the variable names are made by
    mapping the hyphen to the underscore: a Transfer_Encoding header next to a
    Content-Length header is accepted and both variables reach the packet. *)
Theorem http_underscore_passes_framing_check :
  exists r' vars, http_parse demo_env (demo_post "Content-Length: 3" "Transfer_Encoding: chunked") demo_req = Ret (0, r') /\
    upsgi_hooked_parse (ztake (pk r').(plen) (pk r').(buffer)) = Ret (0, vars) /\
    (chars "CONTENT_LENGTH", chars "3") ∈ vars /\ (chars "HTTP_TRANSFER_ENCODING", chars "chunked") ∈ vars.
Proof.
  set (head := demo_post "Content-Length: 3" "Transfer_Encoding: chunked").
  assert (exists d, http_parse demo_env head demo_req = Ret (0, d)) as [d E]
    by (exists (demo_result head); by vm_compute).
  destruct (http_parse_spec demo_env head _ demo_req_ok ltac:(by vm_compute)) as (ret & r1 & added & E' & Hok & [_ Ho]).
  rewrite E in E'. injection E' as <- <-. exists d, added.
  assert (exists vs rest hs, request_spec demo_env head = Some (vs, rest) /\
    section_table rest = Some hs /\ zlen (encode (vs ++ (header_var <$> hs))) < 512 /\
    header_var <$> hs = [(chars "CONTENT_LENGTH", chars "3"); (chars "HTTP_TRANSFER_ENCODING", chars "chunked")])
    as (vs & rest & hs & H1 & H2 & H3 & H4).
  { eexists _, _, _. split; [vm_compute; reflexivity|]. split; [vm_compute; reflexivity|]. by split; vm_compute. }
  destruct (Ho _ _ _ H1 H2 H3) as [_ ->]. rewrite H4. split; [done|].
  split; [rewrite H4 in Hok; by eapply hooked_parse_read_back|].
  split; apply elem_of_app; right; [left | right; left].
Qed.

End Http.
