(* ===== verification/HttpConn.v ===== *)
(** The HTTP connection: how the bytes of a request arrive
    ([upsgi_proto_http_parser]) and how requests and responses are built
    around the parser (proto/http.c). *)
From S2P Require Import Prelude Clib Strings UrlPath Buffer Packet ProtoBase Http.
Import Packet Http.

Module HttpConn.

(** * Definitions *)

(** [atoi(p)] reads on until a byte that is not a digit. *)
Definition http_status_code (buf : list Z) : Z :=
  if zlen buf <? 11 then -1
  else if bytes_eqb (ztake 2 buf) [CR; LF] then -1
  else
    let skipped :=
      if negb (bytes_eqb (ztake 7 buf) (chars "Status:")) then
        match memchr buf CR with
        | None => None
        | Some q =>
            if zlen buf <=? q + 1 then None
            else if negb (bytes_eqb (ztake 1 (zdrop (q + 1) buf)) [LF]) then None
            else Some (zdrop (q + 2) buf)
        end
      else Some buf in
    match skipped with
    | None => -1
    | Some p =>
        let p := (span isspace (zdrop 8 p)).2 in
        if zlen p <=? 0 then -1 else atoi p
    end.

(** The port of a socket name, when there is one. *)
Definition upsgi_http_setup_server_port_cache (name : option (list Z)) : option (list Z) :=
  match name with
  | None => None
  | Some name =>
      match memrchr name 58 with
      | None => None
      | Some i => let port := zdrop (i + 1) name in if zlen port =? 0 then None else Some port
      end
  end.

(** The state of [upsgi_is_full_http]. *)
Fixpoint is_full_http_loop (status : Z) (buf : list Z) : bool :=
  match buf with
  | [] => false
  | c :: buf =>
      if status =? 0 then is_full_http_loop (if c =? CR then 1 else 0) buf
      else if status =? 1 then is_full_http_loop (if c =? LF then 2 else 0) buf
      else if status =? 2 then is_full_http_loop (if c =? CR then 3 else 0) buf
      else if status =? 3 then (if c =? LF then true else is_full_http_loop 0 buf)
      else is_full_http_loop 0 buf
  end.
Definition upsgi_is_full_http (ub : upsgi_buffer) : bool := is_full_http_loop 0 (contents ub).

(** ** HTTP/1.1 connections *)

(** [upsgi_get_var]: the variables are scanned from the last one. *)
Definition upsgi_get_var (vars : list kv) (key : list Z) : option (list Z) :=
  match list_find (fun kv => upsgi_strncmp key kv.1 = true) (rev vars) with
  | Some (_, kv) => Some kv.2
  | None => None
  end.

Definition upsgi_http11_request_wants_close (vars : list kv) : outcome bool :=
  match upsgi_get_var vars (chars "HTTP_CONNECTION") with
  | None => Ret false
  | Some connection =>
      if zlen connection =? 0 then Ret false
      else http_header_value_has_token connection (chars "close")
  end.

(** [rest] is the headers from [pos] on. *)
Fixpoint connection_header_loop (fuel : nat) (rest : list Z) : outcome bool :=
  match fuel with
  | O => NoFuel
  | S fuel =>
      if 1 <? zlen rest then
        match memchr rest LF with
        | None => Ret false
        | Some eol =>
            let line := ztake eol rest in
            let line := if (0 <? eol) && bytes_eqb (zdrop (eol - 1) line) [CR] then ztake (eol - 1) line else line in
            if zlen line =? 0 then Ret false
            else
              let rest := zdrop (eol + 1) rest in
              match memchr line 58 with
              | None => connection_header_loop fuel rest
              | Some _ =>
                  if (11 <=? zlen line) && upsgi_strnicmp (ztake 10 line) (chars "Connection")
                     && bytes_eqb (ztake 1 (zdrop 10 line)) [58]
                  then Ret true
                  else connection_header_loop fuel rest
              end
        end
      else Ret false
  end.

Definition upsgi_http_response_has_connection_header (headers : list Z) : outcome bool :=
  connection_header_loop (S (length headers)) headers.

(** What [upsgi_proto_http11_close] looks at. *)
Record http11_req : Type := mk_http11 {
  write_errors : Z;
  status11 : Z;
  remains11 : Z;
  post_pos : Z;
  post_cl : Z;
  via : Z;
  protocol : list Z;
  vars11 : list kv;
  fd11 : Z;
}.

(** The slot of the socket for this core: whether the descriptor was closed,
    [retry] and [fd_threads]. *)
Record http11_slot : Type := mk_slot11 {
  fd_closed : bool;
  retry : Z;
  fd_thread : Z;
}.

Definition UPSGI_VIA_OFFLOAD : Z := 3.

Definition upsgi_proto_http11_close (r : http11_req) : outcome http11_slot :=
  let* must_close :=
    if negb (r.(write_errors) =? 0) || negb (r.(status11) =? 3) || (0 <? r.(remains11))
       || (r.(post_pos) <? r.(post_cl)) || (r.(via) =? UPSGI_VIA_OFFLOAD)
       || upsgi_strncmp (chars "HTTP/1.0") r.(protocol)
    then Ret true
    else upsgi_http11_request_wants_close r.(vars11) in
  Ret (if must_close : bool then mk_slot11 true 0 (-1) else mk_slot11 false 1 r.(fd11)).

Definition upsgi_proto_http11_fix_headers (env : heap_env) (r : http11_req) : bop := fun headers =>
  let* close := upsgi_http11_request_wants_close r.(vars11) in
  let* add :=
    if close || upsgi_strncmp (chars "HTTP/1.0") r.(protocol) then
      let* has := upsgi_http_response_has_connection_header (contents headers) in Ret (negb has)
    else Ret false in
  if add : bool then
    (upsgi_buffer_append env (chars "Connection: close" ++ [CR; LF]) ;;;
     ProtoBase.upsgi_proto_base_fix_headers env) headers
  else ProtoBase.upsgi_proto_base_fix_headers env headers.

(** [getsockname], [upsgi_wait_read_req] and [accept] are given by their
    results. *)
Definition upsgi_proto_http11_accept (s : http11_slot) (getsockname wait_read accept : Z) : Z * http11_slot :=
  if negb (s.(retry) =? 0) then
    if getsockname <? 0 then (-1, mk_slot11 true 0 (-1))
    else if wait_read <=? 0 then (-1, mk_slot11 true 0 (-1))
    else (s.(fd_thread), s)
  else (accept, s).

(** ** Requests to a backend *)

(** The bytes after the first of each word in lower case, underscores as
    hyphens. *)
Fixpoint httpize (upper : bool) (buf : list Z) : list Z :=
  match buf with
  | [] => []
  | c :: buf =>
      if upper then c :: httpize false buf
      else if c =? 95 then 45 :: httpize true buf
      else tolower c :: httpize false buf
  end.
Definition upsgi_httpize_var (buf : list Z) : list Z := httpize true buf.

(** [upsgi_buffer_append(ub, header)] and [upsgi_httpize_var] on the bytes
    appended. *)
Definition append_httpized (env : heap_env) (header : list Z) : bop := fun ub =>
  let* (r, ub) := upsgi_buffer_append env header ub in
  if negb (r =? 0) then Ret (-1, ub)
  else
    let off := ub.(pos) - zlen header in
    let* s := mslice ub.(buf) off (zlen header) in
    let* b := mwrite ub.(buf) off (upsgi_httpize_var s) in
    Ret (0, ub<|buf := b|>).

(** What the proxy functions read of the request. *)
Record fwd_req : Type := mk_fwd {
  f_method : list Z;
  f_uri : list Z;
  f_protocol : list Z;
  f_vars : list kv;
  f_content_type : list Z;
  f_post_cl : Z;
  f_remote_addr : list Z;
}.

(** Headers left out: [Host] when it is replaced, and those that only make
    sense for one hop unless the request is passed on as it is ([dumb]). *)
Definition skip_header (dumb : bool) (host : option (list Z)) (header : list Z) : bool :=
  (bool_decide (is_Some host) && upsgi_strncmp header (chars "HOST")) ||
  (negb dumb &&
     (upsgi_strncmp header (chars "CONNECTION") || upsgi_strncmp header (chars "KEEP_ALIVE") ||
      upsgi_strncmp header (chars "TE") || upsgi_strncmp header (chars "TRAILER"))) ||
  upsgi_strncmp header (chars "X_FORWARDED_FOR").

Definition crlf : list Z := [CR; LF].

Fixpoint forward_headers (env : heap_env) (dumb : bool) (host : option (list Z)) (vars : list kv) : bop :=
  match vars with
  | [] => fun ub => Ret (0, ub)
  | (k, v) :: vars =>
      if upsgi_starts_with k (chars "HTTP_") then
        let header := zdrop 5 k in
        if skip_header dumb host header then forward_headers env dumb host vars
        else (append_httpized env header ;;; upsgi_buffer_append env (chars ": ") ;;;
              upsgi_buffer_append env v ;;; upsgi_buffer_append env crlf) ;;;
             forward_headers env dumb host vars
      else forward_headers env dumb host vars
  end.

(** The value the loop leaves in [x_forwarded_for]. *)
Definition x_forwarded_for (vars : list kv) : list Z :=
  foldl (fun x kv =>
           if upsgi_starts_with kv.1 (chars "HTTP_") && upsgi_strncmp (zdrop 5 kv.1) (chars "X_FORWARDED_FOR")
           then kv.2 else x) [] vars.

Definition skip_op : bop := fun ub => Ret (0, ub).

(** The part after the headers, common to both functions. *)
Definition forward_tail (env : heap_env) (dumb : bool) (host : option (list Z)) (r : fwd_req) : bop :=
  (match host with
   | Some h => upsgi_buffer_append env (chars "Host: ") ;;; upsgi_buffer_append env h ;;; upsgi_buffer_append env crlf
   | None => skip_op
   end) ;;;
  (if 0 <? zlen r.(f_content_type) then
     upsgi_buffer_append env (chars "Content-Type: ") ;;; upsgi_buffer_append env r.(f_content_type) ;;;
     upsgi_buffer_append env crlf
   else skip_op) ;;;
  (if 0 <? r.(f_post_cl) then
     upsgi_buffer_append env (chars "Content-Length: ") ;;; upsgi_buffer_num64 env r.(f_post_cl) ;;;
     upsgi_buffer_append env crlf
   else skip_op) ;;;
  (if dumb then skip_op else upsgi_buffer_append env (chars "Connection: close" ++ crlf)) ;;;
  upsgi_buffer_append env (chars "X-Forwarded-For: ") ;;;
  (let xff := x_forwarded_for r.(f_vars) in
   if 0 <? zlen xff then upsgi_buffer_append env xff ;;; upsgi_buffer_append env (chars ", ") else skip_op) ;;;
  upsgi_buffer_append env r.(f_remote_addr) ;;;
  upsgi_buffer_append env (crlf ++ crlf).

Definition fwd_uri (uri : option (list Z)) (r : fwd_req) : list Z :=
  match uri with Some u => if zlen u =? 0 then r.(f_uri) else u | None => r.(f_uri) end.

Definition upsgi_to_http_dumb (env : heap_env) (r : fwd_req) (host uri : option (list Z))
    : outcome (option upsgi_buffer) :=
  let* ub := upsgi_buffer_new env 4096 in
  ProtoBase.finish
    ((upsgi_buffer_append env r.(f_method) ;;; upsgi_buffer_append env (chars " ") ;;;
      upsgi_buffer_append env (fwd_uri uri r) ;;;
      upsgi_buffer_append env (chars " ") ;;; upsgi_buffer_append env r.(f_protocol) ;;;
      upsgi_buffer_append env crlf ;;;
      forward_headers env true host r.(f_vars) ;;; forward_tail env true host r) ub).

Definition upsgi_to_http (env : heap_env) (r : fwd_req) (host uri : option (list Z))
    : outcome (option upsgi_buffer) :=
  let* ub := upsgi_buffer_new env 4096 in
  ProtoBase.finish
    ((upsgi_buffer_append env r.(f_method) ;;; upsgi_buffer_append env (chars " ") ;;;
      upsgi_buffer_append env (fwd_uri uri r) ;;;
      upsgi_buffer_append env (chars " HTTP/1.0" ++ crlf) ;;;
      forward_headers env false host r.(f_vars) ;;; forward_tail env false host r) ub).

(** * The end of the head *)

(** The state of the scan is determined by the last bytes read. *)
Definition scan_state (r : list Z) : Z :=
  match r with
  | [] => 0
  | a :: r =>
      if a =? CR then
        match r with b :: c :: _ => if (b =? LF) && (c =? CR) then 3 else 1 | _ => 1 end
      else if a =? LF then match r with b :: _ => if b =? CR then 2 else 0 | [] => 0 end
      else 0
  end.

Definition ends_head (h : list Z) : Prop := exists x, h = x ++ [CR; LF; CR; LF].

Lemma ends_head_snoc pre c : ends_head (pre ++ [c]) <-> c = LF /\ scan_state (rev pre) = 3.
Proof.
  split.
  - intros [x Hx]. replace (x ++ [CR; LF; CR; LF]) with ((x ++ [CR; LF; CR]) ++ [LF]) in Hx by (by rewrite <- app_assoc).
    apply app_inj_tail in Hx as [-> ->]. split; [done|]. by rewrite rev_app_distr.
  - intros [-> H]. rewrite <- (rev_involutive pre). destruct (rev pre) as [|a [|b [|c r]]]; cbn [scan_state] in H;
      repeat (match type of H with context [?x =? ?y] => destruct (Z.eqb_spec x y); [subst|] end; cbn [andb] in H); try done.
    exists (rev r). cbn. by rewrite <- !app_assoc.
Qed.

Lemma scan_step r c :
  ~ (c = LF /\ scan_state r = 3) ->
  (if (c =? CR) && ((scan_state r =? 0) || (scan_state r =? 2)) then scan_state r + 1
   else if c =? CR then 1
   else if (c =? LF) && (scan_state r =? 1) then 2 else 0) = scan_state (c :: r).
Proof.
  intros H. destruct r as [|a [|b [|d r]]]; cbn [scan_state] in *;
    repeat (match goal with |- context [?x =? ?y] => destruct (Z.eqb_spec x y); [subst|] end;
            cbn [andb orb] in *; try done; try lia); try (by destruct H).
  all: repeat (match goal with E : context [?x =? ?y] |- _ => destruct (Z.eqb_spec x y); [subst|] end;
            cbn [andb orb] in *; try done; try lia).
Qed.

Lemma http_scan_cons pre c ptr :
  http_scan (scan_state (rev pre)) pre (c :: ptr) =
  if (c =? LF) && (scan_state (rev pre) =? 3) then inr (pre ++ [c], ptr)
  else http_scan (scan_state (rev (pre ++ [c]))) (pre ++ [c]) ptr.
Proof.
  cbn [http_scan]. rewrite rev_app_distr. cbn [rev app].
  destruct (Z.eqb_spec c LF) as [->|Hc]; cbn [andb].
  - change (LF =? CR) with false. cbn [andb]. destruct (Z.eqb_spec (scan_state (rev pre)) 3) as [E|E].
    + rewrite E. done.
    + rewrite <- (scan_step (rev pre) LF) by (by intros []). change (LF =? CR) with false. cbn [andb].
      change (LF =? LF) with true. cbn [andb]. by destruct (scan_state (rev pre) =? 1).
  - rewrite <- (scan_step (rev pre) c) by (by intros []). rewrite (proj2 (Z.eqb_neq _ _) Hc). cbn [andb].
    destruct (c =? CR); cbn [andb]; [|done]. by destruct (_ || _).
Qed.

Lemma http_scan_spec pre ptr :
  match http_scan (scan_state (rev pre)) pre ptr with
  | inr (h, rest) => pre ++ ptr = h ++ rest /\ ends_head h /\ (length pre < length h)%nat /\
      forall h', h' `prefix_of` pre ++ ptr -> ends_head h' -> (length pre < length h')%nat -> (length h <= length h')%nat
  | inl st => st = scan_state (rev (pre ++ ptr)) /\
      forall h', h' `prefix_of` pre ++ ptr -> ends_head h' -> (length h' <= length pre)%nat
  end.
Proof.
  revert pre. induction ptr as [|c ptr IH]; intros pre.
  - cbn [http_scan]. rewrite app_nil_r. split; [done|]. intros h' Hp _. by apply prefix_length.
  - rewrite http_scan_cons. destruct ((c =? LF) && (scan_state (rev pre) =? 3)) eqn:E.
    + apply andb_true_iff in E as [->%Z.eqb_eq E%Z.eqb_eq]. rewrite <- app_assoc. split; [done|].
      split; [by apply ends_head_snoc|]. rewrite length_app. cbn. split; [lia|]. intros; lia.
    + specialize (IH (pre ++ [c])). rewrite <- app_assoc in IH. cbn [app] in IH. rewrite length_app in IH. cbn [length] in IH.
      assert (forall h', h' `prefix_of` pre ++ c :: ptr -> ends_head h' -> length h' = (length pre + 1)%nat -> False) as Hno.
      { intros h' [k Hk] He Hl. replace (pre ++ c :: ptr) with ((pre ++ [c]) ++ ptr) in Hk by (by rewrite <- app_assoc).
        apply app_inj_1 in Hk as [<- _]; [|rewrite length_app; cbn; lia].
        apply ends_head_snoc in He as [-> He]. by rewrite He in E. }
      destruct (http_scan _ _ _) as [st|[h rest]].
      * destruct IH as [-> IH]. split; [done|]. intros h' Hp He. specialize (IH h' Hp He).
        destruct (decide (length h' = (length pre + 1)%nat)); [exfalso; eauto | lia].
      * destruct IH as (IH1 & IH2 & IH3 & IH4). split_and!; [done..|lia|]. intros h' Hp He Hl.
        apply IH4; [done..|]. destruct (decide (length h' = (length pre + 1)%nat)); [exfalso; eauto | lia].
Qed.

Lemma http_scan_app st pre a b :
  http_scan st pre (a ++ b) =
  match http_scan st pre a with
  | inl st' => http_scan st' (pre ++ a) b
  | inr (h, rest) => inr (h, rest ++ b)
  end.
Proof.
  revert st pre. induction a as [|c a IH]; intros st pre; cbn [app http_scan]; [by rewrite app_nil_r|].
  replace (pre ++ c :: a) with ((pre ++ [c]) ++ a) by (by rewrite <- app_assoc).
  repeat (match goal with |- context [if ?b then _ else _] => destruct b end); rewrite ?IH; done.
Qed.

(** Repeated calls of the parser, one per read. *)
Fixpoint feed (e : http_env) (reads : list (list Z)) (c : http_conn) : outcome (Z * http_conn) :=
  match reads with
  | [] => Ret (UPSGI_AGAIN, c)
  | bs :: reads =>
      let* (ret, c) := upsgi_proto_http_parser e (RData bs) c in
      if ret =? UPSGI_AGAIN then feed e reads c else Ret (ret, c)
  end.

Lemma feed_spec e reads c head rest :
  Forall (fun bs => bs <> []) reads -> zlen c.(parser_buf) + zlen (concat reads) <= e.(buffer_size) ->
  http_scan c.(parser_status) c.(parser_buf) (concat reads) = inr (head, rest) ->
  forall ret r', http_parse e head c.(hreq) = Ret (ret, r') ->
  exists c', feed e reads c = Ret (if ret =? 0 then UPSGI_OK else -1, c') /\
    hreq c' = r' /\ parser_status c' = 3 /\ parser_remains c' `prefix_of` rest /\
    parser_buf c' = head ++ parser_remains c'.
Proof.
  intros HF. revert c. induction HF as [|bs reads Hbs HF IH]; intros c Hsz Hs ret r' Hp; [done|].
  cbn [concat feed] in *. rewrite zlen_app in Hsz. zlen_facts.
  assert (0 < zlen bs) by (destruct bs as [|x bs]; [done | rewrite zlen_cons; zlen_facts; lia]).
  unfold upsgi_proto_http_parser. rewrite (proj2 (Z.eqb_neq _ 0)) by lia.
  rewrite http_scan_app in Hs.
  assert (forall st pre h r, http_scan st pre bs = inr (h, r) -> pre ++ bs = h ++ r) as Happ.
  { clear. induction bs as [|c bs IH]; intros st pre h r; cbn [http_scan]; [done|].
    replace (pre ++ c :: bs) with ((pre ++ [c]) ++ bs) by (by rewrite <- app_assoc).
    repeat case_match; intros E; try (by eapply IH). by simplify_eq. }
  destruct (http_scan (parser_status c) (parser_buf c) bs) as [st|[h rest']] eqn:E.
  - cbn [obind]. change (UPSGI_AGAIN =? UPSGI_AGAIN) with true. cbn iota.
    apply (IH (c<|parser_buf := parser_buf c ++ bs|><|parser_status := st|>)); cbn; try done.
    rewrite zlen_app. lia.
  - simplify_eq. cbn [hreq setter]. rewrite Hp. cbn [obind]. apply Happ in E.
    destruct (Z.eqb_spec ret 0); cbn [negb obind]; (eexists; split; [done|]); cbn;
      (split_and!; [done | done | by apply prefix_app_r | done]).
Qed.

Definition new_conn (r : http_req) : http_conn := mk_conn [] 0 [] r (0, 0).

(** C16: the parser does not depend on how the request arrives: for every way
    of cutting the bytes into non-empty reads, the call that sees the first
    blank line parses exactly the bytes up to it, whatever follows them, with
    the result [http_parse] has on them; the bytes of that read after the
    head are kept as the start of the body. *)
Theorem http_parser_segmentation e reads head rest r ret r' :
  Forall (fun bs => bs <> []) reads -> zlen (concat reads) <= e.(buffer_size) ->
  concat reads = head ++ rest -> ends_head head ->
  (forall h, h `prefix_of` head -> ends_head h -> h = head) ->
  http_parse e head r = Ret (ret, r') ->
  exists c, feed e reads (new_conn r) = Ret (if ret =? 0 then UPSGI_OK else -1, c) /\
    hreq c = r' /\ parser_status c = 3 /\ parser_remains c `prefix_of` rest.
Proof.
  intros HF Hsz Hc He Hfirst Hp.
  assert (http_scan 0 [] (concat reads) = inr (head, rest)) as Hs.
  { pose proof (http_scan_spec [] (concat reads)) as H. cbn [rev scan_state app length] in H. rewrite Hc in H |- *.
    destruct (http_scan 0 [] (head ++ rest)) as [st|[h rest']].
    - destruct H as [_ H]. specialize (H head ltac:(by apply prefix_app_r) He).
      destruct He as [x ->]. rewrite length_app in H. cbn in H. lia.
    - destruct H as (E & Hh & Hl & Hmin).
      assert (length h <= length head)%nat as Hle.
      { apply Hmin; [by apply prefix_app_r | done |]. destruct He as [x ->]. rewrite length_app. cbn. lia. }
      assert (h = head) as ->; [|f_equal; f_equal; by apply app_inv_head in E].
      apply Hfirst; [|done]. exists (drop (length h) head).
      rewrite <- (take_drop (length h) head) at 1. f_equal.
      rewrite <- (take_app_le head rest) by done. rewrite E. by apply take_app_length. }
  destruct (feed_spec e reads (new_conn r) head rest HF Hsz Hs ret r' Hp) as (c & E & H1 & H2 & H3 & _).
  by exists c.
Qed.

Lemma http_parser_segmentation_witness :
  exists c, feed demo_env [chars "GET / HTTP/1.0" ++ [CR]; [LF; CR]; LF :: chars "body"] (new_conn demo_req)
      = Ret (UPSGI_OK, c) /\
    hreq c = demo_result (chars "GET / HTTP/1.0" ++ crlf ++ crlf) /\
    parser_status c = 3 /\ parser_remains c `prefix_of` chars "body".
Proof.
  apply (http_parser_segmentation demo_env
    [chars "GET / HTTP/1.0" ++ [CR]; [LF; CR]; LF :: chars "body"] (chars "GET / HTTP/1.0" ++ crlf ++ crlf)
    (chars "body") demo_req 0).
  - by repeat constructor.
  - by vm_compute.
  - reflexivity.
  - by exists (chars "GET / HTTP/1.0").
  - intros h Hp [x Hx]. destruct Hp as [k Hk]. subst h.
    destruct (decide (k = [])) as [->|Hk0]; [by rewrite app_nil_r in Hk|]. exfalso.
    assert (length k <= 18)%nat as Hle.
    { apply (f_equal length) in Hk. rewrite !length_app in Hk. cbn in Hk. lia. }
    apply (f_equal (fun l => bool_decide (CR ∈ take 14 l))) in Hk as Hb.
    assert (length x + 4 + length k = 18)%nat as Hlen.
    { apply (f_equal length) in Hk. rewrite !length_app in Hk. cbn in Hk. lia. }
    destruct k as [|k0 k]; [done|]. cbn in Hlen.
    assert (CR ∈ take 14 ((x ++ [CR; LF; CR; LF]) ++ k0 :: k)) as Hin.
    { rewrite <- app_assoc, take_app_ge by lia. apply elem_of_app. right.
      destruct (14 - length x)%nat eqn:E14; [lia|]. cbn. left. }
    rewrite <- Hk in Hin. vm_compute in Hin. by repeat (apply elem_of_cons in Hin as [?|Hin]; [done|]); apply not_elem_of_nil in Hin.
  - by vm_compute.
Defined.

(** * The head of a response *)

Lemma is_full_http_sound buf pre status :
  (status = 0 \/ (status = 1 /\ exists x, pre = x ++ [CR]) \/ (status = 2 /\ exists x, pre = x ++ [CR; LF]) \/
   (status = 3 /\ exists x, pre = x ++ [CR; LF; CR])) ->
  is_full_http_loop status buf = true -> exists a b, pre ++ buf = a ++ [CR; LF; CR; LF] ++ b.
Proof.
  revert pre status. induction buf as [|c buf IH]; intros pre status Hst; [done|]. cbn [is_full_http_loop].
  replace (pre ++ c :: buf) with ((pre ++ [c]) ++ buf) by (by rewrite <- app_assoc).
  destruct Hst as [->|[[-> [x ->]]|[[-> [x ->]]|[-> [x ->]]]]]; cbn [Z.eqb].
  - destruct (Z.eqb_spec c CR) as [->|]; apply IH; eauto 10.
  - destruct (Z.eqb_spec c LF) as [->|]; apply IH; [|auto]. right. right. left. split; [done|]. exists x.
    by rewrite <- app_assoc.
  - destruct (Z.eqb_spec c CR) as [->|]; apply IH; [|auto]. do 3 right. split; [done|]. exists x.
    by rewrite <- app_assoc.
  - destruct (Z.eqb_spec c LF) as [->|]; [|apply IH; auto]. intros _. exists x, buf.
    by rewrite <- !app_assoc.
Qed.

(** [upsgi_is_full_http] reports the end of a head only when the bytes
    contain one, but not always when they do: after a carriage return that is
    followed by another one it starts over. *)
Theorem is_full_http_sound_incomplete :
  (forall ub, upsgi_is_full_http ub = true -> exists a b, contents ub = a ++ [CR; LF; CR; LF] ++ b) /\
  upsgi_is_full_http (mk_buffer [97; CR; CR; LF; CR; LF] 6 6 0) = false.
Proof.
  split; [|reflexivity]. intros ub H. apply (is_full_http_sound (contents ub) [] 0); [by left | done].
Qed.

(** [http_status_code] does not go back to the test of the name after it
    has skipped a line: it returns the number found eight bytes into the
    second line, whatever header that is. *)
Theorem http_status_code_misreads :
  http_status_code (chars "A: b" ++ crlf ++ chars "Age-Max:404" ++ crlf ++ crlf) = 404 /\
  http_status_code (chars "A: b" ++ crlf ++ chars "Server: 99" ++ crlf ++ chars "Status: 200 OK" ++ crlf ++ crlf) = 99.
Proof. by vm_compute. Qed.

(** * Tokens of a header value *)

(** The elements of a comma separated list. *)
Fixpoint elements (l : list Z) : list (list Z) :=
  match l with
  | [] => [[]]
  | c :: l =>
      if c =? 44 then [] :: elements l
      else match elements l with s :: r => (c :: s) :: r | [] => [[c]] end
  end.

(** The token of an element: what is in front of its parameters, without the
    white space around it. *)
Definition element_token (el : list Z) : list Z :=
  rtrim (span (fun c => negb (c =? 59)) (span is_blank el).2).1.

Definition lists_token (value token : list Z) : bool :=
  existsb (fun el => upsgi_strnicmp (element_token el) token) (elements value).

Lemma elements_nonempty l : elements l <> [].
Proof. destruct l as [|c l]; cbn; [done|]. destruct (c =? 44); [done|]. by destruct (elements l). Qed.

Lemma no_empty_token token : token <> [] -> upsgi_strnicmp [] token = false.
Proof. intros H. by destruct token. Qed.

Lemma lists_token_comma l token : token <> [] -> lists_token (44 :: l) token = lists_token l token.
Proof. intros H. unfold lists_token. cbn. by rewrite no_empty_token. Qed.

Lemma lists_token_lead l token :
  token <> [] -> lists_token (span (fun c => is_blank c || (c =? 44)) l).2 token = lists_token l token.
Proof.
  intros H. induction l as [|c l IH]; [done|]. cbn [span].
  destruct (is_blank c || (c =? 44)) eqn:E; [|done].
  destruct (span _ l) as [a b] eqn:Es. cbn [snd] in IH |- *. rewrite IH.
  destruct (Z.eqb_spec c 44) as [->|Hc]; [by rewrite lists_token_comma|].
  rewrite orb_false_r in E. unfold lists_token. cbn [elements]. rewrite (proj2 (Z.eqb_neq _ _) Hc).
  pose proof (elements_nonempty l). destruct (elements l) as [|s r]; [done|]. cbn [existsb].
  assert (element_token (c :: s) = element_token s) as -> by (unfold element_token; by rewrite span_cons_true).
  done.
Qed.

(** The first element of a list. *)
Lemma elements_split l :
  elements l = (until 44 l).1 :: match (until 44 l).2 with [] => [] | _ :: rest => elements rest end.
Proof.
  induction l as [|c l IH]; [done|]. cbn [elements]. destruct (Z.eqb_spec c 44) as [->|Hc].
  - by rewrite until_stop.
  - rewrite until_skip by done. rewrite IH. done.
Qed.

Lemma span_semicolon l :
  (span (fun c => negb (c =? 44) && negb (c =? 59)) l).1 = (span (fun c => negb (c =? 59)) (until 44 l).1).1 /\
  (until 44 (span (fun c => negb (c =? 44) && negb (c =? 59)) l).2).2 = (until 44 l).2.
Proof.
  induction l as [|c l [IH1 IH2]]; [done|]. cbn [span].
  destruct (Z.eqb_spec c 44) as [->|H44]; cbn [negb andb].
  - by rewrite until_stop.
  - rewrite until_skip by done. destruct (Z.eqb_spec c 59) as [->|H59]; cbn [negb fst snd].
    + rewrite until_skip by done. done.
    + rewrite span_cons_true by (by rewrite (proj2 (Z.eqb_neq _ _) H59)). cbn [fst snd].
      destruct (span _ l) as [a b]. cbn [fst snd] in *. rewrite <- IH1. done.
Qed.

Lemma has_token_loop_spec fuel value token :
  token <> [] -> (length value < fuel)%nat -> has_token_loop fuel value token = Ret (lists_token value token).
Proof.
  intros Ht. revert value. induction fuel as [|fuel IH]; intros value Hf; [lia|]. cbn [has_token_loop].
  destruct (Z.ltb_spec 0 (zlen value)) as [Hpos|Hz].
  2: { assert (value = []) as -> by (apply zlen_zero_inv; zlen_facts; lia).
       unfold lists_token. cbn. by rewrite no_empty_token. }
  rewrite <- lists_token_lead by done. set (v := (span _ value).2).
  pose proof (span_length (fun c => is_blank c || (c =? 44)) value) as Hl1. fold v in Hl1.
  pose proof (span_head (fun c => is_blank c || (c =? 44)) value) as Hh. fold v in Hh.
  destruct (Z.eqb_spec (zlen v) 0) as [Hv|Hv].
  { apply zlen_zero_inv in Hv as ->. unfold lists_token. cbn. by rewrite no_empty_token. }
  destruct (span_semicolon v) as [E1 E2]. pose proof (elements_split v) as Es.
  destruct (span (fun c => negb (c =? 44) && negb (c =? 59)) v) as [item v'] eqn:Ev. cbn [fst snd] in E1, E2.
  assert (element_token (until 44 v).1 = rtrim item) as Eit.
  { unfold element_token. rewrite E1. do 3 f_equal. destruct v as [|c v2]; [done|].
    destruct (Z.eqb_spec c 44) as [->|Hc]; [by rewrite until_stop|]. rewrite until_skip by done. cbn [fst].
    apply orb_false_iff in Hh as [Hb _]. by rewrite span_cons_false. }
  assert ((zlen (rtrim item) =? zlen token) && upsgi_strnicmp (rtrim item) token = upsgi_strnicmp (rtrim item) token) as ->.
  { destruct (upsgi_strnicmp (rtrim item) token) eqn:E; [|by rewrite andb_false_r].
    by rewrite (proj2 (Z.eqb_eq _ _) (upsgi_strnicmp_len _ _ E)). }
  unfold lists_token. rewrite Es. cbn [existsb]. rewrite Eit.
  destruct (upsgi_strnicmp (rtrim item) token); [done|]. cbn [orb].
  change (span (fun c => negb (c =? 44)) v').2 with (until 44 v').2. rewrite E2.
  assert (length (until 44 v).2 < length v)%nat as Hlt.
  { destruct v as [|c v2]; [done|]. destruct (Z.eqb_spec c 44) as [->|Hc]; [done|].
    rewrite until_skip by done. cbn. pose proof (span_length (fun x => negb (x =? 44)) v2). unfold until. lia. }
  rewrite IH by lia. destruct (until 44 v).2 as [|c rest] eqn:Er.
  - unfold lists_token. cbn. by rewrite no_empty_token.
  - pose proof (span_head (fun x => negb (x =? 44)) v) as Hc. unfold until in Er. rewrite Er in Hc.
    apply negb_false_iff, Z.eqb_eq in Hc as ->. by rewrite lists_token_comma.
Qed.

(** [http_header_value_has_token] decides, for every value, whether one of
    the comma separated elements, without its parameters and the white space
    around it, is the token in any letter case.  (The chunked and close checks
    are instances.) *)
Theorem has_token_spec value token :
  token <> [] -> http_header_value_has_token value token = Ret (lists_token value token).
Proof. intros. apply has_token_loop_spec; [done | lia]. Qed.

Lemma has_token_spec_witness :
  http_header_value_has_token (chars "gzip;q=1 , Chunked ;x=y,") (chars "chunked") = Ret true.
Proof. apply (has_token_spec (chars "gzip;q=1 , Chunked ;x=y,") (chars "chunked")). done. Defined.

(** A connection is kept for another request exactly when the response was
    written, the request was parsed to its end and read completely (nothing
    pipelined, no body left), it is not offloaded, not HTTP/1.0, and its last
    Connection header does not list [close]; otherwise it is closed. *)
Theorem http11_close_spec r :
  upsgi_proto_http11_close r =
  Ret (if (r.(write_errors) =? 0) && (r.(status11) =? 3) && (r.(remains11) <=? 0) && (r.(post_cl) <=? r.(post_pos))
          && negb (r.(via) =? UPSGI_VIA_OFFLOAD) && negb (bytes_eqb r.(protocol) (chars "HTTP/1.0"))
          && negb (match upsgi_get_var r.(vars11) (chars "HTTP_CONNECTION") with
                   | Some c => lists_token c (chars "close") | None => false end)
       then mk_slot11 false 1 r.(fd11) else mk_slot11 true 0 (-1)).
Proof.
  unfold upsgi_proto_http11_close, upsgi_http11_request_wants_close. rewrite upsgi_strncmp_spec.
  assert (bytes_eqb (chars "HTTP/1.0") (protocol r) = bytes_eqb (protocol r) (chars "HTTP/1.0")) as ->.
  { unfold bytes_eqb. apply bool_decide_ext. split; congruence. }
  rewrite (Z.ltb_antisym (remains11 r) 0), (Z.ltb_antisym (post_cl r) (post_pos r)).
  destruct (write_errors r =? 0); cbn [negb orb andb]; [|done].
  destruct (status11 r =? 3); cbn [negb orb andb]; [|done].
  destruct (remains11 r <=? 0); cbn [negb orb andb]; [|done].
  destruct (post_cl r <=? post_pos r); cbn [negb orb andb]; [|done].
  destruct (via r =? UPSGI_VIA_OFFLOAD); cbn [negb orb andb]; [done|].
  destruct (bytes_eqb _ _); cbn [negb andb]; [done|].
  destruct (upsgi_get_var (vars11 r) (chars "HTTP_CONNECTION")) as [c|]; cbn [obind negb]; [|done].
  destruct (Z.eqb_spec (zlen c) 0) as [Hz|].
  - apply zlen_zero_inv in Hz as ->. done.
  - unfold http_header_value_has_token. rewrite (has_token_loop_spec _ c (chars "close")) by (done || lia). cbn [obind].
    by destruct (lists_token c (chars "close")).
Qed.

(** * Requests to a backend *)

Section forward.
Context (env : heap_env) {Henv : EnvOk env}.

Lemma zlen_httpize upper l : zlen (httpize upper l) = zlen l.
Proof.
  revert upper. induction l as [|c l IH]; intros upper; [done|]. cbn [httpize].
  destruct upper; [|destruct (c =? 95)]; by rewrite !zlen_cons, IH.
Qed.

#[local] Instance httpized_Appends header :
  zlen header < 2 ^ 63 -> Appends (append_httpized env header) (upsgi_httpize_var header).
Proof.
  intros Hs ub Hok. unfold append_httpized.
  destruct (append_Appends env header Hs ub Hok) as (r & ub1 & E & [Hok1 Hlim Hlen Hw Hres]). rewrite E. cbn [obind].
  destruct Hres as [[-> Hc]|[-> _]].
  2: { cbn. apply append_fails in E as ->. exists (-1), ub. split; [done | by apply not_appended]. }
  cbn [Z.eqb negb]. pose proof (zlen_contents ub Hok) as Hp. pose proof (zlen_contents ub1 Hok1) as Hp1.
  rewrite Hc, zlen_app, Hp in Hp1. pose proof Hok as [Hb ? ? ?]. pose proof Hok1 as [Hb1 ? ? ?]. zlen_facts.
  replace (pos ub1 - zlen header) with (pos ub) by lia.
  rewrite mslice_ok by lia. cbn [obind].
  assert (ztake (zlen header) (zdrop (pos ub) (buf ub1)) = header) as ->.
  { unfold contents in Hc. rewrite <- Hp1 in Hc.
    rewrite <- (ztake_extend (pos ub) (pos ub + zlen header) (buf ub1)) in Hc by lia.
    apply app_inj_2 in Hc as [_ Hc]; [by replace (pos ub + zlen header - pos ub) with (zlen header) in Hc by lia|].
    unfold ztake, zdrop. rewrite length_take, length_drop. unfold zlen in *. lia. }
  assert (zlen (upsgi_httpize_var header) = zlen header) as Hz by apply zlen_httpize.
  rewrite mwrite_ok by lia. cbn [obind]. eexists _, _. split; [done|].
  assert (zlen (ztake (pos ub) (buf ub1)) = pos ub) as Ht by (apply zlen_take; lia).
  split; try done.
  - split; cbn; try done. rewrite !zlen_app, zlen_drop by lia. lia.
  - left. split; [done|]. unfold contents in *. cbn. rewrite app_assoc, ztake_app_length by (rewrite zlen_app; lia).
    f_equal. rewrite <- Hp1 in Hc.
    rewrite <- (ztake_extend (pos ub) (pos ub + zlen header) (buf ub1)) in Hc by lia.
    apply app_inj_1 in Hc as [Hc _]; [done|]. unfold zlen in *. lia.
Qed.

Definition forward_text (dumb : bool) (host : option (list Z)) (kv : kv) : list Z :=
  if upsgi_starts_with kv.1 (chars "HTTP_") && negb (skip_header dumb host (zdrop 5 kv.1))
  then upsgi_httpize_var (zdrop 5 kv.1) ++ chars ": " ++ kv.2 ++ crlf else [].

Definition small_kv (kv : kv) : Prop := zlen kv.1 < 2 ^ 16 /\ zlen kv.2 < 2 ^ 16.

#[local] Instance skip_op_Appends : Appends skip_op [].
Proof. apply skip_Appends. Qed.

Lemma forward_headers_Appends dumb host vars :
  Forall small_kv vars -> Appends (forward_headers env dumb host vars) (vars ≫= forward_text dumb host).
Proof.
  induction 1 as [|[k v] vars [Hk Hv] HF IH]; [apply skip_Appends|]. cbn [forward_headers mbind list_bind fst snd] in *.
  unfold forward_text at 1. cbn [fst snd]. destruct (upsgi_starts_with k (chars "HTTP_")) eqn:Es; cbn [andb]; [|done].
  destruct (skip_header dumb host (zdrop 5 k)); cbn [negb]; [done|].
  apply seq_Appends; [|done].
  apply seq_Appends; [|repeat apply seq_Appends; apply append_Appends; done || (cbn [fst snd] in Hv; lia)].
  apply httpized_Appends. unfold zlen, zdrop in *. rewrite length_drop. lia.
Qed.

Definition opt_text (b : bool) (l : list Z) : list Z := if b then l else [].

Definition forward_tail_text (dumb : bool) (host : option (list Z)) (r : fwd_req) : list Z :=
  match host with Some h => chars "Host: " ++ h ++ crlf | None => [] end ++
  opt_text (0 <? zlen r.(f_content_type)) (chars "Content-Type: " ++ r.(f_content_type) ++ crlf) ++
  opt_text (0 <? r.(f_post_cl)) (chars "Content-Length: " ++ fmt_d (i64 r.(f_post_cl)) ++ crlf) ++
  opt_text (negb dumb) (chars "Connection: close" ++ crlf) ++
  chars "X-Forwarded-For: " ++
  opt_text (0 <? zlen (x_forwarded_for r.(f_vars))) (x_forwarded_for r.(f_vars) ++ chars ", ") ++
  r.(f_remote_addr) ++ crlf ++ crlf.

(** The sizes the request structure allows: 16 bit lengths. *)
Record fwd_ok (r : fwd_req) (host uri : option (list Z)) : Prop := {
  fw_method : zlen r.(f_method) < 2 ^ 16;
  fw_uri : zlen (fwd_uri uri r) < 2 ^ 16;
  fw_protocol : zlen r.(f_protocol) < 2 ^ 16;
  fw_vars : Forall small_kv r.(f_vars);
  fw_type : zlen r.(f_content_type) < 2 ^ 16;
  fw_addr : zlen r.(f_remote_addr) < 2 ^ 16;
  fw_host : zlen (default [] host) < 2 ^ 16;
  fw_cl : zlen (fmt_d (i64 r.(f_post_cl))) < num64_size;
}.

Lemma xff_small vars : Forall small_kv vars -> zlen (x_forwarded_for vars) < 2 ^ 16.
Proof.
  unfold x_forwarded_for. assert (zlen (@nil Z) < 2 ^ 16) as H by done. revert H. generalize (@nil Z).
  intros x Hx HF. revert x Hx. induction HF as [|kv vars [_ Hv] HF IH]; intros x Hx; [done|]. cbn.
  apply IH. by destruct (_ && _).
Qed.

Lemma forward_tail_Appends dumb r host uri :
  fwd_ok r host uri -> Appends (forward_tail env dumb host r) (forward_tail_text dumb host r).
Proof.
  intros [? ? ? Hv ? ? ? ?]. pose proof (xff_small _ Hv). unfold forward_tail, forward_tail_text, opt_text.
  assert (forall l : list Z, zlen l < 2 ^ 16 -> Appends (upsgi_buffer_append env l) l) as Happ
    by (intros; apply (append_Appends env); zlen_facts; lia).
  repeat apply seq_Appends; repeat case_match; cbn [negb default from_option id] in *; try done;
    repeat apply seq_Appends; try apply skip_op_Appends; try (by apply Happ); by apply num64_Appends.
Qed.

End forward.

Definition to_http_text (dumb : bool) (r : fwd_req) (host uri : option (list Z)) : list Z :=
  r.(f_method) ++ chars " " ++ fwd_uri uri r ++
  (if dumb then chars " " ++ r.(f_protocol) ++ crlf else chars " HTTP/1.0" ++ crlf) ++
  (r.(f_vars) ≫= forward_text dumb host) ++ forward_tail_text dumb host r.

Lemma new_contents env n ub :
  0 <= n -> upsgi_buffer_new env n = Ret ub -> buffer_ok ub /\ contents ub = [].
Proof.
  intros Hn. unfold upsgi_buffer_new, malloc, alloc_ok. destruct (Z.eqb_spec n 0) as [->|].
  - intros [= <-]. split; [|done]. split; cbn; rewrite ?zlen_nil; lia.
  - destruct (Z.ltb_spec n (2 ^ 63)); cbn [andb]; [|done]. destruct (heap_ok env n); [|done]. intros [= <-].
    split; [|done]. split; cbn; rewrite ?zlen_rep; lia.
Qed.

(** A builder that starts from a fresh buffer returns [NULL] or its text. *)
Lemma finish_text env n f text :
  0 <= n < 2 ^ 63 -> heap_ok env n = true -> Appends f text ->
  exists o, (let* ub := upsgi_buffer_new env n in ProtoBase.finish (f ub)) = Ret o /\
    (forall ub, o = Some ub -> contents ub = text).
Proof.
  intros Hn Hh Hf. destruct (upsgi_buffer_new env n) as [ub| | |] eqn:E.
  2-4: unfold upsgi_buffer_new, malloc, alloc_ok in E; destruct (n =? 0); try done;
    rewrite (proj2 (Z.ltb_lt _ _)), Hh in E by lia; done.
  apply new_contents in E as [Hok Hc]; [|lia]. cbn [obind].
  destruct (Hf ub Hok) as (r & ub' & -> & [_ _ _ _ Hres]). unfold ProtoBase.finish. cbn [obind].
  eexists. split; [done|]. rewrite Hc in Hres.
  destruct Hres as [[-> Hres]|[-> _]]; cbn; [|done]. by intros ? [= <-].
Qed.

(** [upsgi_to_http] and [upsgi_to_http_dumb] build the request text: the
    request line, the HTTP_ variables as headers (without Host when it is
    replaced, without the previous X-Forwarded-For, and for [upsgi_to_http]
    without Connection, Keep-Alive, TE and Trailer), then Host, Content-Type,
    Content-Length, Connection: close and the extended X-Forwarded-For; or
    they return NULL. *)
Theorem to_http_text_spec env r host uri :
  EnvOk env -> heap_ok env 4096 = true -> fwd_ok r host uri ->
  (exists o, upsgi_to_http env r host uri = Ret o /\
     forall ub, o = Some ub -> contents ub = to_http_text false r host uri) /\
  (exists o, upsgi_to_http_dumb env r host uri = Ret o /\
     forall ub, o = Some ub -> contents ub = to_http_text true r host uri).
Proof.
  intros He Hh Hr. pose proof Hr as [? ? ? Hv ? ? ? ?].
  assert (forall l : list Z, zlen l < 2 ^ 16 -> Appends (upsgi_buffer_append env l) l) as Happ
    by (intros; apply append_Appends; [done | lia]).
  unfold to_http_text. split; (apply finish_text; [lia | done |]).
  - do 4 (apply seq_Appends; [by apply Happ|]).
    apply seq_Appends; [by apply forward_headers_Appends | by eapply forward_tail_Appends].
  - rewrite <- !app_assoc. do 6 (apply seq_Appends; [by apply Happ|]).
    apply seq_Appends; [by apply forward_headers_Appends | by eapply forward_tail_Appends].
Qed.

Definition demo_fwd : fwd_req :=
  mk_fwd (chars "GET") (chars "/x") (chars "HTTP/1.1")
    [(chars "HTTP_TE", chars "trailers"); (chars "HTTP_USER_AGENT", chars "c"); (chars "REMOTE_USER", chars "u")]
    [] 0 (chars "1.2.3.4").

Lemma to_http_text_spec_witness :
  (exists o, upsgi_to_http env4k demo_fwd (Some (chars "b")) None = Ret o /\
     forall ub, o = Some ub -> contents ub =
       chars "GET /x HTTP/1.0" ++ crlf ++ chars "User-Agent: c" ++ crlf ++ chars "Host: b" ++ crlf ++
       chars "Connection: close" ++ crlf ++ chars "X-Forwarded-For: 1.2.3.4" ++ crlf ++ crlf) /\
  (exists o, upsgi_to_http_dumb env4k demo_fwd (Some (chars "b")) None = Ret o /\
     forall ub, o = Some ub -> contents ub = to_http_text true demo_fwd (Some (chars "b")) None).
Proof.
  apply (to_http_text_spec env4k demo_fwd (Some (chars "b")) None).
  - by vm_compute.
  - done.
  - split; try (by vm_compute). repeat constructor; by vm_compute.
Defined.

End HttpConn.
