(* ===== verification/Protocol.v ===== *)
(** The request variables (core/protocol.c).

    [upsgi_parse_vars] walks the variable block of the request, records every
    key and value in [hvec] and lets the hook for the key's length copy the
    values the server needs into the request; then it selects the application
    by its mount point and looks for a static file.  The string fields of
    [struct wsgi_request] that the hooks set are indexed by [rfield]; the
    body accounting is done by [BodySched]. *)
From S2P Require Import Prelude Clib Strings Buffer BodySched Packet.
Import Packet.

Module Protocol.

(** * Numbers *)

(** [None]: the value is rejected. *)
Fixpoint content_length_loop (buf : list Z) (val : Z) : option Z :=
  match buf with
  | [] => Some val
  | c :: buf =>
      if (c <? 48) || (57 <? c) then None
      else if (SIZE_MAX - (c - 48)) / 10 <? val then None
      else content_length_loop buf (u64 (val * 10 + (c - 48)))
  end.
Definition get_content_length (buf : list Z) : option Z :=
  if zlen buf =? 0 then None else content_length_loop buf 0.

(** [upsgi_str_num]: the powers of ten come from [pow], which is exact up to
    [10^19]; a larger one does not fit a [uint64_t] and its conversion is
    undefined.  [c] is a byte and [str[i]] a [char]. *)
Fixpoint str_num_loop (delta num : Z) (str : list Z) : Z :=
  match str with
  | [] => num
  | c :: str =>
      let delta := delta / 10 in
      str_num_loop delta (u64 (num + delta * (i8 c - 48))) str
  end.
Definition upsgi_str_num (str : list Z) : outcome Z :=
  if 19 <? zlen str then Fault else Ret (str_num_loop (10 ^ zlen str) 0 str).

Inductive upsgi_range : Type := RANGE_NOT_PARSED | RANGE_PARSED | RANGE_VALID | RANGE_INVALID.

(** [parsed], [from] and [to]. *)
Definition upsgi_parse_http_range (buf : list Z) : outcome (upsgi_range * Z * Z) :=
  let first := match memchr buf 44 with Some i => ztake i buf | None => buf end in
  let invalid := (RANGE_INVALID, 0, 0) in
  if zlen first <? 8 then Ret invalid
  else
    match memchr first 61 with
    | None => Ret invalid
    | Some equal =>
        if negb (equal =? 5) then Ret invalid
        else if negb (bytes_eqb (ztake 5 first) (chars "bytes")) then Ret invalid
        else
          let range := zdrop 6 first in
          match memchr range 45 with
          | None => Ret invalid
          | Some dash =>
              if negb (dash =? 0) then
                let* from := upsgi_str_num (ztake dash range) in
                let from := i64 from in
                let* to := if dash =? zlen range - 1 then Ret INT64_MAX
                           else let* n := upsgi_str_num (zdrop (dash + 1) range) in Ret (i64 n) in
                if from <=? to then Ret (RANGE_PARSED, from, to) else Ret invalid
              else
                let* n := upsgi_str_num (zdrop 1 range) in
                let from := i64 (- i64 n) in
                if from <? 0 then Ret (RANGE_PARSED, from, INT64_MAX) else Ret (RANGE_INVALID, from, 0)
          end
    end.

(** * The request *)

Inductive rfield : Type :=
| F_https | F_path_info | F_host | F_if_range | F_file | F_home | F_script_name | F_uri | F_remote_user
| F_remote_addr | F_cookie | F_appid | F_chdir | F_http_origin | F_query_string | F_content_type | F_referer
| F_scheme | F_script | F_module | F_document_root | F_method | F_callable | F_protocol | F_user_agent
| F_authorization | F_touch_reload | F_encoding | F_if_modified_since | F_sec_websocket_key
| F_sec_websocket_protocol.
#[export] Instance rfield_eq_dec : EqDecision rfield.
Proof. solve_decision. Defined.

Record wsgi_request : Type := mk_wsgi {
  strs : rfield -> list Z;
  path_info_pos : Z;
  script_name_pos : Z;
  range : upsgi_range * Z * Z;
  dynamic : bool;
  post_file : bool;
  has_content_length : bool;
  bsched : BodySched.sched;
  hvec : list (list Z);
  var_cnt : Z;
  status : Z;
  parsed : bool;
  environ : list (list Z * list Z);
}.
#[export] Instance expand_wsgi : Expand wsgi_request := fun r =>
  mk_wsgi (strs r) (path_info_pos r) (script_name_pos r) (range r) (dynamic r) (post_file r)
    (has_content_length r) (bsched r) (hvec r) (var_cnt r) (status r) (parsed r) (environ r).

Definition post_cl (r : wsgi_request) : Z := BodySched.post_cl (BodySched.rq r.(bsched)).
Definition body_is_chunked (r : wsgi_request) : bool := BodySched.body_is_chunked (BodySched.rq r.(bsched)).

(** [wsgi_req->x = buf; wsgi_req->x_len = len] *)
Definition set_str (f : rfield) (v : list Z) (r : wsgi_request) : wsgi_request :=
  r<|strs := fun g => if bool_decide (g = f) then v else r.(strs) g|>.

(** Configuration and the calls of the C library the hooks make: whether
    [fopen] succeeds and the clock of [upsgi_micros]. *)
Record penv : Type := mk_penv {
  vec_size : Z;
  honour_range : bool;
  dynamic_apps : bool;
  log_x_forwarded_for : bool;
  limit_post : Z;
  sched_enabled : bool;
  now_us : Z;
  fopen_ok : list Z -> bool;
}.

(** * The hooks

    A hook gets the bytes of the packet from the key on ([keyp]) and the
    value.  It returns its [int] result, the request and the value, which
    [UPSGI_SETENV] changes in place. *)

Definition hook : Type := penv -> list Z -> list Z -> wsgi_request -> outcome (Z * wsgi_request * list Z).

(** [!upsgi_proto_key(x, y)], a [memcmp] of [y] bytes. *)
Definition proto_key (x : string) (keyp : list Z) : bool :=
  bytes_eqb (ztake (zlen (chars x)) keyp) (chars x).

Definition ok (r : wsgi_request) (buf : list Z) : outcome (Z * wsgi_request * list Z) := Ret (0, r, buf).

Definition upsgi_proto_check_5 : hook := fun _ key buf r =>
  if proto_key "HTTPS" key then ok (set_str F_https buf r) buf else ok r buf.

Definition upsgi_proto_check_9 : hook := fun _ key buf r =>
  if proto_key "PATH_INFO" key then ok ((set_str F_path_info buf r)<|path_info_pos := r.(var_cnt) + 1|>) buf
  else if proto_key "HTTP_HOST" key then ok (set_str F_host buf r) buf
  else ok r buf.

Definition upsgi_proto_check_10 : hook := fun e key buf r =>
  let r := if e.(honour_range) && proto_key "HTTP_IF_RANGE" key then set_str F_if_range buf r else r in
  if e.(honour_range) && proto_key "HTTP_RANGE" key then
    let* rg := upsgi_parse_http_range buf in ok (r<|range := rg|>) buf
  else if e.(dynamic_apps) && proto_key "UPSGI_FILE" key then ok ((set_str F_file buf r)<|dynamic := true|>) buf
  else if e.(dynamic_apps) && proto_key "UPSGI_HOME" key then ok (set_str F_home buf r) buf
  else ok r buf.

Definition upsgi_proto_check_11 : hook := fun _ key buf r =>
  if proto_key "SCRIPT_NAME" key then ok ((set_str F_script_name buf r)<|script_name_pos := r.(var_cnt) + 1|>) buf
  else if proto_key "REQUEST_URI" key then ok (set_str F_uri buf r) buf
  else if proto_key "REMOTE_USER" key then ok (set_str F_remote_user buf r) buf
  else if (zlen (r.(strs) F_host) =? 0) && proto_key "SERVER_NAME" key then ok (set_str F_host buf r) buf
  else if (zlen (r.(strs) F_remote_addr) =? 0) && proto_key "REMOTE_ADDR" key then ok (set_str F_remote_addr buf r) buf
  else if proto_key "HTTP_COOKIE" key then ok (set_str F_cookie buf r) buf
  else if proto_key "UPSGI_APPID" key then ok (set_str F_appid buf r) buf
  else if proto_key "UPSGI_CHDIR" key then ok (set_str F_chdir buf r) buf
  else if proto_key "HTTP_ORIGIN" key then ok (set_str F_http_origin buf r) buf
  else ok r buf.

(** [setenv] of the bytes before the first [=], cut at a terminator; the [=]
    is overwritten. *)
Definition upsgi_setenv (buf : list Z) (r : wsgi_request) : outcome (Z * wsgi_request * list Z) :=
  match memchr buf 61 with
  | None => ok r buf
  | Some i =>
      let name := ztake (default i (memchr (ztake i buf) 0)) buf in
      let value := zdrop (i + 1) buf in
      let value := ztake (default (zlen value) (memchr value 0)) value in
      ok (r<|environ := r.(environ) ++ [(name, value)]|>) (ztake i buf ++ [0] ++ zdrop (i + 1) buf)
  end.

Definition upsgi_proto_check_12 : hook := fun e key buf r =>
  if proto_key "QUERY_STRING" key then ok (set_str F_query_string buf r) buf
  else if proto_key "CONTENT_TYPE" key then ok (set_str F_content_type buf r) buf
  else if proto_key "HTTP_REFERER" key then ok (set_str F_referer buf r) buf
  else if proto_key "UPSGI_SCHEME" key then ok (set_str F_scheme buf r) buf
  else if e.(dynamic_apps) && proto_key "UPSGI_SCRIPT" key then ok ((set_str F_script buf r)<|dynamic := true|>) buf
  else if e.(dynamic_apps) && proto_key "UPSGI_MODULE" key then ok ((set_str F_module buf r)<|dynamic := true|>) buf
  else if proto_key "UPSGI_PYHOME" key then ok (set_str F_home buf r) buf
  else if proto_key "UPSGI_SETENV" key then upsgi_setenv buf r
  else ok r buf.

Definition upsgi_proto_check_13 : hook := fun _ key buf r =>
  if proto_key "DOCUMENT_ROOT" key then ok (set_str F_document_root buf r) buf else ok r buf.

#[local] Existing Instance BodySched.expand_req.

Definition note_request (e : penv) (s : BodySched.sched) : BodySched.sched :=
  BodySched.note_request e.(sched_enabled) e.(now_us) s.
Definition set_post_cl (v : Z) (s : BodySched.sched) : BodySched.sched :=
  BodySched.mk_sched ((BodySched.rq s)<|BodySched.post_cl := v|>) (BodySched.uc s).
Definition set_chunked (s : BodySched.sched) : BodySched.sched :=
  BodySched.mk_sched ((BodySched.rq s)<|BodySched.body_is_chunked := true|>) (BodySched.uc s).

Definition upsgi_proto_check_14 : hook := fun e key buf r =>
  if proto_key "REQUEST_METHOD" key then ok (set_str F_method buf r) buf
  else if proto_key "CONTENT_LENGTH" key then
    match get_content_length buf with
    | None => Ret (-1, r, buf)
    | Some cl =>
        if body_is_chunked r then Ret (-1, r, buf)
        else
          let s := set_post_cl cl r.(bsched) in
          let s := if 0 <? cl then note_request e s else s in
          let r := r<|bsched := s|><|has_content_length := true|> in
          if negb (e.(limit_post) =? 0) && (e.(limit_post) <? cl) then Ret (-1, r, buf) else ok r buf
    end
  else if proto_key "UPSGI_POSTFILE" key then ok (r<|post_file := e.(fopen_ok) buf|>) buf
  else if e.(dynamic_apps) && proto_key "UPSGI_CALLABLE" key then ok ((set_str F_callable buf r)<|dynamic := true|>) buf
  else ok r buf.

Definition upsgi_proto_check_15 : hook := fun _ key buf r =>
  if proto_key "SERVER_PROTOCOL" key then ok (set_str F_protocol buf r) buf
  else if proto_key "HTTP_USER_AGENT" key then ok (set_str F_user_agent buf r) buf
  else ok r buf.

Definition upsgi_proto_check_18 : hook := fun _ key buf r =>
  if proto_key "HTTP_AUTHORIZATION" key then ok (set_str F_authorization buf r) buf
  else if proto_key "UPSGI_TOUCH_RELOAD" key then ok (set_str F_touch_reload buf r) buf
  else ok r buf.

Definition upsgi_proto_check_20 : hook := fun e key buf r =>
  if e.(log_x_forwarded_for) && proto_key "HTTP_X_FORWARDED_FOR" key then ok (set_str F_remote_addr buf r) buf
  else
    let r := if proto_key "HTTP_X_FORWARDED_SSL" key then set_str F_https buf r else r in
    if proto_key "HTTP_ACCEPT_ENCODING" key then ok (set_str F_encoding buf r) buf else ok r buf.

Definition upsgi_proto_check_22 : hook := fun e key buf r =>
  if proto_key "HTTP_IF_MODIFIED_SINCE" key then ok (set_str F_if_modified_since buf r) buf
  else if proto_key "HTTP_SEC_WEBSOCKET_KEY" key then ok (set_str F_sec_websocket_key buf r) buf
  else
    let r := if proto_key "HTTP_X_FORWARDED_PROTO" key then set_str F_scheme buf r else r in
    if proto_key "HTTP_TRANSFER_ENCODING" key then
      if upsgi_strnicmp buf (chars "chunked") then
        if r.(has_content_length) then Ret (-1, r, buf)
        else ok (r<|bsched := note_request e (set_chunked r.(bsched))|>) buf
      else ok r buf
    else ok r buf.

Definition upsgi_proto_check_27 : hook := fun _ key buf r =>
  if proto_key "HTTP_SEC_WEBSOCKET_PROTOCOL" key then ok (set_str F_sec_websocket_protocol buf r) buf else ok r buf.

Definition UPSGI_PROTO_MIN_CHECK : Z := 4.
Definition UPSGI_PROTO_MAX_CHECK : Z := 28.

(** The table filled by [upsgi_proto_hooks_setup]. *)
Definition proto_hooks (keylen : Z) : option hook :=
  if keylen =? 5 then Some upsgi_proto_check_5
  else if keylen =? 9 then Some upsgi_proto_check_9
  else if keylen =? 10 then Some upsgi_proto_check_10
  else if keylen =? 11 then Some upsgi_proto_check_11
  else if keylen =? 12 then Some upsgi_proto_check_12
  else if keylen =? 13 then Some upsgi_proto_check_13
  else if keylen =? 14 then Some upsgi_proto_check_14
  else if keylen =? 15 then Some upsgi_proto_check_15
  else if keylen =? 18 then Some upsgi_proto_check_18
  else if keylen =? 20 then Some upsgi_proto_check_20
  else if keylen =? 22 then Some upsgi_proto_check_22
  else if keylen =? 27 then Some upsgi_proto_check_27
  else None.

(** * The variable block *)

(** [wsgi_req->hvec[i] = v]; [hvec] has [vec_size] entries. *)
Definition hvec_set (i : Z) (v : list Z) (r : wsgi_request) : outcome wsgi_request :=
  if (0 <=? i) && (i <? zlen r.(hvec)) then Ret (r<|hvec := <[Z.to_nat i := v]> r.(hvec)|>) else Fault.

(** [if (var_cnt < vec_size - (4 + 1)) var_cnt++; else return -1;] *)
Definition next_var (e : penv) (r : wsgi_request) : option wsgi_request :=
  if r.(var_cnt) <? e.(vec_size) - (4 + 1) then Some (r<|var_cnt := r.(var_cnt) + 1|>) else None.

(** Run the hook for a key of this length, when there is one. *)
Definition run_hook (e : penv) (keylen : Z) (keyp buf : list Z) (r : wsgi_request)
    : outcome (Z * wsgi_request * list Z) :=
  if (UPSGI_PROTO_MIN_CHECK <? keylen) && (keylen <? UPSGI_PROTO_MAX_CHECK) then
    match proto_hooks keylen with
    | Some h => h e keyp buf r
    | None => ok r buf
    end
  else ok r buf.

(** Record the key and value, as both parsers do; [hooks] is whether the hook
    table is consulted. *)
Definition add_hvec (e : penv) (hooks : bool) (keylen : Z) (keyp buf : list Z) (r : wsgi_request)
    : outcome (Z * wsgi_request) :=
  let* (hr, buf) := if hooks then run_hook e keylen keyp buf r else ok r buf in
  if negb (hr.1 =? 0) then Ret (-1, hr.2)
  else
    match next_var e hr.2 with
    | None => Ret (-1, hr.2)
    | Some r =>
        let* r := hvec_set r.(var_cnt) buf r in
        match next_var e r with
        | None => Ret (-1, r)
        | Some r => Ret (0, r)
        end
    end.

(** The loop of [upsgi_parse_vars].  A key that reaches the end of the block
    is skipped: the next round starts right after its length field. *)
Fixpoint parse_vars_loop (fuel : nat) (e : penv) (rest : list Z) (r : wsgi_request) : outcome (Z * wsgi_request) :=
  match fuel with
  | O => NoFuel
  | S fuel =>
      if 0 <? zlen rest then
        if 2 <? zlen rest then
          let* strsize := read16 rest in
          if strsize =? 0 then Ret (-1, r)
          else
            let rest := zdrop 2 rest in
            if strsize <? zlen rest then
              let* r := hvec_set r.(var_cnt) (ztake strsize rest) r in
              let keyp := rest in
              let keylen := strsize in
              let rest := zdrop strsize rest in
              if 2 <=? zlen rest then
                let* strsize := read16 rest in
                let rest := zdrop 2 rest in
                if strsize <=? zlen rest then
                  let* (ret, r) := add_hvec e true keylen keyp (ztake strsize rest) r in
                  if negb (ret =? 0) then Ret (-1, r) else parse_vars_loop fuel e (zdrop strsize rest) r
                else Ret (-1, r)
              else Ret (-1, r)
            else parse_vars_loop fuel e rest r
        else Ret (-1, r)
      else Ret (0, r)
  end.

(** [upsgi_simple_parse_vars] has no branch for one or two trailing bytes. *)
Fixpoint simple_parse_vars_loop (fuel : nat) (e : penv) (rest : list Z) (r : wsgi_request)
    : outcome (Z * wsgi_request) :=
  match fuel with
  | O => NoFuel
  | S fuel =>
      if 0 <? zlen rest then
        if 2 <? zlen rest then
          let* strsize := read16 rest in
          if strsize =? 0 then Ret (-1, r)
          else
            let rest := zdrop 2 rest in
            if strsize <? zlen rest then
              let* r := hvec_set r.(var_cnt) (ztake strsize rest) r in
              let keyp := rest in
              let keylen := strsize in
              let rest := zdrop strsize rest in
              if 2 <=? zlen rest then
                let* strsize := read16 rest in
                let rest := zdrop 2 rest in
                if strsize <=? zlen rest then
                  let* (ret, r) := add_hvec e false keylen keyp (ztake strsize rest) r in
                  if negb (ret =? 0) then Ret (-1, r) else simple_parse_vars_loop fuel e (zdrop strsize rest) r
                else Ret (-1, r)
              else Ret (-1, r)
            else simple_parse_vars_loop fuel e rest r
        else simple_parse_vars_loop fuel e rest r
      else Ret (0, r)
  end.

(** * The application *)

(** An application: its mount point. *)
Definition best_app (path_info : list Z) (apps : list (list Z)) : option (list Z) * Z :=
  foldl (fun '(found, best_found) mountpoint =>
    let len := zlen mountpoint in
    (* ignore trailing mountpoint slashes *)
    let mlen := if (0 <? len) && bytes_eqb (zdrop (len - 1) mountpoint) [47] then len - 1 else len in
    if (zlen path_info <? mlen) || (mlen <=? best_found)
       || negb (bytes_eqb (ztake mlen path_info) (ztake mlen mountpoint))
       || ((mlen <? zlen path_info) && negb (bytes_eqb (ztake 1 (zdrop mlen path_info)) [47]))
    then (found, best_found)
    else (Some mountpoint, mlen)) (None, 0) apps.

(** [path_info] moved behind the mount point: the bytes at the new pointer and
    the 16 bit length, which the code takes from the mount point with its
    trailing slash. *)
Definition strip_mountpoint (path_info mountpoint : list Z) : list Z * Z :=
  (zdrop (zlen mountpoint) path_info, u16 (zlen path_info - zlen mountpoint)).

(** The [manage_script_name] block.  The slot for SCRIPT_NAME is added when it
    is missing; the values of both variables change in [hvec]. *)
Definition manage_script_name (e : penv) (apps : list (list Z)) (r : wsgi_request) : outcome (Z * wsgi_request * Z) :=
  let path_info := r.(strs) F_path_info in
  let path_info_len := zlen path_info in
  if (0 <? zlen apps) && (1 <=? path_info_len) && negb (r.(path_info_pos) =? -1) then
    let* (full, r) :=
      if r.(script_name_pos) =? -1 then
        if e.(vec_size) - (4 + 2) <=? r.(var_cnt) then Ret (true, r)
        else
          let* r := hvec_set r.(var_cnt) (chars "SCRIPT_NAME") r in
          let r := r<|var_cnt := r.(var_cnt) + 1|> in
          let r := r<|script_name_pos := r.(var_cnt)|> in
          let* r := hvec_set r.(script_name_pos) [] r in
          Ret (false, r<|var_cnt := r.(var_cnt) + 1|>)
      else Ret (false, r) in
    if full : bool then Ret (-1, r, path_info_len)
    else
      match (best_app path_info apps).1 with
      | None => Ret (0, r, path_info_len)
      | Some mountpoint =>
          let '(new_path, new_len) := strip_mountpoint path_info mountpoint in
          let r := set_str F_script_name mountpoint (set_str F_path_info new_path r) in
          let* r := hvec_set r.(script_name_pos) mountpoint r in
          let* r := hvec_set r.(path_info_pos) new_path r in
          Ret (0, r, new_len)
      end
  else Ret (0, r, path_info_len).

(** * Static files *)

(** An entry of [check_static], [static_maps] or [static_maps2]: [udd_value]
    is resolved on first use; [udd_status] is 0 until then. *)
Record dyn_dict : Type := mk_udd {
  udd_key : list Z;
  udd_value : option (list Z);
  udd_status : Z;
}.

(** The file system: [realpath], [upsgi_is_file], [upsgi_expand_path] and
    whether [upsgi_file_serve] served the file. *)
Record static_env : Type := mk_senv {
  realpath : list Z -> option (list Z);
  is_file : list Z -> bool;
  expand_path : list Z -> option (list Z);
  file_serve : list Z -> list Z -> Z -> bool;
}.

(** [true]: a file was served ([return -1]). *)
Fixpoint check_static (se : static_env) (path_info : list Z) (l : list dyn_dict) : bool * list dyn_dict :=
  match l with
  | [] => (false, [])
  | d :: l =>
      let d := match d.(udd_value) with
               | Some _ => d
               | None => mk_udd d.(udd_key) (se.(realpath) d.(udd_key)) d.(udd_status)
               end in
      match d.(udd_value) with
      | Some root =>
          if se.(file_serve) root path_info 0 then (true, d :: l)
          else let '(b, l) := check_static se path_info l in (b, d :: l)
      | None => let '(b, l) := check_static se path_info l in (b, d :: l)
      end
  end.

(** [append] selects [static_maps2], which keeps the prefix in the path. *)
Fixpoint check_static_maps (se : static_env) (append : bool) (path_info : list Z) (l : list dyn_dict)
    : bool * list dyn_dict :=
  match l with
  | [] => (false, [])
  | d :: l =>
      let d := if d.(udd_status) =? 0 then
                 match d.(udd_value) ≫= se.(realpath) with
                 | Some root => mk_udd d.(udd_key) (Some root) (1 + if se.(is_file) root then 1 else 0)
                 | None => mk_udd d.(udd_key) None 0
                 end
               else d in
      let served :=
        match d.(udd_value) with
        | Some root =>
            negb (d.(udd_status) =? 0) && upsgi_starts_with path_info d.(udd_key) &&
            se.(file_serve) root (if append then path_info else zdrop (zlen d.(udd_key)) path_info) (d.(udd_status) - 1)
        | None => false
        end in
      if served : bool then (true, d :: l)
      else let '(b, l) := check_static_maps se append path_info l in (b, d :: l)
  end.

Record static_conf : Type := mk_sconf {
  static_skip_ext : list (list Z);
  static_dirs : list dyn_dict;
  static_maps : list dyn_dict;
  static_maps2 : list dyn_dict;
  check_static_docroot : bool;
}.

Definition skip_static (path_info : list Z) (exts : list (list Z)) : bool :=
  existsb (fun ext => (zlen ext <=? zlen path_info) &&
                      upsgi_strncmp (zdrop (zlen path_info - zlen ext) path_info) ext) exts.

(** The static interception: -1 when a file was served or the document root
    cannot be resolved. *)
Definition static_intercept (se : static_env) (path_info document_root : list Z) (c : static_conf)
    : Z * static_conf :=
  if skip_static path_info c.(static_skip_ext) then (0, c)
  else
    let '(b, dirs) := check_static se path_info c.(static_dirs) in
    let c := mk_sconf c.(static_skip_ext) dirs c.(static_maps) c.(static_maps2) c.(check_static_docroot) in
    if b : bool then (-1, c)
    else
      let '(b, maps) := check_static_maps se false path_info c.(static_maps) in
      let c := mk_sconf c.(static_skip_ext) c.(static_dirs) maps c.(static_maps2) c.(check_static_docroot) in
      if b : bool then (-1, c)
      else
        let '(b, maps2) := check_static_maps se true path_info c.(static_maps2) in
        let c := mk_sconf c.(static_skip_ext) c.(static_dirs) c.(static_maps) maps2 c.(check_static_docroot) in
        if b : bool then (-1, c)
        else if c.(check_static_docroot) && (0 <? zlen document_root) then
          match se.(expand_path) document_root with
          | None => (-1, c)
          | Some root => (if se.(file_serve) root path_info 0 then -1 else 0, c)
          end
        else (0, c).

(** * [upsgi_parse_vars] *)

(** What the second half of the function uses: the post buffering (by its
    result) and the applications. *)
Record vars_env : Type := mk_venv {
  post_buffering : Z;
  postbuffer_in_disk : bool;
  postbuffer_in_mem : bool;
  manage_scripts : bool;
  apps : list (list Z);
}.

Definition upsgi_parse_vars (e : penv) (ve : vars_env) (se : static_env) (block : list Z)
    (r : wsgi_request) (c : static_conf) : outcome (Z * wsgi_request * static_conf) :=
  let r := r<|status := 500|> in
  if r.(parsed) then Ret (0, r, c)
  else
    let* (ret, r) :=
      if 0 <? zlen (r.(strs) F_uri) then
        simple_parse_vars_loop (S (length block)) e block (r<|parsed := true|>)
      else
        parse_vars_loop (S (length block)) e block
          (r<|parsed := true|><|script_name_pos := -1|><|path_info_pos := -1|>) in
    if negb (ret =? 0) then Ret (ret, r, c)
    else if (0 <? ve.(post_buffering)) && negb r.(post_file) &&
       negb (if ve.(post_buffering) <=? post_cl r then ve.(postbuffer_in_disk) else ve.(postbuffer_in_mem))
    then Ret (-1, r, c)
    else
      let* (rr, path_len) :=
        if ve.(manage_scripts) then manage_script_name e ve.(apps) r
        else Ret (0, r, zlen (r.(strs) F_path_info)) in
      let r := rr.2 in
      if negb (rr.1 =? 0) then Ret (-1, r, c)
      else
        (* the path as its pointer and length describe it *)
        let* path_info := mslice (r.(strs) F_path_info) 0 path_len in
        let '(ret, c) := static_intercept se path_info (r.(strs) F_document_root) c in
        Ret (ret, r, c).

End Protocol.
