(* ===== verification/ProtocolProofs.v ===== *)
(** Properties of the request variables ([Protocol]): numbers, the variable
    block, body framing, mount points. *)
From S2P Require Import Prelude Clib Strings Buffer BodySched Packet Protocol.
Import Packet Protocol.

Module ProtocolProofs.

(** * Numbers *)

(** The value of a string of decimal digits. *)
Definition dec (buf : list Z) : Z := foldl (fun n c => n * 10 + (c - 48)) 0 buf.
Definition all_digits (buf : list Z) : bool := forallb isdigit buf.

Lemma dec_acc buf n : foldl (fun n c => n * 10 + (c - 48)) n buf = n * 10 ^ zlen buf + dec buf.
Proof.
  unfold dec. revert n. induction buf as [|c buf IH]; intros n; cbn [foldl]; [rewrite zlen_nil; lia|].
  rewrite IH, (IH (0 * 10 + (c - 48))), zlen_cons. zlen_facts. rewrite Z.pow_add_r by lia. lia.
Qed.

Lemma dec_cons c buf : dec (c :: buf) = (c - 48) * 10 ^ zlen buf + dec buf.
Proof. unfold dec at 1. cbn [foldl]. rewrite dec_acc. lia. Qed.

Lemma dec_bound buf : all_digits buf = true -> 0 <= dec buf < 10 ^ zlen buf.
Proof.
  induction buf as [|c buf IH]; [done|]. cbn [all_digits forallb]. intros [Hc H]%andb_true_iff.
  specialize (IH H). rewrite dec_cons, zlen_cons. zlen_facts. rewrite Z.pow_add_r by lia.
  unfold isdigit in Hc. apply andb_true_iff in Hc as [?%Z.leb_le ?%Z.leb_le]. nia.
Qed.

Lemma content_length_loop_spec buf val :
  0 <= val <= SIZE_MAX ->
  content_length_loop buf val =
  if all_digits buf && (val * 10 ^ zlen buf + dec buf <=? SIZE_MAX) then Some (val * 10 ^ zlen buf + dec buf) else None.
Proof.
  revert val. induction buf as [|c buf IH]; intros val Hval.
  - change (dec []) with 0. rewrite zlen_nil. cbn [content_length_loop all_digits forallb andb].
    replace (val * 10 ^ 0 + 0) with val by lia. by rewrite (proj2 (Z.leb_le _ _)) by lia.
  - cbn [content_length_loop all_digits forallb]. unfold isdigit at 1.
    destruct (Z.ltb_spec c 48); [by rewrite (proj2 (Z.leb_gt 48 c))|].
    destruct (Z.ltb_spec 57 c); cbn [orb]; [by rewrite (proj2 (Z.leb_gt c 57)) by lia; rewrite andb_false_r|].
    rewrite (proj2 (Z.leb_le 48 c)), (proj2 (Z.leb_le c 57)) by lia. cbn [andb].
    rewrite dec_cons, zlen_cons. zlen_facts. rewrite Z.pow_add_r by lia. change (10 ^ 1) with 10.
    replace (val * (10 * 10 ^ zlen buf) + ((c - 48) * 10 ^ zlen buf + dec buf))
      with ((val * 10 + (c - 48)) * 10 ^ zlen buf + dec buf) by ring.
    assert (0 < 10 ^ zlen buf) as Hpow by (apply Z.pow_pos_nonneg; lia).
    fold (all_digits buf). change (10 ^ 1) with 10.
    destruct (Z.ltb_spec ((SIZE_MAX - (c - 48)) / 10) val) as [Hov|Hok].
    + assert (SIZE_MAX < val * 10 + (c - 48)).
      { pose proof (Z.mul_succ_div_gt (SIZE_MAX - (c - 48)) 10). lia. }
      destruct (all_digits buf) eqn:Ed; [|done]. cbn [andb]. apply dec_bound in Ed.
      rewrite (proj2 (Z.leb_gt _ _)) by nia. done.
    + assert (val * 10 + (c - 48) <= SIZE_MAX).
      { pose proof (Z.mul_div_le (SIZE_MAX - (c - 48)) 10). lia. }
      rewrite wrap_small by (unfold SIZE_MAX in *; lia). apply IH. lia.
Qed.

(** [get_content_length] accepts exactly the decimal numbers that fit a
    [size_t] and returns their value: an empty value, a byte that is not a
    digit (sign, blank) and an overflow are rejected. *)
Theorem content_length_exact buf v :
  get_content_length buf = Some v <->
  buf <> [] /\ all_digits buf = true /\ dec buf <= SIZE_MAX /\ v = dec buf.
Proof.
  unfold get_content_length. destruct (Z.eqb_spec (zlen buf) 0) as [Hz|Hz].
  - apply zlen_zero_inv in Hz as ->. split; [done | by intros [? _]].
  - rewrite content_length_loop_spec by (unfold SIZE_MAX; lia). rewrite Z.mul_0_l, Z.add_0_l.
    assert (buf <> []) by (by intros ->).
    destruct (all_digits buf); cbn [andb]; [|split; [done | by intros (_ & ? & _)]].
    destruct (Z.leb_spec (dec buf) SIZE_MAX); split; try done.
    + intros [= <-]. done.
    + by intros (_ & _ & _ & ->).
    + intros (_ & _ & ? & _). lia.
Qed.

Lemma str_num_loop_spec str num :
  all_digits str = true -> 0 <= num -> num + dec str < 2 ^ 64 ->
  str_num_loop (10 ^ zlen str) num str = num + dec str.
Proof.
  revert num. induction str as [|c str IH]; intros num; [change (dec []) with 0; cbn [str_num_loop]; lia|].
  cbn [all_digits forallb str_num_loop]. intros [Hc H]%andb_true_iff Hn Hb.
  rewrite zlen_cons. zlen_facts. rewrite Z.pow_add_r by lia. change (10 ^ 1) with 10.
  rewrite (Z.mul_comm 10), Z.div_mul by lia. rewrite dec_cons in *. pose proof (dec_bound str H).
  unfold isdigit in Hc. apply andb_true_iff in Hc as [?%Z.leb_le ?%Z.leb_le].
  assert (0 < 10 ^ zlen str) by (apply Z.pow_pos_nonneg; lia).
  rewrite (signed_small 8) by lia. rewrite wrap_small by nia. rewrite IH; [lia | done | nia | nia].
Qed.

Lemma str_num_spec str : all_digits str = true -> zlen str <= 19 -> upsgi_str_num str = Ret (dec str).
Proof.
  intros H Hl. unfold upsgi_str_num. rewrite (proj2 (Z.ltb_ge _ _)) by lia.
  pose proof (dec_bound str H). zlen_facts.
  assert (10 ^ zlen str <= 10 ^ 19) by (apply Z.pow_le_mono_r; lia).
  rewrite str_num_loop_spec; [done | done | lia |]. change (10 ^ 19) with 10000000000000000000 in *. lia.
Qed.

(** The number that was printed is read back. *)
Lemma all_digits_digits n : all_digits (digits 10 n) = true.
Proof.
  apply forallb_forall. intros x Hx. apply list_elem_of_In in Hx.
  assert (Forall (fun c => isdigit c = true) (digits 10 n)) as Hf by (apply digits_fuel_forall; [lia | apply isdigit_char]).
  rewrite Forall_forall in Hf. by apply Hf.
Qed.

Lemma dec_snoc l c : dec (l ++ [c]) = 10 * dec l + (c - 48).
Proof. unfold dec. rewrite foldl_app. cbn [foldl]. lia. Qed.

Lemma dec_digits n : 0 <= n -> dec (digits 10 n) = n.
Proof.
  unfold digits. intros Hn. assert (Z.to_nat (Z.log2 n) < S (Z.to_nat (Z.log2 n)))%nat as Hf by lia. revert Hf. generalize (S (Z.to_nat (Z.log2 n))) as fuel.
  intros fuel. revert n Hn. induction fuel as [|fuel IH]; intros n Hn Hf; [lia|]. cbn [digits_fuel].
  assert (0 <= n mod 10 < 10) by (apply Z.mod_pos_bound; lia).
  assert (digit_char (n mod 10) - 48 = n mod 10) as Hd by (unfold digit_char; destruct (Z.ltb_spec (n mod 10) 10); lia).
  destruct (Z.ltb_spec n 10).
  - rewrite dec_cons, Hd. change (dec []) with 0. change (@zlen Z []) with 0. rewrite Z.mod_small by lia. lia.
  - rewrite digits_fuel_acc, dec_snoc, Hd, IH; [pose proof (Z.div_mod n 10); lia | apply Z.div_pos; lia |].
    pose proof (log2_div_lt 10 n). lia.
Qed.

Lemma zlen_digits n : 0 <= n < 10 ^ 19 -> 0 < zlen (digits 10 n) <= 19.
Proof.
  intros Hn. pose proof (digits_nonempty 10 n). pose proof (digits_fuel_length (S (Z.to_nat (Z.log2 n))) 10 n 19) as H1.
  unfold digits in *. unfold zlen. destruct (digits_fuel _ _ _ _); [done|]. cbn [length] in *. lia.
Qed.

Lemma str_num_digits n : 0 <= n < 10 ^ 19 -> upsgi_str_num (digits 10 n) = Ret n.
Proof. intros Hn. pose proof (zlen_digits n Hn). rewrite str_num_spec; [by rewrite dec_digits by lia | apply all_digits_digits | lia]. Qed.

Lemma memchr_digits (l k : list Z) c :
  all_digits l = true -> isdigit c = false -> memchr (l ++ c :: k) c = Some (zlen l).
Proof.
  intros H Hc. apply memchr_app_l. unfold all_digits in H. rewrite forallb_forall in H.
  apply Forall_forall. intros x Hx ->. apply list_elem_of_In, H in Hx. congruence.
Qed.

Lemma memchr_digits_none (l : list Z) c : all_digits l = true -> isdigit c = false -> memchr l c = None.
Proof.
  intros H Hc. apply memchr_None. unfold all_digits in H. rewrite forallb_forall in H.
  apply Forall_forall. intros x Hx ->. apply list_elem_of_In, H in Hx. congruence.
Qed.

Lemma all_digits_app a b : all_digits (a ++ b) = all_digits a && all_digits b.
Proof. apply forallb_app. Qed.

(** The text of a range, with a possibly empty end. *)
Definition range_text (a b : list Z) : list Z := chars "bytes=" ++ a ++ 45 :: b.

Lemma range_text_parse a b :
  all_digits a = true -> all_digits b = true -> 0 < zlen a + zlen b ->
  upsgi_parse_http_range (range_text a b) =
  if negb (zlen a =? 0) then
    let* from := upsgi_str_num a in
    let* to := if zlen b =? 0 then Ret INT64_MAX else let* n := upsgi_str_num b in Ret (i64 n) in
    if i64 from <=? to then Ret (RANGE_PARSED, i64 from, to) else Ret (RANGE_INVALID, 0, 0)
  else
    let* n := upsgi_str_num b in
    let from := i64 (- i64 n) in
    if from <? 0 then Ret (RANGE_PARSED, from, INT64_MAX) else Ret (RANGE_INVALID, from, 0).
Proof.
  intros Ha Hb Hl. unfold upsgi_parse_http_range.
  assert (memchr (range_text a b) 44 = None) as ->.
  { apply memchr_None. unfold range_text. apply Forall_app. split; [by repeat constructor|].
    apply Forall_app. split; [|constructor; [done|]];
      apply Forall_forall; intros x Hx ->; unfold all_digits in *; rewrite forallb_forall in *;
      apply list_elem_of_In in Hx; [apply Ha in Hx | apply Hb in Hx]; done. }
  assert (zlen (range_text a b) = 7 + zlen a + zlen b) as Hz.
  { unfold range_text. rewrite !zlen_app, zlen_cons. change (zlen (chars "bytes=")) with 6. lia. }
  rewrite (proj2 (Z.ltb_ge _ 8)) by (zlen_facts; lia).
  change (memchr (range_text a b) 61) with (Some 5). cbn [Z.eqb negb]. change (5 =? 5) with true. cbn [negb].
  change (ztake 5 (range_text a b)) with (chars "bytes"). rewrite bytes_eqb_refl. cbn [negb].
  change (zdrop 6 (range_text a b)) with (a ++ 45 :: b).
  rewrite memchr_digits by done. destruct (Z.eqb_spec (zlen a) 0) as [Ea|Ea]; cbn [negb].
  - apply zlen_zero_inv in Ea as ->. reflexivity.
  - rewrite ztake_app_length by done. rewrite zlen_app, zlen_cons.
    replace (zdrop (zlen a + 1) (a ++ 45 :: b)) with b.
    2: { rewrite zdrop_app_ge by lia. by replace (zlen a + 1 - zlen a) with 1 by lia. }
    replace (zlen a =? zlen a + (1 + zlen b) - 1) with (zlen b =? 0); [done|].
    destruct (Z.eqb_spec (zlen b) 0), (Z.eqb_spec (zlen a) (zlen a + (1 + zlen b) - 1)); lia || done.
Qed.

Definition small_num (a : list Z) : Prop := all_digits a = true /\ zlen a <= 19 /\ dec a < 2 ^ 63.

Lemma small_num_i64 a : small_num a -> upsgi_str_num a = Ret (dec a) /\ i64 (dec a) = dec a.
Proof.
  intros (H1 & H2 & H3). pose proof (dec_bound a H1). split; [by apply str_num_spec|].
  apply signed_small; [lia|]. change (64 - 1) with 63. lia.
Qed.

(** Byte ranges: [bytes=a-b] is the range from [a] to [b] when [a <= b]
    and invalid otherwise, [bytes=a-] reaches to the end and [bytes=-n] is the
    last [n] bytes (a negative start), for numbers below [2^63]. *)
Theorem http_range_spec a b :
  small_num a -> small_num b -> 0 < zlen a + zlen b ->
  upsgi_parse_http_range (range_text a b) =
  Ret (if zlen a =? 0 then
         (if 0 <? dec b then (RANGE_PARSED, - dec b, INT64_MAX) else (RANGE_INVALID, 0, 0))
       else
         let to := if zlen b =? 0 then INT64_MAX else dec b in
         if dec a <=? to then (RANGE_PARSED, dec a, to) else (RANGE_INVALID, 0, 0)).
Proof.
  intros Ha Hb Hl. destruct (small_num_i64 a Ha) as [Ea Ia], (small_num_i64 b Hb) as [Eb Ib].
  destruct Ha as (Ha & _ & Ha3), Hb as (Hb & _ & Hb3).
  rewrite range_text_parse by done. rewrite Ea, Eb. cbn [obind]. rewrite Ia, Ib.
  pose proof (dec_bound a Ha). pose proof (dec_bound b Hb).
  destruct (Z.eqb_spec (zlen a) 0); cbn [negb].
  - assert (i64 (- dec b) = - dec b) as ->.
    { destruct (Z.eq_dec (dec b) 0) as [->|]; [done|]. unfold signed, wrap.
      replace ((- dec b) mod 2 ^ 64) with (2 ^ 64 - dec b)
        by (apply (Z.mod_unique _ _ (-1)); lia).
      rewrite (proj2 (Z.ltb_ge _ _)); change (2 ^ (64 - 1)) with 9223372036854775808; lia. }
    destruct (Z.ltb_spec (- dec b) 0), (Z.ltb_spec 0 (dec b)); try lia; [done|].
    do 2 f_equal. f_equal. lia.
  - destruct (zlen b =? 0); cbn [obind]; by destruct (_ <=? _).
Qed.

Lemma http_range_spec_witness :
  upsgi_parse_http_range (chars "bytes=10-499") = Ret (RANGE_PARSED, 10, 499).
Proof. apply (http_range_spec (chars "10") (chars "499")); by vm_compute. Defined.

(** A range with a number of twenty digits or more makes the parser
    convert a power of ten that does not fit a [uint64_t], which C leaves
    undefined; leading zeros count. *)
Theorem http_range_overflow :
  upsgi_parse_http_range (chars "bytes=00000000000000000001-") = Fault.
Proof. by vm_compute. Qed.

(** * The variable block *)

(** The vector table has room for the next entry. *)
Record vec_ok (e : penv) (r : wsgi_request) : Prop := {
  v_hvec : zlen r.(hvec) = e.(vec_size);
  v_cnt : 0 <= r.(var_cnt) <= e.(vec_size) - 5;
}.

(** A body has one framing, and its size respects the limit. *)
Record framing_ok (e : penv) (r : wsgi_request) : Prop := {
  f_one : r.(has_content_length) && body_is_chunked r = false;
  f_limit : r.(has_content_length) = true -> e.(limit_post) <> 0 -> post_cl r <= e.(limit_post);
  f_cl : r.(has_content_length) = true -> 0 <= post_cl r <= SIZE_MAX;
}.

Lemma note_request_frame enabled now s :
  BodySched.post_cl (BodySched.rq (BodySched.note_request enabled now s)) = BodySched.post_cl (BodySched.rq s) /\
  BodySched.body_is_chunked (BodySched.rq (BodySched.note_request enabled now s)) = BodySched.body_is_chunked (BodySched.rq s).
Proof.
  unfold BodySched.note_request. destruct (BodySched.registered _); [done|]. destruct (_ && _); [done|].
  destruct (negb enabled && _); split; reflexivity.
Qed.

(** What a hook may do. *)
Definition hook_post (e : penv) (r : wsgi_request) (keyp buf : list Z) (res : outcome (Z * wsgi_request * list Z)) : Prop :=
  exists ret r' buf', res = Ret (ret, r', buf') /\ hvec r' = hvec r /\ var_cnt r' = var_cnt r /\
    (proto_key "UPSGI_SETENV" keyp = false -> buf' = buf) /\ (ret = 0 \/ ret = -1) /\
    (ret = 0 -> framing_ok e r -> framing_ok e r').

Lemma hook_post_ok e r r' key buf :
  hvec r' = hvec r -> var_cnt r' = var_cnt r -> (framing_ok e r -> framing_ok e r') -> hook_post e r key buf (ok r' buf).
Proof. intros H1 H2 H3. exists 0, r', buf. split_and!; auto. Qed.

Lemma framing_same e r r' :
  has_content_length r' = has_content_length r -> bsched r' = bsched r -> framing_ok e r -> framing_ok e r'.
Proof.
  intros H1 H2 [Ha Hb Hc]. split; unfold post_cl, body_is_chunked in *; rewrite H1, ?H2; auto.
Qed.

Lemma hook_post_field e r r' key buf :
  hvec r' = hvec r -> var_cnt r' = var_cnt r -> has_content_length r' = has_content_length r ->
  bsched r' = bsched r -> hook_post e r key buf (ok r' buf).
Proof. intros. apply hook_post_ok; [done..|]. by apply framing_same. Qed.

Lemma setenv_post e key buf r :
  proto_key "UPSGI_SETENV" key = true -> hook_post e r key buf (upsgi_setenv buf r).
Proof.
  intros Hk. unfold upsgi_setenv. destruct (memchr buf 61) as [i|] eqn:E; [|by apply hook_post_field].
  eexists _, _, _. split; [reflexivity|]. rewrite Hk. split_and!; try done; [by left|].
  intros _. by apply framing_same.
Qed.

Lemma check_14_post e key buf r : hook_post e r key buf (upsgi_proto_check_14 e key buf r).
Proof.
  unfold upsgi_proto_check_14.
  destruct (proto_key "REQUEST_METHOD" key); [by apply hook_post_field|].
  destruct (proto_key "CONTENT_LENGTH" key).
  2: { destruct (proto_key "UPSGI_POSTFILE" key); [by apply hook_post_field|].
       destruct (_ && _); by apply hook_post_field. }
  destruct (get_content_length buf) as [cl|] eqn:Ecl; [|exists (-1), r, buf; split_and!; auto; done].
  destruct (body_is_chunked r) eqn:Ech; [exists (-1), r, buf; split_and!; auto; done|].
  set (s' := if 0 <? cl then _ else _).
  assert (BodySched.post_cl (BodySched.rq s') = cl /\ BodySched.body_is_chunked (BodySched.rq s') = false) as [Hp Hb].
  { unfold s'. unfold body_is_chunked in Ech. destruct (0 <? cl).
    - destruct (note_request_frame (sched_enabled e) (now_us e) (set_post_cl cl (bsched r))) as [H1 H2].
      unfold note_request. by rewrite H1, H2.
    - done. }
  assert (0 <= cl <= SIZE_MAX) as Hcl.
  { unfold get_content_length in Ecl. destruct (zlen buf =? 0); [done|].
    rewrite content_length_loop_spec in Ecl by (unfold SIZE_MAX; lia).
    destruct (all_digits buf) eqn:Ed; [|done]. cbn [andb] in Ecl. apply dec_bound in Ed.
    destruct (Z.leb_spec (0 * 10 ^ zlen buf + dec buf) SIZE_MAX); [|done]. injection Ecl as <-. lia. }
  destruct (negb (limit_post e =? 0) && (limit_post e <? cl)) eqn:El.
  - eexists (-1), _, buf. split; [reflexivity|]. split_and!; auto; done.
  - apply hook_post_ok; [done..|]. intros _. split; unfold post_cl, body_is_chunked; cbn.
    + by rewrite Hb.
    + intros _ Hl. rewrite Hp. apply andb_false_iff in El as [El|El]; [|by apply Z.ltb_ge in El].
      apply negb_false_iff, Z.eqb_eq in El. done.
    + intros _. by rewrite Hp.
Qed.

Lemma check_22_post e key buf r : hook_post e r key buf (upsgi_proto_check_22 e key buf r).
Proof.
  unfold upsgi_proto_check_22.
  destruct (proto_key "HTTP_IF_MODIFIED_SINCE" key); [by apply hook_post_field|].
  destruct (proto_key "HTTP_SEC_WEBSOCKET_KEY" key); [by apply hook_post_field|].
  set (r1 := if proto_key "HTTP_X_FORWARDED_PROTO" key then _ else r).
  assert (hvec r1 = hvec r /\ var_cnt r1 = var_cnt r /\ has_content_length r1 = has_content_length r /\ bsched r1 = bsched r)
    as (H1 & H2 & H3 & H4) by (unfold r1; by destruct (proto_key _ _)).
  destruct (proto_key "HTTP_TRANSFER_ENCODING" key); [|by apply hook_post_field].
  destruct (upsgi_strnicmp buf (chars "chunked")); [|by apply hook_post_field].
  destruct (has_content_length r1) eqn:Eh; [exists (-1), r1, buf; split_and!; auto; done|].
  apply hook_post_ok; [done..|]. intros _. split; cbn; rewrite Eh; done.
Qed.

Lemma run_hook_post e keylen keyp buf r :
  e.(honour_range) = false -> hook_post e r keyp buf (run_hook e keylen keyp buf r).
Proof.
  intros Hr. unfold run_hook. destruct (_ && _); [|by apply hook_post_field].
  unfold proto_hooks.
  repeat (match goal with |- context [if keylen =? ?n then _ else _] => destruct (keylen =? n) end);
    try apply check_14_post; try apply check_22_post; try (by apply hook_post_field);
    unfold upsgi_proto_check_5, upsgi_proto_check_9, upsgi_proto_check_10, upsgi_proto_check_11, upsgi_proto_check_12,
      upsgi_proto_check_13, upsgi_proto_check_15, upsgi_proto_check_18, upsgi_proto_check_20, upsgi_proto_check_27;
    rewrite ?Hr; cbn [andb];
    repeat (match goal with |- context [if ?b then _ else _] => destruct b eqn:? end);
    try (by apply setenv_post); by apply hook_post_field.
Qed.

Lemma hvec_set_ok e r v :
  vec_ok e r -> exists r', hvec_set r.(var_cnt) v r = Ret r' /\ vec_ok e r' /\ var_cnt r' = var_cnt r /\
    has_content_length r' = has_content_length r /\ bsched r' = bsched r.
Proof.
  intros [Hh Hc]. unfold hvec_set. rewrite (proj2 (Z.leb_le _ _)), (proj2 (Z.ltb_lt _ _)) by lia. cbn [andb].
  eexists. split; [done|]. split; [|done]. split; cbn; [|done]. unfold zlen in *. by rewrite length_insert.
Qed.

Lemma add_hvec_post e keylen keyp buf r :
  e.(honour_range) = false -> vec_ok e r -> framing_ok e r ->
  exists ret r', add_hvec e true keylen keyp buf r = Ret (ret, r') /\ vec_ok e r' /\ (ret = 0 \/ ret = -1) /\
    (ret = 0 -> framing_ok e r').
Proof.
  intros Hr Hv Hf. unfold add_hvec.
  destruct (run_hook_post e keylen keyp buf r Hr) as (ret & r1 & buf' & -> & H1 & H2 & _ & Hret & Hf1).
  cbn [obind fst snd].
  assert (vec_ok e r1) as Hv1 by (destruct Hv as [Hh Hc]; split; rewrite ?H1, ?H2; done).
  destruct (Z.eqb_spec ret 0) as [->|Hne]; cbn [negb].
  2: { exists (-1), r1. split_and!; auto; done. }
  specialize (Hf1 eq_refl Hf). unfold next_var at 1. rewrite H2.
  destruct (Z.ltb_spec (var_cnt r) (vec_size e - (4 + 1))) as [Hlt|Hge].
  2: { exists (-1), r1. split_and!; auto; done. }
  set (r2 := r1<|var_cnt := _|>).
  assert (vec_ok e r2) as Hv2 by (destruct Hv as [Hh Hc]; split; cbn; [by rewrite H1 | lia]).
  destruct (hvec_set_ok e r2 buf' Hv2) as (r3 & -> & Hv3 & Hc3 & Hh3 & Hb3). cbn [obind].
  assert (framing_ok e r3) as Hf3 by (apply (framing_same e r1); [by rewrite Hh3 | by rewrite Hb3 | done]).
  unfold next_var. rewrite Hc3. change (var_cnt r2) with (var_cnt r + 1).
  destruct (Z.ltb_spec (var_cnt r + 1) (vec_size e - (4 + 1))).
  - eexists 0, _. split; [done|]. split; [|split; [by left|]].
    + destruct Hv3 as [Hh Hc]. split; cbn; [done|]. change (var_cnt r2) with (var_cnt r + 1) in Hc3. lia.
    + intros _. by apply (framing_same e r3).
  - exists (-1), r3. split_and!; auto; done.
Qed.

Lemma parse_vars_loop_total fuel e rest r :
  e.(honour_range) = false -> bytes_ok rest -> (length rest < fuel)%nat -> vec_ok e r -> framing_ok e r ->
  exists ret r', parse_vars_loop fuel e rest r = Ret (ret, r') /\ vec_ok e r' /\ (ret = 0 \/ ret = -1) /\
    (ret = 0 -> framing_ok e r').
Proof.
  intros Hr. revert rest r. induction fuel as [|fuel IH]; intros rest r Hb Hf Hv Hfr; [lia|].
  assert (exists ret r', Ret (-1, r) = Ret (ret, r') /\ vec_ok e r' /\ (ret = 0 \/ ret = -1) /\
    (ret = 0 -> framing_ok e r')) as Hstop by (eexists (-1), r; split_and!; auto; done).
  cbn [parse_vars_loop]. destruct (Z.ltb_spec 0 (zlen rest)); [|eexists 0, r; split_and!; auto].
  destruct (Z.ltb_spec 2 (zlen rest)) as [H2|]; [|done].
  destruct (read16_total rest Hb) as (ks & -> & Hks); [lia|]. cbn [obind].
  destruct (Z.eqb_spec ks 0); [done|].
  assert (zlen (zdrop 2 rest) = zlen rest - 2) as E1 by (apply zlen_drop; lia).
  destruct (Z.ltb_spec ks (zlen (zdrop 2 rest))) as [Hk|Hk].
  2: { apply IH; [by apply bytes_ok_zdrop | unfold zlen in *; lia | done | done]. }
  destruct (hvec_set_ok e r (ztake ks (zdrop 2 rest)) Hv) as (r1 & -> & Hv1 & Hc1 & Hh1 & Hb1). cbn [obind].
  assert (framing_ok e r1) as Hfr1 by (by apply (framing_same e r)).
  assert (exists ret r', Ret (-1, r1) = Ret (ret, r') /\ vec_ok e r' /\ (ret = 0 \/ ret = -1) /\
    (ret = 0 -> framing_ok e r')) as Hstop1 by (eexists (-1), r1; split_and!; auto; done).
  assert (zlen (zdrop ks (zdrop 2 rest)) = zlen rest - 2 - ks) as E2 by (rewrite zlen_drop; lia).
  destruct (Z.leb_spec 2 (zlen (zdrop ks (zdrop 2 rest)))); [|done].
  destruct (read16_total (zdrop ks (zdrop 2 rest))) as (vs & -> & Hvs); [by do 2 apply bytes_ok_zdrop | lia |].
  cbn [obind].
  assert (zlen (zdrop 2 (zdrop ks (zdrop 2 rest))) = zlen rest - 4 - ks) as E3 by (rewrite zlen_drop; lia).
  destruct (Z.leb_spec vs (zlen (zdrop 2 (zdrop ks (zdrop 2 rest))))); [|done].
  destruct (add_hvec_post e ks (zdrop 2 rest) (ztake vs (zdrop 2 (zdrop ks (zdrop 2 rest)))) r1 Hr Hv1 Hfr1)
    as (ret & r2 & -> & Hv2 & Hret & Hfr2). cbn [obind].
  destruct (Z.eqb_spec ret 0) as [->|]; cbn [negb].
  - apply IH; [by do 4 apply bytes_ok_zdrop | | done | by apply Hfr2].
    assert (zlen (zdrop vs (zdrop 2 (zdrop ks (zdrop 2 rest)))) = zlen rest - 4 - ks - vs) by (rewrite zlen_drop; lia).
    unfold zlen in *. lia.
  - eexists (-1), r2. split_and!; auto; done.
Qed.


Definition demo_penv : penv := mk_penv 40 false false false 100 true 0 (fun _ => true).
Definition demo_sched : BodySched.sched := BodySched.mk_sched (BodySched.fresh_req 0 false) BodySched.fresh_core.
Definition demo_wsgi : wsgi_request :=
  mk_wsgi (fun _ => []) (-1) (-1) (RANGE_NOT_PARSED, 0, 0) false false false demo_sched (zrep 40 []) 0 0 false [].

Lemma demo_wsgi_ok : vec_ok demo_penv demo_wsgi /\ framing_ok demo_penv demo_wsgi.
Proof. split; split; cbn; try done; by vm_compute. Qed.


(** The effect of one variable, given the bytes that follow its key. *)
Definition apply_var (e : penv) (k v tail : list Z) (r : wsgi_request) : outcome (Z * wsgi_request) :=
  let* r := hvec_set r.(var_cnt) k r in
  add_hvec e true (zlen k) (k ++ le_bytes16 (zlen v) ++ v ++ tail) v r.

Fixpoint apply_vars (e : penv) (kvs : list kv) (r : wsgi_request) : outcome (Z * wsgi_request) :=
  match kvs with
  | [] => Ret (0, r)
  | (k, v) :: kvs =>
      let* (ret, r) := apply_var e k v (encode kvs) r in
      if negb (ret =? 0) then Ret (-1, r) else apply_vars e kvs r
  end.

Lemma parse_vars_loop_encode fuel e kvs r :
  kvs_ok kvs -> (length (encode kvs) < fuel)%nat ->
  parse_vars_loop fuel e (encode kvs) r = apply_vars e kvs r.
Proof.
  intros HF. revert fuel r.
  induction HF as [|[k v] kvs [Hk Hv] HF IH]; intros fuel r Hfuel; (destruct fuel as [|fuel]; [lia|]); [done|].
  assert (encode ((k, v) :: kvs) = le_bytes16 (zlen k) ++ k ++ le_bytes16 (zlen v) ++ v ++ encode kvs) as E
    by (rewrite encode_cons; unfold var_block; by rewrite <- !app_assoc).
  rewrite E in Hfuel |- *. clear E. unfold key_ok, val_ok in *.
  cbn [parse_vars_loop apply_vars]. pose proof (zlen_nonneg v). pose proof (zlen_nonneg (encode kvs)).
  rewrite !zlen_app, !zlen_le_bytes16.
  rewrite (proj2 (Z.ltb_lt 0 _)), (proj2 (Z.ltb_lt 2 _)) by lia.
  rewrite read16_le_bytes by lia. cbn [obind]. rewrite (proj2 (Z.eqb_neq (zlen k) 0)) by lia.
  rewrite (zdrop_app_length 2) by done. rewrite !zlen_app, !zlen_le_bytes16.
  rewrite (proj2 (Z.ltb_lt (zlen k) _)) by lia.
  rewrite (zdrop_app_length (zlen k)), (ztake_app_length (zlen k)) by done.
  rewrite !zlen_app, !zlen_le_bytes16. rewrite (proj2 (Z.leb_le 2 _)) by lia.
  rewrite read16_le_bytes by lia. rewrite (zdrop_app_length 2) by done.
  unfold apply_var. rewrite obind_assoc.
  destruct (hvec_set (var_cnt r) k r) as [r1| | |]; cbn [obind]; try done.
  rewrite !zlen_app. rewrite (proj2 (Z.leb_le (zlen v) _)) by lia.
  rewrite (zdrop_app_length (zlen v)), (ztake_app_length (zlen v)) by done.
  destruct (add_hvec _ _ _ _ _ _) as [[ret r2]| | |]; cbn [obind]; try done.
  destruct (negb (ret =? 0)); [done|]. apply IH. rewrite !length_app in Hfuel. cbn in Hfuel. lia.
Qed.

Definition setenv_free (kvs : list kv) : Prop := Forall (fun kv => kv.1 <> chars "UPSGI_SETENV") kvs.

Lemma proto_key_exact x k tail : zlen k = zlen (chars x) -> k <> chars x -> proto_key x (k ++ tail) = false.
Proof.
  intros Hl Hne. unfold proto_key. rewrite <- Hl, ztake_app_length by done.
  apply bool_decide_eq_false_2. done.
Qed.

(** One accepted variable: two more entries in the table. *)
Lemma apply_var_table e k v tail r r' :
  e.(honour_range) = false -> vec_ok e r -> k <> chars "UPSGI_SETENV" ->
  apply_var e k v tail r = Ret (0, r') ->
  var_cnt r' = var_cnt r + 2 /\ vec_ok e r' /\
  ztake (var_cnt r') (hvec r') = ztake (var_cnt r) (hvec r) ++ [k; v].
Proof.
  intros Hr Hv Hk. unfold apply_var.
  destruct (hvec_set_ok e r k Hv) as (r1 & E1 & Hv1 & Hc1 & _). rewrite E1. cbn [obind].
  unfold hvec_set in E1. destruct (_ && _); [|done]. injection E1 as <-.
  unfold add_hvec. set (keyp := k ++ _).
  destruct (run_hook_post e (zlen k) keyp v (r<|hvec := <[Z.to_nat (var_cnt r):=k]> (hvec r)|>) Hr)
    as (ret & r2 & buf' & Eh & H1 & H2 & Hbuf & _ & _). rewrite Eh. cbn [obind fst snd].
  destruct (Z.eqb_spec ret 0) as [->|]; [|done]. cbn [negb].
  assert (buf' = v) as ->.
  { destruct (Z.eqb_spec (zlen k) (zlen (chars "UPSGI_SETENV"))) as [El|El].
    - apply Hbuf. by apply proto_key_exact.
    - unfold run_hook in Eh. destruct (_ && _); [|unfold ok in Eh; congruence].
      change (zlen (chars "UPSGI_SETENV")) with 12 in El.
      clear -Eh El Hr. unfold proto_hooks in Eh.
      destruct (Z.eqb_spec (zlen k) 12); [done|].
      repeat (match type of Eh with context [if zlen k =? ?n then _ else _] => destruct (zlen k =? n) end);
      unfold upsgi_proto_check_5, upsgi_proto_check_9, upsgi_proto_check_10, upsgi_proto_check_11,
        upsgi_proto_check_13, upsgi_proto_check_14, upsgi_proto_check_15, upsgi_proto_check_18, upsgi_proto_check_20,
        upsgi_proto_check_22, upsgi_proto_check_27, ok in Eh; rewrite ?Hr in Eh; cbn [andb] in Eh;
      repeat case_match; congruence. }
  unfold next_var at 1. destruct (Z.ltb_spec (var_cnt r2) (vec_size e - (4 + 1))) as [Hlt|]; [|done].
  cbn in H1, H2. unfold hvec_set. cbn [var_cnt hvec setter]. unfold setter. cbn.
  rewrite H1, H2. destruct Hv as [Hh Hc]. rewrite H2 in Hlt.
  assert (zlen (<[Z.to_nat (var_cnt r):=k]> (hvec r)) = vec_size e) as Hl1
    by (unfold zlen in *; by rewrite length_insert).
  rewrite Hl1, (proj2 (Z.leb_le 0 _)), (proj2 (Z.ltb_lt _ (vec_size e))) by lia. cbn [andb obind].
  unfold next_var. cbn. destruct (Z.ltb_spec (var_cnt r + 1) (vec_size e - (4 + 1))); [|done].
  intros [= <-]. cbn. split; [lia|]. split.
  - split; cbn; [unfold zlen in *; by rewrite !length_insert | lia].
  - unfold ztake. replace (Z.to_nat (var_cnt r + 1 + 1)) with (S (S (Z.to_nat (var_cnt r)))) by lia.
    replace (Z.to_nat (var_cnt r + 1)) with (S (Z.to_nat (var_cnt r))) by lia.
    unfold zlen in *.
    rewrite (take_S_r _ _ v) by (apply list_lookup_insert_eq; rewrite length_insert; lia).
    rewrite take_insert_ge by lia.
    rewrite (take_S_r _ _ k) by (apply list_lookup_insert_eq; lia).
    rewrite take_insert_ge by lia. by rewrite <- app_assoc.
Qed.

Lemma apply_vars_table e kvs r r' :
  e.(honour_range) = false -> vec_ok e r -> setenv_free kvs -> apply_vars e kvs r = Ret (0, r') ->
  ztake (var_cnt r') (hvec r') = ztake (var_cnt r) (hvec r) ++ (kvs ≫= fun kv => [kv.1; kv.2]).
Proof.
  intros Hr Hv HF. revert r Hv. induction HF as [|[k v] kvs Hk HF IH]; intros r Hv; cbn [apply_vars].
  - intros [= <-]. cbn. by rewrite app_nil_r.
  - intros H. apply obind_Ret_inv in H as ([ret r1] & E & H).
    destruct (Z.eqb_spec ret 0) as [->|]; [|done]. cbn [negb] in H.
    destruct (apply_var_table e k v _ r r1 Hr Hv Hk E) as (_ & Hv1 & Ht).
    rewrite (IH r1 Hv1 H), Ht, <- app_assoc. done.
Qed.


Definition demo_vars : list kv :=
  [(chars "REQUEST_METHOD", chars "POST"); (chars "CONTENT_LENGTH", chars "5"); (chars "X", [])].
Definition demo_parsed : wsgi_request :=
  match parse_vars_loop (S (length (encode demo_vars))) demo_penv (encode demo_vars) demo_wsgi with
  | Ret (_, r) => r | _ => demo_wsgi end.


(** The loop of [upsgi_simple_parse_vars] does not end on a block that
    leaves one or two bytes: no amount of fuel is enough. *)
Theorem simple_parse_vars_diverges fuel e b r :
  simple_parse_vars_loop fuel e [b] r = NoFuel /\ simple_parse_vars_loop fuel e [b; b] r = NoFuel.
Proof. induction fuel as [|fuel [IH1 IH2]]; [done|]. by split. Qed.

(** The If-Range header never reaches the request: its variable has 13
    bytes while the test for it is in the hook for 10 byte keys.  Whatever the
    variable, a value shorter than 18254 bytes leaves [if_range] alone. *)
Theorem if_range_unreachable e k v tail r ret r' v' :
  zlen v < 18254 ->
  run_hook e (zlen k) (k ++ le_bytes16 (zlen v) ++ v ++ tail) v r = Ret (ret, r', v') ->
  strs r' F_if_range = strs r F_if_range.
Proof.
  intros Hv. unfold run_hook. destruct (_ && _); [|by intros [= <- <- <-]].
  assert (forall f x (r0 : wsgi_request), f <> F_if_range -> strs (set_str f x r0) F_if_range = strs r0 F_if_range) as Hset.
  { intros f x r0 Hf. cbn. rewrite bool_decide_eq_false_2; [done | congruence]. }
  assert (zlen k = 10 -> proto_key "HTTP_IF_RANGE" (k ++ le_bytes16 (zlen v) ++ v ++ tail) = false) as Hir.
  { intros Hk. unfold proto_key. apply bool_decide_eq_false_2. intros E.
    change (zlen (chars "HTTP_IF_RANGE")) with 13 in E. rewrite ztake_app_ge in E by lia.
    rewrite Hk in E. change (13 - 10) with 3 in E.
    apply (f_equal (zdrop 10)) in E. rewrite zdrop_app_length in E by done.
    unfold le_bytes16 in E. cbn [app] in E. rewrite !ztake_cons in E by lia.
    change (zdrop 10 (chars "HTTP_IF_RANGE")) with [78; 71; 69] in E. injection E as E1 E2 _.
    rewrite !octet_id in * by (zlen_facts; lia). change (2 ^ 0) with 1 in *. change (2 ^ 8) with 256 in *.
    rewrite Z.div_1_r in E1. zlen_facts.
    pose proof (Z.div_mod (zlen v) 256). pose proof (Z.mod_pos_bound (zlen v) 256).
    assert (zlen v / 256 < 256) by (apply Z.div_lt_upper_bound; lia).
    assert (0 <= zlen v / 256) by (apply Z.div_pos; lia).
    rewrite (Z.mod_small (zlen v / 256)) in E2 by lia. lia. }
  unfold proto_hooks. destruct (Z.eqb_spec (zlen k) 10) as [Hk|Hk].
  - rewrite Hk. change (10 =? 5) with false. change (10 =? 9) with false.
    cbn iota. unfold upsgi_proto_check_10. rewrite (Hir Hk), andb_false_r. clear.
    intros H. repeat (case_match; try (unfold ok in H; simplify_eq; done)).
    apply obind_Ret_inv in H as (rg & _ & H). unfold ok in H. by simplify_eq.
  - clear Hir Hk. intros H.
    repeat (match type of H with context [if zlen k =? ?n then _ else _] => destruct (zlen k =? n) end);
    unfold upsgi_proto_check_5, upsgi_proto_check_9, upsgi_proto_check_11, upsgi_proto_check_12, upsgi_setenv,
        upsgi_proto_check_13, upsgi_proto_check_14, upsgi_proto_check_15, upsgi_proto_check_18, upsgi_proto_check_20,
        upsgi_proto_check_22, upsgi_proto_check_27, ok in H;
    repeat case_match; simplify_eq; reflexivity.
Qed.

Lemma if_range_unreachable_witness :
  strs demo_wsgi F_if_range = strs demo_wsgi F_if_range.
Proof.
  apply (if_range_unreachable demo_penv (chars "HTTP_IF_RANGE") (chars "x") [] demo_wsgi 0 demo_wsgi (chars "x"));
    by vm_compute.
Defined.

(** * Mount points *)

(** The part of a mount point that is compared. *)
Definition mount_len (m : list Z) : Z :=
  if (0 <? zlen m) && bytes_eqb (zdrop (zlen m - 1) m) [47] then zlen m - 1 else zlen m.

(** The mount point is a prefix of the path that ends at a segment. *)
Definition mounted (path m : list Z) : Prop :=
  mount_len m <= zlen path /\ ztake (mount_len m) path = ztake (mount_len m) m /\
  (mount_len m < zlen path -> ztake 1 (zdrop (mount_len m) path) = [47]).

Lemma mount_len_nonneg m : 0 <= mount_len m <= zlen m.
Proof. unfold mount_len. zlen_facts. destruct (Z.ltb_spec 0 (zlen m)); cbn [andb]; [destruct (bytes_eqb _ _)|]; lia. Qed.

Lemma best_app_step path m found best :
  0 <= best ->
  let res := foldl (fun '(found, best_found) mountpoint =>
    let len := zlen mountpoint in
    let mlen := if (0 <? len) && bytes_eqb (zdrop (len - 1) mountpoint) [47] then len - 1 else len in
    if (zlen path <? mlen) || (mlen <=? best_found) || negb (bytes_eqb (ztake mlen path) (ztake mlen mountpoint))
       || ((mlen <? zlen path) && negb (bytes_eqb (ztake 1 (zdrop mlen path)) [47]))
    then (found, best_found) else (Some mountpoint, mlen)) (found, best) [m] in
  (res = (found, best) /\ (mounted path m -> mount_len m <= best)) \/
  (res = (Some m, mount_len m) /\ mounted path m /\ best < mount_len m).
Proof.
  intros Hb. cbn zeta. cbn [foldl]. fold (mount_len m). unfold mounted.
  destruct (Z.ltb_spec (zlen path) (mount_len m)); cbn [orb]; [left; split; [done|]; lia|].
  destruct (Z.leb_spec (mount_len m) best); cbn [orb]; [left; split; [done|]; lia|].
  destruct (bytes_eqb (ztake (mount_len m) path) (ztake (mount_len m) m)) eqn:E; cbn [negb orb].
  2: { left. split; [done|]. intros (_ & E' & _). rewrite E', bytes_eqb_refl in E. done. }
  apply bytes_eqb_spec in E.
  destruct (Z.ltb_spec (mount_len m) (zlen path)); cbn [andb].
  - destruct (bytes_eqb (ztake 1 (zdrop (mount_len m) path)) [47]) eqn:E47; cbn [negb].
    + right. apply bytes_eqb_spec in E47. split_and!; try done; lia.
    + left. split; [done|]. intros (_ & _ & H'). rewrite H' in E47 by lia. done.
  - right. split_and!; try done; lia.
Qed.

Lemma best_app_fold path apps found best seen :
  0 <= best ->
  (forall m, m ∈ seen -> mounted path m -> mount_len m <= best) ->
  match found with Some m => m ∈ seen /\ mounted path m /\ best = mount_len m /\ 0 < best | None => best = 0 end ->
  let '(found', best') := foldl (fun '(found, best_found) mountpoint =>
    let len := zlen mountpoint in
    let mlen := if (0 <? len) && bytes_eqb (zdrop (len - 1) mountpoint) [47] then len - 1 else len in
    if (zlen path <? mlen) || (mlen <=? best_found) || negb (bytes_eqb (ztake mlen path) (ztake mlen mountpoint))
       || ((mlen <? zlen path) && negb (bytes_eqb (ztake 1 (zdrop mlen path)) [47]))
    then (found, best_found) else (Some mountpoint, mlen)) (found, best) apps in
  (forall m, m ∈ seen ++ apps -> mounted path m -> mount_len m <= best') /\
  match found' with Some m => m ∈ seen ++ apps /\ mounted path m /\ best' = mount_len m /\ 0 < best' | None => best' = 0 end.
Proof.
  revert found best seen. induction apps as [|m apps IH]; intros found best seen Hb Hs Hf.
  - cbn. rewrite app_nil_r. done.
  - replace (seen ++ m :: apps) with ((seen ++ [m]) ++ apps) by (by rewrite <- app_assoc).
    change (foldl ?f ?x (m :: apps)) with (foldl f (foldl f x [m]) apps).
    destruct (best_app_step path m found best Hb) as [[-> Hm]|(-> & Hm & Hlt)]; apply IH; try done.
    + intros m' [Hin|Hin%list_elem_of_singleton]%elem_of_app; [auto | by subst m'].
    + destruct found; [|done]. destruct Hf as (? & ? & ? & ?). split_and!; try done. apply elem_of_app. by left.
    + apply mount_len_nonneg.
    + intros m' [Hin|Hin%list_elem_of_singleton]%elem_of_app Hm'; [|subst m'; lia]. specialize (Hs m' Hin Hm'). lia.
    + split_and!; try done; [|lia]. apply elem_of_app. right. by apply list_elem_of_singleton.
Qed.

(** The application is the one with the longest mount point that is a
    prefix of the path and ends where a segment of it ends; without one, no
    mount point (other than the root) is such a prefix. *)
Theorem best_app_longest path apps :
  match best_app path apps with
  | (Some m, n) => m ∈ apps /\ mounted path m /\ n = mount_len m /\ 0 < n /\
                   forall m', m' ∈ apps -> mounted path m' -> mount_len m' <= n
  | (None, n) => n = 0 /\ forall m', m' ∈ apps -> mounted path m' -> mount_len m' = 0
  end.
Proof.
  pose proof (best_app_fold path apps None 0 []) as H. unfold best_app.
  destruct (foldl _ (None, 0) apps) as [found n]. cbn [app] in H.
  destruct H as [Hmax Hf]; [lia | by intros m Hm%not_elem_of_nil | done |].
  destruct found as [m|].
  - destruct Hf as (? & ? & ? & ?). done.
  - subst n. split; [done|]. intros m' Hin Hm. pose proof (Hmax m' Hin Hm). pose proof (mount_len_nonneg m'). lia.
Qed.

(** A mount point without a trailing slash splits the path: SCRIPT_NAME
    followed by the new PATH_INFO is the old PATH_INFO, and the length stored
    is the length of what is left. *)
Theorem mountpoint_splits path m :
  mounted path m -> mount_len m = zlen m -> zlen path < 2 ^ 16 ->
  let '(new_path, new_len) := strip_mountpoint path m in m ++ new_path = path /\ new_len = zlen new_path.
Proof.
  intros (Hle & Ht & _) Hm Hp. cbn. rewrite Hm in Hle, Ht. rewrite (ztake_all m) in Ht by lia. zlen_facts.
  rewrite <- Ht at 1. rewrite ztake_zdrop. split; [done|].
  rewrite zlen_drop by lia. apply wrap_small. lia.
Qed.

Lemma mountpoint_splits_witness :
  let '(new_path, new_len) := strip_mountpoint (chars "/app/x") (chars "/app") in
  chars "/app" ++ new_path = chars "/app/x" /\ new_len = zlen new_path.
Proof.
  apply (mountpoint_splits (chars "/app/x") (chars "/app")); [|by vm_compute|by vm_compute].
  split_and!; [by vm_compute | by vm_compute | by vm_compute].
Defined.

Definition demo_fs : static_env := mk_senv (fun _ => None) (fun _ => false) (fun _ => None) (fun _ _ _ => false).
Definition no_static : static_conf := mk_sconf [] [] [] [] false.

(** A mount point with a trailing slash is compared without it but removed
    with it: for a request to the mount point itself the new length is 65535
    and the static file checks read behind the path. *)
Theorem mountpoint_trailing_slash_underflow :
  best_app (chars "/foo") [chars "/foo/"] = (Some (chars "/foo/"), 4) /\
  strip_mountpoint (chars "/foo") (chars "/foo/") = ([], 65535) /\
  upsgi_parse_vars demo_penv (mk_venv 0 true true true [chars "/foo/"]) demo_fs
    (encode [(chars "PATH_INFO", chars "/foo")]) demo_wsgi no_static = Fault.
Proof. split; [|split]; by vm_compute. Qed.

End ProtocolProofs.
