(* ===== verification/Chunked.v ===== *)
(** Chunked request bodies (core/chunked.c).

    The reader keeps the bytes received in a buffer with a limit
    ([chunked_input_buf]); it reads from the socket under the control of the
    body scheduler, which it knows only through the interface [ReadSched]. *)
From S2P Require Import Prelude Clib Buffer BodySched.

(** * The scheduler, as a body reader sees it *)

Class ReadSched (S : Type) : Type := {
  rs_budget : Z -> S -> Z * S;
  rs_bytes : Z -> S -> S;
  rs_empty : S -> S;
  rs_eagain : S -> S;
}.

(** What it promises: a read of a non-empty room is granted at least one byte
    and no more than the room. *)
Class ReadSchedOk (S : Type) `{ReadSched S} : Type := {
  rs_inv : S -> Prop;
  rs_budget_ok n s : rs_inv s -> 0 < n < 2 ^ 64 -> 0 < (rs_budget n s).1 <= n;
  rs_budget_inv n s : rs_inv s -> 0 <= n < 2 ^ 64 -> rs_inv (rs_budget n s).2;
  rs_bytes_inv n s : rs_inv s -> 0 <= n < 2 ^ 64 -> rs_inv (rs_bytes n s);
  rs_empty_inv s : rs_inv s -> rs_inv (rs_empty s);
  rs_eagain_inv s : rs_inv s -> rs_inv (rs_eagain s);
}.

(** The scheduler of core/body_scheduler.c with its clock: the readings still
    to come. *)
Record timed_sched : Type := mk_timed {
  t_sched : BodySched.sched;
  t_enabled : bool;
  t_clock : list Z;
}.

Definition tick (t : timed_sched) : Z * timed_sched :=
  match t.(t_clock) with
  | [] => (0, t)
  | now :: clock => (now, mk_timed t.(t_sched) t.(t_enabled) clock)
  end.

#[export] Instance body_sched : ReadSched timed_sched := {
  rs_budget n t :=
    let '(now, t) := tick t in
    let '(g, s) := BodySched.read_budget t.(t_enabled) now n t.(t_sched) in
    (g, mk_timed s t.(t_enabled) t.(t_clock));
  rs_bytes n t :=
    let '(now0, t) := tick t in
    let '(now1, t) := tick t in
    mk_timed (BodySched.note_bytes t.(t_enabled) now0 now1 n t.(t_sched)) t.(t_enabled) t.(t_clock);
  rs_empty t :=
    let '(now, t) := tick t in
    mk_timed (BodySched.note_empty_read t.(t_enabled) now t.(t_sched)) t.(t_enabled) t.(t_clock);
  rs_eagain t :=
    let '(now, t) := tick t in
    mk_timed (BodySched.note_eagain t.(t_enabled) now t.(t_sched)) t.(t_enabled) t.(t_clock);
}.

Lemma tick_sched t : t_sched (tick t).2 = t_sched t /\ t_enabled (tick t).2 = t_enabled t.
Proof. unfold tick. by destruct (t_clock t). Qed.

#[export] Instance body_sched_ok : ReadSchedOk timed_sched.
Proof.
  refine {| rs_inv t := BodySched.inv (t_sched t) |}; cbn.
  - intros n t Hi Hn. pose proof (tick_sched t) as [E _]. destruct (tick t) as [now t']. cbn in E.
    pose proof (BodySched.read_budget_range (t_enabled t') now n (t_sched t')) as H. rewrite E in H.
    rewrite E. destruct (BodySched.read_budget _ _ _ _). cbn. apply H; done.
  - intros n t Hi Hn. pose proof (tick_sched t) as [E _]. destruct (tick t) as [now t']. cbn in E.
    pose proof (BodySched.read_budget_inv (t_enabled t') now n (t_sched t')) as H. rewrite E in *.
    destruct (BodySched.read_budget _ _ _ _). cbn in *. apply H; [done | lia].
  - intros n t Hi Hn. pose proof (tick_sched t) as [E _]. destruct (tick t) as [now t']. cbn in E.
    pose proof (tick_sched t') as [E' _]. destruct (tick t') as [now' t'']. cbn in *.
    rewrite E', E. apply (BodySched.note_bytes_inv); [done | lia].
  - intros t Hi. pose proof (tick_sched t) as [E _]. destruct (tick t) as [now t']. cbn in *. rewrite E.
    eapply BodySched.step_inv; [exact Hi | apply BodySched.step_empty].
  - intros t Hi. pose proof (tick_sched t) as [E _]. destruct (tick t) as [now t']. cbn in *. rewrite E.
    eapply BodySched.step_inv; [exact Hi | apply BodySched.step_eagain].
Defined.

Module Chunked.
Section chunked.
Context {S : Type} `{ReadSched S}.

(** * State *)

(** What the next calls of [proto_read_body] find on the connection; [EvAgain]
    carries the result of the [wait_read_hook] that follows. *)
Inductive event : Type :=
| EvData (bs : list Z)
| EvEof
| EvAgain (wait : Z)
| EvError.

(** The fields of [struct wsgi_request]; [opened] is whether
    [chunked_input_buf] has been created. *)
Record chunked : Type := mk_chunked {
  opened : bool;
  input : upsgi_buffer;
  complete : bool;
  decap : Z;
  need : Z;
  pstatus : Z;
  chunk_len : Z;
  sd : S;
  sock : list event;
}.
#[export] Instance expand_chunked : Expand chunked := fun c =>
  mk_chunked (opened c) (input c) (complete c) (decap c) (need c) (pstatus c) (chunk_len c) (sd c) (sock c).

(** * Reading *)

(** [upsgi_chunked_input_recv].  The read after a wait is the same as the
    first one; a wait that is not positive ends it. *)
Fixpoint upsgi_chunked_input_recv (nb : bool) (sock : list event) (ub : upsgi_buffer) (sd : S)
    : outcome (Z * upsgi_buffer * S * list event) :=
  let '(read_budget, sd) := rs_budget (u64 (ub.(len) - ub.(pos))) sd in
  match sock with
  | [] => Ret (-1, ub, rs_empty sd, [])
  | EvData bs :: sock' =>
      let got := ztake read_budget bs in
      if 0 <? zlen got then
        let* b := mwrite ub.(buf) ub.(pos) got in
        let left := zdrop read_budget bs in
        Ret (zlen got, ub<|buf := b|>, rs_bytes (zlen got) sd,
             if zlen left =? 0 then sock' else EvData left :: sock')
      else Ret (-1, ub, rs_empty sd, sock)
  | EvEof :: sock' => Ret (-1, ub, rs_empty sd, sock)
  | EvAgain wait :: sock' =>
      let sd := rs_eagain sd in
      if nb then Ret (-1, ub, sd, sock')
      else if 0 <? wait then upsgi_chunked_input_recv nb sock' ub sd
      else Ret (-1, ub, sd, sock')
  | EvError :: sock' => Ret (-1, ub, sd, sock')
  end.

Definition upsgi_chunked_require_crlf (buf : list Z) (chunk_len : Z) : outcome Z :=
  let* a := mread buf chunk_len in
  if negb (a =? CR) then Ret (-1)
  else let* b := mread buf (chunk_len + 1) in
       if negb (b =? LF) then Ret (-1) else Ret 0.

Definition upsgi_chunked_require_final_crlf (c : chunked) : outcome (Z * chunked) :=
  if c.(input).(pos) <? 2 then
    Ret (1, c<|need := 2 - c.(input).(pos)|><|pstatus := 2|>)
  else
    let* a := mread c.(input).(buf) 0 in
    let* b := if a =? CR then mread c.(input).(buf) 1 else Ret 0 in
    if negb (a =? CR) || negb (b =? LF) then Ret (-1, c)
    else
      let* (r, ub) := upsgi_buffer_decapitate 2 c.(input) in
      let c := c<|input := ub|> in
      if negb (r =? 0) then Ret (-1, c)
      else Ret (0, c<|need := 0|><|pstatus := 0|><|complete := true|>).

(** The scan of the size line: [inl] is a result (-2: not complete, -1:
    malformed), [inr] the length of the line with its terminator. *)
Fixpoint readline_scan (l : list Z) (i : Z) (found : bool) : Z + Z :=
  match l with
  | [] => inl (-2)
  | c :: l =>
      if found then (if c =? LF then inr (i + 1) else inl (-1))
      else if is_xdigit c then readline_scan l (i + 1) false
      else if c =? CR then readline_scan l (i + 1) true
      else inl (-1)
  end.

(** The [size_t] number is returned as a [ssize_t]. *)
Definition upsgi_chunked_readline (ub : upsgi_buffer) : outcome (Z * upsgi_buffer) :=
  match readline_scan (contents ub) 0 false with
  | inl r => Ret (r, ub)
  | inr n =>
      let num := strtoul16 ub.(buf) in
      let* (r, ub) := upsgi_buffer_decapitate n ub in
      if negb (r =? 0) then Ret (-1, ub) else Ret (i64 num, ub)
  end.

(** * [upsgi_chunked_read] *)

(** An iteration of the loop ends with [continue]/[break] or with a result:
    [None] is [NULL], otherwise the bytes [buf, *len]. *)
Inductive cstep : Type :=
| Continue (c : chunked)
| Result (r : option (list Z)) (c : chunked).

(** The first part of an iteration: read when more is needed. *)
Definition chunked_fill (env : heap_env) (nb : bool) (c : chunked) : outcome cstep :=
  if (0 <? c.(need)) || (c.(input).(pos) =? 0) then
    let* (r, ub) := upsgi_buffer_ensure env (UMAX env.(page_size) c.(need)) c.(input) in
    let c := c<|input := ub|> in
    if negb (r =? 0) then Ret (Result None c)
    else
      let* (rus, events) := upsgi_chunked_input_recv nb c.(sock) c.(input) c.(sd) in
      let '(rlen, ub, sched) := rus in
      let c := c<|input := ub|><|sd := sched|><|sock := events|> in
      if rlen <=? 0 then Ret (Result None c)
      else
        let c := c<|input := c.(input)<|pos := u64 (c.(input).(pos) + rlen)|>|> in
        Ret (Continue (if 0 <? c.(need) then
                         (if c.(need) <? rlen then c<|need := 0|> else c<|need := c.(need) - rlen|>)
                       else c))
  else Ret (Continue c).

(** [*len = chunk_len; decapitate = chunk_len + 2; return buf;] *)
Definition chunk_result (c : chunked) : outcome cstep :=
  let* r := upsgi_chunked_require_crlf c.(input).(buf) c.(chunk_len) in
  if negb (r =? 0) then Ret (Result None c)
  else Ret (Result (Some (ztake c.(chunk_len) c.(input).(buf)))
              (c<|decap := u64 (c.(chunk_len) + 2)|><|pstatus := 0|>)).

Definition final_result (c : chunked) : outcome cstep :=
  let* (r, c) := upsgi_chunked_require_final_crlf c in
  Ret (if 0 <? r then Continue c else if r <? 0 then Result None c else Result (Some []) c).

Definition chunked_parse (c : chunked) : outcome cstep :=
  if 0 <? c.(need) then Ret (Continue c)
  else if 0 <? c.(input).(pos) then
    if c.(pstatus) =? 0 then
      let* (n, ub) := upsgi_chunked_readline c.(input) in
      let c := c<|input := ub|><|chunk_len := n|> in
      if n =? -2 then Ret (Continue (c<|need := c.(need) + 1|>))
      else if n <? 0 then Ret (Result None c)
      else if n =? 0 then final_result c
      else if c.(input).(pos) <? u64 (n + 2) then
        Ret (Continue (c<|need := u64 (n + 2 - c.(input).(pos))|><|pstatus := 1|>))
      else chunk_result c
    else if c.(pstatus) =? 1 then
      if c.(input).(pos) <? u64 (c.(chunk_len) + 2) then
        Ret (Continue (c<|need := u64 (c.(chunk_len) + 2 - c.(input).(pos))|>))
      else chunk_result c
    else if c.(pstatus) =? 2 then final_result c
    else Ret (Continue c)
  else Ret (Continue c).

Fixpoint chunked_loop (fuel : nat) (env : heap_env) (nb : bool) (c : chunked) : outcome (option (list Z) * chunked) :=
  match fuel with
  | O => NoFuel
  | Datatypes.S fuel =>
      let* st := chunked_fill env nb c in
      match st with
      | Result r c => Ret (r, c)
      | Continue c =>
          let* st := chunked_parse c in
          match st with
          | Result r c => Ret (r, c)
          | Continue c => chunked_loop fuel env nb c
          end
      end
  end.

(** The bytes that can still be read. *)
Definition sock_data (sock : list event) : list Z :=
  sock ≫= fun ev => match ev with EvData bs => bs | _ => [] end.

(** The buffer is created by the first call. *)
Definition chunked_open (env : heap_env) (limit : Z) (c : chunked) : outcome chunked :=
  if c.(opened) then Ret c
  else
    let* ub := upsgi_buffer_new env env.(page_size) in
    Ret (c<|opened := true|><|input := ub<|Buffer.limit := limit|>|>).

(** The chunk returned by the previous call is removed. *)
Definition chunked_drop_given (c : chunked) : outcome (Z * chunked) :=
  if 0 <? c.(decap) then
    let* (r, ub) := upsgi_buffer_decapitate c.(decap) c.(input) in
    if negb (r =? 0) then Ret (-1, c<|input := ub|>) else Ret (0, c<|input := ub|><|decap := 0|>)
  else Ret (0, c).

(** Every iteration but the first one reads at least one byte. *)
Definition upsgi_chunked_read (env : heap_env) (limit : Z) (nb : bool) (c : chunked)
    : outcome (option (list Z) * chunked) :=
  let* c := chunked_open env limit c in
  if c.(complete) then Ret (Some [], c)
  else
    let* (r, c) := chunked_drop_given c in
    if negb (r =? 0) then Ret (None, c)
    else chunked_loop (2 + length (sock_data c.(sock))) env nb c.

(** * [upsgi_chunked_read_smart] *)

(** The request with [body_chunked_buf]. *)
Record body_reader : Type := mk_body {
  stream : chunked;
  body_buf : option upsgi_buffer;
}.

(** The first case: everything up to the last chunk. *)
Fixpoint read_all_loop (fuel : nat) (env : heap_env) (limit : Z) (c : chunked) (body : upsgi_buffer)
    : outcome (option upsgi_buffer * chunked * upsgi_buffer) :=
  match fuel with
  | O => NoFuel
  | Datatypes.S fuel =>
      let* (r, c) := upsgi_chunked_read env limit false c in
      match r with
      | None => Ret (None, c, body)
      | Some chunk =>
          if zlen chunk =? 0 then
            let* ret := upsgi_buffer_new env body.(pos) in
            let* (r, ret) := upsgi_buffer_append env (contents body) ret in
            if negb (r =? 0) then Ret (None, c, body)
            else
              let* (_, body) := upsgi_buffer_decapitate body.(pos) body in
              Ret (Some ret, c, body)
          else
            let* (r, body) := upsgi_buffer_append env chunk body in
            if negb (r =? 0) then Ret (None, c, body) else read_all_loop fuel env limit c body
      end
  end.

(** The [while (remains)] loop of the third case. *)
Fixpoint read_part_loop (fuel : nat) (env : heap_env) (limit remains : Z) (c : chunked)
    (body ret : upsgi_buffer) : outcome (option upsgi_buffer * chunked * upsgi_buffer) :=
  match fuel with
  | O => NoFuel
  | Datatypes.S fuel =>
      let fin body ret :=
        let* (r, ret) := upsgi_buffer_append env (contents body) ret in
        if negb (r =? 0) then Ret (None, c, body)
        else let* (_, body) := upsgi_buffer_decapitate body.(pos) body in Ret (Some ret, c, body) in
      if remains =? 0 then fin body ret
      else
        let* (r, c) := upsgi_chunked_read env limit false c in
        match r with
        | None => Ret (None, c, body)
        | Some chunk =>
            let chunked_len := zlen chunk in
            if chunked_len =? 0 then
              let* (r, ret) := upsgi_buffer_append env (contents body) ret in
              if negb (r =? 0) then Ret (None, c, body)
              else let* (_, body) := upsgi_buffer_decapitate body.(pos) body in Ret (Some ret, c, body)
            else
              let* (r, body) := upsgi_buffer_append env chunk body in
              if negb (r =? 0) then Ret (None, c, body)
              else if remains <? chunked_len then
                let amount := body.(pos) - (chunked_len - remains) in
                let* part := mslice body.(buf) 0 amount in
                let* (r, ret) := upsgi_buffer_append env part ret in
                if negb (r =? 0) then Ret (None, c, body)
                else let* (_, body) := upsgi_buffer_decapitate amount body in Ret (Some ret, c, body)
              else read_part_loop fuel env limit (remains - chunked_len) c body ret
        end
  end.

Definition upsgi_chunked_read_smart (fuel : nat) (env : heap_env) (limit n : Z) (b : body_reader)
    : outcome (option upsgi_buffer * body_reader) :=
  let* body := match b.(body_buf) with Some ub => Ret ub | None => upsgi_buffer_new env env.(page_size) end in
  if n =? 0 then
    let* (rc, body) := read_all_loop fuel env limit b.(stream) body in
    Ret (rc.1, mk_body rc.2 (Some body))
  else if n <=? body.(pos) then
    let* ret := upsgi_buffer_new env n in
    let* part := mslice body.(buf) 0 n in
    let* (r, ret) := upsgi_buffer_append env part ret in
    if negb (r =? 0) then Ret (None, mk_body b.(stream) (Some body))
    else let* (_, body) := upsgi_buffer_decapitate n body in Ret (Some ret, mk_body b.(stream) (Some body))
  else
    let* ret := upsgi_buffer_new env n in
    let* (ok, rb) :=
      if 0 <? body.(pos) then
        let* (r, ret) := upsgi_buffer_append env (contents body) ret in
        if negb (r =? 0) then Ret (false, (ret, body, n))
        else let remains := n - body.(pos) in
             let* (_, body) := upsgi_buffer_decapitate body.(pos) body in Ret (true, (ret, body, remains))
      else Ret (true, (ret, body, n)) in
    let '(ret, body, remains) := rb in
    if negb ok then Ret (None, mk_body b.(stream) (Some body))
    else
      let* (rc, body) := read_part_loop fuel env limit remains b.(stream) body ret in
      Ret (rc.1, mk_body rc.2 (Some body)).

End chunked.
Arguments chunked S : clear implicits.
#[export] Existing Instance expand_chunked.
End Chunked.
