(* ===== verification/ChunkedProofs.v ===== *)
(** Correctness of the chunked body reader of [Chunked]: a reference decoder
    on the byte stream, and the proof that reading in pieces, under any
    scheduler that keeps the promises of [ReadSchedOk], implements it. *)
From S2P Require Import Prelude Clib Buffer BodySched Chunked.

Module ChunkedProofs.
Import Chunked.
Section proofs.
Context {S : Type} `{HR : ReadSched S} `{HO : !ReadSchedOk S}.

(** * The reference decoder *)

(** What the stream holds next. *)
Inductive verdict : Type :=
| VChunk (chunk rest : list Z)
| VEnd (rest : list Z)
| VSkip (rest : list Z)
| VBad
| VMore.

Definition fits (cap : option Z) (n : Z) : bool := match cap with None => true | Some m => n <=? m end.

Definition decode_body (cap : option Z) (n : Z) (l : list Z) : verdict :=
  if negb (fits cap (n + 2)) then VBad
  else if zlen l <? n + 2 then VMore
  else if bytes_eqb (ztake 2 (zdrop n l)) [CR; LF] then VChunk (ztake n l) (zdrop (n + 2) l)
  else VBad.

Definition decode_final (cap : option Z) (l : list Z) : verdict :=
  if negb (fits cap 2) then VBad
  else if zlen l <? 2 then VMore
  else if bytes_eqb (ztake 2 l) [CR; LF] then VEnd (zdrop 2 l) else VBad.

(** The size is the [ssize_t] the line denotes; the value -2 is the one the
    reader confuses with an incomplete line. *)
Definition decode_line (cap : option Z) (l : list Z) : verdict :=
  match readline_scan l 0 false with
  | inl r => if r =? -2 then VMore else VBad
  | inr k =>
      let n := i64 (strtoul16 l) in
      let rest := zdrop k l in
      if negb (fits cap k) then VBad
      else if n =? -2 then VSkip rest
      else if n <? 0 then VBad
      else if n =? 0 then decode_final cap rest
      else decode_body cap n rest
  end.

(** Decoding in the state of the reader; [cap] bounds the size of a line and
    of a chunk with its terminator. *)
Definition decode (cap : option Z) (c : chunked S) (l : list Z) : verdict :=
  if c.(pstatus) =? 0 then decode_line cap l
  else if c.(pstatus) =? 1 then decode_body cap c.(chunk_len) l
  else decode_final cap l.

#[local] Arguments decode_body : simpl never.
#[local] Arguments decode_final : simpl never.
#[local] Arguments decode_line : simpl never.

(** A result the stream justifies, with what follows it: size lines of value
    -2 are passed over. *)
Inductive yields : verdict -> list Z -> list Z -> Prop :=
| yields_chunk x rest : x <> [] -> yields (VChunk x rest) x rest
| yields_end rest : yields (VEnd rest) [] rest
| yields_skip l x rest : yields (decode_line None l) x rest -> yields (VSkip l) x rest.

(** * Invariant *)

(** The bytes that were not given to the application yet. *)
Definition pending (c : chunked S) : list Z :=
  (if c.(opened) then zdrop c.(decap) (contents c.(input)) else []) ++ sock_data c.(sock).

Record cinv (env : heap_env) (limit : Z) (c : chunked S) : Prop := {
  ci_open : c.(opened) = true;
  ci_buf : buffer_ok c.(input);
  ci_limit : c.(input).(Buffer.limit) = limit;
  ci_within : within_limit c.(input);
  ci_sd : rs_inv c.(sd);
  ci_decap : 0 <= c.(decap) <= c.(input).(pos);
  ci_given : 0 < c.(decap) -> c.(pstatus) = 0 /\ c.(need) = 0;
  ci_need : 0 <= c.(need);
  ci_status :
    (c.(pstatus) = 0 /\ c.(need) <= 1) \/
    (c.(pstatus) = 1 /\ 0 < c.(chunk_len) < 2 ^ 63 /\
     (0 < c.(need) -> c.(need) = c.(chunk_len) + 2 - c.(input).(pos))) \/
    (c.(pstatus) = 2 /\ (0 < c.(need) -> c.(need) = 2 - c.(input).(pos)));
}.

(** A request whose body was not read yet. *)
Definition fresh (c : chunked S) : Prop :=
  c.(opened) = false /\ c.(complete) = false /\ c.(decap) = 0 /\ c.(need) = 0 /\ c.(pstatus) = 0 /\
  rs_inv c.(sd).

Definition ready (env : heap_env) (limit : Z) (c : chunked S) : Prop := fresh c \/ cinv env limit c.

(** The allocator grants the first page, and the limit is not below it. *)
Class LimitOk (env : heap_env) (limit : Z) : Prop := {
  lo_env : EnvOk env;
  lo_page : heap_ok env (page_size env) = true;
  lo_limit : limit = 0 \/ page_size env <= limit < 2 ^ 63;
}.

(** ** Room *)

Lemma ensure_room env n ub :
  buffer_ok ub -> within_limit ub -> 0 < n -> ub.(pos) + n < 2 ^ 64 ->
  exists r ub', upsgi_buffer_ensure env n ub = Ret (r, ub') /\
    ((r = -1 /\ ub' = ub) \/
     (r = 0 /\ buffer_ok ub' /\ within_limit ub' /\ contents ub' = contents ub /\
      ub'.(pos) = ub.(pos) /\ ub'.(Buffer.limit) = ub.(Buffer.limit) /\ ub'.(pos) < ub'.(len))).
Proof.
  intros Hok Hw Hn Hsz. pose proof Hok as [Hb Hp Hl Hlim]. unfold within_limit in *.
  unfold upsgi_buffer_ensure. rewrite (wrap_small 64 (len ub - pos ub)) by lia.
  zcase; [|exists 0, ub; split; [done|]; right; split_and!; auto; lia].
  rewrite !wrap_small by (rewrite ?wrap_small; lia).
  set (g := len ub + (n - (len ub - pos ub))).
  destruct (Z.ltb_spec 0 (Buffer.limit ub)); cbn [andb].
  - destruct (Z.ltb_spec (Buffer.limit ub) g); cbn [andb].
    + destruct (Z.eqb_spec (Buffer.limit ub) (len ub)); [exists (-1), ub; auto|].
      destruct (realloc env (buf ub) _) as [nb|] eqn:E; [|exists (-1), ub; auto].
      destruct (grown_ok env ub _ nb Hok E) as [Hok' Hc]; [lia|].
      eexists 0, _; split; [done|]. right. split_and!; auto; cbn; lia.
    + destruct (realloc env (buf ub) _) as [nb|] eqn:E; [|exists (-1), ub; auto].
      destruct (grown_ok env ub _ nb Hok E) as [Hok' Hc]; [lia|].
      eexists 0, _; split; [done|]. right. split_and!; auto; cbn; lia.
  - destruct (realloc env (buf ub) _) as [nb|] eqn:E; [|exists (-1), ub; auto].
    destruct (grown_ok env ub _ nb Hok E) as [Hok' Hc]; [lia|].
    eexists 0, _; split; [done|]. right. split_and!; auto; cbn; lia.
Qed.

(** An allocator that grants everything, below the limit. *)
Lemma ensure_granted env n ub :
  buffer_ok ub -> 0 < n -> ub.(pos) + n < 2 ^ 63 ->
  (forall m, m < 2 ^ 63 -> heap_ok env m = true) ->
  ub.(Buffer.limit) = 0 \/ ub.(pos) + n <= ub.(Buffer.limit) ->
  upsgi_buffer_ensure env n ub <> Ret (-1, ub).
Proof.
  intros Hok Hn Hsz Hheap Hl'. pose proof Hok as [Hb Hp Hl Hlim].
  unfold upsgi_buffer_ensure. rewrite (wrap_small 64 (len ub - pos ub)) by lia.
  zcase; [|done]. rewrite !wrap_small by (rewrite ?wrap_small; lia).
  unfold realloc, alloc_ok.
  repeat (zcase; try lia); rewrite ?Hheap by lia; cbn; congruence.
Qed.

(** ** The socket *)

(** The connection delivers data, possibly late, and nothing fails. *)
Definition delivers (ev : event) : Prop :=
  match ev with EvData bs => bs <> [] | EvAgain w => 0 < w | _ => False end.

Lemma recv_spec nb events ub s :
  buffer_ok ub -> ub.(pos) < ub.(len) -> rs_inv s ->
  exists r ub' s' events',
    upsgi_chunked_input_recv nb events ub s = Ret (r, ub', s', events') /\ rs_inv s' /\
    (Forall delivers events -> Forall delivers events') /\
    ((r = -1 /\ ub' = ub /\ sock_data events' = sock_data events /\
      (nb = false -> Forall delivers events -> sock_data events = [])) \/
     (exists got, r = zlen got /\ got <> [] /\ sock_data events = got ++ sock_data events' /\
        ub'.(pos) = ub.(pos) /\ ub'.(len) = ub.(len) /\ ub'.(Buffer.limit) = ub.(Buffer.limit) /\
        ub.(pos) + zlen got <= ub.(len) /\ zlen ub'.(buf) = ub.(len) /\
        ztake (ub.(pos) + zlen got) ub'.(buf) = contents ub ++ got)).
Proof.
  intros Hok Hroom. pose proof Hok as [Hb Hp Hl Hlim]. revert s.
  induction events as [|ev events IH]; intros s Hs; cbn [upsgi_chunked_input_recv];
    rewrite (wrap_small 64 (len ub - pos ub)) by lia;
    pose proof (rs_budget_ok (len ub - pos ub) s Hs ltac:(lia)) as Hg;
    pose proof (rs_budget_inv (len ub - pos ub) s Hs ltac:(lia)) as Hs';
    destruct (rs_budget (len ub - pos ub) s) as [g s1]; cbn in Hg, Hs'.
  - eexists _, _, _, _. split; [done|]. split; [by apply rs_empty_inv|]. split; [done|]. auto.
  - destruct ev as [bs| |w|].
    + destruct (Z.ltb_spec 0 (zlen (ztake g bs))) as [Hpos|Hpos].
      * assert (zlen (ztake g bs) <= g) by (unfold zlen, ztake; rewrite length_take; lia).
        assert (ztake g bs <> []) by (intros E; rewrite E in Hpos; done).
        rewrite mwrite_ok by lia. cbn [obind].
        eexists _, _, _, _. split; [done|]. split; [apply rs_bytes_inv; auto; lia|].
        assert (sock_data (EvData bs :: events) =
                ztake g bs ++ sock_data (if zlen (zdrop g bs) =? 0 then events
                                          else EvData (zdrop g bs) :: events)) as Hd.
        { change (sock_data (EvData bs :: events)) with (bs ++ sock_data events).
          rewrite <- (ztake_zdrop g bs) at 1. rewrite <- app_assoc. f_equal. zcase; [|done].
          by rewrite (zlen_zero_inv (zdrop g bs)). }
        split.
        { intros Hf. inversion Hf; subst. zcase; [done|]. constructor; [|done]. intros E. apply n. by rewrite E. }
        right. exists (ztake g bs). split_and!; auto; cbn; try lia.
        -- rewrite !zlen_app, zlen_take, zlen_drop by lia. lia.
        -- apply contents_write. lia.
      * eexists _, _, _, _. split; [done|]. split; [by apply rs_empty_inv|]. split; [done|].
        left. split_and!; auto. intros _ Hf. inversion Hf as [|? ? Hb' ?]; subst.
        destruct bs as [|x bs]; [done|]. rewrite ztake_cons in Hpos by lia. zlia.
    + eexists _, _, _, _. split; [done|]. split; [by apply rs_empty_inv|]. split; [done|].
      left. split_and!; auto. intros _ Hf. by inversion Hf.
    + assert (rs_inv (rs_eagain s1)) as Hs2 by (by apply rs_eagain_inv).
      change (sock_data (EvAgain w :: events)) with (sock_data events).
      destruct nb; [eexists _, _, _, _; split; [done|]; split; [done|]; split;
                    [by inversion 1 | left; split_and!; auto; done]|].
      zcase.
      * destruct (IH _ Hs2) as (r & ub' & s' & ev' & E & Hi & Hf & Hc).
        exists r, ub', s', ev'. split; [done|]. split; [done|]. split; [by inversion 1; auto|].
        destruct Hc as [(-> & -> & E1 & E2)|Hc]; [left; split_and!; auto; intros _ Hff; inversion Hff; auto | by right].
      * eexists _, _, _, _; split; [done|]; split; [done|]; split; [by inversion 1|].
        left; split_and!; auto. intros _ Hf; inversion Hf; subst; cbn in *; lia.
    + eexists _, _, _, _. split; [done|]. split; [done|]. split; [by inversion 1|].
      left. split_and!; auto. intros _ Hf. by inversion Hf.
Qed.

(** ** Lines *)

Lemma xdigit_value c : is_xdigit c = true -> exists d, digit_value c = Some d /\ d < 16.
Proof.
  unfold is_xdigit, digit_value. intros Hc.
  repeat (zcase_in Hc; try done); repeat (zcase; try lia); eexists; split; try done; lia.
Qed.

Lemma scan_result l i found r : readline_scan l i found = inl r -> r = -1 \/ r = -2.
Proof. revert i found. induction l as [|c l IH]; intros i found; cbn; repeat case_match; naive_solver. Qed.

Lemma scan_inr l x i found k :
  readline_scan l i found = inr k ->
  i < k <= i + zlen l /\ readline_scan (l ++ x) i found = inr k /\
  (found = false -> forall acc, strtoul_digits 16 acc (l ++ x) = strtoul_digits 16 acc l).
Proof.
  revert i found. induction l as [|c l IH]; intros i found; cbn; [done|].
  destruct found.
  - zcase; [|done]. intros [= <-]. split_and!; [zlia | zlia | done | done].
  - destruct (is_xdigit c) eqn:Ex.
    + intros E. destruct (IH _ _ E) as (H1 & H2 & H3). split_and!; [zlia | zlia | done |].
      intros _ acc. case_match; [|done]. case_match; [|done]. by apply H3.
    + destruct (Z.eqb_spec c CR) as [->|]; [|done].
      intros E. destruct (IH _ _ E) as (H1 & H2 & H3). split_and!; [zlia | zlia | done | done].
Qed.

Lemma scan_bad l x i found : readline_scan l i found = inl (-1) -> readline_scan (l ++ x) i found = inl (-1).
Proof. revert i found. induction l as [|c l IH]; intros i found; cbn; [done|]. repeat case_match; auto; done. Qed.

Lemma scan_more l x i found k :
  readline_scan l i found = inl (-2) -> readline_scan (l ++ x) i found = inr k -> i + zlen l < k.
Proof.
  revert i found. induction l as [|c l IH]; intros i found; cbn [app readline_scan].
  - intros _ E. apply (scan_inr _ []) in E. zlia.
  - repeat case_match; try done; intros E1 E2; specialize (IH _ _ E1 E2); zlia.
Qed.

Lemma strtoul16_scan l x k : readline_scan l 0 false = inr k -> strtoul16 (l ++ x) = strtoul16 l.
Proof. intros E. apply (scan_inr _ x) in E as (_ & _ & H). by apply H. Qed.

Lemma strtoul_digits_range l acc : 0 <= acc <= SIZE_MAX -> 0 <= strtoul_digits 16 acc l <= SIZE_MAX.
Proof.
  revert acc. induction l as [|c l IH]; intros acc Ha; cbn [strtoul_digits]; [done|].
  case_match eqn:Ed; [|done]. case_match; [|done]. apply IH. split; [|lia].
  assert (0 <= z) by (revert Ed; unfold digit_value; repeat (zcase; try done); intros [= <-]; lia). lia.
Qed.

Lemma i64_range x : - 2 ^ 63 <= i64 x < 2 ^ 63.
Proof. unfold signed. pose proof (wrap_range 64 x). zcase; lia. Qed.

(** ** Chunk terminators *)

Lemma crlf_at l n :
  0 <= n -> n + 2 <= zlen l ->
  exists a b, mread l n = Ret a /\ mread l (n + 1) = Ret b /\ ztake 2 (zdrop n l) = [a; b].
Proof.
  intros H1 H2. destruct (mread_in l n) as (a & Ha & La); [lia|].
  destruct (mread_in l (n + 1)) as (b & Hb & Lb); [lia|]. exists a, b. split_and!; auto.
  unfold ztake, zdrop. replace (Z.to_nat (n + 1)) with (Datatypes.S (Z.to_nat n)) in Lb by lia.
  rewrite (drop_S _ _ _ La), (drop_S _ _ _ Lb). done.
Qed.

Lemma buf_split ub : buffer_ok ub -> ub.(buf) = contents ub ++ zdrop ub.(pos) ub.(buf).
Proof. intros _. symmetry. apply ztake_zdrop. Qed.

Lemma ztake_zdrop_app {A} k n (l x : list A) :
  0 <= n -> 0 <= k -> n + k <= zlen l -> ztake k (zdrop n (l ++ x)) = ztake k (zdrop n l).
Proof. intros. rewrite zdrop_app_le, ztake_app_le; [done| rewrite zlen_drop; lia | lia]. Qed.

(** A result of an iteration, against the verdict on the stream. *)
Lemma chunk_result_spec env limit c x :
  cinv env limit c -> c.(decap) = 0 -> c.(need) = 0 -> 0 < c.(chunk_len) ->
  c.(chunk_len) + 2 <= c.(input).(pos) -> c.(complete) = false ->
  exists r c', chunk_result c = Ret (Result r c') /\ cinv env limit c' /\ c'.(sock) = c.(sock) /\
    c'.(complete) = false /\
    ((r = None /\ forall cap, decode_body cap c.(chunk_len) (contents c.(input) ++ x) = VBad) \/
     (exists chunk, r = Some chunk /\ chunk <> [] /\ c'.(pstatus) = 0 /\ c'.(need) = 0 /\
        decode_body None c.(chunk_len) (contents c.(input) ++ x) =
        VChunk chunk (zdrop c'.(decap) (contents c'.(input)) ++ x))).
Proof.
  intros Hi Hd Hn Hk Hp Hco. pose proof (ci_buf _ _ _ Hi) as Hok. pose proof Hok as [Hb Hpp Hl Hlim].
  pose proof (zlen_contents _ Hok) as Hz. unfold chunk_result, upsgi_chunked_require_crlf.
  destruct (crlf_at (buf (input c)) (chunk_len c)) as (a & b & -> & -> & E2); [lia | lia |].
  cbn [obind]. rewrite (buf_split _ Hok), ztake_zdrop_app in E2 by lia.
  unfold decode_body, bytes_eqb. rewrite ztake_zdrop_app, E2, zlen_app, Hz by lia.
  destruct (Z.ltb_spec (pos (input c) + zlen x) (chunk_len c + 2)); [zlia|].
  assert (forall cap, (if negb (fits cap (chunk_len c + 2)) then VBad else VBad) = VBad) as Hbad
    by (intros; by destruct (negb _)).
  destruct (Z.eqb_spec a CR) as [->|Ha]; cbn [negb].
  2: { exists None, c. split_and!; auto. left. split; [done|]. intros cap.
       rewrite bool_decide_eq_false_2 by congruence. apply Hbad. }
  destruct (Z.eqb_spec b LF) as [->|Ha]; cbn [negb obind].
  2: { exists None, c. split_and!; auto. left. split; [done|]. intros cap.
       rewrite bool_decide_eq_false_2 by congruence. apply Hbad. }
  rewrite wrap_small by lia. eexists _, _. split; [done|]. cbn. split_and!; auto.
  - destruct Hi. split; cbn; auto; lia.
  - right. eexists. split; [done|]. split; [|split_and!; auto].
    + intros E. apply (f_equal zlen) in E. rewrite zlen_take in E by lia. change (zlen []) with 0 in E. lia.
    + rewrite zdrop_app_le by lia. f_equal. rewrite (buf_split _ Hok), !ztake_app_le by lia. done.
Qed.

Lemma same_limit ub ub' :
  within_limit ub -> ub'.(len) = ub.(len) -> ub'.(Buffer.limit) = ub.(Buffer.limit) -> within_limit ub'.
Proof. unfold within_limit. lia. Qed.

(** What one pass of the parser does, [x] being the bytes still to arrive. *)
Definition agrees (c c' : chunked S) (x : list Z) : Prop :=
  decode None c (contents c.(input) ++ x) = decode None c' (contents c'.(input) ++ x) /\
  forall m, decode (Some m) c (contents c.(input) ++ x) = decode (Some m) c' (contents c'.(input) ++ x) \/
            decode (Some m) c (contents c.(input) ++ x) = VBad.

(** The reader waits for bytes because what it has is incomplete. *)
Definition waiting (c : chunked S) : Prop :=
  0 < c.(need) -> c.(pstatus) = 0 -> readline_scan (contents c.(input)) 0 false = inl (-2).

Definition step_post (env : heap_env) (limit : Z) (c : chunked S) (x : list Z) (st : cstep) : Prop :=
  match st with
  | Continue c' =>
      cinv env limit c' /\ 0 < c'.(need) /\ c'.(decap) = 0 /\ c'.(complete) = false /\
      c'.(sock) = c.(sock) /\
      ((agrees c c' x /\ waiting c') \/
       (c'.(pstatus) = 0 /\ decode None c (contents c.(input) ++ x) = VSkip (contents c'.(input) ++ x) /\
        forall m, decode (Some m) c (contents c.(input) ++ x) = VSkip (contents c'.(input) ++ x) \/
                  decode (Some m) c (contents c.(input) ++ x) = VBad))
  | Result None c' =>
      cinv env limit c' /\ c'.(sock) = c.(sock) /\
      forall cap, decode cap c (contents c.(input) ++ x) = VBad
  | Result (Some y) c' =>
      cinv env limit c' /\ c'.(sock) = c.(sock) /\ (c'.(complete) = true <-> y = []) /\
      c'.(pstatus) = 0 /\ c'.(need) = 0 /\
      yields (decode None c (contents c.(input) ++ x)) y (zdrop c'.(decap) (contents c'.(input)) ++ x)
  end.

Lemma fits_None_if {A} n (a b : A) : (if negb (fits None n) then a else b) = b.
Proof. done. Qed.

Lemma final_result_spec env limit c x :
  cinv env limit c -> c.(decap) = 0 -> c.(need) = 0 -> c.(complete) = false ->
  exists st, final_result c = Ret st /\
    match st with
    | Continue c' =>
        cinv env limit c' /\ 0 < c'.(need) /\ c'.(decap) = 0 /\ c'.(complete) = false /\
        c'.(sock) = c.(sock) /\ c'.(pstatus) = 2 /\ c'.(input) = c.(input)
    | Result None c' =>
        cinv env limit c' /\ c'.(sock) = c.(sock) /\
        forall cap, decode_final cap (contents c.(input) ++ x) = VBad
    | Result (Some y) c' =>
        cinv env limit c' /\ c'.(sock) = c.(sock) /\ c'.(complete) = true /\ y = [] /\ c'.(decap) = 0 /\
        c'.(pstatus) = 0 /\ c'.(need) = 0 /\
        decode_final None (contents c.(input) ++ x) = VEnd (contents c'.(input) ++ x)
    end.
Proof.
  intros Hi Hd Hn Hco. pose proof (ci_buf _ _ _ Hi) as Hok. pose proof Hok as [Hb Hpp Hl Hlim].
  pose proof (zlen_contents _ Hok) as Hz. unfold final_result, upsgi_chunked_require_final_crlf.
  destruct (Z.ltb_spec (pos (input c)) 2) as [Hp|Hp].
  - eexists. split; [done|]. cbn. split_and!; auto; [|lia]. destruct Hi. split; cbn; auto; lia.
  - destruct (crlf_at (buf (input c)) 0) as (a & b & E0 & E1 & E2); [lia | lia |].
    change (0 + 1) with 1 in E1. rewrite E0. cbn [obind].
    rewrite (buf_split _ Hok), ztake_zdrop_app in E2 by lia. rewrite zdrop_0 in E2.
    assert (forall cap, decode_final cap (contents (input c) ++ x) =
              if negb (fits cap 2) then VBad
              else if bytes_eqb [a; b] [CR; LF] then VEnd (zdrop 2 (contents (input c)) ++ x) else VBad) as Hdec.
    { intros cap. unfold decode_final. rewrite ztake_app_le, E2, zlen_app, Hz by lia.
      destruct (Z.ltb_spec (pos (input c) + zlen x) 2); [zlia|]. by rewrite zdrop_app_le by lia. }
    assert ([a; b] <> [CR; LF] -> forall cap, decode_final cap (contents (input c) ++ x) = VBad) as Hbad.
    { intros Hne cap. rewrite Hdec. unfold bytes_eqb. rewrite bool_decide_eq_false_2 by done. by destruct (negb _). }
    destruct (Z.eqb_spec a CR) as [->|Ha].
    2: { cbn [obind negb orb]. eexists. split; [done|]. cbn. split_and!; auto. apply Hbad. congruence. }
    rewrite E1. cbn [obind negb orb]. destruct (Z.eqb_spec b LF) as [->|Ha]; cbn [negb].
    2: { eexists. split; [done|]. cbn. split_and!; auto. apply Hbad. congruence. }
    destruct (decapitate_cases 2 (input c) Hok) as [(_ & ub & -> & Hok' & Hc & Hle & Hli)|[? ?]]; [lia | | lia].
    cbn [obind]. eexists. split; [done|]. cbn. split_and!; auto.
    + pose proof (same_limit _ _ (ci_within _ _ _ Hi) Hle Hli). pose proof (ok_pos _ Hok').
      destruct Hi. split; cbn; auto; lia.
    + rewrite Hdec, Hc. done.
Qed.

(** The state after a complete size line. *)
Lemma readline_spec ub x :
  buffer_ok ub ->
  match readline_scan (contents ub) 0 false with
  | inl r => upsgi_chunked_readline ub = Ret (r, ub)
  | inr k => exists ub', upsgi_chunked_readline ub = Ret (i64 (strtoul16 (contents ub ++ x)), ub') /\
      buffer_ok ub' /\ ub'.(len) = ub.(len) /\ ub'.(Buffer.limit) = ub.(Buffer.limit) /\
      contents ub' ++ x = zdrop k (contents ub ++ x) /\ k <= ub.(pos) /\
      readline_scan (contents ub ++ x) 0 false = inr k
  end.
Proof.
  intros Hok. pose proof (zlen_contents _ Hok) as Hz. unfold upsgi_chunked_readline.
  destruct (readline_scan (contents ub) 0 false) as [r|k] eqn:E; [done|].
  destruct (scan_inr _ x _ _ _ E) as (Hk & Ek & _).
  destruct (decapitate_cases k ub Hok) as [(Hle & ub' & -> & Hok' & Hc & Hlen & Hli)|[? ?]]; [lia | | lia].
  cbn [obind Z.eqb negb]. exists ub'. split_and!; auto.
  - do 3 f_equal. rewrite (buf_split _ Hok), !(strtoul16_scan _ _ _ E). done.
  - rewrite Hc, zdrop_app_le by lia. done.
Qed.

(** A pass that only leaves the reader waiting. *)
Lemma decode_line_at cap l k :
  readline_scan l 0 false = inr k ->
  decode_line cap l =
    if negb (fits cap k) then VBad
    else if i64 (strtoul16 l) =? -2 then VSkip (zdrop k l)
    else if i64 (strtoul16 l) <? 0 then VBad
    else if i64 (strtoul16 l) =? 0 then decode_final cap (zdrop k l)
    else decode_body cap (i64 (strtoul16 l)) (zdrop k l).
Proof. unfold decode_line. by intros ->. Qed.

Lemma parse_line_spec env limit c x :
  cinv env limit c -> c.(decap) = 0 -> c.(need) = 0 -> c.(complete) = false ->
  0 < c.(input).(pos) -> c.(pstatus) = 0 ->
  exists st, chunked_parse c = Ret st /\ step_post env limit c x st.
Proof.
  intros Hi Hd Hn Hco Hp Hs. pose proof (ci_buf _ _ _ Hi) as Hok.
  unfold chunked_parse. rewrite Hn, Hs. cbn [Z.ltb Z.compare Z.eqb].
  destruct (Z.ltb_spec 0 (pos (input c))); [|lia].
  pose proof (readline_spec (input c) x Hok) as Hr.
  destruct (readline_scan (contents (input c)) 0 false) as [r|k] eqn:E.
  - rewrite Hr. cbn [obind]. destruct (scan_result _ _ _ _ E) as [->| ->]; cbn.
    + eexists. split; [done|]. cbn. split_and!; auto; [by destruct Hi; split; cbn; auto; lia|].
      intros cap. unfold decode, decode_line. by rewrite Hs, (scan_bad _ _ _ _ E).
    + eexists. split; [done|]. cbn. rewrite Hn. split_and!; auto; [by destruct Hi; split; cbn; auto; lia | lia |].
      left. split; [|intros _ _; exact E]. unfold agrees, decode; cbn. rewrite Hs. auto.
  - destruct Hr as (ub' & -> & Hok' & Hle & Hli & Hc & Hk & Ek). cbn [obind].
    set (n := i64 (strtoul16 (contents (input c) ++ x))) in *.
    pose proof (same_limit _ _ (ci_within _ _ _ Hi) Hle Hli) as Hw.
    pose proof (ok_pos _ Hok') as Hp'. pose proof (ok_len _ Hok') as Hl'.
    pose proof (i64_range (strtoul16 (contents (input c) ++ x))) as Hrange. fold n in Hrange.
    assert (forall cap, decode cap c (contents (input c) ++ x) =
      if negb (fits cap k) then VBad else if n =? -2 then VSkip (contents ub' ++ x)
      else if n <? 0 then VBad else if n =? 0 then decode_final cap (contents ub' ++ x)
      else decode_body cap n (contents ub' ++ x)) as Hdec.
    { intros cap. unfold decode. rewrite Hs, Hc. apply decode_line_at. done. }
    set (c' := c<|input := ub'|><|chunk_len := n|>).
    assert (cinv env limit c') as Hi' by (destruct Hi; split; cbn; auto; lia).
    destruct (Z.eqb_spec n (-2)) as [En|En].
    + eexists. split; [done|]. cbn. rewrite Hn. split_and!; auto; [by destruct Hi'; split; cbn in *; auto; lia | lia |].
      right. split; [done|]. split; [apply (Hdec None)|]. intros m. rewrite Hdec. destruct (negb _); auto.
    + destruct (Z.ltb_spec n 0).
      { eexists. split; [done|]. cbn. split_and!; auto. intros cap. rewrite Hdec. by destruct (negb _). }
      destruct (Z.eqb_spec n 0) as [E0|E0].
      * destruct (final_result_spec env limit c' x Hi') as (st & -> & Hst); auto. eexists. split; [done|].
        destruct st as [c2|[y|] c2]; cbn.
        -- destruct Hst as (H1 & H2 & H3 & H4 & H5 & H6 & H7). split_and!; auto. left. split; [|intros ? ?; lia].
           split; [|intros m]; rewrite Hdec; unfold decode; rewrite H6, H7; [done|].
           cbn. destruct (negb _); auto.
        -- destruct Hst as (H1 & H2 & H3 & -> & H5 & H7 & H8 & H6). split_and!; auto; [by rewrite H3|].
           rewrite Hdec, H5, zdrop_0. cbn. cbn in H6. rewrite H6. constructor.
        -- destruct Hst as (H1 & H2 & H3). split_and!; auto. intros cap. rewrite Hdec. cbn in H3. rewrite H3.
           by destruct (negb _).
      * rewrite !(wrap_small 64 (n + 2)) by lia. change (input c') with ub'.
        destruct (Z.ltb_spec (pos ub') (n + 2)).
        -- rewrite wrap_small by lia. eexists. split; [done|]. cbn. split_and!; auto; [|lia|].
           { destruct Hi'. split; cbn in *; auto; try lia. }
           left. split; [|by intros ? ?]. split; [|intros m]; rewrite Hdec; [done|].
           cbn. destruct (negb (k <=? m)); auto.
        -- destruct (chunk_result_spec env limit c' x Hi') as (r & c2 & -> & Hi2 & Hsk & Hcm & Hr); auto; [cbn; lia|].
           eexists. split; [done|]. destruct Hr as [[-> Hr]|(y & -> & Hy & Hps & Hnd & Hr)]; cbn.
           ++ split_and!; auto. intros cap. rewrite Hdec. cbn in Hr. rewrite Hr. by destruct (negb _).
           ++ split_and!; auto; [by rewrite Hcm; split|]. rewrite Hdec. cbn. cbn in Hr. rewrite Hr. by constructor.
Qed.

(** The parser, in every state it is called in. *)
Lemma parse_spec env limit c x :
  cinv env limit c -> c.(decap) = 0 -> c.(complete) = false ->
  0 < c.(need) \/ 0 < c.(input).(pos) -> (c.(pstatus) = 0 -> c.(need) = 0) ->
  exists st, chunked_parse c = Ret st /\ step_post env limit c x st.
Proof.
  intros Hi Hd Hco Hp Hs0. pose proof (ci_status _ _ _ Hi) as Hst.
  destruct (Z.ltb_spec 0 (need c)) as [Hn|Hn].
  { exists (Continue c). unfold chunked_parse. destruct (Z.ltb_spec 0 (need c)); [|lia]. split; [done|].
    cbn. split_and!; auto. left. split; [|intros ? ?; lia]. split; auto. }
  assert (need c = 0) as Hn0 by (pose proof (ci_need _ _ _ Hi); lia). destruct Hp as [?|Hp]; [lia|].
  destruct Hst as [[Hs _]|[(Hs & Hk & _)|[Hs _]]]; [by apply parse_line_spec | |];
    unfold chunked_parse; rewrite Hn0, Hs; cbn [Z.ltb Z.compare Z.eqb Pos.eqb];
    (destruct (Z.ltb_spec 0 (pos (input c))); [|lia]).
  - pose proof (ci_buf _ _ _ Hi) as [? ? ? ?]. rewrite !(wrap_small 64 (chunk_len c + 2)) by lia.
    destruct (Z.ltb_spec (pos (input c)) (chunk_len c + 2)).
    + rewrite wrap_small by lia. eexists. split; [done|]. cbn. split_and!; auto; [|lia|].
      { destruct Hi. split; cbn in *; auto; try lia. }
      left. split; [|intros ? E; cbn in E; lia]. split; auto.
    + destruct (chunk_result_spec env limit c x Hi) as (r & c2 & -> & Hi2 & Hsk & Hcm & Hr); auto; [lia|].
      eexists. split; [done|]. destruct Hr as [[-> Hr]|(y & -> & Hy & Hps & Hnd & Hr)]; cbn.
      * split_and!; auto. intros cap. unfold decode. rewrite Hs. apply Hr.
      * split_and!; auto; [by rewrite Hcm; split|]. unfold decode. rewrite Hs. cbn. rewrite Hr. by constructor.
  - destruct (final_result_spec env limit c x Hi) as (st & -> & Hst); auto. eexists. split; [done|].
    destruct st as [c2|[y|] c2]; cbn.
    + destruct Hst as (H1 & H2 & H3 & H4 & H5 & H6 & H7). split_and!; auto. left. split; [|intros ? ?; lia].
      unfold agrees, decode. rewrite H6, H7, Hs. auto.
    + destruct Hst as (H1 & H2 & H3 & -> & H5 & H7 & H8 & H6). split_and!; auto; [by rewrite H3|].
      unfold decode. rewrite Hs, H5, zdrop_0. cbn. rewrite H6. constructor.
    + destruct Hst as (H1 & H2 & H3). split_and!; auto. intros cap. unfold decode. rewrite Hs. apply H3.
Qed.

Definition good (v : verdict) : Prop := match v with VChunk _ _ | VEnd _ => True | _ => False end.

(** When the stream holds a result, there is more to read and room for it. *)
Lemma good_room env limit c x m :
  cinv env limit c -> waiting c -> 0 < c.(need) \/ c.(input).(pos) = 0 ->
  good (decode (Some m) c (contents c.(input) ++ x)) ->
  x <> [] /\ c.(input).(pos) + Z.max env.(page_size) c.(need) <= m + Z.max env.(page_size) 0.
Proof.
  intros Hi Hw Hor Hg. pose proof (zlen_contents _ (ci_buf _ _ _ Hi)) as Hz.
  assert (zlen (contents (input c) ++ x) = pos (input c) + zlen x) as Hzx by (rewrite zlen_app; lia).
  assert (x <> [] <-> 0 < zlen x) as Hx.
  { destruct x as [|y x]; [done|]. rewrite zlen_cons. pose proof (zlen_nonneg x). split; [lia | done]. }
  rewrite Hx. clear Hx. pose proof (ok_pos _ (ci_buf _ _ _ Hi)) as Hp.
  pose proof (zlen_nonneg x). revert Hg. unfold decode.
  destruct (ci_status _ _ _ Hi) as [[Hs Hn]|[(Hs & Hk & Hn)|[Hs Hn]]]; rewrite Hs; cbn -[decode_body decode_final].
  - unfold decode_line. destruct (readline_scan (contents (input c) ++ x) 0 false) as [r|k] eqn:E; [by case_match|].
    cbn [fits]. destruct (Z.leb_spec k m); cbn [negb]; [|done]. intros _.
    assert (readline_scan (contents (input c)) 0 false = inl (-2)) as Hs2.
    { destruct Hor as [Hn'|Hp0]; [by apply Hw|]. by rewrite (zlen_zero_inv (contents (input c))) by lia. }
    pose proof (scan_more _ _ _ _ _ Hs2 E). pose proof (scan_inr _ [] _ _ _ E) as (? & _). lia.
  - unfold decode_body. cbn [fits]. rewrite Hzx. repeat (zcase; try done); lia.
  - unfold decode_final. cbn [fits]. rewrite Hzx. repeat (zcase; try done); lia.
Qed.

(** What reading needs to succeed whenever the stream holds a result of at
    most [m] bytes. *)
Record supplied (env : heap_env) (limit m : Z) (nb : bool) (c : chunked S) : Prop := {
  su_block : nb = false;
  su_heap : forall k, k < 2 ^ 63 -> heap_ok env k = true;
  su_cap : m + page_size env < 2 ^ 63 /\ (limit = 0 \/ m + page_size env <= limit);
  su_sock : Forall delivers c.(sock);
}.

Lemma fill_spec env limit nb c :
  EnvOk env -> cinv env limit c -> c.(decap) = 0 -> c.(complete) = false ->
  exists st, chunked_fill env nb c = Ret st /\
    match st with
    | Result (Some _) _ => False
    | Result None c' =>
        cinv env limit c' /\ (Forall delivers c.(sock) -> Forall delivers c'.(sock)) /\
        forall m, supplied env limit m nb c -> waiting c ->
          ~ good (decode (Some m) c (contents c.(input) ++ sock_data c.(sock)))
    | Continue c' =>
        cinv env limit c' /\ c'.(decap) = 0 /\ c'.(complete) = false /\
        (0 < c'.(need) \/ 0 < c'.(input).(pos)) /\ (c'.(pstatus) = 0 -> c'.(need) = 0) /\
        contents c'.(input) ++ sock_data c'.(sock) = contents c.(input) ++ sock_data c.(sock) /\
        c'.(pstatus) = c.(pstatus) /\ c'.(chunk_len) = c.(chunk_len) /\
        (Forall delivers c.(sock) -> Forall delivers c'.(sock)) /\
        ((c' = c /\ c.(need) = 0) \/ zlen (sock_data c'.(sock)) < zlen (sock_data c.(sock)))
    end.
Proof.
  intros Henv Hi Hd Hco. unfold chunked_fill. pose proof Henv as Hpg. unfold EnvOk in Hpg.
  pose proof (ci_need _ _ _ Hi) as Hn. pose proof (ci_buf _ _ _ Hi) as Hok. pose proof Hok as [Hb Hp Hl Hlim].
  pose proof (ci_status _ _ _ Hi) as Hst.
  destruct ((0 <? need c) || (pos (input c) =? 0)) eqn:Eor.
  2: { apply orb_false_iff in Eor as [E1%Z.ltb_ge E2%Z.eqb_neq]. exists (Continue c).
       split; [done|]. assert (need c = 0) by lia. split_and!; auto; lia. }
  assert (0 < need c \/ pos (input c) = 0) as Hor by (apply orb_true_iff in Eor as [?%Z.ltb_lt|?%Z.eqb_eq]; lia).
  rewrite UMAX_spec.
  destruct (ensure_room env (Z.max (page_size env) (need c)) (input c)) as (r & ub & E & Hr);
    [done | by apply Hi | lia | lia |]. rewrite E. cbn [obind].
  destruct Hr as [[-> ->]|(-> & Hok1 & Hw1 & Hc1 & Hp1 & Hl1 & Hroom)]; cbn [Z.eqb negb].
  { eexists. split; [done|]. split; [by destruct Hi; split; cbn; auto|]. split; [done|]. intros m [_ Hh [Hm Hcap] _] Hw Hg.
    destruct (good_room env limit c _ m Hi Hw Hor Hg) as [_ Hroom].
    revert E. apply ensure_granted; auto; [lia.. |]. rewrite (ci_limit _ _ _ Hi). lia. }
  destruct (recv_spec nb (sock c) ub (sd c) Hok1 Hroom (ci_sd _ _ _ Hi))
    as (r & ub2 & s2 & ev2 & Er & Hi2 & Hf2 & Hr).
  change (sock c<|input := ub|>) with (sock c). change (sd c<|input := ub|>) with (sd c).
  change (input c<|input := ub|>) with ub. rewrite Er. cbn [obind].
  destruct Hr as [(-> & -> & Hsd & Hno)|(got & -> & Hne & Hsd & Hp2 & Hle2 & Hli2 & Hfit & Hbl & Hct)].
  { eexists. split; [done|]. split; [|split; [done|]].
    - destruct Hi; split; cbn; rewrite ?Hp1, ?Hl1; auto.
    - intros m [Hnb Hh [Hm Hcap] Hdl] Hw Hg.
      destruct (good_room env limit c _ m Hi Hw Hor Hg) as [Hx _]. by apply Hx, Hno. }
  assert (0 < zlen got) as Hgot by (destruct got; [done | zlia]).
  destruct (Z.leb_spec (zlen got) 0); [lia|]. pose proof Hok1 as [Hb1 Hpp1 Hll1 Hlim1].
  cbn -[wrap]. rewrite Hp2, wrap_small by lia.
  set (ub3 := ub2<|pos := pos ub + zlen got|>).
  assert (buffer_ok ub3) as Hok3 by (split; cbn; lia).
  assert (contents ub3 = contents (input c) ++ got) as Hc3 by (rewrite <- Hc1; exact Hct).
  assert (within_limit ub3) as Hw3 by (unfold within_limit in *; cbn; rewrite Hli2, Hle2; exact Hw1).
  assert (contents ub3 ++ sock_data ev2 = contents (input c) ++ sock_data (sock c)) as Hall
    by (by rewrite Hc3, Hsd, app_assoc).
  assert (zlen (sock_data ev2) < zlen (sock_data (sock c))) as Hlt by (rewrite Hsd, zlen_app; lia).
  eexists. split; [done|].
  destruct (Z.ltb_spec 0 (need c)); [destruct (Z.ltb_spec (need c) (zlen got))|]; cbn; fold ub3;
    (split_and!; auto; try lia; []); destruct Hi; split; cbn; auto; try lia.
Qed.

(** ** The loop *)

(** What a call promises, from the verdicts on the pending bytes [l]. *)
Definition read_post (env : heap_env) (limit : Z) (nb : bool) (c : chunked S) (l : list Z)
    (r : option (list Z)) (c' : chunked S) : Prop :=
  cinv env limit c' /\
  (Forall delivers c.(sock) -> Forall delivers c'.(sock)) /\
  (forall y, r = Some y -> yields (decode None c l) y (pending c') /\ (c'.(complete) = true <-> y = []) /\
                           c'.(pstatus) = 0 /\ c'.(need) = 0) /\
  (forall m, supplied env limit m nb c -> waiting c -> good (decode (Some m) c l) -> r <> None).

Lemma loop_spec env limit nb fuel c :
  EnvOk env -> cinv env limit c -> c.(decap) = 0 -> c.(complete) = false ->
  zlen (sock_data c.(sock)) + (if 0 <? c.(need) then 0 else 1) < Z.of_nat fuel ->
  exists r c', chunked_loop fuel env nb c = Ret (r, c') /\
    read_post env limit nb c (contents c.(input) ++ sock_data c.(sock)) r c'.
Proof.
  intros Henv. revert c. induction fuel as [|fuel IH]; intros c Hi Hd Hco Hf;
    [pose proof (zlen_nonneg (sock_data (sock c))); destruct (0 <? need c); lia|].
  cbn [chunked_loop]. destruct (fill_spec env limit nb c Henv Hi Hd Hco) as (st & -> & Hst). cbn [obind].
  destruct st as [c1|[y|] c1]; [|done|].
  2: { destruct Hst as (Hi1 & Hdl & Hno). eexists _, _. split; [done|]. split_and!; [done | done | done |].
       intros m Hm Hw Hg. by destruct (Hno m Hm Hw). }
  destruct Hst as (Hi1 & Hd1 & Hco1 & Hnp & Hs0 & Hl & Hps & Hcl & Hdl & Hmeas).
  assert (forall cap l, decode cap c l = decode cap c1 l) as Hdec by (intros; unfold decode; by rewrite Hps, Hcl).
  assert (forall m, supplied env limit m nb c -> supplied env limit m nb c1) as Hsup
    by (intros m [? ? ? ?]; split; auto).
  destruct (parse_spec env limit c1 (sock_data (sock c1)) Hi1 Hd1 Hco1 Hnp Hs0) as (st & -> & Hst). cbn [obind].
  destruct st as [c2|[y|] c2]; cbn in Hst.
  - destruct Hst as (Hi2 & Hn2 & Hd2 & Hco2 & Hsk & Hv).
    destruct (IH c2) as (r & c' & -> & Hi' & Hdl' & Hy & Hg); auto.
    { rewrite Hsk. destruct (Z.ltb_spec 0 (need c2)); [|lia].
      destruct Hmeas as [[-> Hn0]|?]; [|destruct (0 <? need c); lia]. rewrite Hn0 in Hf. cbn in Hf. lia. }
    exists r, c'. split; [done|]. rewrite Hsk in Hy, Hg, Hdl'. rewrite <- Hl. unfold read_post. rewrite !Hdec.
    destruct Hv as [[[Hn Hs] Hw]|(Hp2 & Hn & Hs)].
    + split_and!; [done | by auto | by rewrite Hn |]. intros m Hm _ Hgood. rewrite Hdec in Hgood.
      destruct (Hs m) as [E|E]; rewrite E in Hgood; [|done]. apply (Hg m); auto.
      destruct (Hsup m Hm). split; auto. by rewrite Hsk.
    + split_and!; [done | by auto | |].
      * intros y E. destruct (Hy y E) as [Hyy Hc]. split; [|done]. rewrite Hn. constructor.
        revert Hyy. unfold decode. by rewrite Hp2.
      * intros m Hm _ Hgood. rewrite Hdec in Hgood. by destruct (Hs m) as [E|E]; rewrite E in Hgood.
  - destruct Hst as (Hi2 & Hsk & Hc & Hps2 & Hn2 & Hy). eexists _, _. split; [done|]. unfold read_post. rewrite <- Hl, !Hdec.
    split_and!; [done | by rewrite Hsk | | done]. intros y' [= <-]. split; [|done].
    unfold pending. by rewrite (ci_open _ _ _ Hi2), Hsk.
  - destruct Hst as (Hi2 & Hsk & Hbad). eexists _, _. split; [done|]. unfold read_post. rewrite <- Hl.
    split_and!; [done | by rewrite Hsk | done |]. intros m _ _ Hgood. rewrite Hdec, Hbad in Hgood. done.
Qed.

(** The reader with its buffer, and with the last chunk removed from it. *)
Lemma open_spec env limit (c : chunked S) :
  LimitOk env limit -> ready env limit c ->
  exists c1, chunked_open env limit c = Ret c1 /\
    cinv env limit c1 /\ pending c1 = pending c /\ (waiting c -> waiting c1) /\
    (forall cap l, decode cap c l = decode cap c1 l) /\ complete c1 = complete c /\ sock c1 = sock c.
Proof.
  intros [Henv Hpage Hlim] Hr. unfold EnvOk in Henv. unfold chunked_open.
  destruct Hr as [(Ho & Hco & Hd & Hn & Hs & Hsd)|Hi]; [|rewrite (ci_open _ _ _ Hi); exists c; by auto].
  rewrite Ho. unfold upsgi_buffer_new, malloc, alloc_ok. rewrite Hpage.
  destruct (Z.eqb_spec (page_size env) 0); [lia|]. destruct (Z.ltb_spec (page_size env) (2 ^ 63)); [|lia].
  cbn [andb obind]. eexists. split; [done|]. split_and!; auto.
  - split; cbn; auto; try lia; [split; cbn; try lia; rewrite zlen_rep; lia | intros ?; cbn in *; lia].
  - unfold pending. rewrite Ho. cbn. rewrite Hd. done.
  - intros _ Hn'. cbn in Hn'. lia.
Qed.

Lemma drop_given_spec env limit (c : chunked S) :
  cinv env limit c ->
  exists c1, chunked_drop_given c = Ret (0, c1) /\
    cinv env limit c1 /\ c1.(decap) = 0 /\ contents c1.(input) ++ sock_data c1.(sock) = pending c /\
    (waiting c -> waiting c1) /\
    (forall cap l, decode cap c l = decode cap c1 l) /\ complete c1 = complete c /\ sock c1 = sock c.
Proof.
  intros Hi. pose proof (ci_decap _ _ _ Hi) as Hd.
  unfold pending, chunked_drop_given. rewrite (ci_open _ _ _ Hi).
  destruct (Z.ltb_spec 0 (decap c)) as [Hd0|Hd0].
  - destruct (decapitate_cases (decap c) (input c) (ci_buf _ _ _ Hi)) as
      [(_ & ub & -> & Hok & Hc & Hle & Hli)|[? _]]; [lia | | lia].
    cbn [obind Z.eqb negb]. eexists. split; [done|]. cbn. rewrite Hc.
    destruct (ci_given _ _ _ Hi Hd0) as [Hs Hn]. split_and!; auto.
    + pose proof (same_limit _ _ (ci_within _ _ _ Hi) Hle Hli). pose proof (ok_pos _ Hok).
      destruct Hi. split; cbn; auto; lia.
    + intros _ Hn'. cbn in Hn'. lia.
  - exists c. assert (decap c = 0) as -> by lia. by split_and!; auto.
Qed.

(** The whole call. *)
Lemma read_spec env limit nb c :
  LimitOk env limit -> ready env limit c -> c.(complete) = false ->
  exists r c', upsgi_chunked_read env limit nb c = Ret (r, c') /\
    read_post env limit nb c (pending c) r c'.
Proof.
  intros Hlo Hr Hco. unfold upsgi_chunked_read.
  destruct (open_spec env limit c Hlo Hr) as (c1 & -> & Hi1 & Hp1 & Hw1 & Hdec1 & Hco1 & Hsk1).
  rewrite obind_ret, Hco1, Hco.
  destruct (drop_given_spec env limit c1 Hi1) as (c2 & E2 & Hi2 & Hd2 & Hp2 & Hw2 & Hdec2 & Hco2 & Hsk2).
  rewrite E2. cbn [obind Z.eqb negb].
  destruct (loop_spec env limit nb (2 + length (sock_data (sock c2))) c2) as (r & c' & E & Hi & Hdl & Hy & Hg);
    [by destruct Hlo | done | done | congruence | unfold zlen; destruct (0 <? need c2); lia |].
  exists r, c'. split; [exact E|]. unfold read_post. rewrite !Hdec1, !Hdec2, <- Hp1, <- Hp2. rewrite <- Hsk1, <- Hsk2. split_and!; auto.
  intros m [? ? ? ?] Hw Hgood. rewrite Hdec1, Hdec2 in Hgood. apply (Hg m); auto. split; auto. congruence.
Qed.

(** * Theorems *)


Lemma decode_cap m c l : good (decode (Some m) c l) -> decode None c l = decode (Some m) c l.
Proof.
  unfold decode, decode_line, decode_body, decode_final. cbn [fits negb].
  repeat (case_match; try done).
Qed.

(** The completeness of a call, on a verdict within the capacity. *)
Lemma read_complete env limit m c :
  LimitOk env limit -> ready env limit c -> c.(complete) = false -> waiting c ->
  supplied env limit m false c -> good (decode (Some m) c (pending c)) ->
  exists y rest c', upsgi_chunked_read env limit false c = Ret (Some y, c') /\
    (decode (Some m) c (pending c) = VChunk y rest \/ y = [] /\ decode (Some m) c (pending c) = VEnd rest) /\
    cinv env limit c' /\ Forall delivers c'.(sock) /\ pending c' = rest /\
    (c'.(complete) = true <-> y = []) /\ c'.(pstatus) = 0 /\ c'.(need) = 0.
Proof.
  intros Hlo Hr Hco Hw Hsup Hg.
  destruct (read_spec env limit false c Hlo Hr Hco) as (r & c' & E & Hi & Hdl & Hy & Hc).
  destruct r as [y|]; [|by destruct (Hc m Hsup Hw Hg)].
  destruct (Hy y eq_refl) as (Hyi & Hcm & Hps & Hn). rewrite (decode_cap m) in Hyi by done.
  exists y, (pending c'), c'. rewrite E. split_and!; auto; [|by apply Hdl; destruct Hsup].
  inversion Hyi as [y' rest Hne Ev|rest Ev|l y' rest Hk Ev]; subst; auto.
  rewrite <- Ev in Hg. done.
Qed.

(** C37: reading is independent of how the stream arrives: when the pending
    bytes hold a chunk whose size line and whose data with its terminator
    need at most [m] bytes, and a page more than [m] is within the limit, a
    blocking read on a connection that delivers them, in whatever pieces and
    after whatever waits, returns that chunk and leaves the rest. *)
Theorem chunked_read_complete env limit m c y rest :
  LimitOk env limit -> ready env limit c -> c.(complete) = false -> waiting c ->
  supplied env limit m false c -> decode (Some m) c (pending c) = VChunk y rest ->
  exists c', upsgi_chunked_read env limit false c = Ret (Some y, c') /\ pending c' = rest /\
    ready env limit c' /\ c'.(complete) = false.
Proof.
  intros Hlo Hr Hco Hw Hsup Hd.
  destruct (read_complete env limit m c) as (y' & rest' & c' & E & Hv & Hi & _ & Hp & Hc & _ & _); auto;
    [by rewrite Hd|].
  rewrite Hd in Hv. destruct Hv as [[= <- <-]|[_ [=]]]. exists c'. split_and!; auto; [by right|].
  destruct (complete c') eqn:Ec; [|done]. exfalso. rewrite (proj1 Hc eq_refl) in E.
  destruct (read_spec env limit false c Hlo Hr Hco) as (r & c2 & E2 & _ & _ & Hy & _).
  rewrite E2 in E. injection E as -> ->. destruct (Hy [] eq_refl) as [Hyi _].
  rewrite (decode_cap m), Hd in Hyi by (by rewrite Hd). inversion Hyi; done.
Qed.

(** ** Round trip *)

(** The stream a sender writes: size lines as [upsgi_buffer_append_chunked]
    formats them. *)
Definition encode_chunk (b : list Z) : list Z := chunk_line (zlen b) ++ b ++ [CR; LF].
Definition encode_body (bs : list (list Z)) : list Z := (bs ≫= encode_chunk) ++ chunk_line 0 ++ [CR; LF].

Lemma scan_xdigits h l i :
  Forall (fun c => is_xdigit c = true) h ->
  readline_scan (h ++ CR :: LF :: l) i false = inr (i + zlen h + 2).
Proof.
  intros Hh. revert i. induction Hh as [|c h Hc _ IH]; intros i; cbn.
  - f_equal. zlia.
  - rewrite Hc, IH. f_equal. zlia.
Qed.

Lemma chunk_line_length n : 0 <= n < 2 ^ 32 -> 3 <= zlen (chunk_line n) <= 10.
Proof.
  intros Hn. unfold chunk_line. rewrite zlen_app, wrap_small by lia. change (zlen [CR; LF]) with 2.
  unfold fmt_X, digits. pose proof (digits_nonempty 16 n) as Hne. unfold digits in Hne.
  pose proof (digits_fuel_length (Datatypes.S (Z.to_nat (Z.log2 n))) 16 n 8) as Hl. unfold zlen.
  destruct (digits_fuel _ _ _ _); [done|]. cbn [length] in *. lia.
Qed.

Lemma decode_line_chunk m n l :
  0 <= n < 2 ^ 32 -> 10 <= m ->
  decode_line (Some m) (chunk_line n ++ l) =
  if n =? 0 then decode_final (Some m) l else decode_body (Some m) n l.
Proof.
  intros Hn Hm. pose proof (chunk_line_length n Hn) as Hl. unfold chunk_line in *.
  rewrite wrap_small in * by lia. rewrite zlen_app in Hl. change (zlen [CR; LF]) with 2 in Hl.
  rewrite (decode_line_at _ _ (0 + zlen (fmt_X n) + 2)).
  - cbn [fits]. destruct (Z.leb_spec (0 + zlen (fmt_X n) + 2) m); [|lia]. cbn [negb].
    rewrite <- app_assoc. cbn [app]. rewrite strtoul16_fmt_X by (unfold SIZE_MAX; lia).
    rewrite signed_small by lia. destruct (Z.eqb_spec n (-2)); [lia|]. destruct (Z.ltb_spec n 0); [lia|].
    assert (zdrop (0 + zlen (fmt_X n) + 2) (fmt_X n ++ CR :: LF :: l) = l) as ->; [|done].
    change (fmt_X n ++ CR :: LF :: l) with (fmt_X n ++ [CR; LF] ++ l). rewrite app_assoc.
    apply zdrop_app_length. rewrite zlen_app. change (zlen [CR; LF]) with 2. lia.
  - rewrite <- app_assoc. cbn [app]. apply scan_xdigits, fmt_X_xdigits.
Qed.

Lemma decode_encode_chunk m b l :
  0 < zlen b < 2 ^ 32 -> 10 <= m -> zlen b + 2 <= m ->
  decode_line (Some m) (encode_chunk b ++ l) = VChunk b l.
Proof.
  intros Hb Hm Hbm. unfold encode_chunk. rewrite <- !app_assoc, decode_line_chunk by lia.
  destruct (Z.eqb_spec (zlen b) 0); [lia|]. unfold decode_body. cbn [fits].
  destruct (Z.leb_spec (zlen b + 2) m); [|lia]. cbn [negb].
  rewrite !zlen_app. change (zlen [CR; LF]) with 2.
  destruct (Z.ltb_spec (zlen b + (2 + zlen l)) (zlen b + 2)); [zlia|].
  rewrite zdrop_app_length, ztake_app_length by done. rewrite ztake_app_length by done.
  rewrite bytes_eqb_refl. f_equal. rewrite app_assoc. apply zdrop_app_length.
  rewrite zlen_app. done.
Qed.

Lemma decode_encode_end m : 10 <= m -> decode_line (Some m) (chunk_line 0 ++ [CR; LF]) = VEnd [].
Proof.
  intros Hm. rewrite decode_line_chunk by lia. cbn. unfold decode_final. cbn [fits].
  destruct (Z.leb_spec 2 m); [done | lia].
Qed.

(** The memory a body may take. *)
Definition body_room (env : heap_env) (bs : list (list Z)) : Z :=
  foldr (fun b a => zlen b + page_size env + a) 0 bs.

Lemma body_room_nonneg env bs : EnvOk env -> 0 <= body_room env bs.
Proof. unfold EnvOk. intros He. induction bs as [|b bs IH]; cbn; [lia|]. pose proof (zlen_nonneg b). unfold body_room in IH. lia. Qed.

(** A fresh copy of the bytes of a buffer. *)
Lemma copy_out env body :
  EnvOk env -> buffer_ok body -> (forall k, k < 2 ^ 63 -> heap_ok env k = true) -> body.(len) < 2 ^ 61 ->
  exists ret body',
    (let* ret := upsgi_buffer_new env body.(pos) in
     let* (r, ret) := upsgi_buffer_append env (contents body) ret in
     let* (_, body) := upsgi_buffer_decapitate body.(pos) body in
     Ret (r, ret, body)) = Ret (0, ret, body') /\ contents ret = contents body /\ contents body' = [].
Proof.
  intros Henv Hok Hh Hl. pose proof Hok as [Hb Hp _ _]. pose proof (zlen_contents _ Hok) as Hz.
  pose proof Henv as Hpg. unfold EnvOk in Hpg.
  assert (exists u, upsgi_buffer_new env (pos body) = Ret u /\ buffer_ok u /\ Buffer.limit u = 0 /\
            contents u = [] /\ len u = pos body) as (u & -> & Hu & Hul & Huc & Hulen).
  { unfold upsgi_buffer_new. destruct (Z.eqb_spec (pos body) 0) as [->|]; [eexists; split_and!; [done | by split | done..]|].
    unfold malloc, alloc_ok. rewrite Hh by lia. destruct (Z.ltb_spec (pos body) (2 ^ 63)); [|lia]. cbn.
    eexists. split_and!; try done. split; cbn; try lia. rewrite zlen_rep; lia. }
  destruct (append_granted env (contents body) u) as (ret & E & Hc); auto; [lia|].
  cbn [obind]. rewrite E. cbn [obind].
  destruct (decapitate_cases (pos body) body Hok) as [(_ & b' & -> & _ & Hb' & _)|[? _]]; [lia | | lia].
  exists ret, b'. split; [done|]. rewrite Hc, Huc, Hb'. split; [done|]. apply zdrop_all. lia.
Qed.

Lemma read_all_roundtrip env limit m bs fuel c body :
  LimitOk env limit -> ready env limit c -> c.(complete) = false -> c.(pstatus) = 0 -> c.(need) = 0 ->
  supplied env limit m false c -> 10 <= m ->
  Forall (fun b => 0 < zlen b < 2 ^ 32 /\ zlen b + 2 <= m) bs -> pending c = encode_body bs ->
  buffer_ok body -> body.(Buffer.limit) = 0 -> body.(len) + body_room env bs < 2 ^ 61 ->
  (length bs < fuel)%nat ->
  exists ret c' body', read_all_loop fuel env limit c body = Ret (Some ret, c', body') /\
    contents ret = contents body ++ concat bs /\ c'.(complete) = true /\ pending c' = [] /\ contents body' = [].
Proof.
  intros Hlo. revert fuel c body. induction bs as [|b bs IH]; intros [|fuel] c body Hr Hco Hs Hn Hsup Hm Hbs Hp Hok Hl Hsz Hf;
    try (cbn in Hf; lia); cbn [read_all_loop];
    assert (forall l, decode (Some m) c l = decode_line (Some m) l) as Hdec by (intros; unfold decode; by rewrite Hs);
    assert (waiting c) as Hw by (intros ?; lia); pose proof (@lo_env env limit Hlo) as Henv; pose proof Hsup as [_ Hh Hcap Hdl].
  - destruct (read_complete env limit m c) as (y & rest & c' & -> & Hv & Hi & _ & Hpr & Hc & _ & _); auto;
      [by rewrite Hdec, Hp, decode_encode_end|].
    rewrite Hdec, Hp, decode_encode_end in Hv by done. destruct Hv as [[=]|[-> [= <-]]].
    cbn [obind]. change (zlen []) with 0. cbn [Z.eqb].
    destruct (copy_out env body) as (ret & body' & E & Hc1 & Hc2); auto; [cbn in Hsz; lia|].
    destruct (upsgi_buffer_new env (pos body)) as [u| | |]; try done. cbn [obind] in *.
    destruct (upsgi_buffer_append env (contents body) u) as [[r u']| | |]; try done. cbn [obind] in *.
    destruct (upsgi_buffer_decapitate (pos body) body) as [[r2 b2]| | |]; try done. cbn [obind] in *.
    injection E as -> -> ->. cbn. exists ret, c', body'. split_and!; auto; [by rewrite app_nil_r | by apply Hc].
  - inversion Hbs as [|? ? [Hb1 Hb2] Hbs']; subst.
    assert (encode_body (b :: bs) = encode_chunk b ++ encode_body bs) as Henc
      by (unfold encode_body; cbn; by rewrite <- app_assoc).
    assert (decode (Some m) c (pending c) = VChunk b (encode_body bs)) as Hd
      by (rewrite Hdec, Hp, Henc; by apply decode_encode_chunk).
    destruct (read_complete env limit m c) as (y & rest & c' & -> & Hv & Hi & Hdl' & Hpr & Hc & Hps & Hnd); auto;
      [by rewrite Hd|].
    rewrite Hd in Hv. destruct Hv as [[= <- <-]|[_ [=]]]. cbn [obind].
    destruct (Z.eqb_spec (zlen b) 0); [lia|].
    change (body_room env (b :: bs)) with (zlen b + page_size env + body_room env bs) in Hsz.
    pose proof (body_room_nonneg env bs Henv). pose proof Henv as Hpg. unfold EnvOk in Hpg.
    destruct (append_grows env b body) as (body1 & -> & Hc1 & Hok1 & Hl1 & Hlen1); auto; [lia|].
    cbn [obind Z.eqb negb].
    destruct (IH fuel c' body1) as (ret & c2 & body2 & E & H1 & H2 & H3 & H4); auto; [by right | | | lia | cbn in Hf; lia |].
    + destruct (complete c'); [|done]. assert (b = []) as -> by (by apply Hc). by destruct Hb1.
    + split; auto.
    + exists ret, c2, body2. split_and!; auto. rewrite H1, Hc1. cbn. by rewrite app_assoc.
Qed.

(** C3: a body sent in chunks is read back: for a connection that delivers the
    encoding of the chunks [bs], cut into whatever pieces, [read_smart] asked
    for everything returns exactly the concatenation of the chunks, the
    stream has ended and nothing is left over.  Each chunk fits with a page
    to spare within the limit. *)
Theorem chunked_roundtrip env limit m bs c :
  LimitOk env limit -> fresh c -> supplied env limit m false c -> 10 <= m ->
  Forall (fun b => 0 < zlen b < 2 ^ 32 /\ zlen b + 2 <= m) bs -> sock_data c.(sock) = encode_body bs ->
  page_size env + body_room env bs < 2 ^ 61 ->
  exists ret b', upsgi_chunked_read_smart (Datatypes.S (length bs)) env limit 0 (mk_body c None) = Ret (Some ret, b') /\
    contents ret = concat bs /\ b'.(stream).(complete) = true /\ pending b'.(stream) = [].
Proof.
  intros Hlo Hf Hsup Hm Hbs Hsock Hsz. pose proof Hf as (Ho & Hco & Hd & Hn & Hs & Hsd).
  pose proof (@lo_env env limit Hlo) as Henv. unfold EnvOk in Henv.
  unfold upsgi_chunked_read_smart, upsgi_buffer_new, malloc, alloc_ok. cbn [body_buf stream].
  rewrite (@lo_page env limit Hlo). destruct (Z.eqb_spec (page_size env) 0); [lia|].
  destruct (Z.ltb_spec (page_size env) (2 ^ 63)); [|lia]. cbn [andb obind]. cbn [Z.eqb].
  destruct (read_all_roundtrip env limit m bs (Datatypes.S (length bs)) c
    (mk_buffer (zrep (page_size env) (junk env)) 0 (page_size env) 0)) as (ret & c' & body' & -> & H1 & H2 & H3 & _); auto.
  - by left.
  - unfold pending. by rewrite Ho.
  - split; cbn; try lia. rewrite zlen_rep; lia.
  - cbn [obind]. eexists _, _. split; [done|]. cbn. auto.
Qed.

End proofs.

(** * Witnesses *)

Definition env16 : heap_env := mk_env 16 (fun _ => true) 0.
Definition sched0 : timed_sched := mk_timed (BodySched.initial 0 true) true [1000; 2000; 3000].

Definition request (events : list event) : chunked timed_sched :=
  mk_chunked false (mk_buffer [] 0 0 0) false 0 0 0 0 sched0 events.

(** Two chunks and the end, cut in the middle of a size line, of the data
    and of a terminator, with a wait in between. *)
Definition pieces : list event :=
  [EvData (chars "5"); EvData [CR]; EvAgain 1; EvData (LF :: chars "hel"); EvData (chars "lo" ++ [CR; LF] ++ chars "6");
   EvData ([CR; LF] ++ chars "world!" ++ [CR]); EvAgain 1; EvData [LF]; EvData (chars "0" ++ [CR; LF; CR]); EvData [LF]].

Lemma limit_ok_64 : LimitOk env16 64.
Proof. split; [by split | done | right; cbn; lia]. Qed.
Lemma fresh_request events : fresh (request events).
Proof. split_and!; done || apply BodySched.initial_inv. Qed.
Lemma pieces_deliver : Forall delivers pieces.
Proof. by repeat constructor. Qed.
Lemma pieces_supplied : supplied env16 64 30 false (request pieces).
Proof. split; [done | done | split; [done | right; cbn; lia] | apply pieces_deliver]. Qed.


Lemma chunked_read_complete_witness :
  exists c', upsgi_chunked_read env16 64 false (request pieces) = Ret (Some (chars "hello"), c') /\
    pending c' = chars "6" ++ [CR; LF] ++ chars "world!" ++ [CR; LF] ++ chars "0" ++ [CR; LF; CR; LF] /\
    ready env16 64 c' /\ c'.(complete) = false.
Proof.
  apply (chunked_read_complete env16 64 30 (request pieces));
    [apply limit_ok_64 | left; apply fresh_request | done | by intros ? | apply pieces_supplied | vm_compute; reflexivity].
Defined.

Lemma chunked_roundtrip_witness :
  exists ret b', upsgi_chunked_read_smart 3 env16 64 0 (mk_body (request pieces) None) = Ret (Some ret, b') /\
    contents ret = chars "helloworld!" /\ b'.(stream).(complete) = true /\ pending b'.(stream) = [].
Proof.
  apply (chunked_roundtrip env16 64 30 [chars "hello"; chars "world!"] (request pieces));
    [apply limit_ok_64 | apply fresh_request | apply pieces_supplied | lia
    | repeat constructor; vm_compute; done | vm_compute; reflexivity | vm_compute; reflexivity].
Defined.

(** * Behaviours at the edges *)

(** A limit below the page size breaks the buffer: the block, first
    allocated with a page, is cut down to the limit when it must grow, below
    the bytes in use, and the next read stores past its end. *)
Theorem chunked_limit_below_page :
  upsgi_chunked_read env16 8 false (request [EvData (chars "C" ++ [CR; LF] ++ chars "0123456789"); EvData (chars "AB")]) = Fault.
Proof. vm_compute. reflexivity. Qed.

(** Within a page of the limit the result depends on the segmentation: a
    chunk that is accepted when it arrives at once is refused when it arrives
    in three pieces, because the block has reached the limit and asking for a
    whole page of room then fails although the missing bytes would fit. *)
Theorem chunked_limit_segmentation :
  let head := chars "12" ++ [CR; LF] in
  let body := chars "0123456789ABCDEFGH" ++ [CR; LF] in
  (exists c, upsgi_chunked_read env16 24 false (request [EvData (head ++ body)]) = Ret (Some (chars "0123456789ABCDEFGH"), c)) /\
  (exists c, upsgi_chunked_read env16 24 false
     (request [EvData head; EvData (ztake 12 body); EvData (ztake 4 (zdrop 12 body)); EvData (zdrop 16 body)]) = Ret (None, c)).
Proof. split; eexists; vm_compute; reflexivity. Qed.

(** The size line FFFFFFFFFFFFFFFE is read as the marker of an incomplete
    line and silently dropped, and an empty size line counts as the last
    chunk. *)
Theorem chunked_size_line_quirks :
  (exists c, upsgi_chunked_read env16 64 false
     (request [EvData (chars "FFFFFFFFFFFFFFFE" ++ [CR; LF]); EvData (chars "2" ++ [CR; LF] ++ chars "ok" ++ [CR; LF])])
     = Ret (Some (chars "ok"), c)) /\
  (exists c, upsgi_chunked_read env16 64 false (request [EvData [CR; LF; CR; LF]]) = Ret (Some [], c) /\ c.(complete) = true).
Proof. split; eexists; [|split]; vm_compute; reflexivity. Qed.
End ChunkedProofs.
