(* ===== verification/Fastcgi.v ===== *)
(** The FastCGI protocol (proto/fastcgi.c): the reader of PARAMS records,
    the writer of FastCGI requests, the record parser of a connection, the
    reader of the STDIN stream and the writer of STDOUT records. *)
From S2P Require Import Prelude Clib Buffer Packet ProtoBase Http.

Module Fastcgi.
Import Packet ProtoBase.
#[local] Existing Instance Packet.expand_packet.

(** * Big endian numbers (core/utils.c) *)

Definition upsgi_be16 (m : list Z) (i : Z) : outcome Z :=
  let* b0 := mread m i in
  let* b1 := mread m (i + 1) in
  Ret (256 * b0 + b1).

Definition upsgi_be32 (m : list Z) (i : Z) : outcome Z :=
  let* b0 := mread m i in
  let* b1 := mread m (i + 1) in
  let* b2 := mread m (i + 2) in
  let* b3 := mread m (i + 3) in
  Ret (256 * (256 * (256 * b0 + b1) + b2) + b3).

(** * Parameters *)

(** The length of a name or a value at offset [j], and the offset after it;
    [None] is [return -1]. *)
Definition nv_length (buf : list Z) (j : Z) : outcome (option (Z * Z)) :=
  let len := zlen buf in
  let* octet := mread buf j in
  if 127 <? octet then
    if len <=? j + 4 then Ret None
    else let* n := upsgi_be32 buf j in Ret (Some (Z.lxor n 2147483648, j + 4))
  else if len <=? j + 1 then Ret None
  else Ret (Some (octet, j + 1)).

(** The loop of [fastcgi_to_upsgi].  The sizes are [uint32_t]: the [- 1] that
    makes up for the [j++] of the loop wraps for an empty pair. *)
Fixpoint fastcgi_loop (fuel : nat) (buffer_size : Z) (buf : list Z) (j : Z) (p : packet)
    : outcome (Z * packet) :=
  match fuel with
  | O => NoFuel
  | S fuel =>
      if j <? zlen buf then
        let* k := nv_length buf j in
        match k with
        | None => Ret (-1, p)
        | Some (keylen, j) =>
            let* v := nv_length buf j in
            match v with
            | None => Ret (-1, p)
            | Some (vallen, j) =>
                if zlen buf <? j + u32 (keylen + vallen) then Ret (-1, p)
                else if (65535 <? keylen) || (65535 <? vallen) then Ret (-1, p)
                else
                  let* key := mslice buf j keylen in
                  let* val := mslice buf (j + keylen) vallen in
                  let* (n, p) := proto_base_add_upsgi_var buffer_size key val p in
                  let pktsize := u16 n in
                  if pktsize =? 0 then Ret (-1, p)
                  else
                    let p := p<|plen := u64 (p.(plen) + pktsize)|> in
                    let j := u64 (j + u32 (keylen + vallen - 1)) in
                    fastcgi_loop fuel buffer_size buf (u64 (j + 1)) p
            end
        end
      else Ret (0, p)
  end.

(** Every iteration consumes at least one byte. *)
Definition fastcgi_to_upsgi (buffer_size : Z) (buf : list Z) (p : packet) : outcome (Z * packet) :=
  fastcgi_loop (S (length buf)) buffer_size buf 0 p.

(** * Writing a request *)

Definition FCGI_BEGIN_REQUEST : Z := 1.
Definition FCGI_PARAMS : Z := 4.
Definition FCGI_STDIN : Z := 5.
Definition FCGI_STDOUT : Z := 6.

Definition buf_append_fcgi_u32 (env : heap_env) (n : Z) : bop := upsgi_buffer_append env (be_bytes32 n).
Definition buf_append_fcgi_u16 (env : heap_env) (n : Z) : bop := upsgi_buffer_append env (be_bytes16 n).
Definition buf_append_fcgi_u8 (env : heap_env) (n : Z) : bop := upsgi_buffer_append env [u8 n].

(** The record header alone: every caller passes no data.  [reqid] and
    [dlen] are [uint16_t] parameters. *)
Definition buf_append_fcgi_rec (env : heap_env) (type reqid dlen : Z) : bop :=
  upsgi_buffer_append env [1] ;;; upsgi_buffer_append env [u8 type] ;;;
  buf_append_fcgi_u16 env (u16 reqid) ;;; buf_append_fcgi_u16 env (u16 dlen) ;;;
  buf_append_fcgi_u8 env 0 ;;; buf_append_fcgi_u8 env 0.

Definition append_nv_length (env : heap_env) (n : Z) : bop :=
  if n <? 128 then buf_append_fcgi_u8 env n else buf_append_fcgi_u32 env (u32 n).

Definition buf_append_fcgi_nameval (env : heap_env) (name value : list Z) : bop :=
  append_nv_length env (zlen name) ;;; append_nv_length env (zlen value) ;;;
  upsgi_buffer_append env name ;;; upsgi_buffer_append env value.

Definition fastcgi_buf_begin_request (env : heap_env) (reqid role flags : Z) : bop :=
  buf_append_fcgi_rec env FCGI_BEGIN_REQUEST reqid 8 ;;; buf_append_fcgi_u16 env (u16 role) ;;;
  buf_append_fcgi_u8 env flags ;;; upsgi_buffer_append env (chars "     ").

Definition FCGI_LEN_LEN (x : Z) : Z := if x <? 128 then 1 else 4.

Definition params_length (vars : list kv) : Z :=
  foldl (fun rlen kv => rlen + (zlen kv.1 + zlen kv.2 + FCGI_LEN_LEN (zlen kv.1) + FCGI_LEN_LEN (zlen kv.2))) 0 vars.

(** The results of the writers are ignored. *)
Definition ignore_op (a b : bop) : bop := fun ub => let* (_, ub) := a ub in b ub.

Definition append_params (env : heap_env) (vars : list kv) : bop :=
  foldr (fun kv k => ignore_op (buf_append_fcgi_nameval env kv.1 kv.2) k) (fun ub => Ret (0, ub)) vars.

Definition upsgi_to_fastcgi (env : heap_env) (role : Z) (vars : list kv) : outcome upsgi_buffer :=
  let* ub := upsgi_buffer_new env env.(page_size) in
  let* (_, ub) :=
    ignore_op (fastcgi_buf_begin_request env 1 role 0)
      (ignore_op (buf_append_fcgi_rec env FCGI_PARAMS 1 (params_length vars))
         (ignore_op (append_params env vars)
            (ignore_op (buf_append_fcgi_rec env FCGI_PARAMS 1 0)
               (buf_append_fcgi_rec env FCGI_STDIN 1 0)))) ub in
  Ret ub.

(** * The connection *)

(** [fbuf] holds the valid bytes of [proto_parser_buf]: [fpos] of them count
    once the postponed move by [fmove] bytes has been done.  The unread rest
    of the current STDIN record is at [frem_off], [frem] bytes. *)
Record fcgi_conn : Type := mk_fcgi {
  fbuf : list Z;
  fpos : Z;
  fbuf_size : Z;
  fmove : Z;
  frem_off : Z;
  frem : Z;
  feof : bool;
  fstream : Z * Z;
  fmodifiers : Z * Z;
  fpk : packet;
}.
#[export] Instance expand_fcgi : Expand fcgi_conn := fun c =>
  mk_fcgi (fbuf c) (fpos c) (fbuf_size c) (fmove c) (frem_off c) (frem c) (feof c) (fstream c)
    (fmodifiers c) (fpk c).

(** [upsgi.buffer_size], [upsgi.fastcgi_modifier1/2] and the sizes [realloc]
    grants. *)
Record fcgi_env : Type := mk_fenv {
  f_buffer_size : Z;
  f_modifiers : Z * Z;
  f_realloc_ok : Z -> bool;
}.

(** [sizeof(struct fcgi_record)] *)
Definition FCGI_HEADER : Z := 8.

Record fcgi_record : Type := mk_record {
  fr_type : Z;
  fr_req1 : Z;
  fr_req0 : Z;
  fr_len : Z;
  fr_all_len : Z;
}.

(** The header at the start of the buffer. *)
Definition read_record (m : list Z) : outcome fcgi_record :=
  let* type := mread m 1 in
  let* req1 := mread m 2 in
  let* req0 := mread m 3 in
  let* fcgi_len := upsgi_be16 m 4 in
  let* pad := mread m 6 in
  Ret (mk_record type req1 req0 fcgi_len (FCGI_HEADER + fcgi_len + pad)).

(** [memmove(buf, buf + n, pos - n); pos -= n;] *)
Definition drop_record (n : Z) (c : fcgi_conn) : fcgi_conn :=
  c<|fbuf := zdrop n c.(fbuf)|><|fpos := c.(fpos) - n|>.

(** Room for the rest of a record: [false] when [realloc] fails. *)
Definition grow_buffer (e : fcgi_env) (all_len : Z) (c : fcgi_conn) : bool * fcgi_conn :=
  let room := c.(fbuf_size) - c.(fpos) in
  if room <? all_len then
    let size := c.(fbuf_size) + (all_len - room) in
    if e.(f_realloc_ok) size then (true, c<|fbuf_size := size|>) else (false, c)
  else (true, c).

Fixpoint fcgi_parse_loop (fuel : nat) (e : fcgi_env) (c : fcgi_conn) : outcome (Z * fcgi_conn) :=
  match fuel with
  | O => NoFuel
  | S fuel =>
      if FCGI_HEADER <=? c.(fpos) then
        let* fr := read_record c.(fbuf) in
        let c := c<|fstream := (fr.(fr_req1), fr.(fr_req0))|> in
        if fr.(fr_type) =? FCGI_STDIN then
          let c := c<|fmodifiers := e.(f_modifiers)|> in
          Ret (UPSGI_OK, if fr.(fr_len) =? 0 then c<|feof := true|> else c)
        else if fr.(fr_all_len) <=? c.(fpos) then
          let* (r, p) :=
            if fr.(fr_type) =? FCGI_PARAMS then
              let* body := mslice c.(fbuf) FCGI_HEADER fr.(fr_len) in
              fastcgi_to_upsgi e.(f_buffer_size) body c.(fpk)
            else Ret (0, c.(fpk)) in
          let c := c<|fpk := p|> in
          if negb (r =? 0) then Ret (-1, c)
          else fcgi_parse_loop fuel e (drop_record fr.(fr_all_len) c)
        else
          let '(ok, c) := grow_buffer e fr.(fr_all_len) c in
          Ret (if ok then UPSGI_AGAIN else -1, c)
      else Ret (UPSGI_AGAIN, c)
  end.

(** One call; every record of the buffer takes at least 8 bytes. *)
Definition upsgi_proto_fastcgi_parser (e : fcgi_env) (rd : Http.read_result) (c : fcgi_conn)
    : outcome (Z * fcgi_conn) :=
  match rd with
  | Http.RData bs =>
      let c := c<|fbuf := c.(fbuf) ++ bs|><|fpos := c.(fpos) + zlen bs|> in
      fcgi_parse_loop (S (length c.(fbuf))) e c
  | Http.RAgain => Ret (UPSGI_AGAIN, c)
  | Http.REof | Http.RError => Ret (-1, c)
  end.

(** * The request body *)

(** What a call returns: the bytes stored in the caller's buffer, the value
    0 of the end of the stream or of a closed connection, or -1, with
    [errno]. *)
Inductive body_result : Type :=
| BodyData (bs : list Z)
| BodyEnd
| BodyAgain
| BodyError.

(** The rest of the current record; the postponed move is done when it is
    used up. *)
Definition read_remains (len : Z) (c : fcgi_conn) : outcome (body_result * fcgi_conn) :=
  let remains := UMIN c.(frem) len in
  let* bs := mslice c.(fbuf) c.(frem_off) remains in
  let c := c<|frem := c.(frem) - remains|><|frem_off := c.(frem_off) + remains|> in
  let c := if (c.(frem) =? 0) && negb (c.(fmove) =? 0)
           then c<|fbuf := zdrop c.(fmove) c.(fbuf)|><|fmove := 0|> else c in
  Ret (BodyData bs, c).

(** The start of a STDIN record. *)
Definition read_stdin (len : Z) (fr : fcgi_record) (c : fcgi_conn) : outcome (body_result * fcgi_conn) :=
  if fr.(fr_len) =? 0 then Ret (BodyEnd, c<|feof := true|>)
  else
    let remains := UMIN fr.(fr_len) len in
    let* bs := mslice c.(fbuf) FCGI_HEADER remains in
    let c := c<|frem := fr.(fr_len) - remains|><|frem_off := FCGI_HEADER + remains|> in
    let c := if c.(frem) =? 0 then c<|fbuf := zdrop fr.(fr_all_len) c.(fbuf)|>
             else c<|fmove := fr.(fr_all_len)|> in
    Ret (BodyData bs, c<|fpos := c.(fpos) - fr.(fr_all_len)|>).

(** [read] of what fits behind the bytes of the buffer: a result, or the
    state after it with what the socket still holds. *)
Definition gather (reads : list Http.read_result) (c : fcgi_conn)
    : (body_result * list Http.read_result) + (list Http.read_result * fcgi_conn) :=
  match reads with
  | [] => inl (BodyAgain, [])
  | Http.RAgain :: reads => inl (BodyAgain, reads)
  | Http.RError :: reads => inl (BodyError, reads)
  | Http.REof :: _ => inl (BodyEnd, reads)
  | Http.RData bs :: reads' =>
      let room := c.(fbuf_size) - c.(fpos) in
      let got := ztake room bs in
      let left := zdrop room bs in
      if zlen got =? 0 then inl (BodyEnd, reads)
      else inr (if zlen left =? 0 then reads' else Http.RData left :: reads',
                c<|fbuf := c.(fbuf) ++ got|><|fpos := c.(fpos) + zlen got|>)
  end.

Fixpoint read_body_loop (fuel : nat) (e : fcgi_env) (len : Z) (has_read : bool) (reads : list Http.read_result)
    (c : fcgi_conn) : outcome (body_result * fcgi_conn * list Http.read_result) :=
  match fuel with
  | O => NoFuel
  | S fuel =>
      let do_gather c :=
        match gather reads c with
        | inl (r, reads) => Ret (r, c, reads)
        | inr (reads, c) => read_body_loop fuel e len true reads c
        end in
      let after_record c := if negb has_read then do_gather c else Ret (BodyAgain, c, reads) in
      if FCGI_HEADER <=? c.(fpos) then
        let* fr := read_record c.(fbuf) in
        if fr.(fr_all_len) <=? c.(fpos) then
          if fr.(fr_type) =? FCGI_STDIN then
            let* (r, c) := read_stdin len fr c in Ret (r, c, reads)
          else after_record (drop_record fr.(fr_all_len) c)
        else
          let '(ok, c) := grow_buffer e fr.(fr_all_len) c in
          if negb ok then Ret (BodyError, c, reads) else after_record c
      else do_gather c
  end.

(** The bytes the socket still holds. *)
Definition reads_data (reads : list Http.read_result) : list Z :=
  reads ≫= fun rd => match rd with Http.RData bs => bs | _ => [] end.

(** Every iteration but the last one reads at least one byte. *)
Definition upsgi_proto_fastcgi_read_body (e : fcgi_env) (len : Z) (reads : list Http.read_result) (c : fcgi_conn)
    : outcome (body_result * fcgi_conn * list Http.read_result) :=
  if 0 <? c.(frem) then let* (r, c) := read_remains len c in Ret (r, c, reads)
  else if c.(feof) then Ret (BodyEnd, c, reads)
  else read_body_loop (S (length (reads_data reads))) e len false reads c.

(** * The response *)

Definition stdout_header (stream : Z * Z) (n : Z) : list Z :=
  [1; FCGI_STDOUT; stream.1; stream.2; octet n 8; octet n 0; 0; 0].

(** [proto_parser_status] is what is left of the current record, [write_pos]
    what was sent of the response.  The header is written by a call that
    waits until it is done ([header_ok]) before the data. *)
Definition start_record (stream : Z * Z) (len status write_pos : Z) (header_ok : bool) : bool * Z * list Z :=
  if status =? 0 then
    let fcgi_len := u16 (UMIN (len - write_pos) 65535) in
    (header_ok, fcgi_len, if header_ok then stdout_header stream fcgi_len else [])
  else (true, status, []).

(** The result, the new state and the bytes put on the connection. *)
Definition upsgi_proto_fastcgi_write (stream : Z * Z) (header_ok : bool) (io : wresult) (buf : list Z)
    (status write_pos : Z) : outcome (Z * Z * Z * list Z) :=
  let '(ok, status, header) := start_record stream (zlen buf) status write_pos header_ok in
  if negb ok then Ret (-1, status, write_pos, header)
  else
    match io with
    | Wrote wlen =>
        if 0 <? wlen then
          let* sent := mslice buf write_pos wlen in
          let write_pos := u64 (write_pos + wlen) in
          let status := status - wlen in
          Ret (if write_pos =? zlen buf then UPSGI_OK else UPSGI_AGAIN, status, write_pos, header ++ sent)
        else Ret (-1, status, write_pos, header)
    | WAgain => Ret (UPSGI_AGAIN, status, write_pos, header)
    | WError => Ret (-1, status, write_pos, header)
    end.

(** The same with the data taken from a file. *)
Definition upsgi_proto_fastcgi_sendfile (stream : Z * Z) (header_ok : bool) (io : wresult) (file : list Z)
    (pos len status write_pos : Z) : outcome (Z * Z * Z * list Z) :=
  let '(ok, status, header) := start_record stream len status write_pos header_ok in
  if negb ok then Ret (-1, status, write_pos, header)
  else
    match io with
    | Wrote wlen =>
        if 0 <? wlen then
          let* sent := mslice file (pos + write_pos) wlen in
          let write_pos := u64 (write_pos + wlen) in
          let status := status - wlen in
          Ret (if write_pos =? len then UPSGI_OK else UPSGI_AGAIN, status, write_pos, header ++ sent)
        else Ret (-1, status, write_pos, header)
    | WAgain => Ret (UPSGI_AGAIN, status, write_pos, header)
    | WError => Ret (-1, status, write_pos, header)
    end.

(** * The end of a request *)

(** [FCGI_END_REQUEST_BYTES] with the request id stored in it: an empty
    STDOUT record and an END_REQUEST record. *)
Definition end_request (stream : Z * Z) : list Z :=
  [1; 6; stream.1; stream.2; 0; 0; 0; 0; 1; 3; stream.1; stream.2; 0; 8; 0; 0; 0; 0; 0; 0; 0; 0; 0; 0].

(** The rest of the body is read and discarded; [false] is [goto end]. *)
Fixpoint close_drain (fuel : nat) (e : fcgi_env) (waits : list Z) (reads : list Http.read_result) (c : fcgi_conn)
    : outcome (bool * fcgi_conn) :=
  match fuel with
  | O => NoFuel
  | S fuel =>
      let* (rc, reads) := upsgi_proto_fastcgi_read_body e 4096 reads c in
      let '(r, c) := rc in
      match r with
      | BodyData _ => close_drain fuel e waits reads c
      | BodyEnd => Ret (true, c)
      | BodyError => Ret (false, c)
      | BodyAgain =>
          match waits with
          | [] => Ret (false, c)
          | ret :: waits => if ret <=? 0 then Ret (false, c) else close_drain fuel e waits reads c
          end
      end
  end.

(** The bytes sent before the connection is closed. *)
Definition upsgi_proto_fastcgi_close (fuel : nat) (e : fcgi_env) (waits : list Z) (reads : list Http.read_result)
    (c : fcgi_conn) : outcome (list Z) :=
  let* (ok, c) := if c.(feof) then Ret (true, c) else close_drain fuel e waits reads c in
  Ret (if ok then end_request c.(fstream) else []).

End Fastcgi.
