(* ===== verification/FastcgiProofs.v ===== *)
(** Correctness of the FastCGI protocol of [Fastcgi]: parameters, the request
    body and the response records. *)
From S2P Require Import Prelude Clib Buffer Packet ProtoBase Http Fastcgi.

Module FastcgiProofs.
Import Packet ProtoBase Fastcgi.
#[local] Existing Instance Packet.expand_packet.

(** * Numbers *)

Lemma mread_byte m i : bytes_ok m -> 0 <= i < zlen m -> exists b, mread m i = Ret b /\ 0 <= b < 256.
Proof.
  intros Hm Hi. destruct (mread_in m i Hi) as (b & E & Hb). exists b. split; [done|].
  rewrite Forall_lookup in Hm. by apply Hm in Hb.
Qed.

Lemma be16_total m i : bytes_ok m -> 0 <= i -> i + 1 < zlen m -> exists n, upsgi_be16 m i = Ret n /\ 0 <= n < 2 ^ 16.
Proof.
  intros Hm Hi Hl. unfold upsgi_be16.
  destruct (mread_byte m i Hm) as (a & -> & Ha); [lia|]. destruct (mread_byte m (i + 1) Hm) as (b & -> & Hb); [lia|].
  cbn [obind]. eexists. split; [done|]. lia.
Qed.

Lemma be32_total m i : bytes_ok m -> 0 <= i -> i + 3 < zlen m -> exists n, upsgi_be32 m i = Ret n /\ 0 <= n < 2 ^ 32.
Proof.
  intros Hm Hi Hl. unfold upsgi_be32.
  destruct (mread_byte m i Hm) as (a & -> & Ha); [lia|]. destruct (mread_byte m (i + 1) Hm) as (b & -> & Hb); [lia|].
  destruct (mread_byte m (i + 2) Hm) as (c & -> & Hc); [lia|]. destruct (mread_byte m (i + 3) Hm) as (d & -> & Hd); [lia|].
  cbn [obind]. eexists. split; [done|]. lia.
Qed.

Lemma mread_skip pre l i : 0 <= i -> mread (pre ++ l) (zlen pre + i) = mread l i.
Proof. apply mread_app_r. Qed.

(** The bit that marks a long length. *)
Lemma lxor_high_bit n : 0 <= n < 2 ^ 31 -> Z.lxor (n + 2147483648) 2147483648 = n.
Proof.
  intros Hn.
  assert (n + 2147483648 = Z.lxor n 2147483648) as ->.
  { apply Z.add_nocarry_lxor. apply Z.bits_inj'. intros k Hk. rewrite Z.land_spec, Z.bits_0.
    change 2147483648 with (2 ^ 31). rewrite Z.pow2_bits_eqb by lia.
    destruct (Z.eqb_spec 31 k); [subst|by rewrite andb_false_r].
    rewrite (Z.bits_above_log2 n 31); [done | lia |].
    destruct (Z.eq_dec n 0) as [->|]; [done|]. apply Z.log2_lt_pow2; lia. }
  by rewrite Z.lxor_assoc, Z.lxor_nilpotent, Z.lxor_0_r.
Qed.

Lemma be32_be_bytes n l : 0 <= n < 2 ^ 32 -> upsgi_be32 (be_bytes32 n ++ l) 0 = Ret n.
Proof.
  intros Hn. unfold upsgi_be32.
  change (mread (be_bytes32 n ++ l) 0) with (Ret (octet n 24)).
  change (mread (be_bytes32 n ++ l) (0 + 1)) with (Ret (octet n 16)).
  change (mread (be_bytes32 n ++ l) (0 + 2)) with (Ret (octet n 8)).
  change (mread (be_bytes32 n ++ l) (0 + 3)) with (Ret (octet n 0)). cbn [obind]. rewrite !octet_id by lia.
  f_equal. change (2 ^ 24) with 16777216. change (2 ^ 16) with 65536. change (2 ^ 8) with 256. change (2 ^ 0) with 1.
  replace (n / 16777216) with (n / 256 / 256 / 256) by (rewrite !Z.div_div; done || lia).
  replace (n / 65536) with (n / 256 / 256) by (rewrite Z.div_div; done || lia). rewrite Z.div_1_r.
  pose proof (Z.div_mod n 256). pose proof (Z.div_mod (n / 256) 256). pose proof (Z.div_mod (n / 256 / 256) 256).
  rewrite (Z.mod_small (n / 256 / 256 / 256)); [lia|].
  split; [repeat apply Z.div_pos; lia | repeat (apply Z.div_lt_upper_bound; [lia|]); lia].
Qed.

(** * Parameters *)

(** A length as the FastCGI specification encodes it. *)
Definition std_length (n : Z) : list Z := if n <? 128 then [n] else be_bytes32 (n + 2147483648).
Definition std_nameval (kv : kv) : list Z :=
  std_length (zlen kv.1) ++ std_length (zlen kv.2) ++ kv.1 ++ kv.2.
Definition std_params (kvs : list kv) : list Z := kvs ≫= std_nameval.

Lemma zlen_std_length n : zlen (std_length n) = if n <? 128 then 1 else 4.
Proof. unfold std_length. by destruct (n <? 128). Qed.

Lemma be32_shift pre m i : 0 <= i -> upsgi_be32 (pre ++ m) (zlen pre + i) = upsgi_be32 m i.
Proof.
  intros Hi. unfold upsgi_be32. rewrite <- !Z.add_assoc, !mread_skip by lia. done.
Qed.

Lemma nv_length_std pre n rest :
  0 <= n < 2 ^ 31 -> rest <> [] ->
  nv_length (pre ++ std_length n ++ rest) (zlen pre) = Ret (Some (n, zlen pre + zlen (std_length n))).
Proof.
  intros Hn Hr. assert (0 < zlen rest) by (destruct rest; [done | zlia]). zlen_facts.
  unfold nv_length. rewrite !zlen_app, zlen_std_length.
  rewrite <- (Z.add_0_r (zlen pre)) at 1. rewrite mread_skip by lia.
  unfold std_length. destruct (Z.ltb_spec n 128).
  - change (mread ([n] ++ rest) 0) with (Ret n). cbn [obind].
    destruct (Z.ltb_spec 127 n); [lia|]. destruct (Z.leb_spec (zlen pre + (1 + zlen rest)) (zlen pre + 1)); [lia | done].
  - assert (mread (be_bytes32 (n + 2147483648) ++ rest) 0 = Ret (octet (n + 2147483648) 24)) as -> by done.
    cbn [obind]. rewrite octet_id by lia.
    assert (128 <= (n + 2147483648) / 2 ^ 24 < 256) as Hd.
    { split; [apply Z.div_le_lower_bound; lia | apply Z.div_lt_upper_bound; lia]. }
    rewrite (Z.mod_small _ 256) by lia. destruct (Z.ltb_spec 127 ((n + 2147483648) / 2 ^ 24)); [|lia].
    destruct (Z.leb_spec (zlen pre + (4 + zlen rest)) (zlen pre + 4)); [lia|].
    rewrite <- (Z.add_0_r (zlen pre)) at 1. rewrite be32_shift, be32_be_bytes by lia. cbn [obind].
    by rewrite lxor_high_bit by lia.
Qed.

Lemma fastcgi_loop_std kvs :
  forall bs pre kvs0 p fuel, packet_ok bs kvs0 p -> bs <= 65536 -> kvs_ok kvs ->
  p.(plen) + zlen (encode kvs) < bs -> zlen pre + zlen (std_params kvs) < 2 ^ 62 -> (length kvs < fuel)%nat ->
  exists p', fastcgi_loop fuel bs (pre ++ std_params kvs) (zlen pre) p = Ret (0, p') /\
    packet_ok bs (kvs0 ++ kvs) p'.
Proof.
  induction kvs as [|[k v] kvs IH]; intros bs pre kvs0 p fuel Hp Hbs Hk Hfit Hsz Hf;
    (destruct fuel as [|fuel]; [cbn in Hf; lia|]); cbn [fastcgi_loop].
  - change (std_params []) with (@nil Z). rewrite !app_nil_r. destruct (Z.ltb_spec (zlen pre) (zlen pre)); [lia|].
    exists p. done.
  - apply Forall_cons in Hk as [[Hk1 Hv1] Hk']. unfold key_ok, val_ok in *. zlen_facts.
    set (body := std_length (zlen v) ++ (k ++ v) ++ std_params kvs).
    assert (std_params ((k, v) :: kvs) = std_length (zlen k) ++ body) as E.
    { unfold std_params, body, std_nameval. cbn. by rewrite <- !app_assoc. }
    rewrite E in Hsz |- *. pose proof (zlen_std_length (zlen k)) as Lk. pose proof (zlen_std_length (zlen v)) as Lv.
    assert (zlen body = zlen (std_length (zlen v)) + (zlen k + zlen v) + zlen (std_params kvs)) as Lb
      by (unfold body; rewrite !zlen_app; lia).
    assert (1 <= zlen (std_length (zlen k)) <= 4) by (rewrite Lk; by destruct (zlen k <? 128)).
    assert (1 <= zlen (std_length (zlen v)) <= 4) by (rewrite Lv; by destruct (zlen v <? 128)).
    rewrite zlen_app in Hsz. rewrite !zlen_app. pose proof (zlen_nonneg (std_params kvs)).
    destruct (Z.ltb_spec (zlen pre) (zlen pre + (zlen (std_length (zlen k)) + zlen body))); [|lia].
    rewrite nv_length_std; [|lia|intros E0; rewrite E0 in Lb; change (zlen []) with 0 in Lb; lia]. cbn [obind].
    unfold body. rewrite (app_assoc pre), <- (zlen_app pre).
    rewrite nv_length_std; [|lia|destruct k; [change (zlen []) with 0 in Hk1; lia | done]].
    cbn [obind]. set (pre2 := (pre ++ std_length (zlen k)) ++ std_length (zlen v)).
    replace (zlen (pre ++ std_length (zlen k)) + zlen (std_length (zlen v))) with (zlen pre2)
      by (unfold pre2; rewrite !zlen_app; lia).
    assert (zlen pre2 = zlen pre + zlen (std_length (zlen k)) + zlen (std_length (zlen v))) as Lp2
      by (unfold pre2; rewrite !zlen_app; lia).
    rewrite (app_assoc (pre ++ std_length (zlen k))). fold pre2.
    rewrite (wrap_small 32 (zlen k + zlen v)) by lia.
    replace (zlen pre + (zlen (std_length (zlen k)) + zlen (std_length (zlen v) ++ (k ++ v) ++ std_params kvs)))
      with (zlen pre2 + (zlen k + zlen v) + zlen (std_params kvs)) by (rewrite !zlen_app; lia).
    destruct (Z.ltb_spec (zlen pre2 + (zlen k + zlen v) + zlen (std_params kvs)) (zlen pre2 + (zlen k + zlen v))); [lia|].
    destruct (Z.ltb_spec 65535 (zlen k)), (Z.ltb_spec 65535 (zlen v)); try lia. cbn [orb].
    rewrite (mslice_ok _ (zlen pre2)) by (rewrite ?zlen_app; lia).
    rewrite (mslice_ok _ (zlen pre2 + zlen k)) by (rewrite ?zlen_app; lia).
    cbn [obind]. rewrite <- app_assoc in *. rewrite (zdrop_app_length (zlen pre2)) by done.
    rewrite (ztake_app_length (zlen k)) by done.
    replace (zdrop (zlen pre2 + zlen k) (pre2 ++ k ++ v ++ std_params kvs)) with (v ++ std_params kvs)
      by (rewrite (app_assoc pre2), zdrop_app_length; [done | rewrite zlen_app; lia]).
    rewrite (ztake_app_length (zlen v)) by done.
    assert (zlen (encode ((k, v) :: kvs)) = zlen k + zlen v + 4 + zlen (encode kvs)) as Le
      by (rewrite encode_cons, zlen_app, zlen_var_block; lia).
    pose proof (zlen_nonneg (encode kvs)).
    destruct (add_upsgi_var_spec bs kvs0 p k v Hp Hk1 Hv1) as [(_ & p' & -> & Hp' & Hpl)|[? _]]; [|lia].
    pose proof (pk_len _ _ _ Hp). cbn [obind]. rewrite (wrap_small 16) by lia.
    destruct (Z.eqb_spec (zlen k + zlen v + 4) 0); [lia|]. rewrite Hpl.
    rewrite (wrap_small 64 (plen p + (zlen k + zlen v + 4))) by lia.
    rewrite (wrap_small 32 (zlen k + zlen v - 1)), !(wrap_small 64) by (rewrite ?wrap_small; lia).
    replace (zlen pre2 + (zlen k + zlen v - 1) + 1) with (zlen (pre2 ++ k ++ v)) by (rewrite !zlen_app; lia).
    replace (pre2 ++ k ++ v ++ std_params kvs) with ((pre2 ++ k ++ v) ++ std_params kvs) by (by rewrite <- !app_assoc).
    replace (kvs0 ++ (k, v) :: kvs) with ((kvs0 ++ [(k, v)]) ++ kvs) by (by rewrite <- app_assoc).
    apply IH; auto; [cbn; lia | rewrite !zlen_app; lia | cbn in Hf; lia].
Qed.


Definition packet512 : packet := mk_packet (zrep 512 0) 0.
Lemma packet512_ok : packet_ok 512 [] packet512.
Proof. split; [done | cbn; lia | lia | constructor | done]. Qed.


(** ** Every record is safe *)

Record packet_sized (bs : Z) (p : packet) : Prop := {
  ps_block : zlen p.(buffer) = bs;
  ps_len : 0 <= p.(plen) <= bs;
  ps_size : bs < 2 ^ 63;
}.

Lemma add_var_sized bs p k v :
  packet_sized bs p -> zlen k < 2 ^ 16 -> zlen v < 2 ^ 16 ->
  exists n p', proto_base_add_upsgi_var bs k v p = Ret (n, p') /\ zlen p'.(buffer) = bs /\ p'.(plen) = p.(plen) /\
    (n = 0 \/ (n = zlen k + zlen v + 4 /\ p.(plen) + n < bs)).
Proof.
  intros [Hb Hl Hs] Hk Hv. unfold proto_base_add_upsgi_var.
  destruct (Z.leb_spec bs (plen p + zlen k + zlen v + 2 + 2)); [exists 0, p; auto|].
  zlen_facts. pose proof (write_block (buffer p) (plen p) k v ltac:(lia) ltac:(rewrite zlen_var_block; lia)) as Hw.
  rewrite (mwrite_ok (buffer p) (plen p) (var_block k v)) in Hw by (rewrite ?zlen_var_block; lia).
  repeat (apply obind_Ret_inv in Hw as (? & ? & Hw);
          match goal with H : mwrite _ _ _ = Ret _ |- _ => rewrite H; clear H end; cbn [obind]).
  rewrite Hw. cbn [obind]. eexists _, _. split; [done|]. cbn -[var_block]. split_and!; [| done |].
  - rewrite !zlen_app, zlen_take, zlen_drop, zlen_var_block by (rewrite ?zlen_var_block; lia). lia.
  - right. lia.
Qed.

Lemma nv_length_total buf j :
  bytes_ok buf -> 0 <= j < zlen buf ->
  nv_length buf j = Ret None \/
  exists n j', nv_length buf j = Ret (Some (n, j')) /\ 0 <= n < 2 ^ 31 /\ j < j' < zlen buf.
Proof.
  intros Hb Hj. unfold nv_length. destruct (mread_byte buf j Hb Hj) as (o & Ho & Hoct). rewrite Ho. cbn [obind].
  destruct (Z.ltb_spec 127 o).
  - destruct (Z.leb_spec (zlen buf) (j + 4)); [auto|]. right.
    assert (exists n, upsgi_be32 buf j = Ret n /\ 2 ^ 31 <= n < 2 ^ 32) as (n & -> & Hn).
    { unfold upsgi_be32. rewrite Ho. destruct (mread_byte buf (j + 1) Hb) as (b & -> & ?); [lia|].
      destruct (mread_byte buf (j + 2) Hb) as (c & -> & ?); [lia|].
      destruct (mread_byte buf (j + 3) Hb) as (d & -> & ?); [lia|]. cbn [obind]. eexists. split; [done|]. lia. }
    cbn [obind]. eexists _, _. split; [done|]. split; [|lia].
    replace n with ((n - 2147483648) + 2147483648) by lia. rewrite lxor_high_bit; lia.
  - destruct (Z.leb_spec (zlen buf) (j + 1)); [auto|]. right. eexists _, _. split; [done|]. lia.
Qed.

Lemma fastcgi_loop_total bs buf fuel j p :
  bytes_ok buf -> zlen buf < 2 ^ 31 -> packet_sized bs p -> 0 <= j < 2 ^ 63 -> zlen buf - j < Z.of_nat fuel ->
  (0 < fuel)%nat ->
  exists r p', fastcgi_loop fuel bs buf j p = Ret (r, p') /\ packet_sized bs p' /\ (r = 0 \/ r = -1).
Proof.
  intros Hb Hsz. revert j p. induction fuel as [|fuel IH]; intros j p Hp Hj Hf H0; [lia|]. cbn [fastcgi_loop].
  destruct (Z.ltb_spec j (zlen buf)); [|exists 0, p; auto].
  destruct (nv_length_total buf j Hb) as [->|(k & j1 & -> & Hk & Hj1)]; [lia | exists (-1), p; cbn; auto|]. cbn [obind].
  destruct (nv_length_total buf j1 Hb) as [->|(v & j2 & -> & Hv & Hj2)]; [lia | exists (-1), p; cbn; auto|]. cbn [obind].
  rewrite (wrap_small 32 (k + v)) by lia.
  destruct (Z.ltb_spec (zlen buf) (j2 + (k + v))); [exists (-1), p; auto|].
  destruct (Z.ltb_spec 65535 k); [exists (-1), p; cbn; auto|]. destruct (Z.ltb_spec 65535 v); [exists (-1), p; cbn; auto|]. cbn [orb].
  rewrite (mslice_ok buf j2 k), (mslice_ok buf (j2 + k) v) by lia. cbn [obind].
  assert (zlen (ztake k (zdrop j2 buf)) = k) as Lk by (rewrite zlen_take; rewrite ?zlen_drop; lia).
  assert (zlen (ztake v (zdrop (j2 + k) buf)) = v) as Lv by (rewrite zlen_take; rewrite ?zlen_drop; lia).
  destruct (add_var_sized bs p (ztake k (zdrop j2 buf)) (ztake v (zdrop (j2 + k) buf)) Hp) as (n & p' & -> & Hb' & Hl' & Hn);
    [lia | lia |]. cbn [obind]. pose proof Hp as [? ? ?].
  assert (0 <= u16 n <= n) as Hu.
  { destruct Hn as [->|[-> _]]; [done|]. unfold wrap. split; [apply Z.mod_pos_bound; lia | apply Z.mod_le; lia]. }
  destruct (Z.eqb_spec (u16 n) 0); [exists (-1), p'; split_and!; auto; split; lia|].
  pose proof (wrap_range 32 (k + v - 1) ltac:(lia)) as Hw. set (w := u32 (k + v - 1)) in *.
  rewrite (wrap_small 64 (j2 + w)), (wrap_small 64 (j2 + w + 1)) by lia.
  apply IH; [|lia..]. split; cbn; [done | | done]. rewrite Hl', wrap_small; lia.
Qed.

(** C40: a PARAMS record of any bytes is converted without reading outside it
    or writing outside the packet, and the conversion ends. *)
Theorem fastcgi_to_upsgi_total bs buf p :
  bytes_ok buf -> zlen buf < 2 ^ 31 -> packet_sized bs p ->
  exists r p', fastcgi_to_upsgi bs buf p = Ret (r, p') /\ packet_sized bs p' /\ (r = 0 \/ r = -1).
Proof. intros. apply fastcgi_loop_total; auto; unfold zlen; lia. Qed.

Lemma fastcgi_to_upsgi_total_witness :
  exists r p', fastcgi_to_upsgi 512 [1; 200; 255; 0; 0; 0] packet512 = Ret (r, p') /\ packet_sized 512 p' /\ (r = 0 \/ r = -1).
Proof.
  apply (fastcgi_to_upsgi_total 512 [1; 200; 255; 0; 0; 0] packet512);
    [repeat constructor; done | by vm_compute | split; [done | cbn; lia | lia]].
Defined.

(** An empty pair ends the conversion: the size minus one wraps around, and
    the pairs after it are lost without an error. *)
Theorem fastcgi_empty_pair_drops_rest :
  exists p', fastcgi_to_upsgi 512 ([0; 0] ++ std_params [(chars "A", chars "b")]) packet512 = Ret (0, p') /\
    ztake p'.(plen) p'.(buffer) = var_block [] [].
Proof. eexists. split; vm_compute; reflexivity. Qed.

(** * The writer of requests *)

(** The writer does not set the bit that marks a long length: a value of 128
    bytes is read back as an empty pair of lengths. *)
Theorem fastcgi_long_value_not_marked :
  let v := zrep 128 97 in
  (exists ub, buf_append_fcgi_nameval env4k (chars "A") v (mk_buffer [] 0 0 0) = Ret (0, ub) /\
     contents ub = [1; 0; 0; 0; 128] ++ chars "A" ++ v /\ contents ub <> std_nameval (chars "A", v) /\
     exists p', fastcgi_to_upsgi 512 (contents ub) packet512 = Ret (-1, p')) /\
  (exists p', fastcgi_to_upsgi 512 (std_nameval (chars "A", v)) packet512 = Ret (0, p')).
Proof.
  split; [|eexists; vm_compute; reflexivity]. eexists. split; [vm_compute; reflexivity|].
  split; [vm_compute; reflexivity|]. split; [vm_compute; congruence|]. eexists. vm_compute. reflexivity.
Qed.

(** * The request body *)

Lemma read_record_total m :
  bytes_ok m -> 8 <= zlen m ->
  exists fr, read_record m = Ret fr /\ 0 <= fr.(fr_len) < 2 ^ 16 /\
    8 + fr.(fr_len) <= fr.(fr_all_len) < 8 + fr.(fr_len) + 256.
Proof.
  intros Hb Hl. unfold read_record.
  destruct (mread_byte m 1 Hb) as (t & -> & ?); [lia|]. destruct (mread_byte m 2 Hb) as (r1 & -> & ?); [lia|].
  destruct (mread_byte m 3 Hb) as (r0 & -> & ?); [lia|]. destruct (be16_total m 4 Hb) as (n & -> & ?); [lia | lia |].
  destruct (mread_byte m 6 Hb) as (pad & -> & ?); [lia|]. cbn [obind]. eexists. split; [done|].
  cbn. unfold FCGI_HEADER. lia.
Qed.

Lemma read_record_app m x : 8 <= zlen m -> read_record (m ++ x) = read_record m.
Proof.
  intros Hl. unfold read_record, upsgi_be16. rewrite !mread_app_l by lia. done.
Qed.

(** What a stream of records carries: the data of the complete STDIN records
    up to the empty one. *)
Fixpoint stdin_payload (fuel : nat) (l : list Z) : list Z :=
  match fuel with
  | O => []
  | S fuel =>
      if zlen l <? 8 then []
      else
        match read_record l with
        | Ret fr =>
            if zlen l <? fr.(fr_all_len) then []
            else if fr.(fr_type) =? FCGI_STDIN then
              if fr.(fr_len) =? 0 then []
              else ztake fr.(fr_len) (zdrop 8 l) ++ stdin_payload fuel (zdrop fr.(fr_all_len) l)
            else stdin_payload fuel (zdrop fr.(fr_all_len) l)
        | _ => []
        end
  end.
Definition payload (l : list Z) : list Z := stdin_payload (length l) l.

Lemma stdin_payload_fuel f g l :
  bytes_ok l -> (length l <= f)%nat -> (length l <= g)%nat -> stdin_payload f l = stdin_payload g l.
Proof.
  revert g l. induction f as [|f IH]; intros [|g] l Hb Hf Hg; cbn; try done.
  - destruct l; [done | cbn in Hf; lia].
  - destruct l; [done | cbn in Hg; lia].
  - destruct (Z.ltb_spec (zlen l) 8); [done|]. destruct (read_record_total l Hb) as (fr & -> & Hn & Ha); [lia|].
    destruct (Z.ltb_spec (zlen l) (fr_all_len fr)); [done|].
    assert (stdin_payload f (zdrop (fr_all_len fr) l) = stdin_payload g (zdrop (fr_all_len fr) l)) as ->; [|done].
    unfold zlen in *. apply IH; [by apply bytes_ok_zdrop | unfold zdrop; rewrite length_drop; lia ..].
Qed.

Lemma payload_step l fr :
  bytes_ok l -> 8 <= zlen l -> read_record l = Ret fr -> fr.(fr_all_len) <= zlen l -> 8 <= fr.(fr_all_len) ->
  payload l =
    if fr.(fr_type) =? FCGI_STDIN then
      if fr.(fr_len) =? 0 then [] else ztake fr.(fr_len) (zdrop 8 l) ++ payload (zdrop fr.(fr_all_len) l)
    else payload (zdrop fr.(fr_all_len) l).
Proof.
  intros Hb Hl E Ha H8. unfold payload.
  assert (length l = S (length l - 1)) as El by (unfold zlen in Hl; lia). rewrite El at 1. cbn [stdin_payload].
  destruct (Z.ltb_spec (zlen l) 8); [lia|]. rewrite E. destruct (Z.ltb_spec (zlen l) (fr_all_len fr)); [lia|].
  rewrite (stdin_payload_fuel _ (length (zdrop (fr_all_len fr) l))); [done | by apply bytes_ok_zdrop | | done].
  unfold zlen, zdrop in *. rewrite length_drop. lia.
Qed.

(** The bytes of the body that were not handed out yet. *)
Definition unread (c : fcgi_conn) (reads : list Http.read_result) : list Z :=
  ztake c.(frem) (zdrop c.(frem_off) c.(fbuf)) ++
  (if c.(feof) then [] else payload (zdrop c.(fmove) c.(fbuf) ++ reads_data reads)).

Record conn_ok (c : fcgi_conn) : Prop := {
  co_bytes : bytes_ok c.(fbuf);
  co_len : zlen c.(fbuf) = c.(fpos) + c.(fmove);
  co_pos : 0 <= c.(fpos) <= c.(fbuf_size);
  co_rem : (c.(frem) = 0 /\ c.(fmove) = 0) \/
           (0 < c.(frem) /\ 0 <= c.(frem_off) /\ c.(frem_off) + c.(frem) <= c.(fmove));
}.

Definition reads_ok (reads : list Http.read_result) : Prop := bytes_ok (reads_data reads).

(** What a call promises: data are the next bytes of the body, and the end
    of the stream is only reported when there are none; otherwise nothing is
    lost. *)
Definition body_post (len : Z) (c : fcgi_conn) (reads : list Http.read_result) (r : body_result)
    (c' : fcgi_conn) (reads' : list Http.read_result) : Prop :=
  conn_ok c' /\ reads_ok reads' /\
  match r with
  | BodyData bs => unread c reads = bs ++ unread c' reads' /\ 0 < zlen bs <= len
  | BodyEnd => unread c' reads' = unread c reads /\ (c'.(feof) = true -> unread c reads = [])
  | BodyAgain | BodyError => unread c' reads' = unread c reads
  end.

Lemma read_remains_spec len reads c :
  conn_ok c -> reads_ok reads -> 0 < len -> 0 < c.(frem) ->
  exists r c', read_remains len c = Ret (r, c') /\ body_post len c reads r c' reads.
Proof.
  intros [Hb Hl Hp Hr] Hrd Hlen Hrem. destruct Hr as [[? _]|(_ & Ho & Hf)]; [lia|].
  unfold read_remains. rewrite UMIN_spec. set (n := Z.min (frem c) len).
  rewrite mslice_ok by lia. cbn [obind]. eexists _, _. split; [done|].
  assert (zlen (ztake n (zdrop (frem_off c) (fbuf c))) = n) as Hz by (rewrite zlen_take; rewrite ?zlen_drop; lia).
  assert (ztake (frem c) (zdrop (frem_off c) (fbuf c)) =
          ztake n (zdrop (frem_off c) (fbuf c)) ++ ztake (frem c - n) (zdrop (frem_off c + n) (fbuf c))) as Hsplit.
  { rewrite <- zdrop_zdrop by lia. symmetry. apply ztake_extend. lia. }
  cbn [frem setter]. unfold setter. cbn. destruct (Z.eqb_spec (frem c - n) 0) as [E|E]; cbn [andb].
  - destruct (Z.eqb_spec (fmove c) 0); [lia|]. cbn. split; [|split; [done|]].
    + split; cbn; [by apply bytes_ok_zdrop | rewrite zlen_drop; lia | done | auto].
    + split; [|lia]. unfold unread; cbn. rewrite Hsplit, E, zdrop_0. cbn. by rewrite app_nil_r.
  - split; [|split; [done|]].
    + split; cbn; auto. right. lia.
    + split; [|lia]. unfold unread; cbn. by rewrite Hsplit, <- app_assoc.
Qed.

Lemma gather_spec reads c :
  conn_ok c -> c.(fmove) = 0 -> reads_ok reads ->
  match gather reads c with
  | inl (r, reads') =>
      reads_ok reads' /\ reads_data reads' = reads_data reads /\
      match r with BodyData _ => False | _ => True end
  | inr (reads', c') =>
      conn_ok c' /\ reads_ok reads' /\ c'.(fmove) = 0 /\ c'.(frem) = c.(frem) /\ c'.(feof) = c.(feof) /\
      c'.(fbuf) ++ reads_data reads' = c.(fbuf) ++ reads_data reads /\
      zlen (reads_data reads') < zlen (reads_data reads)
  end.
Proof.
  intros Hc Hm Hr. pose proof Hc as [Hb Hl Hp Hrem]. unfold gather. destruct reads as [|rd reads]; [done|].
  destruct rd as [bs| | |]; try done.
  set (room := fbuf_size c - fpos c). destruct (Z.eqb_spec (zlen (ztake room bs)) 0); [done|].
  assert (reads_data (Http.RData bs :: reads) = ztake room bs ++ zdrop room bs ++ reads_data reads) as E
    by (rewrite app_assoc, ztake_zdrop; done).
  assert (reads_data (if zlen (zdrop room bs) =? 0 then reads else Http.RData (zdrop room bs) :: reads)
          = zdrop room bs ++ reads_data reads) as E2.
  { destruct (Z.eqb_spec (zlen (zdrop room bs)) 0) as [Ez|]; [|done]. by rewrite (zlen_zero_inv _ Ez). }
  unfold reads_ok in *. rewrite E2, E in *. apply Forall_app in Hr as [Hr1 Hr2]. cbn. split_and!; auto.
  - split; cbn; auto; [by apply Forall_app | rewrite zlen_app; lia |].
    assert (zlen (ztake room bs) <= room) by (unfold zlen, ztake; rewrite length_take; lia). zlen_facts. lia.
  - by rewrite <- !app_assoc.
  - rewrite (zlen_app (ztake room bs)). zlen_facts. lia.
Qed.

(** The unread bytes when no record is half consumed. *)
Lemma unread_start c reads :
  c.(frem) = 0 -> c.(fmove) = 0 -> c.(feof) = false -> unread c reads = payload (c.(fbuf) ++ reads_data reads).
Proof. intros H1 H2 H3. unfold unread. rewrite H1, H2, H3. done. Qed.

Lemma payload_head c reads fr :
  conn_ok c -> reads_ok reads -> c.(fmove) = 0 -> 8 <= c.(fpos) -> read_record c.(fbuf) = Ret fr ->
  8 <= fr.(fr_all_len) <= c.(fpos) -> 0 <= fr.(fr_len) -> 8 + fr.(fr_len) <= fr.(fr_all_len) ->
  payload (c.(fbuf) ++ reads_data reads) =
    if fr.(fr_type) =? FCGI_STDIN then
      if fr.(fr_len) =? 0 then []
      else ztake fr.(fr_len) (zdrop 8 c.(fbuf)) ++ payload (zdrop fr.(fr_all_len) c.(fbuf) ++ reads_data reads)
    else payload (zdrop fr.(fr_all_len) c.(fbuf) ++ reads_data reads).
Proof.
  intros [Hb Hl Hp Hr] Hrd Hm H8 E Ha Hn Hna. zlen_facts.
  pose proof (zlen_nonneg (reads_data reads)).
  rewrite (payload_step _ fr); [| by apply Forall_app | rewrite zlen_app; lia | rewrite read_record_app by lia; done
                               | rewrite zlen_app; lia | lia].
  rewrite !zdrop_app_le by lia. by rewrite ztake_app_le by (rewrite zlen_drop; lia).
Qed.

Lemma read_stdin_spec len reads c fr :
  conn_ok c -> reads_ok reads -> 0 < len -> c.(frem) = 0 -> c.(fmove) = 0 -> c.(feof) = false ->
  8 <= c.(fpos) -> read_record c.(fbuf) = Ret fr -> fr.(fr_type) = FCGI_STDIN ->
  8 <= fr.(fr_all_len) <= c.(fpos) -> 0 <= fr.(fr_len) -> 8 + fr.(fr_len) <= fr.(fr_all_len) ->
  exists r c', read_stdin len fr c = Ret (r, c') /\ body_post len c reads r c' reads.
Proof.
  intros Hc Hrd Hlen Hr0 Hm He H8 E Ht Ha Hn Hna.
  pose proof (payload_head c reads fr Hc Hrd Hm H8 E Ha Hn Hna) as Hpay. rewrite Ht in Hpay. cbn in Hpay.
  pose proof Hc as [Hb Hl Hp Hr]. unfold read_stdin.
  destruct (Z.eqb_spec (fr_len fr) 0) as [E0|E0].
  { eexists _, _. split; [done|]. split; [by split|]. split; [done|].
    rewrite (unread_start c reads), Hpay by done. unfold unread; cbn. rewrite Hr0. done. }
  rewrite UMIN_spec. set (n := Z.min (fr_len fr) len). unfold FCGI_HEADER. rewrite mslice_ok by lia. cbn [obind].
  assert (zlen (ztake n (zdrop 8 (fbuf c))) = n) as Hz by (rewrite zlen_take; rewrite ?zlen_drop; lia).
  assert (ztake (fr_len fr) (zdrop 8 (fbuf c)) =
          ztake n (zdrop 8 (fbuf c)) ++ ztake (fr_len fr - n) (zdrop (8 + n) (fbuf c))) as Hsplit.
  { rewrite <- zdrop_zdrop by lia. symmetry. apply ztake_extend. lia. }
  eexists _, _. split; [done|]. unfold body_post. rewrite (unread_start c reads), Hpay, Hsplit by done.
  cbn [frem setter]. unfold setter. cbn. destruct (Z.eqb_spec (fr_len fr - n) 0) as [E1|E1]; cbn.
  - split; [split; cbn; [by apply bytes_ok_zdrop | rewrite zlen_drop; lia | lia | left; lia]|].
    split; [done|]. split; [|lia]. unfold unread; cbn. rewrite Hm, He, E1, !zdrop_0. cbn. by rewrite app_nil_r.
  - split; [split; cbn; [done | lia | lia | right; lia]|].
    split; [done|]. split; [|lia]. unfold unread; cbn. by rewrite He, <- app_assoc.
Qed.

Lemma read_body_loop_spec e len fuel has_read reads c :
  conn_ok c -> reads_ok reads -> 0 < len -> c.(frem) = 0 -> c.(fmove) = 0 -> c.(feof) = false ->
  zlen (reads_data reads) < Z.of_nat fuel ->
  exists r c' reads', read_body_loop fuel e len has_read reads c = Ret (r, c', reads') /\
    body_post len c reads r c' reads'.
Proof.
  intros Hc Hrd Hlen. revert has_read reads c Hc Hrd.
  induction fuel as [|fuel IH]; intros has_read reads c Hc Hrd Hr0 Hm He Hf;
    [pose proof (zlen_nonneg (reads_data reads)); lia|].
  assert (forall c1, conn_ok c1 -> frem c1 = 0 -> fmove c1 = 0 -> feof c1 = false ->
            unread c1 reads = unread c reads ->
            exists r c' reads',
              match gather reads c1 with
              | inl (r, reads) => Ret (r, c1, reads)
              | inr (reads, c) => read_body_loop fuel e len true reads c
              end = Ret (r, c', reads') /\ body_post len c reads r c' reads') as Hgather.
  { intros c1 Hc1 Hr1 Hm1 He1 Hu. pose proof (gather_spec reads c1 Hc1 Hm1 Hrd) as Hg.
    destruct (gather reads c1) as [[r reads1]|[reads1 c2]].
    - destruct Hg as (Hrd1 & Hd & Hno). eexists _, _, _. split; [done|]. split; [done|]. split; [done|].
      assert (unread c1 reads1 = unread c reads) as Hu1 by (rewrite <- Hu; unfold unread; by rewrite Hd).
      destruct r; try done. split; [done|]. rewrite He1. done.
    - destruct Hg as (Hc2 & Hrd2 & Hm2 & Hr2 & He2 & Hd & Hlt).
      destruct (IH true reads1 c2) as (r & c' & reads' & Ei & Hp1 & Hp2 & Hp3); auto; [congruence.. | lia |].
      exists r, c', reads'. split; [exact Ei|]. split; [done|]. split; [done|].
      assert (unread c2 reads1 = unread c reads) as Hu2.
      { rewrite <- Hu, !unread_start by congruence. by rewrite Hd. }
      rewrite <- Hu2. done. }
  assert (forall c1, conn_ok c1 -> frem c1 = 0 -> fmove c1 = 0 -> feof c1 = false ->
            unread c1 reads = unread c reads ->
            exists r c' reads',
              (if negb has_read then
                 match gather reads c1 with
                 | inl (r, reads) => Ret (r, c1, reads)
                 | inr (reads, c) => read_body_loop fuel e len true reads c
                 end
               else Ret (BodyAgain, c1, reads)) = Ret (r, c', reads') /\ body_post len c reads r c' reads') as Hafter.
  { intros c1 Hc1 Hr1 Hm1 He1 Hu. destruct has_read; cbn [negb]; [|by apply Hgather].
    eexists _, _, _. split; [done|]. by split. }
  cbn [read_body_loop]. pose proof Hc as [Hb Hl Hp Hr]. unfold FCGI_HEADER.
  destruct (Z.leb_spec 8 (fpos c)); [|by apply Hgather].
  destruct (read_record_total (fbuf c) Hb) as (fr & E & Hn & Ha); [lia|]. rewrite E. cbn [obind].
  destruct (Z.leb_spec (fr_all_len fr) (fpos c)).
  - destruct (Z.eqb_spec (fr_type fr) FCGI_STDIN) as [Ht|Ht].
    + destruct (read_stdin_spec len reads c fr) as (r & c' & -> & Hpost); auto; [lia.. |].
      cbn [obind]. by eexists _, _, _.
    + apply Hafter; auto; cbn.
      * split; cbn; auto; [by apply bytes_ok_zdrop | rewrite zlen_drop; lia | lia].
      * rewrite !unread_start by done. cbn.
        rewrite (payload_head c reads fr) by (auto; lia). by rewrite (proj2 (Z.eqb_neq _ _) Ht).
  - destruct (grow_buffer e (fr_all_len fr) c) as [ok c1] eqn:Eg.
    assert (conn_ok c1 /\ frem c1 = 0 /\ fmove c1 = 0 /\ feof c1 = false /\ unread c1 reads = unread c reads) as
      (Hc1 & Hr1 & Hm1 & He1 & Hu1).
    { revert Eg. unfold grow_buffer. repeat case_match; intros [= <- <-]; split_and!; auto;
        split; cbn; auto; rewrite Z.ltb_lt in *; lia. }
    destruct ok; cbn [negb]; [by apply Hafter|]. eexists _, _, _. split; [done|]. by split.
Qed.

Lemma fastcgi_read_body_spec e len reads c :
  conn_ok c -> reads_ok reads -> 0 < len ->
  exists r c' reads', upsgi_proto_fastcgi_read_body e len reads c = Ret (r, c', reads') /\ body_post len c reads r c' reads'.
Proof.
  intros Hc Hrd Hlen. unfold upsgi_proto_fastcgi_read_body. pose proof Hc as [Hb Hl Hp Hr].
  destruct (Z.ltb_spec 0 (frem c)).
  - destruct (read_remains_spec len reads c Hc Hrd Hlen) as (r & c' & -> & Hpost); [lia|]. cbn [obind]. by eexists _, _, _.
  - destruct Hr as [[Hr0 Hm0]|[? _]]; [|lia]. destruct (feof c) eqn:He.
    + eexists _, _, _. split; [done|]. split; [done|]. split; [done|]. split; [done|]. intros _. unfold unread. rewrite Hr0, He. done.
    + apply read_body_loop_spec; auto. unfold zlen. lia.
Qed.

(** The FastCGI body is read exactly: for every way the records arrive,
    with paddings and records of other types between them, each call returns
    the next bytes of the STDIN stream, at most as many as asked for, and
    nothing is lost or repeated; the end of the stream is only reported when
    every byte before it was handed out. *)
Theorem fastcgi_read_body_exact e len reads c :
  conn_ok c -> reads_ok reads -> 0 < len ->
  exists r c' reads', upsgi_proto_fastcgi_read_body e len reads c = Ret (r, c', reads') /\
    conn_ok c' /\ reads_ok reads' /\
    match r with
    | BodyData bs => unread c reads = bs ++ unread c' reads' /\ 0 < zlen bs <= len
    | BodyEnd => unread c' reads' = unread c reads /\ (c'.(feof) = true -> unread c reads = [])
    | BodyAgain | BodyError => unread c' reads' = unread c reads
    end.
Proof. intros Hc Hrd Hlen. exact (fastcgi_read_body_spec e len reads c Hc Hrd Hlen). Qed.

(** A body of two records, the first one padded, arriving in pieces. *)
Definition fenv0 : fcgi_env := mk_fenv 512 (0, 0) (fun _ => true).
Definition stdin_bytes (data : string) (pad : nat) : list Z :=
  [1; 5; 0; 1; 0; zlen (chars data); Z.of_nat pad; 0] ++ chars data ++ replicate pad 0.
Definition fconn0 (received : list Z) : fcgi_conn :=
  mk_fcgi received (zlen received) 512 0 0 0 false (0, 1) (0, 0) packet512.

Lemma fastcgi_read_body_exact_witness :
  exists r c' reads', upsgi_proto_fastcgi_read_body fenv0 3 [Http.RData (chars "lo" ++ [0; 0] ++ stdin_bytes "" 0)]
      (fconn0 (ztake 11 (stdin_bytes "hello" 2))) = Ret (r, c', reads') /\
    conn_ok c' /\ reads_ok reads' /\
    match r with
    | BodyData bs => chars "hello" = bs ++ unread c' reads' /\ 0 < zlen bs <= 3
    | BodyEnd => unread c' reads' = chars "hello" /\ (c'.(feof) = true -> chars "hello" = [])
    | BodyAgain | BodyError => unread c' reads' = chars "hello"
    end.
Proof.
  apply (fastcgi_read_body_exact fenv0 3 [Http.RData (chars "lo" ++ [0; 0] ++ stdin_bytes "" 0)]
    (fconn0 (ztake 11 (stdin_bytes "hello" 2)))); [|by apply bytes_ok_check|lia].
  split; [by apply bytes_ok_check | done | by vm_compute | by left].
Defined.

(** After a record of another type the reader asks the socket again, or gives
    up with [EAGAIN], although the next STDIN record is already there. *)
Theorem fastcgi_read_body_stalls :
  let c := fconn0 ([1; 8; 0; 1; 0; 1; 0; 0; 120] ++ stdin_bytes "hello" 0) in
  unread c [] = chars "hello" /\
  exists c', upsgi_proto_fastcgi_read_body fenv0 100 [Http.RAgain] c = Ret (BodyAgain, c', []).
Proof. split; [vm_compute; reflexivity | eexists; vm_compute; reflexivity]. Qed.

(** * The response *)

(** A STDOUT record, and the bytes on the wire: complete records that carry
    [chunks], then one that lacks its last [missing] bytes. *)
Definition stdout_record (stream : Z * Z) (data : list Z) : list Z := stdout_header stream (zlen data) ++ data.

Definition framed (stream : Z * Z) (out payload : list Z) (missing : Z) : Prop :=
  exists chunks last,
    Forall (fun d => 0 < zlen d <= 65535) chunks /\ payload = concat chunks ++ last /\ 0 <= missing /\
    (if missing =? 0 then last = [] /\ out = chunks ≫= stdout_record stream
     else zlen last + missing <= 65535 /\
          out = (chunks ≫= stdout_record stream) ++ stdout_header stream (zlen last + missing) ++ last).

Lemma framed_more stream out payload missing bs :
  framed stream out payload missing -> 0 < missing -> zlen bs <= missing ->
  framed stream (out ++ bs) (payload ++ bs) (missing - zlen bs).
Proof.
  intros (chunks & last & HF & -> & Hm & Hc) Hpos Hle. zlen_facts.
  destruct (Z.eqb_spec missing 0); [lia|]. destruct Hc as [Hsz ->].
  destruct (decide (zlen bs = missing)) as [E|E].
  - exists (chunks ++ [last ++ bs]), []. rewrite E, Z.sub_diag. split_and!; try done.
    + apply Forall_app. split; [done|]. constructor; [|done]. rewrite zlen_app. lia.
    + rewrite concat_app. cbn. by rewrite !app_nil_r, app_assoc.
    + rewrite bind_app. cbn. unfold stdout_record at 2. rewrite zlen_app, E, app_nil_r, <- !app_assoc. done.
  - exists chunks, (last ++ bs). split_and!; [done | by rewrite app_assoc | lia |].
    destruct (Z.eqb_spec (missing - zlen bs) 0); [lia|]. rewrite zlen_app. split; [lia|].
    rewrite <- !app_assoc. do 3 f_equal. lia.
Qed.

Lemma framed_start stream out payload n :
  framed stream out payload 0 -> 0 < n <= 65535 ->
  framed stream (out ++ stdout_header stream n) payload n.
Proof.
  intros (chunks & last & HF & -> & _ & [-> ->]) Hn. exists chunks, []. split_and!; [done | done | lia |].
  destruct (Z.eqb_spec n 0); [lia|]. split; [change (zlen []) with 0; lia|].
  rewrite app_nil_r. done.
Qed.

(** The calls of [upsgi_proto_fastcgi_write] for one response, as long as the
    answer is [UPSGI_AGAIN].  A write stores at most what is left of the
    record. *)
Definition fio_ok (status len write_pos : Z) (io : wresult) : Prop :=
  match io with Wrote n => n <= (if status =? 0 then Z.min (len - write_pos) 65535 else status) | _ => True end.

Inductive fcgi_run (stream : Z * Z) (buf : list Z) : Z -> Z -> list Z -> Prop :=
| frun_start : fcgi_run stream buf 0 0 []
| frun_again status wp out ok io status' wp' sent :
    fcgi_run stream buf status wp out -> fio_ok status (zlen buf) wp io ->
    upsgi_proto_fastcgi_write stream ok io buf status wp = Ret (UPSGI_AGAIN, status', wp', sent) ->
    fcgi_run stream buf status' wp' (out ++ sent).

Record write_inv (stream : Z * Z) (buf : list Z) (status wp : Z) (out : list Z) : Prop := {
  wi_pos : 0 <= wp <= zlen buf;
  wi_status : 0 <= status <= zlen buf - wp;
  wi_framed : framed stream out (ztake wp buf) status;
}.

Lemma write_frame_step stream buf status wp out ok io ret status' wp' sent :
  0 < zlen buf < 2 ^ 63 -> write_inv stream buf status wp out -> wp < zlen buf ->
  fio_ok status (zlen buf) wp io ->
  upsgi_proto_fastcgi_write stream ok io buf status wp = Ret (ret, status', wp', sent) ->
  ret = -1 \/
  (write_inv stream buf status' wp' (out ++ sent) /\ (ret = UPSGI_OK <-> wp' = zlen buf)).
Proof.
  intros Hb [Hwp Hst Hfr] Hlt Hio. unfold upsgi_proto_fastcgi_write, start_record.
  assert (exists ok' n hdr,
    (if status =? 0 then (ok, u16 (UMIN (zlen buf - wp) 65535),
        if ok then stdout_header stream (u16 (UMIN (zlen buf - wp) 65535)) else [])
     else (true, status, [])) = (ok', n, hdr) /\
    (ok' = false \/ (ok' = true /\ 0 < n <= zlen buf - wp /\ framed stream (out ++ hdr) (ztake wp buf) n /\
       (match io with Wrote w => w <= n | _ => True end)))) as (ok' & n & hdr & -> & Hn).
  { destruct (Z.eqb_spec status 0) as [->|Hne].
    - rewrite UMIN_spec, wrap_small by lia. eexists _, _, _. split; [done|]. destruct ok; [right|by left].
      split_and!; [done | lia | lia | apply framed_start; [done | lia] |].
      unfold fio_ok in Hio. by destruct io.
    - eexists _, _, _. split; [done|]. right. rewrite app_nil_r. split_and!; [done | lia | lia | done |].
      unfold fio_ok in Hio. rewrite (proj2 (Z.eqb_neq _ _) Hne) in Hio. done. }
  destruct Hn as [->|(-> & Hn & Hfr' & Hw)]; cbn [negb]; [intros [= <- _ _ _]; by left|].
  assert (write_inv stream buf n wp (out ++ hdr) /\ (UPSGI_AGAIN = UPSGI_OK <-> wp = zlen buf)) as Hagain.
  { split; [by split; auto; lia|]. split; [done | lia]. }
  destruct io as [w| |]; [|intros [= <- <- <- <-]; by right | intros [= <- _ _ _]; by left].
  destruct (Z.ltb_spec 0 w); [|intros [= <- _ _ _]; by left].
  rewrite mslice_ok by lia. cbn [obind]. rewrite (wrap_small 64) by lia. intros [= <- <- <- <-]. right.
  assert (zlen (ztake w (zdrop wp buf)) = w) as Hz by (rewrite zlen_take; rewrite ?zlen_drop; lia).
  split; [split; [lia | lia |]|].
  - rewrite app_assoc, <- (ztake_extend wp (wp + w)) by lia. replace (wp + w - wp) with w by lia.
    rewrite <- Hz at 3. apply framed_more; [done | lia | lia].
  - destruct (Z.eqb_spec (wp + w) (zlen buf)); [done|]. split; [done | lia].
Qed.

Lemma fcgi_run_inv stream buf status wp out :
  0 < zlen buf < 2 ^ 63 -> fcgi_run stream buf status wp out ->
  write_inv stream buf status wp out /\ wp < zlen buf.
Proof.
  intros Hb. induction 1 as [|status wp out ok io status' wp' sent Hrun [IH Hlt] Hio E].
  - split; [|lia]. split; [lia | lia |]. exists [], []. split_and!; [constructor | done | done | done].
  - destruct (write_frame_step _ _ _ _ _ _ _ _ _ _ _ Hb IH Hlt Hio E) as [?|[Hi Hok]]; [done|].
    split; [done|]. pose proof (wi_pos _ _ _ _ _ Hi). assert (wp' <> zlen buf) by (intros Hw; by apply Hok in Hw). lia.
Qed.

(** The response is framed without loss: whatever partial writes come
    before it, the call that returns [UPSGI_OK] completes a sequence of
    STDOUT records whose data, put together, are exactly the bytes of the
    response; no record is longer than the protocol allows. *)
Theorem fastcgi_write_framed stream buf status wp out ok io status' wp' sent :
  0 < zlen buf < 2 ^ 63 -> fcgi_run stream buf status wp out -> fio_ok status (zlen buf) wp io ->
  upsgi_proto_fastcgi_write stream ok io buf status wp = Ret (UPSGI_OK, status', wp', sent) ->
  exists chunks, Forall (fun d => 0 < zlen d <= 65535) chunks /\ concat chunks = buf /\
    out ++ sent = chunks ≫= stdout_record stream.
Proof.
  intros Hb Hrun Hio E. destruct (fcgi_run_inv _ _ _ _ _ Hb Hrun) as [Hi Hlt].
  destruct (write_frame_step _ _ _ _ _ _ _ _ _ _ _ Hb Hi Hlt Hio E) as [?|[[Hp Hs Hf] Hok]]; [done|].
  assert (wp' = zlen buf) by (by apply Hok). assert (status' = 0) by lia. subst.
  destruct Hf as (chunks & last & HF & Hc & _ & -> & Ho). exists chunks. split_and!; [done | | done].
  rewrite app_nil_r, ztake_all in Hc by lia. done.
Qed.

Lemma fastcgi_write_framed_witness :
  exists chunks, Forall (fun d => 0 < zlen d <= 65535) chunks /\ concat chunks = chars "hello" /\
    stdout_header (0, 1) 5 ++ chars "he" ++ chars "llo" = chunks ≫= stdout_record (0, 1).
Proof.
  apply (fastcgi_write_framed (0, 1) (chars "hello") 3 2 (stdout_header (0, 1) 5 ++ chars "he") true (Wrote 3) 0 5 (chars "llo"));
    [by vm_compute | | by vm_compute | by vm_compute].
  apply (frun_again _ _ 0 0 [] true (Wrote 2)); [constructor | by vm_compute | by vm_compute].
Defined.
End FastcgiProofs.
