(* ===== verification/Reader.v ===== *)
(** The reader of request bodies (core/reader.c): [read], [readline] and
    [seek] on the connection, on a temporary file or on memory, and the two
    functions that buffer a body before the request is served.

    The connection is known through the interface [BodySource], the scheduler
    through [ReadSched]. *)
From S2P Require Import Prelude Clib Buffer BodySched ProtoBase Chunked Http Fastcgi FastcgiProofs.

(** * The connection, as the reader sees it *)

(** The result of [proto_read_body], with [errno]. *)
Inductive recv_result : Type :=
| Received (bs : list Z)
| PeerClosed
| WouldBlock
| ReadFailed.

Class BodySource (C : Type) : Type := proto_read_body : Z -> C -> outcome (recv_result * C).

(** What a protocol promises: the bytes of the body come in order, none is
    lost or repeated, and a call gives at most as many as asked for. *)
Class BodySourceOk (C : Type) `{BodySource C} : Type := {
  src_inv : C -> Prop;
  pending : C -> list Z;
  src_ok len c : src_inv c -> 0 < len < 2 ^ 64 ->
    exists r c', proto_read_body len c = Ret (r, c') /\ src_inv c' /\
      match r with
      | Received bs => pending c = bs ++ pending c' /\ 0 < zlen bs <= len
      | _ => pending c' = pending c
      end;
}.

(** ** HTTP and the other protocols with a plain body *)

(** [proto_parser_remains_buf], and what the next calls of [read] find. *)
Record base_conn : Type := mk_base_conn {
  parser_remains : list Z;
  reads : list Http.read_result;
}.

(** [read(fd, buf, len)]: the result, the bytes, [errno] is [EAGAIN]. *)
Definition sys_read (len : Z) (reads : list Http.read_result) : Z * list Z * bool * list Http.read_result :=
  match reads with
  | [] | Http.RAgain :: _ => (-1, [], true, tail reads)
  | Http.RError :: reads => (-1, [], false, reads)
  | Http.REof :: _ => (0, [], false, reads)
  | Http.RData bs :: reads' =>
      let got := ztake len bs in
      (zlen got, got, false, if zlen bs <=? len then reads' else Http.RData (zdrop len bs) :: reads')
  end.

#[export] Instance base_source : BodySource base_conn := fun len c =>
  let '(n, bs, again, rs) := sys_read len c.(reads) in
  let '(m, got, more) := ProtoBase.upsgi_proto_base_read_body c.(parser_remains) len (n, bs) in
  let rs := if 0 <? zlen c.(parser_remains) then c.(reads) else rs in
  Ret (if 0 <? m then Received got else if m =? 0 then PeerClosed else if again then WouldBlock else ReadFailed,
       mk_base_conn more rs).

(** ** FastCGI *)

Record fcgi_source : Type := mk_fcgi_source {
  fs_env : Fastcgi.fcgi_env;
  fs_conn : Fastcgi.fcgi_conn;
  fs_reads : list Http.read_result;
}.

#[export] Instance fastcgi_source : BodySource fcgi_source := fun len c =>
  let* (r, conn, rs) := Fastcgi.upsgi_proto_fastcgi_read_body c.(fs_env) len c.(fs_reads) c.(fs_conn) in
  Ret (match r with
       | Fastcgi.BodyData bs => Received bs
       | Fastcgi.BodyEnd => PeerClosed
       | Fastcgi.BodyAgain => WouldBlock
       | Fastcgi.BodyError => ReadFailed
       end, mk_fcgi_source c.(fs_env) conn rs).

Module Reader.

(** * State *)

Record reader_conf : Type := mk_rconf {
  buffer_size : Z;
  post_buffering : Z;
  post_buffering_bufsize : Z;
  body_read_warning : Z;
}.

Section reader.
Context {S C : Type} `{ReadSched S} `{BodySource C}.

(** The fields of [struct wsgi_request].  [post_file] is the contents of the
    temporary file and the position in it; [waits] are the results of the
    next calls of [upsgi_wait_read_req], which times out behind the last
    one. *)
Record reader : Type := mk_reader {
  post_cl : Z;
  post_pos : Z;
  post_readline_buf : option (list Z);
  post_readline_size : Z;
  post_readline_watermark : Z;
  post_readline_pos : Z;
  post_read_buf : option (list Z);
  post_read_buf_size : Z;
  post_file : option (list Z * Z);
  post_buffering_buf : list Z;
  read_errors : Z;
  post_warning : bool;
  sd : S;
  conn : C;
  waits : list Z;
}.
#[export] Instance expand_reader : Expand reader := fun r =>
  mk_reader (post_cl r) (post_pos r) (post_readline_buf r) (post_readline_size r) (post_readline_watermark r)
    (post_readline_pos r) (post_read_buf r) (post_read_buf_size r) (post_file r) (post_buffering_buf r) (read_errors r)
    (post_warning r) (sd r) (conn r) (waits r).

Context (env : heap_env) (rc : reader_conf).

(** The memory behind a pointer that may be [NULL]. *)
Definition block (p : option (list Z)) : list Z := default [] p.

Definition read_error (r : reader) : reader := r<|read_errors := u64 (r.(read_errors) + 1)|>.

(** What a caller gets: [upsgi.empty], [NULL] with [*rlen], or the bytes
    behind the pointer.  [*rlen] is zero before a call. *)
Inductive body_ptr : Type :=
| PEmpty
| PNull (rlen : Z)
| PBytes (bs : list Z).

(** * Receiving

    The first [proto_read_body], and those after the waits at [wait:]; the
    flag tells them apart. *)
Inductive attempt : Type :=
| Got (bs : list Z)
| Closed (waited : bool)
| Failed (waited : bool)
| WaitTimeout
| WaitError.

Fixpoint recv_waiting (waits : list Z) (remains : Z) (sd : S) (c : C) : outcome (attempt * S * C * list Z) :=
  match waits with
  | [] => Ret (WaitTimeout, sd, c, [])
  | ret :: waits =>
      if 0 <? ret then
        let '(read_budget, sd) := rs_budget remains sd in
        let* (res, c) := proto_read_body read_budget c in
        match res with
        | Received bs => Ret (Got bs, rs_bytes (zlen bs) sd, c, waits)
        | PeerClosed => Ret (Closed true, rs_empty sd, c, waits)
        | WouldBlock => recv_waiting waits remains (rs_eagain sd) c
        | ReadFailed => Ret (Failed true, sd, c, waits)
        end
      else Ret (if ret =? 0 then WaitTimeout else WaitError, sd, c, waits)
  end.

Definition recv (remains : Z) (r : reader) : outcome (attempt * reader) :=
  let '(read_budget, s) := rs_budget remains r.(sd) in
  let* (res, c) := proto_read_body read_budget r.(conn) in
  let upd s c := r<|sd := s|><|conn := c|> in
  match res with
  | Received bs => Ret (Got bs, upd (rs_bytes (zlen bs) s) c)
  | PeerClosed => Ret (Closed false, upd (rs_empty s) c)
  | WouldBlock =>
      let* (a, s, c, ws) := recv_waiting r.(waits) remains (rs_eagain s) c in
      Ret (a, (upd s c)<|waits := ws|>)
  | ReadFailed => Ret (Failed false, upd s c)
  end.

(** [fread(ptr, n, 1, file)]: its result, the bytes that reach the memory and
    the file. *)
Definition fread (n : Z) (f : list Z * Z) : Z * list Z * (list Z * Z) :=
  let '(data, at_pos) := f in
  let got := ztake n (zdrop at_pos data) in
  (if (0 <? n) && (zlen got =? n) then 1 else 0, got, (data, at_pos + zlen got)).

(** The block of a buffer has grown past [body_read_warning] megabytes. *)
Definition warn (size : Z) (r : reader) : reader :=
  if negb r.(post_warning) && (u64 (rc.(body_read_warning) * (1024 * 1024)) <? size) then r<|post_warning := true|> else r.

(** * [upsgi_request_body_seek_do] *)

Inductive whence : Type := SEEK_SET | SEEK_CUR | SEEK_END | SEEK_OTHER.

Definition upsgi_request_body_seek_do (off : Z) (wh : whence) (r : reader) : Z * reader :=
  match r.(post_file) with
  | Some (data, at_pos) =>
      let new := match wh with
                 | SEEK_SET => Some off | SEEK_CUR => Some (at_pos + off) | SEEK_END => Some (zlen data + off)
                 | SEEK_OTHER => None
                 end in
      match new with
      | Some n => if (0 <=? n) && (n <? 2 ^ 63) then (0, r<|post_file := Some (data, n)|><|post_pos := n|>) else (-1, read_error r)
      | None => (-1, read_error r)
      end
  | None =>
      if negb (rc.(post_buffering) =? 0) then
        let new := match wh with
                   | SEEK_SET => Some off
                   | SEEK_CUR => Some (i64 (i64 r.(post_pos) + off))
                   | SEEK_END => Some (i64 (i64 r.(post_cl) + off))
                   | SEEK_OTHER => None
                   end in
        match new with
        | Some n => if n <? 0 then (-1, r) else if i64 r.(post_cl) <? n then (-1, r) else (0, r<|post_pos := n|>)
        | None => (-1, r)
        end
      else (-1, r)
  end.

Definition upsgi_request_body_seek (off : Z) (r : reader) : reader := (upsgi_request_body_seek_do off SEEK_SET r).2.

(** * [readline] *)

(** The first part of [consume_body_for_readline]. *)
Definition grow_readline (remains : Z) (r : reader) : outcome (Z * reader) :=
  if u64 (r.(post_readline_size) - r.(post_readline_watermark)) =? 0 then
    let* rest := mslice (block r.(post_readline_buf)) r.(post_readline_pos) (u64 (r.(post_readline_watermark) - r.(post_readline_pos))) in
    let* b := mwrite (block r.(post_readline_buf)) 0 rest in
    let r := r<|post_readline_buf := Some b|><|post_readline_watermark := u64 (r.(post_readline_watermark) - r.(post_readline_pos))|>
              <|post_readline_pos := 0|> in
    (* still something to use? *)
    if u64 (r.(post_readline_size) - r.(post_readline_watermark)) <? remains then
      let size := u64 (r.(post_readline_size) + remains) in
      match realloc env (block r.(post_readline_buf)) size with
      | None => Ret (-1, r)
      | Some b => Ret (0, warn size (r<|post_readline_buf := Some b|><|post_readline_size := size|>))
      end
    else Ret (0, r)
  else Ret (0, r).

(** [n] more bytes of the body are in the buffer. *)
Definition consumed (bs : list Z) (n : Z) (r : reader) : outcome (Z * reader) :=
  let* b := mwrite (block r.(post_readline_buf)) r.(post_readline_watermark) bs in
  Ret (0, r<|post_readline_buf := Some b|><|post_pos := u64 (r.(post_pos) + n)|>
           <|post_readline_watermark := u64 (r.(post_readline_watermark) + n)|>).

Definition consume_body_for_readline (r : reader) : outcome (Z * reader) :=
  let remains := UMIN rc.(buffer_size) (u64 (r.(post_cl) - r.(post_pos))) in
  let* (ret, r) := grow_readline remains r in
  if negb (ret =? 0) then Ret (-1, r)
  else
    let remains := UMIN (u64 (r.(post_readline_size) - r.(post_readline_watermark))) (u64 (r.(post_cl) - r.(post_pos))) in
    match r.(post_file) with
    | Some f =>
        let '(n, bs, f) := fread remains f in
        let r := r<|post_file := Some f|> in
        if n =? 0 then
          let* b := mwrite (block r.(post_readline_buf)) r.(post_readline_watermark) bs in Ret (-1, r<|post_readline_buf := Some b|>)
        else consumed bs remains r
    | None =>
        if negb (rc.(post_buffering) =? 0) then
          let* bs := mslice r.(post_buffering_buf) r.(post_pos) remains in consumed bs remains r
        else
          let* (a, r) := recv remains r in
          match a with
          | Got bs => consumed bs (zlen bs) r
          | Closed _ | Failed _ | WaitError => Ret (-1, read_error r)
          | WaitTimeout => Ret (-1, r)
          end
    end.

(** The search for a newline in the bytes that are left. *)
Definition take_line (r : reader) : outcome (option (list Z) * reader) :=
  let* live := mslice (block r.(post_readline_buf)) r.(post_readline_pos) (u64 (r.(post_readline_watermark) - r.(post_readline_pos))) in
  match memchr live LF with
  | Some i =>
      let rlen := i + 1 in
      let r := r<|post_readline_pos := u64 (r.(post_readline_pos) + rlen)|> in
      let r := if r.(post_readline_watermark) <=? r.(post_readline_pos)
               then r<|post_readline_pos := 0|><|post_readline_watermark := 0|> else r in
      Ret (Some (ztake rlen live), r)
  | None => Ret (None, r)
  end.

(** [for(;;)]; every iteration reads at least one byte of the body. *)
Fixpoint readline_loop (fuel : nat) (r : reader) : outcome (body_ptr * reader) :=
  match fuel with
  | O => NoFuel
  | Datatypes.S fuel =>
      if r.(post_cl) <=? r.(post_pos) then
        (* no line found, let's return all *)
        let* bs := mslice (block r.(post_readline_buf)) r.(post_readline_pos) (u64 (r.(post_readline_watermark) - r.(post_readline_pos))) in
        Ret (PBytes bs, r<|post_readline_pos := 0|>)
      else
        let* (ret, r) := consume_body_for_readline r in
        if negb (ret =? 0) then Ret (PNull (-1), read_error r)
        else
          let* (line, r) := take_line r in
          match line with
          | Some bs => Ret (PBytes bs, r)
          | None => readline_loop fuel r
          end
  end.

(** No body, or all of it was given to the caller. *)
Definition exhausted (r : reader) : bool :=
  ((r.(post_cl) =? 0) || (r.(post_cl) <=? r.(post_pos))) && (r.(post_readline_pos) =? 0).

Definition upsgi_request_body_readline (r : reader) : outcome (body_ptr * reader) :=
  if exhausted r then Ret (PEmpty, r)
  else
    let* (line, r) := if 0 <? r.(post_readline_pos) then take_line r else Ret (None, r) in
    match line with
    | Some bs => Ret (PBytes bs, r)
    | None =>
        let fuel := Datatypes.S (Z.to_nat (r.(post_cl) - r.(post_pos))) in
        match r.(post_readline_buf) with
        | Some _ => readline_loop fuel r
        | None =>
            let amount := UMIN rc.(buffer_size) r.(post_cl) in
            match malloc env amount with
            | None => Ret (PNull (-1), read_error r)
            | Some b => readline_loop fuel (r<|post_readline_buf := Some b|><|post_readline_size := amount|>)
            end
        end
    end.

(** * [read] *)

(** [while(remains > 0)]; every iteration reads at least one byte. *)
Fixpoint read_loop (fuel : nat) (remains rlen : Z) (r : reader) : outcome (body_ptr * reader) :=
  match fuel with
  | O => NoFuel
  | Datatypes.S fuel =>
      if remains <=? 0 then let* bs := mslice (block r.(post_read_buf)) 0 rlen in Ret (PBytes bs, r)
      else
        let* (a, r) := recv remains r in
        match a with
        | Got bs =>
            let* b := mwrite (block r.(post_read_buf)) rlen bs in
            read_loop fuel (u64 (remains - zlen bs)) (rlen + zlen bs)
              (r<|post_read_buf := Some b|><|post_pos := u64 (r.(post_pos) + zlen bs)|>)
        | Closed _ => Ret (PNull (-1), r)
        | Failed _ | WaitError => Ret (PNull (-1), read_error r)
        | WaitTimeout => Ret (PNull 0, r)
        end
  end.

(** The block of [read] holds at least [size] bytes. *)
Definition grow_read_buf (size : Z) (r : reader) : Z * reader :=
  match realloc env (block r.(post_read_buf)) size with
  | None => (-1, read_error r)
  | Some b => (0, warn size (r<|post_read_buf := Some b|><|post_read_buf_size := size|>))
  end.

(** What [readline] has left is moved to the block of [read]: [*rlen] and the
    bytes that are still wanted. *)
Definition move_residual (remains : Z) (r : reader) : outcome (Z * Z * Z * reader) :=
  let avail := u64 (r.(post_readline_watermark) - r.(post_readline_pos)) in
  let '(ret, r) := if r.(post_read_buf_size) <? avail then grow_read_buf avail r else (0, r) in
  if negb (ret =? 0) then Ret (-1, 0, 0, r)
  else
    let* bs := mslice (block r.(post_readline_buf)) r.(post_readline_pos) avail in
    let* b := mwrite (block r.(post_read_buf)) 0 bs in
    let read_buf := match r.(post_read_buf) with None => None | Some _ => Some b end in
    Ret (0, if 0 <? remains then u64 (remains - avail) else remains, avail,
         r<|post_read_buf := read_buf|><|post_readline_pos := 0|><|post_readline_watermark := 0|>).

(** The block for the rest, behind [rlen] bytes. *)
Definition prepare_read_buf (remains rlen : Z) (r : reader) : Z * reader :=
  match r.(post_read_buf) with
  | None =>
      match malloc env remains with
      | None => (-1, read_error r)
      | Some b => (0, r<|post_read_buf := Some b|><|post_read_buf_size := remains|>)
      end
  | Some _ => if r.(post_read_buf_size) <? u64 (remains + rlen) then grow_read_buf (u64 (remains + rlen)) r else (0, r)
  end.

(** From the residual data on: [rlen] bytes are in the block of [read]. *)
Definition read_rest (remains rlen : Z) (r : reader) : outcome (body_ptr * reader) :=
  let remains := if r.(post_cl) <? u64 (remains + r.(post_pos)) then u64 (r.(post_cl) - r.(post_pos)) else remains in
  if remains =? 0 then
    if 0 <? rlen then let* bs := mslice (block r.(post_read_buf)) 0 rlen in Ret (PBytes bs, r)
    else Ret (PEmpty, r)
  else if (0 <? rc.(post_buffering)) && match r.(post_file) with None => true | Some _ => false end then
    let* bs := mslice r.(post_buffering_buf) r.(post_pos) (rlen + remains) in
    Ret (PBytes bs, r<|post_pos := u64 (r.(post_pos) + remains)|>)
  else
    let '(ret, r) := prepare_read_buf remains rlen r in
    if negb (ret =? 0) then Ret (PNull (-1), r)
    else
      match r.(post_file) with
      | Some f =>
          let '(n, got, f) := fread remains f in
          let* b := mwrite (block r.(post_read_buf)) rlen got in
          let r := r<|post_file := Some f|><|post_read_buf := Some b|> in
          if negb (n =? 1) then Ret (PNull (-1), read_error r)
          else
            let* bs := mslice b 0 (rlen + remains) in
            Ret (PBytes bs, r<|post_pos := u64 (r.(post_pos) + remains)|>)
      | None => read_loop (Datatypes.S (Z.to_nat remains)) remains rlen r
      end.

(** The part of [upsgi_request_body_read] for a body with a length. *)
Definition body_read_plain (hint : Z) (r : reader) : outcome (body_ptr * reader) :=
  if exhausted r then Ret (PEmpty, r)
  else
    let remains := u64 hint in
    (* return the whole input *)
    let remains := if remains <=? 0 then r.(post_cl) else remains in
    if 0 <? r.(post_readline_pos) then
      if remains <=? u64 (r.(post_readline_watermark) - r.(post_readline_pos)) then
        let* bs := mslice (block r.(post_readline_buf)) r.(post_readline_pos) remains in
        Ret (PBytes bs, r<|post_readline_pos := u64 (r.(post_readline_pos) + remains)|>)
      else
        let* (ret, remains, rlen, r) := move_residual remains r in
        if negb (ret =? 0) then Ret (PNull (-1), r) else read_rest remains rlen r
    else read_rest remains 0 r.

(** ** Chunked bodies *)

Record chunked_reader : Type := mk_chunked_reader {
  body : Chunked.body_reader (S := S);
  chunk_read_buf : option (list Z);
  chunk_read_buf_size : Z;
  chunk_read_errors : Z;
  chunk_complete : bool;
}.

(** The bytes that are still to come bound the number of chunks. *)
Definition smart_fuel (b : Chunked.body_reader (S := S)) : nat :=
  2 + Z.to_nat b.(Chunked.stream).(Chunked.input).(pos) + length (Chunked.sock_data b.(Chunked.stream).(Chunked.sock)).

(** The first part of [upsgi_request_body_read]; the last field stands for
    [upsgi_body_sched_note_chunked_complete]. *)
Definition body_read_chunked (limit hint : Z) (r : chunked_reader) : outcome (body_ptr * chunked_reader) :=
  let remains := u64 hint in
  let remains := if remains <=? 0 then env.(page_size) else remains in
  let failed (r : chunked_reader) := mk_chunked_reader (body r) (chunk_read_buf r) (chunk_read_buf_size r) (u64 (chunk_read_errors r + 1)) (chunk_complete r) in
  let grown :=
    match r.(chunk_read_buf) with
    | Some b => if r.(chunk_read_buf_size) <? remains then (fun b => (b, remains)) <$> realloc env b remains else Some (b, r.(chunk_read_buf_size))
    | None => (fun b => (b, remains)) <$> realloc env [] remains
    end in
  match grown with
  | None => Ret (PNull (-1), failed r)
  | Some (b, size) =>
      let* (chunk, bd) := Chunked.upsgi_chunked_read_smart (smart_fuel r.(body)) env limit remains r.(body) in
      let r := mk_chunked_reader bd (Some b) size r.(chunk_read_errors) r.(chunk_complete) in
      match chunk with
      | None => Ret (PNull (-1), failed r)
      | Some ub =>
          if ub.(pos) =? 0 then Ret (PEmpty, mk_chunked_reader bd (Some b) size r.(chunk_read_errors) true)
          else
            let* src := mslice ub.(buf) 0 ub.(pos) in
            let* b := mwrite b 0 src in
            let* bs := mslice b 0 ub.(pos) in
            Ret (PBytes bs, mk_chunked_reader bd (Some b) size r.(chunk_read_errors) r.(chunk_complete))
      end
  end.

(** * Post buffering *)

(** The loop of [upsgi_postbuffer_do_in_mem]; [ptr] is an offset. *)
Fixpoint in_mem_loop (fuel : nat) (remains ptr : Z) (r : reader) : outcome (Z * reader) :=
  match fuel with
  | O => NoFuel
  | Datatypes.S fuel =>
      if remains <=? 0 then Ret (0, r)
      else
        let* (a, r) := recv remains r in
        match a with
        | Got bs =>
            let* b := mwrite r.(post_buffering_buf) ptr bs in
            in_mem_loop fuel (u64 (remains - zlen bs)) (ptr + zlen bs) (r<|post_buffering_buf := b|>)
        | Failed false | WaitError => Ret (-1, read_error r)
        | Closed _ | Failed true | WaitTimeout => Ret (-1, r)
        end
  end.

Definition upsgi_postbuffer_do_in_mem (r : reader) : outcome (Z * reader) :=
  let remains := r.(post_cl) in
  if rc.(post_buffering_bufsize) <? remains then
    match malloc env remains with
    | None => Ret (-1, read_error r)
    | Some b => in_mem_loop (Datatypes.S (Z.to_nat remains)) remains 0 (r<|post_buffering_buf := b|>)
    end
  else in_mem_loop (Datatypes.S (Z.to_nat remains)) remains 0 r.

(** The loop of [upsgi_postbuffer_do_in_disk]; [fwrite_ok] is whether the file
    of that many bytes can grow by so many. *)
Fixpoint in_disk_loop (fwrite_ok : Z -> Z -> bool) (fuel : nat) (post_remains : Z) (r : reader) : outcome (Z * reader) :=
  match fuel with
  | O => NoFuel
  | Datatypes.S fuel =>
      if post_remains <=? 0 then
        (* rewind *)
        Ret (0, r<|post_file := (fun f => (f.1, 0)) <$> r.(post_file)|>)
      else
        let remains := UMIN post_remains rc.(post_buffering_bufsize) in
        let* (a, r) := recv remains r in
        match a with
        | Got bs =>
            let* b := mwrite r.(post_buffering_buf) 0 bs in
            let r := r<|post_buffering_buf := b|> in
            let '(data, at_pos) := default ([], 0) r.(post_file) in
            if fwrite_ok (zlen data) (zlen bs) then
              in_disk_loop fwrite_ok fuel (u64 (post_remains - zlen bs)) (r<|post_file := Some (data ++ bs, at_pos + zlen bs)|>)
            else Ret (-1, read_error r)
        | Closed _ => Ret (-1, r)
        | Failed _ | WaitError => Ret (-1, read_error r)
        | WaitTimeout => Ret (-1, r)
        end
  end.

(** [tmpfile_ok]: [upsgi_tmpfile] succeeds. *)
Definition upsgi_postbuffer_do_in_disk (tmpfile_ok : bool) (fwrite_ok : Z -> Z -> bool) (r : reader) : outcome (Z * reader) :=
  if negb tmpfile_ok then Ret (-1, read_error (r<|post_file := None|>))
  else in_disk_loop fwrite_ok (Datatypes.S (Z.to_nat r.(post_cl))) r.(post_cl) (r<|post_file := Some ([], 0)|>).

(** The choice in [upsgi_parse_vars] (core/protocol.c). *)
Definition post_buffer (tmpfile_ok : bool) (fwrite_ok : Z -> Z -> bool) (r : reader) : outcome (Z * reader) :=
  match r.(post_file) with
  | None =>
      if 0 <? rc.(post_buffering) then
        let* (ret, r) := if rc.(post_buffering) <=? r.(post_cl) then upsgi_postbuffer_do_in_disk tmpfile_ok fwrite_ok r
                         else upsgi_postbuffer_do_in_mem r in
        Ret (if negb (ret =? 0) then -1 else 0, r)
      else Ret (0, r)
  | Some _ => Ret (0, r)
  end.

End reader.
Arguments reader S C : clear implicits.
#[export] Existing Instance expand_reader.
Arguments chunked_reader S : clear implicits.

End Reader.
