(* ===== verification/ReaderProofs.v ===== *)
(** The theorems on the reader of request bodies: whatever the pieces in which
    a body arrives and the buffers it goes through, [read] and [readline] hand
    out its bytes in order. *)
From S2P Require Import Prelude Clib Buffer BodySched ProtoBase Chunked Http Fastcgi FastcgiProofs Reader.

(** * The protocols keep the promise of [BodySource] *)

Lemma sys_read_spec len rs n bs again rs' :
  0 < len -> sys_read len rs = (n, bs, again, rs') ->
  Fastcgi.reads_data rs = bs ++ Fastcgi.reads_data rs' /\ (0 < n -> n = zlen bs) /\ (n <= 0 -> bs = []) /\ n <= len.
Proof.
  intros Hl. destruct rs as [|[d| | |] rs]; cbn; [by intros [= <- <- <- <-]; split_and!; [..|lia] | | by intros [= <- <- <- <-]; split_and!; [..|lia] ..].
  intros [= <- <- <- <-]. unfold Fastcgi.reads_data. cbn. pose proof (zlen_nonneg d). split_and!.
  - destruct (Z.leb_spec (zlen d) len); [by rewrite ztake_all by lia|]. cbn. by rewrite app_assoc, ztake_zdrop.
  - done.
  - intros Hn. apply zlen_zero_inv. pose proof (zlen_nonneg (ztake len d)). lia.
  - destruct (Z.leb_spec (zlen d) len); [rewrite ztake_all by lia | rewrite zlen_take by lia]; lia.
Qed.

#[export] Instance base_source_ok : BodySourceOk base_conn.
Proof.
  refine {| src_inv _ := True; pending c := c.(parser_remains) ++ Fastcgi.reads_data c.(reads) |}.
  intros len c _ Hl. unfold proto_read_body, base_source, ProtoBase.upsgi_proto_base_read_body.
  destruct (sys_read len (reads c)) as [[[n bs] again] rs] eqn:E. apply sys_read_spec in E as (Hd & Hn & Hz & Hle); [|lia].
  pose proof (zlen_nonneg (parser_remains c)) as Hp. destruct (Z.ltb_spec 0 (zlen (parser_remains c))) as [Hr|Hr].
  - rewrite UMIN_spec. destruct (Z.ltb_spec 0 (Z.min (zlen (parser_remains c)) len)); [|lia].
    eexists _, _. split; [done|]. split; [done|]. cbn. rewrite app_assoc, ztake_zdrop. split; [done|]. rewrite zlen_take; lia.
  - assert (parser_remains c = []) as -> by (apply zlen_zero_inv; lia). cbn.
    destruct (Z.ltb_spec 0 n) as [H0|H0]; [|destruct (Z.eqb_spec n 0), again]; eexists _, _; (split; [done|]); (split; [done|]); cbn.
    1: { split; [done|]. rewrite <- Hn; lia. }
    all: by rewrite Hd, Hz.
Defined.

#[export] Instance fastcgi_source_ok : BodySourceOk fcgi_source.
Proof.
  refine {| src_inv c := FastcgiProofs.conn_ok c.(fs_conn) /\ FastcgiProofs.reads_ok c.(fs_reads);
            pending c := FastcgiProofs.unread c.(fs_conn) c.(fs_reads) |}.
  intros len c [Hc Hr] Hl. unfold proto_read_body, fastcgi_source.
  destruct (FastcgiProofs.fastcgi_read_body_spec (fs_env c) len (fs_reads c) (fs_conn c) Hc Hr) as (r & c' & rs & -> & Hc' & Hr' & Hp); [lia|].
  cbn [obind]. eexists _, _. split; [done|]. split; [done|]. cbn. by destruct r as [bs| | |]; [|destruct Hp| |].
Defined.

Module ReaderProofs.
Import Reader.

(** * Parts of a block *)

Definition slice (m : list Z) (a b : Z) : list Z := ztake (b - a) (zdrop a m).

Lemma slice_len m a b : 0 <= a <= b -> b <= zlen m -> zlen (slice m a b) = b - a.
Proof. intros. unfold slice. rewrite zlen_take; [done|]. rewrite zlen_drop; lia. Qed.

Lemma slice_empty m a : slice m a a = [].
Proof. unfold slice. by rewrite Z.sub_diag. Qed.

Lemma slice_split m a b c : 0 <= a <= b -> b <= c -> slice m a c = slice m a b ++ slice m b c.
Proof.
  intros. unfold slice. rewrite <- (ztake_extend (b - a) (c - a)) by lia. rewrite zdrop_zdrop by lia.
  by replace (c - a - (b - a)) with (c - b) by lia; replace (a + (b - a)) with b by lia.
Qed.

Lemma mslice_slice m a b : 0 <= a <= b -> b <= zlen m -> mslice m a (b - a) = Ret (slice m a b).
Proof. intros. apply mslice_ok; lia. Qed.

Lemma slice_prefix m k a b : 0 <= a <= b -> b <= zlen m -> slice (m ++ k) a b = slice m a b.
Proof. intros. unfold slice. rewrite zdrop_app_le by lia. rewrite ztake_app_le by (rewrite zlen_drop; lia). done. Qed.

(** A store behind [b] extends a part that ends there. *)
Lemma slice_write m a b bs : 0 <= a <= b -> b + zlen bs <= zlen m ->
  exists m', mwrite m b bs = Ret m' /\ zlen m' = zlen m /\ slice m' a (b + zlen bs) = slice m a b ++ bs /\ ztake b m' = ztake b m.
Proof.
  intros. zlen_facts. eexists. assert (mwrite m b bs = Ret (ztake b m ++ bs ++ zdrop (b + zlen bs) m)) as E by (apply mwrite_ok; lia).
  split; [exact E|]. split; [by apply mwrite_len in E|].
  assert (zlen (ztake b m) = b) as Hz by (rewrite zlen_take; lia). split; [|by rewrite ztake_app_length].
  rewrite (slice_split _ a b) by lia. f_equal.
  - rewrite slice_prefix by lia. unfold slice.
    rewrite <- (ztake_zdrop b m) at 2. rewrite zdrop_app_le by lia. rewrite ztake_app_le; [done|]. rewrite zlen_drop; lia.
  - unfold slice. rewrite zdrop_app_length by lia. rewrite ztake_app_length; [done | lia].
Qed.

(** A part moved to the start of its block. *)
Lemma slice_move m a b : 0 <= a <= b -> b <= zlen m ->
  exists m', mwrite m 0 (slice m a b) = Ret m' /\ zlen m' = zlen m /\ slice m' 0 (b - a) = slice m a b.
Proof.
  intros Ha Hb. assert (zlen (slice m a b) = b - a) as Hz by (by apply slice_len).
  destruct (slice_write m 0 0 (slice m a b)) as (m' & E & Hl & Hs & _); [lia | lia|].
  exists m'. split; [done|]. split; [done|]. rewrite Z.add_0_l, Hz in Hs. by rewrite Hs, slice_empty.
Qed.

Lemma realloc_slice env old n b a c : realloc env old n = Some b -> zlen old <= n -> 0 <= a <= c -> c <= zlen old ->
  zlen b = n /\ slice b a c = slice old a c.
Proof.
  unfold realloc. destruct (alloc_ok env n); [|done]. intros [= <-] Hn Ha Hc. zlen_facts.
  rewrite ztake_all by lia. rewrite zlen_app, zlen_rep by lia. split; [lia|]. by apply slice_prefix.
Qed.

Lemma malloc_len env n b : malloc env n = Some b -> 0 <= n -> zlen b = n.
Proof. unfold malloc. destruct (alloc_ok env n); [|done]. intros [= <-] Hn. by apply zlen_rep. Qed.

(** ** Lines *)

Definition line_of (l : list Z) : list Z := match memchr l LF with Some i => ztake (i + 1) l | None => l end.

Lemma memchr_app_found l k c i : memchr l c = Some i -> memchr (l ++ k) c = Some i.
Proof.
  revert i. induction l as [|x l IH]; intros i; cbn; [done|]. destruct (x =? c); [done|].
  destruct (memchr l c) as [j|]; [|done]. cbn. intros [= <-]. by rewrite (IH j).
Qed.

Lemma line_of_app l k i : memchr l LF = Some i -> line_of (l ++ k) = ztake (i + 1) l.
Proof.
  intros E. unfold line_of. rewrite (memchr_app_found _ _ _ _ E). apply memchr_Some in E as (Hi & _). apply ztake_app_le. lia.
Qed.

Section proofs.
Context {S C : Type} `{HR : ReadSched S} `{HO : !ReadSchedOk S} `{HB : BodySource C} `{HBO : !BodySourceOk C}.
Context (env : heap_env) (rc : reader_conf).

(** * The state between two calls *)

(** The bytes of the body in the block of [readline]. *)
Definition live (r : reader S C) : list Z := slice (block r.(post_readline_buf)) r.(post_readline_pos) r.(post_readline_watermark).
Definition residual (r : reader S C) : list Z := if 0 <? r.(post_readline_pos) then live r else [].

(** The bytes of the body that were not taken yet: in the file, in memory or
    on the connection. *)
Definition rest (r : reader S C) : list Z :=
  match r.(post_file) with
  | Some (data, _) => slice data r.(post_pos) r.(post_cl)
  | None => if 0 <? rc.(post_buffering) then slice r.(post_buffering_buf) r.(post_pos) r.(post_cl)
            else ztake (r.(post_cl) - r.(post_pos)) (pending r.(conn))
  end.

(** What the callers have not seen. *)
Definition unread (r : reader S C) : list Z := residual r ++ rest r.

Record reader_ok (r : reader S C) : Prop := {
  ok_sched : rs_inv r.(sd);
  ok_conn : src_inv r.(conn);
  ok_pos : 0 <= r.(post_pos) <= r.(post_cl);
  ok_cl : r.(post_cl) < 2 ^ 60;
  ok_size : zlen (block r.(post_readline_buf)) = r.(post_readline_size);
  ok_window : 0 <= r.(post_readline_pos) <= r.(post_readline_watermark) /\ r.(post_readline_watermark) <= r.(post_readline_size);
  ok_bound : r.(post_readline_size) <= r.(post_cl) + rc.(buffer_size);
  ok_taken : r.(post_pos) < r.(post_cl) \/ 0 < r.(post_readline_pos) -> r.(post_readline_watermark) - r.(post_readline_pos) <= r.(post_pos);
  ok_nonempty : 0 < r.(post_readline_pos) -> 0 < r.(post_cl);
  ok_read : zlen (block r.(post_read_buf)) = r.(post_read_buf_size);
  ok_read_bound : r.(post_read_buf_size) < 2 ^ 62;
  ok_file : match r.(post_file) with
            | Some (data, at_pos) => at_pos = r.(post_pos) /\ zlen data = r.(post_cl)
            | None => 0 < rc.(post_buffering) -> r.(post_cl) <= zlen r.(post_buffering_buf)
            end;
  ok_buffer_size : 0 < rc.(buffer_size) < 2 ^ 32;
  ok_buffering : 0 <= rc.(post_buffering);
}.

(** Between two calls nothing is left in front of the start of the block. *)
Definition idle (r : reader S C) : Prop :=
  r.(post_readline_pos) = 0 -> r.(post_readline_watermark) = 0 \/ r.(post_pos) = r.(post_cl).

(** The reasons for a result of [NULL]. *)
Definition may_fail (r : reader S C) : Prop :=
  (r.(post_file) = None /\ rc.(post_buffering) = 0) \/ exists n, 0 < n < 2 ^ 63 /\ heap_ok env n = false.

Lemma alloc_fails {r : reader S C} n : 0 < n < 2 ^ 63 -> alloc_ok env n = false -> may_fail r.
Proof.
  intros Hn. unfold alloc_ok. destruct (Z.ltb_spec n (2 ^ 63)); [|lia]. cbn. intros E. right. by exists n.
Qed.

(** The body is in the same place. *)
Definition same_mode (r r' : reader S C) : Prop := r'.(post_file) = None <-> r.(post_file) = None.

(** * Receiving *)

Lemma recv_waiting_spec ws remains s c :
  rs_inv s -> src_inv c -> 0 < remains < 2 ^ 64 ->
  exists a s' c' ws', recv_waiting ws remains s c = Ret (a, s', c', ws') /\ rs_inv s' /\ src_inv c' /\
    match a with Got bs => pending c = bs ++ pending c' /\ 0 < zlen bs <= remains | _ => pending c' = pending c end.
Proof.
  intros Hs Hc Hn. revert s c Hs Hc. induction ws as [|w ws IH]; intros s c Hs Hc; cbn [recv_waiting].
  - by eexists _, _, _, _.
  - destruct (0 <? w); [|destruct (w =? 0); by eexists _, _, _, _].
    pose proof (rs_budget_ok remains s Hs Hn) as Hb. assert (0 <= remains < 2 ^ 64) as Hn' by lia. pose proof (rs_budget_inv remains s Hs Hn') as Hs1.
    destruct (rs_budget remains s) as [b s1]. cbn in Hb, Hs1.
    destruct (src_ok b c Hc) as (res & c' & -> & Hc' & Hp); [lia|]. cbn [obind]. destruct res as [bs| | |].
    + eexists _, _, _, _. split; [done|]. split; [apply rs_bytes_inv; [done | lia]|]. split; [done|]. split; [by destruct Hp | lia].
    + eexists _, _, _, _. split; [done|]. split; [by apply rs_empty_inv | done].
    + destruct (IH (rs_eagain s1) c') as (a & s' & c2 & ws' & -> & H1 & H2 & H3); [by apply rs_eagain_inv | done|].
      eexists _, _, _, _. split; [done|]. split; [done|]. split; [done|]. by rewrite <- Hp.
    + by eexists _, _, _, _.
Qed.

Lemma body_recv_spec remains r :
  rs_inv r.(sd) -> src_inv r.(conn) -> 0 < remains < 2 ^ 64 ->
  exists a s c ws, recv remains r = Ret (a, r<|sd := s|><|conn := c|><|waits := ws|>) /\ rs_inv s /\ src_inv c /\
    match a with Got bs => pending r.(conn) = bs ++ pending c /\ 0 < zlen bs <= remains | _ => pending c = pending r.(conn) end.
Proof.
  intros Hs Hc Hn. unfold recv.
  pose proof (rs_budget_ok remains _ Hs Hn) as Hb. assert (0 <= remains < 2 ^ 64) as Hn' by lia. pose proof (rs_budget_inv remains _ Hs Hn') as Hs1.
  destruct (rs_budget remains (sd r)) as [b s1]. cbn in Hb, Hs1.
  destruct (src_ok b (conn r) Hc) as (res & c' & -> & Hc' & Hp); [lia|]. cbn [obind]. destruct res as [bs| | |].
  - exists (Got bs), (rs_bytes (zlen bs) s1), c', (waits r). split; [by destruct r|]. split; [apply rs_bytes_inv; [done | lia]|]. split; [done|]. split; [by destruct Hp | lia].
  - exists (Closed false), (rs_empty s1), c', (waits r). split; [by destruct r|]. split; [by apply rs_empty_inv | done].
  - destruct (recv_waiting_spec (waits r) remains (rs_eagain s1) c') as (a & s' & c2 & ws' & -> & H1 & H2 & H3); [by apply rs_eagain_inv | done | done|].
    eexists _, _, _, _. split; [done|]. split; [done|]. split; [done|]. by rewrite <- Hp.
  - exists (Failed false), s1, c', (waits r). split; [by destruct r | done].
Qed.
(** * [readline] *)

Definition same_body (r r' : reader S C) : Prop :=
  post_cl r' = post_cl r /\ post_pos r' = post_pos r /\ post_file r' = post_file r /\
  post_buffering_buf r' = post_buffering_buf r /\ conn r' = conn r.

Lemma same_body_rest r r' : same_body r r' -> rest r' = rest r.
Proof. intros (E1 & E2 & E3 & E4 & E5). unfold rest. by rewrite E1, E2, E3, E4, E5. Qed.

Lemma same_body_fail r r' : same_body r r' -> may_fail r' -> may_fail r.
Proof. intros (_ & _ & E & _). unfold may_fail. by rewrite E. Qed.

Lemma warn_body size r : same_body r (warn rc size r) /\ live (warn rc size r) = live r /\
  (reader_ok r -> reader_ok (warn rc size r)) /\ post_readline_size (warn rc size r) = post_readline_size r /\
  post_readline_watermark (warn rc size r) = post_readline_watermark r /\ post_readline_pos (warn rc size r) = post_readline_pos r.
Proof. unfold warn. destruct (_ && _); (split; [by split_and!|]); (split; [done|]); (split; [|done]); [intros []; by constructor | done]. Qed.

Lemma read_error_ok r : reader_ok r -> reader_ok (read_error r).
Proof. intros []. by constructor. Qed.

Lemma grow_readline_spec remains r :
  reader_ok r -> 0 < remains <= rc.(buffer_size) -> remains <= r.(post_cl) - r.(post_pos) ->
  exists ret r', grow_readline env rc remains r = Ret (ret, r') /\ reader_ok r' /\ same_body r r' /\ live r' = live r /\
    (ret = 0 /\ r'.(post_readline_watermark) < r'.(post_readline_size) \/ ret = -1 /\ may_fail r).
Proof.
  intros Hok Hn Hle. pose proof Hok as []. unfold grow_readline. rewrite (wrap_small 64) by lia.
  destruct (Z.eqb_spec (post_readline_size r - post_readline_watermark r) 0) as [E|E].
  2: { exists 0, r. split; [done|]. split; [done|]. split; [by split_and!|]. split; [done|]. left. lia. }
  rewrite (wrap_small 64) by lia. rewrite mslice_slice by lia. cbn [obind].
  destruct (slice_move (block (post_readline_buf r)) (post_readline_pos r) (post_readline_watermark r)) as (b & Eb & Hb & Hs); [lia | lia|].
  rewrite Eb. cbn [obind]. set (r1 := r<|post_readline_buf := Some b|><|post_readline_watermark := post_readline_watermark r - post_readline_pos r|><|post_readline_pos := 0|>). change (post_readline_size r1) with (post_readline_size r).
  change (post_readline_watermark r1) with (post_readline_watermark r - post_readline_pos r). change (post_readline_buf r1) with (Some b).
  assert (reader_ok r1) as Hok1 by (constructor; cbn; auto; lia). assert (same_body r r1) as Hsb by by split_and!.
  assert (live r1 = live r) as Hl by exact Hs. rewrite (wrap_small 64) by lia.
  destruct (Z.ltb_spec (post_readline_size r - (post_readline_watermark r - post_readline_pos r)) remains) as [Hlt|Hge].
  2: { exists 0, r1. split; [done|]. split; [done|]. split; [done|]. split; [done|]. left. split; [done|]. cbn. lia. }
  rewrite (wrap_small 64) by lia. change (block (Some b)) with b.
  destruct (realloc env b (post_readline_size r + remains)) as [b'|] eqn:Er.
  - destruct (realloc_slice _ _ _ _ 0 (post_readline_watermark r - post_readline_pos r) Er) as [Hb' Hs']; [lia | lia | lia|].
    set (r2 := r1<|post_readline_buf := Some b'|><|post_readline_size := post_readline_size r + remains|>). destruct (warn_body (post_readline_size r + remains) r2) as (W1 & W2 & W3 & W4 & W5 & _).
    eexists 0, _. split; [done|]. split; [apply W3; constructor; cbn; auto; lia|].
    split; [exact W1|]. split; [rewrite W2, <- Hl; exact Hs'|]. left. split; [done|]. rewrite W4, W5. cbn. lia.
  - exists (-1), r1. split; [done|]. split; [done|]. split; [done|]. split; [done|]. right. split; [done|].
    unfold realloc in Er. destruct (alloc_ok _ _) eqn:Ea; [done|]. apply (alloc_fails (post_readline_size r + remains)); [lia | done].
Qed.

(** Progress of the loop: the next bytes of the body are in the block. *)
Definition advanced (r r' : reader S C) : Prop :=
  reader_ok r' /\ post_cl r' = post_cl r /\ (post_file r' = None <-> post_file r = None) /\ post_pos r < post_pos r' /\
  live r' ++ rest r' = live r ++ rest r /\ live r `prefix_of` live r' /\
  post_readline_watermark r' - post_readline_pos r' <= post_pos r'.

Lemma advanced_fail r r' : advanced r r' -> may_fail r' -> may_fail r.
Proof. intros (_ & _ & E & _) [[? ?]|?]; [left; by rewrite <- E | by right]. Qed.

(** The state after the bytes [bs] were stored behind those that are there. *)
Lemma consumed_spec r s c ws f bs :
  reader_ok r -> rs_inv s -> src_inv c -> 0 < zlen bs <= r.(post_cl) - r.(post_pos) -> zlen bs <= r.(post_readline_size) - r.(post_readline_watermark) ->
  f = (fun d => (d.1, r.(post_pos) + zlen bs)) <$> r.(post_file) ->
  let r1 := r<|sd := s|><|conn := c|><|waits := ws|><|post_file := f|> in
  (forall r', same_body (r1<|post_pos := r.(post_pos) + zlen bs|>) r' -> bs ++ rest r' = rest r) ->
  exists r', consumed bs (zlen bs) r1 = Ret (0, r') /\ advanced r r'.
Proof.
  intros Hok Hs Hc Hbs Hroom -> r1 Hrest. pose proof Hok as []. unfold consumed. subst r1. cbn [post_readline_buf post_readline_watermark post_pos setter].
  match goal with |- context [mwrite ?m ?o ?x] => change m with (block (post_readline_buf r)); change o with (post_readline_watermark r) end.
  destruct (slice_write (block (post_readline_buf r)) (post_readline_pos r) (post_readline_watermark r) bs) as (b & -> & Hb & Hsl & _); [lia | lia|].
  cbn [obind]. eexists. split; [reflexivity|]. unfold advanced, live. cbn. rewrite !(wrap_small 64) by lia.
  split; [|split; [done|]; split; [by destruct (post_file r)|]; split; [lia|]; rewrite Hsl; split; [|split; [by eexists | lia]]].
  - constructor; cbn; auto; rewrite ?(wrap_small 64) by lia; try lia. destruct (post_file r) as [[d p]|]; cbn; [|done]. destruct ok_file0. done.
  - rewrite <- app_assoc. f_equal. apply Hrest. by split_and!; cbn; rewrite ?(wrap_small 64) by lia.
Qed.

Lemma consume_spec r :
  reader_ok r -> r.(post_pos) < r.(post_cl) ->
  exists ret r', consume_body_for_readline env rc r = Ret (ret, r') /\
    (ret = 0 /\ advanced r r' \/ ret = -1 /\ reader_ok r' /\ may_fail r).
Proof.
  intros Hok Hlt. pose proof Hok as []. unfold consume_body_for_readline. rewrite (wrap_small 64) by lia. rewrite UMIN_spec.
  destruct (grow_readline_spec (Z.min (buffer_size rc) (post_cl r - post_pos r)) r Hok) as (ret & r1 & -> & Hok1 & Hsb & Hl & Hret); [lia | lia|].
  cbn [obind]. destruct Hret as [[-> Hroom]|[-> Hf]]; cbn [Z.eqb negb]; [|eexists _, _; split; [done|]; by right].
  pose proof Hsb as (Ecl & Epos & Efile & Ebuf & Econn). pose proof Hok1 as [].
  set (n := UMIN _ _). assert (0 < n /\ n <= post_cl r1 - post_pos r1 /\ n <= post_readline_size r1 - post_readline_watermark r1) as (Hn1 & Hn2 & Hn3).
  { subst n. rewrite UMIN_spec, !(wrap_small 64) by lia. lia. }
  clearbody n. assert (forall r', advanced r1 r' -> advanced r r') as Hadv.
  { intros r' (A1 & A2 & A3 & A4 & A5 & A6 & A7). rewrite Ecl, Efile, Epos, Hl, (same_body_rest _ _ Hsb) in *. by split_and!. }
  destruct (post_file r1) as [[data at_pos]|] eqn:Ef.
  - destruct ok_file1 as [-> Hdata]. unfold fread. assert (zlen (ztake n (zdrop (post_pos r1) data)) = n) as Hz by (rewrite zlen_take; rewrite ?zlen_drop; lia).
    rewrite Hz, Z.eqb_refl. destruct (Z.ltb_spec 0 n); [|lia]. cbn [andb Z.eqb].
    set (bs := ztake n _) in *.
    destruct (consumed_spec r1 (sd r1) (conn r1) (waits r1) (Some (data, post_pos r1 + zlen bs)) bs) as (r' & E & Ha); try done; [lia | lia | by rewrite Ef| |].
    + intros r' (B1 & B2 & B3 & _). unfold rest. rewrite Ef, B3, B1, B2. cbn. rewrite Hz. symmetry.
      rewrite (slice_split data (post_pos r1) (post_pos r1 + n)) by lia. f_equal. unfold slice. by replace (post_pos r1 + n - post_pos r1) with n by lia.
    + eexists 0, r'. split; [|left; split; [done | by apply Hadv]]. rewrite <- E, Hz. by destruct r1.
  - destruct (Z.eqb_spec (post_buffering rc) 0) as [Epb|Epb]; cbn [negb].
    + destruct (body_recv_spec n r1) as (a & s & c & ws & -> & Hs & Hc & Ha); [done | done | lia|]. cbn [obind].
      destruct a as [bs|w|w| |].
      1: { destruct Ha as [Hp Hb].
           destruct (consumed_spec r1 s c ws None bs) as (r' & E & Ha'); try done; [lia | lia | by rewrite Ef| |].
           - intros r' (B1 & B2 & B3 & _ & B5). unfold rest. rewrite Ef, B3, Epb, B1, B2, B5. cbn. rewrite Hp.
             rewrite ztake_app_ge by lia. do 2 f_equal. lia.
           - eexists 0, r'. split; [|left; split; [done | by apply Hadv]]. rewrite <- E. destruct r1; cbn in Ef; by rewrite Ef. }
      all: eexists (-1), _; (split; [reflexivity|]); right; (split; [done|]); (split; [try apply read_error_ok; constructor; cbn; auto; by rewrite Ef|]); left; by rewrite <- Efile.
    + rewrite mslice_ok by lia. cbn [obind]. set (bs := ztake n (zdrop (post_pos r1) (post_buffering_buf r1))).
      assert (zlen bs = n) as Hz by (subst bs; rewrite zlen_take; rewrite ?zlen_drop; lia).
      destruct (consumed_spec r1 (sd r1) (conn r1) (waits r1) None bs) as (r' & E & Ha); try done; [lia | lia | by rewrite Ef| |].
      * intros r' (B1 & B2 & B3 & B4 & _). unfold rest. rewrite Ef, B3, B1, B2, B4. cbn. destruct (Z.ltb_spec 0 (post_buffering rc)); [|lia]. rewrite Hz. symmetry.
        rewrite (slice_split _ (post_pos r1) (post_pos r1 + n)) by lia. f_equal. unfold slice, bs. by replace (post_pos r1 + n - post_pos r1) with n by lia.
      * eexists 0, r'. split; [|left; split; [done | by apply Hadv]]. rewrite <- E, Hz. destruct r1; cbn in Ef; by rewrite Ef.
Qed.

Lemma slice_drop k m a b : 0 <= a -> 0 <= k <= b - a -> b <= zlen m -> zdrop k (slice m a b) = slice m (a + k) b.
Proof.
  intros. rewrite (slice_split m a (a + k) b) by lia. rewrite zdrop_app_length; [done|]. rewrite slice_len by lia. lia.
Qed.

Lemma live_len r : reader_ok r -> zlen (live r) = post_readline_watermark r - post_readline_pos r.
Proof. intros []. unfold live. apply slice_len; lia. Qed.

Lemma take_line_spec r :
  reader_ok r -> post_readline_watermark r - post_readline_pos r <= post_pos r ->
  match memchr (live r) LF with
  | Some i => exists r', take_line r = Ret (Some (ztake (i + 1) (live r)), r') /\ reader_ok r' /\ idle r' /\ same_body r r' /\
                residual r' = zdrop (i + 1) (live r)
  | None => take_line r = Ret (None, r)
  end.
Proof.
  intros Hok Htk. pose proof (live_len r Hok) as Hll. pose proof Hok as []. unfold take_line. rewrite (wrap_small 64) by lia. rewrite mslice_slice by lia.
  cbn [obind]. fold (live r). destruct (memchr (live r) LF) as [i|] eqn:E; [|done]. apply memchr_Some in E as (Hi & _).
  eexists. split; [reflexivity|]. cbn. rewrite (wrap_small 64) by lia.
  destruct (Z.leb_spec (post_readline_watermark r) (post_readline_pos r + (i + 1))) as [Hle|Hgt].
  - split; [constructor; cbn; auto; lia|]. split; [by left|]. split; [by split_and!|]. cbn. by rewrite zdrop_all by lia.
  - split; [constructor; cbn; auto; lia|]. split; [intros Hz; cbn in Hz; lia|]. split; [by split_and!|].
    unfold residual. change (post_readline_pos (r<|post_readline_pos := post_readline_pos r + (i + 1)|>)) with (post_readline_pos r + (i + 1)).
    destruct (Z.ltb_spec 0 (post_readline_pos r + (i + 1))); [|lia]. symmetry. apply slice_drop; lia.
Qed.

Lemma rest_done r : reader_ok r -> r.(post_cl) <= r.(post_pos) -> rest r = [].
Proof.
  intros [] H. unfold rest. assert (post_pos r = post_cl r) as -> by lia. destruct (post_file r) as [[]|]; [|destruct (_ <? _)];
    by rewrite ?Z.sub_diag, ?slice_empty, ?ztake_0.
Qed.

(** What a call promises: the result is a line and the caller has not seen
    what follows it; a failure has a reason. *)
Definition line_result (r : reader S C) (text : list Z) (p : body_ptr) (r' : reader S C) : Prop :=
  match p with
  | PBytes bs => bs = line_of text /\ text = bs ++ unread r' /\ idle r' /\ same_mode r r'
  | PEmpty => False
  | PNull n => n = -1 /\ may_fail r
  end.

Lemma readline_taken r r' text k i :
  reader_ok r -> memchr (live r) LF = Some i -> text = live r ++ k -> rest r = k -> same_body r r' -> idle r' -> residual r' = zdrop (i + 1) (live r) ->
  line_result r text (PBytes (ztake (i + 1) (live r))) r'.
Proof.
  intros Hok Ei -> Hk Hsb Hi Hr. split; [by rewrite (line_of_app _ _ i)|]. split; [|split; [done|]; destruct Hsb as (_ & _ & E & _); unfold same_mode; by rewrite E].
  unfold unread. rewrite Hr, (same_body_rest _ _ Hsb), Hk, app_assoc, ztake_zdrop. done.
Qed.

Lemma line_result_mode r r1 text p r' : advanced r r1 -> line_result r1 text p r' -> line_result r text p r'.
Proof.
  intros Ha. pose proof Ha as (_ & _ & Hm & _). destruct p as [|n|bs]; cbn; [done | |].
  - intros [-> Hp]. split; [done|]. by eapply advanced_fail.
  - intros (? & ? & ? & Hm'). do 3 (split; [done|]). exact (iff_trans Hm' Hm).
Qed.

Lemma readline_loop_spec fuel r :
  reader_ok r -> r.(post_cl) - r.(post_pos) < Z.of_nat fuel -> memchr (live r) LF = None ->
  exists p r', readline_loop env rc fuel r = Ret (p, r') /\ reader_ok r' /\ line_result r (live r ++ rest r) p r'.
Proof.
  revert r. induction fuel as [|fuel IH]; intros r Hok Hf Hnl; [pose proof Hok as []; lia|]. cbn [readline_loop].
  destruct (Z.leb_spec (post_cl r) (post_pos r)) as [Hle|Hgt].
  - pose proof Hok as []. rewrite (wrap_small 64) by lia. rewrite mslice_slice by lia. cbn [obind]. fold (live r).
    eexists _, _. split; [reflexivity|]. split; [constructor; cbn; auto; lia|]. rewrite (rest_done r) by done. rewrite app_nil_r.
    split; [unfold line_of; by rewrite Hnl|]. split; [|split; [intros _; right; cbn; lia | done]].
    unfold unread. rewrite (same_body_rest r) by by split_and!. rewrite (rest_done r) by done. cbn. by rewrite app_nil_r.
  - destruct (consume_spec r Hok Hgt) as (ret & r1 & -> & [[-> Ha]|(-> & Hok1 & Hfl)]); cbn [obind Z.eqb negb].
    2: { eexists _, _. split; [reflexivity|]. split; [by apply read_error_ok | done]. }
    pose proof Ha as (Hok1 & Ecl & Efile & Hpos & Htext & _ & Htk). pose proof (take_line_spec r1 Hok1 Htk) as Ht.
    destruct (memchr (live r1) LF) as [i|] eqn:Ei.
    + destruct Ht as (r2 & -> & Hok2 & Hi2 & Hsb & Hres). cbn [obind]. eexists _, _. split; [reflexivity|]. split; [done|].
      rewrite <- Htext. eapply (line_result_mode r r1); [exact Ha|]. by apply (readline_taken r1 _ _ (rest r1)).
    + rewrite Ht. cbn [obind]. destruct (IH r1) as (p & r2 & -> & Hok2 & Hp); [done | lia | done|].
      eexists _, _. split; [reflexivity|]. split; [done|]. rewrite <- Htext. by eapply line_result_mode.
Qed.

Lemma exhausted_unread r : reader_ok r -> exhausted r = true -> unread r = [].
Proof.
  intros Hok H. pose proof Hok as []. unfold exhausted in H. apply andb_true_iff in H as [H1 H2]. apply Z.eqb_eq in H2.
  unfold unread, residual. rewrite H2, (rest_done r); [done | done|]. apply orb_true_iff in H1 as [H1|H1]; lia.
Qed.

(** At the start of a call that has something to do, [residual] is all that
    the block holds. *)
Lemma residual_live r : reader_ok r -> idle r -> exhausted r = false -> residual r = live r.
Proof.
  intros Hok Hi H. pose proof Hok as []. unfold residual. destruct (Z.ltb_spec 0 (post_readline_pos r)); [done|].
  assert (post_readline_pos r = 0) as E by lia. destruct (Hi E) as [Hw|Hp].
  - unfold live. by rewrite E, Hw, slice_empty.
  - unfold exhausted in H. rewrite E, Hp, Z.leb_refl, orb_true_r in H. done.
Qed.

(** What a call of [readline] promises. *)
Definition readline_post (r : reader S C) (p : body_ptr) (r' : reader S C) : Prop :=
  match p with
  | PEmpty => unread r = [] /\ r' = r
  | PBytes bs => bs = line_of (unread r) /\ unread r = bs ++ unread r' /\ idle r' /\ same_mode r r'
  | PNull n => n = -1 /\ may_fail r
  end.

Lemma line_result_post r p r' : idle r -> residual r = live r -> line_result r (live r ++ rest r) p r' -> readline_post r p r'.
Proof. intros Hi Hl. unfold readline_post, unread at 1 2 3, line_result. rewrite Hl. by destruct p. Qed.

Lemma body_readline_spec r :
  reader_ok r -> idle r ->
  exists p r', upsgi_request_body_readline env rc r = Ret (p, r') /\ reader_ok r' /\ readline_post r p r'.
Proof.
  intros Hok Hi. pose proof Hok as []. unfold upsgi_request_body_readline. destruct (exhausted r) eqn:Ex.
  { eexists _, _. split; [done|]. split; [done|]. split; [by apply exhausted_unread | done]. }
  pose proof (residual_live r Hok Hi Ex) as Hres.
  assert (post_readline_buf r = None -> post_readline_pos r = 0 /\ post_readline_watermark r = 0) as Hnone.
  { intros E. rewrite E in ok_size0. change (zlen (block None)) with 0 in ok_size0. lia. }
  assert (memchr (live r) LF = None -> exists p r', match post_readline_buf r with
     | Some _ => readline_loop env rc (Datatypes.S (Z.to_nat (post_cl r - post_pos r))) r
     | None => let amount := UMIN (buffer_size rc) (post_cl r) in
               match malloc env amount with
               | None => Ret (PNull (-1), read_error r)
               | Some b => readline_loop env rc (Datatypes.S (Z.to_nat (post_cl r - post_pos r))) (r<|post_readline_buf := Some b|><|post_readline_size := amount|>)
               end
     end = Ret (p, r') /\ reader_ok r' /\ readline_post r p r') as Hloop.
  { intros Hnl. destruct (post_readline_buf r) as [b0|] eqn:Eb.
    - destruct (readline_loop_spec (Datatypes.S (Z.to_nat (post_cl r - post_pos r))) r) as (p & r' & -> & Hok' & Hp); [done | lia | done|].
      eexists _, _. split; [done|]. split; [done|]. by apply line_result_post.
    - cbn zeta. rewrite UMIN_spec. destruct (Hnone eq_refl) as [Ep Ew]. set (amount := Z.min _ _).
      assert (0 < amount /\ amount <= post_cl r /\ amount <= buffer_size rc) as (Ha & Ha' & Ha'').
      { unfold exhausted in Ex. rewrite Ep, Z.eqb_refl, andb_true_r in Ex. apply orb_false_iff in Ex as [Ex _]. subst amount. lia. }
      destruct (malloc env amount) as [b|] eqn:Em.
      + apply malloc_len in Em; [|lia]. set (r1 := r<|post_readline_buf := Some b|><|post_readline_size := amount|>).
        assert (live r1 = []) as Hl1 by (unfold live; cbn; rewrite Ep, Ew; apply slice_empty).
        assert (reader_ok r1) as Hok1 by (constructor; cbn; auto; lia).
        destruct (readline_loop_spec (Datatypes.S (Z.to_nat (post_cl r - post_pos r))) r1) as (p & r' & -> & Hok' & Hp); [done | cbn; lia | by rewrite Hl1|].
        eexists _, _. split; [done|]. split; [done|]. apply line_result_post; [done | done|].
        assert (live r = []) as -> by (unfold live; rewrite Ep, Ew; apply slice_empty). rewrite Hl1 in Hp. exact Hp.
      + eexists _, _. split; [done|]. split; [by apply read_error_ok|]. split; [done|]. unfold malloc in Em.
        destruct (alloc_ok env amount) eqn:Ea; [done|]. apply (alloc_fails amount); [lia | done]. }
  destruct (Z.ltb_spec 0 (post_readline_pos r)) as [Hp|Hp].
  - pose proof (take_line_spec r Hok ltac:(lia)) as Ht. destruct (memchr (live r) LF) as [i|] eqn:Ei.
    + destruct Ht as (r' & -> & Hok' & Hi' & Hsb & Hr'). cbn [obind]. eexists _, _. split; [done|]. split; [done|].
      apply line_result_post; [done | done|]. by apply (readline_taken r r' _ (rest r)).
    + rewrite Ht. cbn [obind]. by apply Hloop.
  - cbn [obind]. apply Hloop. rewrite <- Hres. unfold residual. by destruct (Z.ltb_spec 0 (post_readline_pos r)); [lia|].
Qed.

(** * [read] *)

(** The block of [readline] is empty. *)
Definition no_line (r : reader S C) : Prop := r.(post_readline_pos) = 0 /\ r.(post_readline_watermark) = 0.

Lemma no_line_unread r : no_line r -> unread r = rest r.
Proof. intros [E _]. unfold unread, residual. by rewrite E. Qed.

(** The loop on the connection: the bytes [got] are the next ones, behind the
    [rlen] that are there. *)
Lemma read_loop_spec fuel remains rlen r :
  reader_ok r -> no_line r -> r.(post_file) = None -> rc.(post_buffering) = 0 ->
  0 <= remains <= r.(post_cl) - r.(post_pos) -> 0 <= rlen -> rlen + remains <= r.(post_read_buf_size) -> remains < Z.of_nat fuel ->
  exists p r', read_loop fuel remains rlen r = Ret (p, r') /\ reader_ok r' /\
    match p with
    | PBytes bs => exists got, bs = ztake rlen (block r.(post_read_buf)) ++ got /\ zlen got = remains /\
        pending r.(conn) = got ++ pending r'.(conn) /\ r'.(post_pos) = r.(post_pos) + remains /\ r'.(post_cl) = r.(post_cl) /\
        r'.(post_file) = None /\ no_line r'
    | PEmpty => False
    | PNull n => n = -1 \/ n = 0
    end.
Proof.
  revert remains rlen r. induction fuel as [|fuel IH]; intros remains rlen r Hok Hnl Hf Hpb Hrem Hrl Hsz Hfuel; [lia|].
  pose proof Hok as []. pose proof Hnl as [Hnl1 Hnl2]. cbn [read_loop]. destruct (Z.leb_spec remains 0) as [H0|H0].
  { rewrite mslice_ok by lia. cbn [obind]. eexists _, _. split; [reflexivity|]. split; [done|]. exists [].
    rewrite app_nil_r, zdrop_0, zlen_nil. split_and!; try done; lia. }
  destruct (body_recv_spec remains r) as (a & s & c & ws & -> & Hs & Hc & Ha); [done | done | lia|]. cbn [obind].
  set (r1 := r<|sd := s|><|conn := c|><|waits := ws|>).
  assert (reader_ok r1) as Hok1 by (constructor; cbn; auto).
  destruct a as [bs|w|w| |]; [| eexists _, _; split; [reflexivity|]; split; [by try apply read_error_ok | by auto] ..].
  destruct Ha as [Hp Hb]. change (post_read_buf r1) with (post_read_buf r). change (post_pos r1) with (post_pos r).
  destruct (slice_write (block (post_read_buf r)) 0 rlen bs) as (b & -> & Hbl & Hsl & Htk); [lia | lia|]. cbn [obind].
  rewrite !(wrap_small 64) by lia. set (r2 := r1<|post_read_buf := Some b|><|post_pos := post_pos r + zlen bs|>).
  assert (reader_ok r2) as Hok2 by (constructor; cbn; auto; rewrite ?Hf; try lia; intros; lia).
  destruct (IH (remains - zlen bs) (rlen + zlen bs) r2) as (p & r' & -> & Hok' & Hpost); [done | done | done | done | cbn; lia | lia | cbn; lia | lia|].
  eexists _, _. split; [reflexivity|]. split; [done|]. destruct p as [| |out]; [done | done|].
  destruct Hpost as (got & -> & Hg & Hpend & Hpos & Hcl & Hf' & Hnl'). exists (bs ++ got). cbn in Hpend, Hpos, Hcl.
  split; [|split; [rewrite zlen_app; lia|]]; [|rewrite Hp, Hpend, app_assoc; split_and!; try done; lia].
  change (block (post_read_buf r2)) with b. rewrite app_assoc. f_equal. unfold slice in Hsl. rewrite !Z.sub_0_r, !zdrop_0 in Hsl. exact Hsl.
Qed.

(** What the second part of [read] promises: the bytes [pre] that are there
    and the next [remains] ones of the body. *)
Definition rest_post (remains : Z) (pre : list Z) (r : reader S C) (p : body_ptr) (r' : reader S C) : Prop :=
  match p with
  | PBytes bs => bs = pre ++ ztake remains (rest r) /\ rest r = ztake remains (rest r) ++ unread r' /\ no_line r' /\ same_mode r r'
  | PEmpty => pre = [] /\ rest r = [] /\ unread r' = [] /\ no_line r' /\ same_mode r r'
  | PNull n => (n = -1 \/ n = 0) /\ may_fail r
  end.

Lemma grow_read_buf_spec size r rlen :
  reader_ok r -> 0 <= rlen <= r.(post_read_buf_size) -> r.(post_read_buf_size) <= size < 2 ^ 62 -> 0 < size ->
  exists ret r', grow_read_buf env rc size r = (ret, r') /\ reader_ok r' /\ same_body r r' /\ live r' = live r /\
    r'.(post_readline_pos) = r.(post_readline_pos) /\ r'.(post_readline_watermark) = r.(post_readline_watermark) /\
    r'.(post_readline_buf) = r.(post_readline_buf) /\
    (ret = 0 /\ r'.(post_read_buf_size) = size /\ ztake rlen (block r'.(post_read_buf)) = ztake rlen (block r.(post_read_buf)) /\
      r'.(post_read_buf) <> None \/ ret = -1 /\ may_fail r).
Proof.
  intros Hok Hr Hs H0. pose proof Hok as []. unfold grow_read_buf. destruct (realloc env (block (post_read_buf r)) size) as [b|] eqn:Er.
  - destruct (realloc_slice _ _ _ _ 0 rlen Er) as [Hb Hsl]; [lia | lia | lia|].
    eexists 0, _. split; [done|]. split; [unfold warn; destruct (_ && _); constructor; cbn; auto; lia|].
    unfold warn. destruct (_ && _); (split; [by split_and!|]); (split; [done|]); (do 3 (split; [done|])); left; (split; [done|]); (split; [done|]); (split; [|done]);
      unfold slice in Hsl; rewrite !Z.sub_0_r, !zdrop_0 in Hsl; exact Hsl.
  - eexists (-1), _. split; [done|]. split; [by apply read_error_ok|]. split; [by split_and!|]. do 4 (split; [done|]). right. split; [done|].
    unfold realloc in Er. destruct (alloc_ok env size) eqn:Ea; [done|]. apply (alloc_fails size); [lia | done].
Qed.

Lemma prepare_read_buf_spec remains rlen r :
  reader_ok r -> no_line r -> 0 < remains <= r.(post_cl) -> 0 <= rlen <= r.(post_read_buf_size) -> rlen <= r.(post_cl) ->
  exists ret r', prepare_read_buf env rc remains rlen r = (ret, r') /\ reader_ok r' /\ same_body r r' /\ no_line r' /\
    (ret = 0 /\ rlen + remains <= r'.(post_read_buf_size) /\ ztake rlen (block r'.(post_read_buf)) = ztake rlen (block r.(post_read_buf)) \/
     ret = -1 /\ may_fail r).
Proof.
  intros Hok Hnl Hrem Hrl Hcl. pose proof Hok as []. pose proof Hnl as [Hn1 Hn2]. unfold prepare_read_buf. destruct (post_read_buf r) as [b0|] eqn:Eb.
  - rewrite (wrap_small 64) by lia. destruct (Z.ltb_spec (post_read_buf_size r) (remains + rlen)) as [Hlt|Hge].
    + destruct (grow_read_buf_spec (remains + rlen) r rlen Hok) as (ret & r' & -> & Hok' & Hsb & _ & El1 & El2 & _ & Hret); [lia | lia | lia|].
      eexists _, _. split; [done|]. split; [done|]. split; [done|]. split; [split; congruence|].
      destruct Hret as [(-> & Hsz & Ht & _)|Hret]; [|by right]. left. split; [done|]. split; [lia|]. rewrite Ht, Eb. done.
    + eexists 0, r. split; [done|]. split; [done|]. split; [by split_and!|]. split; [done|]. left. split; [done|]. split; [lia|]. by rewrite Eb.
  - change (zlen (block None)) with 0 in ok_read0. destruct (malloc env remains) as [b|] eqn:Em.
    + apply malloc_len in Em; [|lia]. eexists 0, _. split; [done|]. split; [constructor; cbn; auto; lia|]. split; [by split_and!|]. split; [done|].
      left. split; [done|]. cbn. assert (rlen = 0) as -> by lia. split; [lia | done].
    + eexists (-1), _. split; [done|]. split; [by apply read_error_ok|]. split; [by split_and!|]. split; [done|]. right. split; [done|].
      unfold malloc in Em. destruct (alloc_ok env remains) eqn:Ea; [done|]. apply (alloc_fails remains); [lia | done].
Qed.

Lemma slice_take n m a c : 0 <= a <= c -> c <= zlen m -> 0 <= n -> ztake n (slice m a c) = slice m a (a + Z.min n (c - a)).
Proof.
  intros. destruct (Z.le_ge_cases n (c - a)).
  - rewrite Z.min_l by lia. unfold slice. rewrite ztake_ztake by lia. by replace (a + n - a) with n by lia.
  - rewrite Z.min_r by lia. replace (a + (c - a)) with c by lia. apply ztake_all. rewrite slice_len; lia.
Qed.

Lemma no_line_idle r : no_line r -> idle r.
Proof. intros [_ E] _. by left. Qed.

(** From the bytes a step gave to the promise of the call. *)
Lemma rest_post_intro remains pre r r' bs got :
  no_line r' -> same_mode r r' -> bs = pre ++ got -> got = ztake remains (rest r) -> rest r = got ++ rest r' -> rest_post remains pre r (PBytes bs) r'.
Proof.
  intros Hnl Hm -> -> E. split; [done|]. split; [|done]. by rewrite (no_line_unread r').
Qed.

Lemma read_file_spec remains rlen r data :
  reader_ok r -> no_line r -> r.(post_file) = Some (data, r.(post_pos)) -> 0 < remains <= r.(post_cl) - r.(post_pos) ->
  0 <= rlen -> rlen + remains <= r.(post_read_buf_size) -> zlen data = r.(post_cl) ->
  let '(n, got, f) := fread remains (data, r.(post_pos)) in
  exists b bs, mwrite (block r.(post_read_buf)) rlen got = Ret b /\ n = 1 /\ mslice b 0 (rlen + remains) = Ret bs /\
    let r' := (r<|post_file := Some f|><|post_read_buf := Some b|>)<|post_pos := u64 (r.(post_pos) + remains)|> in
    reader_ok r' /\ no_line r' /\ bs = ztake rlen (block r.(post_read_buf)) ++ got /\ got = slice data r.(post_pos) (r.(post_pos) + remains) /\
    rest r' = slice data (r.(post_pos) + remains) r.(post_cl).
Proof.
  intros Hok Hnl Hf Hrem Hrl Hsz Hd. pose proof Hok as []. rewrite Hf in ok_file0. unfold fread.
  assert (zlen (ztake remains (zdrop (post_pos r) data)) = remains) as Hz by (rewrite zlen_take; rewrite ?zlen_drop; lia).
  rewrite Hz, Z.eqb_refl. destruct (Z.ltb_spec 0 remains); [|lia]. cbn [andb].
  assert (ztake remains (zdrop (post_pos r) data) = slice data (post_pos r) (post_pos r + remains)) as Hg.
  { unfold slice. by replace (post_pos r + remains - post_pos r) with remains by lia. }
  destruct (slice_write (block (post_read_buf r)) 0 rlen (ztake remains (zdrop (post_pos r) data))) as (b & Eb & Hb & Hs & _); [lia | lia|].
  rewrite Hz in Hs. exists b, (ztake (rlen + remains) b). split; [done|]. split; [done|]. split; [rewrite mslice_ok by lia; by rewrite zdrop_0|].
  rewrite (wrap_small 64) by lia. split; [constructor; cbn; auto; lia|]. split; [done|]. split; [|split; [done|]].
  - unfold slice in Hs. rewrite !Z.sub_0_r, !zdrop_0 in Hs. exact Hs.
  - unfold rest. cbn. done.
Qed.

Lemma read_rest_spec remains rlen r :
  reader_ok r -> no_line r -> 0 < remains < 2 ^ 63 -> 0 <= rlen <= r.(post_read_buf_size) -> rlen <= r.(post_cl) ->
  (r.(post_file) = None -> 0 < rc.(post_buffering) -> rlen = 0) ->
  exists p r', read_rest env rc remains rlen r = Ret (p, r') /\ reader_ok r' /\
    rest_post remains (ztake rlen (block r.(post_read_buf))) r p r'.
Proof.
  intros Hok Hnl Hrem Hrl Hcl Hmem. pose proof Hok as []. unfold read_rest. rewrite !(wrap_small 64) by lia.
  set (n := if post_cl r <? remains + post_pos r then post_cl r - post_pos r else remains).
  assert (n = Z.min remains (post_cl r - post_pos r)) as Hn by (subst n; destruct (Z.ltb_spec (post_cl r) (remains + post_pos r)); lia). clearbody n.
  destruct (Z.eqb_spec n 0) as [E0|E0].
  { pose proof (rest_done r Hok ltac:(lia)) as Hrd. destruct (Z.ltb_spec 0 rlen).
    - rewrite mslice_ok by lia. cbn [obind]. eexists _, _. split; [done|]. split; [done|]. apply (rest_post_intro _ _ _ _ _ []); [done | done | by rewrite app_nil_r | rewrite Hrd; unfold ztake; by rewrite take_nil | done].
    - assert (rlen = 0) as -> by lia. eexists _, _. split; [done|]. split; [done|]. split; [done|]. split; [done|]. split; [by rewrite no_line_unread | done]. }
  destruct ((0 <? post_buffering rc) && match post_file r with None => true | Some _ => false end) eqn:Emem.
  - apply andb_true_iff in Emem as [Epb Ef]. apply Z.ltb_lt in Epb. destruct (post_file r) eqn:Efile; [done|].
    specialize (Hmem eq_refl Epb) as ->. specialize (ok_file0 Epb). rewrite mslice_ok by lia. cbn [obind].
    eexists _, _. split; [done|]. rewrite (wrap_small 64) by lia. assert (0 <? post_buffering rc = true) as Epb' by lia.
    split; [constructor; cbn; rewrite ?Efile; auto; lia|].
    apply (rest_post_intro _ _ _ _ _ (slice (post_buffering_buf r) (post_pos r) (post_pos r + n))); [done | done | | |].
    + unfold slice. cbn. by replace (post_pos r + n - post_pos r) with n by lia.
    + unfold rest. rewrite Efile, Epb', slice_take by lia. by rewrite Hn.
    + unfold rest. cbn. rewrite Efile, Epb'. apply slice_split; lia.
  - destruct (prepare_read_buf_spec n rlen r Hok Hnl) as (ret & r1 & -> & Hok1 & Hsb & Hnl1 & Hret); [lia | lia | lia|].
    pose proof Hsb as (Ecl & Epos & Efile & Ebuf & Econn).
    destruct Hret as [(-> & Hsz & Hpre)|[-> Hfl]]; cbn [Z.eqb negb]; [|eexists _, _; split; [done|]; split; [done|]; split; [by left | done]].
    pose proof (same_body_rest _ _ Hsb) as Hrest. pose proof Hok1 as []. destruct (post_file r1) as [[data at_pos]|] eqn:Ef.
    + destruct ok_file1 as [-> Hd]. pose proof (read_file_spec n rlen r1 data Hok1 Hnl1 Ef ltac:(lia) ltac:(lia) Hsz Hd) as Hfile.
      destruct (fread n (data, post_pos r1)) as [[k got] f]. destruct Hfile as (b & bs & -> & -> & Hbs & Hok' & Hnl' & -> & Hgot & Hr').
      cbn [obind Z.eqb negb]. rewrite Hbs. cbn [obind]. eexists _, _. split; [done|]. split; [exact Hok'|].
      apply (rest_post_intro _ _ _ _ _ got); [done | unfold same_mode; cbn; rewrite <- Efile; done | by rewrite Hpre | |].
      * rewrite <- Hrest. unfold rest. rewrite Ef, slice_take, Hgot by lia. do 2 f_equal. lia.
      * transitivity (got ++ slice data (post_pos r1 + n) (post_cl r1)); [|f_equal; symmetry; exact Hr'].
        rewrite <- Hrest, Hgot. unfold rest. rewrite Ef. apply slice_split; lia.
    + assert (post_buffering rc = 0) as Epb by (rewrite <- Efile in Emem; apply andb_false_iff in Emem as [Emem|Emem]; [lia | done]).
      destruct (read_loop_spec (Datatypes.S (Z.to_nat n)) n rlen r1) as (p & r' & -> & Hok' & Hpost); try done; [lia | lia | lia|].
      eexists _, _. split; [done|]. split; [done|]. destruct p as [|k|bs]; [done | |].
      * split; [done|]. left. by rewrite <- Efile.
      * destruct Hpost as (got & -> & Hg & Hpend & Hpos & Hcl' & Hf' & Hnl'). apply (rest_post_intro _ _ _ _ _ got); [done | unfold same_mode; rewrite Hf', <- Efile; done | by rewrite Hpre | |]; rewrite <- Hrest; unfold rest; rewrite Ef, ?Hf', Epb; cbn [Z.ltb Z.compare]; rewrite Hpend.
        -- rewrite (ztake_app_ge (post_cl r1 - post_pos r1)) by lia. destruct (Z.le_gt_cases remains n).
           ++ assert (remains = n) as -> by lia. by rewrite ztake_app_length by lia.
           ++ replace (post_cl r1 - post_pos r1 - zlen got) with 0 by lia. rewrite ztake_0, app_nil_r. by rewrite ztake_all by lia.
        -- rewrite ztake_app_ge by lia. do 2 f_equal. lia.
Qed.

(** [read] leaves nothing in the block of [readline] when there was nothing. *)
Definition ready (r r' : reader S C) : Prop :=
  idle r' /\ same_mode r r' /\ (r.(post_readline_pos) = 0 -> r'.(post_readline_pos) = 0).

Lemma no_line_ready r r' : no_line r' -> same_mode r r' -> ready r r'.
Proof. intros Hn Hm. split; [by apply no_line_idle|]. split; [done|]. by destruct Hn. Qed.

(** What a call of [read] promises; a hint of zero asks for everything. *)
Definition read_post (hint : Z) (r : reader S C) (p : body_ptr) (r' : reader S C) : Prop :=
  match p with
  | PBytes bs => bs = ztake (if hint =? 0 then zlen (unread r) else hint) (unread r) /\ unread r = bs ++ unread r' /\ ready r r'
  | PEmpty => unread r = [] /\ unread r' = [] /\ ready r r'
  | PNull n => (n = -1 \/ n = 0) /\ may_fail r
  end.

Lemma rest_len r : reader_ok r -> zlen (rest r) <= r.(post_cl) - r.(post_pos).
Proof.
  intros []. unfold rest. destruct (post_file r) as [[data p]|]; [|destruct (Z.ltb_spec 0 (post_buffering rc))].
  - destruct ok_file0. rewrite slice_len; lia.
  - rewrite slice_len; lia.
  - unfold zlen, ztake. rewrite length_take. lia.
Qed.

Lemma unread_len r : reader_ok r -> zlen (unread r) <= r.(post_cl).
Proof.
  intros Hok. pose proof (rest_len r Hok). pose proof (live_len r Hok). pose proof Hok as []. unfold unread, residual. rewrite zlen_app.
  destruct (Z.ltb_spec 0 (post_readline_pos r)); [|rewrite zlen_nil]; lia.
Qed.

(** The wish of the caller in bytes gives the same part of what is unread. *)
Lemma want_take hint r : reader_ok r -> 0 <= hint -> 
  ztake (if hint <=? 0 then r.(post_cl) else hint) (unread r) = ztake (if hint =? 0 then zlen (unread r) else hint) (unread r).
Proof.
  intros Hok Hh. destruct (Z.leb_spec hint 0), (Z.eqb_spec hint 0); try lia; [|done].
  pose proof (unread_len r Hok). by rewrite !ztake_all by lia.
Qed.

Lemma move_residual_spec remains r :
  reader_ok r -> 0 < r.(post_readline_pos) -> zlen (live r) < remains < 2 ^ 63 ->
  exists ret rem rlen r', move_residual env rc remains r = Ret (ret, rem, rlen, r') /\ reader_ok r' /\
    (ret = 0 /\ same_body r r' /\ rem = remains - zlen (live r) /\ rlen = zlen (live r) /\ no_line r' /\ rlen <= r'.(post_read_buf_size) /\
       ztake rlen (block r'.(post_read_buf)) = live r
     \/ ret = -1 /\ may_fail r).
Proof.
  intros Hok Hp Hrem. pose proof (live_len r Hok) as Hll. pose proof Hok as []. unfold move_residual. rewrite !(wrap_small 64) by lia. rewrite Hll in *.
  set (avail := post_readline_watermark r - post_readline_pos r) in *.
  assert (exists ret r1, (if post_read_buf_size r <? avail then grow_read_buf env rc avail r else (0, r)) = (ret, r1) /\ reader_ok r1 /\ same_body r r1 /\
     r1.(post_readline_pos) = r.(post_readline_pos) /\ r1.(post_readline_watermark) = r.(post_readline_watermark) /\ r1.(post_readline_buf) = r.(post_readline_buf) /\
     (ret = 0 /\ avail <= r1.(post_read_buf_size) \/ ret = -1 /\ may_fail r)) as (ret & r1 & -> & Hok1 & Hsb & Ep & Ew & Eb & Hret).
  { destruct (Z.ltb_spec (post_read_buf_size r) avail); [|by eexists 0, r; split_and!; try done; left].
    pose proof (zlen_nonneg (block (post_read_buf r))). destruct (grow_read_buf_spec avail r 0 Hok) as (ret & r' & -> & Hok' & Hsb & _ & E1 & E2 & E3 & Hret); [lia | lia | lia|].
    eexists _, _. split; [done|]. do 5 (split; [done|]). destruct Hret as [(-> & -> & _)|?]; [by left | by right]. }
  destruct Hret as [[-> Hsz]|[-> Hfl]]; cbn [Z.eqb negb]; [|eexists _, _, _, _; split; [done|]; split; [done|]; by right].
  rewrite Ep, Eb. subst avail. rewrite mslice_slice by lia. fold (live r). cbn [obind]. pose proof Hok1 as [].
  destruct (slice_write (block (post_read_buf r1)) 0 0 (live r)) as (b & -> & Hb & Hs & _); [lia | lia|]. cbn [obind].
  destruct (Z.ltb_spec 0 remains); [|lia]. rewrite ?(wrap_small 64) by lia.
  eexists _, _, _, _. split; [reflexivity|]. rewrite slice_empty in Hs. unfold slice in Hs. rewrite Z.sub_0_r, !zdrop_0, Z.add_0_l in Hs.
  split; [|left; split; [done|]; split; [exact Hsb|]; do 2 (split; [done|]); split; [done|]; split; [cbn; lia|]].
  - constructor; cbn; auto; try lia. destruct (post_read_buf r1); cbn in *; [lia | done].
  - rewrite <- Hll. cbn. destruct (post_read_buf r1) as [b1|]; cbn; [exact Hs|]. change (zlen (block None)) with 0 in *.
    assert (live r = []) as -> by (apply zlen_zero_inv; lia). done.
Qed.

Lemma body_read_spec hint r :
  reader_ok r -> idle r -> 0 <= hint < 2 ^ 63 -> (r.(post_file) = None -> 0 < rc.(post_buffering) -> r.(post_readline_pos) = 0) ->
  exists p r', body_read_plain env rc hint r = Ret (p, r') /\ reader_ok r' /\ read_post hint r p r'.
Proof.
  intros Hok Hi Hh Hmem. pose proof Hok as []. unfold body_read_plain. destruct (exhausted r) eqn:Ex.
  { pose proof (exhausted_unread r Hok Ex). eexists _, _. split; [done|]. by split. }
  pose proof (residual_live r Hok Hi Ex) as Hres. pose proof (live_len r Hok) as Hll. rewrite (wrap_small 64) by lia.
  pose proof (want_take hint r Hok ltac:(lia)) as Hwant. unfold read_post. rewrite <- Hwant. set (want := if hint <=? 0 then post_cl r else hint).
  assert (unread r = live r ++ rest r) as Eu by (unfold unread; by rewrite Hres).
  destruct (Z.ltb_spec 0 (post_readline_pos r)) as [Hp|Hp].
  - assert (0 < want < 2 ^ 63) as Hw by (subst want; destruct (Z.leb_spec hint 0); lia).
    rewrite (wrap_small 64) by lia. destruct (Z.leb_spec want (post_readline_watermark r - post_readline_pos r)) as [Hle|Hgt].
    + rewrite mslice_ok by lia. cbn [obind]. eexists _, _. split; [reflexivity|]. rewrite (wrap_small 64) by lia.
      split; [constructor; cbn; auto; lia|].
      assert (ztake want (unread r) = ztake want (live r)) as -> by (rewrite Eu; apply ztake_app_le; lia).
      split; [unfold live, slice; rewrite ztake_ztake by lia; done|]. split; [|split; [intros E; cbn in E; lia | split; [done | lia]]].
      unfold unread at 2, residual. cbn. destruct (Z.ltb_spec 0 (post_readline_pos r + want)); [|lia].
      rewrite (same_body_rest r) by by split_and!. rewrite app_assoc, Eu. f_equal. unfold live. cbn.
      rewrite (slice_split _ _ (post_readline_pos r + want)) by lia. f_equal. unfold slice. by replace (post_readline_pos r + want - post_readline_pos r) with want by lia.
    + destruct (move_residual_spec want r Hok Hp) as (ret & rem & rlen & r1 & -> & Hok1 & Hm); [lia|]. cbn [obind].
      destruct Hm as [(-> & Hsb & -> & -> & Hnl & Hsz & Hpre)|[-> Hfl]]; cbn [Z.eqb negb]; [|eexists _, _; split; [done|]; split; [done|]; split; [by left | done]].
      pose proof Hsb as (Ecl & _ & Ef & _).
      destruct (read_rest_spec (want - zlen (live r)) (zlen (live r)) r1) as (p & r' & -> & Hok' & Hpost); [done | done | lia | lia | lia | |].
      { intros E1 E2. rewrite Ef in E1. specialize (Hmem E1 E2). lia. }
      eexists _, _. split; [done|]. split; [done|]. rewrite Hpre in Hpost. pose proof (same_body_rest _ _ Hsb) as Er. destruct p as [|n|bs].
      * destruct Hpost as (E1 & E2 & E3 & E4 & E5). split; [rewrite Eu, E1, <- Er, E2; done|]. split; [done|].
        apply no_line_ready; [done|]. unfold same_mode in *. by rewrite <- Ef.
      * destruct Hpost as [? Hfl]. split; [done|]. by eapply same_body_fail.
      * destruct Hpost as (-> & E2 & E3 & E4). rewrite Er in *. split; [rewrite Eu, ztake_app_ge by lia; done|].
        split; [by rewrite <- app_assoc, <- E2|]. apply no_line_ready; [done|]. unfold same_mode in *. by rewrite <- Ef.
  - assert (no_line r) as Hnl.
    { split; [lia|]. destruct Hi as [?|E]; [lia | done |]. unfold exhausted in Ex. rewrite E, Z.leb_refl, orb_true_r in Ex. apply Z.eqb_neq in Ex. lia. }
    assert (0 < want < 2 ^ 63) as Hw.
    { unfold exhausted in Ex. destruct Hnl as [E _]. rewrite E, Z.eqb_refl, andb_true_r in Ex. apply orb_false_iff in Ex as [Ex _]. subst want. destruct (Z.leb_spec hint 0); lia. }
    pose proof (zlen_nonneg (block (post_read_buf r))). destruct (read_rest_spec want 0 r Hok Hnl) as (p & r' & -> & Hok' & Hpost); [done | lia | lia | done|].
    eexists _, _. split; [done|]. split; [done|]. rewrite (no_line_unread r Hnl). destruct p as [|n|bs]; [destruct Hpost as (_ & ? & ? & ? & ?); split_and!; try done; by apply no_line_ready | done|].
    destruct Hpost as (-> & E2 & E3 & E4). rewrite ztake_0. split; [done|]. split; [done | by apply no_line_ready].
Qed.

(** * Post buffering *)

(** The parts of the state that receiving changes. *)
Definition received (r : reader S C) (b : list Z) (f : option (list Z * Z)) (s : S) (c : C) (ws : list Z) : reader S C :=
  r<|post_buffering_buf := b|><|post_file := f|><|sd := s|><|conn := c|><|waits := ws|>.

Lemma received_again r b f s c ws b' f' s' c' ws' : received (received r b f s c ws) b' f' s' c' ws' = received r b' f' s' c' ws'.
Proof. done. Qed.

(** A failed call has no result; a call that succeeds has read [n] bytes. *)
Definition buffered (n : Z) (r : reader S C) (o : outcome (Z * reader S C)) (Q : list Z -> list Z -> option (list Z * Z) -> Prop) : Prop :=
  exists ret r', o = Ret (ret, r') /\
    (ret = 0 /\ (exists got b f s c ws, r' = received r b f s c ws /\ rs_inv s /\ src_inv c /\ zlen got = n /\
                   pending r.(conn) = got ++ pending c /\ Q got b f)
     \/ ret = -1).

Lemma in_mem_loop_spec fuel remains ptr r :
  rs_inv r.(sd) -> src_inv r.(conn) -> 0 <= remains < 2 ^ 60 -> 0 <= ptr -> ptr + remains <= zlen r.(post_buffering_buf) -> remains < Z.of_nat fuel ->
  buffered remains r (in_mem_loop fuel remains ptr r) (fun got b f =>
    ztake (ptr + remains) b = ztake ptr r.(post_buffering_buf) ++ got /\ zlen b = zlen r.(post_buffering_buf) /\ f = r.(post_file)).
Proof.
  revert remains ptr r. induction fuel as [|fuel IH]; intros remains ptr r Hs Hc Hrem Hptr Hsz Hf; [lia|]. cbn [in_mem_loop].
  destruct (Z.leb_spec remains 0) as [H0|H0].
  { assert (remains = 0) as -> by lia. eexists 0, r. split; [done|]. left. split; [done|].
    exists [], (post_buffering_buf r), (post_file r), (sd r), (conn r), (waits r). split; [by destruct r|]. by rewrite Z.add_0_r, app_nil_r. }
  destruct (body_recv_spec remains r) as (a & s & c & ws & -> & Hs' & Hc' & Ha); [done | done | lia|]. cbn [obind].
  destruct a as [bs|w|[]| |]; [| by eexists _, _; split; [reflexivity|]; right ..].
  destruct Ha as [Hp Hb].
  destruct (slice_write (post_buffering_buf r) 0 ptr bs) as (b & Eb & Hbl & Hsl & _); [lia | lia|].
  change (post_buffering_buf (r<|sd := s|><|conn := c|><|waits := ws|>)) with (post_buffering_buf r). rewrite Eb. cbn [obind]. rewrite (wrap_small 64) by lia.
  match goal with |- buffered _ _ (in_mem_loop _ _ _ ?x) _ => change x with (received r b (post_file r) s c ws) end.
  destruct (IH (remains - zlen bs) (ptr + zlen bs) (received r b (post_file r) s c ws)) as (ret & r' & -> & Hpost); [done | done | lia | lia | cbn; lia | lia|].
  eexists _, _. split; [reflexivity|]. destruct Hpost as [(-> & got & b' & f & s' & c' & ws' & -> & H1 & H2 & H3 & H4 & H5 & H6 & ->)| -> ]; [|by right].
  left. split; [done|]. exists (bs ++ got), b', (post_file r), s', c', ws'. split; [done|]. cbn in H4, H5, H6.
  do 2 (split; [done|]). split; [rewrite zlen_app; lia|]. split; [by rewrite Hp, H4, app_assoc|]. split; [|split; [lia | done]].
  unfold slice in Hsl. rewrite !Z.sub_0_r, !zdrop_0 in Hsl. rewrite app_assoc, <- Hsl, <- H5. f_equal. lia.
Qed.

Lemma in_disk_loop_spec fwrite_ok fuel remains data r :
  rs_inv r.(sd) -> src_inv r.(conn) -> 0 <= remains < 2 ^ 60 -> 0 < rc.(post_buffering_bufsize) < 2 ^ 60 ->
  rc.(post_buffering_bufsize) <= zlen r.(post_buffering_buf) -> r.(post_file) = Some (data, zlen data) -> remains < Z.of_nat fuel ->
  buffered remains r (in_disk_loop rc fwrite_ok fuel remains r) (fun got b f => f = Some (data ++ got, 0) /\ zlen b = zlen r.(post_buffering_buf)).
Proof.
  revert remains data r. induction fuel as [|fuel IH]; intros remains data r Hs Hc Hrem Hbs Hsz Hfile Hf; [lia|]. cbn [in_disk_loop].
  destruct (Z.leb_spec remains 0) as [H0|H0].
  { assert (remains = 0) as -> by lia. rewrite Hfile. eexists 0, _. split; [done|]. left. split; [done|].
    exists [], (post_buffering_buf r), (Some (data, 0)), (sd r), (conn r), (waits r). split; [by destruct r|]. by rewrite app_nil_r. }
  rewrite UMIN_spec. set (n := Z.min remains _). assert (0 < n /\ n <= remains /\ n <= post_buffering_bufsize rc) as (Hn1 & Hn2 & Hn3) by lia. clearbody n.
  destruct (body_recv_spec n r) as (a & s & c & ws & -> & Hs' & Hc' & Ha); [done | done | lia|]. cbn [obind].
  destruct a as [bs|w|w| |]; [| by eexists _, _; split; [reflexivity|]; right ..].
  destruct Ha as [Hp Hb].
  destruct (slice_write (post_buffering_buf r) 0 0 bs) as (b & Eb & Hbl & _); [lia | lia|].
  change (post_buffering_buf (r<|sd := s|><|conn := c|><|waits := ws|>)) with (post_buffering_buf r). rewrite Eb. cbn [obind].
  set (r1 := _<|post_buffering_buf := b|>). change (post_file r1) with (post_file r). rewrite Hfile. cbn [default from_option id].
  destruct (fwrite_ok (zlen data) (zlen bs)); [|by eexists _, _; split; [reflexivity|]; right].
  rewrite (wrap_small 64) by lia. rewrite <- zlen_app. change (r1<|post_file := Some (data ++ bs, zlen (data ++ bs))|>) with (received r b (Some (data ++ bs, zlen (data ++ bs))) s c ws).
  destruct (IH (remains - zlen bs) (data ++ bs) (received r b (Some (data ++ bs, zlen (data ++ bs))) s c ws)) as (ret & r' & -> & Hpost); [done | done | lia | lia | cbn; lia | done | lia|].
  eexists _, _. split; [reflexivity|]. destruct Hpost as [(-> & got & b' & f & s' & c' & ws' & -> & H1 & H2 & H3 & H4 & -> & H6)| -> ]; [|by right].
  left. split; [done|]. exists (bs ++ got), b', (Some (data ++ bs ++ got, 0)), s', c', ws'. cbn in H4, H6. rewrite <- app_assoc. split; [done|].
  do 2 (split; [done|]). split; [rewrite zlen_app; lia|]. split; [by rewrite Hp, H4, app_assoc|]. split; [done | lia].
Qed.

(** A request whose body was not touched. *)
Record untouched (r : reader S C) : Prop := {
  un_sched : rs_inv r.(sd);
  un_conn : src_inv r.(conn);
  un_pos : r.(post_pos) = 0;
  un_cl : 0 <= r.(post_cl) < 2 ^ 60;
  un_line : r.(post_readline_buf) = None /\ r.(post_readline_size) = 0 /\ no_line r;
  un_read : r.(post_read_buf) = None /\ r.(post_read_buf_size) = 0;
  un_file : r.(post_file) = None;
  un_buffer_size : 0 < rc.(buffer_size) < 2 ^ 32;
  un_buffering : 0 <= rc.(post_buffering);
  un_block : 0 < rc.(post_buffering) -> 0 < rc.(post_buffering_bufsize) < 2 ^ 60 /\ zlen r.(post_buffering_buf) = rc.(post_buffering_bufsize);
}.

(** The state after [got], the whole body, was put into a file or into
    memory. *)
Lemma received_ok r b f s c ws got :
  untouched r -> rs_inv s -> src_inv c -> zlen got = r.(post_cl) -> 0 < rc.(post_buffering) ->
  f = Some (got, 0) \/ f = None /\ ztake r.(post_cl) b = got /\ r.(post_cl) <= zlen b ->
  let r' := received r b f s c ws in reader_ok r' /\ no_line r' /\ unread r' = got.
Proof.
  intros [] Hs Hc Hg Hpb Hf r'. destruct un_line0 as (El & Es & Hnl). destruct un_read0 as (Er & Ers).
  assert (no_line r') as Hnl' by exact Hnl. destruct Hnl as [N1 N2].
  assert (reader_ok r') as Hok.
  { constructor; cbn; rewrite ?El, ?Er, ?Es, ?Ers, ?N1, ?N2, ?un_pos0; auto; try done; try lia.
    destruct Hf as [->|(-> & _ & Hf)]; [by split | by intros _]. }
  split; [done|]. split; [done|]. rewrite (no_line_unread r' Hnl'). unfold rest. cbn. rewrite un_pos0. unfold slice. rewrite Z.sub_0_r, !zdrop_0.
  destruct Hf as [->|(-> & <- & _)]; [rewrite zdrop_0; apply ztake_all; lia|]. destruct (Z.ltb_spec 0 (post_buffering rc)); [done | lia].
Qed.

Lemma in_mem_spec r :
  untouched r -> 0 < rc.(post_buffering) ->
  buffered r.(post_cl) r (upsgi_postbuffer_do_in_mem env rc r) (fun got b f => f = None /\ ztake r.(post_cl) b = got /\ r.(post_cl) <= zlen b).
Proof.
  intros Hu Hpb. pose proof Hu as []. destruct (un_block0 Hpb) as [Hbs Hbl]. unfold upsgi_postbuffer_do_in_mem.
  assert (forall b, r.(post_cl) <= zlen b ->
    buffered r.(post_cl) r (in_mem_loop (Datatypes.S (Z.to_nat r.(post_cl))) r.(post_cl) 0 (r<|post_buffering_buf := b|>))
      (fun got b f => f = None /\ ztake r.(post_cl) b = got /\ r.(post_cl) <= zlen b)) as Hloop.
  { intros b Hb. destruct (in_mem_loop_spec (Datatypes.S (Z.to_nat r.(post_cl))) r.(post_cl) 0 (r<|post_buffering_buf := b|>)) as (ret & r' & -> & Hpost); [done | done | lia | lia | cbn; lia | lia|].
    eexists _, _. split; [done|]. destruct Hpost as [(-> & got & b' & f & s & c & ws & -> & H1 & H2 & H3 & H4 & H5 & H6 & ->)| -> ]; [|by right].
    left. split; [done|]. exists got, b', None, s, c, ws. cbn in *. rewrite un_file0. split; [done|]. do 3 (split; [done|]). split; [done|].
    split; [done|]. split; [done | lia]. }
  destruct (Z.ltb_spec (post_buffering_bufsize rc) (post_cl r)) as [Hlt|Hge].
  - destruct (malloc env (post_cl r)) as [b|] eqn:Em; [|by eexists _, _; split; [reflexivity|]; right].
    apply malloc_len in Em; [|lia]. apply Hloop. lia.
  - pose proof (Hloop (post_buffering_buf r) ltac:(lia)) as H. replace (r<|post_buffering_buf := post_buffering_buf r|>) with r in H by (by destruct r). exact H.
Qed.

Lemma in_disk_spec tmpfile_ok fwrite_ok r :
  untouched r -> 0 < rc.(post_buffering) ->
  buffered r.(post_cl) r (upsgi_postbuffer_do_in_disk rc tmpfile_ok fwrite_ok r) (fun got b f => f = Some (got, 0)).
Proof.
  intros Hu Hpb. pose proof Hu as []. destruct (un_block0 Hpb) as [Hbs Hbl]. unfold upsgi_postbuffer_do_in_disk.
  destruct tmpfile_ok; cbn [negb]; [|by eexists _, _; split; [reflexivity|]; right].
  destruct (in_disk_loop_spec fwrite_ok (Datatypes.S (Z.to_nat r.(post_cl))) r.(post_cl) [] (r<|post_file := Some ([], 0)|>)) as (ret & r' & -> & Hpost);
    [done | done | lia | lia | cbn; lia | done | lia|].
  eexists _, _. split; [done|]. destruct Hpost as [(-> & got & b' & f & s & c & ws & -> & H1 & H2 & H3 & H4 & -> & _)| -> ]; [|by right].
  left. split; [done|]. by exists got, b', (Some (got, 0)), s, c, ws.
Qed.

(** Buffered or not, the request has its body before it. *)
Lemma post_buffer_spec tmpfile_ok fwrite_ok r :
  untouched r ->
  exists ret r', post_buffer env rc tmpfile_ok fwrite_ok r = Ret (ret, r') /\
    (ret = 0 /\ reader_ok r' /\ no_line r' /\ unread r' = ztake r.(post_cl) (pending r.(conn)) /\
       (0 < rc.(post_buffering) -> zlen (unread r') = r.(post_cl)) /\ (r'.(post_file) = None <-> r.(post_cl) < rc.(post_buffering) \/ rc.(post_buffering) = 0)
     \/ ret = -1).
Proof.
  intros Hu. pose proof Hu as []. unfold post_buffer. rewrite un_file0. destruct (Z.ltb_spec 0 (post_buffering rc)) as [Hpb|Hpb].
  - assert (forall o Q, buffered (post_cl r) r o Q -> (forall got b f, Q got b f -> f = Some (got, 0) /\ post_buffering rc <= post_cl r \/
        f = None /\ ztake r.(post_cl) b = got /\ r.(post_cl) <= zlen b /\ post_cl r < post_buffering rc) ->
      exists ret r', (let* (ret, r) := o in Ret (if negb (ret =? 0) then -1 else 0, r)) = Ret (ret, r') /\
       (ret = 0 /\ reader_ok r' /\ no_line r' /\ unread r' = ztake r.(post_cl) (pending r.(conn)) /\
         (0 < rc.(post_buffering) -> zlen (unread r') = r.(post_cl)) /\ (r'.(post_file) = None <-> r.(post_cl) < rc.(post_buffering) \/ rc.(post_buffering) = 0)
        \/ ret = -1)) as Hfin.
    { intros o Q (ret & r' & -> & Hpost) HQ. cbn [obind]. eexists _, _. split; [done|].
      destruct Hpost as [(-> & got & b & f & s & c & ws & -> & H1 & H2 & H3 & H4 & H5)| -> ]; [|by right]. left. split; [done|].
      specialize (HQ _ _ _ H5). destruct (received_ok r b f s c ws got Hu) as (A1 & A2 & A3); try done; [destruct HQ as [[? _]|(? & ? & ? & _)]; [by left | by right]|].
      rewrite A3, H4, ztake_app_length by lia. do 4 (split; [done|]). change (post_file (received r b f s c ws)) with f.
      destruct HQ as [[-> HQ]|(-> & _ & _ & HQ)]; split; try done; intros; lia. }
    destruct (Z.leb_spec (post_buffering rc) (post_cl r)).
    + eapply Hfin; [by apply in_disk_spec|]. intros got b f ->. by left.
    + eapply Hfin; [by apply in_mem_spec|]. intros got b f (-> & ? & ?). by right.
  - eexists 0, r. split; [done|]. left. split; [done|]. destruct un_line0 as (El & Es & Hnl). destruct un_read0 as (Er & Ers). pose proof Hnl as [N1 N2].
    split; [constructor; cbn; rewrite ?El, ?Er, ?Es, ?Ers, ?N1, ?N2, ?un_pos0, ?un_file0; auto; try done; lia|].
    split; [done|]. split; [|split; [lia | split; [intros _; right; lia | done]]].
    rewrite (no_line_unread r Hnl). unfold rest. rewrite un_file0, un_pos0, Z.sub_0_r. by destruct (Z.ltb_spec 0 (post_buffering rc)); [lia|].
Qed.

End proofs.
End ReaderProofs.
