(* ===== verification/ReaderTheorems.v ===== *)
(** The theorems on the reader of request bodies, at concrete requests too,
    and what the code gets wrong. *)
From S2P Require Import Prelude Clib Buffer BodySched ProtoBase Chunked Http Fastcgi FastcgiProofs Reader ReaderProofs.

Module ReaderTheorems.
Import Reader ReaderProofs.

(** The calls of an application. *)
Inductive body_op : Type := OpRead (hint : Z) | OpReadline.

Definition op_ok (op : body_op) : Prop := match op with OpRead hint => 0 <= hint < 2 ^ 63 | OpReadline => True end.
Definition is_read (op : body_op) : Prop := match op with OpRead _ => True | OpReadline => False end.

Section theorems.
Context {S C : Type} `{HR : ReadSched S} `{HO : !ReadSchedOk S} `{HB : BodySource C} `{HBO : !BodySourceOk C}.
Context (env : heap_env) (rc : reader_conf).

Definition body_call (op : body_op) (r : reader S C) : outcome (body_ptr * reader S C) :=
  match op with OpRead hint => body_read_plain env rc hint r | OpReadline => upsgi_request_body_readline env rc r end.

(** The bytes that a sequence of calls gives, up to the first one that
    fails. *)
Fixpoint run_calls (ops : list body_op) (r : reader S C) : outcome (list Z * bool * reader S C) :=
  match ops with
  | [] => Ret ([], true, r)
  | op :: ops =>
      let* (p, r) := body_call op r in
      match p with
      | PNull _ => Ret ([], false, r)
      | PEmpty => run_calls ops r
      | PBytes bs => let* (more, ok, r) := run_calls ops r in Ret (bs ++ more, ok, r)
      end
  end.

(** With a body in memory [read] must not follow [readline]: only calls of one
    kind. *)
Definition one_kind (ops : list body_op) (r : reader S C) : Prop :=
  r.(post_file) = None -> 0 < rc.(post_buffering) ->
  Forall is_read ops /\ r.(post_readline_pos) = 0 \/ Forall (fun op => ~ is_read op) ops.

(** A call: it returns, and gives the next bytes or has a reason to fail. *)
Lemma call_spec op ops (r : reader S C) :
  reader_ok rc r -> idle r -> op_ok op -> one_kind (op :: ops) r ->
  exists p r', body_call op r = Ret (p, r') /\
    match p with
    | PNull _ => may_fail env rc r
    | PEmpty => unread rc r = [] /\ unread rc r' = [] /\ reader_ok rc r' /\ idle r' /\ one_kind ops r' /\ same_mode r r'
    | PBytes bs => unread rc r = bs ++ unread rc r' /\ reader_ok rc r' /\ idle r' /\ one_kind ops r' /\ same_mode r r'
    end.
Proof.
  intros Hok Hi Hop Hk.
  assert (forall r', same_mode r r' -> (is_read op -> post_readline_pos r = 0 -> post_readline_pos r' = 0) -> one_kind ops r') as Hnext.
  { intros r' Hm Hp E1 E2. destruct (Hk (proj1 Hm E1) E2) as [[Hf Hz]|Hf].
    - apply Forall_cons in Hf as [H1 H2]. left. split; [done | by apply Hp].
    - apply Forall_cons in Hf as [H1 H2]. by right. }
  destruct op as [hint|]; cbn.
  - destruct (body_read_spec env rc hint r Hok Hi Hop) as (p & r' & -> & Hok' & Hp).
    { intros E1 E2. destruct (Hk E1 E2) as [[_ ?]|Hf]; [done|]. inversion Hf as [|? ? Hn]. by destruct Hn. }
    eexists _, _. split; [done|]. destruct p as [|n|bs].
    + destruct Hp as (? & ? & Hi' & Hm & Hz). do 4 (split; [done|]). split; [by apply Hnext | done].
    + by destruct Hp.
    + destruct Hp as (_ & ? & Hi' & Hm & Hz). do 3 (split; [done|]). split; [by apply Hnext | done].
  - destruct (body_readline_spec env rc r Hok Hi) as (p & r' & -> & Hok' & Hp). eexists _, _. split; [done|]. destruct p as [|n|bs].
    + destruct Hp as (? & ->). do 4 (split; [done|]). split; [by apply Hnext | done].
    + by destruct Hp.
    + destruct Hp as (_ & ? & Hi' & Hm). do 3 (split; [done|]). split; [by apply Hnext | done].
Qed.

Lemma same_mode_fail (r r' : reader S C) : same_mode r r' -> may_fail env rc r' -> may_fail env rc r.
Proof. intros Hm [[? ?]|?]; [left; split; [by apply Hm | done] | by right]. Qed.

Lemma run_calls_spec ops (r : reader S C) :
  reader_ok rc r -> idle r -> Forall op_ok ops -> one_kind ops r ->
  exists given ok r', run_calls ops r = Ret (given, ok, r') /\ given `prefix_of` unread rc r /\
    (ok = true -> unread rc r = given ++ unread rc r') /\ (ok = false -> may_fail env rc r).
Proof.
  revert r. induction ops as [|op ops IH]; intros r Hok Hi Hops Hk; cbn [run_calls].
  { eexists _, _, _. split; [done|]. split; [by eexists | done]. }
  inversion Hops as [|? ? Hop Hops']; subst. destruct (call_spec op ops r Hok Hi Hop Hk) as (p & r1 & -> & Hp). cbn [obind]. destruct p as [|n|bs].
  - destruct Hp as (E1 & E2 & Hok1 & Hi1 & Hk1 & Hm). destruct (IH r1 Hok1 Hi1 Hops' Hk1) as (given & ok & r' & -> & H1 & H2 & H3).
    eexists _, _, _. split; [done|]. rewrite E1. rewrite E2 in H1, H2. split; [done|]. split; [done|]. intros E. by eapply same_mode_fail; [|apply H3].
  - eexists _, _, _. split; [done|]. split; [by apply prefix_nil | done].
  - destruct Hp as (E1 & Hok1 & Hi1 & Hk1 & Hm). destruct (IH r1 Hok1 Hi1 Hops' Hk1) as (given & ok & r' & -> & H1 & H2 & H3). cbn [obind].
    eexists _, _, _. split; [done|]. rewrite E1. split; [by apply prefix_app|]. split; [|intros E; by eapply same_mode_fail; [|apply H3]].
    intros E. rewrite H2 by done. by rewrite app_assoc.
Qed.


(** C15: [readline] gives the next line with its newline, or what is left when
    there is none, and never more; it fails only when the body is read from
    the connection or when memory is short. *)
Theorem readline_exact (r : reader S C) :
  reader_ok rc r -> idle r ->
  exists p r', upsgi_request_body_readline env rc r = Ret (p, r') /\ reader_ok rc r' /\
    match p with
    | PEmpty => unread rc r = []
    | PBytes bs => bs = line_of (unread rc r) /\ unread rc r = bs ++ unread rc r' /\ idle r'
    | PNull n => n = -1 /\ may_fail env rc r
    end.
Proof.
  intros Hok Hi. destruct (body_readline_spec env rc r Hok Hi) as (p & r' & E & Hok' & Hp). exists p, r'. split; [exact E|]. split; [exact Hok'|].
  destruct p; cbn in Hp; tauto.
Qed.

End theorems.

(** * Concrete bodies *)

Definition sched0 : timed_sched := mk_timed (BodySched.initial 0 false) true [].
Definition request (cl : Z) (block : list Z) (head : string) (reads : list Http.read_result) (waits : list Z) : reader timed_sched base_conn :=
  mk_reader cl 0 None 0 0 0 None 0 None block 0 false sched0 (mk_base_conn (chars head) reads) waits.

Definition line1 : list Z := chars "ab" ++ [LF].
Definition line2 : list Z := chars "cdefgh".

(** The first bytes came with the head, then the socket is busy. *)
Definition slow_body : reader timed_sched base_conn :=
  request 9 (zrep 4 0) "a" [Http.RAgain; Http.RData (chars "b" ++ [LF] ++ chars "cd"); Http.RAgain; Http.RData (chars "efghxyz")] [1; 1; 1].

Definition rc_direct : reader_conf := mk_rconf 4 0 0 8.
Definition rc_disk : reader_conf := mk_rconf 4 5 4 8.
Definition rc_mem : reader_conf := mk_rconf 4 100 4 8.

Definition one_of (rc : reader_conf) : Prop := rc = rc_direct \/ rc = rc_disk \/ rc = rc_mem.

Lemma slow_untouched rc : one_of rc -> untouched rc slow_body.
Proof.
  intros Hrc. constructor; try done.
  - by destruct Hrc as [->|[->| ->]].
  - by destruct Hrc as [->|[->| ->]].
  - intros H. by destruct Hrc as [->|[->| ->]].
Qed.

Definition calls : list body_op := [OpReadline; OpRead 3; OpReadline].
Definition any_size : Z -> Z -> bool := fun _ _ => true.


Lemma readline_exact_witness :
  exists p r', upsgi_request_body_readline env4k rc_direct slow_body = Ret (p, r') /\ reader_ok rc_direct r' /\
    match p with
    | PEmpty => line1 ++ line2 = []
    | PBytes bs => bs = line1 /\ line1 ++ line2 = bs ++ unread rc_direct r' /\ idle r'
    | PNull n => n = -1 /\ may_fail env4k rc_direct slow_body
    end.
Proof.
  assert (reader_ok rc_direct slow_body) as Hok.
  { by constructor. }
  destruct (readline_exact env4k rc_direct slow_body Hok ltac:(by left)) as (p & r' & E & Hok' & Hp). exists p, r'. split; [exact E|]. split; [exact Hok' | exact Hp].
Defined.

(** What the calls give, in the three ways of keeping the body. *)
Definition given_by (rc : reader_conf) (ops : list body_op) (r : reader timed_sched base_conn) : outcome (list Z * bool) :=
  let* (ret, r) := post_buffer env4k rc true any_size r in
  let* (given, ok, _) := run_calls env4k rc ops r in Ret (given, ok && (ret =? 0)).

Example three_ways : Forall (fun rc => given_by rc [OpReadline; OpReadline] slow_body = Ret (line1 ++ line2, true)) [rc_direct; rc_disk; rc_mem].
Proof. repeat constructor; vm_compute; reflexivity. Qed.

(** * What the code gets wrong *)

(** With a body in memory, [read] after [readline] counts the bytes that
    [readline] has left but gives the ones behind them instead: here "c" is
    lost and "f" is given as the third byte. *)
Theorem read_after_readline_in_memory :
  given_by rc_mem [OpReadline; OpRead 3] slow_body = Ret (line1 ++ chars "def", true) /\
  given_by rc_disk [OpReadline; OpRead 3] slow_body = Ret (line1 ++ chars "cde", true).
Proof. split; vm_compute; reflexivity. Qed.

(** [seek] leaves the block of [readline] as it is: the last line is given
    twice after a return to the start. *)
Theorem seek_repeats_line :
  (let* (_, r) := upsgi_request_body_readline env4k rc_mem (request 2 (chars "ab--") "" [] []) in
   let* (p, _) := upsgi_request_body_readline env4k rc_mem (upsgi_request_body_seek rc_mem 0 r) in Ret p) = Ret (PBytes (chars "abab")).
Proof. vm_compute. reflexivity. Qed.

(** A timeout in the middle of a [read] loses the bytes that were received. *)
Theorem timeout_loses_bytes :
  let r := request 9 [] "" [Http.RData (chars "abc")] [] in
  (let* (p, r) := body_read_plain env4k rc_direct 9 r in Ret (p, post_pos r)) = Ret (PNull 0, 3).
Proof. vm_compute. reflexivity. Qed.

End ReaderTheorems.
