(* ===== verification/WireProto.v ===== *)
(** The two other protocols a front end may speak: the native one, which
    carries a packet of variables as it is (proto/upsgi.c), and SCGI
    (proto/scgi.c). *)
From S2P Require Import Prelude Clib Buffer Packet Http Protocol ProtocolProofs ReaderProofs.
Import Packet Http.

(** * The native protocol *)

Module Native.

(** [block] is the header of four bytes and [wsgi_req->buffer] behind it. *)
Record native_conn : Type := mk_native {
  block : list Z;
  parser_pos : Z;
  req_len : Z;
  remains : list Z;
}.
#[export] Instance expand_native : Expand native_conn := fun c =>
  mk_native (block c) (parser_pos c) (req_len c) (remains c).

(** [uh->_pktsize] *)
Definition pktsize (block : list Z) : outcome Z := read16 (zdrop 1 block).

(** One call: [rd] is what [read] of at most [buffer_size + 4 - pos] bytes
    returns. *)
Definition upsgi_proto_upsgi_parser (buffer_size : Z) (rd : read_result) (c : native_conn) : outcome (Z * native_conn) :=
  match rd with
  | RAgain => Ret (UPSGI_AGAIN, c)
  | RError | REof => Ret (-1, c)
  | RData bs =>
      let* b := mwrite c.(block) c.(parser_pos) bs in
      let c := c<|block := b|><|parser_pos := c.(parser_pos) + zlen bs|> in
      if 4 <=? c.(parser_pos) then
        let* size := pktsize b in
        let c := c<|req_len := size|> in
        if c.(parser_pos) - 4 =? size then Ret (UPSGI_OK, c)
        else if size <? c.(parser_pos) - 4 then
          let* more := mslice b (4 + size) (c.(parser_pos) - (4 + size)) in
          Ret (UPSGI_OK, c<|remains := more|>)
        else if buffer_size <? size then Ret (-1, c)
        else Ret (UPSGI_AGAIN, c)
      else Ret (UPSGI_AGAIN, c)
  end.

(** The event loop: a call per read, until one decides. *)
Fixpoint feed (buffer_size : Z) (reads : list (list Z)) (c : native_conn) : outcome (Z * native_conn) :=
  match reads with
  | [] => Ret (UPSGI_AGAIN, c)
  | bs :: reads =>
      let* (r, c) := upsgi_proto_upsgi_parser buffer_size (RData bs) c in
      if r =? UPSGI_AGAIN then feed buffer_size reads c else Ret (r, c)
  end.

(** The packet that was received. *)
Definition received (c : native_conn) : list Z := ztake c.(req_len) (zdrop 4 c.(block)).

Definition new_conn (buffer_size : Z) : native_conn := mk_native (zrep (4 + buffer_size) 0) 0 0 [].

(** ** What is received *)

(** The bytes [got] are in the block. *)
Record holding (bs : Z) (got : list Z) (c : native_conn) : Prop := {
  hd_block : zlen c.(block) = 4 + bs;
  hd_pos : c.(parser_pos) = zlen got;
  hd_bytes : ztake (zlen got) c.(block) = got;
  hd_rest : c.(remains) = [];
}.

Lemma store_piece bs got c p :
  holding bs got c -> zlen got + zlen p <= 4 + bs ->
  exists b, mwrite c.(block) c.(parser_pos) p = Ret b /\ zlen b = 4 + bs /\ ztake (zlen (got ++ p)) b = got ++ p.
Proof.
  intros [Hb Hp Hg _] Hl. zlen_facts. eexists. split; [apply mwrite_ok; lia|]. rewrite Hp, Hg. split.
  - rewrite !zlen_app, zlen_drop by lia. lia.
  - rewrite app_assoc. by apply ztake_app_length.
Qed.

Definition header (m1 m2 : Z) (body : list Z) : list Z := [m1] ++ le_bytes16 (zlen body) ++ [m2].

Lemma pktsize_header b got m1 m2 body more :
  ztake (zlen got) b = got -> got `prefix_of` header m1 m2 body ++ more -> 4 <= zlen got -> zlen body < 2 ^ 16 -> pktsize b = Ret (zlen body).
Proof.
  intros Hg [y Hy] H4 Hb. zlen_facts. assert (ztake 4 b = header m1 m2 body) as Hh.
  { rewrite <- (ztake_app_length 4 (header m1 m2 body) more), Hy, ztake_app_le by done. rewrite <- Hg. by rewrite ztake_ztake by lia. }
  unfold pktsize. rewrite <- (ztake_zdrop 4 b), Hh. unfold header. rewrite <- !app_assoc. rewrite (zdrop_app_length 1) by done.
  apply read16_le_bytes. lia.
Qed.

Lemma native_feed_app bs ps qs c :
  feed bs (ps ++ qs) c = let* (r, c) := feed bs ps c in if r =? UPSGI_AGAIN then feed bs qs c else Ret (r, c).
Proof.
  revert c. induction ps as [|p ps IH]; intros c; [done|]. cbn [app feed].
  destruct (upsgi_proto_upsgi_parser bs (RData p) c) as [[r c1]| | |]; cbn [obind]; try done.
  destruct (r =? UPSGI_AGAIN) eqn:E; [apply IH|]. cbn [obind]. by rewrite E.
Qed.

(** Nothing is decided before the last byte. *)
Lemma native_feed_waits bs m1 m2 body later extra ps got c :
  holding bs got c -> got ++ concat ps ++ later = header m1 m2 body ++ body ++ extra -> zlen body < 2 ^ 16 -> zlen body <= bs ->
  zlen (got ++ concat ps) < 4 + zlen body ->
  exists c', feed bs ps c = Ret (UPSGI_AGAIN, c') /\ holding bs (got ++ concat ps) c'.
Proof.
  intros Hc Hs Hb Hbs Hlt. revert got c Hc Hs Hlt. induction ps as [|p ps IH]; intros got c Hc Hs Hlt.
  - exists c. cbn [concat]. by rewrite app_nil_r.
  - cbn [concat] in *. zlen_facts. rewrite app_assoc in Hlt. rewrite <- !app_assoc in Hs. pose proof Hlt as Hlt'. rewrite zlen_app in Hlt'.
    zlen_facts. rewrite (zlen_app got p) in Hlt'.
    destruct (store_piece bs got c p Hc ltac:(lia)) as (b & Eb & Hbl & Hbt). destruct Hc as [Hcb Hcp _ Hcr].
    assert (exists l, upsgi_proto_upsgi_parser bs (RData p) c = Ret (UPSGI_AGAIN, mk_native b (zlen (got ++ p)) l [])) as (l & E).
    { unfold upsgi_proto_upsgi_parser. rewrite Eb. cbn [obind]. unfold setter. cbn -[Z.leb Z.ltb Z.eqb]. rewrite Hcp, <- zlen_app, Hcr.
      destruct (Z.leb_spec 4 (zlen (got ++ p))); [|by eexists].
      rewrite (pktsize_header b (got ++ p) m1 m2 body (body ++ extra)); [|done | exists (concat ps ++ later); by rewrite <- Hs, <- app_assoc | done | done].
      cbn [obind]. destruct (Z.eqb_spec (zlen (got ++ p) - 4) (zlen body)); [rewrite zlen_app in *; lia|].
      destruct (Z.ltb_spec (zlen body) (zlen (got ++ p) - 4)); [rewrite zlen_app in *; lia|].
      destruct (Z.ltb_spec bs (zlen body)); [lia|]. by eexists. }
    cbn [feed]. rewrite E. cbn [obind Z.eqb Pos.eqb]. rewrite app_assoc.
    apply IH; [by constructor | by rewrite <- !app_assoc | done].
Qed.

(** C24: a packet sent as a header and a block of variables, in whatever
    pieces it arrives, is received when its last byte is there and not
    before; the variables are read back from it as they were sent, and what
    came with its end are the first bytes of the body of the request. *)
Theorem native_request_roundtrip bs m1 m2 kvs pieces last extra :
  kvs_ok kvs -> zlen (encode kvs) < 2 ^ 16 -> concat pieces ++ last = header m1 m2 (encode kvs) ++ encode kvs ++ extra ->
  zlen (concat pieces) < 4 + zlen (encode kvs) -> 4 + zlen (encode kvs) + zlen extra <= 4 + bs ->
  (exists c, feed bs pieces (new_conn bs) = Ret (UPSGI_AGAIN, c)) /\
  exists c, feed bs (pieces ++ [last]) (new_conn bs) = Ret (UPSGI_OK, c) /\ received c = encode kvs /\
    upsgi_hooked_parse (received c) = Ret (0, kvs) /\ c.(remains) = extra.
Proof.
  intros Hk Hn Hs Hlt Hfit. pose proof (zlen_nonneg (encode kvs)). pose proof (zlen_nonneg extra).
  assert (zlen (header m1 m2 (encode kvs)) = 4) as H4 by done.
  assert (holding bs [] (new_conn bs)) as Hnew by (constructor; try done; cbn [block new_conn]; rewrite zlen_rep; lia).
  destruct (native_feed_waits bs m1 m2 (encode kvs) last extra pieces [] (new_conn bs) Hnew Hs ltac:(lia) ltac:(lia) ltac:(cbn [app]; lia)) as (c & Ef & Hc).
  cbn [app] in Hc. split; [by exists c|]. rewrite native_feed_app, Ef. cbn [obind Z.eqb Pos.eqb feed].
  assert (zlen (concat pieces) + zlen last = 4 + zlen (encode kvs) + zlen extra) as Hz.
  { rewrite <- zlen_app, Hs, !zlen_app. lia. }
  destruct (store_piece bs (concat pieces) c last Hc ltac:(lia)) as (b & Eb & Hbl & Hbt). destruct Hc as [_ Hp _ Hr].
  unfold upsgi_proto_upsgi_parser. rewrite Eb. cbn [obind]. unfold setter. cbn -[Z.leb Z.ltb Z.eqb].
  rewrite Hp, Hz, Hr. rewrite Hs in Hbt. destruct (Z.leb_spec 4 (4 + zlen (encode kvs) + zlen extra)); [|lia].
  rewrite (pktsize_header b (header m1 m2 (encode kvs) ++ encode kvs ++ extra) m1 m2 (encode kvs) (encode kvs ++ extra));
    [|done | done | rewrite !zlen_app; lia | done].
  assert (b = header m1 m2 (encode kvs) ++ encode kvs ++ extra ++ zdrop (4 + zlen (encode kvs) + zlen extra) b) as Ebb.
  { rewrite <- (ztake_zdrop (4 + zlen (encode kvs) + zlen extra) b) at 1. rewrite !zlen_app, H4, Z.add_assoc in Hbt. rewrite Hbt, <- !app_assoc. done. }
  assert (forall l, received (mk_native b l (zlen (encode kvs)) extra) = encode kvs) as Hrec.
  { intros l. unfold received. cbn [req_len block]. rewrite Ebb, (zdrop_app_length 4) by done. by apply ztake_app_length. }
  assert (forall l, upsgi_hooked_parse (received (mk_native b l (zlen (encode kvs)) extra)) = Ret (0, kvs)) as Hpar.
  { intros l. rewrite Hrec. unfold upsgi_hooked_parse. rewrite hooked_parse_loop_encode; [done | done | lia]. }
  cbn [obind]. destruct (Z.eqb_spec (4 + zlen (encode kvs) + zlen extra - 4) (zlen (encode kvs))).
  - assert (extra = []) as -> by (apply zlen_zero_inv; lia). cbn [obind Z.eqb]. eexists. split; [reflexivity|]. split; [apply Hrec|]. split; [apply Hpar | done].
  - destruct (Z.ltb_spec (zlen (encode kvs)) (4 + zlen (encode kvs) + zlen extra - 4)); [|lia].
    assert (mslice b (4 + zlen (encode kvs)) (4 + zlen (encode kvs) + zlen extra - (4 + zlen (encode kvs))) = Ret extra) as ->.
    { rewrite Ebb, app_assoc. apply mslice_at; [rewrite zlen_app, H4; lia | lia]. }
    cbn [obind Z.eqb]. eexists. split; [reflexivity|]. split; [apply Hrec|]. split; [apply Hpar | done].
Qed.


Lemma native_request_roundtrip_witness :
  let kvs := [([75], [118])] in
  (exists c, feed 64 [[7; 6]; [0; 9; 1; 0; 75]] (new_conn 64) = Ret (UPSGI_AGAIN, c)) /\
  exists c, feed 64 ([[7; 6]; [0; 9; 1; 0; 75]] ++ [[1; 0; 118; 33]]) (new_conn 64) = Ret (UPSGI_OK, c) /\ received c = encode kvs /\
    upsgi_hooked_parse (received c) = Ret (0, kvs) /\ c.(remains) = [33].
Proof.
  intros kvs. apply (native_request_roundtrip 64 7 9 kvs [[7; 6]; [0; 9; 1; 0; 75]] [1; 0; 118; 33] [33]);
    [by repeat constructor | done | done | done | done].
Defined.

(** A header that announces more than the buffer holds is refused at once. *)
Lemma native_too_large : exists c, feed 64 [[7; 65; 0; 9]] (new_conn 64) = Ret (-1, c).
Proof. eexists. vm_compute. reflexivity. Qed.

End Native.

(** * SCGI *)

Module Scgi.

Record scgi_env : Type := mk_scgi_env {
  buffer_size : Z;
  scgi_modifier1 : Z;
  scgi_modifier2 : Z;
  scgi_junk : Z;
}.

(** [parser_buf] is the block that the first call allocates. *)
Record scgi_conn : Type := mk_scgi {
  parser_buf : option (list Z);
  parser_pos : Z;
  pkt : packet;
  remains : list Z;
  modifier1 : Z;
  modifier2 : Z;
}.
#[export] Instance expand_scgi : Expand scgi_conn := fun c =>
  mk_scgi (parser_buf c) (parser_pos c) (pkt c) (remains c) (modifier1 c) (modifier2 c).

(** The local variables of the loop over the variables; pointers are
    offsets. *)
Record scan : Type := mk_scan {
  key : option Z;
  keylen : Z;
  value : option Z;
}.

Definition fresh_scan : scan := mk_scan None 0 None.

Definition scan_point (i : Z) (s : scan) : scan :=
  match s.(key) with
  | None => mk_scan (Some i) s.(keylen) s.(value)
  | Some _ => if (0 <? s.(keylen)) && bool_decide (s.(value) = None) then mk_scan s.(key) s.(keylen) (Some i) else s
  end.

Fixpoint vars_loop (fuel : nat) (e : scgi_env) (buf : list Z) (i last : Z) (s : scan) (p : packet) : outcome (Z * packet) :=
  match fuel with
  | O => NoFuel
  | S fuel =>
      if i <? last then
        let s := scan_point i s in
        let* c := mread buf i in
        if c =? 0 then
          match s.(value) with
          | Some v =>
              let* k := mslice buf (default 0 s.(key)) (u16 s.(keylen)) in
              let* val := mslice buf v (u16 (i - v)) in
              let* (n, p) := proto_base_add_upsgi_var e.(buffer_size) k val p in
              let pktsize := u16 n in
              if pktsize =? 0 then Ret (-1, p)
              else vars_loop fuel e buf (i + 1) last fresh_scan (p<|plen := u64 (p.(plen) + pktsize)|>)
          | None => vars_loop fuel e buf (i + 1) last (mk_scan s.(key) (i - default 0 s.(key)) None) p
          end
        else vars_loop fuel e buf (i + 1) last s p
      else Ret (0, p)
  end.

(** 1: a request, 0: more bytes are needed, -1: no request. *)
Definition scgi_parse (e : scgi_env) (buf : list Z) (c : scgi_conn) : outcome (Z * scgi_conn) :=
  let len := c.(parser_pos) in
  match memchr (ztake len buf) 58 with
  | None => Ret (0, c)
  | Some i =>
      let* scgi_len := Protocol.upsgi_str_num (ztake i buf) in
      if scgi_len =? 0 then Ret (-1, c)
      else if len <? u64 (i + scgi_len + 1) then Ret (0, c)
      else
        let vars := i + 1 in
        let last := u64 (vars + scgi_len) in
        let* (ret, p) := vars_loop (S (length buf)) e buf vars last (mk_scan (Some vars) 0 None) c.(pkt) in
        let c := c<|pkt := p|> in
        if ret <? 0 then Ret (-1, c)
        else
          let i := if vars <=? last then last else vars in
          let* b := mread buf i in
          if b =? 44 then
            if i + 1 <? len then let* more := mslice buf (i + 1) (len - (i + 1)) in Ret (1, c<|remains := more|>)
            else Ret (1, c)
          else Ret (-1, c)
  end.

(** One call: [rd] is what [read] of at most [buffer_size - pos] bytes
    returns. *)
Definition upsgi_proto_scgi_parser (e : scgi_env) (rd : read_result) (c : scgi_conn) : outcome (Z * scgi_conn) :=
  let buf := match c.(parser_buf) with Some b => b | None => zrep e.(buffer_size) e.(scgi_junk) end in
  let c := c<|parser_buf := Some buf|> in
  if e.(buffer_size) - c.(parser_pos) =? 0 then Ret (-1, c)
  else
    match rd with
    | RAgain => Ret (UPSGI_AGAIN, c)
    | RError | REof => Ret (-1, c)
    | RData bs =>
        let* buf := mwrite buf c.(parser_pos) bs in
        let c := c<|parser_buf := Some buf|><|parser_pos := c.(parser_pos) + zlen bs|> in
        let* (ret, c) := scgi_parse e buf c in
        if 0 <? ret then Ret (UPSGI_OK, c<|modifier1 := e.(scgi_modifier1)|><|modifier2 := e.(scgi_modifier2)|>)
        else if ret =? 0 then Ret (UPSGI_AGAIN, c)
        else Ret (-1, c)
    end.

Fixpoint feed (e : scgi_env) (reads : list (list Z)) (c : scgi_conn) : outcome (Z * scgi_conn) :=
  match reads with
  | [] => Ret (UPSGI_AGAIN, c)
  | bs :: reads =>
      let* (r, c) := upsgi_proto_scgi_parser e (RData bs) c in
      if r =? UPSGI_AGAIN then feed e reads c else Ret (r, c)
  end.

Definition new_conn (e : scgi_env) : scgi_conn := mk_scgi None 0 (mk_packet (zrep e.(buffer_size) 0) 0) [] 0 0.

(** ** The loop over the variables *)

(** [i] is the end of [pre] in the block [pre ++ l ++ post]. *)
Lemma mread_mid pre (c : Z) post : mread (pre ++ c :: post) (zlen pre) = Ret c.
Proof. rewrite <- (Z.add_0_r (zlen pre)). by rewrite mread_app_r by lia. Qed.

Definition no_nul (l : list Z) : Prop := Forall (fun c => c <> 0) l.

Lemma skip_bytes e s p last post l : (forall i, scan_point i s = s) -> no_nul l -> forall pre fuel,
  zlen pre + zlen l <= last ->
  vars_loop (length l + fuel) e (pre ++ l ++ post) (zlen pre) last s p = vars_loop fuel e (pre ++ l ++ post) (zlen pre + zlen l) last s p.
Proof.
  intros Hs Hl. induction Hl as [|c l Hc Hl IH]; intros pre fuel Hle.
  - cbn [length Nat.add app]. change (@zlen Z []) with 0. by rewrite Z.add_0_r.
  - rewrite zlen_cons in *. pose proof (zlen_nonneg l). pose proof (zlen_nonneg pre). cbn [length Nat.add vars_loop app].
    destruct (Z.ltb_spec (zlen pre) last); [|lia]. rewrite Hs, mread_mid. cbn [obind]. destruct (Z.eqb_spec c 0); [done|].
    pose proof (IH (pre ++ [c]) fuel) as E. rewrite <- !app_assoc, !zlen_app in E. change (zlen [c]) with 1 in E. cbn [app] in E.
    rewrite E by lia. f_equal. lia.
Qed.

Lemma vars_point e buf i last s p fuel : scan_point i (scan_point i s) = scan_point i s ->
  vars_loop fuel e buf i last s p = vars_loop fuel e buf i last (scan_point i s) p.
Proof. intros E. destruct fuel; [done|]. cbn [vars_loop]. by rewrite E. Qed.

(** The text of a variable, and the request that carries it. *)
Definition var_text (kv : Packet.kv) : list Z := kv.1 ++ [0] ++ kv.2 ++ [0].

Record var_ok (kv : Packet.kv) : Prop := {
  vo_key : kv.1 <> [];
  vo_key_text : no_nul kv.1;
  vo_value_text : no_nul kv.2;
  vo_size : zlen kv.1 + zlen kv.2 + 4 < 2 ^ 16;
}.

Lemma scan_var e pre kv post last fuel s p :
  var_ok kv -> zlen pre + zlen (var_text kv) <= last ->
  s = mk_scan (Some (zlen pre)) 0 None \/ s = fresh_scan ->
  vars_loop (length (var_text kv) + fuel) e (pre ++ var_text kv ++ post) (zlen pre) last s p =
    let* (n, p) := proto_base_add_upsgi_var e.(buffer_size) kv.1 kv.2 p in
    if u16 n =? 0 then Ret (-1, p)
    else vars_loop fuel e (pre ++ var_text kv ++ post) (zlen pre + zlen (var_text kv)) last fresh_scan (p<|plen := u64 (p.(plen) + u16 n)|>).
Proof.
  intros [Hne Hk Hv Hsz] Hlast Hs. destruct kv as [k v]. unfold var_text in *. cbn [fst snd] in *.
  assert (vars_loop (length (k ++ [0] ++ v ++ [0]) + fuel) e (pre ++ (k ++ [0] ++ v ++ [0]) ++ post) (zlen pre) last s p =
    vars_loop (length (k ++ [0] ++ v ++ [0]) + fuel) e (pre ++ (k ++ [0] ++ v ++ [0]) ++ post) (zlen pre) last (mk_scan (Some (zlen pre)) 0 None) p) as ->.
  { destruct Hs as [->| ->]; [done | by rewrite vars_point]. }
  rewrite !zlen_app in Hlast. change (zlen [0]) with 1 in *. pose proof (zlen_nonneg v). pose proof (zlen_nonneg pre).
  assert (0 < zlen k) as Hk0 by (destruct k; [done|]; rewrite zlen_cons; pose proof (zlen_nonneg k); lia).
  set (buf := pre ++ (k ++ [0] ++ v ++ [0]) ++ post) in *.
  assert (buf = pre ++ k ++ 0 :: v ++ 0 :: post) as E1 by (unfold buf; by rewrite <- !app_assoc).
  assert (buf = (pre ++ k) ++ 0 :: v ++ 0 :: post) as E2 by (by rewrite E1, <- !app_assoc).
  assert (buf = (pre ++ k ++ [0]) ++ v ++ 0 :: post) as E3 by (by rewrite E1, <- !app_assoc).
  assert (buf = (pre ++ k ++ [0] ++ v) ++ 0 :: post) as E4 by (by rewrite E1, <- !app_assoc).
  assert (zlen (pre ++ k) = zlen pre + zlen k) as Z2 by apply zlen_app.
  assert (zlen (pre ++ k ++ [0]) = zlen pre + zlen k + 1) as Z3 by (rewrite !zlen_app; change (zlen [0]) with 1; lia).
  assert (zlen (pre ++ k ++ [0] ++ v) = zlen pre + zlen k + 1 + zlen v) as Z4 by (rewrite !zlen_app; change (zlen [0]) with 1; lia).
  assert (zlen (k ++ [0] ++ v ++ [0]) = zlen k + 1 + zlen v + 1) as Z5 by (rewrite !zlen_app; change (zlen [0]) with 1; lia).
  replace (length (k ++ [0%Z] ++ v ++ [0%Z]) + fuel)%nat with (length k + (1 + (length v + (1 + fuel))))%nat by (rewrite !length_app; cbn [length]; lia).
  rewrite E1, (skip_bytes e (mk_scan (Some (zlen pre)) 0 None) p last _ k) by (done || lia). rewrite <- E1.
  (* the end of the key *)
  cbn [Nat.add vars_loop]. destruct (Z.ltb_spec (zlen pre + zlen k) last); [|lia].
  change (scan_point (zlen pre + zlen k) (mk_scan (Some (zlen pre)) 0 None)) with (mk_scan (Some (zlen pre)) 0 None).
  rewrite <- Z2. rewrite E2 at 1. rewrite mread_mid. cbn [obind Z.eqb value key keylen]. rewrite Z2.
  change (default 0 (Some (zlen pre))) with (zlen pre). replace (zlen pre + zlen k - zlen pre) with (zlen k) by lia.
  (* the value *)
  assert (scan_point (zlen pre + zlen k + 1) (mk_scan (Some (zlen pre)) (zlen k) None) = mk_scan (Some (zlen pre)) (zlen k) (Some (zlen pre + zlen k + 1))) as Ep.
  { unfold scan_point. cbn [key keylen value]. destruct (Z.ltb_spec 0 (zlen k)); [done | lia]. }
  assert (forall i, scan_point i (mk_scan (Some (zlen pre)) (zlen k) (Some (zlen pre + zlen k + 1))) = mk_scan (Some (zlen pre)) (zlen k) (Some (zlen pre + zlen k + 1))) as Est.
  { intros i. unfold scan_point. cbn [key keylen value]. by rewrite andb_false_r. }
  rewrite (vars_point _ _ (zlen pre + zlen k + 1) _ (mk_scan (Some (zlen pre)) (zlen k) None)), Ep by (by rewrite Ep, Est). rewrite <- Z3. rewrite E3 at 1. rewrite skip_bytes by (rewrite ?Z3; done || lia). rewrite <- E3.
  (* its end *)
  rewrite Z3. cbn [Nat.add vars_loop]. destruct (Z.ltb_spec (zlen pre + zlen k + 1 + zlen v) last); [|lia]. rewrite Est, <- Z4.
  rewrite E4 at 1. rewrite mread_mid. cbn [obind Z.eqb value key keylen]. rewrite Z4. change (default 0 (Some (zlen pre))) with (zlen pre).
  rewrite (wrap_small 16) by lia. rewrite E1 at 1. rewrite mslice_at by done. cbn [obind].
  replace (zlen pre + zlen k + 1 + zlen v - (zlen pre + zlen k + 1)) with (zlen v) by lia.
  rewrite (wrap_small 16) by lia. rewrite E3 at 1. rewrite mslice_at by done. cbn [obind].
  rewrite Z5. replace (zlen pre + (zlen k + 1 + zlen v + 1)) with (zlen pre + zlen k + 1 + zlen v + 1) by lia. done.
Qed.

Definition texts (kvs : list Packet.kv) : list Z := kvs ≫= var_text.

Lemma scan_vars e kvs : Forall var_ok kvs -> forall pre post sofar s p fuel,
  packet_ok e.(buffer_size) sofar p -> p.(plen) + zlen (encode kvs) < e.(buffer_size) ->
  s = mk_scan (Some (zlen pre)) 0 None \/ s = fresh_scan ->
  exists p', vars_loop (length (texts kvs) + S fuel) e (pre ++ texts kvs ++ post) (zlen pre) (zlen pre + zlen (texts kvs)) s p = Ret (0, p') /\
    packet_ok e.(buffer_size) (sofar ++ kvs) p'.
Proof.
  induction 1 as [|kv kvs Hkv Hkvs IH]; intros pre post sofar s p fuel Hp Hfit Hs.
  - exists p. change (texts []) with (@nil Z). change (@zlen Z []) with 0. rewrite Z.add_0_r, app_nil_r. cbn [length Nat.add vars_loop app].
    destruct (Z.ltb_spec (zlen pre) (zlen pre)); [lia | done].
  - change (texts (kv :: kvs)) with (var_text kv ++ texts kvs). rewrite <- app_assoc, length_app, <- Nat.add_assoc. pose proof (zlen_nonneg (texts kvs)).
    rewrite scan_var by (rewrite ?zlen_app; done || lia). rewrite zlen_app, Z.add_assoc, <- zlen_app. destruct kv as [k v]. rewrite encode_cons, zlen_app, zlen_var_block in Hfit.
    pose proof Hkv as [Hne _ _ Hsz]. cbn [fst snd] in *. pose proof (zlen_nonneg v). pose proof (zlen_nonneg k). pose proof (zlen_nonneg (encode kvs)).
    assert (0 < zlen k) by (destruct k; [done|]; rewrite zlen_cons; pose proof (zlen_nonneg k); lia).
    destruct (add_upsgi_var_spec _ sofar p k v Hp) as [(Hlt & p1 & E & Hp1 & Epl)|[? _]]; [unfold key_ok; lia | unfold val_ok; lia | | lia].
    rewrite E. cbn [obind]. rewrite (wrap_small 16) by lia. destruct (Z.eqb_spec (zlen k + zlen v + 4) 0); [lia|].
    pose proof (pk_len _ _ _ Hp). pose proof (pk_size _ _ _ Hp). rewrite Epl, (wrap_small 64) by lia.
    rewrite (app_assoc pre). destruct (IH (pre ++ var_text (k, v)) post (sofar ++ [(k, v)]) fresh_scan _ fuel Hp1) as (p' & E' & Hp'); [cbn; lia | by right|].
    exists p'. rewrite <- app_assoc in Hp'. split; [exact E' | done].
Qed.

(** ** The request *)

Definition netstring (l : list Z) : list Z := digits 10 (zlen l) ++ 58 :: l ++ [44].

Lemma find_colon n x : memchr (digits 10 n ++ 58 :: x) 58 = Some (zlen (digits 10 n)).
Proof. apply ProtocolProofs.memchr_digits; [apply ProtocolProofs.all_digits_digits | done]. Qed.

(** The bytes [got] are in [buf] and the request is not complete. *)
Lemma parse_waits e buf c got l more :
  ztake (zlen got) buf = got -> c.(parser_pos) = zlen got -> got `prefix_of` netstring l ++ more -> 0 < zlen l < 10 ^ 18 ->
  zlen got < zlen (digits 10 (zlen l)) + 1 + zlen l -> scgi_parse e buf c = Ret (0, c).
Proof.
  intros Hg Hp [y Hy] Hl Hlt. unfold scgi_parse. rewrite Hp, Hg. set (d := digits 10 (zlen l)) in *.
  pose proof (ProtocolProofs.zlen_digits (zlen l) ltac:(lia)) as Hd. fold d in Hd. unfold netstring in Hy. fold d in Hy. rewrite <- app_assoc in Hy.
  destruct (Z.le_gt_cases (zlen got) (zlen d)) as [Hle|Hgt].
  - assert (got = ztake (zlen got) d) as Eg by (rewrite <- (ztake_app_le (zlen got) d ((58 :: l ++ [44]) ++ more)), Hy by done; by rewrite ztake_app_length).
    rewrite (ProtocolProofs.memchr_digits_none got 58); [done| |done]. rewrite Eg.
    pose proof (ProtocolProofs.all_digits_digits (zlen l)) as Ha. fold d in Ha. rewrite <- (ztake_zdrop (zlen got) d) in Ha.
    rewrite ProtocolProofs.all_digits_app in Ha. by apply andb_true_iff in Ha as [? _].
  - assert (exists x, got = d ++ 58 :: x) as [x Ex].
    { exists (zdrop (zlen d + 1) got). rewrite <- (ztake_zdrop (zlen d + 1) got) at 1.
      assert (ztake (zlen d + 1) got = d ++ [58]) as ->; [|by rewrite <- app_assoc].
      rewrite <- (ztake_app_le (zlen d + 1) got y), <- Hy by lia. cbn [app]. change (58 :: (l ++ [44]) ++ more) with ([58] ++ (l ++ [44]) ++ more).
      rewrite app_assoc. apply ztake_app_length. rewrite zlen_app. done. }
    assert (memchr got 58 = Some (zlen d)) as -> by (rewrite Ex; apply find_colon). assert (ztake (zlen d) buf = d) as Ed.
    { rewrite <- (ztake_ztake (zlen d) (zlen got)), Hg, Ex by lia. by apply ztake_app_length. }
    rewrite Ed. unfold d at 1. rewrite ProtocolProofs.str_num_digits by lia. cbn [obind]. destruct (Z.eqb_spec (zlen l) 0); [lia|].
    rewrite (wrap_small 64) by lia. destruct (Z.ltb_spec (zlen got) (zlen d + zlen l + 1)); [done | lia].
Qed.

Lemma parse_done e buf c kvs extra :
  ztake c.(parser_pos) buf = netstring (texts kvs) ++ extra -> c.(parser_pos) = zlen (netstring (texts kvs) ++ extra) -> c.(parser_pos) <= zlen buf ->
  Forall var_ok kvs -> 0 < zlen (texts kvs) < 10 ^ 18 -> packet_ok e.(buffer_size) [] c.(pkt) -> c.(pkt).(plen) = 0 ->
  zlen (encode kvs) < e.(buffer_size) -> c.(remains) = [] -> zlen extra < 2 ^ 60 ->
  exists c', scgi_parse e buf c = Ret (1, c') /\ packet_ok e.(buffer_size) kvs c'.(pkt) /\ c'.(remains) = extra.
Proof.
  intros Hg Hp Hb Hkvs Hl Hpk Hp0 Hfit Hr Hx. unfold scgi_parse. rewrite Hg. set (l := texts kvs) in *.
  pose proof (ProtocolProofs.zlen_digits (zlen l) ltac:(lia)) as Hd. unfold netstring in *. set (d := digits 10 (zlen l)) in *.
  pose proof (zlen_nonneg extra) as Hxn. rewrite <- app_assoc in Hg, Hp |- *. cbn [app] in Hg, Hp |- *. unfold d at 1. rewrite find_colon. fold d.
  assert (buf = d ++ 58 :: l ++ 44 :: extra ++ zdrop (parser_pos c) buf) as Eb.
  { rewrite <- (ztake_zdrop (parser_pos c) buf) at 1. rewrite Hg, <- !app_assoc. cbn [app]. by rewrite <- !app_assoc. }
  assert (ztake (zlen d) buf = d) as -> by (rewrite Eb; by apply ztake_app_length).
  assert (Protocol.upsgi_str_num d = Ret (zlen l)) as -> by (apply ProtocolProofs.str_num_digits; lia). cbn [obind].
  destruct (Z.eqb_spec (zlen l) 0); [lia|]. rewrite !zlen_app, zlen_cons, !zlen_app in Hp. change (zlen [44]) with 1 in Hp.
  rewrite !(wrap_small 64) by lia. destruct (Z.ltb_spec (parser_pos c) (zlen d + zlen l + 1)); [lia|].
  set (pre := d ++ [58]). assert (zlen pre = zlen d + 1) as Zp by (unfold pre; by rewrite zlen_app).
  assert (buf = pre ++ l ++ 44 :: extra ++ zdrop (parser_pos c) buf) as Eb2 by (rewrite Eb at 1; unfold pre; by rewrite <- !app_assoc).
  assert (exists fuel, S (length buf) = (length l + S fuel)%nat) as [fuel Ef].
  { exists (length buf - length l)%nat. rewrite Eb. rewrite !length_app. cbn [length]. rewrite !length_app. cbn [length]. lia. }
  destruct (scan_vars e kvs Hkvs pre (44 :: extra ++ zdrop (parser_pos c) buf) [] (mk_scan (Some (zlen pre)) 0 None) (pkt c) fuel) as (p' & Es & Hp');
    [done | lia | by left|]. fold l in Es. rewrite <- Eb2, <- Ef, Zp in Es. rewrite Es. cbn [obind Z.ltb Z.compare].
  destruct (Z.leb_spec (zlen d + 1) (zlen d + 1 + zlen l)); [|lia].
  assert (mread buf (zlen d + 1 + zlen l) = Ret 44) as ->.
  { rewrite Eb2, app_assoc. replace (zlen d + 1 + zlen l) with (zlen (pre ++ l)) by (rewrite zlen_app; lia). apply mread_mid. }
  cbn [obind Z.eqb Pos.eqb]. destruct (Z.ltb_spec (zlen d + 1 + zlen l + 1) (parser_pos c)).
  - assert (mslice buf (zlen d + 1 + zlen l + 1) (parser_pos c - (zlen d + 1 + zlen l + 1)) = Ret extra) as ->.
    { rewrite Eb2, app_assoc. change (44 :: extra ++ zdrop (parser_pos c) buf) with ([44] ++ extra ++ zdrop (parser_pos c) buf). rewrite (app_assoc _ [44]).
      apply mslice_at; [rewrite !zlen_app, Zp; change (zlen [44]) with 1; lia | lia]. }
    cbn [obind]. eexists. split; [reflexivity | done].
  - assert (extra = []) as -> by (apply zlen_zero_inv; lia). eexists. split; [reflexivity | done].
Qed.

(** ** The connection *)

Record holding (e : scgi_env) (got : list Z) (c : scgi_conn) : Prop := {
  hd_block : match c.(parser_buf) with Some b => zlen b = e.(buffer_size) /\ ztake (zlen got) b = got | None => got = [] end;
  hd_pos : c.(parser_pos) = zlen got;
  hd_pkt : c.(pkt) = mk_packet (zrep e.(buffer_size) 0) 0;
  hd_rest : c.(remains) = [];
}.

(** A piece is stored and the parser called. *)
Lemma piece_stored e got c p :
  holding e got c -> zlen got < e.(buffer_size) -> zlen got + zlen p <= e.(buffer_size) ->
  exists b c1, holding e (got ++ p) c1 /\ c1.(parser_buf) = Some b /\
    upsgi_proto_scgi_parser e (RData p) c =
      let* (ret, c) := scgi_parse e b c1 in
      if 0 <? ret then Ret (UPSGI_OK, c<|modifier1 := e.(scgi_modifier1)|><|modifier2 := e.(scgi_modifier2)|>)
      else if ret =? 0 then Ret (UPSGI_AGAIN, c) else Ret (-1, c).
Proof.
  intros [Hb Hp Hk Hr] Hlt Hle. zlen_facts. unfold upsgi_proto_scgi_parser.
  set (buf := match parser_buf c with Some b => b | None => zrep (buffer_size e) (scgi_junk e) end).
  assert (zlen buf = buffer_size e /\ ztake (zlen got) buf = got) as [Hbl Hbt].
  { unfold buf. destruct (parser_buf c); [done|]. subst got. rewrite zlen_rep by lia. done. }
  destruct (ReaderProofs.slice_write buf 0 (zlen got) p) as (b & Eb & Hl & Hs & _); [lia | lia|]. unfold ReaderProofs.slice in Hs. rewrite !Z.sub_0_r, !zdrop_0, Hbt in Hs.
  exists b, (mk_scgi (Some b) (zlen (got ++ p)) (pkt c) (remains c) (modifier1 c) (modifier2 c)).
  split; [constructor; cbn; try done; split; [lia | by rewrite zlen_app]|]. split; [done|].
  unfold setter. cbn -[Z.eqb Z.ltb]. rewrite Hp. destruct (Z.eqb_spec (buffer_size e - zlen got) 0); [lia|].
  rewrite Eb. cbn [obind]. by rewrite <- zlen_app.
Qed.

Lemma scgi_feed_app e ps qs c :
  feed e (ps ++ qs) c = let* (r, c) := feed e ps c in if r =? UPSGI_AGAIN then feed e qs c else Ret (r, c).
Proof.
  revert c. induction ps as [|p ps IH]; intros c; [done|]. cbn [app feed].
  destruct (upsgi_proto_scgi_parser e (RData p) c) as [[r c1]| | |]; cbn [obind]; try done.
  destruct (r =? UPSGI_AGAIN) eqn:E; [apply IH|]. cbn [obind]. by rewrite E.
Qed.

Lemma scgi_feed_waits e l later extra ps got c :
  holding e got c -> got ++ concat ps ++ later = netstring l ++ extra -> 0 < zlen l < 10 ^ 18 -> zlen (netstring l) <= e.(buffer_size) ->
  zlen (got ++ concat ps) < zlen (digits 10 (zlen l)) + 1 + zlen l ->
  exists c', feed e ps c = Ret (UPSGI_AGAIN, c') /\ holding e (got ++ concat ps) c'.
Proof.
  intros Hc Hs Hl Hbs Hlt. revert got c Hc Hs Hlt. induction ps as [|p ps IH]; intros got c Hc Hs Hlt.
  - exists c. cbn [concat]. by rewrite app_nil_r.
  - cbn [concat] in *. rewrite app_assoc in Hlt. rewrite <- !app_assoc in Hs. pose proof Hlt as Hlt'. rewrite zlen_app, (zlen_app got p) in Hlt'.
    pose proof (zlen_nonneg p). pose proof (zlen_nonneg got). pose proof (zlen_nonneg (concat ps)).
    pose proof Hbs as Hbs'. unfold netstring in Hbs'. rewrite zlen_app, zlen_cons, zlen_app in Hbs'. change (zlen [44]) with 1 in Hbs'.
    destruct (piece_stored e got c p Hc ltac:(lia) ltac:(lia)) as (b & c1 & Hc1 & Eb & E).
    pose proof (hd_block _ _ _ Hc1) as Hb1. rewrite Eb in Hb1.
    assert (scgi_parse e b c1 = Ret (0, c1)) as Ew.
    { apply (parse_waits e b c1 (got ++ p) l extra); [apply Hb1 | by apply Hc1 | | done | rewrite zlen_app; lia].
      exists (concat ps ++ later). by rewrite <- Hs, <- app_assoc. }
    cbn [feed]. rewrite E, Ew. cbn [obind Z.eqb Z.ltb Z.compare Pos.eqb]. rewrite app_assoc.
    apply IH; [done | by rewrite <- !app_assoc | done].
Qed.

(** C23: the variables of an SCGI request are those that the front end put in
    its netstring, and the bytes behind its comma are the first ones of the
    body, in whatever pieces the request arrives: with the exception that a
    read must not end right before the comma. *)
Theorem scgi_request_roundtrip e kvs pieces last extra :
  Forall var_ok kvs -> kvs <> [] -> concat pieces ++ last = netstring (texts kvs) ++ extra ->
  zlen (concat pieces) < zlen (netstring (texts kvs)) - 1 -> zlen (netstring (texts kvs) ++ extra) <= e.(buffer_size) < 10 ^ 18 ->
  zlen (encode kvs) < e.(buffer_size) ->
  (exists c, feed e pieces (new_conn e) = Ret (UPSGI_AGAIN, c)) /\
  exists c, feed e (pieces ++ [last]) (new_conn e) = Ret (UPSGI_OK, c) /\ packet_ok e.(buffer_size) kvs c.(pkt) /\
    c.(remains) = extra /\ c.(modifier1) = e.(scgi_modifier1) /\ c.(modifier2) = e.(scgi_modifier2).
Proof.
  intros Hk Hne Hs Hlt Hfit Henc. set (l := texts kvs) in *. pose proof (zlen_nonneg extra). pose proof (zlen_nonneg (concat pieces)).
  assert (zlen (netstring l) = zlen (digits 10 (zlen l)) + 1 + zlen l + 1) as Hn.
  { unfold netstring. rewrite zlen_app, zlen_cons, zlen_app. change (zlen [44]) with 1. lia. }
  assert (0 < zlen l) as Hl0.
  { destruct kvs as [|[k v] kvs']; [done|]. unfold l. change (texts ((k, v) :: kvs')) with (var_text (k, v) ++ texts kvs'). unfold var_text.
    rewrite !zlen_app. change (zlen [0]) with 1. cbn [fst snd]. pose proof (zlen_nonneg k). pose proof (zlen_nonneg v). pose proof (zlen_nonneg (texts kvs')). lia. }
  rewrite zlen_app in Hfit. pose proof (zlen_nonneg (digits 10 (zlen l))).
  assert (holding e [] (new_conn e)) as Hnew by by constructor.
  destruct (scgi_feed_waits e l last extra pieces [] (new_conn e) Hnew Hs ltac:(lia) ltac:(lia) ltac:(cbn [app]; lia)) as (c & Ef & Hc).
  cbn [app] in Hc. split; [by exists c|]. rewrite scgi_feed_app, Ef. cbn [obind Z.eqb Pos.eqb feed].
  assert (zlen (concat pieces) + zlen last = zlen (netstring l) + zlen extra) as Hz by (rewrite <- zlen_app, Hs, zlen_app; lia).
  destruct (piece_stored e _ c last Hc ltac:(lia) ltac:(lia)) as (b & c1 & Hc1 & Eb & E). rewrite Hs in Hc1.
  pose proof Hc1 as [Hb1 Hp1 Hk1 Hr1]. rewrite Eb in Hb1. destruct Hb1 as [Hbl Hbt].
  destruct (parse_done e b c1 kvs extra) as (c2 & E2 & Hk2 & Hr2).
  { by rewrite Hp1. } { done. } { rewrite Hp1, zlen_app. lia. } { done. } { fold l. lia. }
  { rewrite Hk1. constructor; [cbn [buffer]; rewrite zlen_rep; lia | cbn [plen]; lia | lia | constructor | done]. } { by rewrite Hk1. } { done. } { done. } { lia. }
  rewrite E, E2. cbn [obind Z.ltb Z.compare Z.eqb]. eexists. split; [reflexivity|]. by split_and!.
Qed.

(** ** Witness and what the model shows *)

Definition env0 : scgi_env := mk_scgi_env 64 1 2 170.
Definition one_var : list Packet.kv := [([75], [118])].

Lemma scgi_request_roundtrip_witness :
  (exists c, feed env0 [[52]; [58; 75; 0; 118]] (new_conn env0) = Ret (UPSGI_AGAIN, c)) /\
  exists c, feed env0 ([[52]; [58; 75; 0; 118]] ++ [[0; 44; 33]]) (new_conn env0) = Ret (UPSGI_OK, c) /\ packet_ok 64 one_var c.(pkt) /\
    c.(remains) = [33] /\ c.(modifier1) = 1 /\ c.(modifier2) = 2.
Proof.
  apply (scgi_request_roundtrip env0 one_var [[52]; [58; 75; 0; 118]] [0; 44; 33] [33]).
  - constructor; [|done]. constructor; cbn [fst snd]; [done | by repeat constructor | by repeat constructor | by vm_compute].
  - done.
  - vm_compute. done.
  - vm_compute. done.
  - split; vm_compute; done.
  - vm_compute. done.
Defined.

(** A request whose comma comes with the next read is refused: the byte
    behind the data is looked at. *)
Lemma scgi_comma_split : exists c, feed env0 [[52; 58; 75; 0; 118; 0]; [44]] (new_conn env0) = Ret (-1, c).
Proof. eexists. vm_compute. reflexivity. Qed.

(** When the data fills the block, that byte is behind the block. *)
Lemma scgi_comma_overread : feed (mk_scgi_env 6 1 2 170) [[52; 58; 97; 98; 99; 100]] (new_conn (mk_scgi_env 6 1 2 170)) = Fault.
Proof. vm_compute. reflexivity. Qed.

(** The length need not be a number: [/] counts as -1, and the sum with it
    wraps around to a request that is complete and has no variable. *)
Lemma scgi_length_wraps : exists c, feed env0 [[47; 58; 44; 33]] (new_conn env0) = Ret (UPSGI_OK, c) /\ c.(pkt).(plen) = 0 /\ c.(remains) = [33].
Proof. eexists. vm_compute. done. Qed.

End Scgi.
