(* ===== verification/RbTimers.v ===== *)
(** The tree of timers (core/rb_timers.c): a red-black tree of cells with
    parent pointers and a sentinel that stands for every leaf.

    The two sides of the tree are a [side]: the code has every branch once
    for each. *)
From S2P Require Import Prelude.

Module RbTimers.

(** * Memory *)

(** [struct upsgi_rb_timer]; pointers are addresses, [0] is [NULL].  [color]
    is true for red. *)
Record rb_timer : Type := mk_timer {
  color : bool;
  parent : Z;
  left : Z;
  right : Z;
  value : Z;
  data : Z;
}.
#[export] Instance expand_timer : Expand rb_timer := fun n =>
  mk_timer (color n) (parent n) (left n) (right n) (value n) (data n).

(** [struct upsgi_rbtree], with the memory that its pointers lead to. *)
Record rbtree : Type := mk_rbtree {
  cells : gmap Z rb_timer;
  root : Z;
  sentinel : Z;
}.
#[export] Instance expand_rbtree : Expand rbtree := fun t => mk_rbtree (cells t) (root t) (sentinel t).

Definition NULL : Z := 0.

Inductive side : Type := L | R.
#[export] Instance side_eq_dec : EqDecision side.
Proof. solve_decision. Defined.
Definition opp (d : side) : side := match d with L => R | R => L end.

Definition child (d : side) (n : rb_timer) : Z := match d with L => n.(left) | R => n.(right) end.
Definition set_child (d : side) (p : Z) (n : rb_timer) : rb_timer := match d with L => n<|left := p|> | R => n<|right := p|> end.
Definition set_parent (p : Z) (n : rb_timer) : rb_timer := n<|parent := p|>.
Definition set_color (c : bool) (n : rb_timer) : rb_timer := n<|color := c|>.

Definition load (a : Z) (t : rbtree) : outcome rb_timer :=
  match t.(cells) !! a with Some n => Ret n | None => Fault end.
Definition update (a : Z) (f : rb_timer -> rb_timer) (t : rbtree) : outcome rbtree :=
  let* n := load a t in Ret (t<|cells := <[a := f n]> t.(cells)|>).

Definition upsgi_rbt_red (a : Z) : rbtree -> outcome rbtree := update a (set_color true).
Definition upsgi_rbt_black (a : Z) : rbtree -> outcome rbtree := update a (set_color false).
Definition upsgi_rbt_copy_color (a b : Z) (t : rbtree) : outcome rbtree := let* n := load b t in update a (set_color n.(color)) t.
Definition upsgi_rbt_is_red (a : Z) (t : rbtree) : outcome bool := let* n := load a t in Ret n.(color).

(** The iterations of every loop are bounded by the number of cells. *)
Definition fuel_of (t : rbtree) : nat := S (size t.(cells)).

(** * Operations *)

(** [sentinel] is the cell that [calloc] gives. *)
Definition upsgi_init_rb_timer (sentinel : Z) : rbtree :=
  mk_rbtree {[sentinel := mk_timer false NULL NULL NULL 0 NULL]} sentinel sentinel.

Fixpoint min_loop (fuel : nat) (node : Z) (t : rbtree) : outcome Z :=
  match fuel with
  | O => NoFuel
  | S fuel => let* n := load node t in if n.(left) =? t.(sentinel) then Ret node else min_loop fuel n.(left) t
  end.

Definition upsgi_min_rb_timer (node : Z) (t : rbtree) : outcome Z :=
  let node := if node =? NULL then t.(root) else node in
  if t.(root) =? t.(sentinel) then Ret NULL else min_loop (fuel_of t) node t.

(** The rotation towards [d]; its mirror image is the one towards [opp d]. *)
Definition rotate (d : side) (node : Z) (t : rbtree) : outcome rbtree :=
  let* n := load node t in
  let temp := child (opp d) n in
  let* tn := load temp t in
  let* t := update node (set_child (opp d) (child d tn)) t in
  let* tn := load temp t in
  let* t := if child d tn =? t.(sentinel) then Ret t else update (child d tn) (set_parent node) t in
  let* n := load node t in
  let* t := update temp (set_parent n.(parent)) t in
  let* t :=
    if node =? t.(root) then Ret (t<|root := temp|>)
    else
      let* n := load node t in
      let* pn := load n.(parent) t in
      update n.(parent) (set_child (if node =? child d pn then d else opp d) temp) t in
  let* t := update temp (set_child d node) t in
  update node (set_parent temp) t.

Definition upsgi_rbtree_lr : Z -> rbtree -> outcome rbtree := rotate L.
Definition upsgi_rbtree_rr : Z -> rbtree -> outcome rbtree := rotate R.

(** The pointer to store in: [temp] and its side. *)
Fixpoint add_loop (fuel : nat) (v : Z) (temp : Z) (t : rbtree) : outcome (Z * side) :=
  match fuel with
  | O => NoFuel
  | S fuel =>
      let* n := load temp t in
      let d := if v <? n.(value) then L else R in
      if child d n =? t.(sentinel) then Ret (temp, d) else add_loop fuel v (child d n) t
  end.

Definition upsgi_rbt_add (temp node : Z) (t : rbtree) : outcome rbtree :=
  let* n := load node t in
  let* (temp, d) := add_loop (fuel_of t) n.(value) temp t in
  let* t := update temp (set_child d node) t in
  let* t := update node (set_parent temp) t in
  let* t := update node (set_child L t.(sentinel)) t in
  let* t := update node (set_child R t.(sentinel)) t in
  upsgi_rbt_red node t.

(** One iteration of the loop that balances the tree again, at a red node
    whose parent is red; the parent is the child [d] of its own. *)
Definition add_fix_step (d : side) (node : Z) (t : rbtree) : outcome (Z * rbtree) :=
  let* n := load node t in
  let* p := load n.(parent) t in
  let* g := load p.(parent) t in
  let temp := child (opp d) g in
  let* red := upsgi_rbt_is_red temp t in
  if red : bool then
    let* t := upsgi_rbt_black n.(parent) t in
    let* t := upsgi_rbt_black temp t in
    let* t := upsgi_rbt_red p.(parent) t in
    Ret (p.(parent), t)
  else
    let* (node, t) :=
      if node =? child (opp d) p then let* t := rotate d n.(parent) t in Ret (n.(parent), t)
      else Ret (node, t) in
    let* n := load node t in
    let* t := upsgi_rbt_black n.(parent) t in
    let* p := load n.(parent) t in
    let* t := upsgi_rbt_red p.(parent) t in
    let* t := rotate (opp d) p.(parent) t in
    Ret (node, t).

Fixpoint add_fix (fuel : nat) (node : Z) (t : rbtree) : outcome rbtree :=
  match fuel with
  | O => NoFuel
  | S fuel =>
      if node =? t.(root) then Ret t
      else
        let* n := load node t in
        let* red := upsgi_rbt_is_red n.(parent) t in
        if red : bool then
          let* p := load n.(parent) t in
          let* g := load p.(parent) t in
          let* (node, t) := add_fix_step (if n.(parent) =? g.(left) then L else R) node t in
          add_fix fuel node t
        else Ret t
  end.

(** [node] is the cell that [malloc] gives; the fields that it has not set are
    stored to before they are read. *)
Definition upsgi_add_rb_timer (node v d : Z) (t : rbtree) : outcome (Z * rbtree) :=
  let t := t<|cells := <[node := mk_timer false NULL NULL NULL v d]> t.(cells)|> in
  if t.(root) =? t.(sentinel) then
    let* t := update node (fun n => set_color false (set_child R t.(sentinel) (set_child L t.(sentinel) (set_parent NULL n)))) t in
    Ret (node, t<|root := node|>)
  else
    let* t := upsgi_rbt_add t.(root) node t in
    let* t := add_fix (fuel_of t) node t in
    let* t := upsgi_rbt_black t.(root) t in
    Ret (node, t).

(** ** Deletion *)

(** One iteration of the loop that restores the black height, at [temp],
    the child [d] of its parent: the [temp] of the next one. *)
Definition del_fix_step (d : side) (temp : Z) (t : rbtree) : outcome (Z * rbtree) :=
  let* tn := load temp t in
  let p := tn.(parent) in
  let* pn := load p t in
  let w := child (opp d) pn in
  let* red := upsgi_rbt_is_red w t in
  let* (w, t) :=
    if red : bool then
      let* t := upsgi_rbt_black w t in
      let* t := upsgi_rbt_red p t in
      let* t := rotate d p t in
      let* tn := load temp t in
      let* pn := load tn.(parent) t in
      Ret (child (opp d) pn, t)
    else Ret (w, t) in
  let* tn := load temp t in
  let p := tn.(parent) in
  let* wn := load w t in
  let* near := upsgi_rbt_is_red (child d wn) t in
  let* far := upsgi_rbt_is_red (child (opp d) wn) t in
  if negb near && negb far then
    let* t := upsgi_rbt_red w t in Ret (p, t)
  else
    let* (w, t) :=
      if negb far then
        let* t := upsgi_rbt_black (child d wn) t in
        let* t := upsgi_rbt_red w t in
        let* t := rotate (opp d) w t in
        let* tn := load temp t in
        let* pn := load tn.(parent) t in
        Ret (child (opp d) pn, t)
      else Ret (w, t) in
    let* tn := load temp t in
    let p := tn.(parent) in
    let* t := upsgi_rbt_copy_color w p t in
    let* t := upsgi_rbt_black p t in
    let* wn := load w t in
    let* t := upsgi_rbt_black (child (opp d) wn) t in
    let* t := rotate d p t in
    Ret (t.(root), t).

Fixpoint del_fix (fuel : nat) (temp : Z) (t : rbtree) : outcome rbtree :=
  match fuel with
  | O => NoFuel
  | S fuel =>
      if temp =? t.(root) then upsgi_rbt_black temp t
      else
        let* tn := load temp t in
        if tn.(color) then upsgi_rbt_black temp t
        else
          let* pn := load tn.(parent) t in
          let* (temp, t) := del_fix_step (if temp =? pn.(left) then L else R) temp t in
          del_fix fuel temp t
  end.

(** [subst] takes the place of [node]. *)
Definition replace_node (node subst : Z) (t : rbtree) : outcome rbtree :=
  let* n := load node t in
  let* t := update subst (set_child L n.(left)) t in
  let* n := load node t in
  let* t := update subst (set_child R n.(right)) t in
  let* n := load node t in
  let* t := update subst (set_parent n.(parent)) t in
  let* t := upsgi_rbt_copy_color subst node t in
  let* t :=
    if node =? t.(root) then Ret (t<|root := subst|>)
    else
      let* n := load node t in
      let* pn := load n.(parent) t in
      update n.(parent) (set_child (if node =? pn.(left) then L else R) subst) t in
  let* s := load subst t in
  let* t := if s.(left) =? t.(sentinel) then Ret t else update s.(left) (set_parent subst) t in
  let* s := load subst t in
  if s.(right) =? t.(sentinel) then Ret t else update s.(right) (set_parent subst) t.

Definition upsgi_del_rb_timer (node : Z) (t : rbtree) : outcome rbtree :=
  let s := t.(sentinel) in
  let* n := load node t in
  let* (temp, subst) :=
    if n.(left) =? s then Ret (n.(right), node)
    else if n.(right) =? s then Ret (n.(left), node)
    else
      let* subst := upsgi_min_rb_timer n.(right) t in
      let* sn := load subst t in
      Ret (if negb (sn.(left) =? s) then sn.(left) else sn.(right), subst) in
  if subst =? t.(root) then upsgi_rbt_black temp (t<|root := temp|>)
  else
    let* red := upsgi_rbt_is_red subst t in
    let* sn := load subst t in
    let* pn := load sn.(parent) t in
    let* t := update sn.(parent) (set_child (if subst =? pn.(left) then L else R) temp) t in
    let* t :=
      if subst =? node then let* sn := load subst t in update temp (set_parent sn.(parent)) t
      else
        let* sn := load subst t in
        let* t := update temp (set_parent (if sn.(parent) =? node then subst else sn.(parent))) t in
        replace_node node subst t in
    if red : bool then Ret t else del_fix (fuel_of t) temp t.

(** The caller's [free]. *)
Definition free_cell (node : Z) (t : rbtree) : rbtree := t<|cells := delete node t.(cells)|>.

(** Some runs. *)
Definition demo : outcome rbtree :=
  foldl (fun t a => let* t := t in let* (_, t) := upsgi_add_rb_timer a (a mod 7) 0 t in Ret t) (Ret (upsgi_init_rb_timer 100)) [1; 2; 3; 4; 5; 6; 7; 8; 9].

Fixpoint dump (fuel : nat) (a : Z) (t : rbtree) : list (Z * Z * bool) :=
  match fuel with
  | O => []
  | S fuel => if a =? t.(sentinel) then [] else
      match t.(cells) !! a with
      | None => []
      | Some n => dump fuel n.(left) t ++ [(a, n.(value), n.(color))] ++ dump fuel n.(right) t
      end
  end.

End RbTimers.
