(* ===== verification/RbTimersProofs.v ===== *)
(** The memory of the timers and the tree it stands for: the focus on a
    subtree, moves of the focus, and what stores and rotations do to it. *)
From S2P Require Import Prelude RbTimers.

Module RbTimersProofs.
Import RbTimers.

(** * Trees *)

Record titem : Type := mk_item { addr : Z; ival : Z; idat : Z }.

Inductive tree : Type :=
| E
| T (c : bool) (l : tree) (x : titem) (r : tree).

(** A node whose child on side [d] is [a]. *)
Definition nd (d : side) (c : bool) (a : tree) (x : titem) (b : tree) : tree :=
  match d with L => T c a x b | R => T c b x a end.

Fixpoint items (t : tree) : list titem := match t with E => [] | T _ l x r => items l ++ x :: items r end.
Definition addrs (t : tree) : list Z := addr <$> items t.
Definition ptr (s : Z) (t : tree) : Z := match t with E => s | T _ _ x _ => addr x end.
Definition col (t : tree) : bool := match t with E => false | T c _ _ _ => c end.
Definition paint (c : bool) (t : tree) : tree := match t with E => E | T _ l x r => T c l x r end.

(** The way up from a subtree: on which side of its parent it is, and the
    parent with its other child. *)
Record frame : Type := mk_frame { fside : side; fcol : bool; fitem : titem; fsib : tree }.
Notation path := (list frame).

Definition plug1 (t : tree) (f : frame) : tree := nd f.(fside) f.(fcol) t f.(fitem) f.(fsib).
Definition plug (p : path) (t : tree) : tree := foldl plug1 t p.

Definition faddrs (f : frame) : list Z := addr f.(fitem) :: addrs f.(fsib).
Definition paddrs (p : path) : list Z := p ≫= faddrs.

(** The cell of a node, with the child on side [d] first. *)
Definition cell (d : side) (c : bool) (p qa qb : Z) (x : titem) : rb_timer :=
  match d with L => mk_timer c p qa qb (ival x) (idat x) | R => mk_timer c p qb qa (ival x) (idat x) end.

Lemma opp_opp d : opp (opp d) = d.
Proof. by destruct d. Qed.
Lemma nd_opp d c a x b : nd (opp d) c b x a = nd d c a x b.
Proof. by destruct d. Qed.
Lemma cell_opp d c p qa qb x : cell (opp d) c p qb qa x = cell d c p qa qb x.
Proof. by destruct d. Qed.
Lemma ptr_nd s d c a x b : ptr s (nd d c a x b) = addr x.
Proof. by destruct d. Qed.
Lemma addrs_nd d c a x b : addrs (nd d c a x b) ≡ₚ addr x :: addrs a ++ addrs b.
Proof. unfold addrs. destruct d; cbn [nd items]; rewrite fmap_app, fmap_cons; by rewrite <- Permutation_middle, ?(Permutation_app_comm (addr <$> items b)). Qed.

Lemma child_cell d c p qa qb x : child d (cell d c p qa qb x) = qa.
Proof. by destruct d. Qed.
Lemma child_opp_cell d c p qa qb x : child (opp d) (cell d c p qa qb x) = qb.
Proof. by destruct d. Qed.
Lemma set_child_cell d c p qa qb x q : set_child d q (cell d c p qa qb x) = cell d c p q qb x.
Proof. by destruct d. Qed.
Lemma set_child_opp_cell d c p qa qb x q : set_child (opp d) q (cell d c p qa qb x) = cell d c p qa q x.
Proof. by destruct d. Qed.
Lemma set_parent_cell d c p qa qb x q : set_parent q (cell d c p qa qb x) = cell d c q qa qb x.
Proof. by destruct d. Qed.
Lemma set_color_cell d c p qa qb x c' : set_color c' (cell d c p qa qb x) = cell d c' p qa qb x.
Proof. by destruct d. Qed.
Lemma parent_cell d c p qa qb x : parent (cell d c p qa qb x) = p.
Proof. by destruct d. Qed.
Lemma color_cell d c p qa qb x : color (cell d c p qa qb x) = c.
Proof. by destruct d. Qed.
Lemma value_cell d c p qa qb x : value (cell d c p qa qb x) = ival x.
Proof. by destruct d. Qed.

#[local] Hint Rewrite child_cell child_opp_cell set_child_cell set_child_opp_cell set_parent_cell set_color_cell parent_cell color_cell value_cell : cells.

(** * Representation *)

Notation heap := (gmap Z rb_timer).

Fixpoint rep (h : heap) (s : Z) (t : tree) (p : Z) : Prop :=
  match t with
  | E => True
  | T c l x r =>
      h !! addr x = Some (mk_timer c p (ptr s l) (ptr s r) (ival x) (idat x)) /\ rep h s l (addr x) /\ rep h s r (addr x)
  end.

(** [q] is the hole and [p] its parent. *)
Fixpoint ctx (h : heap) (s root : Z) (pa : path) (q p : Z) : Prop :=
  match pa with
  | [] => root = q
  | f :: pa =>
      p = addr f.(fitem) /\ exists pp, h !! p = Some (cell f.(fside) f.(fcol) pp q (ptr s f.(fsib)) f.(fitem)) /\
        rep h s f.(fsib) p /\ ctx h s root pa p pp
  end.

(** The tree [plug pa tr] is in memory; the focus is [tr]. *)
Record zip (t : rbtree) (pa : path) (tr : tree) : Prop := {
  z_rep : exists p, ctx t.(cells) t.(sentinel) t.(root) pa (ptr t.(sentinel) tr) p /\ rep t.(cells) t.(sentinel) tr p;
  z_nodup : NoDup (t.(sentinel) :: addrs tr ++ paddrs pa);
  z_black : exists n, t.(cells) !! t.(sentinel) = Some n /\ color n = false;
}.

Lemma rep_nd h s d c a x b p :
  rep h s (nd d c a x b) p <-> h !! addr x = Some (cell d c p (ptr s a) (ptr s b) x) /\ rep h s a (addr x) /\ rep h s b (addr x).
Proof. destruct d; cbn; tauto. Qed.

(** Moving the focus. *)
Lemma zip_move t d c a x b pa : zip t (mk_frame d c x b :: pa) a <-> zip t pa (nd d c a x b).
Proof.
  assert (t.(sentinel) :: addrs (nd d c a x b) ++ paddrs pa ≡ₚ t.(sentinel) :: addrs a ++ paddrs (mk_frame d c x b :: pa)) as Hp.
  { constructor. change (paddrs (mk_frame d c x b :: pa)) with ((addr x :: addrs b) ++ paddrs pa). rewrite addrs_nd. cbn [app]. rewrite <- app_assoc.
    by rewrite Permutation_middle. }
  split; intros [(p & Hc & Hr) Hn Hb]; (split; [|by rewrite Hp in * || rewrite <- Hp in *|done]).
  - cbn [ctx fitem fside fcol fsib] in Hc. destruct Hc as (-> & pp & Hx & Hs & Hc). exists pp. rewrite ptr_nd, rep_nd. done.
  - rewrite ptr_nd in Hc. rewrite rep_nd in Hr. destruct Hr as (Hx & Ha & Hs). exists (addr x). split; [|done]. cbn. eauto.
Qed.

Lemma zip_up t d c a x b pa : zip t (mk_frame d c x b :: pa) a -> zip t pa (nd d c a x b).
Proof. apply zip_move. Qed.
Lemma zip_down t d c a x b pa : zip t pa (nd d c a x b) -> zip t (mk_frame d c x b :: pa) a.
Proof. apply zip_move. Qed.

(** Only the cells of the tree matter. *)
Lemma rep_frame h h' s t p : (forall k, k ∈ addrs t -> h' !! k = h !! k) -> rep h s t p -> rep h' s t p.
Proof.
  revert p. induction t as [|c l IHl x r IHr]; intros p Hk; cbn; [done|]. intros (Hx & Hl & Hr). unfold addrs in *. cbn in Hk.
  rewrite fmap_app, fmap_cons in Hk. rewrite Hk by set_solver. split; [done|]. split; [apply IHl | apply IHr]; try done; intros k Hin; apply Hk; set_solver.
Qed.

Lemma ctx_frame h h' s root pa q p : (forall k, k ∈ paddrs pa -> h' !! k = h !! k) -> ctx h s root pa q p -> ctx h' s root pa q p.
Proof.
  revert q p. induction pa as [|f pa IH]; intros q p Hk; cbn [ctx]; [done|]. intros (-> & pp & Hx & Hs & Hc).
  change (paddrs (f :: pa)) with ((addr (fitem f) :: addrs (fsib f)) ++ paddrs pa) in Hk.
  split; [done|]. exists pp. rewrite Hk by set_solver. split; [done|]. split; [eapply rep_frame; [|done]; intros; apply Hk; set_solver|].
  apply IH; [|done]. intros; apply Hk; set_solver.
Qed.

(** A subtree under another parent. *)
Lemma rep_reparent h h' s t p p' :
  rep h s t p -> NoDup (addrs t) -> (forall k, k ∈ addrs t -> k <> ptr s t -> h' !! k = h !! k) ->
  (t <> E -> forall n, h !! ptr s t = Some n -> h' !! ptr s t = Some (set_parent p' n)) -> rep h' s t p'.
Proof.
  destruct t as [|c l x r]; [done|]. cbn [rep ptr]. intros (Hx & Hl & Hr) Hn Hk Hp. unfold addrs in *. cbn in Hk, Hn. rewrite fmap_app, fmap_cons in Hk, Hn.
  rewrite (Hp ltac:(done) _ Hx). split; [done|]. apply NoDup_app in Hn as (Hnl & Hlr & Hnr). apply NoDup_cons in Hnr as [Hxr Hnr].
  split; (eapply rep_frame; [|done]); intros k Hin; apply Hk; [set_solver | | set_solver |]; unfold addrs in Hin; intros ->; [by apply (Hlr (addr x)); [|left] | done].
Qed.

Lemma ptr_in s t : t <> E -> ptr s t ∈ addrs t.
Proof. destruct t as [|c l x r]; [done|]. intros _. unfold addrs. cbn. rewrite fmap_app, fmap_cons. set_solver. Qed.

Lemma ctx_root h s root pa q p : ctx h s root pa q p -> pa <> [] -> root ∈ paddrs pa.
Proof.
  revert q p. induction pa as [|f pa IH]; intros q p; [done|]. cbn [ctx]. intros (-> & pp & Hx & Hs & Hc) _.
  change (paddrs (f :: pa)) with ((addr (fitem f) :: addrs (fsib f)) ++ paddrs pa). destruct pa as [|g pa]; [cbn in Hc; subst; set_solver|].
  specialize (IH _ _ Hc ltac:(done)). set_solver.
Qed.


(** * Loads *)

Lemma load_some a t n : t.(cells) !! a = Some n -> load a t = Ret n.
Proof. intros H. unfold load. by rewrite H. Qed.

Lemma update_some a f t n : t.(cells) !! a = Some n -> update a f t = Ret (mk_rbtree (<[a := f n]> t.(cells)) t.(root) t.(sentinel)).
Proof. intros H. unfold update. by rewrite (load_some a t n H). Qed.

Definition up_ptr (pa : path) (p : Z) : Prop := match pa with [] => True | f :: _ => p = addr f.(fitem) end.

Lemma ctx_up h s root pa q p : ctx h s root pa q p -> up_ptr pa p.
Proof. destruct pa; [done | by intros [-> _]]. Qed.

(** The cell under the focus. *)
Lemma zip_cell t pa d c a x b : zip t pa (nd d c a x b) ->
  exists p, t.(cells) !! addr x = Some (cell d c p (ptr t.(sentinel) a) (ptr t.(sentinel) b) x) /\ up_ptr pa p.
Proof.
  intros [(p & Hc & Hr) _ _]. exists p. rewrite rep_nd in Hr. split; [apply Hr | by eapply ctx_up].
Qed.

Lemma zip_root t pa tr : zip t pa tr -> (ptr t.(sentinel) tr =? t.(root)) = match pa with [] => true | _ => false end.
Proof.
  intros [(p & Hc & _) Hn _]. destruct pa as [|f pa]; [cbn in Hc; rewrite Hc; apply Z.eqb_refl|].
  pose proof (ctx_root _ _ _ _ _ _ Hc ltac:(done)) as Hin. apply Z.eqb_neq. intros E. apply NoDup_cons in Hn as [Hs Hn].
  apply NoDup_app in Hn as (_ & Hd & _). destruct tr as [|c l x r].
  - cbn in E. rewrite E in Hs. apply Hs. set_solver.
  - apply (Hd (ptr (sentinel t) (T c l x r))); [by apply ptr_in | by rewrite E].
Qed.

(** The two children of a node are different unless both are leaves. *)
Lemma zip_children t pa d c a x b : zip t pa (nd d c a x b) -> a <> E \/ b <> E -> ptr t.(sentinel) a <> ptr t.(sentinel) b.
Proof.
  intros [_ Hn _] Hne E. apply NoDup_cons in Hn as [Hs Hn]. rewrite addrs_nd in Hs, Hn. apply NoDup_app in Hn as (Hn & _ & _).
  apply NoDup_cons in Hn as [_ Hn]. apply NoDup_app in Hn as (_ & Hd & _).
  destruct a as [|ca la xa ra], b as [|cb lb xb rb]; [by destruct Hne| | |].
  - apply Hs. pose proof (ptr_in (sentinel t) (T cb lb xb rb) ltac:(done)) as Hin. rewrite <- E in Hin. cbn [ptr] in Hin. set_solver.
  - apply Hs. pose proof (ptr_in (sentinel t) (T ca la xa ra) ltac:(done)) as Hin. rewrite E in Hin. cbn [ptr] in Hin. set_solver.
  - apply (Hd (addr xa)); [by apply (ptr_in (sentinel t) (T ca la xa ra))|]. cbn in E. rewrite E. by apply (ptr_in (sentinel t) (T cb lb xb rb)).
Qed.

Lemma side_of s d c p a x b : ptr s a <> ptr s b ->
  (if ptr s a =? left (cell d c p (ptr s a) (ptr s b) x) then L else R) = d.
Proof. intros H. destruct d; cbn; [by rewrite Z.eqb_refl|]. by rewrite (proj2 (Z.eqb_neq _ _)). Qed.

(** * Stores *)

(** What an operation leaves as it was. *)
Record keeps (t t' : rbtree) : Prop := {
  k_sentinel : t'.(sentinel) = t.(sentinel);
  k_cell : t'.(cells) !! t.(sentinel) = t.(cells) !! t.(sentinel);
  k_dom : dom t'.(cells) = dom t.(cells);
}.

#[export] Instance keeps_refl : Reflexive keeps.
Proof. by constructor. Qed.
#[export] Instance keeps_trans : Transitive keeps.
Proof. intros a b c [H1 H2 H3] [H4 H5 H6]. rewrite H1 in *. constructor; congruence. Qed.

Lemma dom_store (h : heap) a n n' : h !! a = Some n -> dom (<[a := n']> h) = dom h.
Proof. intros H. rewrite dom_insert_L. apply elem_of_dom_2 in H. set_solver. Qed.

(** The pointer to the focus is replaced in its parent. *)
Definition relink (d : side) (node q' : Z) (t : rbtree) : outcome rbtree :=
  if node =? t.(root) then Ret (t<|root := q'|>)
  else
    let* n := load node t in
    let* pn := load n.(parent) t in
    update n.(parent) (set_child (if node =? child d pn then d else opp d) q') t.

Lemma relink_child d t f pa q p q' :
  ctx t.(cells) t.(sentinel) t.(root) (f :: pa) q p -> q <> ptr t.(sentinel) (fsib f) -> NoDup (paddrs (f :: pa)) ->
  exists pn t1, t.(cells) !! p = Some pn /\ update p (set_child (if q =? child d pn then d else opp d) q') t = Ret t1 /\
    ctx t1.(cells) t1.(sentinel) t1.(root) (f :: pa) q' p /\ sentinel t1 = sentinel t /\ root t1 = root t /\
    (forall k, k ∉ paddrs (f :: pa) -> t1.(cells) !! k = t.(cells) !! k) /\ dom t1.(cells) = dom t.(cells).
Proof.
  intros (-> & pp & Hx & Hs & Hc) Hq Hn. destruct f as [fd fc fx fs]. cbn [fside fcol fitem fsib] in *.
  assert (child fd (cell fd fc pp q (ptr (sentinel t) fs) fx) = q) as H1 by apply child_cell.
  assert ((if q =? child d (cell fd fc pp q (ptr (sentinel t) fs) fx) then d else opp d) = fd) as Hside.
  { destruct d, fd; cbn; rewrite ?Z.eqb_refl; try done; by rewrite (proj2 (Z.eqb_neq _ _)). }
  eexists _, _. split; [exact Hx|]. rewrite Hside. split; [by apply update_some|]. rewrite set_child_cell. cbn [cells sentinel root].
  change (paddrs (mk_frame fd fc fx fs :: pa)) with ((addr fx :: addrs fs) ++ paddrs pa) in *. apply NoDup_app in Hn as (Hn & Hd & _). apply NoDup_cons in Hn as [Hnx Hn].
  split; [|split; [done|split; [done|split]]].
  - split; [done|]. exists pp. rewrite lookup_insert_eq. split; [done|]. split.
    + eapply rep_frame; [|done]. intros k Hk. rewrite lookup_insert_ne; [done|]. intros <-. done.
    + eapply ctx_frame; [|done]. intros k Hk. rewrite lookup_insert_ne; [done|]. intros <-. by apply (Hd (addr fx)); [left|].
  - intros k Hk. rewrite lookup_insert_ne; [done|]. intros <-. apply Hk. set_solver.
  - by eapply dom_store.
Qed.

Lemma relink_ok d t pa q p q' n :
  ctx t.(cells) t.(sentinel) t.(root) pa q p -> t.(cells) !! q = Some n -> parent n = p -> NoDup (paddrs pa) -> q ∉ paddrs pa -> q <> t.(sentinel) ->
  exists t1, relink d q q' t = Ret t1 /\ ctx t1.(cells) t1.(sentinel) t1.(root) pa q' p /\ sentinel t1 = sentinel t /\
    (forall k, k ∉ paddrs pa -> t1.(cells) !! k = t.(cells) !! k) /\ dom t1.(cells) = dom t.(cells).
Proof.
  intros Hc Hn Hp Hnd Hq Hs. unfold relink. destruct pa as [|f pa].
  - cbn in Hc. rewrite Hc, Z.eqb_refl. eexists. split; [reflexivity|]. done.
  - pose proof (ctx_root _ _ _ _ _ _ Hc ltac:(done)) as Hin. rewrite (proj2 (Z.eqb_neq q (root t))) by (intros ->; done).
    rewrite (load_some _ _ _ Hn). cbn [obind]. rewrite Hp. pose proof Hc as (Ep & _).
    destruct (relink_child d t f pa q p q' Hc) as (pn & t1 & Hpn & E & Hc1 & Hs1 & _ & Hk & Hd); [|done|].
    { destruct (fsib f) as [|c l x r] eqn:Ef; [done|]. intros ->. apply Hq.
      change (paddrs (f :: pa)) with ((addr (fitem f) :: addrs (fsib f)) ++ paddrs pa). rewrite Ef. pose proof (ptr_in (sentinel t) (T c l x r) ltac:(done)). set_solver. }
    rewrite (load_some _ _ _ Hpn). cbn [obind]. exists t1. split; [exact E|]. done.
Qed.

(** The colour of the focus. *)
Lemma paint_zip t pa tr c' : zip t pa tr -> tr <> E \/ c' = false ->
  exists t', update (ptr t.(sentinel) tr) (set_color c') t = Ret t' /\ zip t' pa (paint c' tr) /\ t'.(root) = t.(root) /\ sentinel t' = sentinel t /\
    dom t'.(cells) = dom t.(cells) /\ (tr <> E -> keeps t t') /\
    (forall n, t.(cells) !! ptr t.(sentinel) tr = Some n -> t'.(cells) !! ptr t.(sentinel) tr = Some (set_color c' n)).
Proof.
  intros [(p & Hc & Hr) Hn (ns & Hs & Hsc)] Hne. pose proof Hn as Hn'. apply NoDup_cons in Hn' as [Hsn Hn']. apply NoDup_app in Hn' as (Hnt & Hd & Hnp).
  destruct tr as [|c l x r].
  - destruct Hne as [?| ->]; [done|]. eexists. split; [by apply update_some|]. cbn [paint ptr cells root sentinel].
    split; [|split; [done|split; [done|split; [by eapply dom_store|split; [done|]]]]].
    + constructor; cbn [cells sentinel root]; [| done | rewrite lookup_insert_eq; by eexists].
      exists p. split; [|done]. eapply ctx_frame; [|done]. intros k Hk. rewrite lookup_insert_ne; [done|]. intros <-. set_solver.
    + intros n Hnn. rewrite lookup_insert_eq. congruence.
  - cbn [rep] in Hr. destruct Hr as (Hx & Hl & Hrr). eexists. split; [by apply update_some|]. cbn [paint ptr cells root sentinel].
    assert (addr x <> sentinel t) as Hxs. { intros E. apply Hsn. rewrite <- E. apply elem_of_app. left. apply (ptr_in 0 (T c l x r)). done. }
    unfold addrs in Hnt, Hd. cbn [items] in Hnt, Hd. rewrite fmap_app, fmap_cons in Hnt, Hd. apply NoDup_app in Hnt as (_ & Hlr & Hnr). apply NoDup_cons in Hnr as [Hxr _].
    split; [|split; [done|split; [done|split; [by eapply dom_store|split]]]].
    + constructor; cbn [cells sentinel root]; [| done | rewrite lookup_insert_ne by done; by eexists].
      exists p. split.
      * eapply ctx_frame; [|done]. intros k Hk. rewrite lookup_insert_ne; [done|]. intros <-. apply (Hd (addr x)); [set_solver | done].
      * cbn [rep paint]. rewrite lookup_insert_eq. split; [done|].
        split; (eapply rep_frame; [|done]); intros k Hk; rewrite lookup_insert_ne; try done; intros <-; [by apply (Hlr (addr x)); [|left] | done].
    + intros _. constructor; cbn [cells sentinel root]; [done | by rewrite lookup_insert_ne | by eapply dom_store].
    + intros n Hnn. rewrite lookup_insert_eq. congruence.
Qed.

(** * Rotations *)

(** [b], whose parent field may be anything, goes under [p']. *)
Lemma adopt t b p p' : rep t.(cells) t.(sentinel) b p -> NoDup (t.(sentinel) :: addrs b) ->
  exists t', (if ptr t.(sentinel) b =? t.(sentinel) then Ret t else update (ptr t.(sentinel) b) (set_parent p') t) = Ret t' /\
    rep t'.(cells) t.(sentinel) b p' /\ sentinel t' = sentinel t /\ root t' = root t /\ dom t'.(cells) = dom t.(cells) /\
    (forall k, k ∉ addrs b -> t'.(cells) !! k = t.(cells) !! k).
Proof.
  intros Hr Hn. apply NoDup_cons in Hn as [Hs Hn]. assert (b = E \/ b <> E) as [->|Hb] by (destruct b; [by left | by right]).
  - cbn [ptr]. rewrite Z.eqb_refl. by exists t.
  - pose proof (ptr_in (sentinel t) b Hb) as Hin. rewrite (proj2 (Z.eqb_neq (ptr (sentinel t) b) (sentinel t))) by (intros E; rewrite E in Hin; done).
    destruct b as [|c l x r]; [done|]. pose proof Hr as (Hx & _). cbn [ptr] in *. eexists. split; [by apply update_some|]. cbn [cells sentinel root].
    split; [|split; [done|split; [done|split; [by eapply dom_store|]]]].
    + eapply rep_reparent; [exact Hr | done | |].
      * intros k _ Hk. cbn [ptr] in Hk. by rewrite lookup_insert_ne.
      * intros _ n Hnn. cbn [ptr] in *. rewrite lookup_insert_eq. congruence.
    + intros k Hk. rewrite lookup_insert_ne; [done|]. intros <-. done.
Qed.

Lemma addrs_nd2 d ca a x cb b y e : addrs (nd d ca a x (nd d cb b y e)) ≡ₚ addr x :: addr y :: addrs a ++ addrs b ++ addrs e.
Proof. rewrite addrs_nd, addrs_nd. constructor. symmetry. apply Permutation_middle. Qed.

Lemma addrs_nd2' d ca a x cb b y e : addrs (nd d cb (nd d ca a x b) y e) ≡ₚ addr x :: addr y :: addrs a ++ addrs b ++ addrs e.
Proof. rewrite addrs_nd, addrs_nd. cbn [app]. rewrite <- app_assoc. apply Permutation_swap. Qed.

Lemma rotate_zip d t pa ca a x cb b y e : zip t pa (nd d ca a x (nd d cb b y e)) ->
  exists t', rotate d (addr x) t = Ret t' /\ zip t' pa (nd d cb (nd d ca a x b) y e) /\ keeps t t'.
Proof.
  intros [(p & Hc & Hr) Hn Hb]. rewrite ptr_nd in Hc. rewrite !rep_nd, ptr_nd in Hr. destruct Hr as (Hx & Ra & Hy & Rb & Re).
  rewrite addrs_nd2 in Hn. pose proof Hn as Hn0. cbn [app] in Hn. rewrite <- !app_assoc in Hn.
  apply NoDup_cons in Hn as [Hs Hn]. apply NoDup_cons in Hn as [Hxn Hn]. apply NoDup_cons in Hn as [Hyn Hn].
  apply NoDup_app in Hn as (Hna & Had & Hn). apply NoDup_app in Hn as (Hnb & Hbd & Hn). apply NoDup_app in Hn as (Hne & Hed & Hnp).
  set (s := sentinel t) in *. unfold rotate.
  rewrite (load_some _ _ _ Hx). cbn [obind]. rewrite child_opp_cell, (load_some _ _ _ Hy). cbn [obind].
  rewrite (update_some _ _ _ _ Hx). cbn [obind]. rewrite child_cell, set_child_opp_cell. fold s.
  set (t1 := mk_rbtree _ _ _). assert (cells t1 !! addr y = cells t !! addr y) as Hy1 by (unfold t1; cbn; rewrite lookup_insert_ne; [done | set_solver]).
  rewrite <- Hy1 in Hy. rewrite (load_some _ _ _ Hy). cbn [obind]. rewrite child_cell. change (sentinel t1) with s.
  assert (rep (cells t1) s b (addr y)) as Rb1.
  { eapply rep_frame; [|exact Rb]. intros k Hk. unfold t1. cbn. rewrite lookup_insert_ne; [done|]. intros <-. set_solver. }
  destruct (adopt t1 b (addr y) (addr x) Rb1) as (t2 & E2 & Rb2 & Hs2 & Hr2 & Hd2 & K2); [constructor; [set_solver | done]|].
  change (sentinel t1) with s in E2, Rb2, Hs2. change (root t1) with (root t) in Hr2. rewrite E2. cbn [obind].
  assert (cells t2 !! addr x = Some (cell d ca p (ptr s a) (ptr s b) x)) as Hx2.
  { rewrite K2 by set_solver. unfold t1. cbn. by rewrite lookup_insert_eq. }
  assert (cells t2 !! addr y = Some (cell d cb (addr x) (ptr s b) (ptr s e) y)) as Hy2 by (rewrite K2 by set_solver; exact Hy).
  rewrite (load_some _ _ _ Hx2). cbn [obind]. rewrite parent_cell, (update_some _ _ _ _ Hy2), set_parent_cell. cbn [obind].
  set (t3 := mk_rbtree (<[addr y := _]> (cells t2)) _ _).
  assert (forall k, k ∉ addrs b -> k <> addr x -> k <> addr y -> cells t3 !! k = cells t !! k) as K3.
  { intros k Hk Hkx Hky. unfold t3. cbn. rewrite lookup_insert_ne by done. rewrite K2 by done. unfold t1. cbn. by rewrite lookup_insert_ne. }
  assert (ctx (cells t3) (sentinel t3) (root t3) pa (addr x) p) as Hc3.
  { unfold t3 at 2 3. cbn [sentinel root]. rewrite Hs2, Hr2. eapply ctx_frame; [|exact Hc]. intros k Hk. apply K3; [|intros ->..]; set_solver. }
  assert (cells t3 !! addr x = Some (cell d ca p (ptr s a) (ptr s b) x)) as Hx3.
  { unfold t3. cbn. rewrite lookup_insert_ne; [done|]. set_solver. }
  destruct (relink_ok d t3 pa (addr x) p (addr y) _ Hc3 Hx3) as (t4 & E4 & Hc4 & Hs4 & K4 & Hd4);
    [apply parent_cell | done | set_solver | unfold t3; cbn; rewrite Hs2; set_solver|].
  change (if addr x =? root t3 then _ else _) with (relink d (addr x) (addr y) t3). rewrite E4. cbn [obind].
  assert (sentinel t4 = s) as Hs4' by (rewrite Hs4; exact Hs2).
  assert (cells t4 !! addr y = Some (cell d cb p (ptr s b) (ptr s e) y)) as Hy4.
  { rewrite K4 by set_solver. unfold t3. cbn. by rewrite lookup_insert_eq. }
  assert (cells t4 !! addr x = Some (cell d ca p (ptr s a) (ptr s b) x)) as Hx4 by (rewrite K4 by set_solver; exact Hx3).
  rewrite (update_some _ _ _ _ Hy4), set_child_cell. cbn [obind].
  rewrite (update_some (addr x) _ _ (cell d ca p (ptr s a) (ptr s b) x)), set_parent_cell by (cbn; rewrite lookup_insert_ne; [done | set_solver]).
  eexists. split; [reflexivity|]. cbn [cells sentinel root].
  set (h := <[addr x := _]> (<[addr y := _]> (cells t4))).
  assert (forall k, k <> addr x -> k <> addr y -> h !! k = cells t4 !! k) as K6 by (intros k H1 H2; unfold h; by rewrite !lookup_insert_ne).
  assert (forall k, k ∉ addrs b -> k ∉ paddrs pa -> k <> addr x -> k <> addr y -> h !! k = cells t !! k) as K.
  { intros k H1 H2 H3 H4. rewrite K6, K4, K3; done. }
  split; [constructor; cbn [cells sentinel root]|].
  - rewrite Hs4', ptr_nd. exists p. split.
    + rewrite Hs4' in Hc4. eapply ctx_frame; [|exact Hc4]. intros k Hk. apply K6; intros ->; set_solver.
    + rewrite !rep_nd, ptr_nd. split; [unfold h; rewrite lookup_insert_ne by set_solver; by rewrite lookup_insert_eq|]. split; [split; [|split]|].
      * unfold h. by rewrite lookup_insert_eq.
      * eapply rep_frame; [|exact Ra]. intros k Hk. apply K; [| |intros ->..]; set_solver.
      * eapply rep_frame; [|exact Rb2]. intros k Hk. rewrite K6 by (intros ->; set_solver). rewrite K4 by set_solver. unfold t3. cbn.
        rewrite lookup_insert_ne; [done|]. intros <-. set_solver.
      * eapply rep_frame; [|exact Re]. intros k Hk. apply K; [| |intros ->..]; set_solver.
  - rewrite Hs4', addrs_nd2'. exact Hn0.
  - rewrite Hs4'. destruct Hb as (n & Hb1 & Hb2). exists n. rewrite K; [done | set_solver | set_solver | set_solver | set_solver].
  - constructor; cbn [cells sentinel root]; [done | apply K; set_solver|].
    unfold h. rewrite !dom_insert_L, Hd4. unfold t3. cbn. rewrite dom_insert_L, Hd2. unfold t1. cbn. rewrite dom_insert_L.
    apply elem_of_dom_2 in Hx. rewrite Hy1 in Hy. apply elem_of_dom_2 in Hy. set_solver.
Qed.
End RbTimersProofs.
