(* ===== verification/RbTimersBalance.v ===== *)
(** The red-black invariant, and the two loops that restore it. *)
From S2P Require Import Prelude RbTimers RbTimersProofs.

Module RbTimersBalance.
Import RbTimers RbTimersProofs.

(** * The invariant *)

(** [rbt t n]: no red node has a red child, and [n] black nodes are on every
    way down. *)
Inductive rbt : tree -> nat -> Prop :=
| rbt_leaf : rbt E 0
| rbt_red l x r n : rbt l n -> rbt r n -> col l = false -> col r = false -> rbt (T true l x r) n
| rbt_black l x r n : rbt l n -> rbt r n -> rbt (T false l x r) (S n).

(** A tree of colour [c] and black height [n] fits in the hole. *)
Fixpoint fits (pa : list frame) (c : bool) (n : nat) : Prop :=
  match pa with
  | [] => c = false
  | f :: pa => rbt f.(fsib) n /\ (f.(fcol) = true -> c = false /\ col f.(fsib) = false) /\ fits pa f.(fcol) (if f.(fcol) then n else S n)
  end.

Lemma rbt_nd_red d a x b n : rbt (nd d true a x b) n <-> rbt a n /\ rbt b n /\ col a = false /\ col b = false.
Proof. destruct d; cbn; (split; [intros H; inversion H; subst; done | intros (?&?&?&?); by constructor]). Qed.

Lemma rbt_nd_black d a x b m : rbt (nd d false a x b) m <-> exists n, m = S n /\ rbt a n /\ rbt b n.
Proof. destruct d; cbn; (split; [intros H; inversion H; subst; eauto | intros (?&->&?&?); by constructor]). Qed.

Lemma col_nd d c a x b : col (nd d c a x b) = c.
Proof. by destruct d. Qed.
Lemma paint_nd d c c' a x b : paint c' (nd d c a x b) = nd d c' a x b.
Proof. by destruct d. Qed.
Lemma paint_col t : col t = false -> paint false t = t.
Proof. by destruct t as [|[] ? ? ?]. Qed.
Lemma col_paint t c : t <> E -> col (paint c t) = c.
Proof. by destruct t. Qed.
Lemma items_paint c t : items (paint c t) = items t.
Proof. by destruct t. Qed.
Lemma nd_nonE d c a x b : nd d c a x b <> E.
Proof. by destruct d. Qed.

(** A node seen from side [d]. *)
Lemma nd_of d c l x r : exists a b, T c l x r = nd d c a x b.
Proof. destruct d; [by exists l, r | by exists r, l]. Qed.

Lemma rbt_high t n : rbt t (S n) -> t <> E.
Proof. intros H ->. inversion H. Qed.

Lemma fits_black pa c n : fits pa c n -> fits pa false n.
Proof. destruct pa as [|f pa]; [done|]. cbn. intros (?&H&?). split; [done|]. split; [intros Hf; by destruct (H Hf) | done]. Qed.

(** ** Heights *)

Fixpoint height (t : tree) : nat := match t with E => 0 | T _ l _ r => S (max (height l) (height r)) end.

Lemma height_items t : (height t <= length (items t))%nat.
Proof. induction t as [|c l IHl x r IHr]; cbn; [done|]. rewrite length_app. cbn. lia. Qed.

Lemma rbt_height t n : rbt t n -> (height t <= 2 * n + if col t then 1 else 0)%nat.
Proof. induction 1 as [|l x r n _ IHl _ IHr Hl Hr|l x r n _ IHl _ IHr]; cbn; [lia| |destruct (col l), (col r); lia]. rewrite Hl in IHl. rewrite Hr in IHr. lia. Qed.

Lemma rbt_size t n : rbt t n -> (2 ^ n <= S (length (items t)))%nat.
Proof. induction 1; cbn [items Nat.pow]; rewrite ?length_app; cbn; lia. Qed.

(** No way down is longer than twice the logarithm of the number of nodes. *)
Lemma rbt_logarithmic t n : rbt t n -> col t = false -> (height t <= 2 * Nat.log2 (S (length (items t))))%nat.
Proof.
  intros H Hc. pose proof (rbt_height _ _ H) as Hh. rewrite Hc in Hh. pose proof (rbt_size _ _ H) as Hs. apply Nat.log2_le_mono in Hs. rewrite Nat.log2_pow2 in Hs by lia. lia.
Qed.

Lemma plug_rbt pa t n : fits pa (col t) n -> rbt t n -> exists N, rbt (plug pa t) N /\ col (plug pa t) = false.
Proof.
  revert t n. induction pa as [|[d c x b] pa IH]; intros t n Hf Ht; [by exists n|]. cbn [fits fsib fcol] in Hf. destruct Hf as (Hb & Hc & Hf).
  change (plug (mk_frame d c x b :: pa) t) with (plug pa (nd d c t x b)). eapply IH; [rewrite col_nd; exact Hf|].
  destruct c; [apply rbt_nd_red; destruct (Hc eq_refl); done | apply rbt_nd_black; eauto].
Qed.

Lemma unplug_rbt pa t N : rbt (plug pa t) N -> col (plug pa t) = false -> exists n, rbt t n /\ fits pa (col t) n.
Proof.
  revert t. induction pa as [|[d c x b] pa IH]; intros t H Hc; [by exists N|].
  change (plug (mk_frame d c x b :: pa) t) with (plug pa (nd d c t x b)) in *. destruct (IH _ H Hc) as (n & Hn & Hf). rewrite col_nd in Hf. destruct c.
  - apply rbt_nd_red in Hn as (?&?&?&?). exists n. cbn. done.
  - apply rbt_nd_black in Hn as (m & -> & ? & ?). exists m. cbn. done.
Qed.

Lemma plug_app p q t : plug (p ++ q) t = plug q (plug p t).
Proof. unfold plug. apply foldl_app. Qed.

Lemma items_nd d c t t' x b : items t = items t' -> items (nd d c t x b) = items (nd d c t' x b).
Proof. intros H. destruct d; cbn; by rewrite H. Qed.

Lemma items_plug pa t t' : items t = items t' -> items (plug pa t) = items (plug pa t').
Proof. revert t t'. induction pa as [|f pa IH]; intros t t' H; [done|]. cbn. apply IH. by apply items_nd. Qed.

Lemma items_color d c c' a x b : items (nd d c a x b) = items (nd d c' a x b).
Proof. by destruct d. Qed.

Lemma items_rotate d ca a x cb b y e ca' cb' : items (nd d ca a x (nd d cb b y e)) = items (nd d cb' (nd d ca' a x b) y e).
Proof. destruct d; cbn; by rewrite <- ?app_assoc. Qed.

Lemma zip_plug t pa tr : zip t pa tr <-> zip t [] (plug pa tr).
Proof.
  revert tr. induction pa as [|[d c x b] pa IH]; intros tr; [done|]. rewrite zip_move. apply IH.
Qed.

(** * Reading and painting near the focus *)

Lemma is_red_ok t pa tr : zip t pa tr -> upsgi_rbt_is_red (ptr t.(sentinel) tr) t = Ret (col tr).
Proof.
  intros [(p & _ & Hr) _ (n & Hn & Hc)]. unfold upsgi_rbt_is_red. destruct tr as [|c l x r].
  - cbn [ptr]. rewrite (load_some _ _ _ Hn). cbn [obind]. by rewrite Hc.
  - cbn [rep ptr] in *. by rewrite (load_some _ _ _ (proj1 Hr)).
Qed.

(** The other child of the node at the focus. *)
Lemma zip_other t pa d c a x b : zip t (mk_frame d c x b :: pa) a <-> zip t (mk_frame (opp d) c x a :: pa) b.
Proof. rewrite !zip_move. by rewrite nd_opp. Qed.

Lemma paint_focus t pa tr c' : zip t pa tr -> tr <> E ->
  exists t', update (ptr t.(sentinel) tr) (set_color c') t = Ret t' /\ zip t' pa (paint c' tr) /\ keeps t t'.
Proof. intros Hz Hne. destruct (paint_zip t pa tr c' Hz) as (t' & E & Hz' & _ & _ & _ & Hk & _); [by left|]. exists t'. auto. Qed.

Lemma paint_here t pa d c a x b c' : zip t pa (nd d c a x b) ->
  exists t', update (addr x) (set_color c') t = Ret t' /\ zip t' pa (nd d c' a x b) /\ keeps t t'.
Proof.
  intros Hz. destruct (paint_focus t pa _ c' Hz (nd_nonE _ _ _ _ _)) as (t' & E & Hz' & K). rewrite ptr_nd in E. rewrite paint_nd in Hz'. by exists t'.
Qed.

(** The child on side [d], or the other one, of the node at the focus. *)
Lemma paint_near t pa d c a x b c' : zip t pa (nd d c a x b) -> a <> E ->
  exists t', update (ptr t.(sentinel) a) (set_color c') t = Ret t' /\ zip t' pa (nd d c (paint c' a) x b) /\ keeps t t'.
Proof.
  intros Hz Ha. apply zip_move in Hz. destruct (paint_focus t _ a c' Hz Ha) as (t' & E & Hz' & K). apply zip_move in Hz'. by exists t'.
Qed.

Lemma paint_far t pa d c a x b c' : zip t pa (nd d c a x b) -> b <> E ->
  exists t', update (ptr t.(sentinel) b) (set_color c') t = Ret t' /\ zip t' pa (nd d c a x (paint c' b)) /\ keeps t t'.
Proof. intros Hz Hb. rewrite <- nd_opp in Hz. destruct (paint_near t pa (opp d) c b x a c' Hz Hb) as (t' & E & Hz' & K). rewrite nd_opp in Hz'. by exists t'. Qed.

Lemma red_near t pa d c a x b : zip t pa (nd d c a x b) -> upsgi_rbt_is_red (ptr t.(sentinel) a) t = Ret (col a).
Proof. intros Hz. apply zip_move in Hz. by eapply is_red_ok. Qed.

Lemma red_far t pa d c a x b : zip t pa (nd d c a x b) -> upsgi_rbt_is_red (ptr t.(sentinel) b) t = Ret (col b).
Proof. intros Hz. rewrite <- nd_opp in Hz. by eapply red_near. Qed.

(** The paths are no longer than there are cells. *)
Lemma zip_size t pa tr : zip t pa tr -> (forall k, k ∈ addrs tr ++ paddrs pa -> k ∈ dom t.(cells)) -> (length pa < fuel_of t)%nat.
Proof.
  intros [_ Hn (n & Hs & _)] Hd. unfold fuel_of. apply NoDup_cons in Hn as [_ Hn]. apply NoDup_app in Hn as (_ & _ & Hn).
  assert (length pa <= length (paddrs pa))%nat as H1.
  { clear. induction pa as [|f pa IH]; [done|]. change (paddrs (f :: pa)) with ((addr (fitem f) :: addrs (fsib f)) ++ paddrs pa). rewrite length_app. cbn. lia. }
  assert (length (paddrs pa) <= size (dom (cells t)))%nat as H2.
  { rewrite <- (size_list_to_set (C := gset Z) (paddrs pa) Hn). apply subseteq_size. intros k Hk. apply Hd. apply elem_of_list_to_set in Hk. set_solver. }
  rewrite size_dom in H2. lia.
Qed.

Lemma rep_dom h s t p k : rep h s t p -> k ∈ addrs t -> k ∈ dom h.
Proof.
  revert p. induction t as [|c l IHl x r IHr]; intros p; cbn [rep]; unfold addrs; cbn; [set_solver|]. intros (Hx & Hl & Hr). rewrite fmap_app, fmap_cons.
  intros [H|[->|H]%elem_of_cons]%elem_of_app; [by eapply IHl | by eapply elem_of_dom_2 | by eapply IHr].
Qed.

Lemma zip_dom t tr k : zip t [] tr -> k ∈ addrs tr -> k ∈ dom t.(cells).
Proof. intros [(p & _ & Hr) _ _]. by eapply rep_dom. Qed.

Lemma addrs_plug pa t k : k ∈ addrs t ++ paddrs pa -> k ∈ addrs (plug pa t).
Proof.
  revert t. induction pa as [|[d c x b] pa IH]; intros t; [by rewrite app_nil_r|].
  change (paddrs (mk_frame d c x b :: pa)) with ((addr x :: addrs b) ++ paddrs pa). intros Hk.
  change (plug (mk_frame d c x b :: pa) t) with (plug pa (nd d c t x b)). apply IH. rewrite addrs_nd. set_solver.
Qed.

Lemma zip_fuel t pa tr : zip t pa tr -> (length pa < fuel_of t)%nat.
Proof. intros Hz. eapply zip_size; [exact Hz|]. intros k Hk. apply zip_plug in Hz. eapply zip_dom; [exact Hz|]. by apply addrs_plug. Qed.

End RbTimersBalance.
