(* ===== verification/RbTimersInsert.v ===== *)
(** Insertion in the tree of timers. *)
From Stdlib Require Import Sorted.
From S2P Require Import Prelude RbTimers RbTimersProofs RbTimersBalance.

Module RbTimersInsert.
Import RbTimers RbTimersProofs RbTimersBalance.

(** * The loop that balances the tree *)

(** The last rotation of an iteration. *)
Lemma outer_case t d n xp sib xg unc pa node : zip t (mk_frame d true xp sib :: mk_frame d false xg unc :: pa) n -> n <> E -> node = ptr t.(sentinel) n ->
  exists t', (let* nc := load node t in
     let* t := upsgi_rbt_black nc.(parent) t in
     let* p := load nc.(parent) t in
     let* t := upsgi_rbt_red p.(parent) t in
     let* t := rotate (opp d) p.(parent) t in
     Ret (node, t)) = Ret (node, t') /\
    zip t' (mk_frame d false xp (nd d true sib xg unc) :: pa) n /\ keeps t t'.
Proof.
  intros Hz Hn ->. destruct n as [|c l x r]; [done|]. destruct (nd_of d c l x r) as (a & b & En). rewrite En in *.
  destruct (zip_cell _ _ _ _ _ _ _ Hz) as (p & Hc & Hp). cbn in Hp. rewrite ptr_nd, (load_some _ _ _ Hc). cbn [obind]. rewrite parent_cell, Hp.
  apply zip_up in Hz. destruct (paint_here _ _ _ _ _ _ _ false Hz) as (t1 & E1 & Hz1 & K1). unfold upsgi_rbt_black. rewrite E1. cbn [obind].
  destruct (zip_cell _ _ _ _ _ _ _ Hz1) as (p1 & Hc1 & Hp1). cbn in Hp1. rewrite (load_some _ _ _ Hc1). cbn [obind]. rewrite parent_cell, Hp1.
  apply zip_up in Hz1. destruct (paint_here _ _ _ _ _ _ _ true Hz1) as (t2 & E2 & Hz2 & K2). unfold upsgi_rbt_red. rewrite E2. cbn [obind].
  rewrite <- nd_opp, <- (nd_opp d false) in Hz2. destruct (rotate_zip _ _ _ _ _ _ _ _ _ _ Hz2) as (t3 & E3 & Hz3 & K3). rewrite E3. cbn [obind].
  rewrite !nd_opp in Hz3. exists t3. split; [done|]. split; [by apply zip_down|]. etransitivity; [exact K1|]. by etransitivity.
Qed.

(** The state of the loop at a node [tr] that may be red below a red one. *)
Record fixing (t : rbtree) (pa : list frame) (tr : tree) (n : nat) : Prop := {
  fx_zip : zip t pa tr;
  fx_red : col tr = true;
  fx_rbt : rbt tr n;
  fx_fits : fits pa false n;
}.

Lemma red_nonE tr : col tr = true -> tr <> E.
Proof. by intros H ->. Qed.

Lemma add_fix_step_ok t d d1 xp sib xg unc pa tr n :
  fixing t (mk_frame d1 true xp sib :: mk_frame d false xg unc :: pa) tr n ->
  exists t' pa' tr' n', add_fix_step d (ptr t.(sentinel) tr) t = Ret (ptr t.(sentinel) tr', t') /\ fixing t' pa' tr' n' /\ keeps t t' /\
    (length pa' < 2 + length pa)%nat /\ items (plug pa' tr') = items (plug pa (nd d false (nd d1 true tr xp sib) xg unc)).
Proof.
  intros [Hz Hred Hrb Hf]. cbn [fits fside fcol fitem fsib] in Hf. destruct Hf as (Hsib & Hc1 & Hunc & _ & Hf). destruct (Hc1 eq_refl) as [_ Hsc].
  destruct tr as [|c l x r]; [done|]. cbn in Hred. subst c. apply (rbt_nd_red L) in Hrb as Hlr. destruct Hlr as (Hl & Hr & Hlc & Hrc).
  unfold add_fix_step. destruct (zip_cell t _ L true l x r Hz) as (p & Hc & Hp). cbn in Hp. cbn [ptr]. rewrite (load_some _ _ _ Hc). cbn [obind]. rewrite parent_cell, Hp.
  pose proof Hz as Hz0. apply zip_up in Hz0. destruct (zip_cell _ _ _ _ _ _ _ Hz0) as (p1 & Hcp & Hp1). cbn in Hp1. rewrite (load_some _ _ _ Hcp). cbn [obind].
  rewrite parent_cell, Hp1. pose proof Hz0 as Hz1. apply zip_up in Hz1. destruct (zip_cell _ _ _ _ _ _ _ Hz1) as (p2 & Hcg & _). rewrite (load_some _ _ _ Hcg). cbn [obind].
  rewrite child_opp_cell, (red_far _ _ _ _ _ _ _ Hz1). cbn [obind]. destruct (col unc) eqn:Hu.
  - (* a red uncle *)
    destruct (paint_here _ _ _ _ _ _ _ false Hz0) as (t1 & E1 & Hz2 & K1). unfold upsgi_rbt_black, upsgi_rbt_red. rewrite E1. cbn [obind]. apply zip_up in Hz2.
    destruct (paint_far _ _ _ _ _ _ _ false Hz2 (red_nonE _ Hu)) as (t2 & E2 & Hz3 & K2). rewrite (k_sentinel _ _ K1) in E2. rewrite E2. cbn [obind].
    destruct (paint_here _ _ _ _ _ _ _ true Hz3) as (t3 & E3 & Hz4 & K3). rewrite E3. cbn [obind].
    exists t3, pa, (nd d true (nd d1 false (T true l x r) xp sib) xg (paint false unc)), (S n). split; [by rewrite ptr_nd|]. split; [|split; [|split; [lia|]]].
    + constructor; [done | apply col_nd | | exact Hf]. apply rbt_nd_red. rewrite col_nd. split; [apply rbt_nd_black; eauto|]. split.
      * destruct unc as [|cu lu xu ru]; [done|]. cbn in Hu. subst cu. apply (rbt_nd_red L) in Hunc as (?&?&?&?). by constructor.
      * split; [done|]. by destruct unc.
    + etransitivity; [exact K1|]. by etransitivity.
    + apply items_plug. destruct d, d1; cbn; rewrite items_paint; done.
  - (* a black uncle: the inner and the outer case *)
    rewrite child_opp_cell || idtac.
    assert (exists t1 N xq sq, (if addr x =? child (opp d) (cell d1 true (addr xg) (ptr (sentinel t) (T true l x r)) (ptr (sentinel t) sib) xp)
        then let* t0 := rotate d (addr xp) t in Ret (addr xp, t0) else Ret (addr x, t)) = Ret (ptr (sentinel t) N, t1) /\ keeps t t1 /\
      zip t1 (mk_frame d true xq sq :: mk_frame d false xg unc :: pa) N /\ rbt N n /\ col N = true /\ rbt sq n /\ col sq = false /\
      items (nd d true N xq sq) = items (nd d1 true (T true l x r) xp sib)) as (t1 & N & xq & sq & E1 & K1 & Hz2 & HN & HNc & Hsq & Hsqc & Hit).
    { destruct (decide (d1 = d)) as [->|Hd].
      - exists t, (T true l x r), xp, sib. rewrite child_opp_cell. rewrite (proj2 (Z.eqb_neq _ _)); [done|].
        pose proof (zip_children _ _ _ _ _ _ _ Hz0 ltac:(by left)) as Hne. cbn [ptr] in *. done.
      - assert (d1 = opp d) as -> by (destruct d, d1; done). rewrite child_cell. cbn [ptr]. rewrite Z.eqb_refl.
        destruct (nd_of d true l x r) as (a & b & En). rewrite nd_opp, En in Hz0. destruct (rotate_zip _ _ _ _ _ _ _ _ _ _ Hz0) as (t1 & Er & Hz2 & K1). rewrite Er. cbn [obind].
        assert (rbt (nd d true a x b) n) as Hab by (by rewrite <- En). apply rbt_nd_red in Hab as (Ha & Hb & Hac & Hbc).
        exists t1, (nd d true sib xp a), x, b. split; [by rewrite ptr_nd|]. split; [done|]. split; [by apply zip_down|]. split; [by apply rbt_nd_red|].
        split; [apply col_nd|]. split; [done|]. split; [done|]. rewrite nd_opp, En. symmetry. apply items_rotate. }
    rewrite E1. cbn [obind]. destruct (outer_case t1 d N xq sq xg unc pa (ptr (sentinel t) N) Hz2 (red_nonE _ HNc)) as (t2 & E2 & Hz3 & K2); [by rewrite (k_sentinel _ _ K1)|]. rewrite E2.
    exists t2, (mk_frame d false xq (nd d true sq xg unc) :: pa), N, n. split; [done|]. split; [|split; [by etransitivity|split; [cbn; lia|]]].
    + constructor; [done | done | done |]. cbn. split; [by apply rbt_nd_red|]. split; [done | exact Hf].
    + change (plug (mk_frame d false xq (nd d true sq xg unc) :: pa) N) with (plug pa (nd d false N xq (nd d true sq xg unc))). apply items_plug.
      transitivity (items (nd d false (nd d true N xq sq) xg unc)); [|by apply items_nd]. destruct d; cbn; by rewrite <- ?app_assoc.
Qed.

Lemma add_fix_ok fuel : forall t pa tr n, fixing t pa tr n -> (length pa < fuel)%nat ->
  exists t' tr' N, add_fix fuel (ptr t.(sentinel) tr) t = Ret t' /\ zip t' [] tr' /\ keeps t t' /\ items tr' = items (plug pa tr) /\
    tr' <> E /\ rbt (paint false tr') N.
Proof.
  induction fuel as [|fuel IH]; intros t pa tr n Hx Hl; [lia|]. pose proof Hx as [Hz Hred Hrb Hf]. cbn [add_fix]. rewrite (zip_root _ _ _ Hz).
  destruct pa as [|[d1 c1 xp sib] pa].
  - exists t, tr, (S n). split; [done|]. split; [done|]. split; [reflexivity|]. split; [done|]. split; [by apply red_nonE|].
    destruct tr as [|c l x r]; [done|]. cbn in Hred. subst. apply (rbt_nd_red L) in Hrb as (?&?&?&?). by constructor.
  - destruct tr as [|c l x r]; [done|]. destruct (zip_cell t _ L c l x r Hz) as (p & Hc & Hp). cbn in Hp. cbn [ptr]. rewrite (load_some _ _ _ Hc). cbn [obind].
    rewrite parent_cell, Hp. pose proof Hz as Hz0. apply zip_up in Hz0. pose proof (is_red_ok _ _ _ Hz0) as Ered. rewrite ptr_nd, col_nd in Ered. rewrite Ered. cbn [obind].
    destruct c1.
    + cbn [fits fside fcol fitem fsib] in Hf. destruct Hf as (Hsib & Hc1 & Hf). destruct pa as [|[d cg xg unc] pa]; [done|].
      cbn [fits fside fcol fitem fsib] in Hf. destruct Hf as (Hunc & Hcg & Hf). destruct cg; [by destruct (Hcg eq_refl)|].
      destruct (zip_cell _ _ _ _ _ _ _ Hz0) as (p1 & Hcp & Hp1). cbn in Hp1. rewrite (load_some _ _ _ Hcp). cbn [obind]. rewrite parent_cell, Hp1.
      pose proof Hz0 as Hz1. apply zip_up in Hz1. destruct (zip_cell _ _ _ _ _ _ _ Hz1) as (p2 & Hcgc & _). rewrite (load_some _ _ _ Hcgc). cbn [obind].
      pose proof (zip_children _ _ _ _ _ _ _ Hz1 ltac:(left; apply nd_nonE)) as Hne. pose proof (side_of _ d false p2 _ xg _ Hne) as Hside. rewrite ptr_nd in Hside |- *.
      rewrite Hside.
      destruct (add_fix_step_ok t d d1 xp sib xg unc pa (T c l x r) n Hx) as (t1 & pa1 & tr1 & n1 & E1 & Hx1 & K1 & Hl1 & Hi1). cbn [ptr] in E1. rewrite E1. cbn [obind].
      rewrite <- (k_sentinel _ _ K1). destruct (IH t1 pa1 tr1 n1 Hx1 ltac:(cbn in Hl; lia)) as (t2 & tr2 & N & E2 & Hz2 & K2 & Hi2 & Hne2 & HN).
      exists t2, tr2, N. split; [done|]. split; [done|]. split; [by etransitivity|]. split; [by rewrite Hi2, Hi1|]. done.
    + destruct (plug_rbt (mk_frame d1 false xp sib :: pa) (T c l x r) n) as (N & HN & Hcol); [|done|].
      { cbn in Hf |- *. destruct Hf as (?&_&?). done. }
      exists t, (plug (mk_frame d1 false xp sib :: pa) (T c l x r)), N. split; [done|]. split; [by apply (proj1 (zip_plug _ _ _))|]. split; [reflexivity|]. split; [done|].
      split; [|by rewrite paint_col]. intros Hpe. pose proof (addrs_plug (mk_frame d1 false xp sib :: pa) (T c l x r) (addr x)) as Hin. rewrite Hpe in Hin.
      assert (addr x ∈ addrs (T c l x r)) as Hx' by (apply (ptr_in 0 (T c l x r)); done). specialize (Hin ltac:(set_solver)). cbn in Hin. set_solver.
Qed.


(** * The order *)

Fixpoint before (pa : list frame) : list titem :=
  match pa with [] => [] | f :: pa => before pa ++ match f.(fside) with L => [] | R => items f.(fsib) ++ [f.(fitem)] end end.
Fixpoint after (pa : list frame) : list titem :=
  match pa with [] => [] | f :: pa => match f.(fside) with L => f.(fitem) :: items f.(fsib) | R => [] end ++ after pa end.

Lemma plug_items pa t : items (plug pa t) = before pa ++ items t ++ after pa.
Proof.
  revert t. induction pa as [|[d c x b] pa IH]; intros t; [by rewrite app_nil_r|].
  change (plug (mk_frame d c x b :: pa) t) with (plug pa (nd d c t x b)). rewrite IH. destruct d; cbn; rewrite <- ?app_assoc; cbn; by rewrite ?app_nil_r, <- ?app_assoc.
Qed.

Definition sorted : list titem -> Prop := StronglySorted (fun x y => ival x <= ival y).

Lemma sorted_app l k : sorted (l ++ k) <-> sorted l /\ sorted k /\ Forall (fun x => Forall (fun y => ival x <= ival y) k) l.
Proof.
  unfold sorted. induction l as [|x l IH]; cbn; [split; [intros; split_and!; auto; constructor | tauto]|]. split.
  - intros H. apply StronglySorted_inv in H as [H1 H2]. apply IH in H1 as (?&?&?). apply Forall_app in H2 as [H2 H3].
    split; [by constructor|]. split; [done|]. by constructor.
  - intros (H1 & H2 & H3). apply StronglySorted_inv in H1 as [H1 H4]. apply Forall_cons in H3 as [H3 H5]. constructor; [apply IH; done|]. by apply Forall_app.
Qed.

(** [v] goes between what is before the focus and what is behind it. *)
Definition belongs (v : Z) (pa : list frame) : Prop :=
  Forall (fun x => ival x <= v) (before pa) /\ Forall (fun x => v < ival x) (after pa).

Lemma add_loop_ok v fuel : forall t pa tr, zip t pa tr -> tr <> E -> (height tr <= fuel)%nat -> sorted (items tr) -> belongs v pa ->
  exists d c x b pa', add_loop fuel v (ptr t.(sentinel) tr) t = Ret (addr x, d) /\ zip t (mk_frame d c x b :: pa') E /\
    plug (mk_frame d c x b :: pa') E = plug pa tr /\ belongs v (mk_frame d c x b :: pa').
Proof.
  induction fuel as [|fuel IH]; intros t pa tr Hz Hne Hl Hs Hb.
  { destruct tr; [done|]. cbn in Hl. lia. }
  destruct tr as [|c l x r]; [done|]. destruct (zip_cell t _ L c l x r Hz) as (p & Hc & _). cbn [ptr add_loop]. rewrite (load_some _ _ _ Hc). cbn [obind].
  rewrite value_cell. set (d := if v <? ival x then L else R).
  assert (exists a b, T c l x r = nd d c a x b /\ child d (cell L c p (ptr (sentinel t) l) (ptr (sentinel t) r) x) = ptr (sentinel t) a /\
    (height a < height (T c l x r))%nat /\ sorted (items a) /\ belongs v (mk_frame d c x b :: pa)) as (a & b & En & Ech & Hla & Hsa & Hba).
  { cbn [items] in Hs |- *. apply sorted_app in Hs as (Hsl & Hsr & Hlr). apply StronglySorted_inv in Hsr as [Hsr Hxr]. destruct Hb as [Hb1 Hb2].
    unfold d. destruct (Z.ltb_spec v (ival x)).
    - exists l, r. split; [done|]. split; [done|]. split; [cbn; lia|]. split; [done|]. split; cbn; [by rewrite app_nil_r|].
      constructor; [lia|]. apply Forall_app. split; [|done]. eapply Forall_impl; [exact Hxr|]. cbn. lia.
    - exists r, l. split; [done|]. split; [done|]. split; [cbn; lia|]. split; [done|]. split; cbn; [|done].
      apply Forall_app. split; [done|]. apply Forall_app. split; [|repeat constructor; lia].
      eapply Forall_impl; [exact Hlr|]. cbn. intros y Hy. apply Forall_cons in Hy as [Hy _]. lia. }
  rewrite Ech. rewrite En in Hz. apply zip_down in Hz. destruct a as [|ca la xa ra].
  - cbn [ptr]. rewrite Z.eqb_refl. exists d, c, x, b, pa. split; [done|]. split; [done|]. split; [|done]. rewrite En. done.
  - assert (ptr (sentinel t) (T ca la xa ra) <> sentinel t) as Hps.
    { destruct Hz as [_ Hn _]. apply NoDup_cons in Hn as [Hn _]. intros E. apply Hn. rewrite <- E. apply elem_of_app. left. by apply (ptr_in (sentinel t) (T ca la xa ra)). }
    rewrite (proj2 (Z.eqb_neq _ _)) by exact Hps.
    destruct (IH t _ (T ca la xa ra) Hz ltac:(done) ltac:(lia) Hsa Hba) as (d' & c' & x' & b' & pa' & E' & Hz' & Hpl & Hb').
    exists d', c', x', b', pa'. split; [exact E'|]. split; [done|]. split; [|done]. rewrite Hpl, En. done.
Qed.

(** The nodes are no more than the cells. *)
Lemma items_fuel t pa tr : zip t pa tr -> (length (items tr) < fuel_of t)%nat.
Proof.
  intros Hz. pose proof Hz as Hz'. apply zip_plug in Hz'. destruct Hz as [_ Hnd _]. apply NoDup_cons in Hnd as [_ Hnd]. apply NoDup_app in Hnd as (Hnd & _ & _).
  assert (length (addrs tr) <= size (dom (cells t)))%nat as H.
  { rewrite <- (size_list_to_set (C := gset Z) _ Hnd). apply subseteq_size. intros k Hk. apply elem_of_list_to_set in Hk.
    eapply zip_dom; [exact Hz'|]. apply addrs_plug. set_solver. }
  unfold addrs in H. rewrite length_fmap, size_dom in H. unfold fuel_of. lia.
Qed.

Lemma height_fuel t pa tr : zip t pa tr -> (height tr <= fuel_of t)%nat.
Proof. intros Hz. pose proof (items_fuel _ _ _ Hz). pose proof (height_items tr). lia. Qed.

(** * A new cell *)

Lemma fresh_zip t pa tr a n : zip t pa tr -> a ∉ dom t.(cells) -> zip (mk_rbtree (<[a := n]> t.(cells)) t.(root) t.(sentinel)) pa tr.
Proof.
  intros Hz Ha. pose proof Hz as Hz'. apply zip_plug in Hz'. destruct Hz as [(p & Hc & Hr) Hn (m & Hm & Hmc)].
  assert (forall k, k ∈ addrs tr ++ paddrs pa -> <[a := n]> (cells t) !! k = cells t !! k) as Hk.
  { intros k Hk. rewrite lookup_insert_ne; [done|]. intros <-. apply Ha. eapply zip_dom; [exact Hz'|]. by apply addrs_plug. }
  constructor; cbn [cells root sentinel]; [| done |].
  - exists p. split; [eapply ctx_frame; [|exact Hc] | eapply rep_frame; [|exact Hr]]; intros k Hin; apply Hk; set_solver.
  - exists m. rewrite lookup_insert_ne; [done|]. intros ->. apply Ha. by eapply elem_of_dom_2.
Qed.

(** The new node [x'] becomes the child [d] of the focus' parent. *)
Lemma attach t d c x b pa x' n0 :
  zip t (mk_frame d c x b :: pa) E -> t.(cells) !! addr x' = Some n0 -> addr x' ∉ t.(sentinel) :: addrs (plug (mk_frame d c x b :: pa) E) ->
  value n0 = ival x' -> data n0 = idat x' ->
  exists t', (let* t := update (addr x) (set_child d (addr x')) t in
     let* t := update (addr x') (set_parent (addr x)) t in
     let* t := update (addr x') (set_child L t.(sentinel)) t in
     let* t := update (addr x') (set_child R t.(sentinel)) t in
     upsgi_rbt_red (addr x') t) = Ret t' /\ zip t' (mk_frame d c x b :: pa) (T true E x' E) /\ keeps t t'.
Proof.
  intros Hz Hx' Hfr Hv Hd. pose proof Hz as Hz1. apply zip_up in Hz1. destruct (zip_cell _ _ _ _ _ _ _ Hz1) as (p & Hc & _). cbn [ptr] in Hc.
  assert (forall k, k ∈ paddrs (mk_frame d c x b :: pa) -> k <> addr x') as Hne.
  { intros k Hk ->. apply Hfr. right. apply addrs_plug. set_solver. }
  assert (addr x <> addr x') as Hxx by (apply Hne; left). assert (addr x' <> sentinel t) as Hxs by set_solver.
  rewrite (update_some _ _ _ _ Hc), set_child_cell. cbn [obind]. unfold upsgi_rbt_red.
  erewrite update_some by (cbn; rewrite lookup_insert_ne by done; exact Hx'). cbn [obind].
  erewrite update_some by (cbn; by rewrite lookup_insert_eq). cbn [obind]. erewrite update_some by (cbn; by rewrite lookup_insert_eq). cbn [obind].
  erewrite update_some by (cbn; by rewrite lookup_insert_eq). eexists. split; [reflexivity|]. cbn [cells root sentinel].
  destruct Hz as [(q & Hctx & _) Hn (m & Hm & Hmc)]. cbn [ptr ctx fside fcol fitem fsib] in Hctx. destruct Hctx as (-> & pp & Hcx & Hrb & Hctx).
  rewrite Hcx in Hc. assert (pp = p) as -> by (destruct d; cbn in Hc; congruence).
  apply NoDup_cons in Hn as [Hsn Hn]. cbn [app addrs items fmap list_fmap] in Hn, Hsn. change (paddrs (mk_frame d c x b :: pa)) with ((addr x :: addrs b) ++ paddrs pa) in *.
  pose proof Hn as Hn0. apply NoDup_app in Hn as (Hnb & Hbp & _). apply NoDup_cons in Hnb as [Hxb _].
  split.
  - constructor; cbn [cells root sentinel].
    + exists (addr x). cbn [ptr ctx fside fcol fitem fsib]. split; [split; [done|]|].
      * exists p. rewrite !(lookup_insert_ne _ (addr x') (addr x)) by done. rewrite lookup_insert_eq. split; [done|]. split.
        -- eapply rep_frame; [|exact Hrb]. intros k Hk. rewrite !lookup_insert_ne by (first [intros <-; set_solver | intros E; symmetry in E; revert E; apply Hne; set_solver]). done.
        -- eapply ctx_frame; [|exact Hctx]. intros k Hk. rewrite !lookup_insert_ne by (first [intros E; symmetry in E; revert E; apply Hne; set_solver | intros <-; apply (Hbp (addr x)); [by left | done]]). done.
      * cbn [rep ptr]. rewrite lookup_insert_eq. split; [|done]. destruct n0; cbn in *; by subst.
    + constructor; [|constructor; [|exact Hn0]]; cbn; [set_solver|]. intros Hin. by apply (Hne (addr x')).
    + exists m. rewrite !lookup_insert_ne by (first [done | set_solver]). done.
  - constructor; cbn [cells root sentinel]; [done | rewrite !lookup_insert_ne by (first [done | set_solver]); done |].
    rewrite !dom_insert_L. apply elem_of_dom_2 in Hcx. apply elem_of_dom_2 in Hx'. set_solver.
Qed.

(** * The queue of timers *)

(** The memory holds a red-black tree of the timers [l], the earliest
    first. *)
Record queue (t : rbtree) (l : list titem) : Prop := {
  q_tree : exists tr N, zip t [] tr /\ rbt tr N /\ col tr = false /\ items tr = l;
  q_sorted : sorted l;
  q_null : NULL ∉ t.(sentinel) :: (addr <$> l);
}.

Lemma plug_nonE pa tr : tr <> E -> plug pa tr <> E.
Proof. revert tr. induction pa as [|[d c x b] pa IH]; intros tr H; [done|]. cbn. apply IH. apply nd_nonE. Qed.

Lemma sorted_insert v x l1 l2 : sorted (l1 ++ l2) -> ival x = v -> Forall (fun y => ival y <= v) l1 -> Forall (fun y => v < ival y) l2 -> sorted (l1 ++ x :: l2).
Proof.
  intros Hs Hx H1 H2. apply sorted_app in Hs as (Hs1 & Hs2 & Hs3). apply sorted_app. split; [done|]. split.
  - constructor; [done|]. eapply Forall_impl; [exact H2|]. cbn. lia.
  - rewrite Forall_forall in *. intros y Hy. constructor; [rewrite Hx; by apply H1 | by apply Hs3].
Qed.

(** What follows the walk to the place of the new node. *)
Lemma add_rest t d c x b pa x' n0 N :
  zip t (mk_frame d c x b :: pa) E -> rbt (plug (mk_frame d c x b :: pa) E) N -> col (plug (mk_frame d c x b :: pa) E) = false ->
  t.(cells) !! addr x' = Some n0 -> addr x' ∉ t.(sentinel) :: addrs (plug (mk_frame d c x b :: pa) E) -> value n0 = ival x' -> data n0 = idat x' ->
  exists t' tr N', (let* t := update (addr x) (set_child d (addr x')) t in
     let* t := update (addr x') (set_parent (addr x)) t in
     let* t := update (addr x') (set_child L t.(sentinel)) t in
     let* t := update (addr x') (set_child R t.(sentinel)) t in
     let* t := upsgi_rbt_red (addr x') t in
     let* t := add_fix (fuel_of t) (addr x') t in
     upsgi_rbt_black t.(root) t) = Ret t' /\ zip t' [] tr /\ rbt tr N' /\ col tr = false /\ keeps t t' /\
    items tr = items (plug (mk_frame d c x b :: pa) (T true E x' E)).
Proof.
  intros Hz Hrb Hc Hx' Hfr Hv Hd. destruct (attach t d c x b pa x' n0 Hz Hx' Hfr Hv Hd) as (t1 & E1 & Hz1 & K1).
  destruct (unplug_rbt _ _ _ Hrb Hc) as (m & Hm & Hf). inversion Hm; subst m.
  assert (fixing t1 (mk_frame d c x b :: pa) (T true E x' E) 0) as Hx by (constructor; [done | done | by repeat constructor | exact Hf]).
  destruct (add_fix_ok _ _ _ _ _ Hx (zip_fuel _ _ _ Hz1)) as (t2 & tr & N' & E2 & Hz2 & K2 & Hi & Hne & Hrb2).
  destruct (paint_focus _ _ _ false Hz2 Hne) as (t3 & E3 & Hz3 & K3).
  assert (ptr (sentinel t2) tr = root t2) as Er by (destruct Hz2 as [(p & Hp & _) _ _]; done). rewrite Er in E3.
  exists t3, (paint false tr), N'. split; [|split; [done|split; [done|split; [by apply col_paint|split]]]].
  - destruct (update (addr x) _ t) as [u1| | |]; cbn [obind] in E1 |- *; [|done..]. destruct (update (addr x') (set_parent _) u1) as [u2| | |]; cbn [obind] in E1 |- *; [|done..].
    destruct (update (addr x') (set_child L _) u2) as [u3| | |]; cbn [obind] in E1 |- *; [|done..].
    destruct (update (addr x') (set_child R _) u3) as [u4| | |]; cbn [obind] in E1 |- *; [|done..]. rewrite E1. cbn [obind].
    cbn [ptr] in E2. rewrite E2. cbn [obind]. exact E3.
  - etransitivity; [exact K1|]. by etransitivity.
  - by rewrite items_paint, Hi.
Qed.

(** A timer goes behind those that expire no later than it does. *)
Lemma add_ok t l a v d : queue t l -> a ∉ dom t.(cells) -> a <> NULL ->
  exists t' l1 l2, upsgi_add_rb_timer a v d t = Ret (a, t') /\ l = l1 ++ l2 /\ Forall (fun y => ival y <= v) l1 /\ Forall (fun y => v < ival y) l2 /\
    queue t' (l1 ++ mk_item a v d :: l2) /\ sentinel t' = sentinel t /\ dom t'.(cells) = {[a]} ∪ dom t.(cells).
Proof.
  intros [(tr & N & Hz & Hrb & Hc & <-) Hs Hnull] Ha Hn0. set (x' := mk_item a v d). set (n0 := mk_timer false NULL NULL NULL v d).
  assert (a ∉ sentinel t :: addrs tr) as Hfr.
  { intros [->|Hin]%elem_of_cons; [destruct Hz as [_ _ (m & Hm & _)]; apply Ha; by eapply elem_of_dom_2 | apply Ha; by eapply zip_dom]. }
  assert (NULL ∉ sentinel t :: (addr <$> items tr) -> forall l1 l2, items tr = l1 ++ l2 -> NULL ∉ sentinel t :: (addr <$> l1 ++ x' :: l2)) as Hnull'.
  { intros H l1 l2 E'. rewrite E' in H. rewrite fmap_app in *. rewrite fmap_cons. cbn [addr x'] in *. set_solver. }
  pose proof (fresh_zip t [] tr a n0 Hz Ha) as Hz0. set (t0 := mk_rbtree (<[a := n0]> (cells t)) (root t) (sentinel t)) in *.
  unfold upsgi_add_rb_timer. fold n0. change (t<|cells := <[a:=n0]> (cells t)|>) with t0.
  assert (root t0 = ptr (sentinel t) tr) as Er by (destruct Hz as [(p & Hp & _) _ _]; exact Hp). rewrite Er. change (sentinel t0) with (sentinel t).
  assert (cells t0 !! a = Some n0) as Ha0 by (cbn; by rewrite lookup_insert_eq).
  destruct tr as [|c l x r].
  - cbn [ptr]. rewrite Z.eqb_refl, (update_some _ _ _ _ Ha0). cbn [obind]. eexists _, [], []. split; [reflexivity|]. split; [done|]. split; [done|]. split; [done|].
    destruct Hz as [_ _ (m & Hm & Hmc)]. split; [|split; [done | cbn; rewrite !dom_insert_L; set_solver]]. constructor.
    + exists (T false E x' E), 1%nat. split; [|split; [repeat constructor | done]]. constructor; cbn.
      * exists NULL. cbn. by rewrite lookup_insert_eq.
      * repeat constructor; set_solver.
      * exists m. rewrite !lookup_insert_ne by set_solver. done.
    + repeat constructor.
    + by apply (Hnull' Hnull [] []).
  - assert (addr x <> sentinel t) as Hxs. { destruct Hz as [_ Hnd _]. apply NoDup_cons in Hnd as [Hnd _]. intros E. apply Hnd. rewrite <- E. apply elem_of_app. left. by apply (ptr_in 0 (T c l x r)). }
    cbn [ptr]. rewrite (proj2 (Z.eqb_neq _ _)) by exact Hxs. unfold upsgi_rbt_add. rewrite (load_some _ _ _ Ha0). cbn [obind value n0].
    destruct (add_loop_ok v (fuel_of t0) t0 [] (T c l x r) Hz0 ltac:(done)) as (d' & c' & y & b' & pa & El & Hzl & Hpl & Hbl); [|done|by split|].
    { by eapply height_fuel. }
    cbn [ptr] in El. rewrite El. cbn [obind].
    destruct (add_rest t0 d' c' y b' pa x' n0 N Hzl) as (t' & tr' & N' & E' & Hz' & Hrb' & Hc' & K' & Hi'); [by rewrite Hpl | by rewrite Hpl | exact Ha0 | by rewrite Hpl | done | done |].
    exists t', (before (mk_frame d' c' y b' :: pa)), (after (mk_frame d' c' y b' :: pa)).
    assert (items (T c l x r) = before (mk_frame d' c' y b' :: pa) ++ after (mk_frame d' c' y b' :: pa)) as Hit by (change (T c l x r) with (plug [] (T c l x r)); rewrite <- Hpl; apply plug_items).
    split; [|split; [done|split; [apply Hbl|split; [apply Hbl|split; [|split]]]]].
    + revert E'. change (addr x') with a. repeat (match goal with |- context [obind ?m] => is_var m end || idtac). intros E'.
      destruct (update (addr y) _ t0) as [u1| | |]; cbn [obind] in E' |- *; [|done..]. destruct (update a (set_parent _) u1) as [u2| | |]; cbn [obind] in E' |- *; [|done..].
      destruct (update a (set_child L _) u2) as [u3| | |]; cbn [obind] in E' |- *; [|done..]. destruct (update a (set_child R _) u3) as [u4| | |]; cbn [obind] in E' |- *; [|done..].
      destruct (upsgi_rbt_red a u4) as [u5| | |]; cbn [obind] in E' |- *; [|done..]. destruct (add_fix _ a u5) as [u6| | |]; cbn [obind] in E' |- *; [|done..]. by rewrite E'.
    + constructor.
      * exists tr', N'. rewrite Hi', plug_items. done.
      * eapply sorted_insert; [by rewrite <- Hit | done | apply Hbl | apply Hbl].
      * rewrite (k_sentinel _ _ K'). by apply Hnull'.
    + apply (k_sentinel _ _ K').
    + rewrite (k_dom _ _ K'). change (cells t0) with (<[a := n0]> (cells t)). by rewrite dom_insert_L.
Qed.

Lemma init_ok s : s <> NULL -> queue (upsgi_init_rb_timer s) [].
Proof.
  intros Hs. constructor; [|constructor | set_solver]. exists E, 0%nat. split; [|split; [constructor | done]]. constructor; cbn.
  - by exists NULL.
  - repeat constructor; set_solver.
  - eexists. by rewrite lookup_singleton_eq.
Qed.
End RbTimersInsert.
