(* ===== verification/RbTimersDelfix.v ===== *)
(** The loop that restores the black height after a deletion. *)
From Stdlib Require Import Sorted.
From S2P Require Import Prelude RbTimers RbTimersProofs RbTimersBalance RbTimersInsert.

Module RbTimersDelfix.
Import RbTimers RbTimersProofs RbTimersBalance RbTimersInsert.

(** * Shapes *)

Lemma black_split d w m : rbt w (S m) -> col w = false -> exists a y b, w = nd d false a y b /\ rbt a m /\ rbt b m.
Proof.
  destruct w as [|c l y r]; [inversion 1|]. intros H Hc. cbn in Hc. subst c. destruct (nd_of d false l y r) as (a & b & E). rewrite E in *.
  apply rbt_nd_black in H as (k & [= <-] & Ha & Hb). by exists a, y, b.
Qed.

Lemma red_split d w m : rbt w m -> col w = true -> exists a y b, w = nd d true a y b /\ rbt a m /\ rbt b m /\ col a = false /\ col b = false.
Proof.
  destruct w as [|c l y r]; [done|]. intros H Hc. cbn in Hc. subst c. destruct (nd_of d true l y r) as (a & b & E). rewrite E in *.
  apply rbt_nd_red in H as (Ha & Hb & Hac & Hbc). by exists a, y, b.
Qed.

Lemma rbt_paint_red w m : rbt w m -> col w = true -> rbt (paint false w) (S m).
Proof. intros H Hc. destruct (red_split L w m H Hc) as (a & y & b & -> & Ha & Hb & _). rewrite paint_nd. apply rbt_nd_black. eauto. Qed.

Lemma rbt_nd d c a x b n : rbt a n -> rbt b n -> (c = true -> col a = false /\ col b = false) -> rbt (nd d c a x b) (if c then n else S n).
Proof. intros Ha Hb Hc. destruct c; [apply rbt_nd_red; by destruct (Hc eq_refl) | apply rbt_nd_black; eauto]. Qed.

(** The cell of a node and the pointers in it. *)
Lemma load_nd t pa d c a x b : zip t pa (nd d c a x b) ->
  exists n, load (addr x) t = Ret n /\ child d n = ptr t.(sentinel) a /\ child (opp d) n = ptr t.(sentinel) b /\ color n = c /\ up_ptr pa (parent n).
Proof.
  intros Hz. destruct (zip_cell _ _ _ _ _ _ _ Hz) as (p & Hc & Hp). eexists. split; [by apply load_some|].
  rewrite child_cell, child_opp_cell, color_cell, parent_cell. done.
Qed.

(** * One iteration *)

(** The subtree [tr] is short of one black node, unless it is red: then it
    becomes black. *)
Record lacking (t : rbtree) (pa : list frame) (tr : tree) (n : nat) : Prop := {
  lk_zip : zip t pa tr;
  lk_rbt : rbt (paint false tr) (if col tr then S n else n);
  lk_fits : fits pa false (S n);
  lk_parent : forall m, t.(cells) !! ptr t.(sentinel) tr = Some m -> up_ptr pa (parent m);
}.

Lemma lacking_nd t pa d c a x b n : zip t pa (nd d c a x b) -> rbt (paint false (nd d c a x b)) (if c then S n else n) -> fits pa false (S n) ->
  lacking t pa (nd d c a x b) n.
Proof.
  intros Hz Hr Hf. constructor; [done | by rewrite col_nd | done|]. intros m. rewrite ptr_nd. destruct (zip_cell _ _ _ _ _ _ _ Hz) as (p & Hc & Hp).
  rewrite Hc. intros [= <-]. by rewrite parent_cell.
Qed.

(** The focus' parent field leads to its parent, also when the focus is a
    leaf, while the sentinel is as it was. *)
Lemma temp_parent t0 t pa d c tr x b : (forall m, t0.(cells) !! ptr t0.(sentinel) tr = Some m -> parent m = addr x) -> keeps t0 t -> zip t pa (nd d c tr x b) ->
  exists m, load (ptr t0.(sentinel) tr) t = Ret m /\ parent m = addr x.
Proof.
  intros Hp K Hz. destruct tr as [|ct lt xt rt].
  - destruct Hz as [_ _ (m & Hm & _)]. cbn [ptr] in *. rewrite (k_sentinel _ _ K) in Hm. exists m. split; [by apply load_some|]. apply Hp. by rewrite <- (k_cell _ _ K).
  - apply zip_down in Hz. destruct (load_nd _ _ L ct lt xt rt Hz) as (m & Hm & _ & _ & _ & Hup). by exists m.
Qed.

(** A red sibling goes up. *)
Lemma sibling_red t pa d cx tr x sib n : let temp := ptr t.(sentinel) tr in zip t pa (nd d cx tr x sib) -> rbt sib (S n) -> (cx = true -> col sib = false) -> fits pa cx (if cx then S n else S (S n)) ->
  (forall m, t.(cells) !! ptr t.(sentinel) tr = Some m -> parent m = addr x) ->
  exists t1 c1 pa1 w1, (let* red := upsgi_rbt_is_red (ptr t.(sentinel) sib) t in
    if red : bool then
      let* t := upsgi_rbt_black (ptr t.(sentinel) sib) t in
      let* t := upsgi_rbt_red (addr x) t in
      let* t := rotate d (addr x) t in
      let* tn := load temp t in
      let* pn := load tn.(parent) t in
      Ret (child (opp d) pn, t)
    else Ret (ptr t.(sentinel) sib, t)) = Ret (ptr t.(sentinel) w1, t1) /\
    zip t1 pa1 (nd d c1 tr x w1) /\ keeps t t1 /\ rbt w1 (S n) /\ col w1 = false /\ fits pa1 c1 (if c1 then S n else S (S n)) /\
    (length pa1 <= if c1 then S (length pa) else length pa)%nat /\ items (plug pa1 (nd d c1 tr x w1)) = items (plug pa (nd d cx tr x sib)).
Proof.
  intros temp Hz Hs Hcx Hf Hp. rewrite (red_far _ _ _ _ _ _ _ Hz). cbn [obind]. destruct (col sib) eqn:Hcs.
  - destruct cx; [by specialize (Hcx eq_refl)|]. destruct (red_split d sib (S n) Hs Hcs) as (wa & y & wb & -> & Ha & Hb & Hac & Hbc).
    destruct (paint_far _ _ _ _ _ _ _ false Hz (nd_nonE _ _ _ _ _)) as (t1 & E1 & Hz1 & K1). unfold upsgi_rbt_black, upsgi_rbt_red. rewrite E1. cbn [obind]. rewrite paint_nd in Hz1.
    destruct (paint_here _ _ _ _ _ _ _ true Hz1) as (t2 & E2 & Hz2 & K2). rewrite E2. cbn [obind].
    destruct (rotate_zip _ _ _ _ _ _ _ _ _ _ Hz2) as (t3 & E3 & Hz3 & K3). rewrite E3. cbn [obind]. apply zip_down in Hz3.
    assert (keeps t t3) as K by (etransitivity; [exact K1|]; by etransitivity). destruct (temp_parent _ _ _ _ _ _ _ _ Hp K Hz3) as (tn & Et & Etp). fold temp in Et. rewrite Et. cbn [obind]. rewrite Etp.
    destruct (load_nd _ _ _ _ _ _ _ Hz3) as (pn & El & _ & Ech & _). rewrite El. cbn [obind]. rewrite Ech. rewrite (k_sentinel _ _ K).
    exists t3, true, (mk_frame d false y wb :: pa), wa. split; [done|]. split; [done|]. split; [done|]. split; [done|]. split; [done|]. split; [done|]. split; [done|].
    change (plug (mk_frame d false y wb :: pa) ?q) with (plug pa (nd d false q y wb)). apply items_plug. symmetry.
    transitivity (items (nd d false tr x (nd d false wa y wb))); [destruct d; done | apply items_rotate].
  - exists t, cx, pa, sib. split; [done|]. split; [done|]. split; [reflexivity|]. split; [done|]. split; [done|]. split; [done|]. split; [destruct cx; lia | done].
Qed.

(** A red near nephew goes up. *)
Lemma nephew_near t0 t pa d c1 tr x wn z wf n : let temp := ptr t0.(sentinel) tr in zip t pa (nd d c1 tr x (nd d false wn z wf)) -> rbt wn n -> rbt wf n -> col wn = true \/ col wf = true ->
  (forall m, t0.(cells) !! temp = Some m -> parent m = addr x) -> keeps t0 t ->
  exists t2 qa u qf, (if negb (col wf) then
      let* t := upsgi_rbt_black (ptr t.(sentinel) wn) t in
      let* t := upsgi_rbt_red (addr z) t in
      let* t := rotate (opp d) (addr z) t in
      let* tn := load temp t in
      let* pn := load tn.(parent) t in
      Ret (child (opp d) pn, t)
    else Ret (addr z, t)) = Ret (addr u, t2) /\
    zip t2 pa (nd d c1 tr x (nd d false qa u qf)) /\ keeps t t2 /\ rbt qa n /\ rbt qf n /\ col qf = true /\
    items (nd d false qa u qf) = items (nd d false wn z wf).
Proof.
  intros temp Hz Hn Hf Hc Hp K. destruct (col wf) eqn:Hcf; cbn [negb].
  - exists t, wn, z, wf. done.
  - destruct Hc as [Hcn|]; [|done]. destruct (red_split d wn n Hn Hcn) as (na & u & nf & -> & Hna & Hnf & Hnac & Hnfc).
    pose proof Hz as Hz0. rewrite <- nd_opp in Hz0. apply zip_down in Hz0.
    destruct (paint_near _ _ _ _ _ _ _ false Hz0 (nd_nonE _ _ _ _ _)) as (t1 & E1 & Hz1 & K1). unfold upsgi_rbt_black, upsgi_rbt_red. rewrite E1. cbn [obind]. rewrite paint_nd in Hz1.
    destruct (paint_here _ _ _ _ _ _ _ true Hz1) as (t2 & E2 & Hz2 & K2). rewrite E2. cbn [obind].
    rewrite <- (nd_opp d true), <- (nd_opp d false) in Hz2.
    destruct (rotate_zip _ _ _ _ _ _ _ _ _ _ Hz2) as (t3 & E3 & Hz3 & K3). rewrite E3. cbn [obind]. rewrite !nd_opp in Hz3. apply zip_up in Hz3. rewrite nd_opp in Hz3.
    assert (keeps t t3) as K' by (etransitivity; [exact K1|]; by etransitivity).
    destruct (temp_parent t0 t3 _ _ _ _ _ _ Hp ltac:(by etransitivity) Hz3) as (tn & Et & Etp). fold temp in Et. rewrite Et. cbn [obind]. rewrite Etp.
    destruct (load_nd _ _ _ _ _ _ _ Hz3) as (pn & El & _ & Ech & _). rewrite El. cbn [obind]. rewrite Ech, ptr_nd.
    exists t3, na, u, (nd d true nf z wf). split; [done|]. split; [done|]. split; [done|]. split; [done|].
    split; [apply rbt_nd_red; done|]. split; [apply col_nd|]. symmetry. destruct d; cbn; by rewrite <- ?app_assoc.
Qed.

(** A red far nephew pays for the missing node. *)
Lemma nephew_far t pa d c1 tr x qa u qf n : zip t pa (nd d c1 tr x (nd d false qa u qf)) -> rbt tr n -> rbt qa n -> rbt qf n -> col qf = true ->
  fits pa c1 (if c1 then S n else S (S n)) ->
  exists t', (let* t := upsgi_rbt_copy_color (addr u) (addr x) t in
    let* t := upsgi_rbt_black (addr x) t in
    let* wn := load (addr u) t in
    let* t := upsgi_rbt_black (child (opp d) wn) t in
    let* t := rotate d (addr x) t in
    Ret (t.(root), t)) = Ret (root t', t') /\ zip t' pa (nd d c1 (nd d false tr x qa) u (paint false qf)) /\ keeps t t' /\
    rbt (nd d c1 (nd d false tr x qa) u (paint false qf)) (if c1 then S n else S (S n)).
Proof.
  intros Hz Htr Hqa Hqf Hc Hf. unfold upsgi_rbt_copy_color, upsgi_rbt_black. destruct (load_nd _ _ _ _ _ _ _ Hz) as (pn & El & _ & _ & Ec & _). rewrite El. cbn [obind]. rewrite Ec.
  destruct (paint_far _ _ _ _ _ _ _ c1 Hz (nd_nonE _ _ _ _ _)) as (t1 & E1 & Hz1 & K1). rewrite ptr_nd in E1. rewrite E1. cbn [obind]. rewrite paint_nd in Hz1.
  destruct (paint_here _ _ _ _ _ _ _ false Hz1) as (t2 & E2 & Hz2 & K2). rewrite E2. cbn [obind].
  pose proof Hz2 as Hz2'. rewrite <- nd_opp in Hz2'. apply zip_down in Hz2'. destruct (load_nd _ _ _ _ _ _ _ Hz2') as (wn & El2 & _ & Ech & _). rewrite El2. cbn [obind]. rewrite Ech.
  destruct (paint_far _ _ _ _ _ _ _ false Hz2' (red_nonE _ Hc)) as (t3 & E3 & Hz3 & K3). rewrite E3. cbn [obind]. apply zip_up in Hz3. rewrite nd_opp in Hz3.
  destruct (rotate_zip _ _ _ _ _ _ _ _ _ _ Hz3) as (t4 & E4 & Hz4 & K4). rewrite E4. cbn [obind]. exists t4. split; [done|]. split; [done|].
  split; [etransitivity; [exact K1|]; etransitivity; [exact K2|]; by etransitivity|].
  assert (rbt (nd d false tr x qa) (S n)) by (apply rbt_nd_black; eauto). pose proof (rbt_paint_red _ _ Hqf Hc).
  destruct c1; [|by apply rbt_nd_black; eauto]. apply rbt_nd_red. rewrite col_nd. split; [done|]. split; [done|]. split; [done|]. apply col_paint. by apply red_nonE.
Qed.

Lemma zip_root_ptr t tr : zip t [] tr -> root t = ptr t.(sentinel) tr.
Proof. by intros [(p & H & _) _ _]. Qed.

(** An iteration ends the loop or moves up the tree. *)
Lemma del_fix_step_ok t d cx x sib pa tr n : lacking t (mk_frame d cx x sib :: pa) tr n -> col tr = false ->
  exists t' pa' tr' n', del_fix_step d (ptr t.(sentinel) tr) t = Ret (ptr t.(sentinel) tr', t') /\ lacking t' pa' tr' n' /\ keeps t t' /\
    ((if col tr' then 0 else length pa') <= length pa)%nat /\ items (plug pa' tr') = items (plug (mk_frame d cx x sib :: pa) tr).
Proof.
  intros [Hz Hr Hf Hp] Hc. rewrite Hc, paint_col in Hr by done. cbn [fits fside fcol fitem fsib] in Hf. destruct Hf as (Hs & Hcs & Hf).
  assert (exists m, t.(cells) !! ptr t.(sentinel) tr = Some m) as [m Hm].
  { destruct tr as [|c l y r]; [destruct Hz as [_ _ (m & Hm & _)]; by exists m|]. destruct (zip_cell t _ L c l y r Hz) as (q & Hq & _). by eexists. }
  assert (forall m, t.(cells) !! ptr t.(sentinel) tr = Some m -> parent m = addr x) as Hpar by exact Hp.
  specialize (Hp m Hm). cbn in Hp. unfold del_fix_step. rewrite (load_some _ _ _ Hm). cbn [obind]. rewrite Hp. apply zip_up in Hz.
  destruct (load_nd _ _ _ _ _ _ _ Hz) as (pn & El & _ & Ech & _). rewrite El. cbn [obind]. rewrite Ech.
  destruct (sibling_red _ _ _ _ _ _ _ _ Hz Hs ltac:(intros H; by apply Hcs) Hf Hpar) as (t1 & c1 & pa1 & w1 & E1 & Hz1 & K1 & Hw & Hwc & Hf1 & Hl1 & Hi1).
  destruct (upsgi_rbt_is_red (ptr (sentinel t) sib) t) as [b| | |] eqn:Eb; cbn [obind] in E1 |- *; [|done..].
  change (items (plug (mk_frame d cx x sib :: pa) tr)) with (items (plug pa (nd d cx tr x sib))). rewrite <- Hi1.
  match goal with |- context [obind ?e _] => replace e with (Ret (ptr (sentinel t) w1, t1)) by (symmetry; exact E1) end. cbn [obind].
  destruct (temp_parent _ _ _ _ _ _ _ _ Hpar K1 Hz1) as (tn & Et & Etp). rewrite Et. cbn [obind]. rewrite Etp.
  destruct (black_split d w1 n Hw Hwc) as (wn & z & wf & -> & Hwn & Hwf). rewrite ptr_nd.
  pose proof Hz1 as Hz1'. rewrite <- nd_opp in Hz1'. apply zip_down in Hz1'. destruct (load_nd _ _ _ _ _ _ _ Hz1') as (zn & Ez & Ez1 & Ez2 & _). rewrite Ez. cbn [obind].
  rewrite Ez1, Ez2, (red_near _ _ _ _ _ _ _ Hz1'), (red_far _ _ _ _ _ _ _ Hz1'). cbn [obind].
  destruct (negb (col wn) && negb (col wf)) eqn:Hb.
  - (* both nephews are black *)
    apply andb_true_iff in Hb as [Hwnc Hwfc]. apply negb_true_iff in Hwnc, Hwfc.
    destruct (paint_far _ _ _ _ _ _ _ true Hz1 (nd_nonE _ _ _ _ _)) as (t2 & E2 & Hz2 & K2). rewrite ptr_nd in E2. unfold upsgi_rbt_red. rewrite E2. cbn [obind]. rewrite paint_nd in Hz2.
    exists t2, pa1, (nd d c1 tr x (nd d true wn z wf)), (if c1 then n else S n). split; [by rewrite ptr_nd|].
    assert (rbt (nd d true wn z wf) n) by (by apply rbt_nd_red).
    split; [|split; [by etransitivity|split]].
    + apply lacking_nd; [done | |]; destruct c1; rewrite ?paint_nd; [apply rbt_nd_black; eauto | apply rbt_nd_black; eauto | by eapply fits_black | done].
    + rewrite col_nd. destruct c1; lia.
    + apply items_plug. destruct d; done.
  - (* a nephew is red *)
    destruct (nephew_near t _ _ _ _ _ _ _ _ _ _ Hz1 Hwn Hwf) as (t2 & qa & u & qf & E2 & Hz2 & K2 & Hqa & Hqf & Hqc & Hi2).
    { destruct (col wn), (col wf); auto. } { done. } { done. }
    match goal with |- context [obind ?e _] => replace e with (Ret (addr u, t2)) by (symmetry; exact E2) end. cbn [obind].
    destruct (temp_parent t t2 _ _ _ _ _ _ Hpar ltac:(by etransitivity) Hz2) as (tn2 & Et2 & Etp2). rewrite Et2. cbn [obind]. rewrite Etp2.
    destruct (nephew_far _ _ _ _ _ _ _ _ _ _ Hz2 Hr Hqa Hqf Hqc Hf1) as (t3 & E3 & Hz3 & K3 & Hr3). rewrite E3.
    assert (keeps t t3) as K by (etransitivity; [exact K1|]; by etransitivity).
    destruct (plug_rbt pa1 _ _ ltac:(rewrite col_nd; exact Hf1) Hr3) as (N & HN & HNc). apply zip_plug in Hz3.
    exists t3, [], (plug pa1 (nd d c1 (nd d false tr x qa) u (paint false qf))), N.
    split; [rewrite (zip_root_ptr _ _ Hz3), (k_sentinel _ _ K); done|]. split; [|split; [done|split]].
    + constructor; [done | by rewrite HNc, paint_col | done | done].
    + rewrite HNc. apply Nat.le_0_l.
    + cbn [plug foldl]. apply items_plug. transitivity (items (nd d c1 tr x (nd d false qa u qf))).
      * destruct d; cbn; rewrite items_paint, <- ?app_assoc; done.
      * destruct d; cbn in Hi2 |- *; rewrite Hi2; done.
Qed.

Lemma del_fix_ok fuel : forall t pa tr n, lacking t pa tr n -> ((if col tr then 0 else length pa) < fuel)%nat ->
  exists t' tr' N, del_fix fuel (ptr t.(sentinel) tr) t = Ret t' /\ zip t' [] tr' /\ sentinel t' = sentinel t /\ dom t'.(cells) = dom t.(cells) /\
    items tr' = items (plug pa tr) /\ rbt tr' N /\ col tr' = false.
Proof.
  induction fuel as [|fuel IH]; intros t pa tr n Hk Hl; [lia|]. pose proof Hk as [Hz Hr Hf Hp]. cbn [del_fix]. rewrite (zip_root _ _ _ Hz).
  assert (exists t' tr' N, upsgi_rbt_black (ptr t.(sentinel) tr) t = Ret t' /\ zip t' pa (paint false tr) /\ sentinel t' = sentinel t /\ dom t'.(cells) = dom t.(cells) /\
    (pa = [] \/ col tr = true -> tr' = plug pa (paint false tr) /\ rbt tr' N /\ col tr' = false)) as (t' & tr' & N & Epaint & Hz' & Hs & Hd & Hfin).
  { destruct (paint_zip _ _ _ false Hz ltac:(by right)) as (t' & Epaint & Hz' & _ & Hs & Hd & _).
    assert (pa = [] \/ col tr = true -> exists tr' N, tr' = plug pa (paint false tr) /\ rbt tr' N /\ col tr' = false) as H.
    { intros H. destruct (plug_rbt pa (paint false tr) (if col tr then S n else n)) as (N & HN & Hc); [| done | by eexists _, N].
      destruct H as [->|H]; [by destruct tr|]. rewrite H. by destruct tr. }
    destruct (decide (pa = [] \/ col tr = true)) as [H'|H'].
    - destruct (H H') as (tr' & N & ?). by exists t', tr', N.
    - by exists t', tr, 0%nat. }
  destruct pa as [|f pa].
  - destruct (Hfin ltac:(by left)) as (-> & HN & Hc). exists t', (paint false tr), N. split; [done|]. split; [done|]. split; [done|]. split; [done|]. split; [apply items_paint | done].
  - assert (exists m, t.(cells) !! ptr t.(sentinel) tr = Some m /\ color m = col tr) as (m & Hm & Hmc).
    { destruct tr as [|c l y r]; [destruct Hz as [_ _ (m & Hm & Hmc)]; by exists m|]. destruct (zip_cell t _ L c l y r Hz) as (q & Hq & _). by eexists. }
    rewrite (load_some _ _ _ Hm). cbn [obind]. rewrite Hmc. destruct (col tr) eqn:Hc.
    + destruct (Hfin ltac:(by right)) as (-> & HN & Hc'). exists t', (plug (f :: pa) (paint false tr)), N. split; [done|]. split; [by apply (proj1 (zip_plug _ _ _))|].
      split; [done|]. split; [done|]. split; [|done]. apply items_plug, items_paint.
    + destruct f as [d cx x sib]. specialize (Hp m Hm). cbn in Hp. rewrite Hp. pose proof Hz as Hz0. apply zip_up in Hz0.
      destruct (zip_cell _ _ _ _ _ _ _ Hz0) as (q & Hq & _). rewrite (load_some _ _ _ Hq). cbn [obind].
      assert (sib <> E) as Hsib by (destruct Hf as (Hs' & _); by eapply rbt_high).
      rewrite (side_of _ d cx q tr x sib) by (eapply zip_children; [exact Hz0 | by right]).
      destruct (del_fix_step_ok _ _ _ _ _ _ _ _ Hk Hc) as (t1 & pa1 & tr1 & n1 & E1 & Hk1 & K1 & Hl1 & Hi1). rewrite E1. cbn [obind]. rewrite <- (k_sentinel _ _ K1).
      destruct (IH _ _ _ _ Hk1) as (t2 & tr2 & N2 & E2 & Hz2 & Hs2 & Hd2 & Hi2 & Hr2 & Hc2); [cbn in Hl; destruct (col tr1); lia|].
      exists t2, tr2, N2. split; [done|]. split; [done|]. split; [by rewrite Hs2, (k_sentinel _ _ K1)|]. split; [by rewrite Hd2, (k_dom _ _ K1)|]. split; [by rewrite Hi2|]. done.
Qed.
End RbTimersDelfix.
