(* ===== verification/RbTimersDelete.v ===== *)
(** Deletion from the tree of timers, and its minimum. *)
From Stdlib Require Import Sorted.
From S2P Require Import Prelude RbTimers RbTimersProofs RbTimersBalance RbTimersInsert RbTimersDelfix.

Module RbTimersDelete.
Import RbTimers RbTimersProofs RbTimersBalance RbTimersInsert RbTimersDelfix.

(** * Places in a tree *)

Lemma before_app p q : before (p ++ q) = before q ++ before p.
Proof. induction p as [|f p IH]; cbn; [by rewrite app_nil_r | by rewrite IH, app_assoc]. Qed.
Lemma after_app p q : after (p ++ q) = after p ++ after q.
Proof. induction p as [|f p IH]; cbn; [done | by rewrite IH, app_assoc]. Qed.

(** Every element of the sequence is a node. *)
Lemma locate tr : forall l1 x l2, items tr = l1 ++ x :: l2 ->
  exists pa c l r, tr = plug pa (T c l x r) /\ l1 = before pa ++ items l /\ l2 = items r ++ after pa.
Proof.
  induction tr as [|c l IHl y r IHr]; intros l1 x l2 H; [by destruct l1|]. cbn [items] in H.
  apply app_eq_inv in H as [(k & Hk1 & Hk2)|(k & Hk1 & Hk2)].
  - destruct k as [|z k].
    + cbn in Hk2. injection Hk2 as -> ->. exists [], c, l, r. rewrite app_nil_r in Hk1. cbn. by rewrite app_nil_r, Hk1.
    + cbn in Hk2. injection Hk2 as -> ->. destruct (IHl _ _ _ Hk1) as (pa & c' & l' & r' & -> & -> & ->).
      exists (pa ++ [mk_frame L c y r]), c', l', r'. rewrite plug_app, before_app, after_app. cbn. by rewrite app_nil_r, <- !app_assoc.
  - destruct k as [|z k].
    + cbn in Hk2. injection Hk2 as <- <-. exists [], c, l, r. cbn. rewrite app_nil_r in Hk1. by rewrite app_nil_r, Hk1.
    + cbn in Hk2. injection Hk2 as <- Hk2. destruct (IHr _ _ _ Hk2) as (pa & c' & l' & r' & -> & -> & ->).
      exists (pa ++ [mk_frame R c y l]), c', l', r'. rewrite plug_app, before_app, after_app. cbn. by rewrite app_nil_r, Hk1, <- !app_assoc.
Qed.

Lemma zip_subtree t p pa tr : zip t pa (plug p tr) <-> zip t (p ++ pa) tr.
Proof. rewrite (zip_plug t (p ++ pa)), (zip_plug t pa), plug_app. done. Qed.

Lemma fits_plug p pa tr n : rbt (plug p tr) n -> fits pa (col (plug p tr)) n -> exists m, rbt tr m /\ fits (p ++ pa) (col tr) m.
Proof.
  revert tr. induction p as [|[d c x b] p IH]; intros tr Hr Hf; [by exists n|].
  change (plug (mk_frame d c x b :: p) tr) with (plug p (nd d c tr x b)) in *. destruct (IH _ Hr Hf) as (m & Hm & Hf'). rewrite col_nd in Hf'. destruct c.
  - apply rbt_nd_red in Hm as (?&?&?&?). by exists m.
  - apply rbt_nd_black in Hm as (k & -> & ? & ?). by exists k.
Qed.

(** * The minimum *)

Lemma ptr_ne t pa tr : zip t pa tr -> tr <> E -> ptr t.(sentinel) tr <> t.(sentinel).
Proof. intros [_ Hn _] Hne H. apply NoDup_cons in Hn as [Hn _]. apply Hn. rewrite <- H. apply elem_of_app. left. by apply ptr_in. Qed.

Lemma min_loop_ok fuel : forall t pa tr, zip t pa tr -> tr <> E -> (height tr <= fuel)%nat ->
  exists pm c x r, tr = plug pm (T c E x r) /\ before pm = [] /\ min_loop fuel (ptr t.(sentinel) tr) t = Ret (addr x).
Proof.
  induction fuel as [|fuel IH]; intros t pa tr Hz Hne Hl.
  { destruct tr; [done|]. cbn in Hl. lia. }
  destruct tr as [|c l x r]; [done|]. destruct (zip_cell t _ L c l x r Hz) as (p & Hc & _). cbn [ptr min_loop]. rewrite (load_some _ _ _ Hc). cbn [obind cell left].
  destruct l as [|cl ll xl rl].
  - cbn [ptr]. rewrite Z.eqb_refl. by exists [], c, x, r.
  - apply (zip_down t L) in Hz. rewrite (proj2 (Z.eqb_neq _ _)) by (by eapply ptr_ne).
    destruct (IH _ _ _ Hz ltac:(done)) as (pm & c' & x' & r' & E' & Hb & El); [cbn [height] in Hl |- *; lia|].
    exists (pm ++ [mk_frame L c x r]), c', x', r'. rewrite plug_app, <- E', before_app, Hb. done.
Qed.

(** The earliest timer. *)
Lemma min_ok t l : queue t l -> upsgi_min_rb_timer NULL t = Ret match l with [] => NULL | x :: _ => addr x end.
Proof.
  intros [(tr & N & Hz & _ & _ & <-) _ _]. unfold upsgi_min_rb_timer. cbn [Z.eqb]. rewrite Z.eqb_refl, (zip_root_ptr _ _ Hz).
  destruct tr as [|c l x r]; [by cbn [ptr]; rewrite Z.eqb_refl|]. rewrite (proj2 (Z.eqb_neq _ _)) by (by eapply ptr_ne).
  destruct (min_loop_ok _ _ _ _ Hz ltac:(done) (height_fuel _ _ _ Hz)) as (pm & c' & x' & r' & E' & Hb & El). rewrite El, E', plug_items, Hb. done.
Qed.

(** * Unlinking *)

(** The parent field of the focus may differ from its parent. *)
Record loose (t : rbtree) (pa : list frame) (tr : tree) (q : Z) : Prop := {
  l_rep : exists p, ctx t.(cells) t.(sentinel) t.(root) pa (ptr t.(sentinel) tr) p /\ rep t.(cells) t.(sentinel) tr q;
  l_nodup : NoDup (t.(sentinel) :: addrs tr ++ paddrs pa);
  l_black : exists n, t.(cells) !! t.(sentinel) = Some n /\ color n = false;
}.

Lemma loose_zip t f pa tr : loose t (f :: pa) tr (addr f.(fitem)) -> zip t (f :: pa) tr.
Proof. intros [(p & Hc & Hr) Hn Hb]. split; [|done|done]. exists p. split; [done|]. by destruct Hc as [-> _]. Qed.

(** The parent field of a subtree, the sentinel's included. *)
Lemma set_parent_loose t pa b q q' : loose t pa b q ->
  exists t', update (ptr t.(sentinel) b) (set_parent q') t = Ret t' /\ loose t' pa b q' /\ sentinel t' = sentinel t /\ root t' = root t /\ dom t'.(cells) = dom t.(cells) /\
    (forall k, k ∉ t.(sentinel) :: addrs b -> t'.(cells) !! k = t.(cells) !! k) /\ (forall n, t'.(cells) !! ptr t.(sentinel) b = Some n -> parent n = q').
Proof.
  intros [(p & Hc & Hr) Hn (m & Hm & Hmc)]. pose proof Hn as Hn'. apply NoDup_cons in Hn' as [Hs Hn']. apply NoDup_app in Hn' as (Hnb & Hd & _).
  assert (exists n, t.(cells) !! ptr t.(sentinel) b = Some n) as [n Hpn] by (destruct b as [|c l x r]; [by exists m | eexists; apply Hr]).
  assert (ptr (sentinel t) b ∈ sentinel t :: addrs b) as Hin by (destruct b; [by left | right; by apply (ptr_in (sentinel t) (T c b1 x b2))]).
  eexists. split; [by apply update_some|]. cbn [cells sentinel root]. split; [constructor; cbn [cells sentinel root]|split; [done|split; [done|split; [by eapply dom_store|split]]]].
  - exists p. split.
    + eapply ctx_frame; [|exact Hc]. intros k Hk. rewrite lookup_insert_ne; [done|]. intros <-. apply elem_of_cons in Hin as [Hin|Hin]; [rewrite Hin in Hk; set_solver | by apply (Hd (ptr (sentinel t) b))].
    + eapply rep_reparent; [exact Hr | done | |].
      * intros k _ Hk. by rewrite lookup_insert_ne.
      * intros _ n' Hn''. rewrite lookup_insert_eq. congruence.
  - done.
  - destruct (decide (ptr (sentinel t) b = sentinel t)) as [Ep|Ep].
    + rewrite Ep, lookup_insert_eq. exists (set_parent q' n). split; [done|]. rewrite Ep in Hpn. cbn. congruence.
    + rewrite lookup_insert_ne by done. by exists m.
  - intros k Hk. rewrite lookup_insert_ne; [done|]. intros <-. done.
  - intros n'. rewrite lookup_insert_eq. by intros [= <-].
Qed.

(** A node with a leaf is taken out: its other subtree takes its place. *)
Lemma unlink_ok t f pa d c xs b : zip t (f :: pa) (nd d c E xs b) ->
  exists pn t1, load (addr f.(fitem)) t = Ret pn /\
    update (addr f.(fitem)) (set_child (if addr xs =? left pn then L else R) (ptr t.(sentinel) b)) t = Ret t1 /\
    load (addr xs) t1 = load (addr xs) t /\ sentinel t1 = sentinel t /\ root t1 = root t /\
    forall q, exists t2, update (ptr t.(sentinel) b) (set_parent q) t1 = Ret t2 /\ loose t2 (f :: pa) b q /\ sentinel t2 = sentinel t /\ root t2 = root t /\
      dom t2.(cells) = dom t.(cells) /\ t2.(cells) !! addr xs = t.(cells) !! addr xs /\ (forall n, t2.(cells) !! ptr t.(sentinel) b = Some n -> parent n = q).
Proof.
  intros Hz. pose proof Hz as [(p & Hc & Hr) Hn (m & Hm & Hmc)]. rewrite ptr_nd in Hc. rewrite rep_nd in Hr. destruct Hr as (Hxs & _ & Hb).
  rewrite addrs_nd in Hn. cbn [addrs items fmap list_fmap app] in Hn. pose proof Hn as Hn0. apply NoDup_cons in Hn as [Hs Hn]. apply NoDup_cons in Hn as [Hx Hn].
  apply NoDup_app in Hn as (Hnb & Hbd & Hnp).
  assert (p = addr (fitem f)) as -> by (by destruct Hc as [-> _]).
  destruct (relink_child L t f pa (addr xs) _ (ptr t.(sentinel) b) Hc) as (pn & t1 & Hpn & E1 & Hc1 & Hs1 & Hr1 & K1 & Hd1); [|done|].
  { intros H. destruct (fsib f) as [|cf lf xf rf] eqn:Ef; [cbn [ptr] in H; set_solver|]. apply Hx. apply elem_of_app. right.
    change (paddrs (f :: pa)) with ((addr (fitem f) :: addrs (fsib f)) ++ paddrs pa). rewrite Ef, H. apply elem_of_app. left. right. by apply (ptr_in (sentinel t) (T cf lf xf rf)). }
  exists pn, t1. split; [by apply load_some|]. split; [exact E1|].
  assert (cells t1 !! addr xs = cells t !! addr xs) as Hx1 by (apply K1; set_solver).
  split; [unfold load; by rewrite Hx1|]. split; [done|]. split; [done|]. intros q.
  assert (loose t1 (f :: pa) b (addr xs)) as Hl.
  { constructor; rewrite ?Hs1.
    - exists (addr (fitem f)). split; [by rewrite Hs1 in Hc1|]. eapply rep_frame; [|exact Hb]. intros k Hk. apply K1. intros Hin. by apply (Hbd k).
    - constructor; [set_solver|]. apply NoDup_app. done.
    - exists m. rewrite K1; [done | set_solver]. }
  destruct (set_parent_loose t1 _ b _ q Hl) as (t2 & E2 & Hl2 & Hs2 & Hr2 & Hd2 & K2 & Hp2). rewrite Hs1 in *. exists t2. split; [done|]. split; [done|].
  split; [done|]. split; [by rewrite Hr2|]. split; [by rewrite Hd2|]. split; [|done]. rewrite K2; [done|]. set_solver.
Qed.

(** * A node takes the place of another *)

(** [subst] becomes a copy of [node], then the parent of [node] points to
    it. *)
Lemma replace_copy t node subst n s0 : t.(cells) !! node = Some n -> t.(cells) !! subst = Some s0 -> node <> subst ->
  exists t1, t1 = mk_rbtree (<[subst := mk_timer n.(color) n.(parent) n.(left) n.(right) s0.(value) s0.(data)]> t.(cells)) t.(root) t.(sentinel) /\
    replace_node node subst t =
      (let* t := relink L node subst t1 in
       let* s := load subst t in
       let* t := if s.(left) =? t.(sentinel) then Ret t else update s.(left) (set_parent subst) t in
       let* s := load subst t in
       if s.(right) =? t.(sentinel) then Ret t else update s.(right) (set_parent subst) t).
Proof.
  intros Hn Hs Hne. eexists. split; [reflexivity|]. unfold replace_node. rewrite (load_some _ _ _ Hn). cbn [obind]. rewrite (update_some _ _ _ _ Hs). cbn [obind].
  assert (forall m, load node (mk_rbtree (<[subst := m]> (cells t)) (root t) (sentinel t)) = Ret n) as Hl.
  { intros m. apply load_some. cbn. by rewrite lookup_insert_ne. }
  rewrite Hl. cbn [obind]. erewrite update_some by (cbn; by rewrite lookup_insert_eq). cbn [cells root sentinel obind]. rewrite insert_insert_eq, Hl. cbn [obind].
  erewrite update_some by (cbn; by rewrite lookup_insert_eq). cbn [cells root sentinel obind]. rewrite insert_insert_eq. unfold upsgi_rbt_copy_color. rewrite Hl. cbn [obind].
  erewrite update_some by (cbn; by rewrite lookup_insert_eq). cbn [cells root sentinel obind]. rewrite insert_insert_eq. reflexivity.
Qed.

Lemma replace_ok t pa c x l r q xs s0 :
  loose t (mk_frame R c x l :: pa) r q -> t.(cells) !! addr xs = Some s0 -> value s0 = ival xs -> data s0 = idat xs ->
  addr xs ∉ t.(sentinel) :: addrs r ++ paddrs (mk_frame R c x l :: pa) ->
  exists t', replace_node (addr x) (addr xs) t = Ret t' /\ zip t' pa (T c l xs r) /\ keeps t t'.
Proof.
  intros [(p0 & Hc & Hr) Hn (m & Hm & Hmc)] Hxs Hv Hd Hf. cbn [ctx fside fcol fitem fsib] in Hc. destruct Hc as (-> & p & Hx & Hl & Hc).
  change (paddrs (mk_frame R c x l :: pa)) with ((addr x :: addrs l) ++ paddrs pa) in *. set (s := sentinel t) in *.
  rewrite <- app_comm_cons in Hn, Hf. pose proof Hn as Hn0. apply NoDup_cons in Hn as [Hs Hn]. apply NoDup_app in Hn as (Hnr & Hrd & Hn). apply NoDup_cons in Hn as [Hxn Hn].
  apply NoDup_app in Hn as (Hnl & Hld & Hnp). assert (addr x <> addr xs) as Hne by set_solver.
  destruct (replace_copy t (addr x) (addr xs) _ s0 Hx Hxs Hne) as (t1 & Et1 & E). rewrite E. clear E. cbn [cell color parent left right] in Et1. rewrite Hv, Hd in Et1.
  assert (forall k, k <> addr xs -> cells t1 !! k = cells t !! k) as K1 by (intros k Hk; rewrite Et1; cbn; by rewrite lookup_insert_ne).
  assert (sentinel t1 = s) as Hs1 by by rewrite Et1. assert (root t1 = root t) as Hr1 by by rewrite Et1.
  assert (cells t1 !! addr xs = Some (cell L c p (ptr s l) (ptr s r) xs)) as Hxs1 by (rewrite Et1; cbn; by rewrite lookup_insert_eq).
  destruct (relink_ok L t1 pa (addr x) p (addr xs) (cell R c p (ptr s r) (ptr s l) x)) as (t2 & E2 & Hc2 & Hs2 & K2 & Hd2); rewrite ?Hs1, ?Hr1.
  { eapply ctx_frame; [|exact Hc]. intros k Hk. apply K1. set_solver. }
  { rewrite K1 by done. exact Hx. } { done. } { done. } { set_solver. } { set_solver. }
  rewrite E2. cbn [obind]. rewrite Hs1 in Hs2.
  assert (cells t2 !! addr xs = Some (cell L c p (ptr s l) (ptr s r) xs)) as Hxs2 by (rewrite K2; [done | set_solver]).
  rewrite (load_some _ _ _ Hxs2). cbn [obind cell left]. rewrite Hs2.
  assert (forall k, k <> addr xs -> k ∉ paddrs pa -> cells t2 !! k = cells t !! k) as K12 by (intros k H1 H2; rewrite K2, K1; done).
  destruct (adopt t2 l (addr x) (addr xs)) as (t3 & E3 & Hl3 & Hs3 & Hr3 & Hd3 & K3); rewrite ?Hs2.
  { eapply rep_frame; [|exact Hl]. intros k Hk. apply K12; [|intros Hk2; by apply (Hld k)]. set_solver. }
  { constructor; [set_solver | done]. }
  rewrite Hs2 in E3, Hl3. rewrite E3. cbn [obind]. rewrite Hs2 in Hs3.
  assert (cells t3 !! addr xs = Some (cell L c p (ptr s l) (ptr s r) xs)) as Hxs3 by (rewrite K3; [done | set_solver]).
  rewrite (load_some _ _ _ Hxs3). cbn [obind cell right]. rewrite Hs3.
  destruct (adopt t3 r q (addr xs)) as (t4 & E4 & Hr4 & Hs4 & Hrt4 & Hd4 & K4); rewrite ?Hs3.
  { eapply rep_frame; [|exact Hr]. intros k Hk. rewrite K3 by (intros Hk2; apply (Hrd k Hk); set_solver).
    apply K12; [intros ->; set_solver | intros Hk2; apply (Hrd k Hk); set_solver]. }
  { constructor; [set_solver | done]. }
  rewrite Hs3 in E4, Hr4. rewrite E4. exists t4. split; [done|]. rewrite Hs3 in Hs4.
  assert (forall k, k <> addr xs -> k ∉ paddrs pa -> k ∉ addrs l -> k ∉ addrs r -> cells t4 !! k = cells t !! k) as K by (intros k ????; rewrite K4, K3, K12; done).
  split; [constructor; rewrite Hs4|].
  - exists p. cbn [ptr rep]. split; [|split; [|split]].
    + rewrite Hrt4, Hr3. rewrite Hs2 in Hc2. eapply ctx_frame; [|exact Hc2]. intros k Hk. rewrite K4, K3; [done | |].
      * intros Hk2. by apply (Hld k).
      * intros Hk2. apply (Hrd k Hk2). set_solver.
    + rewrite K4 by set_solver. exact Hxs3.
    + eapply rep_frame; [|exact Hl3]. intros k Hk. apply K4. intros Hk2. apply (Hrd k Hk2). set_solver.
    + exact Hr4.
  - assert (addrs (T c l xs r) ≡ₚ addr xs :: addrs l ++ addrs r) as -> by apply (addrs_nd L). cbn [app].
    constructor; [set_solver|]. constructor; [set_solver|]. apply NoDup_app. split; [|split; [|done]].
    + apply NoDup_app. split; [done|]. split; [|done]. intros k Hk Hk2. apply (Hrd k Hk2). set_solver.
    + intros k [Hk|Hk]%elem_of_app Hk2; [by apply (Hld k)|]. apply (Hrd k Hk). set_solver.
  - exists m. rewrite K; [done | | | |]; set_solver.
  - constructor; [done | apply K; set_solver|]. rewrite Hd4, Hd3, Hd2, Et1. cbn. by eapply dom_store.
Qed.

(** * Deletion *)

Lemma addrs_plug_perm pa tr : addrs (plug pa tr) ≡ₚ addrs tr ++ paddrs pa.
Proof.
  revert tr. induction pa as [|[d c x b] pa IH]; intros tr; [by rewrite app_nil_r|].
  change (plug (mk_frame d c x b :: pa) tr) with (plug pa (nd d c tr x b)). rewrite IH, addrs_nd.
  change (paddrs (mk_frame d c x b :: pa)) with ((addr x :: addrs b) ++ paddrs pa). cbn [app]. rewrite <- app_assoc. apply Permutation_middle.
Qed.

Lemma paddrs_app p q : paddrs (p ++ q) = paddrs p ++ paddrs q.
Proof. apply bind_app. Qed.

(** What a deletion leaves: the timers [l] in a tree of the same memory. *)
Definition leaves (t : rbtree) (o : outcome rbtree) (l : list titem) : Prop :=
  exists t' tr N, o = Ret t' /\ zip t' [] tr /\ rbt tr N /\ col tr = false /\ items tr = l /\ sentinel t' = sentinel t /\ dom t'.(cells) = dom t.(cells).

Lemma leaves_from t t1 o l : sentinel t1 = sentinel t -> dom t1.(cells) = dom t.(cells) -> leaves t1 o l -> leaves t o l.
Proof. intros Hs Hd (t' & tr & N & ? & ? & ? & ? & ? & Hs' & Hd'). exists t', tr, N. by rewrite <- Hs, <- Hd. Qed.

(** The end of a deletion: a node of colour [c] and one leaf gave way to
    [b]. *)
Lemma finish_ok t pa d c x b m : zip t pa b -> rbt (nd d c E x b) m -> fits pa c m ->
  (forall n, t.(cells) !! ptr t.(sentinel) b = Some n -> up_ptr pa (parent n)) ->
  leaves t (if c then Ret t else del_fix (fuel_of t) (ptr t.(sentinel) b) t) (items (plug pa b)).
Proof.
  intros Hz Hr Hf Hp. destruct c.
  - apply rbt_nd_red in Hr as (_ & Hb & _ & Hc). destruct (plug_rbt pa b m) as (N & HN & HNc); [rewrite Hc; by eapply fits_black | done|].
    exists t, (plug pa b), N. apply zip_plug in Hz. done.
  - apply rbt_nd_black in Hr as (n & -> & _ & Hb). assert (lacking t pa b n) as Hk.
    { constructor; [done | | done | done]. destruct (col b) eqn:Hc; [by apply rbt_paint_red | by rewrite paint_col]. }
    destruct (del_fix_ok (fuel_of t) _ _ _ _ Hk) as (t' & tr' & N & E' & Hz' & Hs & Hd & Hi & HN & Hc).
    { pose proof (zip_fuel _ _ _ Hz). destruct (col b); lia. }
    exists t', tr', N. done.
Qed.

Lemma is_red_nd t pa d c a x b : zip t pa (nd d c a x b) -> upsgi_rbt_is_red (addr x) t = Ret c.
Proof. intros Hz. pose proof (is_red_ok _ _ _ Hz) as H. by rewrite ptr_nd, col_nd in H. Qed.

(** A node with a leaf. *)
Lemma del_single t pa d c x b m : zip t pa (nd d c E x b) -> rbt (nd d c E x b) m -> fits pa c m ->
  leaves t (upsgi_del_rb_timer (addr x) t) (items (plug pa b)).
Proof.
  intros Hz Hr Hf. unfold upsgi_del_rb_timer. destruct (zip_cell _ _ _ _ _ _ _ Hz) as (p & Hc & Hp). cbn [ptr] in Hc. rewrite (load_some _ _ _ Hc). cbn [obind].
  match goal with |- context [obind ?e _] => replace e with (Ret (ptr (sentinel t) b, addr x)) end.
  2: { destruct d; cbn; [by rewrite Z.eqb_refl|]. rewrite Z.eqb_refl. destruct (ptr (sentinel t) b =? sentinel t) eqn:E'; [|done]. apply Z.eqb_eq in E'. by rewrite E'. }
  cbn [obind]. pose proof (zip_root _ _ _ Hz) as Hroot. rewrite ptr_nd in Hroot. rewrite Hroot. destruct pa as [|f pa].
  - assert (zip (mk_rbtree (cells t) (ptr (sentinel t) b) (sentinel t)) [] b) as Hz1.
    { destruct Hz as [(q & _ & Hq) Hn Hb]. constructor; cbn; [| |done]; rewrite rep_nd in Hq.
      - exists (addr x). split; [done | apply Hq].
      - rewrite app_nil_r in *. rewrite addrs_nd in Hn. cbn in Hn. apply NoDup_cons in Hn as [Hn1 Hn]. apply NoDup_cons in Hn as [_ Hn]. constructor; [|done]. set_solver. }
    destruct (paint_zip _ _ _ false Hz1 ltac:(by right)) as (t' & E' & Hz' & _ & Hs & Hd & _). cbn in E', Hs, Hd.
    cbn in Hf. subst c. apply rbt_nd_black in Hr as (n & -> & _ & Hb).
    exists t', (paint false b), (if col b then S n else n). split; [exact E'|]. split; [done|].
    split; [destruct (col b) eqn:Hcb; [by apply rbt_paint_red | by rewrite paint_col]|]. split; [by destruct b|]. split; [apply items_paint | done].
  - rewrite (is_red_nd _ _ _ _ _ _ _ Hz). cbn [obind]. cbn [up_ptr] in Hp. rewrite (load_some _ _ _ Hc). cbn [obind]. rewrite parent_cell, Hp.
    destruct (unlink_ok _ _ _ _ _ _ _ Hz) as (pn & t1 & El & E1 & Hx1 & Hs1 & Hr1 & Hq). rewrite El. cbn [obind]. rewrite E1. cbn [obind]. rewrite Z.eqb_refl, Hx1, (load_some _ _ _ Hc). cbn [obind].
    rewrite parent_cell, Hp. destruct (Hq (addr (fitem f))) as (t2 & E2 & Hl2 & Hs2 & _ & Hd2 & _ & Hp2). rewrite E2. cbn [obind]. apply loose_zip in Hl2.
    rewrite <- Hs2. apply (leaves_from t t2 _ _ Hs2 Hd2). eapply finish_ok; [done | exact Hr | exact Hf|]. rewrite Hs2. done.
Qed.


Lemma loose_of_zip t pa tr : zip t pa tr -> exists p, up_ptr pa p /\ loose t pa tr p.
Proof. intros [(p & Hc & Hr) Hn Hb]. exists p. split; [by eapply ctx_up|]. split; [by exists p | done | done]. Qed.

(** The unlinked successor [xs] of [x] takes its place. *)
Lemma replace_down t pm pa c l x rs f P q xs n0 : pm ++ mk_frame R c x l :: pa = f :: P -> loose t (f :: P) rs q ->
  q = (if addr f.(fitem) =? addr x then addr xs else addr f.(fitem)) -> (forall n, t.(cells) !! ptr t.(sentinel) rs = Some n -> parent n = q) ->
  t.(cells) !! addr xs = Some n0 -> value n0 = ival xs -> data n0 = idat xs -> addr xs ∉ t.(sentinel) :: addrs rs ++ paddrs (f :: P) ->
  exists t', replace_node (addr x) (addr xs) t = Ret t' /\ zip t' (pm ++ mk_frame R c xs l :: pa) rs /\ keeps t t' /\
    (forall n, t'.(cells) !! ptr t'.(sentinel) rs = Some n -> up_ptr (pm ++ mk_frame R c xs l :: pa) (parent n)).
Proof.
  intros HP Hl Hq Hpar Hxs Hv Hd Hfr.
  assert (exists q', loose t (mk_frame R c x l :: pa) (plug pm rs) q') as [q' Hl'].
  { destruct pm as [|g pm]; cbn in HP; injection HP as <- <-; [by exists q|]. cbn [fitem] in *.
    assert (addr (fitem g) <> addr x) as Hne.
    { destruct Hl as [_ Hn _]. apply NoDup_cons in Hn as [_ Hn]. apply NoDup_app in Hn as (_ & _ & Hn). cbn [paddrs mbind list_bind] in Hn.
      change (paddrs (g :: pm ++ mk_frame R c x l :: pa)) with ((addr (fitem g) :: addrs (fsib g)) ++ paddrs (pm ++ mk_frame R c x l :: pa)) in Hn.
      rewrite paddrs_app in Hn. cbn [app] in Hn. apply NoDup_cons in Hn as [Hn _]. intros E'. apply Hn. rewrite E'. apply elem_of_app. right. apply elem_of_app. right. by left. }
    rewrite (proj2 (Z.eqb_neq _ _)) in Hq by done. rewrite Hq in Hl. apply loose_zip in Hl. change (g :: pm ++ ?k) with ((g :: pm) ++ k) in Hl. apply zip_subtree in Hl.
    destruct (loose_of_zip _ _ _ Hl) as (q' & _ & Hl'). by exists q'. }
  assert (addr xs ∉ sentinel t :: addrs (plug pm rs) ++ paddrs (mk_frame R c x l :: pa)) as Hfr'.
  { rewrite addrs_plug_perm, <- app_assoc, <- paddrs_app, HP. done. }
  destruct (replace_ok _ _ _ _ _ _ _ _ _ Hl' Hxs Hv Hd Hfr') as (t' & E' & Hz & K). exists t'. split; [done|].
  apply (zip_down t' R c (plug pm rs) xs l), zip_subtree in Hz. split; [done|]. split; [done|]. intros n Hn. destruct rs as [|cr lr xr rr].
  - cbn [ptr] in Hn, Hpar. rewrite (k_sentinel _ _ K), (k_cell _ _ K) in Hn. rewrite (Hpar n Hn), Hq. destruct pm as [|g pm]; cbn in HP; injection HP as <- <-; cbn [app up_ptr fitem].
    + by rewrite Z.eqb_refl.
    + destruct (Z.eqb_spec (addr (fitem g)) (addr x)) as [Ex|]; [|done]. exfalso. destruct Hl as [_ Hnd _]. apply NoDup_cons in Hnd as [_ Hnd].
      change (paddrs (g :: pm ++ mk_frame R c x l :: pa)) with ((addr (fitem g) :: addrs (fsib g)) ++ paddrs (pm ++ mk_frame R c x l :: pa)) in Hnd.
      rewrite paddrs_app in Hnd. cbn [app addrs items fmap list_fmap] in Hnd. apply NoDup_cons in Hnd as [Hnd _]. apply Hnd. rewrite Ex. apply elem_of_app. right. apply elem_of_app. right. by left.
  - destruct (zip_cell t' _ L cr lr xr rr Hz) as (p & Hp & Hup). cbn [ptr] in Hn. rewrite Hp in Hn. injection Hn as <-. exact Hup.
Qed.

Lemma items_successor pm pa c l xs cs rs : before pm = [] -> items (plug pm (T cs E xs rs)) = xs :: items rs ++ after pm /\
  items (plug (pm ++ mk_frame R c xs l :: pa) rs) = before pa ++ items l ++ items (plug pm (T cs E xs rs)) ++ after pa.
Proof.
  intros Hb. rewrite !plug_items, before_app, after_app, Hb. cbn [before after fside fitem fsib items app]. split; [done|]. rewrite app_nil_r, <- !app_assoc. done.
Qed.

(** A node with two subtrees: the next one takes its place. *)
Lemma del_double t pa c l x r m : zip t pa (T c l x r) -> rbt (T c l x r) m -> fits pa c m -> l <> E -> r <> E -> NULL ∉ addrs (T c l x r) ->
  leaves t (upsgi_del_rb_timer (addr x) t) (before pa ++ items l ++ items r ++ after pa).
Proof.
  intros Hz Hr Hf Hl Hrn Hnull. unfold upsgi_del_rb_timer. destruct (zip_cell t _ L c l x r Hz) as (p & Hc & _). rewrite (load_some _ _ _ Hc). cbn [obind cell left right].
  pose proof Hz as Hzl. apply (zip_down t L) in Hzl. pose proof Hz as Hzr. apply (zip_down t R c r x l) in Hzr.
  rewrite (proj2 (Z.eqb_neq (ptr (sentinel t) l) _)), (proj2 (Z.eqb_neq (ptr (sentinel t) r) _)) by (by eapply ptr_ne).
  destruct (min_loop_ok (fuel_of t) _ _ _ Hzr Hrn) as (pm & cs & xs & rs & Er & Hb & Emin); [by eapply height_fuel|].
  unfold upsgi_min_rb_timer. rewrite (proj2 (Z.eqb_neq (ptr (sentinel t) r) NULL)).
  2: { intros H. apply Hnull. rewrite <- H. unfold addrs. cbn [items]. rewrite fmap_app, fmap_cons. apply elem_of_app. right. right. by apply ptr_in. }
  assert (root t <> sentinel t) as Hroot.
  { apply zip_plug in Hz. rewrite (zip_root_ptr _ _ Hz). eapply ptr_ne; [exact Hz|]. by apply plug_nonE. }
  rewrite (proj2 (Z.eqb_neq (root t) _)), Emin by done. cbn [obind]. subst r. pose proof Hzr as Hzs. apply zip_subtree in Hzs.
  destruct (zip_cell t _ L cs E xs rs Hzs) as (ps & Hcs & Hps). rewrite (load_some _ _ _ Hcs). cbn [obind cell left right]. cbn [ptr]. rewrite Z.eqb_refl. cbn [negb].
  pose proof (zip_root _ _ _ Hzs) as Hrs. cbn [ptr] in Hrs. assert (exists f P, pm ++ mk_frame R c x l :: pa = f :: P) as (f & P & HP) by (destruct pm; cbn; eauto). rewrite HP in *. rewrite Hrs.
  rewrite (is_red_nd t _ L cs E xs rs Hzs). cbn [obind]. rewrite (load_some _ _ _ Hcs). cbn [obind cell parent]. cbn [up_ptr] in Hps. rewrite Hps.
  destruct (unlink_ok t f P L cs xs rs Hzs) as (pn & t1 & El & E1 & Hx1 & Hs1 & _ & Hun). rewrite El. cbn [obind]. rewrite E1. cbn [obind].
  assert (addr xs ∉ sentinel t :: addrs rs ++ paddrs (f :: P)) as Hfr.
  { destruct Hzs as [_ Hn _]. rewrite (addrs_nd L) in Hn. cbn [addrs items fmap list_fmap app] in Hn. apply NoDup_cons in Hn as [Hn1 Hn]. apply NoDup_cons in Hn as [Hn2 _].
    intros [H|H]%elem_of_cons; [apply Hn1; rewrite H; by left | by apply Hn2]. }
  assert (addr xs <> addr x) as Hxx.
  { intros H. apply Hfr. rewrite <- HP, paddrs_app, H. right. apply elem_of_app. right. apply elem_of_app. right. by left. }
  rewrite (proj2 (Z.eqb_neq _ _)), Hx1, (load_some _ _ _ Hcs) by done. cbn [obind cell parent]. rewrite Hps.
  destruct (Hun (if addr (fitem f) =? addr x then addr xs else addr (fitem f))) as (t2 & E2 & Hl2 & Hs2 & _ & Hd2 & Hx2 & Hp2). rewrite E2. cbn [obind]. rewrite <- Hs2 in Hp2, Hfr.
  rewrite Hcs in Hx2. destruct (replace_down t2 pm pa c l x rs f P _ xs _ HP Hl2 eq_refl Hp2 Hx2 eq_refl eq_refl Hfr) as (t3 & E3 & Hz3 & K3 & Hp3). rewrite E3. cbn [obind].
  assert (sentinel t3 = sentinel t) as Hs3 by (by rewrite (k_sentinel _ _ K3)). rewrite <- Hs3.
  apply (leaves_from t t3); [done | by rewrite (k_dom _ _ K3)|]. rewrite <- (proj2 (items_successor pm pa c l xs cs rs Hb)).
  destruct (fits_plug [mk_frame R c x l] pa _ m Hr Hf) as (k & Hk & Hfk).
  destruct (fits_plug pm (mk_frame R c xs l :: pa) _ k Hk Hfk) as (j & Hj & Hfj). eapply (finish_ok t3 _ L cs xs); [done | exact Hj | exact Hfj | done].
Qed.

Lemma leaves_queue t l l' o : queue t l -> sorted l' -> (forall k, k ∈ l' -> k ∈ l) -> leaves t o l' ->
  exists t', o = Ret t' /\ queue t' l' /\ sentinel t' = sentinel t /\ dom t'.(cells) = dom t.(cells).
Proof.
  intros [_ _ Hn] Hs Hin (t' & tr & N & E' & Hz & Hr & Hc & Hi & Hse & Hd). exists t'. split; [done|]. split; [|done]. constructor; [|done|].
  - by exists tr, N.
  - rewrite Hse. intros [H|(k & Hk & Hkl)%list_elem_of_fmap]%elem_of_cons; [set_solver|]. apply Hn. right. rewrite Hk. apply list_elem_of_fmap. eauto.
Qed.

(** The other timers stay in their order. *)
Lemma del_ok t l1 x l2 : queue t (l1 ++ x :: l2) ->
  exists t', upsgi_del_rb_timer (addr x) t = Ret t' /\ queue t' (l1 ++ l2) /\ sentinel t' = sentinel t /\ dom t'.(cells) = dom t.(cells).
Proof.
  intros Hq. apply (leaves_queue t _ _ _ Hq); [| set_solver |].
  { destruct Hq as [_ Hs _]. apply sorted_app in Hs as (Hs1 & Hs2 & Hs3). apply StronglySorted_inv in Hs2 as [Hs2 _]. apply sorted_app. split; [done|]. split; [done|].
    eapply Forall_impl; [exact Hs3|]. cbn. intros y Hy. by apply Forall_cons in Hy as [_ Hy]. }
  destruct Hq as [(tr & N & Hz & Hr & Hc & Hi) _ Hn]. destruct (locate tr _ _ _ Hi) as (pa & c & l & r & -> & -> & ->).
  destruct (unplug_rbt _ _ _ Hr Hc) as (m & Hm & Hf). apply zip_plug in Hz. rewrite <- app_assoc.
  destruct l as [|cl ll xl rl]; [|destruct r as [|cr lr xr rr]].
  - pose proof (del_single t pa L c x r m Hz Hm Hf) as H. rewrite plug_items in H. exact H.
  - pose proof (del_single t pa R c x (T cl ll xl rl) m Hz Hm Hf) as H. rewrite plug_items in H. exact H.
  - rewrite app_assoc, <- (app_assoc (before pa)). eapply del_double; [done | exact Hm | exact Hf | done | done |].
    intros H. apply Hn. right. rewrite <- Hi. apply addrs_plug. set_solver.
Qed.

(** The freed cell was no node. *)
Lemma free_ok t l a : queue t l -> a ∉ t.(sentinel) :: (addr <$> l) -> queue (free_cell a t) l.
Proof.
  intros [(tr & N & [(p & Hc & Hr) Hnd (n & Hm & Hmc)] & Hrb & Hcol & <-) Hs Hn] Ha. constructor; [|done|done]. exists tr, N. split; [|done]. change (free_cell a t) with (mk_rbtree (delete a t.(cells)) t.(root) t.(sentinel)).
  constructor; cbn [cells root sentinel]; [| done |].
  - exists p. split; [done|]. eapply rep_frame; [|exact Hr]. intros k Hk. rewrite (lookup_delete_ne (cells t)); [done|]. intros ->. set_solver.
  - exists n. rewrite (lookup_delete_ne (cells t)); [done|]. intros ->. set_solver.
Qed.
End RbTimersDelete.
