(* ===== verification/RbTimersTheorems.v ===== *)
(** What the tree of timers promises: a queue ordered by expiration. *)
From Stdlib Require Import Sorted.
From S2P Require Import Prelude RbTimers RbTimersProofs RbTimersBalance RbTimersInsert RbTimersDelfix RbTimersDelete.

Module RbTimersTheorems.
Import RbTimers RbTimersProofs RbTimersBalance RbTimersInsert RbTimersDelfix RbTimersDelete.

(** * Runs *)

(** What the users of the tree do with it. *)
Inductive command : Type :=
| Add (node v d : Z)
| Del (node : Z).

Definition exec (c : command) (t : rbtree) : outcome rbtree :=
  match c with
  | Add a v d => let* (_, t) := upsgi_add_rb_timer a v d t in Ret t
  | Del a => let* t := upsgi_del_rb_timer a t in Ret (free_cell a t)
  end.

Fixpoint exec_all (cs : list command) (t : rbtree) : outcome rbtree :=
  match cs with [] => Ret t | c :: cs => let* t := exec c t in exec_all cs t end.

(** The specification: a sequence kept in order, the earlier added first
    among equals. *)
Fixpoint enqueue (x : titem) (l : list titem) : list titem :=
  match l with
  | [] => [x]
  | y :: l' => if ival x <? ival y then x :: l else y :: enqueue x l'
  end.
Definition dequeue (a : Z) (l : list titem) : list titem := filter (fun y => addr y <> a) l.

Definition spec (c : command) (l : list titem) : list titem :=
  match c with Add a v d => enqueue (mk_item a v d) l | Del a => dequeue a l end.

(** A new cell is none of those in use; a deleted one is in the tree. *)
Definition valid (s : Z) (c : command) (l : list titem) : Prop :=
  match c with
  | Add a _ _ => a <> NULL /\ a <> s /\ a ∉ (addr <$> l)
  | Del a => a ∈ (addr <$> l)
  end.

Fixpoint valid_all (s : Z) (cs : list command) (l : list titem) : Prop :=
  match cs with [] => True | c :: cs => valid s c l /\ valid_all s cs (spec c l) end.

#[export] Instance valid_dec s c l : Decision (valid s c l).
Proof. destruct c; cbn; apply _. Defined.
#[export] Instance valid_all_dec s cs l : Decision (valid_all s cs l).
Proof. revert l. induction cs as [|c cs IH]; intros l; cbn; [apply _|]. apply and_dec; [apply _ | apply IH]. Defined.

Lemma enqueue_split x l1 l2 : Forall (fun y => ival y <= ival x) l1 -> Forall (fun y => ival x < ival y) l2 -> enqueue x (l1 ++ l2) = l1 ++ x :: l2.
Proof.
  intros H1 H2. induction l1 as [|y l1 IH]; cbn.
  - destruct l2 as [|y l2]; [done|]. cbn. apply Forall_cons in H2 as [H2 _]. by rewrite (proj2 (Z.ltb_lt _ _)).
  - apply Forall_cons in H1 as [Hy H1]. rewrite (proj2 (Z.ltb_ge _ _)) by done. by rewrite IH.
Qed.

Lemma queue_nodup t l : queue t l -> NoDup (t.(sentinel) :: (addr <$> l)).
Proof. intros [(tr & N & [_ Hn _] & _ & _ & <-) _ _]. cbn [paddrs mbind list_bind] in Hn. by rewrite app_nil_r in Hn. Qed.

Lemma dequeue_notin a l : a ∉ (addr <$> l) -> dequeue a l = l.
Proof.
  induction l as [|y l IH]; [done|]. rewrite fmap_cons. intros H. unfold dequeue in *. rewrite filter_cons_True by set_solver. f_equal. apply IH. set_solver.
Qed.

Lemma dequeue_split x l1 l2 : NoDup (addr <$> l1 ++ x :: l2) -> dequeue (addr x) (l1 ++ x :: l2) = l1 ++ l2.
Proof.
  rewrite fmap_app, fmap_cons. intros Hn. apply NoDup_app in Hn as (_ & Hd & Hn). apply NoDup_cons in Hn as [Hx _].
  pose proof (dequeue_notin _ _ Hx) as E2. assert (dequeue (addr x) l1 = l1) as E1 by (apply dequeue_notin; intros H; apply (Hd _ H); by left).
  unfold dequeue in *. rewrite filter_app, filter_cons_False by tauto. by rewrite E1, E2.
Qed.

(** The cells are the sentinel and the nodes. *)
Record owns (t : rbtree) (l : list titem) : Prop := {
  o_queue : queue t l;
  o_dom : dom t.(cells) = {[t.(sentinel)]} ∪ list_to_set (addr <$> l);
}.

Lemma exec_ok t l c : owns t l -> valid t.(sentinel) c l -> exists t', exec c t = Ret t' /\ owns t' (spec c l) /\ sentinel t' = sentinel t.
Proof.
  intros [Hq Hd] Hv. destruct c as [a v d|a]; cbn [exec spec valid] in *.
  - destruct Hv as (Hn & Hs & Ha). destruct (add_ok t l a v d Hq) as (t' & l1 & l2 & E' & -> & H1 & H2 & Hq' & Hs' & Hd'); [rewrite Hd; set_solver | done |].
    rewrite E'. cbn [obind]. exists t'. split; [done|]. split; [|done]. rewrite enqueue_split by done. constructor; [done|].
    rewrite Hd', Hd, Hs', !fmap_app, fmap_cons, !list_to_set_app_L, list_to_set_cons. cbn [addr]. set_solver.
  - apply list_elem_of_fmap in Hv as (x & -> & (l1 & l2 & ->)%list_elem_of_split). destruct (del_ok t l1 x l2 Hq) as (t' & E' & Hq' & Hs' & Hd').
    rewrite E'. cbn [obind]. exists (free_cell (addr x) t'). split; [done|]. split; [|done]. pose proof (queue_nodup _ _ Hq) as Hnd. apply NoDup_cons in Hnd as [Hsn Hnd].
    rewrite dequeue_split by done. rewrite fmap_app, fmap_cons in Hnd, Hsn. apply NoDup_app in Hnd as (_ & Hd1 & Hnd). apply NoDup_cons in Hnd as [Hx _].
    constructor.
    + apply free_ok; [done|]. rewrite Hs', fmap_app. intros [H|[H|H]%elem_of_app]%elem_of_cons; [set_solver | apply (Hd1 _ H); by left | done].
    + change (cells (free_cell (addr x) t')) with (delete (addr x) (cells t')). change (sentinel (free_cell (addr x) t')) with (sentinel t').
      rewrite dom_delete_L, Hd', Hd, Hs', !fmap_app, fmap_cons, !list_to_set_app_L, list_to_set_cons.
      assert (addr x ∉ addr <$> l1) by (intros H; apply (Hd1 _ H); by left). assert (addr x <> sentinel t) by set_solver. set_solver.
Qed.

Lemma init_owns s : s <> NULL -> owns (upsgi_init_rb_timer s) [].
Proof. intros Hs. constructor; [by apply init_ok|]. cbn. rewrite dom_singleton_L. set_solver. Qed.

Lemma exec_all_ok cs : forall t l, owns t l -> valid_all t.(sentinel) cs l ->
  exists t', exec_all cs t = Ret t' /\ owns t' (foldl (fun l c => spec c l) l cs) /\ sentinel t' = sentinel t.
Proof.
  induction cs as [|c cs IH]; intros t l Ho Hv; cbn; [by exists t|]. destruct Hv as [Hv Hvs]. destruct (exec_ok t l c Ho Hv) as (t1 & E1 & Ho1 & Hs1).
  rewrite E1. cbn [obind]. rewrite <- Hs1 in Hvs. destruct (IH _ _ Ho1 Hvs) as (t2 & E2 & Ho2 & Hs2). exists t2. split; [done|]. split; [done|]. by rewrite Hs2.
Qed.

(** * Theorems *)

(** C25: any run of insertions and deletions on the tree of timers, each of
    which rotates and paints cells through parent pointers and a shared
    sentinel, returns, and leaves a red-black tree whose nodes in order are
    the sequence that the specification keeps: a timer is behind those that
    expire no later; the tree's minimum is the head of the sequence, or
    [NULL]. *)
Theorem timers_refine s cs : s <> NULL -> valid_all s cs [] ->
  exists t, exec_all cs (upsgi_init_rb_timer s) = Ret t /\ queue t (foldl (fun l c => spec c l) [] cs) /\
    upsgi_min_rb_timer NULL t = Ret match foldl (fun l c => spec c l) [] cs with [] => NULL | x :: _ => addr x end.
Proof.
  intros Hs Hv. destruct (exec_all_ok cs _ _ (init_owns s Hs) Hv) as (t & Et & [Hq _] & _). exists t. split; [done|]. split; [done|]. by apply min_ok.
Qed.

Definition run_cs : list command := [Add 1 50 0; Add 2 30 0; Add 3 30 0; Add 4 70 0; Add 5 20 0; Del 2; Add 6 60 0; Del 1; Add 2 30 0].

Lemma timers_refine_witness :
  exists t, exec_all run_cs (upsgi_init_rb_timer 100) = Ret t /\ (foldl (fun l c => spec c l) [] run_cs) = [mk_item 5 20 0; mk_item 3 30 0; mk_item 2 30 0; mk_item 6 60 0; mk_item 4 70 0] /\
    upsgi_min_rb_timer NULL t = Ret 5.
Proof.
  destruct (timers_refine 100 run_cs) as (t & E1 & E2 & E3); [discriminate | apply (bool_decide_unpack _); vm_compute; exact I |].
  exists t. split; [exact E1|]. split; [reflexivity | exact E3].
Defined.

(** C28: with [n] timers no walk down the tree, for the minimum or for the
    place of a new timer, takes more than [2 * log2 (n + 1)] iterations. *)
Theorem timers_logarithmic t l : queue t l -> l <> [] ->
  (exists a, min_loop (2 * Nat.log2 (S (length l))) t.(root) t = Ret a) /\
  (forall v, exists p, add_loop (2 * Nat.log2 (S (length l))) v t.(root) t = Ret p).
Proof.
  intros [(tr & N & Hz & Hr & Hc & <-) Hs _] Hl. pose proof (rbt_logarithmic _ _ Hr Hc) as Hh. rewrite (zip_root_ptr _ _ Hz).
  assert (tr <> E) as Hne by (by intros ->). split.
  - destruct (min_loop_ok _ _ _ _ Hz Hne Hh) as (pm & c & x & r & _ & _ & El). eauto.
  - intros v. destruct (add_loop_ok v _ _ _ _ Hz Hne Hh Hs) as (d & c & x & b & pa & El & _); [by split|]. eauto.
Qed.

Lemma timers_logarithmic_witness : exists t, exec_all run_cs (upsgi_init_rb_timer 100) = Ret t /\ (exists a, min_loop 4 t.(root) t = Ret a).
Proof.
  destruct (timers_refine 100 run_cs) as (t & E1 & Hq & _); [discriminate | apply (bool_decide_unpack _); vm_compute; exact I |].
  exists t. split; [exact E1|]. apply (timers_logarithmic t _ Hq). discriminate.
Defined.
End RbTimersTheorems.
