(* ===== verification/Signals.v ===== *)
(** Signals (core/signal.c): the table of handlers that the master and the
    workers share, the routing of a signal to the pipes of the workers, and the
    red-black timers that raise signals (core/signal.c, core/master.c).

    A pipe is a parameter of the routing: a write of one byte may be refused
    when the queue of the pipe is full. *)
From S2P Require Import Prelude Clib RbTimers.

Module Signals.
Import RbTimers.

(** * State *)

(** [struct upsgi_signal_entry]; [handler] is 0 for [NULL]. *)
Record signal_entry : Type := mk_entry {
  wid : Z;
  modifier1 : Z;
  receiver : list Z;
  handler : Z;
}.
#[export] Instance expand_entry : Expand signal_entry := fun e => mk_entry (wid e) (modifier1 e) (receiver e) (handler e).

(** [struct upsgi_signal_rb_timer]; the node of the tree is a pointer. *)
Record signal_rb_timer : Type := mk_sig_timer {
  t_value : Z;
  registered : bool;
  iterations : Z;
  iterations_done : Z;
  t_sig : Z;
  node : Z;
}.
#[export] Instance expand_sig_timer : Expand signal_rb_timer := fun t =>
  mk_sig_timer (t_value t) (registered t) (iterations t) (iterations_done t) (t_sig t) (node t).

(** The fields of [struct upsgi_worker] that the signals read or write;
    [harakiri] has a deadline for each core. *)
Record worker : Type := mk_worker {
  pid : Z;
  cheaped : bool;
  suspended : bool;
  harakiri : list Z;
  w_sig : Z;
  w_signum : Z;
  w_signals : Z;
}.
#[export] Instance expand_worker : Expand worker := fun w =>
  mk_worker (pid w) (cheaped w) (suspended w) (harakiri w) (w_sig w) (w_signum w) (w_signals w).

Inductive pipe : Type :=
| Pool
| To (w : Z).
#[export] Instance pipe_eq_dec : EqDecision pipe.
Proof. solve_decision. Defined.

(** A process: what it has for itself and what it shares.  [sent] is every
    attempt to write to a pipe. *)
Record server : Type := mk_server {
  mywid : Z;
  mypid : Z;
  numproc : Z;
  master_process : bool;
  lazy_mode : bool;
  harakiri_workers : Z;
  workers : list worker;
  signal_table : list signal_entry;
  rb_timers : list signal_rb_timer;
  routed_signals : Z;
  unrouted_signals : Z;
  sent : list (pipe * Z);
  alarms : list Z;
}.
#[export] Instance expand_server : Expand server := fun s =>
  mk_server (mywid s) (mypid s) (numproc s) (master_process s) (lazy_mode s) (harakiri_workers s) (workers s) (signal_table s) (rb_timers s)
    (routed_signals s) (unrouted_signals s) (sent s) (alarms s).

Definition MAX_TIMERS : Z := 64.

(** An element of an array. *)
Definition get {A} (i : Z) (l : list A) : outcome A :=
  if 0 <=? i then match l !! Z.to_nat i with Some x => Ret x | None => Fault end else Fault.
Definition put_at {A} (i : Z) (x : A) (l : list A) : outcome (list A) :=
  let* _ := get i l in Ret (<[Z.to_nat i := x]> l).

Definition with_worker (i : Z) (f : worker -> worker) (s : server) : outcome server :=
  let* w := get i s.(workers) in
  let* ws := put_at i (f w) s.(workers) in
  Ret (s<|workers := ws|>).

(** * Sending *)

Section pipes.
(** Whether the pipe takes the byte. *)
Variable write_ok : server -> pipe -> bool.

Definition upsgi_signal_send (p : pipe) (sig : Z) (s : server) : Z * server :=
  let ok := write_ok s p in
  let s := s<|sent := s.(sent) ++ [(p, sig)]|> in
  if ok then (0, s<|routed_signals := s.(routed_signals) + 1|>)
  else (-1, s<|unrouted_signals := s.(unrouted_signals) + 1|>).

(** [for (i = 1; i <= numproc; i++)] *)
Fixpoint to_workers (only_active : bool) (n : nat) (i : Z) (sig : Z) (s : server) : outcome server :=
  match n with
  | O => Ret s
  | S n =>
      let* w := get i s.(workers) in
      let s := if negb only_active || ((0 <? w.(pid)) && negb w.(cheaped) && negb w.(suspended))
               then snd (upsgi_signal_send (To i) sig s) else s in
      to_workers only_active n (i + 1) sig s
  end.

Definition upsgi_route_signal (sig : Z) (s : server) : outcome server :=
  let pos := s.(mywid) * 256 + sig in
  let* use := get pos s.(signal_table) in
  let r := use.(receiver) in
  if bytes_eqb r [] || bytes_eqb r (chars "worker") || bytes_eqb r (chars "worker0") then Ret (snd (upsgi_signal_send Pool sig s))
  else if bytes_eqb r (chars "workers") then to_workers false (Z.to_nat s.(numproc)) 1 sig s
  else if bytes_eqb r (chars "active-workers") then to_workers true (Z.to_nat s.(numproc)) 1 sig s
  else if bytes_eqb (ztake 6 r) (chars "worker") then
    let i := atoi (zdrop 6 r) in
    (* only a message when [numproc < i] *)
    let* _ := get i s.(workers) in
    Ret (snd (upsgi_signal_send (To i) sig s))
  else Ret s.

(** ** The workers' side *)

Variable now : Z.
(** The handlers of the plugins, by [modifier1]. *)
Variable signal_handler : Z -> option (Z -> Z -> server -> Z * server).

(** [set_harakiri] of core/utils.c for the core [id]. *)
Definition set_harakiri (id : Z) (sec : Z) (s : server) : outcome server :=
  let* w := get s.(mywid) s.(workers) in
  let* h := put_at id (if sec =? 0 then 0 else now + sec) w.(harakiri) in
  let* s := with_worker s.(mywid) (fun w => w<|harakiri := h|>) s in
  Ret (if negb s.(master_process) then s<|alarms := s.(alarms) ++ [sec]|> else s).

(** A worker does not run what another one registered. *)
Definition cow_refuses (use : signal_entry) (s : server) : bool :=
  if s.(master_process) then negb (use.(wid) =? 0) && negb (use.(wid) =? s.(mywid))
  else if s.(lazy_mode) then negb (use.(wid) =? s.(mywid))
  else negb (use.(wid) =? 1) && negb (use.(wid) =? s.(mywid)).

(** [req] is the core of the request, if there is one. *)
Definition upsgi_signal_handler (req : option Z) (sig : Z) (s : server) : outcome (Z * server) :=
  let pos := s.(mywid) * 256 + sig in
  let* use := get pos s.(signal_table) in
  if use.(handler) =? 0 then Ret (-1, s)
  else match signal_handler use.(modifier1) with
  | None => Ret (-1, s)
  | Some h =>
    if cow_refuses use s then Ret (-1, s)
    else
      let* s := match req with
        | Some id =>
            if 0 <? s.(mywid) then
              let* s := with_worker s.(mywid) (fun w => w<|w_sig := 1|><|w_signum := sig|><|w_signals := w.(w_signals) + 1|>) s in
              if 0 <? s.(harakiri_workers) then set_harakiri id s.(harakiri_workers) s else Ret s
            else Ret s
        | None => Ret s
        end in
      let '(ret, s) := h sig use.(handler) s in
      let* s := match req with
        | Some id =>
            if 0 <? s.(mywid) then
              let* s := with_worker s.(mywid) (fun w => w<|w_sig := 0|>) s in
              let* w := get s.(mywid) s.(workers) in
              let* d := get id w.(harakiri) in
              if 0 <? d then set_harakiri id 0 s else Ret s
            else Ret s
        | None => Ret s
        end in
      Ret (ret, s)
  end.

Definition upsgi_signal_registered (sig : Z) (s : server) : outcome Z :=
  let* use := get (s.(mywid) * 256 + sig) s.(signal_table) in
  Ret (if use.(handler) =? 0 then 0 else 1).

(** * Registration *)

(** The 256 entries of the master go to the worker [i]. *)
Definition copy_row (i : Z) (t : list signal_entry) : outcome (list signal_entry) :=
  if (0 <=? i) && (i * 256 + 256 <=? zlen t) then Ret (ztake (i * 256) t ++ ztake 256 t ++ zdrop (i * 256 + 256) t) else Fault.

Fixpoint copy_rows (n : nat) (i : Z) (t : list signal_entry) : outcome (list signal_entry) :=
  match n with
  | O => Ret t
  | S n => let* t := copy_row i t in copy_rows n (i + 1) t
  end.

Definition upsgi_register_signal (sig : Z) (rcv : list Z) (h m1 : Z) (s : server) : outcome (Z * server) :=
  if negb s.(master_process) then Ret (-1, s)
  else
    let* w0 := get 0 s.(workers) in
    if (s.(mywid) =? 0) && negb (w0.(pid) =? s.(mypid)) then Ret (-1, s)
    else if 63 <? zlen rcv then Ret (-1, s)
    else
      let pos := s.(mywid) * 256 + sig in
      let* use := get pos s.(signal_table) in
      if negb (use.(handler) =? 0) && (s.(mywid) =? 0) then Ret (-1, s)
      else
        let* t := put_at pos (mk_entry s.(mywid) m1 rcv h) s.(signal_table) in
        let* t := if s.(mywid) =? 0 then copy_rows (Z.to_nat s.(numproc)) 1 t else Ret t in
        Ret (0, s<|signal_table := t|>).

(** [rb_timers_cnt] is the length of the list. *)
Definition upsgi_signal_add_rb_timer (sig secs its : Z) (s : server) : Z * server :=
  if negb s.(master_process) then (-1, s)
  else if zlen s.(rb_timers) <? 64 then (0, s<|rb_timers := s.(rb_timers) ++ [mk_sig_timer secs false its 0 (u8 sig) NULL]|>)
  else (-1, s).
End pipes.

End Signals.
