(* ===== verification/SigTimers.v ===== *)
(** The red-black timers of the master (core/master.c): timers of the shared
    table enter the tree, and expired ones raise their signals. *)
From Stdlib Require Import Sorted.
From S2P Require Import Prelude Clib RbTimers RbTimersProofs RbTimersBalance RbTimersInsert RbTimersDelfix RbTimersDelete RbTimersTheorems Signals.

(** What [upsgi_malloc] promises to the users of the tree: a cell that is not
    in use; it ends the process instead of giving [NULL]. *)
Class Allocator (malloc : gmap Z RbTimers.rb_timer -> Z) : Prop := {
  malloc_fresh h : malloc h ∉ dom h;
  malloc_some h : malloc h <> RbTimers.NULL;
}.

Module SigTimers.
Import RbTimers Signals.

Record master : Type := mk_master {
  srv : server;
  tree : rbtree;
  ticks : nat;
}.
#[export] Instance expand_master : Expand master := fun m => mk_master (srv m) (tree m) (ticks m).

Section master.
Variable write_ok : server -> pipe -> bool.
(** The readings of the clock, in order. *)
Variable clock : nat -> Z.
Variable malloc : gmap Z rb_timer -> Z.

Definition upsgi_now (m : master) : Z * master := (clock m.(ticks), m<|ticks := S m.(ticks)|>).

Definition with_timer (i : Z) (f : signal_rb_timer -> signal_rb_timer) (m : master) : outcome master :=
  let* u := get i m.(srv).(rb_timers) in
  let* l := put_at i (f u) m.(srv).(rb_timers) in
  Ret (m<|srv := m.(srv)<|rb_timers := l|>|>).

(** [data] is the address of the entry of the table: its index. *)
Definition schedule (i : Z) (m : master) : outcome master :=
  let* u := get i m.(srv).(rb_timers) in
  let '(now, m) := upsgi_now m in
  let* (nd, t) := upsgi_add_rb_timer (malloc m.(tree).(cells)) (u64 (now + u.(t_value))) i m.(tree) in
  with_timer i (fun u => u<|node := nd|>) (m<|tree := t|>).

(** "add unregistered rb_timers" *)
Fixpoint register_timers (n : nat) (i : Z) (m : master) : outcome master :=
  match n with
  | O => Ret m
  | S n =>
      let* u := get i m.(srv).(rb_timers) in
      let* m := if negb u.(registered) then let* m := schedule i m in with_timer i (fun u => u<|registered := true|>) m else Ret m in
      register_timers n (i + 1) m
  end.

(** One expired timer. *)
Definition expire_one (urbt : Z) (n : rb_timer) (m : master) : outcome master :=
  let usrbt := n.(data) in
  let* t := upsgi_del_rb_timer urbt m.(tree) in
  let m := m<|tree := free_cell urbt t|> in
  let* m := with_timer usrbt (fun u => u<|iterations_done := i32 (u.(iterations_done) + 1)|>) m in
  let* u := get usrbt m.(srv).(rb_timers) in
  let* s := upsgi_route_signal write_ok u.(t_sig) m.(srv) in
  let m := m<|srv := s|> in
  let* u := get usrbt m.(srv).(rb_timers) in
  if (u.(iterations) =? 0) || (u.(iterations_done) <? u.(iterations)) then schedule usrbt m else Ret m.

Fixpoint expire_loop (fuel : nat) (current : Z) (m : master) : outcome master :=
  match fuel with
  | O => NoFuel
  | S fuel =>
      let* urbt := upsgi_min_rb_timer NULL m.(tree) in
      if urbt =? NULL then Ret m
      else
        let* n := load urbt m.(tree) in
        if n.(value) <=? current then let* m := expire_one urbt n m in expire_loop fuel current m
        else Ret m
  end.

Definition expire_rb_timeouts (fuel : nat) (m : master) : outcome master :=
  let '(current, m) := upsgi_now m in
  expire_loop fuel (u64 current) m.

(** The part of the master's loop before the wait: the seconds to wait. *)
Definition timers_before_wait (fuel : nat) (check_interval : Z) (m : master) : outcome (Z * master) :=
  if 0 <? zlen m.(srv).(rb_timers) then
    let* min_timeout := upsgi_min_rb_timer NULL m.(tree) in
    if min_timeout =? NULL then Ret (check_interval, m)
    else
      let* n := load min_timeout m.(tree) in
      let '(now, m) := upsgi_now m in
      let delta := i32 (n.(value) - now) in
      if delta <=? 0 then let* m := expire_rb_timeouts fuel m in Ret (check_interval, m)
      else if delta <? check_interval then Ret (delta, m) else Ret (check_interval, m)
  else Ret (check_interval, m).

(** And after it: [rlen] is the number of events. *)
Definition timers_after_wait (fuel : nat) (rlen : Z) (m : master) : outcome master :=
  if (rlen =? 0) && (0 <? zlen m.(srv).(rb_timers)) then expire_rb_timeouts fuel m else Ret m.
End master.
End SigTimers.

(** * What the signals do *)

Module SignalsProofs.
Import Signals.

Section pipes.
Variable write_ok : server -> pipe -> bool.

(** The pipes that a signal goes to. *)
Definition active (only : bool) (w : worker) : bool := negb only || ((0 <? w.(pid)) && negb w.(cheaped) && negb w.(suspended)).

Fixpoint worker_targets (only : bool) (ws : list worker) (i : Z) : list pipe :=
  match ws with [] => [] | w :: ws => (if active only w then [To i] else []) ++ worker_targets only ws (i + 1) end.

Definition targets (sig : Z) (s : server) : list pipe :=
  match get (s.(mywid) * 256 + sig) s.(signal_table) with
  | Ret use =>
      let r := use.(receiver) in
      if bytes_eqb r [] || bytes_eqb r (chars "worker") || bytes_eqb r (chars "worker0") then [Pool]
      else if bytes_eqb r (chars "workers") then worker_targets false (ztake s.(numproc) (zdrop 1 s.(workers))) 1
      else if bytes_eqb r (chars "active-workers") then worker_targets true (ztake s.(numproc) (zdrop 1 s.(workers))) 1
      else if bytes_eqb (ztake 6 r) (chars "worker") then [To (atoi (zdrop 6 r))]
      else []
  | _ => []
  end.

(** The table has a row for the process and every worker a record, and a
    receiver names a worker that exists. *)
Definition routable (sig : Z) (s : server) : Prop :=
  zlen s.(workers) = s.(numproc) + 1 /\ 0 <= s.(numproc) /\
  exists use, get (s.(mywid) * 256 + sig) s.(signal_table) = Ret use /\
    (ztake 6 use.(receiver) = chars "worker" -> 0 <= atoi (zdrop 6 use.(receiver)) <= s.(numproc)).

(** What a signal does not change. *)
Definition quiet (s s' : server) : Prop := s' = s<|routed_signals := s'.(routed_signals)|><|unrouted_signals := s'.(unrouted_signals)|><|sent := s'.(sent)|>.

Definition send_all (ps : list pipe) (sig : Z) (s : server) : server := foldl (fun s p => snd (upsgi_signal_send write_ok p sig s)) s ps.

Lemma send_spec p sig s : let s' := snd (upsgi_signal_send write_ok p sig s) in
  quiet s s' /\ s'.(sent) = s.(sent) ++ [(p, sig)] /\ s'.(routed_signals) + s'.(unrouted_signals) = s.(routed_signals) + s.(unrouted_signals) + 1.
Proof. unfold upsgi_signal_send. destruct (write_ok s p); cbn; (split; [reflexivity|split; [reflexivity|lia]]). Qed.

Lemma quiet_trans a b c : quiet a b -> quiet b c -> quiet a c.
Proof. unfold quiet. intros -> ->. reflexivity. Qed.

Lemma send_all_spec ps sig : forall s, let s' := send_all ps sig s in
  quiet s s' /\ s'.(sent) = s.(sent) ++ ((fun p => (p, sig)) <$> ps) /\ s'.(routed_signals) + s'.(unrouted_signals) = s.(routed_signals) + s.(unrouted_signals) + zlen ps.
Proof.
  induction ps as [|p ps IH]; intros s.
  - cbn. split; [by destruct s|]. rewrite app_nil_r, zlen_nil. split; [done | lia].
  - change (send_all (p :: ps) sig s) with (send_all ps sig (snd (upsgi_signal_send write_ok p sig s))). cbv zeta.
    destruct (send_spec p sig s) as (Q & S & N). destruct (IH (snd (upsgi_signal_send write_ok p sig s))) as (Q2 & S2 & N2).
    split; [by eapply quiet_trans|]. split; [by rewrite S2, S, <- app_assoc|]. rewrite zlen_cons. lia.
Qed.

Lemma get_lookup {A} i (l : list A) x : get i l = Ret x <-> 0 <= i /\ l !! Z.to_nat i = Some x.
Proof. unfold get. destruct (Z.leb_spec 0 i); [|split; [done | lia]]. destruct (l !! Z.to_nat i); (split; [by intros [= ->] | by intros [_ [= ->]]]). Qed.

Lemma to_workers_spec only ws : forall i sig s, 0 <= i -> ztake (zlen ws) (zdrop i s.(workers)) = ws ->
  to_workers write_ok only (length ws) i sig s = Ret (send_all (worker_targets only ws i) sig s).
Proof.
  induction ws as [|w ws IH]; intros i sig s Hi Hw; cbn; [done|]. rewrite zlen_cons in Hw.
  assert (get i s.(workers) = Ret w /\ ztake (zlen ws) (zdrop (i + 1) s.(workers)) = ws) as [Hg Hr].
  { unfold ztake, zdrop, zlen in *. replace (Z.to_nat (1 + Z.of_nat (length ws))) with (S (length ws)) in Hw by lia. rewrite Nat2Z.id.
    destruct (drop (Z.to_nat i) s.(workers)) as [|w' k] eqn:Ed; [done|]. cbn in Hw. injection Hw as -> Hw. split.
    - apply get_lookup. split; [done|]. rewrite <- (Nat.add_0_r (Z.to_nat i)), <- lookup_drop, Ed. done.
    - replace (Z.to_nat (i + 1)) with (Z.to_nat i + 1)%nat by lia. rewrite <- drop_drop, Ed. done. }
  rewrite Hg. cbn [obind]. unfold active. set (b := negb only || _). unfold send_all. rewrite foldl_app.
  assert (workers (if b then snd (upsgi_signal_send write_ok (To i) sig s) else s) = workers s) as Hws.
  { destruct b; [|done]. pose proof (proj1 (send_spec (To i) sig s)) as Q. cbn zeta in Q. by rewrite Q. }
  rewrite IH; [by destruct b | lia | by rewrite Hws].
Qed.

Lemma route_ok sig s : routable sig s -> upsgi_route_signal write_ok sig s = Ret (send_all (targets sig s) sig s).
Proof.
  intros (Hw & Hn & use & Hu & Hat). unfold upsgi_route_signal, targets. rewrite Hu. cbn [obind].
  destruct (bytes_eqb (receiver use) [] || bytes_eqb (receiver use) (chars "worker") || bytes_eqb (receiver use) (chars "worker0")); [done|].
  assert (forall only, to_workers write_ok only (Z.to_nat (numproc s)) 1 sig s = Ret (send_all (worker_targets only (ztake (numproc s) (zdrop 1 (workers s))) 1) sig s)) as Hto.
  { intros only. assert (zlen (ztake (numproc s) (zdrop 1 (workers s))) = numproc s) as Hl by (rewrite zlen_take; rewrite ?zlen_drop; lia).
    rewrite <- (to_workers_spec only (ztake (numproc s) (zdrop 1 (workers s))) 1 sig s); [| lia | by rewrite Hl].
    f_equal. rewrite <- Hl at 1. unfold zlen. lia. }
  destruct (bytes_eqb (receiver use) (chars "workers")); [apply Hto|]. destruct (bytes_eqb (receiver use) (chars "active-workers")); [apply Hto|].
  destruct (bytes_eqb (ztake 6 (receiver use)) (chars "worker")) eqn:Ep; [|done]. apply bool_decide_eq_true in Ep. specialize (Hat Ep).
  unfold get. rewrite (proj2 (Z.leb_le _ _)) by lia. destruct (workers s !! Z.to_nat (atoi (zdrop 6 (receiver use)))) eqn:El; [done|].
  apply lookup_ge_None in El. unfold zlen in Hw. lia.
Qed.

Lemma targets_quiet sig s s' : quiet s s' -> targets sig s' = targets sig s.
Proof. unfold quiet. intros ->. reflexivity. Qed.
Lemma routable_quiet sig s s' : quiet s s' -> routable sig s -> routable sig s'.
Proof. unfold quiet. intros ->. done. Qed.
End pipes.
End SignalsProofs.
