(* ===== verification/SigTimersProofs.v ===== *)
(** The timers of the master: those that are due fire once, in order. *)
From Stdlib Require Import Sorted.
From S2P Require Import Prelude Clib RbTimers RbTimersProofs RbTimersBalance RbTimersInsert RbTimersDelfix RbTimersDelete RbTimersTheorems Signals SigTimers.

Module SigTimersProofs.
Import RbTimers RbTimersProofs RbTimersBalance RbTimersInsert RbTimersDelfix RbTimersDelete RbTimersTheorems Signals SigTimers SignalsProofs.

(** * Arrays *)

Lemma put_at_ok {A} i (x y : A) l : get i l = Ret x -> put_at i y l = Ret (<[Z.to_nat i := y]> l).
Proof. intros H. unfold put_at. by rewrite H. Qed.

Lemma get_put_at {A} i j (x y z : A) l : get i l = Ret x -> get j l = Ret z -> get j (<[Z.to_nat i := y]> l) = Ret (if decide (i = j) then y else z).
Proof.
  rewrite !get_lookup. intros [Hi Hx] [Hj Hz]. split; [done|]. destruct (decide (i = j)) as [->|Hne].
  - apply list_lookup_insert_eq. by eapply lookup_lt_Some.
  - rewrite list_lookup_insert_ne; [done | lia].
Qed.

(** * The queue *)

Lemma queue_cell t l x : queue t l -> x ∈ l -> addr x <> NULL /\ exists n, load (addr x) t = Ret n /\ value n = ival x /\ data n = idat x.
Proof.
  intros [(tr & N & Hz & _ & _ & <-) _ Hn] (l1 & l2 & Hl)%list_elem_of_split. destruct (locate tr _ _ _ Hl) as (pa & c & a & b & -> & _ & _).
  split. { intros E'. apply Hn. rewrite <- E', Hl, fmap_app, fmap_cons. right. apply elem_of_app. right. by left. }
  apply zip_plug in Hz. destruct (zip_cell t pa L c a x b Hz) as (p & Hc & _). eexists. split; [by apply load_some|]. done.
Qed.

(** A new timer that is not due goes behind all that are. *)
Lemma split_due (cur v : Z) l1 l2 k1 k2 : l1 ++ l2 = k1 ++ k2 -> Forall (fun x => ival x <= cur) l1 -> Forall (fun x => v < ival x) k2 -> cur < v ->
  exists k, k1 = l1 ++ k /\ l2 = k ++ k2.
Proof.
  intros E' H1 H2 Hv. apply app_eq_inv in E' as [(k & -> & Hk)|(k & -> & Hk)]; [|by exists k].
  destruct k as [|y k]; [exists []; by rewrite !app_nil_r|]. exfalso. apply Forall_app in H1 as [_ H1]. apply Forall_cons in H1 as [H1 _].
  rewrite Hk in H2. cbn in H2. apply Forall_cons in H2 as [H2 _]. lia.
Qed.

Section master.
Variable write_ok : server -> pipe -> bool.
Variable clock : nat -> Z.
Variable malloc : gmap Z rb_timer -> Z.
Context `{Allocator malloc}.

(** The fields of the entry [i] that stay. *)
Definition same_timer (u u' : signal_rb_timer) : Prop :=
  t_value u' = t_value u /\ iterations u' = iterations u /\ t_sig u' = t_sig u /\ registered u' = registered u.

(** The entry goes on after an expiration. *)
Definition again (u : signal_rb_timer) : bool := (u.(iterations) =? 0) || (u.(iterations_done) + 1 <? u.(iterations)).

(** Where the expiration of [x] is sent. *)
Definition deliveries (s : server) (x : titem) : list (pipe * Z) :=
  match get (idat x) s.(rb_timers) with Ret u => (fun p => (p, u.(t_sig))) <$> targets u.(t_sig) s | _ => [] end.

(** An entry of the table that can be served, with a period of at least
    [least] seconds. *)
Definition servable (least : Z) (s : server) (x : titem) : Prop :=
  exists u, get (idat x) s.(rb_timers) = Ret u /\ least <= u.(t_value) < 2 ^ 31 /\ 0 <= u.(iterations_done) < 2 ^ 31 - 1 /\ routable u.(t_sig) s.

Lemma with_timer_ok i f m u : get i m.(srv).(rb_timers) = Ret u ->
  with_timer i f m = Ret (mk_master (m.(srv)<|rb_timers := <[Z.to_nat i := f u]> m.(srv).(rb_timers)|>) m.(tree) m.(ticks)).
Proof. intros Hu. unfold with_timer. rewrite Hu. cbn [obind]. by rewrite (put_at_ok i u). Qed.

Lemma schedule_eq i m : schedule clock malloc i m =
  let* u := get i m.(srv).(rb_timers) in
  let* (nd, t) := upsgi_add_rb_timer (malloc m.(tree).(cells)) (u64 (clock m.(ticks) + u.(t_value))) i m.(tree) in
  with_timer i (fun u => u<|node := nd|>) (mk_master m.(srv) t (S m.(ticks))).
Proof. reflexivity. Qed.

Lemma schedule_ok i m u l v : get i m.(srv).(rb_timers) = Ret u -> queue m.(tree) l -> v = u64 (clock m.(ticks) + u.(t_value)) ->
  exists m' a l1 l2, schedule clock malloc i m = Ret m' /\ l = l1 ++ l2 /\ Forall (fun y => ival y <= v) l1 /\ Forall (fun y => v < ival y) l2 /\
    queue m'.(tree) (l1 ++ mk_item a v i :: l2) /\ ticks m' = S (ticks m) /\ srv m' = m.(srv)<|rb_timers := <[Z.to_nat i := u<|node := a|>]> m.(srv).(rb_timers)|>.
Proof.
  intros Hu Hq ->. set (v := u64 _). rewrite schedule_eq, Hu. cbn [obind]. fold v.
  destruct (add_ok _ _ (malloc (cells (tree m))) v i Hq) as (t' & l1 & l2 & E' & Hl & H1 & H2 & Hq' & _); [apply malloc_fresh | apply malloc_some|].
  rewrite E'. cbn [obind]. rewrite (with_timer_ok i _ (mk_master (srv m) t' (S (ticks m))) u Hu). eexists _, _, l1, l2. split; [reflexivity|]. done.
Qed.

(** One expired timer: it leaves the tree, is counted and routed, and comes
    back unless it was the last time. *)
Lemma expire_one_ok least m x l n : queue m.(tree) (x :: l) -> load (addr x) m.(tree) = Ret n -> data n = idat x -> servable least m.(srv) x ->
  exists m', expire_one write_ok clock malloc (addr x) n m = Ret m' /\
    (exists u u', get (idat x) m.(srv).(rb_timers) = Ret u /\ same_timer u u' /\ iterations_done u' = iterations_done u + 1 /\
      rb_timers m'.(srv) = <[Z.to_nat (idat x) := u']> m.(srv).(rb_timers) /\
      (if again u then exists a l1 l2, let v := u64 (clock m.(ticks) + u.(t_value)) in
         l = l1 ++ l2 /\ Forall (fun y => ival y <= v) l1 /\ Forall (fun y => v < ival y) l2 /\ queue m'.(tree) (l1 ++ mk_item a v (idat x) :: l2) /\ ticks m' = S (ticks m)
       else queue m'.(tree) l /\ ticks m' = ticks m)) /\
    quiet (m.(srv)<|rb_timers := rb_timers m'.(srv)|>) (srv m') /\ sent (srv m') = sent (srv m) ++ deliveries (srv m) x.
Proof.
  intros Hq Hn Hd (u & Hu & Hv & Hi & Hr). unfold expire_one. rewrite Hd. destruct (del_ok m.(tree) [] x l Hq) as (t1 & E1 & Hq1 & Hs1 & _).
  rewrite E1. cbn [obind]. cbn [app] in Hq1.
  assert (queue (free_cell (addr x) t1) l) as Hq2.
  { apply free_ok; [done|]. rewrite Hs1. pose proof (queue_nodup _ _ Hq) as Hnd. apply NoDup_cons in Hnd as [H1 Hnd]. apply NoDup_cons in Hnd as [H2 _]. rewrite fmap_cons in H1. set_solver. }
  change (m<|tree := free_cell (addr x) t1|>) with (mk_master m.(srv) (free_cell (addr x) t1) m.(ticks)).
  set (u1 := u<|iterations_done := i32 (iterations_done u + 1)|>).
  rewrite (with_timer_ok _ _ (mk_master m.(srv) (free_cell (addr x) t1) m.(ticks)) u Hu). cbn [obind srv tree ticks]. fold u1.
  set (s1 := (srv m)<|rb_timers := _|>). assert (get (idat x) (rb_timers s1) = Ret u1) as Hu1.
  { change (rb_timers s1) with (<[Z.to_nat (idat x) := u1]> (rb_timers (srv m))). rewrite (get_put_at _ _ _ _ _ _ Hu Hu). by rewrite decide_True. }
  rewrite Hu1. cbn [obind]. change (t_sig u1) with (t_sig u). rewrite (route_ok write_ok (t_sig u) s1) by exact Hr. cbn [obind].
  destruct (send_all_spec write_ok (targets (t_sig u) s1) (t_sig u) s1) as (Q & S & _). cbn zeta in Q, S. set (s2 := send_all _ _ _ _) in *.
  change (_<|srv := s2|>) with (mk_master s2 (free_cell (addr x) t1) (ticks m)). cbn [srv].
  assert (rb_timers s2 = rb_timers s1) as Ht by (by rewrite Q). rewrite Ht, Hu1. cbn [obind].
  assert (iterations_done u1 = iterations_done u + 1) as Hdone.
  { change (iterations_done u1) with (i32 (iterations_done u + 1)). unfold i32, signed. rewrite wrap_small by lia. destruct (Z.ltb_spec (iterations_done u + 1) (2 ^ (32 - 1))); lia. }
  assert (deliveries (srv m) x = (fun p => (p, t_sig u)) <$> targets (t_sig u) s1) as Hdel by (unfold deliveries; by rewrite Hu).
  change (iterations u1) with (iterations u). rewrite Hdone. change ((iterations u =? 0) || (iterations_done u + 1 <? iterations u)) with (again u). destruct (again u) eqn:Ha.
  - destruct (schedule_ok (idat x) (mk_master s2 (free_cell (addr x) t1) (ticks m)) u1 l (u64 (clock (ticks m) + t_value u))) as (m' & a & l1 & l2 & E2 & Hl & H1 & H2 & Hq3 & Htk & Hsrv); [by cbn; rewrite Ht | exact Hq2 | done|].
    cbn [srv ticks] in *. change (t_value u1) with (t_value u) in *. exists m'. split; [exact E2|]. split; [exists u, (u1<|node := a|>)|].
    + split; [done|]. split; [done|]. split; [exact Hdone|]. split; [|rewrite Ha; exists a, l1, l2; done].
      rewrite Hsrv. change (<[Z.to_nat (idat x) := u1<|node := a|>]> (rb_timers s2) = <[Z.to_nat (idat x) := u1<|node := a|>]> (rb_timers (srv m))). rewrite Ht.
      change (rb_timers s1) with (<[Z.to_nat (idat x) := u1]> (rb_timers (srv m))). apply list_insert_insert_eq.
    + rewrite Hsrv. split; [|rewrite Hdel; exact S]. rewrite Q. reflexivity.
  - exists (mk_master s2 (free_cell (addr x) t1) (ticks m)). cbn [srv tree ticks]. split; [done|]. split; [exists u, u1|].
    + split; [done|]. split; [done|]. split; [exact Hdone|]. split; [by rewrite Ht | by rewrite Ha].
    + split; [|rewrite Hdel; exact S]. rewrite Q. reflexivity.
Qed.

(** * The loop *)

(** The server after the expiration of the entries [ds]. *)
Record fired (ds : list Z) (s s' : server) : Prop := {
  f_quiet : quiet (s<|rb_timers := rb_timers s'|>) s';
  f_timers : forall i u, get i s.(rb_timers) = Ret u -> exists u', get i s'.(rb_timers) = Ret u' /\ same_timer u u' /\
    iterations_done u' = iterations_done u + if decide (i ∈ ds) then 1 else 0;
}.

Definition goes_on (s : server) (x : titem) : bool := match get (idat x) s.(rb_timers) with Ret u => again u | _ => false end.

Lemma fired_nil s : fired [] s s.
Proof. split; [by destruct s|]. intros i u Hu. exists u. split; [done|]. split; [done|]. rewrite decide_False by set_solver. lia. Qed.

Lemma fired_cons x ds s s1 s2 u u1 : get x s.(rb_timers) = Ret u -> same_timer u u1 -> iterations_done u1 = iterations_done u + 1 ->
  rb_timers s1 = <[Z.to_nat x := u1]> s.(rb_timers) -> quiet (s<|rb_timers := rb_timers s1|>) s1 -> fired ds s1 s2 -> x ∉ ds -> fired (x :: ds) s s2.
Proof.
  intros Hu Hs Hd Ht Q [Q2 H2] Hx. split.
  - clear H2. unfold quiet in *. rewrite Q in Q2. rewrite Q2. reflexivity.
  - intros i v Hv. assert (get i (rb_timers s1) = Ret (if decide (x = i) then u1 else v)) as H1 by (rewrite Ht; by apply (get_put_at _ _ u)).
    destruct (H2 _ _ H1) as (v' & Hv' & Hs' & Hd'). exists v'. split; [done|]. rewrite Hd'. destruct (decide (x = i)) as [<-|Hne].
    + rewrite Hu in Hv. injection Hv as <-. rewrite (decide_False (P := x ∈ ds)), decide_True by (done || by left). unfold same_timer in *. split; [intuition congruence | lia].
    + split; [done|]. f_equal. destruct (decide (i ∈ ds)); [rewrite decide_True by (by right); done | rewrite decide_False by set_solver; done].
Qed.

(** The entries of the others are as they were. *)
Lemma others_same x y s s1 u u1 : get x s.(rb_timers) = Ret u -> rb_timers s1 = <[Z.to_nat x := u1]> s.(rb_timers) -> quiet (s<|rb_timers := rb_timers s1|>) s1 ->
  x <> idat y -> servable 1 s y -> servable 1 s1 y /\ deliveries s1 y = deliveries s y /\ goes_on s1 y = goes_on s y.
Proof.
  intros Hu Ht Q Hne (v & Hv & H1 & H2 & H3). assert (get (idat y) (rb_timers s1) = Ret v) as Hv1 by (rewrite Ht, (get_put_at _ _ _ _ _ _ Hu Hv); by rewrite decide_False).
  unfold deliveries, goes_on. rewrite Hv, Hv1. split; [|split; [|done]].
  - exists v. split; [done|]. split; [done|]. split; [done|]. eapply (routable_quiet _ (s<|rb_timers := rb_timers s1|>)); [exact Q | exact H3].
  - by rewrite (targets_quiet _ _ _ Q).
Qed.

Lemma filter_goes_on s s1 (l : list titem) : (forall y, y ∈ l -> goes_on s1 y = goes_on s y) -> filter (fun y => goes_on s1 y = true) l = filter (fun y => goes_on s y = true) l.
Proof.
  induction l as [|y l IH]; intros Hl; [done|]. rewrite !filter_cons. rewrite IH by (intros; apply Hl; by right). by rewrite (Hl y) by (by left).
Qed.

Lemma u64_small x : 0 <= x < 2 ^ 64 -> u64 x = x.
Proof. apply wrap_small. Qed.

Lemma expire_loop_ok (cur : Z) l1 : forall m l2 fuel, queue m.(tree) (l1 ++ l2) -> Forall (fun x => ival x <= cur) l1 -> Forall (fun x => cur < ival x) l2 ->
  NoDup (idat <$> l1) -> Forall (servable 1 m.(srv)) l1 -> (forall k, (ticks m <= k)%nat -> cur <= clock k < 2 ^ 62) -> 0 <= cur -> (length l1 < fuel)%nat ->
  exists m' l', expire_loop write_ok clock malloc fuel cur m = Ret m' /\ queue m'.(tree) l' /\ Forall (fun x => cur < ival x) l' /\
    fired (idat <$> l1) m.(srv) m'.(srv) /\ sent m'.(srv) = sent m.(srv) ++ (l1 ≫= deliveries m.(srv)) /\
    idat <$> l' ≡ₚ (idat <$> filter (fun x => goes_on m.(srv) x = true) l1) ++ (idat <$> l2).
Proof.
  induction l1 as [|x l1 IH]; intros m l2 fuel Hq H1 H2 Hnd Hsv Hck Hc Hf; (destruct fuel as [|fuel]; [lia|]); cbn [expire_loop]; rewrite (min_ok _ _ Hq); cbn [obind].
  - exists m, l2. cbn [app] in Hq |- *. split; [|split; [done|split; [done|split; [apply fired_nil|split; [by rewrite app_nil_r | done]]]]].
    destruct l2 as [|y l2]; [done|]. destruct (queue_cell _ _ y Hq) as (Hy & n & Hn & Hv & _); [by left|]. rewrite (proj2 (Z.eqb_neq _ _)), Hn by done. cbn [obind].
    apply Forall_cons in H2 as [H2 _]. rewrite Hv, (proj2 (Z.leb_gt _ _)) by done. done.
  - cbn [app]. destruct (queue_cell _ _ x Hq) as (Hx & n & Hn & Hv & Hd); [by left|]. rewrite (proj2 (Z.eqb_neq _ _)), Hn by done. cbn [obind].
    apply Forall_cons in H1 as [Hx1 H1]. apply Forall_cons in Hsv as [Hsx Hsv]. rewrite Hv, (proj2 (Z.leb_le _ _)) by done. rewrite fmap_cons in Hnd. apply NoDup_cons in Hnd as [Hxn Hnd].
    destruct (expire_one_ok 1 m x (l1 ++ l2) n Hq Hn Hd Hsx) as (m1 & E1 & (u & u1 & Hu & Hsu & Hdu & Ht & Ha) & Q & Hsent). rewrite E1. cbn [obind].
    assert (exists l2', queue (tree m1) (l1 ++ l2') /\ Forall (fun x => cur < ival x) l2' /\ (ticks m <= ticks m1)%nat /\
      idat <$> l2' ≡ₚ (if goes_on (srv m) x then [idat x] else []) ++ (idat <$> l2)) as (l2' & Hq1 & H2' & Htk & Hp).
    { unfold goes_on. rewrite Hu. destruct (again u).
      - cbv zeta in Ha. destruct Ha as (a & k1 & k2 & Hl & Hk1 & Hk2 & Hq1 & Htk). destruct Hsx as (u' & Hu' & Hv' & _). rewrite Hu in Hu'. injection Hu' as <-.
        specialize (Hck (ticks m) (le_n _)). rewrite u64_small in Hk2, Hq1 by lia.
        destruct (split_due cur _ _ _ _ _ Hl H1 Hk2) as (k & -> & ->); [lia|]. exists (k ++ mk_item a (clock (ticks m) + t_value u) (idat x) :: k2).
        rewrite <- app_assoc in Hq1. split; [exact Hq1|]. apply Forall_app in H2 as [Hf1 Hf2]. split; [apply Forall_app; split; [done|]; constructor; [cbn; lia | done]|]. split; [lia|].
        rewrite !fmap_app, fmap_cons. cbn [idat app]. by rewrite <- Permutation_middle.
      - destruct Ha as [Hq1 Htk]. exists l2. split; [done|]. split; [done|]. split; [lia | done]. }
    assert (forall y, y ∈ l1 -> servable 1 (srv m1) y /\ deliveries (srv m1) y = deliveries (srv m) y /\ goes_on (srv m1) y = goes_on (srv m) y) as Ho.
    { intros y Hy. eapply others_same; [exact Hu | exact Ht | exact Q | | by eapply Forall_forall in Hy; [|exact Hsv]]. intros E'. apply Hxn. rewrite E'. apply list_elem_of_fmap. eauto. }
    destruct (IH m1 l2' fuel Hq1 H1 H2' Hnd) as (m2 & l' & E2 & Hq2 & H3 & Hfi & Hse & Hpe); [| | done | cbn in Hf; lia |].
    { apply Forall_forall. intros y Hy. by apply Ho. } { intros k Hk. apply Hck. lia. }
    exists m2, l'. split; [exact E2|]. split; [done|]. split; [done|]. split; [by eapply fired_cons|]. split.
    + rewrite Hse, Hsent, <- app_assoc. f_equal. cbn. f_equal. apply Forall_bind_ext, Forall_forall. intros y Hy. by apply Ho.
    + rewrite Hpe, Hp. assert (filter (fun y => goes_on (srv m1) y = true) l1 = filter (fun y => goes_on (srv m) y = true) l1) as ->.
      { apply filter_goes_on. intros y Hy. by apply Ho. }
      destruct (goes_on (srv m) x) eqn:Hg; [rewrite filter_cons_True by done | rewrite filter_cons_False by (by rewrite Hg)]; cbn; [|done]. by rewrite <- Permutation_middle.
Qed.

(** * Theorems *)


(** A timer of zero seconds without an end is due again at once: while the
    second lasts the pass does not end. *)
Lemma zero_timer_spins fuel : forall m x u, queue m.(tree) [x] -> get (idat x) m.(srv).(rb_timers) = Ret u -> t_value u = 0 -> iterations u = 0 ->
  (forall k, clock k = clock 0%nat) -> 0 <= clock 0%nat < 2 ^ 62 -> ival x <= clock 0%nat -> routable (t_sig u) m.(srv) ->
  0 <= iterations_done u -> iterations_done u + Z.of_nat fuel < 2 ^ 31 - 1 ->
  expire_loop write_ok clock malloc fuel (clock 0%nat) m = NoFuel.
Proof.
  induction fuel as [|fuel IH]; intros m x u Hq Hu Hv Hi Hck Hc Hx Hr Hd Hf; cbn [expire_loop]; [done|]. rewrite (min_ok _ _ Hq). cbn [obind].
  destruct (queue_cell _ _ x Hq) as (Hxn & n & Hn & Hvn & Hdn); [by left|]. rewrite (proj2 (Z.eqb_neq _ _)), Hn by done. cbn [obind]. rewrite Hvn, (proj2 (Z.leb_le _ _)) by done.
  destruct (expire_one_ok 0 m x [] n Hq Hn Hdn) as (m1 & E1 & (u' & u1 & Hu' & (Hs1 & Hs2 & Hs3 & _) & Hdu & Ht & Ha) & Q & _); [exists u; split; [done|]; split; [lia|]; split; [lia | done]|].
  rewrite Hu in Hu'. injection Hu' as <-. rewrite E1. cbn [obind]. unfold again in Ha. rewrite Hi in Ha. cbn [Z.eqb orb] in Ha. cbv zeta in Ha.
  destruct Ha as (a & k1 & k2 & Hl & _ & _ & Hq1 & _). symmetry in Hl. apply app_eq_nil in Hl as [-> ->]. cbn [app] in Hq1.
  eapply (IH m1 _ u1 Hq1); cbn [idat ival].
  - rewrite Ht, (get_put_at _ _ _ _ _ _ Hu Hu). by rewrite decide_True.
  - congruence.
  - congruence.
  - done.
  - done.
  - rewrite Hck, Hv, u64_small by lia. lia.
  - rewrite Hs3. eapply (routable_quiet _ ((srv m)<|rb_timers := rb_timers (srv m1)|>)); [exact Q | exact Hr].
  - lia.
  - lia.
Qed.
End master.

(** ** A run *)

(** The address after the greatest in use. *)
Definition bump (h : gmap Z rb_timer) : Z := 1 + foldr Z.max 0 (elements (dom h)).
#[export] Instance bump_allocator : Allocator bump.
Proof.
  assert (forall l (a : Z), a ∈ l -> a <= foldr Z.max 0 l) as Hle.
  { induction l as [|b l IH]; intros a; [by intros ?%elem_of_nil|]. cbn. intros [->|Ha]%elem_of_cons; [lia|]. specialize (IH _ Ha). lia. }
  split.
  - intros h Hin. apply elem_of_elements in Hin. specialize (Hle _ _ Hin). unfold bump in *. lia.
  - intros h. assert (0 <= foldr Z.max 0 (elements (dom h))) by (induction (elements (dom h)); cbn; lia). unfold bump, NULL. lia.
Qed.

Definition run_server : server :=
  let w := mk_worker 7 false false [0] 0 0 0 in
  mk_server 0 7 2 true false 0 [w; w; w<|cheaped := true|>]
    (replicate 3 (mk_entry 0 0 [] 0) ++ [mk_entry 0 0 (chars "workers") 1; mk_entry 0 0 (chars "active-workers") 1; mk_entry 0 0 (chars "worker2") 1] ++ replicate 762 (mk_entry 0 0 [] 0))
    [mk_sig_timer 5 true 0 0 3 1; mk_sig_timer 7 true 1 0 4 2; mk_sig_timer 9 true 2 0 5 3] 0 0 [] [].
Definition run_timers : list command := [Add 1 1005 0; Add 2 1007 1; Add 3 1009 2].
Definition run_clock (k : nat) : Z := 1007 + Z.min (Z.of_nat k) 100.


(** The receiver "worker9" with two workers. *)
Example route_out_of_range :
  upsgi_route_signal (fun _ _ => true) 0 (run_server<|signal_table := [mk_entry 0 0 (chars "worker9") 1]|>) = Fault.
Proof. vm_compute. reflexivity. Qed.
End SigTimersProofs.
