(* ===== verification/SignalsTheorems.v ===== *)
(** The table of signals: who may run what the master and the workers
    registered. *)
From S2P Require Import Prelude Clib Signals SigTimers SigTimersProofs.

Module SignalsTheorems.
Import Signals SigTimersProofs SignalsProofs.

(** * Rows *)

Lemma copy_row_ok i t : 1 <= i -> i * 256 + 256 <= zlen t -> exists t', copy_row i t = Ret t' /\ zlen t' = zlen t /\
  forall j, 0 <= j -> t' !! Z.to_nat j = t !! Z.to_nat (if (i * 256 <=? j) && (j <? i * 256 + 256) then j - i * 256 else j).
Proof.
  intros Hi Hl. unfold copy_row. rewrite (proj2 (Z.leb_le 0 i)), (proj2 (Z.leb_le _ _)) by lia. cbn [andb]. eexists. split; [reflexivity|].
  pose proof (zlen_nonneg t). split. { rewrite !zlen_app, !zlen_take, zlen_drop; lia. }
  intros j Hj. unfold ztake, zdrop, zlen in *. destruct (Z.leb_spec (i * 256) j); cbn [andb].
  - rewrite lookup_app_r by (rewrite length_take; lia). rewrite length_take. destruct (Z.ltb_spec j (i * 256 + 256)).
    + rewrite lookup_app_l by (rewrite length_take; lia). rewrite lookup_take_lt by lia. f_equal. lia.
    + rewrite lookup_app_r by (rewrite length_take; lia). rewrite lookup_drop, length_take. f_equal. lia.
  - rewrite lookup_app_l by (rewrite length_take; lia). by rewrite lookup_take_lt by lia.
Qed.

(** The entry of the master that an entry of another row becomes a copy
    of. *)
Definition origin (n : nat) (i j : Z) : Z := if (i * 256 <=? j) && (j <? (i + Z.of_nat n) * 256) then j mod 256 else j.

Lemma origin_step n i j : 1 <= i -> 0 <= j ->
  (let k := origin n (i + 1) j in if (i * 256 <=? k) && (k <? i * 256 + 256) then k - i * 256 else k) = origin (S n) i j.
Proof.
  intros Hi Hj. cbv zeta. unfold origin. pose proof (Z.mod_pos_bound j 256 eq_refl). pose proof (Z.div_mod j 256).
  destruct (Z.leb_spec ((i + 1) * 256) j), (Z.ltb_spec j ((i + 1 + Z.of_nat n) * 256)), (Z.leb_spec (i * 256) j), (Z.ltb_spec j ((i + Z.of_nat (S n)) * 256)); cbn [andb]; try lia.
  - rewrite (proj2 (Z.leb_gt _ _)) by lia. done.
  - rewrite (proj2 (Z.leb_le _ _)), (proj2 (Z.ltb_ge _ _)) by lia. done.
  - rewrite (proj2 (Z.leb_le _ _)), (proj2 (Z.ltb_lt _ _)) by lia. cbn [andb]. assert (j / 256 = i) by (symmetry; apply (Z.div_unique j 256 i (j - i * 256)); lia). lia.
  - rewrite (proj2 (Z.leb_gt _ _)) by lia. done.
Qed.

Lemma copy_rows_ok n : forall i t, 1 <= i -> (i + Z.of_nat n) * 256 <= zlen t -> exists t', copy_rows n i t = Ret t' /\ zlen t' = zlen t /\
  forall j, 0 <= j -> t' !! Z.to_nat j = t !! Z.to_nat (origin n i j).
Proof.
  induction n as [|n IH]; intros i t Hi Hl; cbn [copy_rows].
  - exists t. split; [done|]. split; [done|]. intros j Hj. unfold origin. destruct (Z.leb_spec (i * 256) j), (Z.ltb_spec j ((i + Z.of_nat 0) * 256)); cbn [andb]; done || lia.
  - destruct (copy_row_ok i t) as (t1 & E1 & L1 & H1); [done | lia|]. rewrite E1. cbn [obind].
    destruct (IH (i + 1) t1) as (t2 & E2 & L2 & H2); [lia | lia|]. exists t2. split; [done|]. split; [by rewrite L2|]. intros j Hj. rewrite H2 by done.
    assert (0 <= origin n (i + 1) j) as Ho by (unfold origin; destruct (_ && _); [apply Z.mod_pos_bound; lia | done]).
    rewrite H1 by done. by rewrite <- origin_step.
Qed.

(** * Reachable tables *)

Definition zero_entry : signal_entry := mk_entry 0 0 [] 0.

(** A run of registrations by the master (row 0) and the workers. *)
Inductive reachable (np : Z) : list signal_entry -> Prop :=
| reach_zero : reachable np (zrep ((np + 1) * 256) zero_entry)
| reach_step s ret s' sig rcv h m1 : reachable np (signal_table s) -> numproc s = np -> 0 <= mywid s <= np -> 0 <= sig < 256 ->
    upsgi_register_signal sig rcv h m1 s = Ret (ret, s') -> reachable np (signal_table s').

(** A row has the entries of its own process and those of the master. *)
Record rows_ok (np : Z) (t : list signal_entry) : Prop := {
  r_len : zlen t = (np + 1) * 256;
  r_wid : forall j e, 0 <= j -> t !! Z.to_nat j = Some e -> wid e = 0 \/ wid e = j / 256;
  r_receiver : forall j e, t !! j = Some e -> zlen (receiver e) <= 63;
}.

Lemma rows_register np s ret s' sig rcv h m1 : 0 <= np -> rows_ok np (signal_table s) -> numproc s = np -> 0 <= mywid s <= np -> 0 <= sig < 256 ->
  upsgi_register_signal sig rcv h m1 s = Ret (ret, s') -> rows_ok np (signal_table s').
Proof.
  intros Hnp [Hl Hw Hrc] Hn Hm Hs. unfold upsgi_register_signal. destruct (master_process s); cbn [negb]; [|by intros [= <- <-]].
  destruct (get 0 (workers s)) as [w0| | |]; cbn [obind]; [|done..]. destruct (_ && negb _); [by intros [= <- <-]|]. destruct (Z.ltb_spec 63 (zlen rcv)) as [|Hrcv]; [by intros [= <- <-]|].
  destruct (get (mywid s * 256 + sig) (signal_table s)) as [use| | |] eqn:Hu; cbn [obind]; [|done..]. destruct (negb _ && _); [by intros [= <- <-]|].
  rewrite (put_at_ok _ _ _ _ Hu). cbn [obind]. set (e0 := mk_entry (mywid s) m1 rcv h). set (t1 := <[_ := e0]> _). apply get_lookup in Hu as [Hpos Hu].
  assert (rows_ok np t1) as [Hl1 Hw1 Hr1].
  { unfold t1. split.
    - unfold zlen in *. by rewrite length_insert.
    - intros j e Hj. rewrite list_lookup_insert_Some. intros [(Ej & <- & _)|[_ He]]; [|by eapply Hw]. right. cbn.
      assert (j = mywid s * 256 + sig) as -> by lia. rewrite Z.div_add_l, Z.div_small by lia. lia.
    - intros j e. rewrite list_lookup_insert_Some. intros [(Ej & <- & _)|[_ He]]; [done | by eapply Hrc]. }
  destruct (Z.eqb_spec (mywid s) 0) as [Hmw|Hmw].
  - destruct (copy_rows_ok (Z.to_nat (numproc s)) 1 t1) as (t2 & E2 & L2 & H2); [lia | lia|]. rewrite E2. cbn [obind]. intros [= <- <-].
    change (signal_table (s<|signal_table := t2|>)) with t2. split; [by rewrite L2| |].
    + intros j e Hj. rewrite H2 by done. intros He. left. unfold origin in He. destruct (_ && _) eqn:Eb.
      * apply Hw1 in He; [|apply Z.mod_pos_bound; lia]. pose proof (Z.mod_pos_bound j 256 eq_refl). rewrite Z.div_small in He by lia. lia.
      * pose proof (Hw1 _ _ Hj He) as [|Hd]; [done|]. apply lookup_lt_Some in He. unfold zlen in Hl1. apply andb_false_iff in Eb as [Eb|Eb]; [apply Z.leb_gt in Eb | apply Z.ltb_ge in Eb].
        -- rewrite Z.div_small in Hd by lia. done.
        -- lia.
    + intros j e He. assert (exists k, t1 !! k = Some e) as [k Hk].
      { rewrite <- (Nat2Z.id j) in He. rewrite H2 in He by lia. eauto. } by eapply Hr1.
  - cbn [obind]. intros [= <- <-]. change (signal_table (s<|signal_table := t1|>)) with t1. by split.
Qed.

Lemma reachable_rows np t : 0 <= np -> reachable np t -> rows_ok np t.
Proof.
  intros Hnp. induction 1 as [|s ret s' sig rcv h m1 _ IH Hn Hm Hs E]; [|by eapply rows_register].
  split; [apply zlen_rep; lia| |]; unfold zrep.
  - intros j e Hj [-> _]%lookup_replicate. by left.
  - intros j e [-> _]%lookup_replicate. vm_compute. discriminate.
Qed.

(** C27: whatever the master and the workers register and in whatever order, a
    process finds in its row of the table only what the master or itself
    registered: with a master the guard of [upsgi_signal_handler] against the
    handlers of other workers never refuses a signal. *)
Theorem cow_never_refuses s use sig : reachable (numproc s) (signal_table s) -> 0 <= numproc s -> 0 <= mywid s -> 0 <= sig < 256 ->
  master_process s = true -> get (mywid s * 256 + sig) (signal_table s) = Ret use -> cow_refuses use s = false.
Proof.
  intros Hr Hn Hm Hs Hmp Hu. destruct (reachable_rows _ _ Hn Hr) as [_ Hw _]. apply get_lookup in Hu as [Hp Hu]. unfold cow_refuses. rewrite Hmp.
  apply Hw in Hu; [|done]. rewrite Z.div_add_l, Z.div_small in Hu by lia. destruct Hu as [->| ->]; [done|]. rewrite Z.add_0_r, Z.eqb_refl. apply andb_false_r.
Qed.

(** A registration by the master and one by a worker, seen by that worker. *)
Definition start_server : server :=
  mk_server 0 7 1 true false 0 [mk_worker 7 false false [0] 0 0 0; mk_worker 8 false false [0] 0 0 0] (zrep 512 zero_entry) [] 0 0 [] [].

Lemma cow_never_refuses_witness : exists s1 s2 use, upsgi_register_signal 3 (chars "workers") 11 5 start_server = Ret (0, s1) /\
  upsgi_register_signal 4 [] 12 5 (s1<|mywid := 1|>) = Ret (0, s2) /\ get (1 * 256 + 3) (signal_table s2) = Ret use /\ cow_refuses use s2 = false.
Proof.
  assert (exists s1, upsgi_register_signal 3 (chars "workers") 11 5 start_server = Ret (0, s1)) as [s1 E1] by (eexists; vm_compute; reflexivity).
  assert (s1 = match upsgi_register_signal 3 (chars "workers") 11 5 start_server with Ret (_, s) => s | _ => start_server end) as H1 by (by rewrite E1).
  assert (exists s2, upsgi_register_signal 4 [] 12 5 (s1<|mywid := 1|>) = Ret (0, s2)) as [s2 E2] by (rewrite H1; eexists; vm_compute; reflexivity).
  assert (s2 = match upsgi_register_signal 4 [] 12 5 (s1<|mywid := 1|>) with Ret (_, s) => s | _ => start_server end) as H2 by (by rewrite E2).
  exists s1, s2, (mk_entry 0 5 (chars "workers") 11). split; [exact E1|]. split; [exact E2|].
  assert (get (1 * 256 + 3) (signal_table s2) = Ret (mk_entry 0 5 (chars "workers") 11)) as Hu by (rewrite H2, H1; vm_compute; reflexivity).
  split; [exact Hu|]. apply (cow_never_refuses s2 _ 3).
  - assert (numproc s2 = 1) as -> by (rewrite H2, H1; vm_compute; reflexivity).
    assert (reachable 1 (signal_table s1)) as Hr1 by (apply (reach_step 1 start_server 0 s1 3 (chars "workers") 11 5); [apply (reach_zero 1) | done | cbn; lia | lia | exact E1]).
    apply (reach_step 1 (s1<|mywid := 1|>) 0 s2 4 [] 12 5); [exact Hr1 | rewrite H1; vm_compute; reflexivity | cbn; lia | lia | exact E2].
  - rewrite H2, H1. vm_compute. discriminate.
  - rewrite H2, H1. vm_compute. discriminate.
  - lia.
  - rewrite H2, H1. vm_compute. reflexivity.
  - rewrite <- Hu. rewrite H2, H1. vm_compute. reflexivity.
Defined.

(** A registration by the master takes the place of all that the workers
    registered: their whole row is a copy of its own. *)
Example master_registration_drops_workers :
  match upsgi_register_signal 4 [] 12 5 (start_server<|mywid := 1|>) with
  | Ret (0, s1) => match upsgi_register_signal 3 [] 11 5 (s1<|mywid := 0|>) with
    | Ret (0, s2) => upsgi_signal_registered 4 (s1<|mywid := 1|>) = Ret 1 /\ upsgi_signal_registered 4 (s2<|mywid := 1|>) = Ret 0
    | _ => False end
  | _ => False end.
Proof. vm_compute. done. Qed.
End SignalsTheorems.
