(* ===== verification/Base64.v ===== *)
(** Base64 (core/utils.c): the encoder, the decoder, and that the decoder
    gives back what was encoded. *)
From S2P Require Import Prelude Clib Buffer.

Module Base64.

(** * Tables *)

Definition b64_table64 : list Z :=
  [77; 77; 77; 77; 77; 77; 77; 77; 77; 77; 77; 77; 77; 77; 77; 77; 77; 77; 77; 77; 77; 77; 77; 77; 77; 77; 77; 77; 77; 77; 77; 77;
   77; 77; 77; 77; 77; 77; 77; 77; 77; 77; 77; 62; 77; 77; 77; 63; 52; 53; 54; 55; 56; 57; 58; 59; 60; 61; 77; 77; 77; 77; 77; 77;
   77; 0; 1; 2; 3; 4; 5; 6; 7; 8; 9; 10; 11; 12; 13; 14; 15; 16; 17; 18; 19; 20; 21; 22; 23; 24; 25; 77; 77; 77; 77; 77;
   77; 26; 27; 28; 29; 30; 31; 32; 33; 34; 35; 36; 37; 38; 39; 40; 41; 42; 43; 44; 45; 46; 47; 48; 49; 50; 51; 77; 77; 77; 77; 77;
   77; 77; 77; 77; 77; 77; 77; 77; 77; 77; 77; 77; 77; 77; 77; 77; 77; 77; 77; 77; 77; 77; 77; 77; 77; 77; 77; 77; 77; 77; 77; 77;
   77; 77; 77; 77; 77; 77; 77; 77; 77; 77; 77; 77; 77; 77; 77; 77; 77; 77; 77; 77; 77; 77; 77; 77; 77; 77; 77; 77; 77; 77; 77; 77;
   77; 77; 77; 77; 77; 77; 77; 77; 77; 77; 77; 77; 77; 77; 77; 77; 77; 77; 77; 77; 77; 77; 77; 77; 77; 77; 77; 77; 77; 77; 77; 77;
   77; 77; 77; 77; 77; 77; 77; 77; 77; 77; 77; 77; 77; 77; 77; 77; 77; 77; 77; 77; 77; 77; 77; 77; 77; 77; 77; 77; 77; 77; 77; 77].

Definition b64_table64_2 : list Z := chars "ABCDEFGHIJKLMNOPQRSTUVWXYZabcdefghijklmnopqrstuvwxyz0123456789+/".

(** A load from a table; the indices stay inside. *)
Definition dec (c : Z) : Z := default 77 (b64_table64 !! Z.to_nat (u8 c)).
Definition enc (k : Z) : Z := default 0 (b64_table64_2 !! Z.to_nat k).

(** * Decoding *)

(** The number of bytes in front of the padding; [None] for an invalid one. *)
Fixpoint valid_prefix (buf : list Z) (i : Z) : option Z :=
  match buf with
  | [] => Some i
  | c :: buf => if c =? 61 then Some i else if dec c =? 77 then None else valid_prefix buf (i + 1)
  end.

Definition dec0 (a b : Z) : Z := u8 (Z.lor (Z.shiftl (dec a) 2) (Z.shiftr (dec b) 4)).
Definition dec1 (b c : Z) : Z := u8 (Z.lor (Z.shiftl (dec b) 4) (Z.shiftr (dec c) 2)).
Definition dec2 (c d : Z) : Z := u8 (Z.lor (Z.shiftl (dec c) 6) (dec d)).

(** The loop and the two tests behind it; [i] is the number of bytes left. *)
Fixpoint decode_loop (fuel : nat) (src : list Z) (i : Z) : list Z :=
  match fuel with
  | O => []
  | S fuel =>
      match src with
      | a :: b :: c :: d :: rest =>
          if 3 <? i then dec0 a b :: dec1 b c :: dec2 c d :: decode_loop fuel rest (i - 4)
          else (if 1 <? i then [dec0 a b] else []) ++ (if 2 <? i then [dec1 b c] else [])
      | _ => (if 1 <? i then [dec0 (default 0 (src !! 0%nat)) (default 0 (src !! 1%nat))] else []) ++
             (if 2 <? i then [dec1 (default 0 (src !! 1%nat)) (default 0 (src !! 2%nat))] else [])
      end
  end.

Definition upsgi_base64_decode (buf : list Z) : option (list Z) :=
  match valid_prefix buf 0 with
  | None => None
  | Some i => if i mod 4 =? 1 then None else Some (decode_loop (S (length buf)) buf i)
  end.

(** * Encoding *)

Definition pad : Z := 61.

Fixpoint upsgi_base64_encode (src : list Z) : list Z :=
  match src with
  | a :: b :: c :: rest =>
      enc (Z.shiftr a 2) :: enc (Z.lor (Z.land (Z.shiftl a 4) 48) (Z.shiftr b 4)) ::
      enc (Z.lor (Z.land (Z.shiftl b 2) 60) (Z.shiftr c 6)) :: enc (Z.land c 63) :: upsgi_base64_encode rest
  | [a; b] => [enc (Z.shiftr a 2); enc (Z.lor (u8 (Z.land (Z.shiftl a 4) 48)) (Z.shiftr b 4)); enc (Z.land (Z.shiftl b 2) 60); pad]
  | [a] => [enc (Z.shiftr a 2); enc (u8 (Z.land (Z.shiftl a 4) 48)); pad; pad]
  | [] => []
  end.

(** core/buffer.c *)
Definition upsgi_buffer_append_base64 (env : heap_env) (s : list Z) : bop := upsgi_buffer_append env (upsgi_base64_encode s).

(** * The round trip *)

(** The letters of the alphabet are valid and decode to their index. *)
Definition letters : list Z := map Z.of_nat (seq 0 64).

Lemma enc_letter k : 0 <= k < 64 -> enc k <> 61 /\ dec (enc k) = k.
Proof.
  intros Hk. assert (forallb (fun k => negb (enc k =? 61) && (dec (enc k) =? k)) letters = true) as H by (vm_compute; reflexivity).
  rewrite forallb_forall in H. specialize (H k). assert (In k letters) as Hin.
  { unfold letters. apply in_map_iff. exists (Z.to_nat k). split; [lia|]. apply in_seq. lia. }
  apply H, andb_true_iff in Hin as [H1 H2]. apply negb_true_iff, Z.eqb_neq in H1. by apply Z.eqb_eq in H2.
Qed.

Lemma dec_enc k : 0 <= k < 64 -> dec (enc k) = k.
Proof. intros Hk. by apply enc_letter. Qed.

Definition octets : list Z := map Z.of_nat (seq 0 256).

Lemma octet_in a : byte_ok a -> In a octets.
Proof. intros Ha. unfold byte_ok in Ha. apply in_map_iff. exists (Z.to_nat a). split; [lia|]. apply in_seq. lia. Qed.

(** The bits of two bytes: checked for all of them. *)
Definition bits2 (a b : Z) : bool :=
  let x0 := Z.shiftr a 2 in
  let x1 := Z.lor (Z.land (Z.shiftl a 4) 48) (Z.shiftr b 4) in
  let y := Z.land (Z.shiftl a 2) 60 in
  let x2 := Z.lor y (Z.shiftr b 6) in
  let x3 := Z.land b 63 in
  (0 <=? x0) && (x0 <? 64) && (0 <=? x1) && (x1 <? 64) && (0 <=? y) && (y <? 64) && (0 <=? x2) && (x2 <? 64) && (0 <=? x3) && (x3 <? 64) &&
  (u8 (Z.lor (Z.shiftl x0 2) (Z.shiftr x1 4)) =? a) &&
  (* the second and the third byte, one half at a time *)
  (Z.lor (Z.land (Z.shiftl x1 4) 255) 0 =? Z.shiftl (Z.shiftr b 4) 4) && (Z.shiftr x2 2 =? Z.land a 15) && (Z.shiftr y 2 =? Z.land a 15) &&
  (u8 (Z.lor (Z.shiftl x2 6) x3) =? b) &&
  (Z.lor (Z.shiftl (Z.shiftr a 4) 4) (Z.land a 15) =? a).

Lemma bits2_all a b : byte_ok a -> byte_ok b -> bits2 a b = true.
Proof.
  intros Ha Hb. assert (forallb (fun a => forallb (bits2 a) octets) octets = true) as H by (vm_compute; reflexivity).
  rewrite forallb_forall in H. specialize (H a (octet_in a Ha)). rewrite forallb_forall in H. exact (H b (octet_in b Hb)).
Qed.

(** What the decoder computes from the letters of two neighbouring bytes. *)
Lemma letters_of a b :
  byte_ok a -> byte_ok b ->
  let x0 := Z.shiftr a 2 in
  let x1 := Z.lor (Z.land (Z.shiftl a 4) 48) (Z.shiftr b 4) in
  let y := Z.land (Z.shiftl a 2) 60 in
  let x2 := Z.lor y (Z.shiftr b 6) in
  let x3 := Z.land b 63 in
  (0 <= x0 < 64 /\ 0 <= x1 < 64 /\ 0 <= y < 64 /\ 0 <= x2 < 64 /\ 0 <= x3 < 64) /\
  u8 (Z.lor (Z.shiftl x0 2) (Z.shiftr x1 4)) = a /\ u8 (Z.lor (Z.shiftl x2 6) x3) = b /\
  u8 (Z.shiftl x1 4) = Z.shiftl (Z.shiftr b 4) 4 /\ Z.shiftr x2 2 = Z.land a 15 /\ Z.shiftr y 2 = Z.land a 15 /\
  Z.lor (Z.shiftl (Z.shiftr a 4) 4) (Z.land a 15) = a.
Proof.
  intros Ha Hb x0 x1 y x2 x3. pose proof (bits2_all a b Ha Hb) as H. unfold bits2 in H. fold x0 x1 y in H. fold x2 x3 in H.
  rewrite !andb_true_iff, !Z.leb_le, !Z.ltb_lt, !Z.eqb_eq, Z.lor_0_r in H. unfold wrap in *. rewrite <- !(Z.land_ones _ 8) in * by lia.
  change (Z.ones 8) with 255 in *. tauto.
Qed.

Lemma u8_lor a b : u8 (Z.lor a b) = Z.lor (u8 a) (u8 b).
Proof. unfold wrap. rewrite <- !Z.land_ones by lia. apply Z.land_lor_distr_l. Qed.

Lemma dec_first a b : byte_ok a -> byte_ok b ->
  dec0 (enc (Z.shiftr a 2)) (enc (Z.lor (Z.land (Z.shiftl a 4) 48) (Z.shiftr b 4))) = a.
Proof.
  intros Ha Hb. destruct (letters_of a b Ha Hb) as ((B0 & B1 & _) & H & _). unfold dec0.
  by rewrite !dec_enc by done.
Qed.

Lemma dec_second a b x : byte_ok a -> byte_ok b -> 0 <= x < 64 -> Z.shiftr x 2 = Z.land b 15 ->
  dec1 (enc (Z.lor (Z.land (Z.shiftl a 4) 48) (Z.shiftr b 4))) (enc x) = b.
Proof.
  intros Ha Hb Hx Ex. destruct (letters_of a b Ha Hb) as ((_ & B1 & _) & _ & _ & H & _). unfold dec1.
  rewrite !dec_enc by done. rewrite u8_lor, H, Ex, (wrap_small 8 (Z.land b 15)).
  - by destruct (letters_of b b Hb Hb) as (_ & _ & _ & _ & _ & _ & E).
  - change 15 with (Z.ones 4). rewrite Z.land_ones by lia. pose proof (Z.mod_pos_bound b (2 ^ 4)). lia.
Qed.

Lemma dec_third b c : byte_ok b -> byte_ok c -> dec2 (enc (Z.lor (Z.land (Z.shiftl b 2) 60) (Z.shiftr c 6))) (enc (Z.land c 63)) = c.
Proof.
  intros Hb Hc. destruct (letters_of b c Hb Hc) as ((_ & _ & _ & B2 & B3) & _ & H & _). unfold dec2.
  by rewrite !dec_enc by done.
Qed.

(** The last byte alone: the second letter has no bits of a next one. *)
Lemma last_letter a : byte_ok a -> u8 (Z.land (Z.shiftl a 4) 48) = Z.lor (Z.land (Z.shiftl a 4) 48) (Z.shiftr 0 4) /\
  Z.lor (u8 (Z.land (Z.shiftl a 4) 48)) 0 = Z.land (Z.shiftl a 4) 48.
Proof.
  intros Ha. rewrite !Z.lor_0_r. destruct (letters_of a 0 Ha ltac:(done)) as ((_ & B & _) & _). change (Z.shiftr 0 4) with 0 in *.
  rewrite Z.lor_0_r in B. rewrite wrap_small by lia. done.
Qed.

Lemma triple_ind (Q : list Z -> Prop) :
  Q [] -> (forall a, Q [a]) -> (forall a b, Q [a; b]) -> (forall a b c l, Q l -> Q (a :: b :: c :: l)) -> forall l, Q l.
Proof.
  intros H0 H1 H2 H3. fix IH 1. intros [|a [|b [|c l]]]; [exact H0 | exact (H1 a) | exact (H2 a b) | exact (H3 a b c l (IH l))].
Qed.

(** The number of letters. *)
Fixpoint count (l : list Z) : Z :=
  match l with [] => 0 | [_] => 2 | [_; _] => 3 | _ :: _ :: _ :: l => 4 + count l end.

Lemma count_mod l : (count l) mod 4 <> 1 /\ 0 <= count l.
Proof.
  induction l as [| | |a b c l [H1 H2]] using triple_ind; [by split ..|]. cbn [count].
  rewrite Z.add_comm. rewrite (Z.add_mod _ 4 4), Z.mod_same, Z.add_0_r, Z.mod_mod by lia. split; [done | lia].
Qed.

Lemma valid_letter k l i : 0 <= k < 64 -> valid_prefix (enc k :: l) i = valid_prefix l (i + 1).
Proof.
  intros Hk. destruct (enc_letter k Hk) as [H1 H2]. cbn [valid_prefix]. rewrite H2. destruct (Z.eqb_spec (enc k) 61); [done|].
  destruct (Z.eqb_spec k 77); [lia | done].
Qed.

Lemma valid_encode l i : bytes_ok l -> valid_prefix (upsgi_base64_encode l) i = Some (i + count l).
Proof.
  revert i. induction l as [|a|a b|a b c l IH] using triple_ind; intros i Hl; cbn [upsgi_base64_encode count].
  - cbn. f_equal. lia.
  - apply Forall_cons in Hl as [Ha _]. destruct (letters_of a 0 Ha ltac:(done)) as ((B0 & B1 & _) & _).
    rewrite (proj1 (last_letter a Ha)). rewrite !valid_letter by done. cbn. f_equal. lia.
  - apply Forall_cons in Hl as [Ha [Hb _]%Forall_cons]. destruct (letters_of a b Ha Hb) as ((B0 & B1 & _) & _). destruct (letters_of b b Hb Hb) as ((_ & _ & By & _) & _).
    pose proof (last_letter a Ha) as [_ E]. rewrite Z.lor_0_r in E. rewrite E. rewrite !valid_letter by done. cbn. f_equal. lia.
  - apply Forall_cons in Hl as [Ha [Hb [Hc Hl]%Forall_cons]%Forall_cons]. destruct (letters_of a b Ha Hb) as ((B0 & B1 & _) & _).
    destruct (letters_of b c Hb Hc) as ((_ & _ & _ & B2 & B3) & _). rewrite !valid_letter by done. rewrite IH by done. f_equal. lia.
Qed.

Lemma decode_encode_loop l fuel : bytes_ok l -> (length l < fuel)%nat -> decode_loop fuel (upsgi_base64_encode l) (count l) = l.
Proof.
  revert fuel. induction l as [|a|a b|a b c l IH] using triple_ind; intros [|fuel] Hl Hf; try (cbn in Hf; lia); cbn [upsgi_base64_encode count].
  - done.
  - apply Forall_cons in Hl as [Ha _]. cbn [decode_loop Z.ltb Z.compare Pos.compare Pos.compare_cont app]. rewrite (proj1 (last_letter a Ha)). by rewrite dec_first.
  - apply Forall_cons in Hl as [Ha [Hb _]%Forall_cons]. cbn [decode_loop Z.ltb Z.compare Pos.compare Pos.compare_cont app].
    pose proof (last_letter a Ha) as [_ E]. rewrite Z.lor_0_r in E. rewrite E. destruct (letters_of b b Hb Hb) as ((_ & _ & By & _) & _ & _ & _ & _ & Ey & _).
    by rewrite dec_first, (dec_second a b).
  - apply Forall_cons in Hl as [Ha [Hb [Hc Hl]%Forall_cons]%Forall_cons]. cbn [decode_loop]. destruct (count_mod l) as [_ H0].
    destruct (Z.ltb_spec 3 (4 + count l)); [|lia]. destruct (letters_of b c Hb Hc) as ((_ & _ & _ & B2 & _) & _ & _ & _ & E2 & _).
    rewrite dec_first, (dec_second a b), dec_third by done. replace (4 + count l - 4) with (count l) by lia. rewrite IH; [done | done | cbn in Hf; lia].
Qed.

Lemma encode_length l : (length l <= length (upsgi_base64_encode l))%nat.
Proof. induction l as [| | |a b c l IH] using triple_ind; cbn; lia. Qed.

(** C29: the decoder gives back exactly the bytes that were encoded, and the
    encoder stays inside its block of [4 * len / 3 + 5] bytes. *)
Theorem base64_roundtrip l :
  bytes_ok l -> upsgi_base64_decode (upsgi_base64_encode l) = Some l /\ zlen (upsgi_base64_encode l) + 1 <= 4 * zlen l / 3 + 5.
Proof.
  intros Hl. split.
  - unfold upsgi_base64_decode. rewrite (valid_encode l 0) by done. rewrite Z.add_0_l. destruct (count_mod l) as [H1 _].
    apply Z.eqb_neq in H1. rewrite H1. f_equal. apply decode_encode_loop; [done|]. pose proof (encode_length l). lia.
  - assert (3 * zlen (upsgi_base64_encode l) <= 4 * zlen l + 8) as H.
    { clear Hl. induction l as [| | |a b c l IH] using triple_ind; cbn [upsgi_base64_encode]; rewrite ?zlen_cons, ?zlen_nil.
      1: by vm_compute. all: lia. }
    pose proof (Z.div_le_mono (3 * zlen (upsgi_base64_encode l)) (4 * zlen l + 8) 3). rewrite Z.mul_comm, Z.div_mul in H0 by lia.
    pose proof (Z.div_mod (4 * zlen l) 3). pose proof (Z.mod_pos_bound (4 * zlen l) 3). lia.
Qed.

Lemma base64_roundtrip_witness :
  upsgi_base64_encode [0; 255; 16; 77] = chars "AP8QTQ==" /\ upsgi_base64_decode (upsgi_base64_encode [0; 255; 16; 77]) = Some [0; 255; 16; 77] /\ 9 <= 4 * 4 / 3 + 5.
Proof.
  split; [vm_compute; reflexivity|]. destruct (base64_roundtrip [0; 255; 16; 77] ltac:(by apply bytes_ok_check)) as [H1 H2]. split; [exact H1 | exact H2].
Defined.

End Base64.
