(* ===== verification/Websocket.v ===== *)
(** WebSocket connections (core/websockets.c): the frames a request sends, the
    state machine that reads frames and the keep-alive. *)
From S2P Require Import Prelude Clib Buffer ProtoBase Writer Fastcgi Reader Base64.

Module Websocket.
Import Writer.

(** * State *)

(** The fields of [struct upsgi_server]. *)
Record ws_conf : Type := mk_ws_conf {
  websockets_ping_freq : Z;
  websockets_pong_tolerance : Z;
  websockets_max_size : Z;
}.

Section websocket.
Context {C : Type} `{BodySource C}.

(** The fields of [struct wsgi_request], and [continuation], the global
    [upsgi.websockets_continuation_buffer].  [waits] are the results of the
    next calls of the wait hook, [clock] those of [upsgi_now]. *)
Record ws : Type := mk_ws {
  websocket_buf : option upsgi_buffer;
  websocket_send_buf : option upsgi_buffer;
  websocket_need : Z;
  websocket_phase : Z;
  websocket_opcode : Z;
  websocket_has_mask : Z;
  websocket_is_fin : Z;
  websocket_size : Z;
  websocket_pktsize : Z;
  websocket_last_ping : Z;
  websocket_last_pong : Z;
  websocket_closed : bool;
  continuation : option upsgi_buffer;
  resp : response;
  conn : C;
  waits : list Z;
  clock : list Z;
}.
#[export] Instance expand_ws : Expand ws := fun w =>
  mk_ws (websocket_buf w) (websocket_send_buf w) (websocket_need w) (websocket_phase w) (websocket_opcode w)
    (websocket_has_mask w) (websocket_is_fin w) (websocket_size w) (websocket_pktsize w) (websocket_last_ping w)
    (websocket_last_pong w) (websocket_closed w) (continuation w) (resp w) (conn w) (waits w) (clock w).

Context (env : heap_env) (P : proto) (wc : writer_conf) (cf : ws_conf).

Definition upsgi_now (w : ws) : Z * ws :=
  match w.(clock) with [] => (0, w) | now :: later => (now, w<|clock := later|>) end.

(** [upsgi_websockets_init] *)
Definition ping_frame : list Z := [137; 0].
Definition pong_frame : list Z := [138; 0].
Definition close_frame : list Z := [136; 0].

Definition send (bs : list Z) (w : ws) : outcome (Z * ws) :=
  let* (ret, r) := upsgi_response_write_body_do env P wc bs w.(resp) in Ret (ret, w<|resp := r|>).

(** * Sending *)

Definition upsgi_websocket_message (msg : list Z) (opcode : Z) (w : ws) : outcome (option upsgi_buffer * ws) :=
  let* ub := match w.(websocket_send_buf) with
             | None => upsgi_buffer_new env (u64 (10 + zlen msg))
             | Some ub => Ret (ub<|pos := 0|>)
             end in
  let len := zlen msg in
  let* (r, ub) :=
    (upsgi_buffer_u8 env opcode ;;;
     (if len <? 126 then upsgi_buffer_u8 env len
      else if len <=? 65535 then upsgi_buffer_u8 env 126 ;;; upsgi_buffer_u16be env len
      else upsgi_buffer_u8 env 127 ;;; upsgi_buffer_u64be env len) ;;;
     upsgi_buffer_append env msg) ub in
  let w := w<|websocket_send_buf := Some ub|> in
  Ret (if r =? 0 then Some ub else None, w).

Definition upsgi_websocket_send_do (msg : list Z) (opcode : Z) (w : ws) : outcome (Z * ws) :=
  let* (ub, w) := upsgi_websocket_message msg opcode w in
  match ub with None => Ret (-1, w) | Some ub => send (contents ub) w end.

Definition send_op (opcode : Z) (msg : list Z) (w : ws) : outcome (Z * ws) :=
  if w.(websocket_closed) then Ret (-1, w)
  else
    let* (ret, w) := upsgi_websocket_send_do msg opcode w in
    Ret (ret, if ret <? 0 then w<|websocket_closed := true|> else w).

Definition upsgi_websocket_send : list Z -> ws -> outcome (Z * ws) := send_op 129.
Definition upsgi_websocket_send_binary : list Z -> ws -> outcome (Z * ws) := send_op 130.

(** * Keep-alive *)

Definition upsgi_websockets_ping (w : ws) : outcome (Z * ws) :=
  let* (ret, w) := send ping_frame w in
  if negb (ret =? 0) then Ret (-1, w)
  else let '(now, w) := upsgi_now w in Ret (0, w<|websocket_last_ping := now|>).

Definition upsgi_websockets_check_pingpong (w : ws) : outcome (Z * ws) :=
  let '(now, w) := upsgi_now w in
  (* first round *)
  if w.(websocket_last_ping) =? 0 then upsgi_websockets_ping w
  (* pong not received? *)
  else if w.(websocket_last_pong) <? w.(websocket_last_ping) then
    if cf.(websockets_pong_tolerance) <? now - w.(websocket_last_ping) then Ret (-1, w) else Ret (0, w)
  (* pong received, send another ping *)
  else if cf.(websockets_ping_freq) <=? now - w.(websocket_last_ping) then upsgi_websockets_ping w
  else Ret (0, w).

(** * Receiving *)

(** Bytes for the end of [websocket_buf]; [None] is a result of [-1]. *)
Definition read_into (w : ws) : outcome (recv_result * ws) :=
  match w.(websocket_buf) with
  | None => Fault
  | Some ub =>
      let* (res, c) := proto_read_body (u64 (ub.(len) - ub.(pos))) w.(conn) in
      let w := w<|conn := c|> in
      match res with
      | Received bs => let* b := mwrite ub.(buf) ub.(pos) bs in Ret (res, w<|websocket_buf := Some (ub<|buf := b|>)|>)
      | _ => Ret (res, w)
      end
  end.

(** [upsgi_websockets_recv_pkt] that waits: every iteration but the last one
    uses a result of the wait hook; the list ends with a failing one. *)
Fixpoint recv_pkt_wait (ws_waits : list Z) (w : ws) : outcome (Z * ws) :=
  let* (res, w) := read_into w in
  match res with
  | Received bs => Ret (zlen bs, w<|waits := ws_waits|>)
  | PeerClosed | ReadFailed => Ret (-1, w<|waits := ws_waits|>)
  | WouldBlock =>
      match ws_waits with
      | [] => Ret (-1, w<|waits := []|>)
      | ret :: ws_waits =>
          let w := w<|waits := ws_waits|> in
          if 0 <? ret then
            let* (res, w) := read_into w in
            match res with
            | Received bs => Ret (zlen bs, w)
            | _ => Ret (-1, w)
            end
          else if ret <? 0 then Ret (-1, w)
          else
            let* (ret, w) := upsgi_websockets_check_pingpong w in
            if negb (ret =? 0) then Ret (-1, w) else recv_pkt_wait ws_waits w
      end
  end.

Definition upsgi_websockets_recv_pkt (nb : bool) (w : ws) : outcome (Z * ws) :=
  if nb then
    let* (res, w) := read_into w in
    match res with
    | Received bs => Ret (zlen bs, w)
    | PeerClosed | ReadFailed => Ret (-1, w)
    | WouldBlock => let* (ret, w) := upsgi_websockets_check_pingpong w in Ret (if negb (ret =? 0) then -1 else 0, w)
    end
  else recv_pkt_wait w.(waits) w.

Definition upsgi_websocket_parse_header (ub : upsgi_buffer) (w : ws) : outcome ws :=
  let* byte1 := mread ub.(buf) 0 in
  let* byte2 := mread ub.(buf) 1 in
  Ret (w<|websocket_is_fin := Z.shiftr byte1 7|><|websocket_opcode := Z.land byte1 15|>
        <|websocket_has_mask := Z.shiftr byte2 7|><|websocket_size := Z.land byte2 127|>).

(** [ptr[i] ^ mask[i % 4]] *)
Fixpoint unmask (i : Z) (mask data : list Z) : list Z :=
  match data with
  | [] => []
  | c :: data => Z.lxor c (default 0 (mask !! Z.to_nat (i mod 4))) :: unmask (i + 1) mask data
  end.

(** The payload of the frame in the buffer, which is unmasked in place. *)
Definition payload (ub : upsgi_buffer) (w : ws) : outcome (list Z * upsgi_buffer) :=
  let off := u64 (w.(websocket_pktsize) - w.(websocket_size)) in
  let* data := mslice ub.(buf) off w.(websocket_size) in
  if negb (w.(websocket_has_mask) =? 0) then
    let* mask := mslice ub.(buf) (off - 4) 4 in
    let data := unmask 0 mask data in
    let* b := mwrite ub.(buf) off data in Ret (data, ub<|buf := b|>)
  else Ret (data, ub).

Definition upsgi_be64 (m : list Z) (i : Z) : outcome Z :=
  let* hi := Fastcgi.upsgi_be32 m i in
  let* lo := Fastcgi.upsgi_be32 m (i + 4) in
  Ret (2 ^ 32 * hi + lo).

(** [upsgi_websockets_parse]; the buffer it returns is the caller's. *)
Definition upsgi_websockets_parse (w : ws) : outcome (option upsgi_buffer * ws) :=
  match w.(websocket_buf) with
  | None => Fault
  | Some wb =>
      let* (data, wb) := payload wb w in
      let w := w<|websocket_buf := Some wb|> in
      let* ub :=
        if w.(websocket_opcode) =? 0 then
          match w.(continuation) with
          | None => Fault (* [upsgi_buffer_destroy(NULL)] *)
          | Some ub => Ret ub
          end
        else upsgi_buffer_new env w.(websocket_size) in
      let error w := Ret (None, w<|continuation := None|>) in
      let* (r, ub) := upsgi_buffer_append env data ub in
      if negb (r =? 0) then error w
      else
        let* (r, wb) := upsgi_buffer_decapitate w.(websocket_pktsize) wb in
        if negb (r =? 0) then error w
        else
          let w := w<|websocket_buf := Some wb|><|websocket_phase := 0|><|websocket_need := 2|> in
          if negb (w.(websocket_is_fin) =? 0) then Ret (Some ub, w<|continuation := None|>)
          else
            let w := w<|continuation := Some ub|> in
            let* ub := upsgi_buffer_new env 1 in
            let* (_, ub) := upsgi_buffer_append env [0] ub in
            Ret (Some ub, w)
  end.

(** An iteration of the loop of [upsgi_websocket_recv_do]. *)
Inductive ws_step : Type :=
| Again (w : ws)
| Done (ub : option upsgi_buffer) (w : ws).

Definition phase0 (ub : upsgi_buffer) (w : ws) : outcome ws_step :=
  let* w := upsgi_websocket_parse_header ub w in
  let w := w<|websocket_pktsize := 2 + w.(websocket_has_mask) * 4|> in
  Ret (Again
    (if w.(websocket_size) =? 126 then
       w<|websocket_need := u64 (w.(websocket_need) + 2)|><|websocket_phase := 1|><|websocket_pktsize := w.(websocket_pktsize) + 2|>
     else if w.(websocket_size) =? 127 then
       w<|websocket_need := u64 (w.(websocket_need) + 8)|><|websocket_phase := 1|><|websocket_pktsize := w.(websocket_pktsize) + 8|>
     else w<|websocket_phase := 2|>)).

Definition phase1 (ub : upsgi_buffer) (w : ws) : outcome ws_step :=
  let* size := if w.(websocket_size) =? 126 then let* n := Fastcgi.upsgi_be16 ub.(buf) 2 in Ret (Some n)
               else if w.(websocket_size) =? 127 then let* n := upsgi_be64 ub.(buf) 2 in Ret (Some n)
               else Ret None in
  match size with
  | None => Ret (Done None w)
  | Some size =>
      let w := w<|websocket_size := size|> in
      if u64 (cf.(websockets_max_size) * 1024) <? size then Ret (Done None w) else Ret (Again (w<|websocket_phase := 2|>))
  end.

Definition phase2 (w : ws) : ws :=
  if negb (w.(websocket_has_mask) =? 0) then w<|websocket_need := u64 (w.(websocket_need) + 4)|><|websocket_phase := 3|>
  else w<|websocket_need := u64 (w.(websocket_need) + w.(websocket_size))|>
        <|websocket_pktsize := u64 (w.(websocket_pktsize) + w.(websocket_size))|><|websocket_phase := 4|>.

Definition phase3 (w : ws) : ws :=
  w<|websocket_pktsize := u64 (w.(websocket_pktsize) + w.(websocket_size))|>
   <|websocket_need := u64 (w.(websocket_need) + w.(websocket_size))|><|websocket_phase := 4|>.

(** The end of a control frame. *)
Definition drop_frame (w : ws) : outcome ws_step :=
  let w := w<|websocket_phase := 0|><|websocket_need := 2|> in
  match w.(websocket_buf) with
  | None => Fault
  | Some ub =>
      let* (r, ub) := upsgi_buffer_decapitate w.(websocket_pktsize) ub in
      let w := w<|websocket_buf := Some ub|> in
      Ret (if negb (r =? 0) then Done None w else Again w)
  end.

Definition phase4 (w : ws) : outcome ws_step :=
  let op := w.(websocket_opcode) in
  if (op =? 0) || (op =? 1) || (op =? 2) then let* (ub, w) := upsgi_websockets_parse w in Ret (Done ub w)
  else if op =? 8 then let* (_, w) := send close_frame w in Ret (Done None w)
  else if op =? 9 then
    let* (ret, w) := send pong_frame w in
    if negb (ret =? 0) then Ret (Done None w) else drop_frame w
  else if op =? 10 then let '(now, w) := upsgi_now w in drop_frame (w<|websocket_last_pong := now|>)
  else drop_frame w.

Definition recv_step (nb : bool) (w : ws) : outcome ws_step :=
  match w.(websocket_buf) with
  | None => Fault
  | Some ub =>
      if w.(websocket_need) <=? ub.(pos) then
        if w.(websocket_phase) =? 0 then phase0 ub w
        else if w.(websocket_phase) =? 1 then phase1 ub w
        else if w.(websocket_phase) =? 2 then Ret (Again (phase2 w))
        else if w.(websocket_phase) =? 3 then Ret (Again (phase3 w))
        else if w.(websocket_phase) =? 4 then phase4 w
        else Ret (Done None w)
      else
        let* (r, ub) := upsgi_buffer_ensure env env.(page_size) ub in
        let w := w<|websocket_buf := Some ub|> in
        if negb (r =? 0) then Ret (Done None w)
        else
          let* (len, w) := upsgi_websockets_recv_pkt nb w in
          if len <=? 0 then
            if nb && (len =? 0) then let* ub := upsgi_buffer_new env 0 in Ret (Done (Some ub) w)
            else Ret (Done None w)
          else match w.(websocket_buf) with
               | None => Fault
               | Some ub => Ret (Again (w<|websocket_buf := Some (ub<|pos := u64 (ub.(pos) + len)|>)|>))
               end
  end.

Fixpoint recv_loop (fuel : nat) (nb : bool) (w : ws) : outcome (option upsgi_buffer * ws) :=
  match fuel with
  | O => NoFuel
  | S fuel =>
      let* st := recv_step nb w in
      match st with
      | Again w => recv_loop fuel nb w
      | Done ub w => Ret (ub, w)
      end
  end.

Definition upsgi_websocket_recv_do (fuel : nat) (nb : bool) (w : ws) : outcome (option upsgi_buffer * ws) :=
  match w.(websocket_buf) with
  | Some _ => recv_loop fuel nb w
  | None =>
      let* ub := upsgi_buffer_new env env.(page_size) in
      recv_loop fuel nb (w<|websocket_buf := Some ub|><|websocket_need := 2|>)
  end.

Definition clear_continuation_buffer (w : ws) : ws := w<|continuation := None|>.

Definition recv_mode (nb : bool) (fuel : nat) (w : ws) : outcome (option upsgi_buffer * ws) :=
  if w.(websocket_closed) then Ret (None, w)
  else
    let* (ub, w) := upsgi_websocket_recv_do fuel nb w in
    match ub with
    | None => Ret (None, (clear_continuation_buffer w)<|websocket_closed := true|>)
    | Some ub => Ret (Some ub, w)
    end.

Definition upsgi_websocket_recv : nat -> ws -> outcome (option upsgi_buffer * ws) := recv_mode false.
Definition upsgi_websocket_recv_nb : nat -> ws -> outcome (option upsgi_buffer * ws) := recv_mode true.

(** * The handshake *)

Definition on_resp (f : response -> outcome (Z * response)) (w : ws) : outcome (Z * ws) :=
  let* (ret, r) := f w.(resp) in Ret (ret, w<|resp := r|>).

(** Steps that stop at the first one that fails. *)
Definition step_then (f g : ws -> outcome (Z * ws)) (w : ws) : outcome (Z * ws) :=
  let* (ret, w) := f w in if negb (ret =? 0) then Ret (-1, w) else g w.

Definition header (k v : list Z) : ws -> outcome (Z * ws) := on_resp (upsgi_response_add_header env P wc k v).

Definition ws_guid : list Z := chars "258EAFA5-E914-47DA-95CA-C5AB0DC85B11".

(** [req_key], [req_origin] and [req_proto] are the headers of the request;
    [sha1] is that of OpenSSL. *)
Definition upsgi_websocket_handshake (sha1 : list Z -> option (list Z)) (req_key req_origin req_proto key origin proto : list Z) (w : ws)
    : outcome (Z * ws) :=
  let key := if zlen key =? 0 then req_key else key in
  if zlen key =? 0 then Ret (-1, w)
  else
    step_then (on_resp (upsgi_response_prepare_headers env P wc (chars "101 Web Socket Protocol Handshake")))
   (step_then (header (chars "Upgrade") (chars "WebSocket"))
   (step_then (header (chars "Connection") (chars "Upgrade"))
   (* if origin was requested or proto_len is specified, send it back *)
   (step_then (if (0 <? zlen req_origin) || (0 <? zlen origin)
               then header (chars "Sec-WebSocket-Origin") (if zlen origin =? 0 then req_origin else origin)
               else header (chars "Sec-WebSocket-Origin") (chars "*"))
   (step_then (if (0 <? zlen req_proto) || (0 <? zlen proto)
               then header (chars "Sec-WebSocket-Protocol") (if zlen proto =? 0 then req_proto else proto)
               else fun w => Ret (0, w))
   (fun w =>
      match sha1 (key ++ ws_guid) with
      | None => Ret (-1, w)
      | Some digest =>
          step_then (header (chars "Sec-WebSocket-Accept") (Base64.upsgi_base64_encode digest))
            (fun w =>
               let '(now, w) := upsgi_now w in
               on_resp (upsgi_response_write_headers_do env P wc) (w<|websocket_last_pong := now|>)) w
      end))))) w.

End websocket.
Arguments ws C : clear implicits.
#[export] Existing Instance expand_ws.

End Websocket.
