(* ===== verification/WebsocketProofs.v ===== *)
(** The theorems on WebSocket frames: what a sender encodes is what a receiver
    gets, in whatever pieces it arrives. *)
From S2P Require Import Prelude Clib Buffer Packet ProtoBase Writer Http Fastcgi FastcgiProofs Reader ReaderProofs Base64 Websocket.

(** * A connection that delivers

    The next bytes are there whenever there are any. *)
Class EagerSource (C : Type) `{BodySourceOk C} : Type := {
  eager : C -> Prop;
  eager_ok len c : eager c -> 0 < len < 2 ^ 64 -> pending c <> [] ->
    exists bs c', proto_read_body len c = Ret (Received bs, c') /\ eager c' /\ pending c = bs ++ pending c' /\ 0 < zlen bs <= len;
}.

Definition delivers (r : Http.read_result) : Prop := match r with Http.RData bs => bs <> [] | _ => False end.

#[export] Instance base_eager : EagerSource base_conn.
Proof.
  refine {| eager c := Forall delivers c.(reads) |}.
  intros len [rem rs] He Hl Hp. cbn in He. unfold proto_read_body, base_source, ProtoBase.upsgi_proto_base_read_body. cbn.
  destruct (sys_read len rs) as [[[n bs] again] rs'] eqn:E. pose proof E as E'. apply sys_read_spec in E as (Hd & Hn & Hz & Hle); [|lia].
  pose proof (zlen_nonneg rem) as H0. destruct (Z.ltb_spec 0 (zlen rem)) as [Hr|Hr].
  - rewrite UMIN_spec. destruct (Z.ltb_spec 0 (Z.min (zlen rem) len)); [|lia]. eexists _, _. split; [done|]. split; [done|].
    cbn. rewrite app_assoc, ztake_zdrop. split; [done|]. rewrite zlen_take; lia.
  - assert (rem = []) as -> by (apply zlen_zero_inv; lia). cbn in Hp |- *. destruct rs as [|r rs]; [by cbn in Hp|].
    apply Forall_cons in He as [Hr1 He]. destruct r as [d| | |]; [|done..]. cbn in Hr1, E'. injection E' as <- <- <- <-.
    assert (0 < zlen (ztake len d)) as Hlen.
    { destruct d as [|x d]; [done|]. rewrite ztake_cons by lia. rewrite zlen_cons. pose proof (zlen_nonneg (ztake (len - 1) d)). lia. }
    destruct (Z.ltb_spec 0 (zlen (ztake len d))); [|lia]. eexists _, _. split; [done|]. split; [|split; [exact Hd | lia]].
    cbn. destruct (Z.leb_spec (zlen d) len); [done|]. constructor; [|done]. cbn. intros E. apply (f_equal zlen) in E.
    rewrite zlen_drop in E by lia. change (zlen []) with 0 in E. lia.
Defined.

Module WebsocketProofs.
Import Writer ReaderProofs Websocket.

(** * Frames *)

Record frame : Type := mk_frame { fin : bool; op : Z; mask : option (list Z); data : list Z }.

Definition flag (b : bool) : Z := if b then 128 else 0.
Definition is_masked (f : frame) : bool := match f.(mask) with Some _ => true | None => false end.
Definition len7 (n : Z) : Z := if n <? 126 then n else if n <=? 65535 then 126 else 127.
Definition len_bytes (n : Z) : list Z := if n <? 126 then [] else if n <=? 65535 then be_bytes16 n else be_bytes64 n.
(** RFC 6455, 5.3: byte [i] is combined with byte [i mod 4] of the mask. *)
Definition mask_data (m d : list Z) : list Z := imap (fun i c => Z.lxor c (default 0 (m !! (i mod 4)%nat))) d.
Definition masked (f : frame) : list Z := match f.(mask) with Some m => mask_data m f.(data) | None => f.(data) end.
Definition head (f : frame) : list Z :=
  [flag f.(fin) + f.(op); flag (is_masked f) + len7 (zlen f.(data))] ++ len_bytes (zlen f.(data)) ++ default [] f.(mask).
Definition encode (f : frame) : list Z := head f ++ masked f.

Record frame_ok (cf : ws_conf) (f : frame) : Prop := {
  fo_op : 0 <= f.(op) < 16;
  fo_mask : match f.(mask) with Some m => zlen m = 4 | None => True end;
  fo_len : zlen f.(data) <= 125 \/ zlen f.(data) <= cf.(websockets_max_size) * 1024;
}.

Lemma mask_data_len m d : zlen (mask_data m d) = zlen d.
Proof. unfold mask_data, zlen. by rewrite length_imap. Qed.

Lemma unmask_imap m d n : unmask (Z.of_nat n) m (imap (fun i c => Z.lxor c (default 0 (m !! ((n + i) mod 4)%nat))) d) = d.
Proof.
  revert n. induction d as [|c d IH]; intros n; [done|]. rewrite imap_cons. cbn [unmask]. cbv beta.
  replace (Z.of_nat n + 1) with (Z.of_nat (S n)) by lia. rewrite Nat.add_0_r. f_equal.
  - change 4 with (Z.of_nat 4). rewrite <- Nat2Z.inj_mod, Nat2Z.id. by rewrite Z.lxor_assoc, Z.lxor_nilpotent, Z.lxor_0_r.
  - rewrite <- (IH (S n)) at 2. f_equal. apply imap_ext. intros k x _. cbn [compose]. by rewrite <- Nat.add_succ_comm.
Qed.

Lemma unmask_masked m d : unmask 0 m (mask_data m d) = d.
Proof. exact (unmask_imap m d 0). Qed.

Lemma masked_len f : zlen (masked f) = zlen (data f).
Proof. unfold masked. destruct (mask f); [apply mask_data_len | done]. Qed.

Lemma flag_bits b n k : 0 <= n < 128 -> k = 15 /\ n < 16 \/ k = 127 -> Z.shiftr (flag b + n) 7 = (if b then 1 else 0) /\ Z.land (flag b + n) k = n.
Proof.
  intros Hn Hk. rewrite Z.shiftr_div_pow2 by lia. split.
  - destruct b; cbn [flag]; [replace (128 + n) with (n + 1 * 2 ^ 7) by lia; rewrite Z.div_add by lia|]; rewrite Z.div_small by lia; lia.
  - destruct Hk as [[-> Hn']| ->]; [change 15 with (Z.ones 4) | change 127 with (Z.ones 7)]; rewrite Z.land_ones by lia; destruct b; cbn [flag].
    + replace (128 + n) with (n + 8 * 2 ^ 4) by lia. rewrite Z.mod_add by lia. apply Z.mod_small. lia.
    + apply Z.mod_small. lia.
    + replace (128 + n) with (n + 1 * 2 ^ 7) by lia. rewrite Z.mod_add by lia. apply Z.mod_small. lia.
    + apply Z.mod_small. lia.
Qed.

Lemma be16_be_bytes n l : 0 <= n < 2 ^ 16 -> Fastcgi.upsgi_be16 (be_bytes16 n ++ l) 0 = Ret n.
Proof.
  intros Hn. unfold Fastcgi.upsgi_be16. change (mread (be_bytes16 n ++ l) 0) with (Ret (octet n 8)).
  change (mread (be_bytes16 n ++ l) (0 + 1)) with (Ret (octet n 0)). cbn [obind]. rewrite !Packet.octet_id by lia. f_equal.
  change (2 ^ 8) with 256. change (2 ^ 0) with 1. rewrite Z.div_1_r. pose proof (Z.div_mod n 256).
  rewrite (Z.mod_small (n / 256)) by (split; [apply Z.div_pos; lia | apply Z.div_lt_upper_bound; lia]). lia.
Qed.

Lemma octet_low n k : 0 <= n -> 0 <= k <= 24 -> octet (n mod 2 ^ 32) k = octet n k.
Proof.
  intros Hn Hk. pose proof (Z.mod_pos_bound n (2 ^ 32)). rewrite !Packet.octet_id by lia.
  rewrite (Z.div_mod n (2 ^ 32)) at 2 by lia. set (q := n / 2 ^ 32). set (r := n mod 2 ^ 32).
  replace (2 ^ 32 * q) with (2 ^ (32 - k) * q * 2 ^ k).
  2: { rewrite (Z.mul_comm (2 ^ (32 - k))), <- Z.mul_assoc, <- Z.pow_add_r by lia. replace (32 - k + k) with 32 by lia. lia. }
  rewrite Z.div_add_l by lia. replace (2 ^ (32 - k) * q) with (2 ^ (24 - k) * q * 256).
  2: { change 256 with (2 ^ 8). rewrite <- (Z.mul_comm q), <- Z.mul_assoc, <- Z.pow_add_r by lia. replace (24 - k + 8) with (32 - k) by lia. lia. }
  rewrite Z.add_comm, Z.mod_add by lia. done.
Qed.

Lemma octet_high n k : 0 <= n -> 0 <= k -> octet (n / 2 ^ 32) k = octet n (32 + k).
Proof.
  intros Hn Hk. rewrite !Packet.octet_id by (try lia; apply Z.div_pos; lia). by rewrite Z.div_div, <- Z.pow_add_r by lia.
Qed.

Lemma be64_be_bytes n l : 0 <= n < 2 ^ 64 -> upsgi_be64 (be_bytes64 n ++ l) 0 = Ret n.
Proof.
  intros Hn. unfold upsgi_be64.
  assert (be_bytes64 n = be_bytes32 (n / 2 ^ 32) ++ be_bytes32 (n mod 2 ^ 32)) as ->.
  { unfold be_bytes64, be_bytes32. cbn [app]. rewrite !octet_low, !octet_high by lia. done. }
  rewrite <- app_assoc, FastcgiProofs.be32_be_bytes by (split; [apply Z.div_pos; lia | apply Z.div_lt_upper_bound; lia]). cbn [obind].
  change (0 + 4) with (zlen (be_bytes32 (n / 2 ^ 32)) + 0). rewrite FastcgiProofs.be32_shift by lia.
  rewrite FastcgiProofs.be32_be_bytes by (apply Z.mod_pos_bound; lia). cbn [obind]. f_equal. pose proof (Z.div_mod n (2 ^ 32)). lia.
Qed.

(** * Reading a frame *)

Section proofs.
Context {C : Type} `{HE : EagerSource C}.
Context (env : heap_env) (P : proto) (wc : writer_conf) (cf : ws_conf).
Context `{Henv : !EnvOk env}.
Hypothesis heap_grants : forall n, n < 2 ^ 63 -> heap_ok env n = true.

(** The buffer of [w] and the connection hold the stream [s]. *)
Record holds (w : ws C) (ub : upsgi_buffer) (s : list Z) : Prop := {
  h_buf : w.(websocket_buf) = Some ub;
  h_ok : buffer_ok ub;
  h_limit : ub.(limit) = 0;
  h_eager : eager w.(conn);
  h_stream : contents ub ++ pending w.(conn) = s;
  h_small : zlen s < 2 ^ 61;
}.

(** What reading leaves alone. *)
Definition same_session (w w' : ws C) : Prop :=
  websocket_send_buf w' = websocket_send_buf w /\ websocket_last_ping w' = websocket_last_ping w /\
  websocket_last_pong w' = websocket_last_pong w /\ websocket_closed w' = websocket_closed w /\ continuation w' = continuation w /\
  Websocket.resp w' = Websocket.resp w /\ clock w' = clock w.

#[local] Instance same_session_refl : Reflexive same_session.
Proof. intros w. by split_and!. Qed.
#[local] Instance same_session_trans : Transitive same_session.
Proof. intros w1 w2 w3 (?&?&?&?&?&?&?) (?&?&?&?&?&?&?). split_and!; congruence. Qed.

(** And the state of the parser. *)
Definition same_parser (w w' : ws C) : Prop :=
  websocket_need w' = websocket_need w /\ websocket_phase w' = websocket_phase w /\ websocket_opcode w' = websocket_opcode w /\
  websocket_has_mask w' = websocket_has_mask w /\ websocket_is_fin w' = websocket_is_fin w /\ websocket_size w' = websocket_size w /\
  websocket_pktsize w' = websocket_pktsize w.

#[local] Instance same_parser_refl : Reflexive same_parser.
Proof. intros w. by split_and!. Qed.
#[local] Instance same_parser_trans : Transitive same_parser.
Proof. intros w1 w2 w3 (?&?&?&?&?&?&?) (?&?&?&?&?&?&?). split_and!; congruence. Qed.

(** [k] iterations of the loop lead from [w] to [w']. *)
Definition leads (nb : bool) (k : nat) (w w' : ws C) : Prop :=
  forall fuel, recv_loop env P wc cf (k + fuel) nb w = recv_loop env P wc cf fuel nb w'.

Lemma leads_step nb w w' : recv_step env P wc cf nb w = Ret (Again w') -> leads nb 1 w w'.
Proof. intros E fuel. cbn [Nat.add recv_loop]. by rewrite E. Qed.

Lemma leads_trans nb k k' w1 w2 w3 : leads nb k w1 w2 -> leads nb k' w2 w3 -> leads nb (k + k') w1 w3.
Proof. intros H1 H2 fuel. by rewrite <- Nat.add_assoc, H1, H2. Qed.

Lemma holds_pos w ub s : holds w ub s -> zlen (contents ub) = ub.(pos) /\ contents ub = ztake ub.(pos) s /\ 0 <= ub.(pos) <= zlen s.
Proof.
  intros [Hb Hok Hl He Hs Hsm]. pose proof (zlen_contents ub Hok) as Hc. pose proof Hok as []. subst s. rewrite zlen_app. zlen_facts.
  split; [done|]. split; [|lia]. by rewrite ztake_app_length.
Qed.

(** An iteration that reads. *)
Lemma fill_step nb w ub s :
  holds w ub s -> ub.(pos) < w.(websocket_need) <= zlen s ->
  exists w' ub', leads nb 1 w w' /\ holds w' ub' s /\ ub.(pos) < ub'.(pos) /\ same_session w w' /\ same_parser w w'.
Proof.
  intros Hh Hn. destruct (holds_pos w ub s Hh) as (Hc & _ & Hp). pose proof Hh as [Hb Hok Hl He Hs Hsm].
  assert (pending (conn w) <> []) as Hne by (intros E; rewrite E, app_nil_r in Hs; subst s; lia).
  pose proof env_page as Hpage. destruct (ensure_unlimited env (page_size env) ub Hok ltac:(lia) Hl) as (r & ub1 & Ee & Hok1 & Hc1 & Hp1 & Hl1 & Hr).
  assert (r = 0 /\ page_size env <= len ub1 - pos ub1) as [-> Hroom].
  { destruct Hr as [?|[-> ->]]; [done|]. exfalso. revert Ee. unfold upsgi_buffer_ensure. rewrite Hl. cbn [andb Z.ltb Z.compare]. pose proof Hok as [].
    rewrite (wrap_small 64 (len ub - pos ub)) by lia. zcase; [|done]. rewrite !wrap_small by (rewrite ?wrap_small; lia).
    unfold realloc, alloc_ok. rewrite heap_grants by lia. destruct (Z.ltb_spec (len ub + (page_size env - (len ub - pos ub))) (2 ^ 63)); [done | lia]. }
  pose proof Hok1 as [].
  destruct (eager_ok (len ub1 - pos ub1) (conn w) He ltac:(lia) Hne) as (bs & c' & Er & He' & Hp' & Hbs).
  set (w1 := w<|websocket_buf := Some ub1|>).
  destruct (slice_write (buf ub1) 0 (pos ub1) bs) as (b & Eb & Hbl & Hsl & _); [lia | lia|].
  assert (read_into w1 = Ret (Received bs, w1<|conn := c'|><|websocket_buf := Some (ub1<|buf := b|>)|>)) as Ei.
  { unfold read_into. change (websocket_buf w1) with (Some ub1). change (conn w1) with (conn w). cbn [obind].
    rewrite (wrap_small 64) by lia. rewrite Er. cbn [obind]. by rewrite Eb. }
  exists (w1<|conn := c'|><|websocket_buf := Some (ub1<|buf := b|><|pos := pos ub1 + zlen bs|>)|>), (ub1<|buf := b|><|pos := pos ub1 + zlen bs|>).
  split; [|split; [|split; [cbn; lia | split; [by split_and! | by split_and!]]]].
  - apply leads_step. unfold recv_step. rewrite Hb. destruct (Z.leb_spec (websocket_need w) (pos ub)); [lia|]. rewrite Ee. cbn [obind Z.eqb negb].
    change (w<|websocket_buf := Some ub1|>) with w1. unfold upsgi_websockets_recv_pkt.
    destruct nb; [|destruct (waits w1) as [|x xs] eqn:Ew; cbn [recv_pkt_wait]]; rewrite Ei; cbn [obind];
      (destruct (Z.leb_spec (zlen bs) 0); [lia|]); unfold setter; cbn; rewrite (wrap_small 64) by lia; try done;
      destruct w; cbn in *; subst; done.
  - assert (contents (ub1<|buf := b|><|pos := pos ub1 + zlen bs|>) = contents ub ++ bs) as Hc'.
    { rewrite <- Hc1. unfold contents. cbn. unfold slice in Hsl. rewrite !Z.sub_0_r, !zdrop_0 in Hsl. exact Hsl. }
    constructor; cbn; auto.
    + constructor; cbn; lia.
    + rewrite Hc', <- app_assoc, <- Hp'. exact Hs.
Qed.

Lemma fill nb w ub s :
  holds w ub s -> w.(websocket_need) <= zlen s ->
  exists k w' ub', leads nb k w w' /\ holds w' ub' s /\ w.(websocket_need) <= ub'.(pos) /\ ub.(pos) <= ub'.(pos) /\ same_session w w' /\ same_parser w w' /\
    Z.of_nat k <= ub'.(pos) - ub.(pos).
Proof.
  intros Hh Hn. remember (Z.to_nat (zlen s - pos ub)) as m eqn:Em. revert w ub Hh Hn Em. induction m as [m IH] using lt_wf_ind. intros w ub Hh Hn ->.
  destruct (holds_pos w ub s Hh) as (_ & _ & Hp). destruct (Z.le_gt_cases (websocket_need w) (pos ub)) as [Hle|Hgt].
  - exists 0%nat, w, ub. split; [by intros fuel|]. split; [done|]. split; [done|]. split; [lia|]. split; [reflexivity|]. split; [reflexivity | lia].
  - destruct (fill_step nb w ub s Hh ltac:(lia)) as (w1 & ub1 & L1 & Hh1 & Hp1 & S1 & P1). destruct (holds_pos w1 ub1 s Hh1) as (_ & _ & Hp').
    pose proof P1 as (En & _). destruct (IH (Z.to_nat (zlen s - pos ub1)) ltac:(lia) w1 ub1 Hh1 ltac:(lia) eq_refl) as (k & w2 & ub2 & L2 & Hh2 & H1 & H2 & S2 & P2 & Hk).
    exists (1 + k)%nat, w2, ub2. split; [by eapply leads_trans|]. split; [done|]. split; [lia|]. split; [lia|].
    split; [by etransitivity|]. split; [by etransitivity | lia].
Qed.


(** ** The header of a frame *)

Lemma mread_holds w ub s i : holds w ub s -> 0 <= i < ub.(pos) -> mread ub.(buf) i = mread s i.
Proof.
  intros Hh Hi. destruct (holds_pos w ub s Hh) as (Hc & _ & _). rewrite <- (h_stream w ub s Hh).
  rewrite <- (ztake_zdrop ub.(pos) ub.(buf)). change (ztake (pos ub) (buf ub)) with (contents ub). rewrite !mread_app_l by lia. done.
Qed.

Lemma be16_holds w ub s i : holds w ub s -> 0 <= i -> i + 2 <= ub.(pos) -> Fastcgi.upsgi_be16 ub.(buf) i = Fastcgi.upsgi_be16 s i.
Proof. intros Hh Hi Hp. unfold Fastcgi.upsgi_be16. by rewrite !(mread_holds w ub s) by (done || lia). Qed.

Lemma be64_holds w ub s i : holds w ub s -> 0 <= i -> i + 8 <= ub.(pos) -> upsgi_be64 ub.(buf) i = upsgi_be64 s i.
Proof. intros Hh Hi Hp. unfold upsgi_be64, Fastcgi.upsgi_be32. by rewrite !(mread_holds w ub s) by (done || lia). Qed.

Lemma be16_skip b1 b2 l : Fastcgi.upsgi_be16 (b1 :: b2 :: l) 2 = Fastcgi.upsgi_be16 l 0.
Proof.
  unfold Fastcgi.upsgi_be16. change (b1 :: b2 :: l) with ([b1; b2] ++ l).
  change 2 with (zlen [b1; b2] + 0) at 1. change (2 + 1) with (zlen [b1; b2] + 1). by rewrite !FastcgiProofs.mread_skip by lia.
Qed.

Lemma be64_skip b1 b2 l : upsgi_be64 (b1 :: b2 :: l) 2 = upsgi_be64 l 0.
Proof.
  unfold upsgi_be64. change (b1 :: b2 :: l) with ([b1; b2] ++ l).
  change 2 with (zlen [b1; b2] + 0) at 1. change (2 + 4) with (zlen [b1; b2] + 4). by rewrite !FastcgiProofs.be32_shift by lia.
Qed.

Definition bit (b : bool) : Z := if b then 1 else 0.

(** What the parser knows of [f]. *)
Record parsing (w : ws C) (f : frame) (phase need pkt size : Z) : Prop := {
  p_phase : w.(websocket_phase) = phase;
  p_need : w.(websocket_need) = need;
  p_pkt : w.(websocket_pktsize) = pkt;
  p_size : w.(websocket_size) = size;
  p_op : w.(websocket_opcode) = f.(op);
  p_mask : w.(websocket_has_mask) = bit (is_masked f);
  p_fin : w.(websocket_is_fin) = bit f.(fin);
}.

Lemma parsing_same w w' f a b c d : same_parser w w' -> parsing w f a b c d -> parsing w' f a b c d.
Proof. intros (?&?&?&?&?&?&?) []. constructor; congruence. Qed.

Lemma holds_same w w' ub s : holds w ub s -> websocket_buf w' = websocket_buf w -> conn w' = conn w -> holds w' ub s.
Proof. intros [] E1 E2. constructor; rewrite ?E1, ?E2; done. Qed.

(** [w] leads to a state where [need] bytes are there, with nothing else
    changed; the iterations are bounded by the bytes read plus [n]. *)
Definition reaches nb (n : Z) w (ub : upsgi_buffer) s w' ub' : Prop :=
  exists k, leads nb k w w' /\ holds w' ub' s /\ ub.(pos) <= ub'.(pos) /\ same_session w w' /\ Z.of_nat k <= ub'.(pos) - ub.(pos) + n.

Lemma reaches_trans nb n m w1 u1 w2 u2 w3 u3 s : reaches nb n w1 u1 s w2 u2 -> reaches nb m w2 u2 s w3 u3 -> reaches nb (n + m) w1 u1 s w3 u3.
Proof.
  intros (k1 & L1 & H1 & P1 & S1 & K1) (k2 & L2 & H2 & P2 & S2 & K2). exists (k1 + k2)%nat. split; [by eapply leads_trans|]. split; [done|].
  split; [lia|]. split; [by etransitivity | lia].
Qed.

(** [w] with the parser at a given place of [f]. *)
Definition set_parser (w : ws C) (f : frame) (phase need pkt size : Z) : ws C :=
  mk_ws w.(websocket_buf) w.(websocket_send_buf) need phase f.(op) (bit (is_masked f)) (bit f.(fin)) size pkt w.(websocket_last_ping)
    w.(websocket_last_pong) w.(websocket_closed) w.(continuation) w.(Websocket.resp) w.(conn) w.(waits) w.(clock).

Lemma reaches_step nb w ub s f phase need pkt size :
  holds w ub s -> recv_step env P wc cf nb w = Ret (Again (set_parser w f phase need pkt size)) ->
  exists w', reaches nb 1 w ub s w' ub /\ parsing w' f phase need pkt size.
Proof.
  intros Hh Es. exists (set_parser w f phase need pkt size). split; [|by constructor]. exists 1%nat. split; [by apply leads_step|]. split; [by eapply holds_same|]. split; [lia|].
  split; [by split_and! | lia].
Qed.

Lemma parsing_fill nb w ub s f phase need pkt size :
  holds w ub s -> parsing w f phase need pkt size -> need <= zlen s ->
  exists w' ub', reaches nb 0 w ub s w' ub' /\ parsing w' f phase need pkt size /\ need <= ub'.(pos).
Proof.
  intros Hh Hp Hn. pose proof (p_need _ _ _ _ _ _ Hp) as En. destruct (fill nb w ub s Hh ltac:(lia)) as (k & w' & ub' & L & Hh' & Hle & Hge & Ss & Sp & Hk).
  exists w', ub'. split; [|split; [by eapply parsing_same | lia]]. exists k. split; [done|]. split; [done|]. split; [done|]. split; [done | lia].
Qed.

Lemma recv_ready nb w ub :
  w.(websocket_buf) = Some ub -> w.(websocket_need) <= ub.(pos) ->
  recv_step env P wc cf nb w =
    if w.(websocket_phase) =? 0 then phase0 ub w else if w.(websocket_phase) =? 1 then phase1 cf ub w
    else if w.(websocket_phase) =? 2 then Ret (Again (phase2 w)) else if w.(websocket_phase) =? 3 then Ret (Again (phase3 w))
    else if w.(websocket_phase) =? 4 then phase4 env P wc w else Ret (Done None w).
Proof. intros Eb Hn. unfold recv_step. rewrite Eb. destruct (Z.leb_spec (websocket_need w) (pos ub)); [done | lia]. Qed.

Definition ext (f : frame) : Z := zlen (len_bytes (zlen f.(data))).
Definition mask_len (f : frame) : Z := 4 * bit (is_masked f).

Lemma ext_cases f : ext f = if len7 (zlen f.(data)) =? 126 then 2 else if len7 (zlen f.(data)) =? 127 then 8 else 0.
Proof. unfold ext, len7, len_bytes. repeat zcase; try done; lia. Qed.

Lemma len7_range n : 0 <= n -> 0 <= len7 n < 128.
Proof. intros. unfold len7. repeat zcase; lia. Qed.

Lemma head_len f : frame_ok cf f -> zlen (head f) = 2 + ext f + mask_len f.
Proof.
  intros [_ Hm _]. unfold head, ext, mask_len, is_masked. rewrite !zlen_app, !zlen_cons, zlen_nil.
  destruct (mask f) as [m|]; [change (default [] (Some m)) with m | change (zlen (default [] None)) with 0]; cbn [bit]; lia.
Qed.

Lemma encode_len f : frame_ok cf f -> zlen (encode f) = 2 + ext f + mask_len f + zlen f.(data).
Proof. intros Hf. unfold encode. by rewrite zlen_app, masked_len, head_len. Qed.

Lemma ext_nonneg f : 0 <= ext f.
Proof. apply zlen_nonneg. Qed.

Lemma encode_split f rest :
  encode f ++ rest = (flag f.(fin) + f.(op)) :: (flag (is_masked f) + len7 (zlen f.(data))) :: len_bytes (zlen f.(data)) ++ default [] f.(mask) ++ masked f ++ rest.
Proof. unfold encode, head. cbn [app]. by rewrite <- !app_assoc. Qed.

Lemma phase0_sets ub w f :
  mread ub.(buf) 0 = Ret (flag f.(fin) + f.(op)) -> mread ub.(buf) 1 = Ret (flag (is_masked f) + len7 (zlen f.(data))) ->
  0 <= f.(op) < 16 -> w.(websocket_need) = 2 ->
  phase0 ub w = Ret (Again (set_parser w f (if ext f =? 0 then 2 else 1) (2 + ext f) (2 + ext f + mask_len f) (len7 (zlen f.(data))))).
Proof.
  intros E0 E1 Hop En. zlen_facts. pose proof (len7_range (zlen (data f)) ltac:(lia)) as H7.
  destruct (flag_bits (fin f) (op f) 15) as [F1 O1]; [lia | lia|].
  destruct (flag_bits (is_masked f) (len7 (zlen (data f))) 127) as [F2 O2]; [lia | lia|].
  unfold phase0, upsgi_websocket_parse_header. rewrite E0, E1. cbn [obind]. rewrite F1, O1, F2, O2, ext_cases.
  unfold mask_len, bit. destruct w. cbn in En. subst. lazy -[wrap Z.mul Z.add Z.eqb len7 zlen is_masked fin op data].
  destruct (len7 (zlen (data f)) =? 126); [|destruct (len7 (zlen (data f)) =? 127)]; rewrite ?wrap_small by done; do 3 f_equal; lia.
Qed.

(** Phase 0: the two bytes that start every frame. *)
Lemma phase0_step nb w ub f rest :
  frame_ok cf f -> holds w ub (encode f ++ rest) -> 2 <= ub.(pos) -> w.(websocket_phase) = 0 -> w.(websocket_need) = 2 ->
  exists w', reaches nb 1 w ub (encode f ++ rest) w' ub /\
    parsing w' f (if ext f =? 0 then 2 else 1) (2 + ext f) (2 + ext f + mask_len f) (len7 (zlen f.(data))).
Proof.
  intros Hf Hh Hp Eph En. apply reaches_step; [done|]. rewrite recv_ready with (ub := ub) by (apply Hh || lia). rewrite Eph. cbn [Z.eqb Pos.eqb].
  apply phase0_sets; [..|apply Hf|done]; rewrite (mread_holds w ub _ _ Hh) by lia; by rewrite encode_split.
Qed.

Lemma set_phase2 w f need pkt size n :
  parsing w f 1 need pkt size -> Ret (Again (w<|websocket_size := n|><|websocket_phase := 2|>)) = Ret (Again (set_parser w f 2 need pkt n)).
Proof. intros [E1 E2 E3 E4 E5 E6 E7]. unfold set_parser. rewrite <- E2, <- E3, <- E5, <- E6, <- E7. by destruct w. Qed.

(** Phase 1: a longer size. *)
Lemma phase1_step nb w ub f rest :
  frame_ok cf f -> 0 <= cf.(websockets_max_size) * 1024 < 2 ^ 64 -> holds w ub (encode f ++ rest) -> ext f <> 0 -> 2 + ext f <= ub.(pos) ->
  parsing w f 1 (2 + ext f) (2 + ext f + mask_len f) (len7 (zlen f.(data))) ->
  exists w', reaches nb 1 w ub (encode f ++ rest) w' ub /\ parsing w' f 2 (2 + ext f) (2 + ext f + mask_len f) (zlen f.(data)).
Proof.
  intros Hf Hcf Hh Hx Hp Hpa. pose proof Hpa as [Eph En Epk Esz Eop Ema Efi]. pose proof Hf as [_ _ Hlen]. zlen_facts. pose proof (h_small _ _ _ Hh) as Hsm.
  rewrite zlen_app, encode_len in Hsm by done. pose proof (ext_nonneg f). pose proof (zlen_nonneg rest). unfold mask_len, bit in *.
  assert (zlen (data f) <= websockets_max_size cf * 1024 /\ zlen (data f) < 2 ^ 61) as [Hle Hd].
  { split; [|destruct (is_masked f); lia]. destruct Hlen; [|done]. exfalso. apply Hx. unfold ext, len_bytes. zcase; [done | lia]. }
  apply reaches_step; [done|].
  rewrite recv_ready with (ub := ub) by (apply Hh || lia). rewrite Eph. cbn [Z.eqb Pos.eqb]. unfold phase1. rewrite Esz.
  rewrite ext_cases in Hp, Hx. unfold len7 in *. pose proof (encode_split f rest) as Es. unfold len_bytes in Es.
  destruct (Z.ltb_spec (zlen (data f)) 126); [destruct (Z.eqb_spec (zlen (data f)) 126), (Z.eqb_spec (zlen (data f)) 127); lia|].
  destruct (Z.leb_spec (zlen (data f)) 65535); cbn [Z.eqb Pos.eqb] in Hp |- *.
  - rewrite (be16_holds w ub _ 2 Hh) by lia. rewrite Es, be16_skip, be16_be_bytes by lia. cbn [obind]. rewrite (wrap_small 64) by lia.
    destruct (Z.ltb_spec (websockets_max_size cf * 1024) (zlen (data f))); [lia | by eapply set_phase2].
  - rewrite (be64_holds w ub _ 2 Hh) by lia. rewrite Es, be64_skip, be64_be_bytes by lia. cbn [obind]. rewrite (wrap_small 64) by lia.
    destruct (Z.ltb_spec (websockets_max_size cf * 1024) (zlen (data f))); [lia | by eapply set_phase2].
Qed.

Lemma set_phase34 w f need pkt size :
  parsing w f 2 need pkt size -> 0 <= need < 2 ^ 63 -> 0 <= pkt < 2 ^ 63 -> 0 <= size < 2 ^ 63 ->
  phase2 w = if is_masked f then set_parser w f 3 (need + 4) pkt size else set_parser w f 4 (need + size) (pkt + size) size.
Proof.
  intros [E1 E2 E3 E4 E5 E6 E7] Hn Hp Hs. unfold phase2, set_parser. rewrite <- E5, <- E7, <- E4, <- E2, <- E3.
  destruct w. cbn in E1, E2, E3, E4, E6. subst. destruct (is_masked f); lazy -[wrap Z.add]; rewrite !(wrap_small 64) by lia; done.
Qed.

Lemma set_phase4 w f need pkt size :
  parsing w f 3 need pkt size -> 0 <= need < 2 ^ 63 -> 0 <= pkt < 2 ^ 63 -> 0 <= size < 2 ^ 63 ->
  phase3 w = set_parser w f 4 (need + size) (pkt + size) size.
Proof.
  intros [E1 E2 E3 E4 E5 E6 E7] Hn Hp Hs. unfold phase3, set_parser. rewrite <- E5, <- E6, <- E7, <- E4, <- E2, <- E3.
  destruct w. cbn in E1, E2, E3, E4. subst. lazy -[wrap Z.add]. rewrite !(wrap_small 64) by lia. done.
Qed.

(** From the start of a frame to its last byte. *)
Lemma frame_read nb w ub f rest :
  frame_ok cf f -> 0 <= cf.(websockets_max_size) * 1024 < 2 ^ 64 -> holds w ub (encode f ++ rest) ->
  w.(websocket_phase) = 0 -> w.(websocket_need) = 2 ->
  exists w' ub', reaches nb 4 w ub (encode f ++ rest) w' ub' /\ zlen (encode f) <= ub'.(pos) /\
    parsing w' f 4 (zlen (encode f)) (zlen (encode f)) (zlen f.(data)).
Proof.
  intros Hf Hcf Hh Eph En. set (s := encode f ++ rest) in *. pose proof (encode_len f Hf) as He. pose proof (ext_nonneg f) as Hx.
  assert (zlen (encode f) + zlen rest = zlen s) as Hz by (unfold s; by rewrite zlen_app). pose proof (h_small _ _ _ Hh) as Hsm. zlen_facts.
  assert (0 <= mask_len f <= 4) as Hm by (unfold mask_len, bit; destruct (is_masked f); lia).
  destruct (fill nb w ub s Hh ltac:(lia)) as (k & w0 & u0 & L & Hh0 & Hle & Hge & Ss & (Sn & Sp & _) & Hk).
  assert (reaches nb 0 w ub s w0 u0) as R0 by (exists k; split_and!; auto; lia).
  destruct (phase0_step nb w0 u0 f rest Hf Hh0 ltac:(lia) ltac:(congruence) ltac:(congruence)) as (w1 & R1 & P1).
  assert (exists w2 u2, reaches nb 1 w1 u0 s w2 u2 /\ parsing w2 f 2 (2 + ext f) (2 + ext f + mask_len f) (zlen (data f)) /\ 2 + ext f <= pos u2)
    as (w2 & u2 & R2 & P2 & Q2).
  { pose proof R1 as (_ & _ & Hh1 & _). destruct (Z.eqb_spec (ext f) 0) as [E|E].
    - exists w1, u0. split; [|split; [|lia]].
      + exists 0%nat. split; [by intros fuel|]. split; [done|]. split; [lia|]. split; [reflexivity | lia].
      + rewrite ext_cases in E. unfold len7 in *. destruct (zlen (data f) <? 126); [done|].
        destruct (zlen (data f) <=? 65535); done.
    - destruct (parsing_fill nb w1 u0 s _ _ _ _ _ Hh1 P1 ltac:(lia)) as (w2 & u2 & R2 & P2 & Q2). pose proof R2 as (_ & _ & Hh2 & _).
      destruct (phase1_step nb w2 u2 f rest Hf Hcf Hh2 E Q2 P2) as (w3 & R3 & P3). exists w3, u2. split; [|done].
      exact (reaches_trans nb 0 1 _ _ _ _ _ _ _ R2 R3). }
  pose proof R2 as (_ & _ & Hh2 & _).
  assert (exists w3 u3, reaches nb 2 w2 u2 s w3 u3 /\ parsing w3 f 4 (zlen (encode f)) (zlen (encode f)) (zlen (data f)) /\ pos u2 <= pos u3)
    as (w3 & u3 & R3 & P3 & Q3).
  { pose proof (recv_ready nb w2 u2 (h_buf _ _ _ Hh2)) as Er. rewrite (p_need _ _ _ _ _ _ P2), (p_phase _ _ _ _ _ _ P2) in Er.
    specialize (Er Q2). cbn [Z.eqb Pos.eqb] in Er. rewrite (set_phase34 _ f _ _ _ P2) in Er by lia. unfold mask_len, bit in *.
    destruct (is_masked f) eqn:Em.
    - destruct (reaches_step nb w2 u2 s f _ _ _ _ Hh2 Er) as (w3 & R3 & P3). pose proof R3 as (_ & _ & Hh3 & _).
      destruct (parsing_fill nb w3 u2 s _ _ _ _ _ Hh3 P3 ltac:(lia)) as (w4 & u4 & R4 & P4 & Q4). pose proof R4 as (_ & _ & Hh4 & Hge4 & _).
      pose proof (recv_ready nb w4 u4 (h_buf _ _ _ Hh4)) as Er4. rewrite (p_need _ _ _ _ _ _ P4), (p_phase _ _ _ _ _ _ P4) in Er4.
      specialize (Er4 Q4). cbn [Z.eqb Pos.eqb] in Er4. rewrite (set_phase4 _ f _ _ _ P4) in Er4 by lia.
      destruct (reaches_step nb w4 u4 s f _ _ _ _ Hh4 Er4) as (w5 & R5 & P5). exists w5, u4. split; [|split; [|lia]].
      + exact (reaches_trans nb 1 1 _ _ _ _ _ _ _ R3 (reaches_trans nb 0 1 _ _ _ _ _ _ _ R4 R5)).
      + rewrite He. replace (2 + ext f + 4 * 1 + zlen (data f)) with (2 + ext f + 4 + zlen (data f)) by lia. exact P5.
    - destruct (reaches_step nb w2 u2 s f _ _ _ _ Hh2 Er) as (w3 & (k3 & L3 & Hh3 & G3 & S3 & K3) & P3). exists w3, u2. split; [|split; [|lia]].
      + exists k3. split_and!; auto; lia.
      + rewrite He. replace (2 + ext f + 4 * 0 + zlen (data f)) with (2 + ext f + zlen (data f)) by lia.
        replace (2 + ext f + 4 * 0 + zlen (data f)) with (2 + ext f + zlen (data f)) in P3 by lia. exact P3. }
  pose proof R3 as (_ & _ & Hh3 & _). destruct (parsing_fill nb w3 u3 s _ _ _ _ _ Hh3 P3 ltac:(lia)) as (w4 & u4 & R4 & P4 & Q4).
  exists w4, u4. split; [|done].
  exact (reaches_trans nb 0 4 _ _ _ _ _ _ _ R0 (reaches_trans nb 1 3 _ _ _ _ _ _ _ R1 (reaches_trans nb 1 2 _ _ _ _ _ _ _ R2
    (reaches_trans nb 2 0 _ _ _ _ _ _ _ R3 R4)))).
Qed.

(** ** What is done with a frame *)

Lemma mslice_holds w ub s a n : holds w ub s -> 0 <= a -> 0 <= n -> a + n <= ub.(pos) -> mslice ub.(buf) a n = mslice s a n.
Proof.
  intros Hh Ha Hn Hp. destruct (holds_pos w ub s Hh) as (Hc & _ & _). pose proof (h_ok _ _ _ Hh) as []. rewrite <- (h_stream w ub s Hh).
  pose proof (zlen_nonneg (pending (conn w))). rewrite !mslice_ok by (rewrite ?zlen_app; lia). f_equal.
  transitivity (slice (buf ub) a (a + n)); [by unfold slice; rewrite Z.add_simpl_l|].
  rewrite <- (ztake_zdrop ub.(pos) ub.(buf)). change (ztake (pos ub) (buf ub)) with (contents ub). rewrite slice_prefix by lia.
  rewrite <- (slice_prefix (contents ub) (pending (conn w))) by lia. unfold slice. by rewrite Z.add_simpl_l.
Qed.

(** The end of [ub] behind the first [n] bytes. *)
Definition behind (n : Z) (ub : upsgi_buffer) : list Z := zdrop n (contents ub).

Lemma store_before n off ub bs :
  buffer_ok ub -> 0 <= off -> off + zlen bs = n -> n <= ub.(pos) ->
  exists b, mwrite ub.(buf) off bs = Ret b /\ buffer_ok (ub<|buf := b|>) /\ behind n (ub<|buf := b|>) = behind n ub.
Proof.
  intros [Hb Hp Hl] Ho Hn Hle. zlen_facts. eexists. split; [apply mwrite_ok; lia|]. rewrite Hn.
  assert (zlen (ztake off (buf ub) ++ bs) = n) as Hz by (rewrite zlen_app, zlen_take; lia). split.
  - constructor; cbn; try lia. rewrite app_assoc, zlen_app, Hz, zlen_drop by lia. lia.
  - unfold behind, contents. cbn. rewrite !app_assoc. pose proof (ztake_zdrop n (buf ub)) as Es.
    transitivity (ztake (pos ub - n) (zdrop n ((ztake off (buf ub) ++ bs) ++ zdrop n (buf ub)))).
    + unfold ztake, zdrop. rewrite skipn_firstn_comm. f_equal. lia.
    + rewrite zdrop_app_length by done. unfold ztake, zdrop. rewrite skipn_firstn_comm. f_equal. lia.
Qed.

Lemma encode_mask f m rest : mask f = Some m -> exists pre, encode f ++ rest = pre ++ m ++ masked f ++ rest /\ zlen pre = 2 + ext f.
Proof.
  intros Em. exists ([flag (fin f) + op f; flag (is_masked f) + len7 (zlen (data f))] ++ len_bytes (zlen (data f))). split.
  - rewrite encode_split, Em. cbn [app]. done.
  - by rewrite zlen_app.
Qed.

Lemma frame_payload w ub f rest :
  frame_ok cf f -> holds w ub (encode f ++ rest) -> zlen (encode f) <= ub.(pos) ->
  parsing w f 4 (zlen (encode f)) (zlen (encode f)) (zlen f.(data)) ->
  exists ub', payload ub w = Ret (f.(data), ub') /\ buffer_ok ub' /\ ub'.(limit) = 0 /\ ub'.(pos) = ub.(pos) /\
    behind (zlen (encode f)) ub' = behind (zlen (encode f)) ub.
Proof.
  intros Hf Hh Hp [_ _ Epk Esz _ Ema _]. pose proof (encode_len f Hf) as He. pose proof (head_len f Hf) as Hd. pose proof (ext_nonneg f) as Hx.
  pose proof (h_small _ _ _ Hh) as Hsm. rewrite zlen_app in Hsm. zlen_facts. pose proof (h_ok _ _ _ Hh) as Hok. pose proof (h_limit _ _ _ Hh) as Hlim.
  assert (0 <= mask_len f <= 4) as Hm by (unfold mask_len, bit; destruct (is_masked f); lia).
  unfold payload. rewrite Epk, Esz, Ema, (wrap_small 64) by lia. replace (zlen (encode f) - zlen (data f)) with (zlen (head f)) by lia.
  rewrite (mslice_holds w ub _ _ _ Hh) by lia. unfold encode at 1. rewrite <- app_assoc.
  rewrite mslice_at by (rewrite ?masked_len; done). cbn [obind]. unfold mask_len, masked, is_masked in *.
  pose proof (fo_mask _ _ Hf) as Hml. destruct (mask f) as [m|] eqn:Em; cbn [bit Z.eqb negb] in *; [|by eexists].
  rewrite (mslice_holds w ub _ _ _ Hh) by lia. destruct (encode_mask f m rest Em) as (pre & Epre & Hpre). rewrite Epre.
  rewrite mslice_at by lia. cbn [obind]. rewrite unmask_masked.
  destruct (store_before (zlen (encode f)) (zlen (head f)) ub (data f) Hok) as (b & Eb & Hok' & Hbh); [lia..|].
  rewrite Eb. cbn [obind]. eexists. split; [done|]. done.
Qed.

(** The frame goes. *)
Lemma frame_dropped w ub ub' f rest :
  holds w ub (encode f ++ rest) -> zlen (encode f) <= ub.(pos) -> buffer_ok ub' -> ub'.(limit) = 0 -> ub'.(pos) = ub.(pos) ->
  behind (zlen (encode f)) ub' = behind (zlen (encode f)) ub ->
  exists u, upsgi_buffer_decapitate (zlen (encode f)) ub' = Ret (0, u) /\
    forall w', w'.(websocket_buf) = Some u -> w'.(conn) = w.(conn) -> holds w' u rest.
Proof.
  intros Hh Hp Hok Hlim Epos Hbh. zlen_facts. destruct (holds_pos w ub _ Hh) as (Hc & _ & _). pose proof Hh as [_ _ _ He Hs Hsm].
  destruct (decapitate_cases (zlen (encode f)) ub' Hok ltac:(lia)) as [(_ & u & Ed & Hu & Hcu & _ & Hlu)|(Hlt & _)]; [|lia].
  exists u. split; [done|]. intros w' Eb Ec. rewrite zlen_app in Hsm.
  constructor; rewrite ?Ec; auto; [congruence | | lia].
  rewrite Hcu. change (zdrop (zlen (encode f)) (contents ub')) with (behind (zlen (encode f)) ub'). rewrite Hbh. unfold behind.
  rewrite <- zdrop_app_le by lia. rewrite Hs. by apply zdrop_app_length.
Qed.

(** ** Messages *)

Definition is_data (f : frame) : bool := (f.(op) =? 0) || (f.(op) =? 1) || (f.(op) =? 2).

(** Frames that no one answers: pongs and those with an unknown opcode. *)
Definition is_ignored (f : frame) : bool := negb (is_data f) && negb (f.(op) =? 8) && negb (f.(op) =? 9).

(** What the arrival of a data frame gives to the application, and what is
    kept for the rest of a message that comes in pieces. *)
Definition deliver (acc : option (list Z)) (f : frame) : option (list Z * option (list Z)) :=
  let whole := if f.(op) =? 0 then (.++ f.(data)) <$> acc else Some f.(data) in
  (fun d => if f.(fin) then (d, None) else ([0], Some d)) <$> whole.

(** The pieces in [continuation] are [acc], and [room] bytes may follow. *)
Definition keeps (room : Z) (cont : option upsgi_buffer) (acc : option (list Z)) : Prop :=
  match cont, acc with
  | None, None => 2 * env.(page_size) * room < 2 ^ 62
  | Some cb, Some d => buffer_ok cb /\ cb.(limit) = 0 /\ contents cb = d /\ cb.(len) + 2 * env.(page_size) * room < 2 ^ 62
  | _, _ => False
  end.

(** Between two frames: [s] is the stream that was not looked at. *)
Record ready (w : ws C) (ub : upsgi_buffer) (acc : option (list Z)) (s : list Z) : Prop := {
  r_closed : w.(websocket_closed) = false;
  r_phase : w.(websocket_phase) = 0;
  r_need : w.(websocket_need) = 2;
  r_holds : holds w ub s;
  r_keeps : keeps (zlen s) w.(continuation) acc;
}.

Lemma keeps_less room room' cont acc : keeps room cont acc -> 0 <= room' <= room -> keeps room' cont acc.
Proof.
  intros Hk Hr. pose proof env_page as Hpg. assert (2 * page_size env * room' <= 2 * page_size env * room) by (apply Z.mul_le_mono_nonneg_l; lia).
  unfold keeps in *. destruct cont, acc; try done; [destruct Hk as (?&?&?&?); split_and!; auto; lia | lia].
Qed.

Lemma new_granted n : 0 <= n < 2 ^ 62 ->
  exists ub, upsgi_buffer_new env n = Ret ub /\ buffer_ok ub /\ ub.(limit) = 0 /\ contents ub = [] /\ ub.(len) = n.
Proof.
  intros Hn. unfold upsgi_buffer_new, malloc, alloc_ok. destruct (Z.eqb_spec n 0) as [->|Hne].
  - eexists. split; [done|]. split; [by constructor|]. done.
  - rewrite heap_grants by lia. destruct (Z.ltb_spec n (2 ^ 63)); [|lia]. cbn [andb]. eexists. split; [done|].
    split; [constructor; cbn; rewrite ?zlen_rep; lia|]. done.
Qed.

(** What the buffer of a message becomes. *)
Lemma append_kept ub room consumed bs :
  buffer_ok ub -> ub.(limit) = 0 -> 0 <= room -> zlen bs < consumed -> ub.(len) + 2 * env.(page_size) * (consumed + room) < 2 ^ 62 + zlen bs + env.(page_size) ->
  exists u, upsgi_buffer_append env bs ub = Ret (0, u) /\ buffer_ok u /\ u.(limit) = 0 /\ contents u = contents ub ++ bs /\
    u.(len) + 2 * env.(page_size) * room < 2 ^ 62.
Proof.
  intros Hok Hl Hr Hc Hlen. pose proof env_page as Hpg. zlen_facts.
  assert (Z.max (zlen bs) (page_size env) + zlen bs + page_size env <= 2 * page_size env * consumed + 0) by nia.
  assert (0 <= 2 * page_size env * room) by nia.
  destruct (append_grows env bs ub) as (u & E & Hcu & Hok' & Hl' & Hle); auto; [lia|].
  exists u. split_and!; auto. lia.
Qed.

(** The buffer a message is collected in. *)
Lemma message_buffer room cont acc f d acc' :
  keeps (zlen (encode f) + room) cont acc -> deliver acc f = Some (d, acc') -> frame_ok cf f -> 0 <= room -> zlen (encode f) < 2 ^ 61 ->
  exists ub u, (if f.(op) =? 0 then match cont with None => Fault | Some ub => Ret ub end else upsgi_buffer_new env (zlen f.(data))) = Ret ub /\
    upsgi_buffer_append env f.(data) ub = Ret (0, u) /\ buffer_ok u /\ u.(limit) = 0 /\
    u.(len) + 2 * env.(page_size) * room < 2 ^ 62 /\ (d, acc') = if f.(fin) then (contents u, None) else ([0], Some (contents u)).
Proof.
  intros Hk Hd Hf Hr Hsm. pose proof (encode_len f Hf) as He. pose proof (ext_nonneg f). zlen_facts. pose proof env_page as Hpg.
  assert (0 <= mask_len f) as Hm by (unfold mask_len, bit; destruct (is_masked f); lia). unfold deliver in Hd.
  assert (0 <= 2 * page_size env * (zlen (encode f) + room)) by nia.
  destruct (Z.eqb_spec (op f) 0).
  - unfold keeps in Hk. destruct acc as [a|]; cbn in Hd; [|done]. destruct cont as [cb|]; [|done]. destruct Hk as (Hok & Hl & Hc & Hlen).
    pose proof Hok as [].
    destruct (append_kept cb room (zlen (encode f)) (data f)) as (u & Eu & Hu & Hul & Hcu & Hlu); auto; [lia..|].
    exists cb, u. split_and!; auto. rewrite Hcu, Hc. by destruct (fin f); injection Hd as <- <-.
  - cbn in Hd. assert (2 * page_size env * (zlen (encode f) + room) < 2 ^ 62) as Hroom.
    { unfold keeps in Hk. destruct cont as [cb|], acc; try done. destruct Hk as (Hok & _ & _ & Hlen). pose proof Hok as []. lia. }
    destruct (new_granted (zlen (data f)) ltac:(lia)) as (ub & Eb & Hok & Hl & Hc & Hlen).
    destruct (append_kept ub room (zlen (encode f)) (data f)) as (u & Eu & Hu & Hul & Hcu & Hlu); auto; [lia..|].
    exists ub, u. split_and!; auto. rewrite Hcu, Hc. cbn [app]. by destruct (fin f); injection Hd as <- <-.
Qed.

Lemma parse_delivers w ub acc f rest d acc' :
  frame_ok cf f -> deliver acc f = Some (d, acc') -> holds w ub (encode f ++ rest) -> zlen (encode f) <= ub.(pos) ->
  parsing w f 4 (zlen (encode f)) (zlen (encode f)) (zlen f.(data)) -> keeps (zlen (encode f ++ rest)) w.(continuation) acc ->
  w.(websocket_closed) = false ->
  exists m w' u, upsgi_websockets_parse env w = Ret (Some m, w') /\ contents m = d /\ ready w' u acc' rest /\ w'.(conn) = w.(conn).
Proof.
  intros Hf Hd Hh Hp Hpa Hk Hcl. pose proof (h_small _ _ _ Hh) as Hsm. rewrite zlen_app in Hk, Hsm. zlen_facts. pose proof env_page as Hpg.
  destruct (frame_payload w ub f rest Hf Hh Hp Hpa) as (wb & Epay & Hok & Hlim & Epos & Hbh).
  destruct (frame_dropped w ub wb f rest Hh Hp Hok Hlim Epos Hbh) as (u & Edec & Hnext).
  destruct (message_buffer _ _ _ _ _ _ Hk Hd Hf ltac:(lia) ltac:(lia)) as (mb & m & Emb & Eap & Hm & Hml & Hmlen & Hres).
  pose proof Hpa as [_ _ Epk Esz Eop _ Efi]. unfold upsgi_websockets_parse. rewrite (h_buf _ _ _ Hh), Epay. cbn [obind].
  change (websocket_opcode (w<|websocket_buf := Some wb|>)) with (websocket_opcode w).
  change (continuation (w<|websocket_buf := Some wb|>)) with (continuation w).
  change (websocket_size (w<|websocket_buf := Some wb|>)) with (websocket_size w).
  change (websocket_pktsize (w<|websocket_buf := Some wb|>)) with (websocket_pktsize w).
  rewrite Eop, Esz, Emb. cbn [obind]. rewrite Eap. cbn [obind Z.eqb negb]. rewrite Epk, Edec. cbn [obind Z.eqb negb].
  set (w1 := w<|websocket_buf := Some wb|><|websocket_buf := Some u|><|websocket_phase := 0|><|websocket_need := 2|>).
  change (websocket_is_fin w1) with (websocket_is_fin w). rewrite Efi. destruct (fin f) eqn:Ef; cbn [bit Z.eqb negb].
  - injection Hres as -> ->. eexists _, _, u. split; [reflexivity|]. split; [done|]. split; [|done].
    constructor; try done; [by apply Hnext|]. unfold keeps. cbn. pose proof Hm as []. lia.
  - injection Hres as -> ->. destruct (new_granted 1 ltac:(lia)) as (z & Ez & Hz & Hzl & Hzc & Hzlen). rewrite Ez. cbn [obind].
    destruct (append_grows env [0] z) as (z' & Ez' & Hcz' & _); auto; [rewrite Hzlen; change (zlen [0]) with 1; lia|].
    rewrite Ez'. cbn [obind]. eexists _, _, u. split; [reflexivity|]. split; [by rewrite Hcz', Hzc|]. split; [|done].
    constructor; try done; by apply Hnext.
Qed.

(** ** A session *)

(** A request whose session has read up to [s]: its first call allocates the
    buffer. *)
Definition idle (w : ws C) (acc : option (list Z)) (s : list Z) : Prop :=
  match w.(websocket_buf) with
  | Some ub => ready w ub acc s
  | None => w.(websocket_closed) = false /\ w.(websocket_phase) = 0 /\ eager w.(conn) /\ pending w.(conn) = s /\ zlen s < 2 ^ 61 /\
      keeps (zlen s) w.(continuation) acc
  end.

Hypothesis max_size : 0 <= cf.(websockets_max_size) * 1024 < 2 ^ 64.

Lemma ready_frame nb w ub acc f rest :
  frame_ok cf f -> ready w ub acc (encode f ++ rest) ->
  exists k w' ub', leads nb k w w' /\ Z.of_nat k <= zlen (pending w.(conn)) - zlen (pending w'.(conn)) + 4 /\
    holds w' ub' (encode f ++ rest) /\ zlen (encode f) <= ub'.(pos) /\ parsing w' f 4 (zlen (encode f)) (zlen (encode f)) (zlen f.(data)) /\
    same_session w w'.
Proof.
  intros Hf [Hcl Hph Hn Hh Hk]. destruct (frame_read nb w ub f rest Hf max_size Hh Hph Hn) as (w' & ub' & (k & L & Hh' & Hge & Ss & Hkk) & Hp & Hpa).
  exists k, w', ub'. split_and!; auto. destruct (holds_pos w ub _ Hh) as (Hc & _ & _), (holds_pos w' ub' _ Hh') as (Hc' & _ & _).
  pose proof (f_equal zlen (h_stream _ _ _ Hh)) as E1. pose proof (f_equal zlen (h_stream _ _ _ Hh')) as E2. rewrite zlen_app in E1, E2. lia.
Qed.

Lemma phase4_at nb w ub f : w.(websocket_buf) = Some ub -> zlen (encode f) <= ub.(pos) ->
  parsing w f 4 (zlen (encode f)) (zlen (encode f)) (zlen f.(data)) -> recv_step env P wc cf nb w = phase4 env P wc w.
Proof. intros Eb Hp [Eph En _ _ _ _ _]. rewrite (recv_ready nb w ub Eb) by lia. rewrite Eph. done. Qed.

(** An ignored frame goes unseen. *)
Lemma ignore_frame nb w ub acc f rest :
  frame_ok cf f -> is_ignored f = true -> ready w ub acc (encode f ++ rest) ->
  exists k w' u, leads nb k w w' /\ Z.of_nat k <= zlen (pending w.(conn)) - zlen (pending w'.(conn)) + 5 /\ ready w' u acc rest.
Proof.
  intros Hf Hi Hr. destruct (ready_frame nb w ub acc f rest Hf Hr) as (k & w1 & u1 & L & Hk & Hh & Hp & Hpa & (_ & _ & _ & Scl & Sco & _)).
  destruct (frame_dropped w1 u1 u1 f rest Hh Hp (h_ok _ _ _ Hh) (h_limit _ _ _ Hh) eq_refl eq_refl) as (u & Edec & Hnext).
  assert (exists w2, recv_step env P wc cf nb w1 = Ret (Again w2) /\ websocket_buf w2 = Some u /\ conn w2 = conn w1 /\ websocket_phase w2 = 0 /\
    websocket_need w2 = 2 /\ websocket_closed w2 = websocket_closed w1 /\ continuation w2 = continuation w1) as (w2 & E2 & Eb & Ec & Eph & En & Ecl & Eco).
  { rewrite (phase4_at nb w1 u1 f (h_buf _ _ _ Hh) Hp Hpa). unfold phase4. rewrite (p_op _ _ _ _ _ _ Hpa).
    unfold is_ignored, is_data in Hi. apply andb_true_iff in Hi as [Hi H9]. apply andb_true_iff in Hi as [Hd H8].
    apply negb_true_iff in Hd, H8, H9. rewrite Hd, H8, H9. pose proof (h_buf _ _ _ Hh) as Eb. pose proof (p_pkt _ _ _ _ _ _ Hpa) as Epk.
    assert (forall w0 : ws C, websocket_buf w0 = Some u1 -> websocket_pktsize w0 = zlen (encode f) -> drop_frame w0 =
      Ret (Again (w0<|websocket_phase := 0|><|websocket_need := 2|><|websocket_buf := Some u|>))) as Edrop.
    { intros w0 E0 E1. unfold drop_frame. change (websocket_buf (w0<|websocket_phase := 0|><|websocket_need := 2|>)) with (websocket_buf w0). rewrite E0.
      change (websocket_pktsize (w0<|websocket_phase := 0|><|websocket_need := 2|>)) with (websocket_pktsize w0). by rewrite E1, Edec. }
    destruct (op f =? 10); [unfold upsgi_now; destruct (clock w1) as [|now later] eqn:Eclk|]; rewrite Edrop by done; eexists; split; reflexivity || by split_and!. }
  exists (k + 1)%nat, w2, u. split; [eapply leads_trans; [exact L | by apply leads_step]|]. rewrite Ec. split; [lia|].
  destruct Hr as [Hcl _ _ _ Hke]. constructor; [congruence | done | done | by apply Hnext|]. rewrite Eco, Sco.
  eapply keeps_less; [exact Hke|]. rewrite zlen_app. zlen_facts. lia.
Qed.

Lemma ignore_frames nb fs w ub acc rest :
  Forall (frame_ok cf) fs -> forallb is_ignored fs = true -> ready w ub acc (concat (encode <$> fs) ++ rest) ->
  exists k w' u, leads nb k w w' /\ Z.of_nat k <= zlen (pending w.(conn)) - zlen (pending w'.(conn)) + 5 * zlen fs /\ ready w' u acc rest.
Proof.
  revert w ub. induction fs as [|f fs IH]; intros w ub Hf Hi Hr.
  - exists 0%nat, w, ub. split; [by intros fuel|]. split; [change (zlen []) with 0; lia | exact Hr].
  - apply Forall_cons in Hf as [Hf1 Hf]. cbn in Hi. apply andb_true_iff in Hi as [Hi1 Hi]. rewrite fmap_cons in Hr. cbn [concat] in Hr. rewrite <- app_assoc in Hr.
    destruct (ignore_frame nb w ub acc f _ Hf1 Hi1 Hr) as (k1 & w1 & u1 & L1 & K1 & R1).
    destruct (IH w1 u1 Hf Hi R1) as (k2 & w2 & u2 & L2 & K2 & R2). exists (k1 + k2)%nat, w2, u2.
    split; [by eapply leads_trans|]. rewrite zlen_cons. split; [lia | done].
Qed.

Lemma recv_ready_frames nb fuel fs w ub acc f rest d acc' :
  Forall (frame_ok cf) (fs ++ [f]) -> forallb is_ignored fs = true -> is_data f = true -> deliver acc f = Some (d, acc') ->
  ready w ub acc (concat (encode <$> fs) ++ encode f ++ rest) -> zlen (pending w.(conn)) + 5 * (1 + zlen fs) <= Z.of_nat fuel ->
  exists m w' u, recv_loop env P wc cf fuel nb w = Ret (Some m, w') /\ contents m = d /\ ready w' u acc' rest.
Proof.
  intros Hf Hi Hd Hdel Hr Hfuel. apply Forall_app in Hf as [Hfs Hf]. apply Forall_cons in Hf as [Hf _].
  destruct (ignore_frames nb fs w ub acc _ Hfs Hi Hr) as (k1 & w1 & u1 & L1 & K1 & R1).
  destruct (ready_frame nb w1 u1 acc f rest Hf R1) as (k2 & w2 & u2 & L2 & K2 & Hh & Hp & Hpa & (_ & _ & _ & Scl & Sco & _)).
  pose proof R1 as [Hcl _ _ _ Hke]. rewrite <- Sco in Hke. rewrite <- Scl in Hcl.
  destruct (parse_delivers w2 u2 acc f rest d acc' Hf Hdel Hh Hp Hpa Hke Hcl) as (m & w3 & u & Epa & Hm & Hr3 & _).
  exists m, w3, u. split; [|done]. zlen_facts. replace fuel with (k1 + (k2 + (1 + (fuel - k1 - k2 - 1))))%nat by lia.
  rewrite L1, L2. cbn [Nat.add recv_loop]. rewrite (phase4_at nb w2 u2 f (h_buf _ _ _ Hh) Hp Hpa). unfold phase4.
  rewrite (p_op _ _ _ _ _ _ Hpa). unfold is_data in Hd. rewrite Hd, Epa. done.
Qed.

Lemma recv_frames nb fuel fs w acc f rest d acc' :
  Forall (frame_ok cf) (fs ++ [f]) -> forallb is_ignored fs = true -> is_data f = true -> deliver acc f = Some (d, acc') ->
  idle w acc (concat (encode <$> fs) ++ encode f ++ rest) -> zlen (pending w.(conn)) + 5 * (1 + zlen fs) <= Z.of_nat fuel ->
  exists m w', recv_mode env P wc cf nb fuel w = Ret (Some m, w') /\ contents m = d /\ idle w' acc' rest.
Proof.
  intros Hf Hi Hd Hdel Hw Hfuel. set (s := concat (encode <$> fs) ++ encode f ++ rest) in *.
  assert (exists w0 ub, (if w.(websocket_closed) then Ret (None, w) else upsgi_websocket_recv_do env P wc cf fuel nb w) = recv_loop env P wc cf fuel nb w0 /\
    ready w0 ub acc s /\ conn w0 = conn w) as (w0 & ub & E & Hr & Ec).
  { unfold idle in Hw. unfold upsgi_websocket_recv_do. destruct (websocket_buf w) as [ub|] eqn:Eb.
    - exists w, ub. destruct Hw as []. rewrite r_closed0. split; [done|]. split; [by constructor | done].
    - destruct Hw as (Hcl & Hph & He & Hs & Hsm & Hk). rewrite Hcl. pose proof env_page as Hpg.
      destruct (new_granted (page_size env) ltac:(lia)) as (ub & Enew & Hok & Hlim & Hc & Hlen). rewrite Enew. cbn [obind].
      eexists _, ub. split; [reflexivity|]. split; [|done]. constructor; try done. constructor; try done. cbn. by rewrite Hc. }
  destruct (recv_ready_frames nb fuel fs w0 ub acc f rest d acc' Hf Hi Hd Hdel Hr ltac:(rewrite Ec; lia)) as (m & w' & u & Er & Hm & Hr').
  exists m, w'. rewrite Er in E. split; [|split; [done|]].
  - unfold recv_mode. destruct (websocket_closed w); [by injection E|]. by rewrite E.
  - unfold idle. by rewrite (h_buf _ _ _ (r_holds _ _ _ _ Hr')).
Qed.

(** ** Sending *)

Definition send_buffer_ok (w : ws C) : Prop :=
  match w.(websocket_send_buf) with Some ub => buffer_ok ub /\ ub.(limit) = 0 /\ ub.(len) < 2 ^ 61 | None => True end.

(** A chain of stores that the heap grants, with the growth of the block. *)
Definition grows (n : Z) (g : bop) (bs : list Z) : Prop :=
  forall ub, buffer_ok ub -> ub.(limit) = 0 -> ub.(len) + n < 2 ^ 63 ->
  exists ub', g ub = Ret (0, ub') /\ contents ub' = contents ub ++ bs /\ buffer_ok ub' /\ ub'.(limit) = 0 /\ ub'.(len) <= ub.(len) + n.

Lemma grows_append bs : grows (Z.max (zlen bs) env.(page_size)) (upsgi_buffer_append env bs) bs.
Proof. intros ub Hok Hl Hn. by apply append_grows. Qed.

Lemma grows_seq n m g h a b : 0 <= m -> grows n g a -> grows m h b -> grows (n + m) (g ;;; h) (a ++ b).
Proof.
  intros Hm Hg Hh ub Hok Hl Hn. destruct (Hg ub Hok Hl ltac:(lia)) as (u1 & E1 & C1 & O1 & L1 & N1).
  destruct (Hh u1 O1 L1 ltac:(lia)) as (u2 & E2 & C2 & O2 & L2 & N2). exists u2. unfold seq_op. rewrite E1. cbn [obind Z.eqb].
  split; [done|]. split; [by rewrite C2, C1, app_assoc|]. split; [done|]. split; [done | lia].
Qed.

Lemma message_encodes (text : bool) msg (w : ws C) :
  send_buffer_ok w -> zlen msg < 2 ^ 60 ->
  exists ub w', upsgi_websocket_message env msg (if text then 129 else 130) w = Ret (Some ub, w') /\
    contents ub = encode (mk_frame true (if text then 1 else 2) None msg).
Proof.
  intros Hs Hm. pose proof env_page as Hpg. zlen_facts. set (opcode := if text then 129 else 130).
  assert (exists ub, match websocket_send_buf w with None => upsgi_buffer_new env (u64 (10 + zlen msg)) | Some ub => Ret (ub<|pos := 0|>) end = Ret ub /\
    buffer_ok ub /\ limit ub = 0 /\ contents ub = [] /\ len ub < 2 ^ 61) as (ub & Eub & Hok & Hl & Hc & Hlen).
  { unfold send_buffer_ok in Hs. destruct (websocket_send_buf w) as [b|].
    - destruct Hs as ([] & Hbl & Hblen). eexists. split; [reflexivity|]. split; [constructor; cbn; lia | done].
    - rewrite wrap_small by lia. destruct (new_granted (10 + zlen msg) ltac:(lia)) as (b & -> & ? & ? & ? & ?). exists b. split_and!; auto. lia. }
  assert (exists n bs, grows n (upsgi_buffer_u8 env opcode ;;;
       (if zlen msg <? 126 then upsgi_buffer_u8 env (zlen msg)
        else if zlen msg <=? 65535 then upsgi_buffer_u8 env 126 ;;; upsgi_buffer_u16be env (zlen msg)
        else upsgi_buffer_u8 env 127 ;;; upsgi_buffer_u64be env (zlen msg)) ;;; upsgi_buffer_append env msg) bs /\
      0 <= n < 2 ^ 62 /\ bs = encode (mk_frame true (if text then 1 else 2) None msg)) as (n & bs & Hg & Hn & Ebs).
  { unfold encode, head, len7, len_bytes, masked, is_masked, upsgi_buffer_u8, upsgi_buffer_u16be, upsgi_buffer_u64be. cbn [fin op mask data flag default].
    assert (u8 opcode = 128 + (if text then 1 else 2)) as -> by (by destruct text).
    destruct (Z.ltb_spec (zlen msg) 126); [|destruct (Z.leb_spec (zlen msg) 65535)].
    - rewrite (wrap_small 8) by lia. eexists _, _. split; [|split].
      + eapply grows_seq; [|apply grows_append|eapply grows_seq; [|apply grows_append..]]; lia.
      + unfold be_bytes16, be_bytes64. rewrite ?zlen_cons. change (@zlen Z []) with 0. lia.
      + done.
    - eexists _, _. split; [|split].
      + eapply grows_seq; [|apply grows_append|eapply grows_seq; [|eapply grows_seq; [|apply grows_append..]|apply grows_append]]; lia.
      + unfold be_bytes16, be_bytes64. rewrite ?zlen_cons. change (@zlen Z []) with 0. lia.
      + cbn [app]. by rewrite app_nil_r.
    - eexists _, _. split; [|split].
      + eapply grows_seq; [|apply grows_append|eapply grows_seq; [|eapply grows_seq; [|apply grows_append..]|apply grows_append]]; lia.
      + unfold be_bytes16, be_bytes64. rewrite ?zlen_cons. change (@zlen Z []) with 0. lia.
      + cbn [app]. by rewrite app_nil_r. }
  destruct (Hg ub Hok Hl ltac:(lia)) as (u & E & Hcu & _). unfold upsgi_websocket_message. rewrite Eub. cbn [obind]. rewrite E. cbn [obind Z.eqb].
  eexists u, _. split; [reflexivity|]. by rewrite Hcu, Hc, <- Ebs.
Qed.

(** ** Theorems *)


(** C22: what [upsgi_websocket_send] and [upsgi_websocket_send_binary] put on the
    wire is one frame, and a peer that reads it with [upsgi_websocket_recv]
    gets the message. *)
Theorem ws_send_recv nb fuel (text : bool) msg (sender : ws C) w rest :
  send_buffer_ok sender -> zlen msg < 2 ^ 60 -> zlen msg <= 125 \/ zlen msg <= cf.(websockets_max_size) * 1024 ->
  exists ub sender', upsgi_websocket_message env msg (if text then 129 else 130) sender = Ret (Some ub, sender') /\
    (idle w None (contents ub ++ rest) -> zlen (pending w.(conn)) + 5 <= Z.of_nat fuel ->
     exists m w', recv_mode env P wc cf nb fuel w = Ret (Some m, w') /\ contents m = msg /\ idle w' None rest).
Proof.
  intros Hs Hm Hl. destruct (message_encodes text msg sender Hs Hm) as (ub & sender' & E & Hc). exists ub, sender'. split; [done|].
  intros Hi Hf. set (f := mk_frame true (if text then 1 else 2) None msg) in *.
  destruct (recv_frames nb fuel [] w None f rest msg None) as (m & w' & Er & Hcm & Hw); [| done | by destruct text | by destruct text | | |].
  - constructor; [|done]. constructor; [by destruct text | done | done].
  - cbn [fmap list_fmap concat app]. by rewrite <- Hc.
  - change (zlen []) with 0. lia.
  - by exists m, w'.
Qed.
End proofs.

(** ** Witnesses and what the model shows *)

Definition no_output : response := mk_response None 0 0 0 false 0 0 0 false [] [] [] [].
Definition no_proto : proto := mk_proto (fun _ => Ret None) (fun _ _ => Ret None) (fun ub => Ret (0, ub)) (fun _ _ p => Ret (-1, p, [])) false.
Definition wc0 : writer_conf := mk_writer_conf 0 [] [].
Definition cf0 : ws_conf := mk_ws_conf 30 3 1024.

(** A session that has not read yet, and the pieces that will come. *)
Definition opened (pieces : list (list Z)) : ws base_conn :=
  mk_ws None None 0 0 0 0 0 0 0 0 0 false None no_output (mk_base_conn [] (Http.RData <$> pieces)) [] [].

Lemma opened_idle pieces s :
  forallb (fun p => negb (bool_decide (p = []))) pieces = true -> s = concat pieces -> zlen s < 2 ^ 40 -> idle env4k (opened pieces) None s.
Proof.
  intros Hp -> Hs. split_and!; try reflexivity.
  - apply Forall_fmap. clear Hs. induction pieces as [|p l IH]; [done|]. cbn in Hp. apply andb_true_iff in Hp as [H1 H2].
    constructor; [|by apply IH]. cbn. by destruct p.
  - cbn. clear. induction pieces as [|p l IH]; [done|]. rewrite fmap_cons. cbn [concat]. cbn. by rewrite <- IH.
  - lia.
  - cbn. lia.
Qed.

(** The first piece of a text, masked, behind a pong, cut within the frames. *)
Definition a_pong : frame := mk_frame true 10 None [].
Definition a_piece : frame := mk_frame false 1 (Some [1; 2; 3; 4]) (chars "Hel").


Lemma ws_send_recv_witness :
  let w := opened [[129]; [2; 104]; [105]] in
  exists ub sender', upsgi_websocket_message env4k (chars "hi") 129 (opened []) = Ret (Some ub, sender') /\
    exists m w', recv_mode env4k no_proto wc0 cf0 false 100 w = Ret (Some m, w') /\ contents m = chars "hi" /\ idle env4k w' None [].
Proof.
  intros w. assert (EnvOk env4k) as Henv by by split. destruct (ws_send_recv env4k no_proto wc0 cf0 (fun _ _ => eq_refl) ltac:(cbn; lia) false 100 true (chars "hi") (opened []) w [])
    as (ub & sender' & E & Hr); [done | done | by left|].
  exists ub, sender'. split; [exact E|]. apply Hr.
  - assert (contents ub = [129; 2; 104; 105]) as ->.
    { revert E. vm_compute. by intros [= <- <-]. }
    by apply opened_idle.
  - vm_compute. done.
Defined.

(** A continuation frame with nothing to continue does not end the session:
    the error path destroys a buffer that is [NULL]. *)
Lemma continuation_first_faults : recv_mode env4k no_proto wc0 cf0 false 100 (opened [[128; 2; 104; 105]]) = Fault.
Proof. vm_compute. reflexivity. Qed.

(** The pieces of a message are kept for the process, not for the connection:
    the session that goes on gets what another one has begun. *)
Lemma continuation_crosses_sessions :
  exists m1 w1 m2 w2, recv_mode env4k no_proto wc0 cf0 false 100 (opened [[1; 3; 79; 78; 69]]) = Ret (Some m1, w1) /\
    recv_mode env4k no_proto wc0 cf0 false 100 ((opened [[128; 3; 84; 87; 79]])<|continuation := continuation w1|>) = Ret (Some m2, w2) /\
    contents m2 = chars "ONETWO".
Proof. eexists _, _, _, _. split; [vm_compute; reflexivity|]. split; [vm_compute; reflexivity|]. reflexivity. Qed.

End WebsocketProofs.
