(* ===== verification/Kvlist.v ===== *)
(** Lists of options ([upsgi_kvlist_parse] of core/utils.c) and the numbers in
    them. *)
From S2P Require Import Prelude Clib.

Module Kvlist.

(** * Numbers *)


Fixpoint skip_space (l : list Z) : list Z :=
  match l with [] => [] | c :: l' => if isspace c then skip_space l' else l end.

(** The value of the decimal digits at the start. *)
Fixpoint leading_digits (acc : Z) (l : list Z) : Z :=
  match l with
  | [] => acc
  | c :: l => if isdigit c then leading_digits (acc * 10 + (c - 48)) l else acc
  end.

(** The sign and the magnitude. *)
Definition strto_parts (l : list Z) : bool * Z :=
  match skip_space l with
  | c :: l => if c =? 45 then (true, leading_digits 0 l)
              else if c =? 43 then (false, leading_digits 0 l)
              else (false, leading_digits 0 (c :: l))
  | [] => (false, 0)
  end.

(** [strtoul(x, NULL, 10)]: a magnitude that does not fit gives the greatest
    number, a sign negates as an unsigned number. *)
Definition upsgi_n64 (l : list Z) : Z :=
  let '(neg, v) := strto_parts l in
  if SIZE_MAX <? v then SIZE_MAX else if neg then u64 (- v) else v.

(** [strtol(x, NULL, 10)]. *)
Definition strtol10 (l : list Z) : Z :=
  let '(neg, v) := strto_parts l in
  if neg then Z.max (- 2 ^ 63) (- v) else Z.min (2 ^ 63 - 1) v.

(** * Parsing *)

(** The loop over [src], a string without NUL: [base] is the item that is
    being built; one level of backslashes is taken off. *)
Fixpoint kvlist_items (sep : Z) (escaped : bool) (base src : list Z) : list (list Z) :=
  match src with
  | [] => match base with [] => [] | _ => [base] end
  | c :: src =>
      if (c =? sep) && negb escaped then base :: kvlist_items sep escaped [] src
      else if (c =? 92) && negb escaped then kvlist_items sep true base src
      else kvlist_items sep false (base ++ [c]) src
  end.

(** The loop over an item: the key before the separator, without what is
    escaped in it, and the rest of the item. *)
Fixpoint kvlist_pair (sep : Z) (escaped : bool) (base value : list Z) : option (list Z * list Z) :=
  match value with
  | [] => None
  | c :: value =>
      if (c =? sep) && negb escaped then Some (base, value)
      else if (c =? 92) && negb escaped then kvlist_pair sep true base value
      else if escaped then kvlist_pair sep false base value
      else kvlist_pair sep false (base ++ [c]) value
  end.

Section options.
Context {K : Type} `{EqDecision K}.

(** The variables that the arguments point to. *)
Definition options : Type := K -> option (list Z).
Definition no_options : options := fun _ => None.

(** The loop over the arguments: every variable whose name is the key. *)
Definition kvlist_assign (names : list (list Z * K)) (key value : list Z) (o : options) : options :=
  foldl (fun o '(n, k) => if bytes_eqb n key then fun k' => if decide (k' = k) then Some value else o k' else o) o names.

Definition kvlist_item (kv_sep : Z) (names : list (list Z * K)) (o : options) (item : list Z) : options :=
  match kvlist_pair kv_sep false [] item with Some (key, value) => kvlist_assign names key value o | None => o end.

Definition upsgi_kvlist_parse (src : list Z) (list_sep kv_sep : Z) (names : list (list Z * K)) (o : options) : options :=
  foldl (kvlist_item kv_sep names) o (kvlist_items list_sep false [] src).

End options.

(** * Writing such a list *)

(** What has to be escaped in an item. *)
Fixpoint kvlist_escape (sep : Z) (l : list Z) : list Z :=
  match l with
  | [] => []
  | c :: l => if (c =? sep) || (c =? 92) then 92 :: c :: kvlist_escape sep l else c :: kvlist_escape sep l
  end.

Fixpoint kvlist_format (list_sep kv_sep : Z) (kvs : list (list Z * list Z)) : list Z :=
  match kvs with
  | [] => []
  | (k, v) :: kvs => kvlist_escape list_sep (k ++ kv_sep :: v) ++ list_sep :: kvlist_format list_sep kv_sep kvs
  end.

Lemma kvlist_items_escape sep base l rest :
  sep <> 92 -> kvlist_items sep false base (kvlist_escape sep l ++ sep :: rest) = (base ++ l) :: kvlist_items sep false [] rest.
Proof.
  intros Hs. revert base. induction l as [|c l IH]; intros base; cbn [kvlist_escape app].
  - cbn. by rewrite Z.eqb_refl, app_nil_r.
  - destruct (Z.eqb_spec c sep) as [->|Hc]; cbn [orb].
    + cbn [app kvlist_items]. rewrite (proj2 (Z.eqb_neq 92 sep)) by lia. cbn [andb Z.eqb negb].
      rewrite Z.eqb_refl. cbn. rewrite andb_false_r. by rewrite IH, <- app_assoc.
    + destruct (Z.eqb_spec c 92) as [->|Hb]; cbn [app kvlist_items].
      * rewrite (proj2 (Z.eqb_neq 92 sep)) by lia. cbn. by rewrite IH, <- app_assoc.
      * rewrite (proj2 (Z.eqb_neq c sep)), (proj2 (Z.eqb_neq c 92)) by done. cbn [andb]. by rewrite IH, <- app_assoc.
Qed.

Lemma kvlist_items_format list_sep kv_sep kvs :
  list_sep <> 92 -> kvlist_items list_sep false [] (kvlist_format list_sep kv_sep kvs) = (fun '(k, v) => k ++ kv_sep :: v) <$> kvs.
Proof.
  intros Hs. induction kvs as [|[k v] kvs IH]; [done|]. cbn [kvlist_format].
  rewrite kvlist_items_escape by done. by rewrite IH.
Qed.

Lemma kvlist_pair_plain sep base k v :
  Forall (fun c => c <> sep /\ c <> 92) k -> kvlist_pair sep false base (k ++ sep :: v) = Some (base ++ k, v).
Proof.
  intros Hk. revert base. induction Hk as [|c k [H1 H2] _ IH]; intros base; cbn [kvlist_pair app].
  - by rewrite Z.eqb_refl, app_nil_r.
  - rewrite (proj2 (Z.eqb_neq c sep)), (proj2 (Z.eqb_neq c 92)) by done. cbn [andb]. by rewrite IH, <- app_assoc.
Qed.

(** A list of options that is written with its separators and backslashes
    escaped is read back as these options: every variable gets the value of
    the last option with one of its names, whatever bytes the values hold. *)
Theorem kvlist_roundtrip {K : Type} `{EqDecision K} list_sep kv_sep (names : list (list Z * K)) kvs o :
  list_sep <> 92 -> Forall (fun kv => Forall (fun c => c <> kv_sep /\ c <> 92) kv.1) kvs ->
  upsgi_kvlist_parse (kvlist_format list_sep kv_sep kvs) list_sep kv_sep names o =
    foldl (fun o kv => kvlist_assign names kv.1 kv.2 o) o kvs.
Proof.
  intros Hs Hk. unfold upsgi_kvlist_parse. rewrite kvlist_items_format by done. clear Hs. revert o.
  induction Hk as [|[k v] kvs Hk _ IH]; intros o; [done|]. cbn [fmap list_fmap foldl fst snd] in *.
  unfold kvlist_item at 2. rewrite kvlist_pair_plain by done. apply IH.
Qed.

Lemma kvlist_roundtrip_witness :
  upsgi_kvlist_parse (kvlist_format 44 61 [([97], [1; 44; 92; 61]); ([98], [2])]) 44 61 [([97], 0%nat); ([98], 1%nat)] no_options 0%nat
    = Some [1; 44; 92; 61].
Proof.
  rewrite (kvlist_roundtrip 44 61 [([97], 0%nat); ([98], 1%nat)] [([97], [1; 44; 92; 61]); ([98], [2])] no_options).
  - vm_compute. reflexivity.
  - done.
  - repeat constructor; cbn; lia.
Defined.

Lemma upsgi_n64_range l : 0 <= upsgi_n64 l < 2 ^ 64.
Proof.
  unfold upsgi_n64. destruct (strto_parts l) as [neg v] eqn:E.
  assert (0 <= v) as Hv.
  { assert (forall l acc, 0 <= acc -> 0 <= leading_digits acc l) as Hd.
    { clear. induction l as [|c l IH]; intros acc Ha; cbn; [done|]. destruct (isdigit c) eqn:Ec; [|done].
      apply IH. unfold isdigit in Ec. apply andb_true_iff in Ec as [E1%Z.leb_le E2]. lia. }
    unfold strto_parts in E. destruct (skip_space l) as [|c r]; [by injection E as _ <-|].
    destruct (c =? 45); [|destruct (c =? 43)]; apply (f_equal snd) in E; cbn [snd] in E; rewrite <- E; apply Hd; lia. }
  change SIZE_MAX with (2 ^ 64 - 1). destruct (Z.ltb_spec (2 ^ 64 - 1) v); [lia|]. destruct neg; [apply wrap_range; lia | lia].
Qed.

End Kvlist.
