(* ===== verification/Hash.v ===== *)
(** The hash functions of core/hash.c and the registry they are looked up
    in by name.  A [char] is signed: a byte above 127 is sign extended before
    it is mixed in. *)
From S2P Require Import Prelude Clib Protocol.

Module Hash.

(** * Functions *)

Definition djb33x_step (hash c : Z) : Z := Z.lxor (u32 (u32 (Z.shiftl hash 5) + hash)) (u32 (i8 c)).
Definition djb33x_hash (key : list Z) : Z := foldl djb33x_step 5381 key.

Definition MURMUR_M : Z := 1540483477.

(** A whole group of four bytes, read from [ukey]. *)
Definition murmur2_group (h b0 b1 b2 b3 : Z) : Z :=
  let k := Z.lor (Z.lor (Z.lor b0 (Z.shiftl b1 8)) (Z.shiftl b2 16)) (u32 (Z.shiftl b3 24)) in
  let k := u32 (k * MURMUR_M) in
  let k := Z.lxor k (Z.shiftr k 24) in
  let k := u32 (k * MURMUR_M) in
  Z.lxor (u32 (h * MURMUR_M)) k.

(** The loop; what is left of [keylen]. *)
Fixpoint murmur2_loop (h : Z) (ukey : list Z) : Z * Z :=
  match ukey with
  | b0 :: b1 :: b2 :: b3 :: ukey => murmur2_loop (murmur2_group h b0 b1 b2 b3) ukey
  | _ => (h, zlen ukey)
  end.

(** The [switch], whose cases fall through, reads from [key]. *)
Definition murmur2_tail (h : Z) (key : list Z) (keylen : Z) : outcome Z :=
  if keylen =? 0 then Ret h
  else
    let* h := if keylen =? 3 then let* b := mread key 2 in Ret (Z.lxor h (u32 (Z.shiftl (i8 b) 16))) else Ret h in
    let* h := if 2 <=? keylen then let* b := mread key 1 in Ret (Z.lxor h (u32 (Z.shiftl (i8 b) 8))) else Ret h in
    let* b := mread key 0 in
    Ret (u32 (Z.lxor h (u32 (i8 b)) * MURMUR_M)).

Definition murmur2_hash (key : list Z) : outcome Z :=
  let '(h, keylen) := murmur2_loop (u32 (zlen key)) key in
  let* h := murmur2_tail h key keylen in
  let h := Z.lxor h (Z.shiftr h 13) in
  let h := u32 (h * MURMUR_M) in
  Ret (Z.lxor h (Z.shiftr h 15)).

(** [rr] is a static variable: its value before and after. *)
Definition rr_hash (key : list Z) (rr : Z) : outcome (Z * Z) :=
  let* n := Protocol.upsgi_str_num key in
  let max_value := u32 n in
  let rr' := u32 (rr + 1) in
  Ret (rr, if max_value <? rr' then 0 else rr').

(** * The registry *)

Inductive hash_algo : Type := Djb33x | Murmur2 | Random | Rr.

(** [upsgi.hash_algos], in list order. *)
Definition registry : Type := list (list Z * hash_algo).

Fixpoint upsgi_hash_algo_get (r : registry) (name : list Z) : option hash_algo :=
  match r with
  | [] => None
  | (n, f) :: r => if bytes_eqb name n then Some f else upsgi_hash_algo_get r name
  end.

Fixpoint upsgi_hash_algo_register (name : list Z) (f : hash_algo) (r : registry) : registry :=
  match r with
  | [] => [(name, f)]
  | (n, g) :: r' => if bytes_eqb n name then r else (n, g) :: upsgi_hash_algo_register name f r'
  end.

Definition upsgi_hash_algo_register_all (r : registry) : registry :=
  let r := upsgi_hash_algo_register (chars "djb33x") Djb33x r in
  let r := upsgi_hash_algo_register (chars "murmur2") Murmur2 r in
  let r := upsgi_hash_algo_register (chars "random") Random r in
  let r := upsgi_hash_algo_register (chars "rand") Random r in
  upsgi_hash_algo_register (chars "rr") Rr r.

(** * Facts *)

Lemma djb33x_range key : 0 <= djb33x_hash key < 2 ^ 32.
Proof.
  unfold djb33x_hash.
  assert (forall h, 0 <= h < 2 ^ 32 -> 0 <= foldl djb33x_step h key < 2 ^ 32) as H; [|by apply H].
  induction key as [|c key IH]; intros h Hh; [done|]. cbn [foldl]. apply IH. unfold djb33x_step.
  pose proof (wrap_range 32 (u32 (Z.shiftl h 5) + h) ltac:(lia)) as [Ha Hb].
  pose proof (wrap_range 32 (i8 c) ltac:(lia)) as [Hc Hd].
  assert (0 <= Z.lxor (u32 (u32 (Z.shiftl h 5) + h)) (u32 (i8 c))) by (apply Z.lxor_nonneg; tauto).
  split; [done|].
  destruct (Z.eq_dec (Z.lxor (u32 (u32 (Z.shiftl h 5) + h)) (u32 (i8 c))) 0) as [->|]; [lia|].
  apply Z.log2_lt_pow2; [lia|]. eapply Z.le_lt_trans; [by apply Z.log2_lxor|].
  apply Z.max_lub_lt; (destruct (Z.eq_dec (u32 (i8 c)) 0), (Z.eq_dec (u32 (u32 (Z.shiftl h 5) + h)) 0);
    try (apply Z.log2_lt_pow2; lia)); rewrite ?e, ?e0; cbn; try lia; apply Z.log2_lt_pow2; lia.
Qed.

(** Looking a name up after registering it: the first registration stays. *)
Lemma algo_get_register r name f n :
  upsgi_hash_algo_get (upsgi_hash_algo_register name f r) n =
  match upsgi_hash_algo_get r n with
  | Some g => Some g
  | None => if bytes_eqb n name then Some f else None
  end.
Proof.
  induction r as [|[m g] r IH]; cbn; [by destruct (bytes_eqb n name)|].
  destruct (bytes_eqb m name) eqn:E.
  - apply bytes_eqb_spec in E as ->. cbn. destruct (bytes_eqb n name) eqn:E'; [done|].
    by destruct (upsgi_hash_algo_get r n).
  - cbn. by destruct (bytes_eqb n m).
Qed.

(** Registering again, as every configured cache does, changes nothing. *)
Lemma register_all_idem r :
  upsgi_hash_algo_register_all (upsgi_hash_algo_register_all []) = upsgi_hash_algo_register_all [] /\
  forall n g, upsgi_hash_algo_get r n = Some g -> upsgi_hash_algo_get (upsgi_hash_algo_register_all r) n = Some g.
Proof.
  split; [by vm_compute|]. intros n g H. unfold upsgi_hash_algo_register_all.
  by rewrite !algo_get_register, H.
Qed.

(** The tail is read from the start of the key instead of from the bytes the
    loop has not mixed in: the last bytes of a longer key do not count. *)
Theorem murmur2_tail_ignored b0 b1 b2 b3 x y :
  murmur2_hash [b0; b1; b2; b3; x] = murmur2_hash [b0; b1; b2; b3; y].
Proof. reflexivity. Qed.

(** The round robin counter runs through 0 .. n. *)
Lemma rr_hash_cycle key n rr :
  Protocol.upsgi_str_num key = Ret n -> 0 <= n < 2 ^ 32 - 1 -> 0 <= rr <= n ->
  rr_hash key rr = Ret (rr, if rr =? n then 0 else rr + 1).
Proof.
  intros Hk Hn Hrr. unfold rr_hash. rewrite Hk. cbn [obind]. rewrite !wrap_small by lia.
  destruct (Z.ltb_spec n (rr + 1)), (Z.eqb_spec rr n); try lia; done.
Qed.

End Hash.
