(* ===== verification/Bitmap.v ===== *)
(** The block bitmap of the shared memory cache (core/cache.c): one bit per
    block, the most significant bit of a byte first.  The search for a run of
    free blocks, and the marking and unmarking of a run. *)
From S2P Require Import Prelude.

Module Bitmap.

(** * Operations *)

(** The value returned when no run is found. *)
Definition NO_BLOCKS : Z := 2 ^ 64 - 1.

(** [len/blocksize], rounded up. *)
Definition needed_blocks (blocksize len : Z) : Z :=
  let n := len / blocksize in
  if 0 <? len mod blocksize then n + 1 else n.

(** The run that is being built: [found] bits from bit [base_bit] of byte
    [base], or none when [base] is [NO_BLOCKS]. *)
Record run : Type := mk_run { found : Z; base : Z; base_bit : Z }.
Definition no_run : run := mk_run 0 NO_BLOCKS 0.

(** The loop over the [n] bits of byte [j] from [bit_pos] on; [inl] is the
    [return]. *)
Fixpoint scan_byte (n : nat) (needed num j bit_pos : Z) (r : run) : Z + run :=
  match n with
  | O => inr r
  | S n =>
      if negb (Z.land num (Z.shiftl 1 (7 - bit_pos)) =? 0) then
        (* used block *)
        scan_byte n needed num j (bit_pos + 1) no_run
      else
        (* free block *)
        let r := if r.(base) =? NO_BLOCKS then mk_run r.(found) j bit_pos else r in
        let r := mk_run (r.(found) + 1) r.(base) r.(base_bit) in
        if r.(found) =? needed then inl (u64 (r.(base) * 8 + r.(base_bit)))
        else scan_byte n needed num j (bit_pos + 1) r
  end.

(** The loop over the bytes; [need_to_scan] of them. *)
Fixpoint scan_loop (need_to_scan : nat) (bitmap : list Z) (needed bitmap_byte bitmap_bit j : Z) (r : run)
    : outcome Z :=
  match need_to_scan with
  | O => Ret NO_BLOCKS
  | S need_to_scan =>
      let* num := mread bitmap j in
      let bit_pos := if j =? bitmap_byte then bitmap_bit else 0 in
      match scan_byte (Z.to_nat (8 - bit_pos)) needed num j bit_pos r with
      | inl res => Ret res
      | inr r =>
          let j := j + 1 in
          if zlen bitmap <=? j then scan_loop need_to_scan bitmap needed bitmap_byte 0 0 no_run
          else scan_loop need_to_scan bitmap needed bitmap_byte bitmap_bit j r
      end
  end.

Definition upsgi_cache_find_free_blocks (bitmap : list Z) (pos blocksize need : Z) : outcome Z :=
  let needed := needed_blocks blocksize need in
  let '(bitmap_byte, bitmap_bit) := if 0 <? pos then (pos / 8, pos mod 8) else (0, 0) in
  let need_to_scan := if 0 <? bitmap_bit then zlen bitmap + 1 else zlen bitmap in
  scan_loop (Z.to_nat need_to_scan) bitmap needed bitmap_byte bitmap_bit bitmap_byte no_run.

(** [bitmap[i] = f(bitmap[i])] *)
Definition mmodify (m : list Z) (i : Z) (f : Z -> Z) : outcome (list Z) :=
  let* b := mread m i in mwrite m i [u8 (f b)].

(** The bytes and masks a run touches. *)
Definition first_mask (first_byte_bit last_byte_bit needed_bytes : Z) : Z :=
  let mask := Z.shiftr 255 first_byte_bit in
  if needed_bytes =? 1 then
    let mask := Z.shiftr mask (7 - last_byte_bit) in
    u8 (Z.shiftl mask (7 - last_byte_bit))
  else mask.

Definition last_mask (last_byte_bit : Z) : Z := u8 (Z.shiftl 255 (7 - last_byte_bit)).

(** The three stores of both functions: [f] combines a byte with a mask,
    [fill] is the value of the bytes in between. *)
Definition touch_blocks (f : Z -> Z -> Z) (fill : Z) (bitmap : list Z) (index needed : Z) : outcome (list Z) :=
  let first_byte := index / 8 in
  let first_byte_bit := index mod 8 in
  (* offset starts with 0, so actual last bit is index + needed_blocks - 1 *)
  let last := u64 (index + needed - 1) in
  let last_byte := last / 8 in
  let last_byte_bit := last mod 8 in
  let needed_bytes := u64 (last_byte - first_byte + 1) in
  let* bitmap := mmodify bitmap first_byte (fun b => f b (first_mask first_byte_bit last_byte_bit needed_bytes)) in
  let* bitmap := if 1 <? needed_bytes then mmodify bitmap last_byte (fun b => f b (last_mask last_byte_bit))
                 else Ret bitmap in
  if 2 <? needed_bytes then mwrite bitmap (first_byte + 1) (zrep (needed_bytes - 2) fill) else Ret bitmap.

Definition cache_mark_blocks (bitmap : list Z) (blocksize index len : Z) : outcome (Z * list Z) :=
  let needed := needed_blocks blocksize len in
  let* bitmap := touch_blocks Z.lor 255 bitmap index needed in
  Ret (needed, bitmap).

Definition cache_unmark_blocks (bitmap : list Z) (blocksize index len : Z) : outcome (list Z) :=
  touch_blocks (fun b mask => Z.land b (Z.lnot mask)) 0 bitmap index (needed_blocks blocksize len).

(** The bitmap [upsgi_cache_init] allocates: the bits beyond the last block
    are marked as used. *)
Definition init_bitmap (blocks : Z) : outcome (list Z) :=
  let m := blocks mod 8 in
  let size := if 0 <? m then blocks / 8 + 1 else blocks / 8 in
  let bitmap := zrep size 0 in
  if 0 <? m then mwrite bitmap (size - 1) [Z.shiftr 255 m] else Ret bitmap.

(** * Specification *)

(** Is block [k] in use? *)
Definition used (bitmap : list Z) (k : Z) : bool :=
  match bitmap !! Z.to_nat (k / 8) with
  | Some b => Z.testbit b (7 - k mod 8)
  | None => false
  end.

(** The blocks [a .. a + n - 1] are free. *)
Definition free_run (bitmap : list Z) (a n : Z) : Prop := forall k, a <= k < a + n -> used bitmap k = false.

Definition in_run (index n k : Z) : bool := (index <=? k) && (k <? index + n).

(** * Lemmas *)

Lemma needed_blocks_spec bs len :
  0 < bs -> 0 < len ->
  0 < needed_blocks bs len /\ len <= needed_blocks bs len * bs < len + bs.
Proof.
  intros Hb Hl. unfold needed_blocks. pose proof (Z.div_mod len bs). pose proof (Z.mod_pos_bound len bs).
  assert (0 <= len / bs) by (apply Z.div_pos; lia).
  destruct (Z.ltb_spec 0 (len mod bs)); nia.
Qed.

Lemma mwrite_lookup m off src m' (i : Z) :
  mwrite m off src = Ret m' -> 0 <= i ->
  m' !! Z.to_nat i = if (off <=? i) && (i <? off + zlen src) then src !! Z.to_nat (i - off) else m !! Z.to_nat i.
Proof.
  unfold mwrite. destruct (Z.leb_spec 0 off), (Z.leb_spec (off + zlen src) (zlen m)); try done.
  cbn [andb]. intros [= <-] Hi. zlen_facts. unfold ztake, zdrop, zlen in *.
  destruct (Z.leb_spec off i); cbn [andb].
  - rewrite lookup_app_r by (rewrite length_take; lia).
    rewrite length_take, Nat.min_l by lia.
    destruct (Z.ltb_spec i (off + Z.of_nat (length src))).
    + rewrite lookup_app_l by lia. f_equal. lia.
    + rewrite lookup_app_r by lia. rewrite lookup_drop. f_equal. lia.
  - rewrite lookup_app_l by (rewrite length_take; lia). apply lookup_take_lt. lia.
Qed.

Lemma mmodify_lookup m i f m' (j : Z) :
  mmodify m i f = Ret m' -> 0 <= j ->
  m' !! Z.to_nat j = if j =? i then (fun b => u8 (f b)) <$> m !! Z.to_nat j else m !! Z.to_nat j.
Proof.
  unfold mmodify. intros H Hj. apply obind_Ret_inv in H as (b & Hb & H).
  apply mread_inv in Hb as [Hi Hb]. rewrite (mwrite_lookup _ _ _ _ _ H) by done.
  change (zlen [u8 (f b)]) with 1.
  destruct (Z.leb_spec i j), (Z.ltb_spec j (i + 1)), (Z.eqb_spec j i); try lia; try done.
  subst. rewrite Hb. by replace (Z.to_nat (i - i)) with 0%nat by lia.
Qed.

Lemma mmodify_total m i f : 0 <= i < zlen m -> exists m', mmodify m i f = Ret m' /\ zlen m' = zlen m.
Proof.
  intros H. unfold mmodify. destruct (mread_in m i H) as (b & -> & _). cbn [obind].
  rewrite mwrite_ok by (change (zlen [u8 (f b)]) with 1; lia). eexists. split; [done|].
  rewrite !zlen_app, zlen_take by lia. change (zlen [u8 (f b)]) with 1. rewrite zlen_drop by lia. lia.
Qed.

(** Facts on the bits of a byte, by evaluation. *)
Lemma small_cases (P : Z -> bool) :
  forallb P [0; 1; 2; 3; 4; 5; 6; 7] = true -> forall x, 0 <= x < 8 -> P x = true.
Proof.
  intros H x Hx. rewrite forallb_forall in H. apply H.
  assert (x = 0 \/ x = 1 \/ x = 2 \/ x = 3 \/ x = 4 \/ x = 5 \/ x = 6 \/ x = 7) by lia. cbn. naive_solver.
Qed.

Lemma first_mask_bit f l n p :
  0 <= f < 8 -> 0 <= l < 8 -> 0 <= p < 8 -> 1 <= n ->
  Z.testbit (first_mask f l n) (7 - p) = (f <=? p) && ((1 <? n) || (p <=? l)).
Proof.
  intros Hf Hl Hp Hn. apply Bool.eqb_prop. unfold first_mask. destruct (Z.eqb_spec n 1) as [->|Hne].
  - revert p Hp. apply (small_cases (fun p => Bool.eqb _ _)). revert l Hl.
    apply (small_cases (fun l => forallb _ _)). revert f Hf. apply (small_cases (fun f => forallb _ _)). by vm_compute.
  - destruct (Z.ltb_spec 1 n); [|lia]. cbn [orb]. revert p Hp. apply (small_cases (fun p => Bool.eqb _ _)).
    revert f Hf. apply (small_cases (fun f => forallb _ _)). by vm_compute.
Qed.

Lemma last_mask_bit l p :
  0 <= l < 8 -> 0 <= p < 8 -> Z.testbit (last_mask l) (7 - p) = (p <=? l).
Proof.
  intros Hl Hp. apply Bool.eqb_prop. revert p Hp. apply (small_cases (fun p => Bool.eqb _ _)).
  revert l Hl. apply (small_cases (fun l => forallb _ _)). by vm_compute.
Qed.

Lemma u8_bit x p : 0 <= p < 8 -> Z.testbit (u8 x) (7 - p) = Z.testbit x (7 - p).
Proof. intros. unfold wrap. apply Z.mod_pow2_bits_low. lia. Qed.

(** A combination of a byte with a mask that sets the bits of the mask to
    [v] and keeps the others. *)
Definition combines (f : Z -> Z -> Z) (fill : Z) (v : bool) : Prop :=
  (forall b mask p, 0 <= p < 8 -> Z.testbit (f b mask) (7 - p) = if Z.testbit mask (7 - p) then v else Z.testbit b (7 - p)) /\
  (forall p, 0 <= p < 8 -> Z.testbit fill (7 - p) = v) /\ byte_ok fill.

Lemma combines_lor : combines Z.lor 255 true.
Proof.
  split_and!; [| |done].
  - intros b mask p Hp. rewrite Z.lor_spec. destruct (Z.testbit mask (7 - p)); [by rewrite orb_true_r | by rewrite orb_false_r].
  - intros p Hp. apply (small_cases (fun p => Z.testbit 255 (7 - p))); [by vm_compute | done].
Qed.

Lemma combines_clear : combines (fun b mask => Z.land b (Z.lnot mask)) 0 false.
Proof.
  split_and!; [| |done].
  - intros b mask p Hp. rewrite Z.land_spec, Z.lnot_spec by lia.
    destruct (Z.testbit mask (7 - p)); [by rewrite andb_false_r | by rewrite andb_true_r].
  - intros p Hp. by rewrite Z.testbit_0_l.
Qed.

Lemma used_lookup m k : used m k = default false ((fun b => Z.testbit b (7 - k mod 8)) <$> m !! Z.to_nat (k / 8)).
Proof. unfold used. by destruct (m !! Z.to_nat (k / 8)). Qed.

Lemma bytes_ok_mwrite m off src m' : bytes_ok m -> bytes_ok src -> mwrite m off src = Ret m' -> bytes_ok m'.
Proof.
  intros Hm Hs. unfold mwrite. destruct (_ && _); [|done]. intros [= <-].
  repeat apply Forall_app_2; [by apply Forall_take | done | by apply Forall_drop].
Qed.

Lemma bytes_ok_mmodify m i f m' : bytes_ok m -> mmodify m i f = Ret m' -> bytes_ok m'.
Proof.
  intros Hm H. apply obind_Ret_inv in H as (b & _ & H). eapply bytes_ok_mwrite; [done | | done].
  constructor; [apply byte_ok_u8 | constructor].
Qed.

(** ** Marking *)

(** The bytes after the three stores, for a run of the bits [fb] of byte [F]
    to [lb] of byte [L]. *)
Lemma touch_bytes f fill m index n :
  byte_ok fill -> bytes_ok m -> 0 <= index -> 0 < n -> index + n <= 8 * zlen m -> 8 * zlen m < 2 ^ 64 ->
  let F := index / 8 in let fb := index mod 8 in
  let L := (index + n - 1) / 8 in let lb := (index + n - 1) mod 8 in
  exists m', touch_blocks f fill m index n = Ret m' /\ zlen m' = zlen m /\ bytes_ok m' /\
    forall j, 0 <= j -> m' !! Z.to_nat j =
      if (F <? j) && (j <? L) then Some fill
      else if j =? F then (fun b => u8 (f b (first_mask fb lb (L - F + 1)))) <$> m !! Z.to_nat j
      else if j =? L then (fun b => u8 (f b (last_mask lb))) <$> m !! Z.to_nat j
      else m !! Z.to_nat j.
Proof.
  intros Hbf Hm Hi Hn Hfit Hsz F fb L lb. unfold touch_blocks.
  rewrite (wrap_small 64 (index + n - 1)) by lia. fold F fb L lb.
  assert (0 <= F <= L /\ L < zlen m) as [HF HL] by (unfold F, L; Z.to_euclidean_division_equations; lia).
  rewrite (wrap_small 64) by lia.
  destruct (mmodify_total m F (fun b => f b (first_mask fb lb (L - F + 1)))) as (m1 & Hm1 & Hl1); [lia|].
  rewrite Hm1. cbn [obind]. pose proof (bytes_ok_mmodify _ _ _ _ Hm Hm1) as Hb1.
  pose proof (fun j => mmodify_lookup _ _ _ _ j Hm1) as Hj1.
  destruct (Z.ltb_spec 1 (L - F + 1)); cycle 1; cbn [obind].
  { destruct (Z.ltb_spec 2 (L - F + 1)); [lia|]. exists m1. split_and!; [done | lia | done |]. intros j Hj.
    rewrite Hj1 by done. destruct (Z.ltb_spec F j), (Z.ltb_spec j L), (Z.eqb_spec j F), (Z.eqb_spec j L); try lia; done. }
  destruct (mmodify_total m1 L (fun b => f b (last_mask lb))) as (m2 & Hm2 & Hl2); [lia|].
  rewrite Hm2. cbn [obind]. pose proof (bytes_ok_mmodify _ _ _ _ Hb1 Hm2) as Hb2.
  pose proof (fun j => mmodify_lookup _ _ _ _ j Hm2) as Hj2.
  destruct (Z.ltb_spec 2 (L - F + 1)); cycle 1.
  { exists m2. split_and!; [done | lia | done |]. intros j Hj. rewrite Hj2, Hj1 by done.
    destruct (Z.ltb_spec F j), (Z.ltb_spec j L), (Z.eqb_spec j F), (Z.eqb_spec j L); try lia; done. }
  assert (zlen (zrep (L - F + 1 - 2) fill) = L - F + 1 - 2) as Hz by (apply zlen_rep; lia).
  destruct (mwrite m2 (F + 1) (zrep (L - F + 1 - 2) fill)) as [m3| | |] eqn:E; [|by rewrite mwrite_ok in E by lia ..].
  exists m3. split_and!; [done | by rewrite (mwrite_len _ _ _ _ E); lia | |].
  { eapply bytes_ok_mwrite; [done | by apply Forall_replicate | done]. }
  intros j Hj. rewrite (mwrite_lookup _ _ _ _ _ E), Hz, Hj2, Hj1 by done.
  destruct (Z.leb_spec (F + 1) j), (Z.ltb_spec j (F + 1 + (L - F + 1 - 2))), (Z.ltb_spec F j), (Z.ltb_spec j L),
    (Z.eqb_spec j F), (Z.eqb_spec j L); try lia; try done; cbn [andb]; apply lookup_replicate_2; lia.
Qed.

Lemma touch_blocks_spec f fill v m index n :
  combines f fill v -> bytes_ok m -> 0 <= index -> 0 < n -> index + n <= 8 * zlen m -> 8 * zlen m < 2 ^ 64 ->
  exists m', touch_blocks f fill m index n = Ret m' /\ zlen m' = zlen m /\ bytes_ok m' /\
    forall k, 0 <= k -> used m' k = if in_run index n k then v else used m k.
Proof.
  intros (Hf & Hfill & Hbf) Hm Hi Hn Hfit Hsz.
  destruct (touch_bytes f fill m index n Hbf Hm Hi Hn Hfit Hsz) as (m' & -> & Hl & Hb & Hbytes).
  exists m'. split_and!; [done | done | done |]. intros k Hk.
  pose proof (Z.div_mod k 8 ltac:(lia)). pose proof (Z.mod_pos_bound k 8 ltac:(lia)).
  pose proof (Z.div_mod index 8 ltac:(lia)). pose proof (Z.mod_pos_bound index 8 ltac:(lia)).
  pose proof (Z.div_mod (index + n - 1) 8 ltac:(lia)). pose proof (Z.mod_pos_bound (index + n - 1) 8 ltac:(lia)).
  assert (0 <= k / 8) by (apply Z.div_pos; lia).
  rewrite !used_lookup, Hbytes by lia. set (q := k / 8) in *. set (p := k mod 8) in *. unfold in_run.
  destruct (m !! Z.to_nat q) as [b|] eqn:Eb; cycle 1.
  { apply lookup_ge_None in Eb. unfold zlen in *. repeat (zcase; try lia); done. }
  destruct (Z.ltb_spec (index / 8) q), (Z.ltb_spec q ((index + n - 1) / 8)); cbn [andb].
  { cbn. rewrite Hfill by lia. repeat (zcase; try lia); done. }
  all: destruct (Z.eqb_spec q (index / 8)), (Z.eqb_spec q ((index + n - 1) / 8)); try lia;
    cbn -[Z.testbit Z.mul Z.add Z.sub]; rewrite ?u8_bit, ?Hf by lia; rewrite ?first_mask_bit, ?last_mask_bit by lia;
    repeat (zcase; try lia); done.
Qed.

(** Marking sets exactly the bits of the run, unmarking clears exactly them. *)
Lemma mark_blocks_spec m bs index len :
  bytes_ok m -> 0 < bs -> 0 < len -> 0 <= index -> index + needed_blocks bs len <= 8 * zlen m -> 8 * zlen m < 2 ^ 64 ->
  exists m', cache_mark_blocks m bs index len = Ret (needed_blocks bs len, m') /\ zlen m' = zlen m /\ bytes_ok m' /\
    forall k, 0 <= k -> used m' k = used m k || in_run index (needed_blocks bs len) k.
Proof.
  intros Hm Hb Hl Hi Hfit Hsz. destruct (needed_blocks_spec bs len Hb Hl) as [Hn _].
  destruct (touch_blocks_spec _ _ _ m index _ combines_lor Hm Hi Hn Hfit Hsz) as (m' & E & Hl' & Hb' & H').
  exists m'. unfold cache_mark_blocks. rewrite E. split_and!; [done | done | done |]. intros k Hk.
  rewrite H' by done. destruct (in_run _ _ k); [by rewrite orb_true_r | by rewrite orb_false_r].
Qed.

Lemma unmark_blocks_spec m bs index len :
  bytes_ok m -> 0 < bs -> 0 < len -> 0 <= index -> index + needed_blocks bs len <= 8 * zlen m -> 8 * zlen m < 2 ^ 64 ->
  exists m', cache_unmark_blocks m bs index len = Ret m' /\ zlen m' = zlen m /\ bytes_ok m' /\
    forall k, 0 <= k -> used m' k = used m k && negb (in_run index (needed_blocks bs len) k).
Proof.
  intros Hm Hb Hl Hi Hfit Hsz. destruct (needed_blocks_spec bs len Hb Hl) as [Hn _].
  destruct (touch_blocks_spec _ _ _ m index _ combines_clear Hm Hi Hn Hfit Hsz) as (m' & E & Hl' & Hb' & H').
  exists m'. split_and!; [done | done | done |]. intros k Hk.
  rewrite H' by done. destruct (in_run _ _ k); [by rewrite andb_false_r | by rewrite andb_true_r].
Qed.

(** ** Searching *)

(** The clear bits right before [cur], inside the segment that starts at
    [start]: [r] describes them, and no run of [needed] fits before [cur]. *)
Record scanning (m : list Z) (needed start cur : Z) (r : run) : Prop := {
  sc_found : 0 <= r.(found) < needed;
  sc_base : if r.(found) =? 0 then r.(base) = NO_BLOCKS
            else 0 <= r.(base) < NO_BLOCKS /\ r.(base) * 8 + r.(base_bit) = cur - r.(found);
  sc_start : 0 <= start <= cur - r.(found);
  sc_free : free_run m (cur - r.(found)) r.(found);
  sc_max : cur - r.(found) = start \/ used m (cur - r.(found) - 1) = true;
  sc_none : forall a, start <= a -> a + needed <= cur -> ~ free_run m a needed;
}.

Lemma scanning_start m needed cur : 0 < needed -> 0 <= cur -> scanning m needed cur cur no_run.
Proof.
  intros Hn Hc. split; cbn; try lia. intros k Hk. lia.
Qed.

Lemma bit_test num p : 0 <= p < 8 -> negb (Z.land num (Z.shiftl 1 (7 - p)) =? 0) = Z.testbit num (7 - p).
Proof.
  intros Hp. rewrite Z.shiftl_1_l. destruct (Z.testbit num (7 - p)) eqn:E.
  - apply negb_true_iff, Z.eqb_neq. intros H.
    assert (Z.testbit (Z.land num (2 ^ (7 - p))) (7 - p) = true) as Ht
      by (rewrite Z.land_spec, E, Z.pow2_bits_true by lia; done).
    by rewrite H, Z.testbit_0_l in Ht.
  - apply negb_false_iff, Z.eqb_eq. apply Z.bits_inj'. intros i Hi. rewrite Z.land_spec, Z.testbit_0_l.
    destruct (Z.eq_dec i (7 - p)) as [->|Hne]; [by rewrite E|].
    rewrite (Z.pow2_bits_false (7 - p) i) by lia. by rewrite andb_false_r.
Qed.

Lemma scanning_used m needed start cur r :
  scanning m needed start cur r -> used m cur = true -> scanning m needed start (cur + 1) no_run.
Proof.
  intros [Hf Hb Hs Hfr Hmax Hnone] Hu. split; cbn; try lia.
  - intros k Hk. lia.
  - right. by replace (cur + 1 - 0 - 1) with cur by lia.
  - intros a H1 H2 Hfree. destruct (decide (a + needed <= cur)); [by apply (Hnone a)|].
    specialize (Hfree cur ltac:(lia)). congruence.
Qed.

Lemma scanning_clear m needed start cur j p r :
  scanning m needed start cur r -> used m cur = false -> cur = 8 * j + p -> 0 <= j < NO_BLOCKS -> 0 <= p < 8 ->
  let r1 := if r.(base) =? NO_BLOCKS then mk_run r.(found) j p else r in
  let r2 := mk_run (r1.(found) + 1) r1.(base) r1.(base_bit) in
  r2.(base) * 8 + r2.(base_bit) + r2.(found) = cur + 1 /\ 0 <= r2.(base) /\ start <= cur + 1 - r2.(found) /\
  free_run m (cur + 1 - r2.(found)) r2.(found) /\
  (r2.(found) <> needed -> scanning m needed start (cur + 1) r2).
Proof.
  intros [Hf Hb Hs Hfr Hmax Hnone] Hu Hcur Hj Hp r1 r2.
  assert (r2.(found) = r.(found) + 1 /\ 0 <= r2.(base) < NO_BLOCKS /\
          r2.(base) * 8 + r2.(base_bit) = cur - r.(found)) as (E1 & E2 & E3).
  { unfold r2, r1. destruct (Z.eqb_spec (found r) 0) as [E0|E0].
    - rewrite Hb, Z.eqb_refl. cbn. lia.
    - destruct (Z.eqb_spec (base r) NO_BLOCKS); [lia|]. cbn. lia. }
  assert (free_run m (cur + 1 - r2.(found)) r2.(found)) as Hfree.
  { intros k Hk. destruct (decide (k = cur)) as [->|]; [done|]. apply Hfr. lia. }
  split_and!; [lia | lia | lia | done |]. intros Hne. split; try lia.
  - destruct (Z.eqb_spec (found r2) 0); lia.
  - done.
  - replace (cur + 1 - found r2) with (cur - found r) by lia. done.
  - intros a H1 H2 Hfa. destruct (decide (a + needed <= cur)); [by apply (Hnone a)|].
    destruct Hmax as [Hm|Hm]; [lia|]. specialize (Hfa (cur - found r - 1) ltac:(lia)). congruence.
Qed.

(** What a result means: a run of free blocks inside the segment. *)
Definition found_at (m : list Z) (needed start res : Z) : Prop :=
  start <= res /\ res + needed <= 8 * zlen m /\ free_run m res needed.

Lemma scan_byte_spec n m needed num j p start r :
  mread m j = Ret num -> 8 * zlen m < 2 ^ 64 -> 0 <= p -> Z.of_nat n + p = 8 ->
  scanning m needed start (8 * j + p) r ->
  match scan_byte n needed num j p r with
  | inl res => found_at m needed start res
  | inr r' => scanning m needed start (8 * j + 8) r'
  end.
Proof.
  intros Hnum Hsz. destruct (mread_inv _ _ _ Hnum) as [Hj Hl].
  revert p r. induction n as [|n IH]; intros p r Hp Hn Hsc; cbn [scan_byte].
  { by replace (8 * j + p) with (8 * j + 8) in Hsc by lia. }
  assert (used m (8 * j + p) = Z.testbit num (7 - p)) as Hu.
  { rewrite used_lookup. replace ((8 * j + p) / 8) with j by (apply Z.div_unique with p; lia).
    replace ((8 * j + p) mod 8) with p by (apply Z.mod_unique with j; lia). by rewrite Hl. }
  rewrite bit_test by lia. destruct (Z.testbit num (7 - p)) eqn:E.
  - apply IH; [lia | lia |]. replace (8 * j + (p + 1)) with (8 * j + p + 1) by lia. by eapply scanning_used.
  - destruct (scanning_clear m needed start (8 * j + p) j p r Hsc Hu ltac:(lia)) as (E1 & E2 & E3 & E4 & E5);
      [unfold NO_BLOCKS; lia | lia |].
    set (r1 := if base r =? NO_BLOCKS then mk_run (found r) j p else r) in *.
    set (r2 := mk_run (found r1 + 1) (base r1) (base_bit r1)) in *.
    destruct (Z.eqb_spec (found r2) needed) as [Ef|Ef].
    + assert (0 <= base r2 * 8 + base_bit r2) by (pose proof (sc_start _ _ _ _ _ Hsc); lia).
      pose proof (sc_found _ _ _ _ _ Hsc). rewrite wrap_small by lia. replace (base r2 * 8 + base_bit r2) with (8 * j + p + 1 - found r2) by lia.
      split; [lia|]. split; [lia|]. by rewrite <- Ef.
    + apply IH; [lia | lia |]. replace (8 * j + (p + 1)) with (8 * j + p + 1) by lia. by apply E5.
Qed.

Lemma scan_loop_second n m needed byte j r :
  8 * zlen m < 2 ^ 64 -> 0 <= j -> j + Z.of_nat n <= zlen m -> scanning m needed 0 (8 * j) r ->
  exists res, scan_loop n m needed byte 0 j r = Ret res /\
    (found_at m needed 0 res \/
     (res = NO_BLOCKS /\ forall a, 0 <= a -> a + needed <= 8 * (j + Z.of_nat n) -> ~ free_run m a needed)).
Proof.
  intros Hsz. revert j r. induction n as [|n IH]; intros j r Hj Hn Hsc; cbn [scan_loop].
  { exists NO_BLOCKS. split; [done|]. right. split; [done|]. intros a Ha Hb.
    apply (sc_none _ _ _ _ _ Hsc); lia. }
  destruct (mread_in m j) as (num & Hnum & _); [lia|]. rewrite Hnum. cbn [obind].
  replace (if j =? byte then 0 else 0) with 0 by by destruct (j =? byte).
  pose proof (scan_byte_spec 8 m needed num j 0 0 r Hnum Hsz ltac:(lia) ltac:(lia)) as H.
  rewrite Z.add_0_r in H. specialize (H Hsc). change (Z.to_nat (8 - 0)) with 8%nat.
  destruct (scan_byte 8 needed num j 0 r) as [res|r']; [exists res; auto|].
  destruct (Z.leb_spec (zlen m) (j + 1)).
  - replace n with 0%nat by lia. cbn [scan_loop]. exists NO_BLOCKS. split; [done|]. right. split; [done|].
    intros a Ha Hb. apply (sc_none _ _ _ _ _ H); lia.
  - destruct (IH (j + 1) r') as (res & E & Hr); [lia | lia | by replace (8 * (j + 1)) with (8 * j + 8) by lia |].
    exists res. split; [done|]. destruct Hr as [?|[-> Hr]]; [by left|]. right. split; [done|]. intros a Ha Hb.
    apply Hr; lia.
Qed.

Lemma scan_loop_first n m needed byte bit j p r :
  8 * zlen m < 2 ^ 64 -> 0 < needed -> 0 <= byte <= j -> j < zlen m -> 0 <= bit < 8 ->
  p = (if j =? byte then bit else 0) ->
  (Z.to_nat (zlen m - j) <= n)%nat -> Z.of_nat n <= zlen m - j + byte + (if 0 <? bit then 1 else 0) ->
  scanning m needed (8 * byte + bit) (8 * j + p) r ->
  exists res, scan_loop n m needed byte bit j r = Ret res /\
    (found_at m needed 0 res \/
     (res = NO_BLOCKS /\
      forall a, free_run m a needed -> 0 <= a -> a + needed <= 8 * zlen m ->
        a < 8 * byte + bit /\ 8 * (Z.of_nat n - (zlen m - j)) < a + needed)).
Proof.
  intros Hsz Hnd. revert j p r. induction n as [|n IH]; intros j p r Hj Hjm Hbit -> Hn1 Hn2 Hsc; [lia|].
  cbn [scan_loop]. destruct (mread_in m j) as (num & Hnum & _); [lia|]. rewrite Hnum. cbn [obind].
  set (p := if j =? byte then bit else 0) in *. assert (0 <= p < 8) by (unfold p; destruct (j =? byte); lia).
  pose proof (scan_byte_spec (Z.to_nat (8 - p)) m needed num j p _ r Hnum Hsz ltac:(lia) ltac:(lia) Hsc) as H'.
  destruct (scan_byte _ needed num j p r) as [res|r'].
  { exists res. split; [done|]. left. destruct H' as (? & ? & ?). split; [lia | done]. }
  destruct (Z.leb_spec (zlen m) (j + 1)).
  - destruct (scan_loop_second n m needed byte 0 no_run Hsz) as (res & E & Hr);
      [lia | destruct (0 <? bit); lia | apply scanning_start; lia |].
    exists res. split; [done|]. destruct Hr as [?|[-> Hr]]; [by left|]. right. split; [done|].
    intros a Hfree Ha Hb. split.
    + apply Znot_ge_lt. intros Hge. apply (sc_none _ _ _ _ _ H' a); [lia | lia | done].
    + apply Znot_ge_lt. intros Hge. apply (Hr a); [lia | lia | done].
  - destruct (IH (j + 1) 0 r') as (res & E & Hr);
      [lia | lia | lia | destruct (Z.eqb_spec (j + 1) byte); [lia | done] | lia | lia |
       by replace (8 * (j + 1) + 0) with (8 * j + 8) by lia |].
    exists res. split; [done|]. destruct Hr as [?|[-> Hr]]; [by left|]. right. split; [done|].
    intros a Hfree Ha Hb. destruct (Hr a Hfree Ha Hb). split; lia.
Qed.

(** The end of the second part of the search: the byte of the start position
    is scanned again as a whole. *)
Definition rescan_end (pos : Z) : Z := 8 * (pos / 8) + (if 0 <? pos mod 8 then 8 else 0).

Lemma find_free_run m pos bs need :
  bytes_ok m -> 8 * zlen m < 2 ^ 64 -> 0 <= pos < 8 * zlen m -> 0 < bs -> 0 < need ->
  exists res, upsgi_cache_find_free_blocks m pos bs need = Ret res /\
    ((0 <= res /\ res + needed_blocks bs need <= 8 * zlen m /\ free_run m res (needed_blocks bs need)) \/
     (res = NO_BLOCKS /\
      forall a, free_run m a (needed_blocks bs need) -> 0 <= a -> a + needed_blocks bs need <= 8 * zlen m ->
        a < pos /\ rescan_end pos < a + needed_blocks bs need)).
Proof.
  intros Hm Hsz Hpos Hb Hn. destruct (needed_blocks_spec bs need Hb Hn) as [Hnd _].
  unfold upsgi_cache_find_free_blocks.
  replace (if 0 <? pos then (pos / 8, pos mod 8) else (0, 0)) with (pos / 8, pos mod 8)
    by (destruct (Z.ltb_spec 0 pos); [done | by replace pos with 0 by lia]).
  pose proof (Z.div_mod pos 8 ltac:(lia)). pose proof (Z.mod_pos_bound pos 8 ltac:(lia)).
  assert (0 <= pos / 8) by (apply Z.div_pos; lia).
  set (n := if 0 <? pos mod 8 then zlen m + 1 else zlen m).
  destruct (scan_loop_first (Z.to_nat n) m (needed_blocks bs need) (pos / 8) (pos mod 8) (pos / 8) (pos mod 8) no_run)
    as (res & E & Hr); try (unfold n; destruct (0 <? pos mod 8); lia).
  { by rewrite Z.eqb_refl. }
  { replace (8 * (pos / 8) + pos mod 8) with pos by lia. apply scanning_start; lia. }
  exists res. split; [exact E|]. destruct Hr as [?|[-> Hr]]; [by left|]. right. split; [done|].
  intros a Hf Ha Hfit. destruct (Hr a Hf Ha Hfit) as [Ha1 Ha2]. unfold rescan_end.
  unfold n in Ha2. destruct (0 <? pos mod 8); lia.
Qed.

(** The search for free blocks returns, reads only the bitmap, and gives
    the start of a run of free blocks of the size asked for, or the marker;
    the marker means that every free run of that size lies across the
    position the search starts from. *)
Theorem find_free_blocks_spec m pos bs need :
  bytes_ok m -> 8 * zlen m < 2 ^ 64 -> 0 <= pos < 8 * zlen m -> 0 < bs -> 0 < need ->
  exists res, upsgi_cache_find_free_blocks m pos bs need = Ret res /\
    ((0 <= res /\ res + needed_blocks bs need <= 8 * zlen m /\ free_run m res (needed_blocks bs need)) \/
     (res = NO_BLOCKS /\
      forall a, free_run m a (needed_blocks bs need) -> 0 <= a -> a + needed_blocks bs need <= 8 * zlen m ->
        a < pos /\ rescan_end pos < a + needed_blocks bs need)).
Proof. apply find_free_run. Qed.

Lemma find_free_blocks_spec_witness :
  exists res, upsgi_cache_find_free_blocks [192; 1] 3 4 9 = Ret res /\
    ((0 <= res /\ res + needed_blocks 4 9 <= 8 * zlen [192; 1] /\ free_run [192; 1] res (needed_blocks 4 9)) \/
     (res = NO_BLOCKS /\
      forall a, free_run [192; 1] a (needed_blocks 4 9) -> 0 <= a -> a + needed_blocks 4 9 <= 8 * zlen [192; 1] ->
        a < 3 /\ rescan_end 3 < a + needed_blocks 4 9)).
Proof.
  apply (find_free_blocks_spec [192; 1] 3 4 9); [by apply bytes_ok_check | by vm_compute | by vm_compute | lia | lia].
Defined.

(** A run across the start position is missed: with every block free and the
    position at 8, sixteen blocks are not found although the bitmap has
    exactly sixteen. *)
Theorem find_free_blocks_misses_straddling :
  free_run [0; 0] 0 16 /\ upsgi_cache_find_free_blocks [0; 0] 8 1 16 = Ret NO_BLOCKS.
Proof.
  split; [|by vm_compute]. intros k Hk. rewrite used_lookup.
  assert (k / 8 = 0 \/ k / 8 = 1) as [-> | ->] by (Z.to_euclidean_division_equations; lia);
    apply Z.testbit_0_l.
Qed.

(** The bitmap of a new cache: the blocks are free, the bits after them are not. *)
Lemma init_bitmap_spec blocks :
  0 < blocks ->
  exists m, init_bitmap blocks = Ret m /\ bytes_ok m /\ blocks <= 8 * zlen m < blocks + 8 /\
    forall k, 0 <= k < 8 * zlen m -> used m k = (blocks <=? k).
Proof.
  intros Hb. unfold init_bitmap.
  pose proof (Z.div_mod blocks 8 ltac:(lia)). pose proof (Z.mod_pos_bound blocks 8 ltac:(lia)).
  assert (0 <= blocks / 8) by (apply Z.div_pos; lia).
  set (q := blocks / 8) in *. set (r := blocks mod 8) in *.
  assert (forall n k, 0 <= k < 8 * n -> zrep n 0 !! Z.to_nat (k / 8) = Some 0) as Hrep.
  { intros n k Hk. unfold zrep. apply lookup_replicate_2. Z.to_euclidean_division_equations; lia. }
  assert (forall n, bytes_ok (zrep n 0)) as Hok by (intros; by apply Forall_replicate).
  destruct (Z.ltb_spec 0 r).
  - assert (zlen (zrep (q + 1) 0) = q + 1) as Hz by (apply zlen_rep; lia).
    destruct (mwrite (zrep (q + 1) 0) (q + 1 - 1) [Z.shiftr 255 r]) as [m| | |] eqn:E;
      [|by rewrite mwrite_ok in E by (change (zlen [Z.shiftr 255 r]) with 1; lia) ..].
    assert (byte_ok (Z.shiftr 255 r)).
    { unfold byte_ok. rewrite Z.shiftr_div_pow2 by lia. pose proof (Z.pow_pos_nonneg 2 r). 
      split; [apply Z.div_pos; lia|]. apply Z.div_lt_upper_bound; [lia|]. nia. }
    pose proof (mwrite_len _ _ _ _ E) as Hlen. exists m. split_and!; [done | | lia | lia |].
    { eapply bytes_ok_mwrite; [apply Hok | | done]. by constructor. }
    intros k Hk. assert (0 <= k / 8) by (apply Z.div_pos; lia). rewrite used_lookup, (mwrite_lookup _ _ _ _ _ E) by done.
    change (zlen [Z.shiftr 255 r]) with 1. rewrite (Hrep (q + 1)) by lia.
    pose proof (Z.div_mod k 8 ltac:(lia)). pose proof (Z.mod_pos_bound k 8 ltac:(lia)).
    destruct (Z.leb_spec (q + 1 - 1) (k / 8)), (Z.ltb_spec (k / 8) (q + 1 - 1 + 1)); try lia; cbn [andb].
    + replace (Z.to_nat (k / 8 - (q + 1 - 1))) with 0%nat by lia. cbn -[Z.testbit Z.shiftr Z.sub].
      replace (Z.shiftr 255 r) with (first_mask r 7 2) by done. rewrite first_mask_bit by lia.
      repeat (zcase; try lia); done.
    + cbn. rewrite Z.testbit_0_l. zcase; [lia | done].
  - exists (zrep q 0). rewrite zlen_rep by lia. split_and!; [done | done | lia | lia |]. intros k Hk.
    rewrite used_lookup, Hrep by lia. cbn. rewrite Z.testbit_0_l. zcase; [lia | done].
Qed.

End Bitmap.
