(* ===== verification/Cache.v ===== *)
(** The shared memory cache (core/cache.c): a table of items with chains for
    the hash slots, a stack of unused items, a list of the items by last use
    and, in bitmap mode, runs of data blocks.

    The arrays of the source are finite maps from their indices: an access
    outside one is [Fault].  [upsgi_now()] is the argument [now]; the lock is
    held by the callers around each operation. *)
From S2P Require Import Prelude Clib Buffer Packet Protocol Hash Bitmap.

Module Cache.
Import Bitmap.

(** * Data *)

(** [struct upsgi_cache_item]; the key area has [keysize] bytes. *)
Record item : Type := mk_item {
  i_flags : Z;
  i_keysize : Z;
  i_hash : Z;
  i_valsize : Z;
  i_first_block : Z;
  i_expires : Z;
  i_hits : Z;
  i_prev : Z;
  i_next : Z;
  i_lru_prev : Z;
  i_lru_next : Z;
  i_key : list Z;
}.
#[export] Instance expand_item : Expand item := fun i =>
  mk_item (i_flags i) (i_keysize i) (i_hash i) (i_valsize i) (i_first_block i) (i_expires i) (i_hits i)
    (i_prev i) (i_next i) (i_lru_prev i) (i_lru_next i) (i_key i).

(** The fields of [struct upsgi_cache] that its creation fixes, with
    [upsgi.master_process]. *)
Record cache_conf : Type := mk_conf {
  uc_max_items : Z;
  uc_keysize : Z;
  uc_blocks : Z;
  uc_blocksize : Z;
  uc_max_item_size : Z;
  uc_hashsize : Z;
  uc_hash : list Z -> Z;
  uc_use_bitmap : bool;
  uc_purge_lru : bool;
  uc_lazy_expire : bool;
  uc_no_expire : bool;
  uc_clear_on_full : bool;
  uc_sweep_on_full : Z;
  uc_use_last_modified : bool;
  uc_math_initial : Z;
  uc_nodes : bool;
  uc_master_process : bool;
}.

(** The others.  [sent] holds the datagrams for the nodes, oldest first. *)
Record cache : Type := mk_cache {
  items : gmap Z item;
  hashtable : gmap Z Z;
  unused_stack : gmap Z Z;
  stack_ptr : Z;
  bitmap : list Z;
  bitmap_pos : Z;
  cdata : list Z;
  n_items : Z;
  lru_head : Z;
  lru_tail : Z;
  next_scan : Z;
  cfull : Z;
  chits : Z;
  cmiss : Z;
  last_modified_at : Z;
  sent : list (list Z);
}.
#[export] Instance expand_cache : Expand cache := fun c =>
  mk_cache (items c) (hashtable c) (unused_stack c) (stack_ptr c) (bitmap c) (bitmap_pos c) (cdata c)
    (n_items c) (lru_head c) (lru_tail c) (next_scan c) (cfull c) (chits c) (cmiss c) (last_modified_at c)
    (sent c).

Definition FLAG_UNGETTABLE : Z := 1.
Definition FLAG_UPDATE : Z := 2.
Definition FLAG_LOCAL : Z := 4.
Definition FLAG_ABSEXPIRE : Z := 8.
Definition FLAG_MATH : Z := 16.
Definition FLAG_INC : Z := 32.
Definition FLAG_DEC : Z := 64.
Definition FLAG_MUL : Z := 128.
Definition FLAG_DIV : Z := 256.
Definition FLAG_FIXEXPIRE : Z := 512.

Definition has (flags f : Z) : bool := negb (Z.land flags f =? 0).

(** * Array access *)

Definition aget {A} (m : gmap Z A) (i : Z) : outcome A :=
  match m !! i with Some x => Ret x | None => Fault end.
Definition aset {A} (m : gmap Z A) (i : Z) (x : A) : outcome (gmap Z A) :=
  match m !! i with Some _ => Ret (<[i:=x]> m) | None => Fault end.

Definition cache_item (i : Z) (c : cache) : outcome item := aget c.(items) i.
Definition with_item (i : Z) (f : item -> item) (c : cache) : outcome cache :=
  let* it := cache_item i c in Ret (c<|items := <[i:=f it]> c.(items)|>).
Definition set_slot (h v : Z) (c : cache) : outcome cache :=
  let* t := aset c.(hashtable) h v in Ret (c<|hashtable := t|>).

(** The loop [for (i = 1; i < max_items; i++)]. *)
Fixpoint for_items {S : Type} (n : nat) (i : Z) (body : Z -> S -> outcome S) (s : S) : outcome S :=
  match n with
  | O => Ret s
  | Datatypes.S n => let* s := body i s in for_items n (i + 1) body s
  end.
Definition each_item {S : Type} (g : cache_conf) (body : Z -> S -> outcome S) (s : S) : outcome S :=
  for_items (Z.to_nat (g.(uc_max_items) - 1)) 1 body s.

(** * The list by last use *)

Definition lru_remove_item (index : Z) (c : cache) : outcome cache :=
  let* curr := cache_item index c in
  let* c := if negb (curr.(i_lru_next) =? 0)
            then with_item curr.(i_lru_next) (fun next => next<|i_lru_prev := curr.(i_lru_prev)|>) c
            else Ret (c<|lru_tail := curr.(i_lru_prev)|>) in
  let* curr := cache_item index c in
  if negb (curr.(i_lru_prev) =? 0)
  then with_item curr.(i_lru_prev) (fun prev => prev<|i_lru_next := curr.(i_lru_next)|>) c
  else Ret (c<|lru_head := curr.(i_lru_next)|>).

Definition lru_add_item (index : Z) (c : cache) : outcome cache :=
  let* c := if negb (c.(lru_tail) =? 0)
            then with_item c.(lru_tail) (fun prev => prev<|i_lru_next := index|>) c
            else Ret (c<|lru_head := index|>) in
  let* c := with_item index (fun curr => curr<|i_lru_next := 0|><|i_lru_prev := c.(lru_tail)|>) c in
  Ret (c<|lru_tail := index|>).

(** * Datagrams for the nodes *)

(** [vallen] and [_pktsize] are [uint16_t]. *)
Definition udp_command (key val : list Z) (expires cmd : Z) : list Z :=
  let val := Packet.arg16 val in
  let es := digits 10 expires in
  let body := le_bytes16 (zlen key) ++ key ++
    (if cmd =? 10 then le_bytes16 (zlen val) ++ val ++ le_bytes16 (zlen es) ++ es else []) in
  [111] ++ le_bytes16 (u16 (zlen body)) ++ [cmd] ++ body.

Definition cache_send_udp_command (key val : list Z) (expires cmd : Z) (c : cache) : cache :=
  c<|sent := c.(sent) ++ [udp_command key val expires cmd]|>.

(** * Deletion *)

(** [unlink prev and next (if any)] *)
Definition unlink_item (g : cache_conf) (uci : item) (c : cache) : outcome cache :=
  let slot := uci.(i_hash) mod g.(uc_hashsize) in
  let* c := if negb (uci.(i_prev) =? 0)
            then with_item uci.(i_prev) (fun ucii => ucii<|i_next := uci.(i_next)|>) c
            else set_slot slot uci.(i_next) c in
  let* c := if negb (uci.(i_next) =? 0)
            then with_item uci.(i_next) (fun ucii => ucii<|i_prev := uci.(i_prev)|>) c
            else Ret c in
  if (uci.(i_prev) =? 0) && (uci.(i_next) =? 0) then set_slot slot 0 c else Ret c.

(** [put back the block in unused stack] *)
Definition push_unused (index : Z) (c : cache) : outcome cache :=
  let ptr := c.(stack_ptr) + 1 in
  let* st := aset c.(unused_stack) ptr index in
  Ret (c<|stack_ptr := ptr|><|unused_stack := st|>).

(** The branch for an item that is in use. *)
Definition release_item (g : cache_conf) (index : Z) (c : cache) : outcome cache :=
  let* uci := cache_item index c in
  let* c := if g.(uc_use_bitmap)
            then let* b := cache_unmark_blocks c.(bitmap) g.(uc_blocksize) uci.(i_first_block) uci.(i_valsize) in
                 Ret (c<|bitmap := b|>)
            else Ret c in
  let* c := push_unused index c in
  let* uci := cache_item index c in
  let* c := unlink_item g uci c in
  let* c := if g.(uc_purge_lru) then lru_remove_item index c else Ret c in
  Ret (c<|n_items := u64 (c.(n_items) - 1)|>).

Definition clear_item (it : item) : item :=
  it<|i_keysize := 0|><|i_valsize := 0|><|i_hash := 0|><|i_prev := 0|><|i_next := 0|><|i_expires := 0|>.

(** [upsgi_cache_del2] once the index is known. *)
Definition del_index (g : cache_conf) (now : Z) (key : list Z) (index flags : Z) (c : cache) : outcome (Z * cache) :=
  if index =? 0 then Ret (-1, c)
  else
    let* uci := cache_item index c in
    let* c := if 0 <? uci.(i_keysize) then release_item g index c else Ret c in
    let* c := with_item index clear_item c in
    let c := if g.(uc_use_last_modified) then c<|last_modified_at := now|> else c in
    Ret (0, if g.(uc_nodes) && negb (has flags FLAG_LOCAL) then cache_send_udp_command key [] 0 11 c else c).

(** * Lookup *)

Definition check_lazy (g : cache_conf) (now : Z) (uci : item) (slot : Z) (c : cache) : outcome (Z * cache) :=
  if (uci.(i_expires) =? 0) || negb g.(uc_lazy_expire) then Ret (slot, c)
  (* expired ? *)
  else if uci.(i_expires) <=? now then
    let* (_, c) := del_index g now [] slot FLAG_LOCAL c in Ret (0, c)
  else Ret (slot, c).

Definition item_matches (uci : item) (hash : Z) (key : list Z) : outcome bool :=
  if negb (uci.(i_hash) =? hash) then Ret false
  else if negb (uci.(i_keysize) =? zlen key) then Ret false
  else let* k := mslice uci.(i_key) 0 (zlen key) in Ret (bytes_eqb k key).

(** The loop [while (uci->next)]; [rounds] above [max_items] is the alarm for
    a chain that loops. *)
Fixpoint chain_cycle (fuel : nat) (g : cache_conf) (now hash : Z) (key : list Z) (rounds : Z) (uci : item) (c : cache)
    : outcome (Z * cache) :=
  match fuel with
  | O => NoFuel
  | S fuel =>
      if uci.(i_next) =? 0 then Ret (0, c)
      else
        let slot := uci.(i_next) in
        let* uci := cache_item slot c in
        let rounds := rounds + 1 in
        if (g.(uc_max_items) <? rounds) && negb g.(uc_master_process) then Exited
        else
          let* ok := item_matches uci hash key in
          if ok then check_lazy g now uci slot c else chain_cycle fuel g now hash key rounds uci c
  end.

(** A chain has at most [max_items] items. *)
Definition upsgi_cache_get_index (g : cache_conf) (now : Z) (key : list Z) (c : cache) : outcome (Z * cache) :=
  let hash := g.(uc_hash) key in
  let hash_key := hash mod g.(uc_hashsize) in
  let* slot := aget c.(hashtable) hash_key in
  (* optimization *)
  if slot =? 0 then Ret (0, c)
  else
    let* uci := cache_item slot c in
    (* first round *)
    if negb (uci.(i_hash) mod g.(uc_hashsize) =? hash_key) then Ret (0, c)
    else
      let* ok := item_matches uci hash key in
      if ok then check_lazy g now uci slot c
      else chain_cycle (S (S (Z.to_nat g.(uc_max_items)))) g now hash key 0 uci c.

Definition upsgi_cache_exists2 (g : cache_conf) (now : Z) (key : list Z) (c : cache) : outcome (Z * cache) :=
  let* (index, c) := upsgi_cache_get_index g now key c in Ret (u32 index, c).

Definition upsgi_cache_del2 (g : cache_conf) (now : Z) (key : list Z) (index flags : Z) (c : cache) : outcome (Z * cache) :=
  let* (index, c) := if index =? 0 then upsgi_cache_get_index g now key c else Ret (index, c) in
  del_index g now key index flags c.

(** * Reading *)

Definition lru_touch (g : cache_conf) (index : Z) (c : cache) : outcome cache :=
  if g.(uc_purge_lru) then let* c := lru_remove_item index c in lru_add_item index c else Ret c.

Definition count_hit (index : Z) (c : cache) : outcome cache :=
  let* c := with_item index (fun uci => uci<|i_hits := u64 (uci.(i_hits) + 1)|>) c in
  Ret (c<|chits := u64 (c.(chits) + 1)|>).

Definition count_miss (c : cache) : cache := c<|cmiss := u64 (c.(cmiss) + 1)|>.

(** The bytes at the pointer that is returned, with [*valsize]. *)
Definition item_value (g : cache_conf) (uci : item) (c : cache) : outcome (list Z) :=
  mslice c.(cdata) (uci.(i_first_block) * g.(uc_blocksize)) uci.(i_valsize).

(** [upsgi_cache_get3] with the expiration; [upsgi_cache_get2] is the same
    without it. *)
Definition upsgi_cache_get3 (g : cache_conf) (now : Z) (key : list Z) (c : cache)
    : outcome (option (list Z * Z) * cache) :=
  let* (index, c) := upsgi_cache_get_index g now key c in
  if negb (index =? 0) then
    let* uci := cache_item index c in
    if has uci.(i_flags) FLAG_UNGETTABLE then Ret (None, c)
    else
      let* c := lru_touch g index c in
      let* c := count_hit index c in
      let* v := item_value g uci c in
      Ret (Some (v, uci.(i_expires)), c)
  else Ret (None, count_miss c).

Definition upsgi_cache_get2 (g : cache_conf) (now : Z) (key : list Z) (c : cache)
    : outcome (option (list Z) * cache) :=
  let* (r, c) := upsgi_cache_get3 g now key c in Ret (fst <$> r, c).

(** With the hits; it does not move the item. *)
Definition upsgi_cache_get4 (g : cache_conf) (now : Z) (key : list Z) (c : cache)
    : outcome (option (list Z * Z) * cache) :=
  let* (index, c) := upsgi_cache_get_index g now key c in
  if negb (index =? 0) then
    let* uci := cache_item index c in
    if has uci.(i_flags) FLAG_UNGETTABLE then Ret (None, c)
    else
      let* c := count_hit index c in
      let* v := item_value g uci c in
      Ret (Some (v, uci.(i_hits)), c)
  else Ret (None, count_miss c).

(** A little endian [int64_t]. *)
Fixpoint le_value (l : list Z) : Z :=
  match l with [] => 0 | b :: l => b + 256 * le_value l end.
Definition int64_of (l : list Z) : Z := i64 (le_value l).

Definition read_num (g : cache_conf) (first_block : Z) (c : cache) : outcome Z :=
  let* bs := mslice c.(cdata) (first_block * g.(uc_blocksize)) 8 in Ret (int64_of bs).

Definition upsgi_cache_num2 (g : cache_conf) (now : Z) (key : list Z) (c : cache) : outcome (Z * cache) :=
  let* (index, c) := upsgi_cache_get_index g now key c in
  if negb (index =? 0) then
    let* uci := cache_item index c in
    if has uci.(i_flags) FLAG_UNGETTABLE then Ret (0, c)
    else
      let* c := count_hit index c in
      let* num := read_num g uci.(i_first_block) c in
      Ret (num, c)
  else Ret (0, count_miss c).

(** * A full cache *)

Definition purge_oldest (g : cache_conf) (now : Z) (c : cache) : outcome cache :=
  if g.(uc_purge_lru) && negb (c.(lru_head) =? 0)
  then let* (_, c) := upsgi_cache_del2 g now [] c.(lru_head) FLAG_LOCAL c in Ret c
  else Ret c.

(** The number of items removed, with the cache. *)
Definition sweep_full (g : cache_conf) (now : Z) (c : cache) : outcome (Z * cache) :=
  if c.(next_scan) <=? now then
    let c := c<|next_scan := u64 (now + g.(uc_sweep_on_full))|> in
    each_item g (fun i '(removed, c) =>
      let* uci := cache_item i c in
      if (0 <? uci.(i_expires)) && (uci.(i_expires) <=? now) then
        let* (r, c) := upsgi_cache_del2 g now [] i 0 c in
        Ret (if r =? 0 then removed + 1 else removed, c)
      else Ret (removed, c)) (0, c)
  else Ret (0, c).

Definition clear_items (g : cache_conf) (now : Z) (c : cache) : outcome cache :=
  each_item g (fun i c => let* (_, c) := upsgi_cache_del2 g now [] i 0 c in Ret c) c.

Definition cache_full (g : cache_conf) (now : Z) (c : cache) : outcome cache :=
  let c := c<|cfull := u64 (c.(cfull) + 1)|> in
  let* c := purge_oldest g now c in
  (* we do not need locking here ! *)
  let* (removed, c) := if negb (g.(uc_sweep_on_full) =? 0) then sweep_full g now c else Ret (0, c) in
  if g.(uc_clear_on_full) && (removed =? 0) then clear_items g now c else Ret c.

(** * Writing *)

(** The math operations; an overflow wraps, the division of the smallest
    number by -1 traps. *)
Definition math_op (flags num delta : Z) : outcome Z :=
  if has flags FLAG_INC then Ret (i64 (num + delta))
  else if has flags FLAG_DEC then Ret (i64 (num - delta))
  else if has flags FLAG_MUL then Ret (i64 (num * delta))
  else if has flags FLAG_DIV then
    if delta =? 0 then Ret 0
    else if (num =? - 2 ^ 63) && (delta =? -1) then Fault
    else Ret (Z.quot num delta)
  else Ret num.

Fixpoint le_bytes (n : nat) (x : Z) : list Z :=
  match n with O => [] | S n => x mod 256 :: le_bytes n (x / 256) end.

(** The value is stored at the first block, or the number there is updated;
    [initial] is what the number is set to first. *)
Definition store_value (g : cache_conf) (first_block : Z) (val : list Z) (flags : Z) (initial : option Z) (c : cache)
    : outcome cache :=
  let off := first_block * g.(uc_blocksize) in
  if negb (has flags FLAG_MATH) then
    let* d := mwrite c.(cdata) off val in Ret (c<|cdata := d|>)
  else
    let* c := match initial with
              | Some x => let* d := mwrite c.(cdata) off (le_bytes 8 (u64 x)) in Ret (c<|cdata := d|>)
              | None => Ret c
              end in
    let* num := read_num g first_block c in
    let* num := math_op flags num (int64_of val) in
    let* d := mwrite c.(cdata) off (le_bytes 8 (u64 num)) in
    Ret (c<|cdata := d|>).

(** [mark used blocks] and [optimize the scan] *)
Definition take_blocks (g : cache_conf) (first_block vallen : Z) (c : cache) : outcome cache :=
  let* (needed, b) := cache_mark_blocks c.(bitmap) g.(uc_blocksize) first_block vallen in
  Ret (c<|bitmap := b|><|bitmap_pos := if g.(uc_blocks) <=? u64 (first_block + needed) then 0
                                       else u64 (first_block + needed)|>).

(** [expires += now] and the next scan; the new expiration is returned. *)
Definition relative_expire (now expires flags : Z) (c : cache) : Z * cache :=
  if negb (expires =? 0) && negb (has flags FLAG_ABSEXPIRE) then
    let expires := u64 (expires + now) in
    (expires, if (c.(next_scan) =? 0) || (expires <? c.(next_scan)) then c<|next_scan := expires|> else c)
  else (expires, c).

(** [append to first available next]: the last item of a chain. *)
Fixpoint last_of_chain (fuel : nat) (last_index : Z) (c : cache) : outcome Z :=
  match fuel with
  | O => NoFuel
  | S fuel =>
      let* ucii := cache_item last_index c in
      if ucii.(i_next) =? 0 then Ret last_index else last_of_chain fuel ucii.(i_next) c
  end.

(** [now put the value in the hashtable] *)
Definition link_item (g : cache_conf) (index : Z) (c : cache) : outcome cache :=
  let* uci := cache_item index c in
  let slot := uci.(i_hash) mod g.(uc_hashsize) in
  let* c := with_item index (fun uci => uci<|i_prev := 0|><|i_next := 0|>) c in
  let* last_index := aget c.(hashtable) slot in
  if last_index =? 0 then set_slot slot index c
  else
    let* last_index := last_of_chain (S (Z.to_nat g.(uc_max_items))) last_index c in
    let* c := with_item last_index (fun ucii => ucii<|i_next := index|>) c in
    with_item index (fun uci => uci<|i_prev := last_index|>) c.

(** [memcpy(uci->key, key, keylen)] with the other fields of a new item. *)
Definition fill_item (g : cache_conf) (index : Z) (key : list Z) (expires flags : Z) (c : cache) : outcome cache :=
  let* uci := cache_item index c in
  let* k := mwrite uci.(i_key) 0 key in
  with_item index (fun uci => uci<|i_expires := expires|><|i_hash := g.(uc_hash) key|><|i_hits := 0|>
                                 <|i_flags := flags|><|i_key := k|>) c.

(** The rest of the insertion, from [if (uc->purge_lru)] on: the expiration
    that was stored and the cache. *)
Definition insert_item (g : cache_conf) (now : Z) (index : Z) (key val : list Z) (expires flags : Z) (c : cache)
    : outcome (Z * cache) :=
  let* (expires, c) := if g.(uc_purge_lru) then let* c := lru_add_item index c in Ret (expires, c)
                       else Ret (relative_expire now expires flags c) in
  let* c := fill_item g index key expires flags c in
  let* uci := cache_item index c in
  let* c := store_value g uci.(i_first_block) val flags (Some g.(uc_math_initial)) c in
  (* set this as late as possible (to reduce races risk) *)
  let* c := with_item index (fun uci => uci<|i_valsize := zlen val|><|i_keysize := zlen key|>) c in
  let* c := link_item g index c in
  Ret (expires, c<|n_items := u64 (c.(n_items) + 1)|>).

(** The item [index], taken from the stack, gets its blocks and is filled:
    [None] is [goto end]. *)
Definition place_new (g : cache_conf) (now : Z) (index : Z) (key val : list Z) (expires flags : Z) (c : cache)
    : outcome (option Z * cache) :=
  if negb g.(uc_use_bitmap) then
    let* c := with_item index (fun uci => uci<|i_first_block := index|>) c in
    let* (e, c) := insert_item g now index key val expires flags c in Ret (Some e, c)
  else
    let* first_block := upsgi_cache_find_free_blocks c.(bitmap) c.(bitmap_pos) g.(uc_blocksize) (zlen val) in
    let* c := with_item index (fun uci => uci<|i_first_block := first_block|>) c in
    if first_block =? NO_BLOCKS then
      let c := c<|stack_ptr := c.(stack_ptr) + 1|> in
      let* c := cache_full g now c in Ret (None, c)
    else
      let* c := take_blocks g first_block (zlen val) c in
      let* (e, c) := insert_item g now index key val expires flags c in Ret (Some e, c).

(** The branch for a new key. *)
Definition set_new (g : cache_conf) (now : Z) (key val : list Z) (expires flags : Z) (c : cache)
    : outcome (option Z * cache) :=
  let* c := if c.(stack_ptr) =? 0 then cache_full g now c else Ret c in
  if c.(stack_ptr) =? 0 then Ret (None, c)
  else
    let* index := aget c.(unused_stack) c.(stack_ptr) in
    place_new g now index key val expires flags (c<|stack_ptr := c.(stack_ptr) - 1|>).

(** [we need to find a new series of free blocks]: [false] is [goto end]. *)
Definition move_blocks (g : cache_conf) (now : Z) (index vallen : Z) (c : cache) : outcome (bool * cache) :=
  let* uci := cache_item index c in
  let old_first_block := uci.(i_first_block) in
  let* first_block := upsgi_cache_find_free_blocks c.(bitmap) c.(bitmap_pos) g.(uc_blocksize) vallen in
  if first_block =? NO_BLOCKS then
    let* c := cache_full g now c in Ret (false, c)
  else
    let* c := with_item index (fun uci => uci<|i_first_block := first_block|>) c in
    let* c := take_blocks g first_block vallen c in
    let* b := cache_unmark_blocks c.(bitmap) g.(uc_blocksize) old_first_block uci.(i_valsize) in
    Ret (true, c<|bitmap := b|>).

(** The branch for a key that is there. *)
Definition set_update (g : cache_conf) (now : Z) (index : Z) (val : list Z) (expires flags : Z) (c : cache)
    : outcome (option Z * cache) :=
  let* (expires, c) :=
    if negb (has flags FLAG_FIXEXPIRE) then
      let* (expires, c) := if g.(uc_purge_lru) then let* c := lru_touch g index c in Ret (expires, c)
                           else Ret (relative_expire now expires flags c) in
      let* c := with_item index (fun uci => uci<|i_expires := expires|>) c in Ret (expires, c)
    else Ret (expires, c) in
  let* (ok, c) := if g.(uc_use_bitmap) then move_blocks g now index (zlen val) c else Ret (true, c) in
  if negb ok then Ret (None, c)
  else
    let* uci := cache_item index c in
    let* c := store_value g uci.(i_first_block) val flags None c in
    let* c := with_item index (fun uci => uci<|i_valsize := zlen val|>) c in
    Ret (Some expires, c).

(** The end of a call that was not left by [goto end]; [ret] is its result. *)
Definition set_done (g : cache_conf) (now : Z) (key val : list Z) (expires flags ret : Z) (c : cache) : Z * cache :=
  let c := if g.(uc_use_last_modified) then c<|last_modified_at := now|> else c in
  (ret, if g.(uc_nodes) && (ret =? 0) && negb (has flags FLAG_LOCAL)
        then cache_send_udp_command key val expires 10 c else c).

Definition upsgi_cache_set2 (g : cache_conf) (now : Z) (key val : list Z) (expires flags : Z) (c : cache)
    : outcome (Z * cache) :=
  if (zlen key =? 0) || (zlen val =? 0) then Ret (-1, c)
  else if g.(uc_keysize) <? zlen key then Ret (-1, c)
  else if g.(uc_max_item_size) <? zlen val then Ret (-1, c)
  else if has flags FLAG_MATH && negb (zlen val =? 8) then Ret (-1, c)
  else
    let* (index, c) := upsgi_cache_get_index g now key c in
    if index =? 0 then
      let* (r, c) := set_new g now key val expires flags c in
      match r with
      | Some expires => Ret (set_done g now key val expires flags 0 c)
      | None => Ret (-1, c)
      end
    else if has flags FLAG_UPDATE then
      let* (r, c) := set_update g now index val expires flags c in
      match r with
      | Some expires => Ret (set_done g now key val expires flags 0 c)
      | None => Ret (-1, c)
      end
    else Ret (set_done g now key val expires flags (-1) c).

(** * The sweeper *)

(** One turn of the loop, under the lock; [current_time] is
    [upsgi.current_time]. *)
Definition sweep_one (g : cache_conf) (current_time : Z) (i : Z) (s : Z * cache) : outcome (Z * cache) :=
  let '(freed, c) := s in
  let c := if i =? 1 then c<|next_scan := 0|> else c in
  let* uci := cache_item i c in
  if negb (uci.(i_expires) =? 0) then
    if uci.(i_expires) <=? current_time then
      let* (_, c) := upsgi_cache_del2 g current_time [] i FLAG_LOCAL c in Ret (freed + 1, c)
    else if (c.(next_scan) =? 0) || (uci.(i_expires) <? c.(next_scan))
      then Ret (freed, c<|next_scan := uci.(i_expires)|>)
    else Ret (freed, c)
  else Ret (freed, c).

Definition cache_sweeper_free_items (g : cache_conf) (current_time : Z) (c : cache) : outcome (Z * cache) :=
  if g.(uc_no_expire) || g.(uc_purge_lru) || g.(uc_lazy_expire) then Ret (0, c)
  else if (c.(next_scan) =? 0) || (current_time <? c.(next_scan)) then Ret (0, c)
  else each_item g (sweep_one g current_time) (0, c).

(** The local branch of [upsgi_cache_magic_clear]. *)
Definition upsgi_cache_clear (g : cache_conf) (now : Z) (c : cache) : outcome (Z * cache) :=
  each_item g (fun i '(ret, c) =>
    if negb (ret =? 0) then Ret (ret, c) else upsgi_cache_del2 g now [] i 0 c) (0, c).

(** * Creation *)

Definition empty_item (g : cache_conf) : item := mk_item 0 0 0 0 0 0 0 0 0 0 0 (zrep g.(uc_keysize) 0).

(** [n] entries from index [i] on, and an array of [n] entries. *)
Fixpoint fill {A} (n : nat) (i : Z) (x : Z -> A) : gmap Z A :=
  match n with O => ∅ | S n => <[i:=x i]> (fill n (i + 1) x) end.
Definition calloc {A} (n : Z) (x : Z -> A) : gmap Z A := fill (Z.to_nat n) 0 x.

(** [upsgi_cache_init] without a backing store: the stack holds the items
    1 .. [max_items - 1]; the first one is never used. *)
Definition upsgi_cache_init (g : cache_conf) : outcome cache :=
  let* b := if g.(uc_use_bitmap) then init_bitmap g.(uc_blocks) else Ret [] in
  Ret (mk_cache (calloc g.(uc_max_items) (fun _ => empty_item g)) (calloc g.(uc_hashsize) (fun _ => 0))
         (calloc g.(uc_max_items) (fun i => i)) (g.(uc_max_items) - 1) b 0
         (zrep (g.(uc_blocks) * g.(uc_blocksize)) 0) 0 0 0 0 0 0 0 0 []).

(** ** A cache with a backing store *)

(** One turn of the loop of [upsgi_cache_fix]: the next scan, the number of
    items that are restored and the cache. *)
Definition fix_one (g : cache_conf) (i : Z) (s : Z * Z * cache) : outcome (Z * Z * cache) :=
  let '(next, restored, c) := s in
  (* valid record ? *)
  let* uci := cache_item i c in
  if negb (uci.(i_keysize) =? 0) then
    (* put value in hash_table *)
    let* c := if uci.(i_prev) =? 0 then set_slot (uci.(i_hash) mod g.(uc_hashsize)) i c else Ret c in
    let next := if negb (uci.(i_expires) =? 0) && ((next =? 0) || (uci.(i_expires) <? next)) then uci.(i_expires) else next in
    let c := if (c.(lru_head) =? 0) && (uci.(i_lru_prev) =? 0) then c<|lru_head := i|> else c in
    let c := if (c.(lru_tail) =? 0) && (uci.(i_lru_next) =? 0) then c<|lru_tail := i|> else c in
    Ret (next, restored + 1, c)
  else
    (* put this record in unused stack *)
    let* c := push_unused i c in Ret (next, restored, c).

Definition upsgi_cache_fix (g : cache_conf) (c : cache) : outcome cache :=
  let c := c<|stack_ptr := 0|> in
  let* (next, restored, c) := each_item g (fix_one g) (0, 0, c) in
  Ret (c<|next_scan := next|><|n_items := restored|>).

(** [upsgi_cache_init] with a store: the items and the data are those of the
    file, everything else is new. *)
Definition upsgi_cache_init_store (g : cache_conf) (its : gmap Z item) (data : list Z) : outcome cache :=
  let* b := if g.(uc_use_bitmap) then init_bitmap g.(uc_blocks) else Ret [] in
  upsgi_cache_fix g
    (mk_cache its (calloc g.(uc_hashsize) (fun _ => 0)) (calloc g.(uc_max_items) (fun i => i)) (g.(uc_max_items) - 1) b 0
       data 0 0 0 0 0 0 0 0 []).

(** * Iteration over the keys *)

(** [*pos] and [*uci]: the item at the new position, or the end. *)
Fixpoint keys_loop (n : nat) (g : cache_conf) (orig_pos pos : Z) (uci : option Z) (c : cache) : outcome (option Z * Z) :=
  match n with
  | O => Ret (None, pos + 1)
  | S n =>
      let* slot := aget c.(hashtable) pos in
      let* slot := match uci with
                   | Some i => if pos =? orig_pos then let* it := cache_item i c in Ret it.(i_next) else Ret slot
                   | None => Ret slot
                   end in
      if slot =? 0 then keys_loop n g orig_pos (pos + 1) uci c else Ret (Some slot, pos)
  end.

Definition upsgi_cache_keys (g : cache_conf) (pos : Z) (uci : option Z) (c : cache) : outcome (option Z * Z) :=
  if g.(uc_hashsize) <=? pos then Ret (None, pos)
  else keys_loop (Z.to_nat (g.(uc_hashsize) - pos)) g pos pos uci c.

(** The loop of a caller: the items in the order they are visited. *)
Fixpoint all_keys (fuel : nat) (g : cache_conf) (pos : Z) (uci : option Z) (c : cache) : outcome (list Z) :=
  match fuel with
  | O => NoFuel
  | S fuel =>
      let* (r, pos) := upsgi_cache_keys g pos uci c in
      match r with
      | None => Ret []
      | Some i => let* l := all_keys fuel g pos (Some i) c in Ret (i :: l)
      end
  end.

(** * Datagrams from a node *)

(** One turn of [cache_udp_server_loop]: [buf] is the receive buffer, of which
    [read] has filled the first [len] bytes; a [continue] leaves the cache as
    it was. *)
Definition cache_udp_receive (g : cache_conf) (now : Z) (buf : list Z) (len : Z) (c : cache) : outcome cache :=
  let* b0 := mread buf 0 in
  if negb (b0 =? 111) then Ret c
  else
    let* pktsize := Packet.read16 (zdrop 1 buf) in
    if negb (pktsize =? len - 4) then Ret c
    else
      let* keylen := Packet.read16 (zdrop 4 buf) in
      if pktsize <? 4 + keylen then Ret c
      else
        let* key := mslice buf 6 keylen in
        let* cmd := mread buf 3 in
        if cmd =? 10 then
          (* cache set/update *)
          if pktsize <? keylen + 2 + 2 then Ret c
          else
            let* vallen := Packet.read16 (zdrop (6 + keylen) buf) in
            if pktsize <? 4 + keylen + vallen then Ret c
            else
              let* val := mslice buf (8 + keylen) vallen in
              let* expires :=
                if 2 + keylen + 2 + vallen + 2 <? pktsize then
                  let* ss := Packet.read16 (zdrop (8 + keylen + vallen) buf) in
                  if pktsize <? 6 + keylen + vallen + ss then Ret None
                  else let* es := mslice buf (10 + keylen + vallen) ss in
                       let* n := Protocol.upsgi_str_num es in Ret (Some n)
                else Ret (Some 0) in
              match expires with
              | None => Ret c
              | Some expires =>
                  let* (_, c) := upsgi_cache_set2 g now key val expires
                                   (Z.lor FLAG_UPDATE (Z.lor FLAG_LOCAL FLAG_ABSEXPIRE)) c in Ret c
              end
        else if cmd =? 11 then
          (* cache del *)
          let* (_, c) := upsgi_cache_del2 g now key 0 FLAG_LOCAL c in Ret c
        else Ret c.

End Cache.
