(* ===== verification/Static.v ===== *)
(** Serving static files (core/static.c, [upsgi_fix_range_for_size] of
    core/utils.c): from the document root and the path of a request to the
    response, through path resolution, the containment check, the index files,
    the compressed variants and byte ranges.

    The file system and the compiled regular expressions are parameters: a
    file system does not change while a request is served, and a file that is
    opened is the one that [stat] describes.  A failed call of [stat] leaves
    its argument alone.  There are no route rules. *)
From S2P Require Import Prelude Clib Strings Buffer BodySched Packet ReqBuf ProtoBase HttpDate Mime Writer Protocol Hash Bitmap Cache.
Import Writer ReqBuf.

Module Static.

(** * Data *)

Inductive file_kind : Type := S_IFREG | S_IFDIR | S_IFOTHER.
#[export] Instance file_kind_eq_dec : EqDecision file_kind.
Proof. solve_decision. Defined.

(** [struct stat] *)
Record fstat : Type := mk_stat { st_kind : file_kind; st_size : Z; st_mtime : Z }.
Definition S_ISREG (st : fstat) : bool := bool_decide (st.(st_kind) = S_IFREG).
Definition S_ISDIR (st : fstat) : bool := bool_decide (st.(st_kind) = S_IFDIR).

(** [realpath], [stat] and [open], on the bytes up to the NUL. *)
Record filesystem : Type := mk_fs {
  fs_realpath : list Z -> option (list Z);
  fs_stat : list Z -> option fstat;
  fs_open : list Z -> option (list Z);
}.

Definition cstr (l : list Z) : list Z := match memchr l 0 with Some i => ztake i l | None => l end.

(** A compiled regular expression: does it match? *)
Abbreviation pattern := (list Z -> bool).

(** The options. *)
Record static_conf : Type := mk_sconf {
  static_skip_ext : list (list Z);
  static_gzip_all : bool;
  static_gzip_dir : list (list Z);
  static_gzip_ext : list (list Z);
  static_gzip : list pattern;
  static_index : list (list Z);
  static_safe : list (list Z);
  static_expires_type : list (list Z * list Z);
  static_expires_type_mtime : list (list Z * list Z);
  static_expires : list (pattern * list Z);
  static_expires_mtime : list (pattern * list Z);
  static_expires_path_info : list (pattern * list Z);
  static_expires_path_info_mtime : list (pattern * list Z);
  static_expires_uri : list (pattern * list Z);
  static_expires_uri_mtime : list (pattern * list Z);
  file_serve_mode : Z;
  use_static_cache_paths : Z;
}.

(** The counters of a core. *)
Record counters : Type := mk_counters {
  static_open_calls : Z;
  static_open_failures : Z;
  static_stat_calls : Z;
  static_index_checks : Z;
  static_realpath_calls : Z;
  static_path_cache_hits : Z;
  static_path_cache_misses : Z;
  static_requests : Z;
}.
#[export] Instance expand_counters : Expand counters := fun c =>
  mk_counters (static_open_calls c) (static_open_failures c) (static_stat_calls c) (static_index_checks c)
    (static_realpath_calls c) (static_path_cache_hits c) (static_path_cache_misses c) (static_requests c).

(** The fields of [wsgi_request] that are used, with the dictionary of types,
    the cache of paths and the core.  A date is the memory from its pointer on
    and its length.  [opened] are the names given to [open] and [stat], [open_fds] counts the
    descriptors that are open. *)
Record sreq : Type := mk_sreq {
  resp : response;
  method : list Z;
  uri : list Z;
  encoding : list Z;
  if_modified_since : list Z;
  if_modified_since_len : Z;
  if_range : option (list Z * Z);
  range_parsed : Protocol.upsgi_range;
  range_from : Z;
  range_to : Z;
  vars : reqbuf;
  start_of_request : Z;
  do_not_account_avg_rt : bool;
  routes_applied : bool;
  mimetypes : list Mime.udd;
  cache_paths : option Cache.cache;
  core : counters;
  opened : list (list Z);
  open_fds : Z;
}.
#[export] Instance expand_sreq : Expand sreq := fun r =>
  mk_sreq (resp r) (method r) (uri r) (encoding r) (if_modified_since r) (if_modified_since_len r) (if_range r)
    (range_parsed r) (range_from r) (range_to r) (vars r) (start_of_request r) (do_not_account_avg_rt r)
    (routes_applied r) (mimetypes r) (cache_paths r) (core r) (opened r) (open_fds r).

Definition PATH_MAX : Z := 4096.

Definition close_fd (r : sreq) : sreq := r<|open_fds := r.(open_fds) - 1|>.
Definition count (f : counters -> counters) (r : sreq) : sreq := r<|core := f r.(core)|>.

(** * Names *)

Definition has_suffix (filename ext : list Z) : bool :=
  (zlen ext <=? zlen filename) && upsgi_strncmp (zdrop (zlen filename - zlen ext) filename) ext.

Definition upsgi_static_is_precompressed_target (filename : list Z) : bool :=
  has_suffix filename (chars ".br") || has_suffix filename (chars ".gz").

(** [None]: the name would not fit. *)
Definition upsgi_append_static_path (dir file : list Z) : option (list Z) :=
  let len := zlen dir in
  if len =? 0 then None
  else if PATH_MAX <? len + 1 + zlen file then None
  else if bytes_eqb (zdrop (len - 1) dir) [47] then Some (dir ++ file)
  else Some (dir ++ [47] ++ file).

Section serve.
Context (env : heap_env) (P : proto) (wc : writer_conf) (g : Cache.cache_conf) (now buffer_size vec_size : Z).
Context (fs : filesystem) (sc : static_conf).

Definition upsgi_static_skip_ext_match (filename : list Z) : bool := existsb (has_suffix filename) sc.(static_skip_ext).

(** * System calls *)

Definition do_stat (filename : list Z) (st : fstat) (r : sreq) : bool * fstat * sreq :=
  let r := r<|opened := r.(opened) ++ [cstr filename]|> in
  match fs.(fs_stat) (cstr filename) with Some st => (true, st, r) | None => (false, st, r) end.

(** [None]: [open] failed. *)
Definition upsgi_static_open_fd (filename : list Z) (r : sreq) : option (list Z) * sreq :=
  let r := count (fun c => c<|static_open_calls := u64 (c.(static_open_calls) + 1)|>) r in
  let r := r<|opened := r.(opened) ++ [cstr filename]|> in
  match fs.(fs_open) (cstr filename) with
  | Some fd => (Some fd, r<|open_fds := r.(open_fds) + 1|>)
  | None => (None, count (fun c => c<|static_open_failures := u64 (c.(static_open_failures) + 1)|>) r)
  end.

Definition upsgi_static_try_open_regular (filename : list Z) (st : fstat) (r : sreq) : option (list Z) * fstat * sreq :=
  let '(fd, r) := upsgi_static_open_fd filename r in
  match fd with
  | None => (None, st, r)
  | Some fd =>
      match fs.(fs_stat) (cstr filename) with
      | None => (None, st, close_fd r)
      | Some st => if S_ISREG st then (Some fd, st, r) else (None, st, close_fd r)
      end
  end.

(** * The cache of paths *)

Definition upsgi_static_cache_store (key value : list Z) (r : sreq) : outcome sreq :=
  match r.(cache_paths) with
  | None => Ret r
  | Some c =>
      let* (_, c) := Cache.upsgi_cache_set2 g now key value sc.(use_static_cache_paths) Cache.FLAG_UPDATE c in
      Ret (r<|cache_paths := Some c|>)
  end.

(** * Compressed variants *)

(** [goto gzip]: the variants that exist. *)
Definition try_variant (can : bool) (ext : list Z) (filename : list Z) (st : fstat) (r : sreq) : bool * fstat * sreq :=
  if can then
    let r := count (fun c => c<|static_stat_calls := u64 (c.(static_stat_calls) + 1)|>) r in
    do_stat (filename ++ ext) st r
  else (false, st, r).

(** [upsgi_strncmp(filename + (filename_len - len), len, value, len)] of the
    suffix list. *)
Fixpoint suffix_match (filename : list Z) (exts : list (list Z)) : outcome bool :=
  match exts with
  | [] => Ret false
  | ext :: exts =>
      let* tail := mslice filename (zlen filename - zlen ext) (zlen ext) in
      if upsgi_strncmp tail ext then Ret true else suffix_match filename exts
  end.

(** The result, the name and what [stat] says of it. *)
Definition upsgi_static_want_gzip (filename : list Z) (st : fstat) (r : sreq) : outcome (Z * list Z * fstat * sreq) :=
  if upsgi_static_is_precompressed_target filename then Ret (0, filename, st, r)
  else if PATH_MAX <? zlen filename + 4 then Ret (0, filename, st, r)
  else
    let* can_br := upsgi_contains_n r.(encoding) (chars "br") in
    let* can_gzip := upsgi_contains_n r.(encoding) (chars "gzip") in
    if negb can_br && negb can_gzip then Ret (0, filename, st, r)
    else
      let* gzip :=
        if sc.(static_gzip_all) then Ret true
        else if existsb (upsgi_starts_with filename) sc.(static_gzip_dir) then Ret true
        else let* b := suffix_match filename sc.(static_gzip_ext) in
             if b : bool then Ret true else Ret (existsb (fun p => p filename) sc.(static_gzip)) in
      if negb gzip then Ret (0, filename, st, r)
      else
        let '(b, st, r) := try_variant can_br (chars ".br") filename st r in
        if b : bool then Ret (2, filename ++ chars ".br", st, r)
        else
          let '(b, st, r) := try_variant can_gzip (chars ".gz") filename st r in
          if b : bool then Ret (1, filename ++ chars ".gz", st, r) else Ret (0, filename, st, r).

(** * Headers *)

Definition with_resp (f : response -> outcome (Z * response)) (r : sreq) : outcome (Z * sreq) :=
  let* (ret, w) := f r.(resp) in Ret (ret, r<|resp := w|>).

Definition add_header (key value : list Z) : sreq -> outcome (Z * sreq) := with_resp (upsgi_response_add_header env P wc key value).

(** One dictionary of [upsgi_add_expires*]: [None] when no key matches. *)
Fixpoint expires_loop {K} (match_ : K -> bool) (base : Z) (dict : list (K * list Z)) (r : sreq) : outcome (option Z * sreq) :=
  match dict with
  | [] => Ret (None, r)
  | (k, v) :: dict =>
      if match_ k then
        let* n := Protocol.upsgi_str_num v in
        let delta := i32 n in
        let '(size, expires) := HttpDate.upsgi_http_date (i64 (base + delta)) in
        if 0 <? size then
          let* e := mslice (expires ++ [0]) 0 size in
          let* (ret, r) := add_header (chars "Expires") e r in
          Ret (Some (if negb (ret =? 0) then -1 else 0), r)
        else Ret (Some 0, r)
      else expires_loop match_ base dict r
  end.

(** The dictionary relative to the request, then the one relative to the
    modification time. *)
Definition add_expires_from {K} (match_ : K -> bool) (dict dict_mtime : list (K * list Z)) (st : fstat) (r : sreq) : outcome (Z * sreq) :=
  let now := r.(start_of_request) / 1000000 in
  let* (ret, r) := expires_loop match_ now dict r in
  match ret with
  | Some ret => Ret (ret, r)
  | None =>
      let* (ret, r) := expires_loop match_ st.(st_mtime) dict_mtime r in
      Ret (default 0 ret, r)
  end.

Definition upsgi_add_expires_type (mime_type : list Z) : fstat -> sreq -> outcome (Z * sreq) :=
  add_expires_from (fun k => upsgi_strncmp k mime_type) sc.(static_expires_type) sc.(static_expires_type_mtime).
Definition upsgi_add_expires (filename : list Z) : fstat -> sreq -> outcome (Z * sreq) :=
  add_expires_from (fun p => p filename) sc.(static_expires) sc.(static_expires_mtime).
Definition upsgi_add_expires_path_info (st : fstat) (r : sreq) : outcome (Z * sreq) :=
  let* path := mslice r.(vars).(block).(Packet.buffer) r.(vars).(path_info) r.(vars).(path_info_len) in
  add_expires_from (fun p => p path) sc.(static_expires_path_info) sc.(static_expires_path_info_mtime) st r.
Definition upsgi_add_expires_uri (st : fstat) (r : sreq) : outcome (Z * sreq) :=
  add_expires_from (fun p => p r.(uri)) sc.(static_expires_uri) sc.(static_expires_uri_mtime) st r.

(** * Ranges *)

Definition upsgi_fix_range_for_size (parsed : Protocol.upsgi_range) (from to size : Z) : Protocol.upsgi_range * Z * Z :=
  match parsed with
  | Protocol.RANGE_PARSED =>
      let from := if from <? 0 then i64 (size + from) else from in
      let to := if size - 1 <? to then size - 1 else to in
      if (from =? 0) && (to =? size - 1) then (Protocol.RANGE_NOT_PARSED, from, to)
      else if from <=? to then (Protocol.RANGE_VALID, from, to)
      else (Protocol.RANGE_INVALID, 0, 0)
  | _ => (parsed, from, to)
  end.

Definition upsgi_request_fix_range_for_size (size : Z) (r : sreq) : sreq :=
  let '(p, a, b) := upsgi_fix_range_for_size r.(range_parsed) r.(range_from) r.(range_to) size in
  r<|range_parsed := p|><|range_from := a|><|range_to := b|>.

(** * The response *)

(** The [switch]: the status and the number of bytes of the body; [None] for
    an invalid range. *)
Definition range_status (st : fstat) (r : sreq) : outcome (option (list Z * Z)) :=
  match r.(range_parsed) with
  | Protocol.RANGE_INVALID => Ret None
  | Protocol.RANGE_VALID =>
      let* when := match r.(if_range) with
                   | Some (mem, len) => HttpDate.parse_http_date mem len
                   | None => Ret 0
                   end in
      (* a later date falls through to the next case *)
      if when <? st.(st_mtime) then Ret (Some (chars "206 Partial Content", i64 (r.(range_to) - r.(range_from) + 1)))
      else Ret (Some (chars "200 OK", st.(st_size)))
  | _ => Ret (Some (chars "200 OK", st.(st_size)))
  end.

(** Calls that stop at the first one that fails. *)
Definition andthen (f g : sreq -> outcome (Z * sreq)) (r : sreq) : outcome (Z * sreq) :=
  let* (ret, r) := f r in if negb (ret =? 0) then Ret (-1, r) else g r.
Infix ";;;" := andthen (at level 60, right associativity).

Definition nothing (r : sreq) : outcome (Z * sreq) := Ret (0, r).
Definition ignoring (f : sreq -> outcome (Z * sreq)) (r : sreq) : outcome (Z * sreq) := let* (_, r) := f r in Ret (0, r).

Definition add_last_modified (st : fstat) (r : sreq) : outcome (Z * sreq) :=
  let '(size, d) := HttpDate.upsgi_http_date st.(st_mtime) in
  let* v := mslice (d ++ [0]) 0 size in add_header (chars "Last-Modified") v r.

(** The headers behind the status line, except those of the serve mode. *)
Definition file_headers (name : list Z) (use_gzip : Z) (mime_type : option (list Z)) (st : fstat) : sreq -> outcome (Z * sreq) :=
  ignoring (upsgi_add_expires name st) ;;; ignoring (upsgi_add_expires_path_info st) ;;; ignoring (upsgi_add_expires_uri st) ;;;
  (if use_gzip =? 1 then add_header (chars "Content-Encoding") (chars "gzip")
   else if use_gzip =? 2 then add_header (chars "Content-Encoding") (chars "br") else nothing) ;;;
  match mime_type with
  | Some m => if 0 <? zlen m then with_resp (upsgi_response_add_content_type env P wc m) ;;; ignoring (upsgi_add_expires_type m st) else nothing
  | None => nothing
  end.

(** [set_status]: [wsgi_req->status = 200; return 0]. *)
Definition set_status (r : sreq) : outcome (Z * sreq) := Ret (0, r<|resp := r.(resp)<|rstatus := 200|>|>).

(** The body, unless the method is HEAD. *)
Definition send_content (name : list Z) (fd : option (list Z)) (fsize : Z) (r : sreq) : outcome (Z * sreq) :=
  if upsgi_strncmp r.(method) (chars "HEAD") then set_status r
  else
    let '(fd, r) := match fd with Some fd => (Some fd, r) | None => upsgi_static_open_fd name r end in
    match fd with
    | None => Ret (-1, r)
    | Some fd =>
        (* the descriptor is closed in the following function *)
        let* (_, r) := with_resp (upsgi_response_sendfile_do env P wc fd (u64 r.(range_from)) (u64 fsize)) r in
        set_status (close_fd r)
    end.

Definition serve_headers (name : list Z) (st : fstat) (fd : option (list Z)) (fsize : Z) : sreq -> outcome (Z * sreq) :=
  if sc.(file_serve_mode) =? 1 then
    add_header (chars "X-Accel-Redirect") name ;;; add_last_modified st ;;; set_status
  else if sc.(file_serve_mode) =? 2 then
    add_header (chars "X-Sendfile") name ;;; add_last_modified st ;;; set_status
  else
    with_resp (upsgi_response_add_content_length env P wc (u64 fsize)) ;;;
    (fun r => match r.(range_parsed) with
              | Protocol.RANGE_VALID => with_resp (upsgi_response_add_content_range env P wc r.(range_from) r.(range_to) st.(st_size)) r
              | _ => nothing r
              end) ;;;
    add_last_modified st ;;; send_content name fd fsize.

Definition upsgi_real_file_serve (real_filename : list Z) (st : fstat) (fd : option (list Z)) (r : sreq) : outcome (Z * sreq) :=
  let '(mime_type, dict) := Mime.upsgi_get_mime_type real_filename r.(mimetypes) in
  let r := r<|mimetypes := dict|> in
  (* here we need to choose if we want the gzip variant *)
  let* (use_gzip, name, st, r) := upsgi_static_want_gzip real_filename st r in
  let '(fd, r) := match fd with Some _ => if negb (use_gzip =? 0) then (None, close_fd r) else (fd, r) | None => (fd, r) end in
  let* not_modified :=
    if negb (r.(if_modified_since_len) =? 0) then
      let* ims := HttpDate.parse_http_date r.(if_modified_since) r.(if_modified_since_len) in Ret (st.(st_mtime) <=? ims)
    else Ret false in
  if not_modified : bool then
    (with_resp (upsgi_response_prepare_headers env P wc (chars "304 Not Modified")) ;;;
     with_resp (upsgi_response_write_headers_do env P wc)) r
  else
    let r := r<|do_not_account_avg_rt := true|> in
    let r := upsgi_request_fix_range_for_size st.(st_size) r in
    let* status := range_status st r in
    match status with
    | None =>
        (with_resp (upsgi_response_prepare_headers env P wc (chars "416 Requested Range Not Satisfiable")) ;;;
         with_resp (upsgi_response_add_content_range env P wc (-1) (-1) st.(st_size)) ;;; nothing) r
    | Some (status, fsize) =>
        (with_resp (upsgi_response_prepare_headers env P wc status) ;;;
         file_headers name use_gzip mime_type st ;;;
         (fun r => Ret (0, count (fun c => c<|static_requests := u64 (c.(static_requests) + 1)|>) r)) ;;;
         serve_headers name st fd fsize) r
    end.

(** * Resolution *)

(** The loop over the index files. *)
Fixpoint index_loop (usl : list (list Z)) (filename : list Z) (st : fstat) (r : sreq) : option (list Z * list Z) * fstat * sreq :=
  match usl with
  | [] => (None, st, r)
  | index :: usl =>
      match upsgi_append_static_path filename index with
      | None => index_loop usl filename st r
      | Some name =>
          let r := count (fun c => c<|static_index_checks := u64 (c.(static_index_checks) + 1)|>
                                   <|static_stat_calls := u64 (c.(static_stat_calls) + 1)|>) r in
          let '(b, st, r) := do_stat name st r in
          if b && S_ISREG st then (Some (name, index), st, r) else index_loop usl filename st r
      end
  end.

(** [Some (name, index)]: a regular file. *)
Definition upsgi_static_stat (filename : list Z) (st : fstat) (r : sreq) : option (list Z * option (list Z)) * fstat * sreq :=
  let r := count (fun c => c<|static_stat_calls := u64 (c.(static_stat_calls) + 1)|>) r in
  let '(b, st, r) := do_stat filename st r in
  if negb b then (None, st, r)
  else if S_ISREG st then (Some (filename, None), st, r)
  else if S_ISDIR st then
    let '(found, st, r) := index_loop sc.(static_index) filename st r in
    (match found with Some (name, index) => Some (name, Some index) | None => None end, st, r)
  else (None, st, r).

(** [None]: no such file. *)
Definition resolve_target (use_cache : bool) (filename : list Z) (r : sreq) : outcome (option (list Z * bool) * sreq) :=
  let* (hit, r) :=
    match r.(cache_paths) with
    | Some c =>
        if use_cache then
          let* (item, c) := Cache.upsgi_cache_get2 g now filename c in
          let r := r<|cache_paths := Some c|> in
          match item with
          | Some item =>
              if (0 <? zlen item) && (zlen item <=? PATH_MAX)
              then Ret (Some item, count (fun c => c<|static_path_cache_hits := u64 (c.(static_path_cache_hits) + 1)|>) r)
              else Ret (None, count (fun c => c<|static_path_cache_misses := u64 (c.(static_path_cache_misses) + 1)|>) r)
          | None => Ret (None, count (fun c => c<|static_path_cache_misses := u64 (c.(static_path_cache_misses) + 1)|>) r)
          end
        else Ret (None, r)
    | None => Ret (None, r)
    end in
  match hit with
  | Some item => Ret (Some (item, true), r)
  | None =>
      let r := count (fun c => c<|static_realpath_calls := u64 (c.(static_realpath_calls) + 1)|>) r in
      match fs.(fs_realpath) (cstr filename) with
      | None => Ret (None, r)
      | Some real => let* r := upsgi_static_cache_store filename real r in Ret (Some (real, false), r)
      end
  end.

(** The containment check. *)
Definition contained (document_root real_filename : list Z) : bool :=
  upsgi_starts_with real_filename document_root || existsb (upsgi_starts_with real_filename) sc.(static_safe).

(** From [resolve_target:] to [cleanup:]; the first result is [true] for
    [goto resolve_target] with a cached path that does not lead to a file. *)
Definition serve_target (use_cache : bool) (filename document_root : list Z) (st : fstat) (r : sreq) : outcome (bool * Z * sreq) :=
  let* (target, r) := resolve_target use_cache filename r in
  match target with
  | None => Ret (false, -1, r)
  | Some (real_filename, cache_hit) =>
      if negb (contained document_root real_filename) then Ret (false, -1, r)
      else if upsgi_static_skip_ext_match real_filename then Ret (false, -1, r)
      else
        let '(fd, st, r) :=
          if upsgi_strncmp r.(method) (chars "GET") then upsgi_static_try_open_regular real_filename st r else (None, st, r) in
        match fd with
        | Some fd =>
            let* (ret, r) := upsgi_real_file_serve real_filename st (Some fd) (r<|routes_applied := true|>) in Ret (false, ret, r)
        | None =>
            let '(found, st, r) := upsgi_static_stat real_filename st r in
            match found with
            | Some (real_filename, index) =>
                let* (ret, r) :=
                  match index with
                  | None => Ret (0, r)
                  | Some index =>
                      let* r := upsgi_static_cache_store filename real_filename r in
                      let* (ret, v) := upsgi_req_append_path_info_with_index buffer_size vec_size index r.(vars) in
                      Ret (ret, r<|vars := v|>)
                  end in
                if negb (ret =? 0) then Ret (false, -1, r)
                else if upsgi_static_skip_ext_match real_filename then Ret (false, -1, r)
                else
                  let* (ret, r) := upsgi_real_file_serve real_filename st None (r<|routes_applied := true|>) in Ret (false, ret, r)
            | None => Ret (cache_hit, -1, r)
            end
        end
  end.

(** [st0]: the contents of [st] before the first call. *)
Definition upsgi_file_serve (document_root path_info : list Z) (is_a_file : bool) (st0 : fstat) (r : sreq) : outcome (Z * sreq) :=
  if negb (upsgi_strncmp r.(method) (chars "GET")) && negb (upsgi_strncmp r.(method) (chars "HEAD")) then Ret (-1, r)
  else
    let filename := if is_a_file then document_root else document_root ++ [47] ++ path_info in
    if upsgi_static_skip_ext_match filename then Ret (-1, r)
    else
      let* (again, ret, r) := serve_target true filename document_root st0 r in
      if again : bool then
        let* (_, ret, r) := serve_target false filename document_root st0 r in Ret (ret, r)
      else Ret (ret, r).

End serve.

End Static.
