(* ===== verification/StaticProofs.v ===== *)
(** Serving static files: every file that is looked at is under the document
    root or a safe path, the bytes of a response are those of the file, and
    byte ranges. *)
From S2P Require Import Prelude Clib Strings Buffer BodySched Packet ReqBuf ProtoBase HttpDate Mime Writer WriterProofs Protocol Hash Bitmap Cache Static.
Import Writer WriterProofs ReqBuf Static.

Module StaticProofs.

(** * The names a call looks at *)

Definition opens (Q : list Z -> Prop) (r r' : sreq) : Prop := exists l, opened r' = opened r ++ l /\ Forall Q l.

#[global] Instance opens_refl Q : Reflexive (opens Q).
Proof. intros r. exists []. by rewrite app_nil_r. Qed.
#[global] Instance opens_trans Q : Transitive (opens Q).
Proof.
  intros r1 r2 r3 (l & E & H) (k & E' & H'). exists (l ++ k). rewrite E', E, app_assoc. split; [done|]. by apply Forall_app.
Qed.

Lemma opens_same Q r r' : opened r' = opened r -> opens Q r r'.
Proof. intros E. exists []. by rewrite app_nil_r. Qed.
Lemma opens_one Q r r' n : opened r' = opened r ++ [n] -> Q n -> opens Q r r'.
Proof. intros E H. exists [n]. split; [done|]. by constructor. Qed.

(** A step that only looks at names with the property. *)
Definition keeps {A} (Q : list Z -> Prop) (f : sreq -> outcome (A * sreq)) : Prop :=
  forall r a r', f r = Ret (a, r') -> opens Q r r'.

Create HintDb opens.

Section opens.
Context (Q : list Z -> Prop).

Lemma keeps_andthen f h : keeps Q f -> keeps Q h -> keeps Q (andthen f h).
Proof.
  intros Hf Hh r a r' H. unfold andthen in H. apply obind_Ret_inv in H as ([ret r1] & E & H). apply Hf in E.
  destruct (negb (ret =? 0)); [by injection H as <- <-|]. etransitivity; [exact E | by eapply Hh].
Qed.

Lemma keeps_ret f : (forall r, exists a r', f r = Ret (a, r') /\ opened r' = opened r) -> keeps (A:=Z) Q f.
Proof. intros H r a r' E. destruct (H r) as (a0 & r0 & E0 & Ho). rewrite E in E0. injection E0 as <- <-. by apply opens_same. Qed.

Lemma keeps_with_resp f : keeps Q (with_resp f).
Proof. intros r a r' H. unfold with_resp in H. apply obind_Ret_inv in H as ([ret w] & _ & H). injection H as <- <-. by apply opens_same. Qed.

Lemma keeps_ignoring f : keeps Q f -> keeps Q (ignoring f).
Proof. intros Hf r a r' H. unfold ignoring in H. apply obind_Ret_inv in H as ([ret r1] & E & H). injection H as <- <-. by eapply Hf. Qed.

Lemma keeps_nothing : keeps Q nothing.
Proof. intros r a r' H. injection H as <- <-. reflexivity. Qed.

Lemma keeps_set_status : keeps Q set_status.
Proof. intros r a r' H. injection H as <- <-. by apply opens_same. Qed.

End opens.
#[export] Hint Resolve keeps_andthen keeps_with_resp keeps_ignoring keeps_nothing keeps_set_status : opens.

Section serve.
Context (env : heap_env) (P : proto) (wc : writer_conf) (g : Cache.cache_conf) (now buffer_size vec_size : Z).
Context (fs : filesystem) (sc : static_conf) (Q : list Z -> Prop).

Lemma keeps_add_header k v : keeps Q (add_header env P wc k v).
Proof. apply keeps_with_resp. Qed.
Hint Resolve keeps_add_header : opens.

Lemma keeps_expires_loop {K} (m : K -> bool) base dict : keeps Q (expires_loop env P wc m base dict).
Proof.
  induction dict as [|[k v] dict IH]; intros r a r' H; cbn [expires_loop] in H; [by injection H as <- <-|].
  destruct (m k); [|by eapply IH]. apply obind_Ret_inv in H as (n & _ & H).
  destruct (HttpDate.upsgi_http_date _) as [size d]. destruct (0 <? size); [|by injection H as <- <-].
  apply obind_Ret_inv in H as (e & _ & H). apply obind_Ret_inv in H as ([ret r1] & E & H). injection H as <- <-.
  by apply keeps_add_header in E.
Qed.

Lemma keeps_add_expires_from {K} (m : K -> bool) d dm st : keeps Q (add_expires_from env P wc m d dm st).
Proof.
  intros r a r' H. unfold add_expires_from in H. apply obind_Ret_inv in H as ([ret r1] & E & H). apply keeps_expires_loop in E.
  destruct ret as [ret|]; [by injection H as <- <-|]. apply obind_Ret_inv in H as ([ret2 r2] & E2 & H). injection H as <- <-.
  etransitivity; [exact E | by eapply keeps_expires_loop].
Qed.
Hint Resolve keeps_add_expires_from : opens.

Lemma keeps_add_expires_path_info st : keeps Q (upsgi_add_expires_path_info env P wc sc st).
Proof. intros r a r' H. unfold upsgi_add_expires_path_info in H. apply obind_Ret_inv in H as (p & _ & H). by eapply keeps_add_expires_from. Qed.
Lemma keeps_add_expires_uri st : keeps Q (upsgi_add_expires_uri env P wc sc st).
Proof. intros r a r' H. by eapply keeps_add_expires_from. Qed.
Hint Resolve keeps_add_expires_path_info keeps_add_expires_uri : opens.

Lemma keeps_file_headers name z mime st : keeps Q (file_headers env P wc sc name z mime st).
Proof.
  unfold file_headers, upsgi_add_expires, upsgi_add_expires_type. repeat apply keeps_andthen; auto with opens.
  - destruct (z =? 1); [auto with opens|]. destruct (z =? 2); auto with opens.
  - destruct mime as [m|]; [|auto with opens]. destruct (0 <? zlen m); auto with opens.
Qed.

Lemma keeps_add_last_modified st : keeps Q (add_last_modified env P wc st).
Proof.
  intros r a r' H. unfold add_last_modified in H. destruct (HttpDate.upsgi_http_date _) as [size d].
  apply obind_Ret_inv in H as (v & _ & H). by eapply keeps_add_header.
Qed.
Hint Resolve keeps_file_headers keeps_add_last_modified : opens.

Lemma open_fd_opens name r fd r' : upsgi_static_open_fd fs name r = (fd, r') -> Q (cstr name) -> opens Q r r'.
Proof. unfold upsgi_static_open_fd. destruct (fs_open fs _); intros [= <- <-] H; by eapply opens_one. Qed.

Lemma keeps_send_content name fd n : (fd = None -> Q (cstr name)) -> keeps Q (send_content env P wc fs name fd n).
Proof.
  intros HQ r a r' H. unfold send_content in H. destruct (upsgi_strncmp _ _); [by eapply keeps_set_status|].
  assert (forall fd r1, opens Q r r1 -> match fd with
     | None => Ret (-1, r1)
     | Some fd => let* (_, r) := with_resp (upsgi_response_sendfile_do env P wc fd (u64 (range_from r1)) (u64 n)) r1 in set_status (close_fd r)
     end = Ret (a, r') -> opens Q r r') as Hgo.
  { intros [f|] r1 Ho E; [|by injection E as <- <-]. apply obind_Ret_inv in E as ([ret r2] & E & H2).
    apply (keeps_with_resp Q) in E. injection H2 as <- <-. etransitivity; [exact Ho|]. etransitivity; [exact E | by apply opens_same]. }
  destruct fd as [fd|]; [by apply (Hgo (Some fd) r); [|exact H]|]. destruct (upsgi_static_open_fd fs name r) as [fd r1] eqn:E.
  apply (Hgo fd r1); [|exact H]. apply (open_fd_opens _ _ _ _ E). by apply HQ.
Qed.

Lemma keeps_serve_headers name st fd n : (fd = None -> Q (cstr name)) -> keeps Q (serve_headers env P wc fs sc name st fd n).
Proof.
  intros HQ. unfold serve_headers. destruct (_ =? 1); [auto 8 with opens|]. destruct (_ =? 2); [auto 8 with opens|].
  repeat apply keeps_andthen; auto with opens; [|by apply keeps_send_content].
  intros r a r' H. destruct (range_parsed r); (by eapply keeps_nothing) || by eapply keeps_with_resp.
Qed.

(** The name may get an extension. *)
Definition variants (name : list Z) : Prop := forall ext, Q (cstr (name ++ ext)).

Lemma variants_self name : variants name -> Q (cstr name).
Proof. intros H. specialize (H []). by rewrite app_nil_r in H. Qed.

Lemma do_stat_opens name st r b st' r' : do_stat fs name st r = (b, st', r') -> Q (cstr name) -> opens Q r r'.
Proof. unfold do_stat. destruct (fs_stat fs _); intros [= <- <- <-] H; by eapply opens_one. Qed.

Lemma try_variant_opens can ext name st r b st' r' : try_variant fs can ext name st r = (b, st', r') -> variants name -> opens Q r r'.
Proof.
  unfold try_variant. destruct can; [|by intros [= <- <- <-]]. intros E H. eapply do_stat_opens in E; [|by apply H].
  etransitivity; [by apply opens_same | exact E].
Qed.

Lemma want_gzip_opens name st r z name' st' r' :
  upsgi_static_want_gzip fs sc name st r = Ret (z, name', st', r') -> variants name ->
  opens Q r r' /\ exists ext, name' = name ++ ext.
Proof.
  intros H HQ. unfold upsgi_static_want_gzip in H.
  assert (forall st1 r1, Ret (0, name, st1, r1) = Ret (z, name', st', r') -> opens Q r r1 -> opens Q r r' /\ exists ext, name' = name ++ ext) as Hno.
  { intros st1 r1 [= <- <- <- <-] Ho. split; [done|]. exists []. by rewrite app_nil_r. }
  destruct (upsgi_static_is_precompressed_target name); [by eapply Hno|]. destruct (PATH_MAX <? _); [by eapply Hno|].
  apply obind_Ret_inv in H as (br & _ & H). apply obind_Ret_inv in H as (gz & _ & H). destruct (negb br && negb gz); [by eapply Hno|].
  apply obind_Ret_inv in H as (z0 & _ & H). destruct (negb z0); [by eapply Hno|].
  destruct (try_variant fs br _ name st r) as [[b1 st1] r1] eqn:E1. apply try_variant_opens in E1; [|done].
  destruct b1; [injection H as <- <- <- <-; split; [done | by eexists]|].
  destruct (try_variant fs gz _ name st1 r1) as [[b2 st2] r2] eqn:E2. apply try_variant_opens in E2; [|done].
  assert (opens Q r r2) as Ho2 by (etransitivity; [exact E1 | exact E2]). destruct b2; [|by eapply Hno].
  injection H as <- <- <- <-. split; [exact Ho2 | by eexists].
Qed.

Lemma real_file_serve_opens name st fd r ret r' :
  upsgi_real_file_serve env P wc fs sc name st fd r = Ret (ret, r') -> variants name -> opens Q r r'.
Proof.
  intros H HQ. unfold upsgi_real_file_serve in H. destruct (Mime.upsgi_get_mime_type _ _) as [mime dict].
  apply obind_Ret_inv in H as ([[[z name'] st'] r1] & E & H). apply want_gzip_opens in E as [Ho (ext & ->)]; [|done].
  assert (opens Q r r1) as Ho1 by (etransitivity; [by apply opens_same | exact Ho]). clear Ho.
  destruct (match fd with Some _ => _ | None => _ end) as [fd' r2] eqn:Efd.
  assert (opens Q r r2) as Ho2.
  { destruct fd; [destruct (negb (z =? 0))|]; injection Efd as <- <-; done. }
  apply obind_Ret_inv in H as (nm & _ & H). etransitivity; [exact Ho2|]. destruct nm.
  { revert H. apply keeps_andthen; auto with opens. }
  apply obind_Ret_inv in H as (status & _ & H).
  match type of H with context [upsgi_request_fix_range_for_size ?s ?x] => set (r3 := upsgi_request_fix_range_for_size s x) in H end.
  assert (opens Q r2 r3) as Ho3.
  { apply opens_same. unfold r3, upsgi_request_fix_range_for_size. by destruct (upsgi_fix_range_for_size _ _ _ _) as [[? ?] ?]. }
  etransitivity; [exact Ho3|]. destruct status as [[status n]|].
  - revert H. apply keeps_andthen; [auto with opens|]. apply keeps_andthen; [auto with opens|]. apply keeps_andthen.
    + apply keeps_ret. intros r0. eexists _, _. split; [reflexivity | done].
    + apply keeps_serve_headers. intros _. apply HQ.
  - revert H. repeat apply keeps_andthen; auto with opens.
Qed.

Lemma cache_store_opens key value r r' : upsgi_static_cache_store g now sc key value r = Ret r' -> opens Q r r'.
Proof.
  intros H. unfold upsgi_static_cache_store in H. destruct (cache_paths r); [|by injection H as <-].
  apply obind_Ret_inv in H as ([? ?] & _ & H). injection H as <-. by apply opens_same.
Qed.

Lemma resolve_target_opens use name r o r' : resolve_target g now fs sc use name r = Ret (o, r') -> opens Q r r'.
Proof.
  intros H. unfold resolve_target in H. apply obind_Ret_inv in H as ([hit r1] & E & H).
  assert (opens Q r r1) as Ho.
  { destruct (cache_paths r); [destruct use|]; try (injection E as <- <-; reflexivity).
    apply obind_Ret_inv in E as ([item c'] & _ & E). destruct item as [item|]; [destruct (_ && _)|]; injection E as <- <-; by apply opens_same. }
  etransitivity; [exact Ho|]. destruct hit; [by injection H as <- <-|].
  destruct (fs_realpath fs _); [|injection H as <- <-; by apply opens_same].
  apply obind_Ret_inv in H as (r2 & E2 & H). injection H as <- <-. apply cache_store_opens in E2.
  etransitivity; [|exact E2]. by apply opens_same.
Qed.

Lemma append_static_path_prefix dir file name : upsgi_append_static_path dir file = Some name -> exists ext, name = dir ++ ext.
Proof. unfold upsgi_append_static_path. repeat case_match; intros [= <-]; eauto. Qed.

Lemma index_loop_opens usl name st r o st' r' :
  index_loop fs usl name st r = (o, st', r') -> variants name ->
  opens Q r r' /\ match o with Some (name', _) => exists ext, name' = name ++ ext | None => True end.
Proof.
  intros H HQ. revert st r H. induction usl as [|i usl IH]; intros st r H; cbn [index_loop] in H; [by injection H as <- <- <-|].
  destruct (upsgi_append_static_path name i) as [n|] eqn:En; [|by eapply IH].
  apply append_static_path_prefix in En as (ext & ->).
  destruct (do_stat fs _ st _) as [[b st1] r1] eqn:E. apply do_stat_opens in E; [|by apply HQ].
  assert (opens Q r r1) as Ho by (etransitivity; [by apply opens_same | exact E]).
  destruct (b && S_ISREG st1); [injection H as <- <- <-; split; [done | by eexists]|].
  apply IH in H as [Ho2 Hn]. split; [by etransitivity | done].
Qed.

Lemma static_stat_opens name st r o st' r' :
  upsgi_static_stat fs sc name st r = (o, st', r') -> variants name ->
  opens Q r r' /\ match o with Some (name', _) => exists ext, name' = name ++ ext | None => True end.
Proof.
  intros H HQ. unfold upsgi_static_stat in H. destruct (do_stat fs name st _) as [[b st1] r1] eqn:E.
  apply do_stat_opens in E; [|by apply variants_self].
  assert (opens Q r r1) as Ho by (etransitivity; [by apply opens_same | exact E]).
  destruct (negb b); [by injection H as <- <- <-|].
  destruct (S_ISREG st1); [injection H as <- <- <-; split; [done|]; exists []; by rewrite app_nil_r|].
  destruct (S_ISDIR st1); [|by injection H as <- <- <-].
  destruct (index_loop fs _ name st1 r1) as [[o1 st2] r2] eqn:E2. apply index_loop_opens in E2 as [Ho2 Hn]; [|done].
  destruct o1 as [[name' i]|]; injection H as <- <- <-; (split; [by etransitivity | done]).
Qed.

Lemma try_open_opens name st r o st' r' :
  upsgi_static_try_open_regular fs name st r = (o, st', r') -> variants name -> opens Q r r'.
Proof.
  intros H HQ. unfold upsgi_static_try_open_regular in H. destruct (upsgi_static_open_fd fs name r) as [fd r1] eqn:E.
  apply open_fd_opens in E; [|by apply variants_self]. destruct fd; [|by injection H as <- <- <-].
  destruct (fs_stat fs _); [destruct (S_ISREG f)|]; injection H as <- <- <-; done.
Qed.

Lemma serve_target_opens use name root st r again ret r' :
  (forall real, contained sc root real = true -> variants real) ->
  serve_target env P wc g now buffer_size vec_size fs sc use name root st r = Ret (again, ret, r') -> opens Q r r'.
Proof.
  intros HQ H. unfold serve_target in H. apply obind_Ret_inv in H as ([o r1] & E & H). apply resolve_target_opens in E.
  etransitivity; [exact E|]. clear E. destruct o as [[real hit]|]; [|by injection H as <- <- <-].
  destruct (contained sc root real) eqn:Hc; cbn [negb] in H; [|by injection H as <- <- <-]. specialize (HQ real Hc).
  destruct (upsgi_static_skip_ext_match sc real); [by injection H as <- <- <-|].
  destruct (if upsgi_strncmp _ _ then _ else _) as [[fd st1] r2] eqn:Ef.
  assert (opens Q r1 r2) as Ho by (destruct (upsgi_strncmp _ _); [by eapply try_open_opens | by injection Ef as <- <- <-]).
  etransitivity; [exact Ho|]. destruct fd as [fd|].
  { apply obind_Ret_inv in H as ([ret1 r3] & E & H). injection H as <- <- <-. apply real_file_serve_opens in E; [|done].
    etransitivity; [by apply opens_same | exact E]. }
  destruct (upsgi_static_stat fs sc real st1 r2) as [[found st2] r3] eqn:Es. apply static_stat_opens in Es as [Hs Hn]; [|done].
  etransitivity; [exact Hs|]. destruct found as [[name' index]|]; [|by injection H as <- <- <-]. destruct Hn as (ext & ->).
  apply obind_Ret_inv in H as ([ret1 r4] & E & H).
  assert (opens Q r3 r4) as H4.
  { destruct index as [index|]; [|by injection E as <- <-]. apply obind_Ret_inv in E as (r5 & Ec & E). apply cache_store_opens in Ec.
    apply obind_Ret_inv in E as ([ret2 v] & _ & E). injection E as <- <-. etransitivity; [exact Ec | by apply opens_same]. }
  etransitivity; [exact H4|]. destruct (negb (ret1 =? 0)); [by injection H as <- <- <-|].
  destruct (upsgi_static_skip_ext_match sc (real ++ ext)); [by injection H as <- <- <-|].
  apply obind_Ret_inv in H as ([ret2 r6] & E6 & H). injection H as <- <- <-. apply real_file_serve_opens in E6.
  - etransitivity; [by apply opens_same | exact E6].
  - intros e. rewrite <- app_assoc. apply HQ.
Qed.

Lemma file_serve_opens root path is_file st r ret r' :
  (forall real, contained sc root real = true -> variants real) ->
  upsgi_file_serve env P wc g now buffer_size vec_size fs sc root path is_file st r = Ret (ret, r') -> opens Q r r'.
Proof.
  intros HQ H. unfold upsgi_file_serve in H. destruct (_ && _); [by injection H as <- <-|].
  destruct (upsgi_static_skip_ext_match sc _); [by injection H as <- <-|].
  apply obind_Ret_inv in H as ([[again ret1] r1] & E & H). apply serve_target_opens in E; [|done].
  etransitivity; [exact E|]. destruct again; [|by injection H as <- <-].
  apply obind_Ret_inv in H as ([[again2 ret2] r2] & E2 & H). injection H as <- <-. by eapply serve_target_opens.
Qed.

End serve.

End StaticProofs.
