(* ===== verification/StaticExact.v ===== *)
(** The bytes of the response for a static file: status line, headers and
    exactly the part of the file that the headers announce. *)
From S2P Require Import Prelude Clib Strings Buffer BodySched Packet ReqBuf ProtoBase HttpDate Mime Writer WriterProofs Protocol Hash Bitmap Cache Static.
Import Writer WriterProofs ReqBuf Static.

Module StaticExact.

(** * The head, header by header *)

(** What the steps on the response leave alone. *)
Definition frame (r r' : sreq) : Prop :=
  method r' = method r /\ range_parsed r' = range_parsed r /\ range_from r' = range_from r /\ range_to r' = range_to r /\
  open_fds r' = open_fds r /\ vars r' = vars r.

#[global] Instance frame_refl : Reflexive frame.
Proof. intros r. by split_and!. Qed.
#[global] Instance frame_trans : Transitive frame.
Proof. intros r1 r2 r3 (?&?&?&?&?&?) (?&?&?&?&?&?). split_and!; congruence. Qed.

Section serve.
Context (env : heap_env) (P : proto) (wc : writer_conf) (status_line : list Z -> list Z).
Context `{HEnv : EnvOk env} `{HP : ProtoOk P status_line}.
Context (fs : filesystem) (sc : static_conf).

(** A step that adds the headers [hs]. *)
Definition adds (hs : list (list Z * list Z)) (f : sreq -> outcome (Z * sreq)) : Prop := forall r, fresh (resp r) ->
  spec (f r) (fun '(ret, r') => head_step (header_text wc (resp r) hs) (resp r) ret (resp r') /\ frame r r') False.

Lemma header_text_app w a b : header_text wc w (a ++ b) = header_text wc w a ++ header_text wc w b.
Proof. unfold header_text. by rewrite fmap_app, concat_app. Qed.

Lemma header_text_same w w' hs : remove_headers w' = remove_headers w -> header_text wc w' hs = header_text wc w hs.
Proof. intros E. unfold header_text, removed. by rewrite E. Qed.

Lemma adds_andthen a b f h : adds a f -> adds b h -> adds (a ++ b) (andthen f h).
Proof.
  intros Hf Hh r Hr. unfold andthen. eapply spec_bind; [|exact id]. eapply spec_weaken; [by apply Hf | | done].
  intros [ret r1] [H1 F1]. destruct (Z.eqb_spec ret 0) as [->|Hne]; cbn [negb].
  - eapply spec_weaken; [apply Hh; by eapply head_step_fresh | | done]. intros [ret2 r2] [H2 F2]. split; [|by etransitivity].
    rewrite header_text_app. rewrite <- (header_text_same (resp r) (resp r1) b); [by eapply head_step_trans|]. by destruct H1 as (_ & _ & ? & _).
  - split; [|done]. destruct H1 as (A1 & A2 & A3 & A4 & [(? & _)|[-> ?]]); [done|]. split_and!; try done. by right.
Qed.

Lemma adds_nil f : (forall r, f r = Ret (0, r)) -> adds [] f.
Proof.
  intros H r Hr. rewrite H. cbn. split; [|reflexivity]. split_and!; try done. left. split; [done|]. split; [done|]. by rewrite app_nil_r.
Qed.

Lemma adds_header k v : zlen k < 2 ^ 60 -> zlen v < 2 ^ 60 -> adds [(k, v)] (with_resp (upsgi_response_add_header env P wc k v)).
Proof.
  intros Hk Hv r Hr. unfold with_resp. eapply spec_bind; [|exact id].
  eapply spec_weaken; [by apply (add_header_step env P wc status_line) | | done]. intros [ret w] H. cbn. split; [|by split_and!].
  unfold header_text. cbn. by rewrite app_nil_r.
Qed.

(** No Expires headers are configured. *)
Definition no_expires : Prop :=
  static_expires_type sc = [] /\ static_expires_type_mtime sc = [] /\ static_expires sc = [] /\ static_expires_mtime sc = [] /\
  static_expires_path_info sc = [] /\ static_expires_path_info_mtime sc = [] /\ static_expires_uri sc = [] /\ static_expires_uri_mtime sc = [].

Definition type_header (mime : option (list Z)) : list (list Z * list Z) :=
  match mime with Some m => if 0 <? zlen m then [(chars "Content-Type", m)] else [] | None => [] end.

(** The path of the request is in its buffer. *)
Definition path_in (r : sreq) : Prop :=
  0 <= path_info (vars r) /\ 0 <= path_info_len (vars r) /\ path_info (vars r) + path_info_len (vars r) <= zlen (Packet.buffer (block (vars r))).

Lemma adds_file_headers name mime st r :
  no_expires -> path_in r -> (forall m, mime = Some m -> zlen m < 2 ^ 60) -> fresh (resp r) ->
  spec (file_headers env P wc sc name 0 mime st r)
    (fun '(ret, r') => head_step (header_text wc (resp r) (type_header mime)) (resp r) ret (resp r') /\ frame r r') False.
Proof.
  intros (E1 & E2 & E3 & E4 & E5 & E6 & E7 & E8) (P1 & P2 & P3) Hm Hf. unfold file_headers, upsgi_add_expires.
  unfold andthen at 1, ignoring at 1, add_expires_from at 1. rewrite E3, E4. cbn [expires_loop obind from_option default id Z.eqb negb].
  unfold andthen at 1, ignoring at 1, upsgi_add_expires_path_info. rewrite mslice_ok by done. cbn [obind].
  unfold add_expires_from at 1. rewrite E5, E6. cbn [expires_loop obind from_option default id Z.eqb negb].
  unfold andthen at 1, ignoring at 1, upsgi_add_expires_uri, add_expires_from at 1. rewrite E7, E8. cbn [expires_loop obind from_option default id Z.eqb negb].
  unfold andthen at 1, nothing at 1. cbn [obind Z.eqb negb]. unfold type_header. destruct mime as [m|]; [|by apply adds_nil].
  destruct (0 <? zlen m) eqn:Em; [|by apply adds_nil].
  rewrite <- (app_nil_r [_]). apply adds_andthen; [|apply adds_nil|done].
  - apply adds_header; [done | by apply Hm].
  - intros r0. unfold ignoring, upsgi_add_expires_type, add_expires_from. by rewrite E1, E2.
Qed.

Lemma adds_then hs f h r (Q : Z * sreq -> Prop) stuck :
  adds hs f -> fresh (resp r) ->
  (forall r', head_step (header_text wc (resp r) hs) (resp r) 0 (resp r') -> frame r r' -> spec (h r') Q stuck) ->
  (forall r', out (resp r') = out (resp r) -> failed 1 (resp r') -> Q (-1, r')) -> spec (andthen f h r) Q stuck.
Proof.
  intros Hf Hr Hgo Hno. unfold andthen. eapply spec_bind with (stuck' := False); [|done].
  eapply spec_weaken; [by apply Hf | | done]. intros [ret r'] [H F]. destruct (Z.eqb_spec ret 0) as [->|Hne]; cbn [negb]; [by apply Hgo|].
  destruct H as (A1 & _ & _ & _ & [(? & _)|[-> ?]]); [done|]. by apply Hno.
Qed.

Lemma zlen_digits10 n : 0 <= n < 2 ^ 64 -> zlen (digits 10 n) <= 20.
Proof.
  intros Hn. unfold digits, zlen. pose proof (digits_fuel_length (S (Z.to_nat (Z.log2 n))) 10 n 20 ltac:(lia)) as H.
  change (10 ^ Z.of_nat 20) with 100000000000000000000 in H. specialize (H ltac:(lia) ltac:(lia)). lia.
Qed.

Lemma zlen_fmt_d n : 0 <= n < 2 ^ 64 -> zlen (fmt_d n) <= 20.
Proof. intros Hn. unfold fmt_d. rewrite (proj2 (Z.ltb_ge n 0)) by lia. by apply zlen_digits10. Qed.

(** * The whole response *)

(** The part of the file: [None] is all of it. *)
Definition range_part (range : option (Z * Z)) (content : list Z) : list Z :=
  match range with None => content | Some (a, b) => ztake (b - a + 1) (zdrop a content) end.

Definition file_header_list (mime : option (list Z)) (range : option (Z * Z)) (st : fstat) : list (list Z * list Z) :=
  type_header mime ++
  [(chars "Content-Length", digits 10 (match range with None => st_size st | Some (a, b) => b - a + 1 end))] ++
  match range with
  | None => []
  | Some (a, b) => [(chars "Content-Range", chars "bytes " ++ fmt_d a ++ chars "-" ++ fmt_d b ++ chars "/" ++ fmt_d (st_size st))]
  end ++
  [(chars "Last-Modified", HttpDate.http_date_text (st_mtime st))].

Definition file_status (range : option (Z * Z)) : list Z :=
  match range with None => chars "200 OK" | Some _ => chars "206 Partial Content" end.

Definition file_text (mime : option (list Z)) (range : option (Z * Z)) (st : fstat) (content : list Z) (w : response) : list Z :=
  response_text wc status_line (file_status range) (file_header_list mime range st) (range_part range content) w.

(** The range that is served, of a request whose range is as it is after
    [upsgi_fix_range_for_size]. *)
Definition served_range (size : Z) (r : sreq) (range : option (Z * Z)) : Prop :=
  let '(p, a, b) := upsgi_fix_range_for_size (range_parsed r) (range_from r) (range_to r) size in
  match range with
  | None => p = Protocol.RANGE_NOT_PARSED /\ a = 0
  | Some (x, y) => p = Protocol.RANGE_VALID /\ a = x /\ b = y /\ 0 <= x <= y /\ y < size
  end.

(** What the call leaves: a part of the text from its start is on the wire,
    all of it unless the response has failed; the descriptor is closed when
    the call succeeds. *)
Definition served (text : list Z) (r : sreq) (ret : Z) (r' : sreq) : Prop :=
  exists sent, out (resp r') = out (resp r) ++ sent /\ sent `prefix_of` text /\ (ret = 0 \/ ret = -1) /\
    (ret = 0 -> open_fds r' = open_fds r - 1) /\ (sent = text /\ ret = 0 \/ failed 2 (resp r')).

Lemma served_no text r r' : out (resp r') = out (resp r) -> failed 1 (resp r') -> served text r (-1) r'.
Proof.
  intros E H. exists []. rewrite app_nil_r. split_and!; [done | apply prefix_nil | by right | done | right; by eapply failed_weaken; [|exact H]].
Qed.

(** The head and the body after the status line. *)
Lemma serve_spec name mime range st content r r1 :
  file_serve_mode sc <> 1 -> file_serve_mode sc <> 2 -> method r1 = chars "GET" -> no_expires -> path_in r1 ->
  (forall m, mime = Some m -> zlen m < 2 ^ 60) -> 0 <= st_mtime st < 253402300800 -> st_size st = zlen content -> zlen content < 2 ^ 63 ->
  match range with
  | None => range_parsed r1 = Protocol.RANGE_NOT_PARSED /\ range_from r1 = 0
  | Some (x, y) => range_parsed r1 = Protocol.RANGE_VALID /\ range_from r1 = x /\ range_to r1 = y /\ 0 <= x <= y /\ y < zlen content
  end ->
  fresh (resp r1) -> extra_ok wc (resp r) -> header_bytes (resp r1) = status_line (status_text (file_status range)) ->
  remove_headers (resp r1) = remove_headers (resp r) -> additional_headers (resp r1) = additional_headers (resp r) ->
  out (resp r1) = out (resp r) -> io (resp r1) = io (resp r) -> open_fds r1 = open_fds r -> zlen (file_text mime range st content (resp r)) < 2 ^ 63 ->
  spec ((andthen (file_headers env P wc sc name 0 mime st)
          (andthen (fun r => Ret (0, count (fun c => c<|static_requests := u64 (c.(static_requests) + 1)|>) r))
            (serve_headers env P wc fs sc name st (Some content) (match range with None => st_size st | Some (a, b) => b - a + 1 end)))) r1)
    (fun '(ret, r') => served (file_text mime range st content (resp r)) r ret r')
    (accepts (io (resp r)) < zlen (file_text mime range st content (resp r))).
Proof.
  intros M1 M2 HGET Hexp Hpath Hmime Hmt Hsz Hz Hrange Hf Hx Hhb Erm Eadd Eout Eio Efds Htext.
  set (text := file_text mime range st content (resp r)) in *.
  set (n := match range with None => st_size st | Some (a, b) => b - a + 1 end) in *.
  assert (0 <= n < 2 ^ 63) as Hn by (unfold n; destruct range as [[x y]|]; zlen_facts; lia).
  assert (forall r', out (resp r') = out (resp r1) -> failed 1 (resp r') -> served text r (-1) r') as Hno by (intros; apply served_no; [congruence | done]).
  eapply spec_bind with (stuck' := False); [|done].
  eapply spec_weaken; [by apply adds_file_headers | | done]. intros [ret r2] [H2 F2].
  destruct (Z.eqb_spec ret 0) as [->|Hne]; cbn [negb].
  2: { destruct H2 as (A1 & _ & _ & _ & [(? & _)|[-> ?]]); [done|]. by apply Hno. }
  unfold andthen at 1. cbn [obind Z.eqb negb]. set (r3 := count _ r2).
  assert (frame r1 r3) as F3 by exact F2. change (resp r2) with (resp r3) in H2. clearbody r3. clear F2 r2.
  assert (out (resp r3) = out (resp r1)) as O3 by by destruct H2.
  unfold serve_headers. rewrite (proj2 (Z.eqb_neq _ _) M1), (proj2 (Z.eqb_neq _ _) M2), wrap_small by lia.
  (* Content-Length *)
  eapply adds_then; [apply adds_header; [done|]; pose proof (zlen_digits10 n); lia | by eapply head_step_fresh | |
    intros r' E; apply Hno; congruence].
  intros r4 H4 F4. pose proof (head_step_trans _ _ _ _ _ _ _ H2 eq_refl H4) as H24. rewrite (header_text_same (resp r1) (resp r3)), <- header_text_app in H24 by by destruct H2 as (_ & _ & ? & _).
  assert (frame r1 r4) as F14 by by etransitivity. clear F3 F4 H2 H4 O3 r3.
  (* Content-Range *)
  set (cr := match range with None => [] | Some (a, b) => [(chars "Content-Range", chars "bytes " ++ fmt_d a ++ chars "-" ++ fmt_d b ++ chars "/" ++ fmt_d (st_size st))] end : list (list Z * list Z)).
  destruct F14 as (G1 & G2 & G3 & G4 & G5 & G6). assert (frame r1 r4) as F14 by by split_and!.
  match goal with |- spec (andthen ?f ?h r4) _ _ => assert (exists f', f r4 = f' r4 /\ adds cr f') as (f' & Ef & Hf') end.
  { destruct range as [[x y]|].
    - destruct Hrange as (R1 & R2 & R3 & R4 & R5). exists (with_resp (upsgi_response_add_header env P wc (chars "Content-Range")
        (chars "bytes " ++ fmt_d x ++ chars "-" ++ fmt_d y ++ chars "/" ++ fmt_d (st_size st)))). split.
      + rewrite G2, R1, G3, G4, R2, R3. unfold with_resp, upsgi_response_add_content_range. rewrite (proj2 (Z.eqb_neq x (-1))) by lia. cbn [andb].
        rewrite (proj2 (Z.ltb_ge x 0)), (proj2 (Z.ltb_ge y x)), (proj2 (Z.leb_gt (st_size st) y)) by lia. done.
      + apply adds_header; [done|]. rewrite !zlen_app. pose proof (zlen_fmt_d x ltac:(lia)). pose proof (zlen_fmt_d y ltac:(lia)).
        pose proof (zlen_fmt_d (st_size st) ltac:(lia)). change (zlen (chars "bytes ")) with 6. change (zlen (chars "-")) with 1. change (zlen (chars "/")) with 1. lia.
    - destruct Hrange as [R1 _]. exists nothing. split; [by rewrite G2, R1 | by apply adds_nil]. }
  unfold andthen at 1. rewrite Ef. fold (andthen f' (andthen (add_last_modified env P wc st) (send_content env P wc fs name (Some content) n)) r4). clear Ef.
  eapply adds_then; [exact Hf' | by eapply head_step_fresh | | intros r' E; apply Hno; destruct H24; congruence].
  intros r5 H5 F5. pose proof (head_step_trans _ _ _ _ _ _ _ H24 eq_refl H5) as H25. rewrite (header_text_same (resp r1) (resp r4)), <- header_text_app in H25 by by destruct H24 as (_ & _ & ? & _).
  assert (frame r1 r5) as F15 by by etransitivity. clear H24 H5 F5 F14 G1 G2 G3 G4 G5 G6 r4 f' Hf'.
  (* Last-Modified *)
  destruct (HttpDate.http_date_fits (st_mtime st) Hmt) as [Ed Hd29].
  assert (adds [(chars "Last-Modified", HttpDate.http_date_text (st_mtime st))] (add_last_modified env P wc st)) as Hlm.
  { assert (add_last_modified env P wc st = with_resp (upsgi_response_add_header env P wc (chars "Last-Modified") (HttpDate.http_date_text (st_mtime st)))) as ->.
    { unfold add_last_modified. rewrite Ed. rewrite mslice_ok by (rewrite ?zlen_app, ?Hd29; change (zlen [0]) with 1; lia).
      rewrite zdrop_0, ztake_app_length by done. done. }
    apply adds_header; [done | lia]. }
  eapply adds_then; [exact Hlm | by eapply head_step_fresh | | intros r' E; apply Hno; destruct H25; congruence].
  intros r6 H6 F6. pose proof (head_step_trans _ _ _ _ _ _ _ H25 eq_refl H6) as H26. rewrite (header_text_same (resp r1) (resp r5)), <- header_text_app in H26 by by destruct H25 as (_ & _ & ? & _).
  destruct F15 as (G1 & G2 & G3 & G4 & G5 & _). destruct F6 as (K1 & K2 & K3 & K4 & K5 & _).
  destruct H26 as (A1 & A2 & A3 & A4 & [(_ & Hf6 & Hb6)|[? _]]); [|done].
  assert (full_head wc (resp r6) ++ range_part range content = text) as Etext.
  { unfold text, file_text, response_text, full_head, file_header_list. rewrite Hb6, Hhb, <- !app_assoc. f_equal.
    rewrite (header_text_same (resp r) (resp r1)) by congruence. fold cr n. f_equal. f_equal.
    unfold extra, lines, removed. by rewrite A3, A4, Erm, Eadd. }
  unfold send_content. rewrite K1, G1, HGET. change (upsgi_strncmp (chars "GET") (chars "HEAD")) with false. cbn iota.
  set (a := match range with None => 0 | Some (x, _) => x end).
  assert (u64 (range_from r6) = a) as ->.
  { rewrite K3, G3. unfold a. destruct range as [[x y]|]; [|by rewrite (proj2 Hrange)]. rewrite (proj1 (proj2 Hrange)). apply wrap_small. lia. }
  assert (0 <= a /\ a + n <= zlen content /\ (n = 0 -> a = 0)) as (Ha & Hfit & Hn0).
  { unfold a, n. destruct range as [[x y]|]; lia. }
  assert (file_part content a n = range_part range content) as Epart.
  { unfold file_part, range_part. destruct range as [[x y]|]; cbn.
    - unfold n, a. by rewrite (proj2 (Z.eqb_neq _ _)) by lia.
    - unfold n, a. destruct (Z.eqb_spec (st_size st) 0); [by rewrite zdrop_0|]. rewrite zdrop_0. apply ztake_all. lia. }
  eapply spec_bind; [|exact id]. unfold with_resp. eapply spec_bind; [|exact id]. rewrite wrap_small by lia. cbn [obind].
  eapply spec_weaken; [apply (sendfile_do_fresh env P wc status_line content a n (resp r6)); try done; try lia | |].
  - destruct Hx as [Hx1 Hx2]. split; [done|]. by rewrite A4, Eadd.
  - pose proof Htext as Ht. rewrite <- Etext, zlen_app in Ht. zlen_facts. lia.
  - intros [ret w] (sent & Ho & Hp & Hr). cbn. rewrite Epart, Etext in Hp, Hr. exists sent. cbn.
    split; [congruence|]. split; [done|]. split; [by left|]. split; [intros _; cbn; lia|].
    destruct Hr as [[-> ->]|[-> Hfl]]; [by left | right; exact Hfl].
  - rewrite Epart, Etext, A2, Eio. done.
Qed.

(** ** A plain request

    A GET request for a regular file: no compressed variant is accepted, the
    request is not conditional, the files are sent by the server itself. *)
Record plain (root path : list Z) (is_file : bool) (real content : list Z) (st : fstat) (range : option (Z * Z)) (r : sreq) : Prop := {
  pl_method : method r = chars "GET";
  pl_cache : cache_paths r = None;
  pl_skip : upsgi_static_skip_ext_match sc (if is_file then root else root ++ [47] ++ path) = false;
  pl_real : fs_realpath fs (cstr (if is_file then root else root ++ [47] ++ path)) = Some real;
  pl_contained : contained sc root real = true;
  pl_skip_real : upsgi_static_skip_ext_match sc real = false;
  pl_open : fs_open fs (cstr real) = Some content;
  pl_stat : fs_stat fs (cstr real) = Some st;
  pl_reg : st_kind st = S_IFREG;
  pl_size : st_size st = zlen content;
  pl_small : zlen content < 2 ^ 63;
  pl_mtime : 0 <= st_mtime st < 253402300800;
  pl_br : upsgi_contains_n (encoding r) (chars "br") = Ret false;
  pl_gzip : upsgi_contains_n (encoding r) (chars "gzip") = Ret false;
  pl_since : if_modified_since_len r = 0;
  pl_if_range : if_range r = None;
  pl_mode : file_serve_mode sc <> 1 /\ file_serve_mode sc <> 2;
  pl_expires : no_expires;
  pl_path : path_in r;
  pl_types : Forall (fun u => zlen (Mime.value u) < 2 ^ 60) (mimetypes r);
  pl_range : served_range (zlen content) r range;
  pl_after : range <> None -> 0 < st_mtime st;
  pl_resp : blank (resp r);
  pl_extra : extra_ok wc (resp r);
  pl_limit : 0 <= response_header_limit wc < 2 ^ 64;
}.

Lemma mime_search_value (Q : list Z -> Prop) ext before dd v dd' :
  Mime.mime_search ext before dd = Some (v, dd') -> Forall (fun u => Q (Mime.value u)) dd -> Q v.
Proof.
  revert before. induction dd as [|u dd IH]; intros before; cbn; [done|]. destruct (upsgi_strncmp _ _).
  - intros [= <- _] H. by inversion H.
  - intros E H. inversion H. by eapply IH.
Qed.

Lemma get_mime_value (Q : list Z -> Prop) name dd v dd' :
  Mime.upsgi_get_mime_type name dd = (Some v, dd') -> Forall (fun u => Q (Mime.value u)) dd -> Q v.
Proof.
  unfold Mime.upsgi_get_mime_type. destruct (Mime.extension name) as [ext|]; [|done].
  destruct (Mime.mime_search ext [] dd) as [[w d]|] eqn:E; [|done]. intros [= <- <-] H. by eapply mime_search_value.
Qed.

Lemma want_gzip_plain name st r :
  upsgi_contains_n (encoding r) (chars "br") = Ret false -> upsgi_contains_n (encoding r) (chars "gzip") = Ret false ->
  upsgi_static_want_gzip fs sc name st r = Ret (0, name, st, r).
Proof.
  intros H1 H2. unfold upsgi_static_want_gzip. destruct (upsgi_static_is_precompressed_target name); [done|].
  destruct (PATH_MAX <? _); [done|]. by rewrite H1, H2.
Qed.

(** From the descriptor on. *)
Lemma real_file_serve_spec real content st range r :
  method r = chars "GET" -> st_size st = zlen content -> zlen content < 2 ^ 63 -> 0 <= st_mtime st < 253402300800 ->
  upsgi_contains_n (encoding r) (chars "br") = Ret false -> upsgi_contains_n (encoding r) (chars "gzip") = Ret false ->
  if_modified_since_len r = 0 -> if_range r = None -> file_serve_mode sc <> 1 -> file_serve_mode sc <> 2 -> no_expires -> path_in r ->
  Forall (fun u => zlen (Mime.value u) < 2 ^ 60) (mimetypes r) -> served_range (zlen content) r range -> (range <> None -> 0 < st_mtime st) ->
  blank (resp r) -> extra_ok wc (resp r) -> 0 <= response_header_limit wc < 2 ^ 64 ->
  let text := file_text (Mime.type_of real (Mime.pair_of <$> mimetypes r)) range st content (resp r) in
  zlen text < 2 ^ 63 ->
  spec (upsgi_real_file_serve env P wc fs sc real st (Some content) r) (fun '(ret, r') => served text r ret r') (accepts (io (resp r)) < zlen text).
Proof.
  intros HGET Hsz Hz Hmt Hbr Hgz Hsince Hifr M1 M2 Hexp Hpath Htypes Hrange Hafter Hb Hx Hlim text Htext.
  unfold upsgi_real_file_serve. pose proof (Mime.get_mime_type_spec real (mimetypes r)) as Hmime.
  destruct (Mime.upsgi_get_mime_type real (mimetypes r)) as [mime dict] eqn:Em. destruct Hmime as [-> _].
  set (mime := Mime.type_of real (Mime.pair_of <$> mimetypes r)) in *.
  assert (forall m, mime = Some m -> zlen m < 2 ^ 60) as Hm.
  { intros m E. rewrite E in Em. by apply (get_mime_value (fun v => zlen v < 2 ^ 60)) in Em. }
  rewrite want_gzip_plain by done. cbn [obind Z.eqb negb]. set (r0 := r<|mimetypes := dict|>).
  change (if_modified_since_len r0) with (if_modified_since_len r). rewrite Hsince. cbn [Z.eqb negb obind].
  rewrite Hsz. unfold upsgi_request_fix_range_for_size, served_range in *.
  change (range_parsed r0<|do_not_account_avg_rt := true|>) with (range_parsed r). change (range_from r0<|do_not_account_avg_rt := true|>) with (range_from r).
  change (range_to r0<|do_not_account_avg_rt := true|>) with (range_to r).
  destruct (upsgi_fix_range_for_size _ _ _ _) as [[p a] b] eqn:Efix. set (r1 := _<|range_to := b|>).
  set (n := match range with None => st_size st | Some (a, b) => b - a + 1 end).
  assert (range_status st r1 = Ret (Some (file_status range, n))) as ->.
  { unfold range_status. change (range_parsed r1) with p. change (if_range r1) with (if_range r). change (range_to r1) with b. change (range_from r1) with a.
    destruct range as [[x y]|].
    - destruct Hrange as (-> & -> & -> & Hxy & Hy). rewrite Hifr. cbn [obind]. rewrite (proj2 (Z.ltb_lt 0 (st_mtime st))) by by apply Hafter.
      rewrite (signed_small 64) by lia. done.
    - by destruct Hrange as [-> _]. }
  cbn [obind]. eapply spec_bind with (stuck' := False); [|done].
  assert (3 <= zlen (file_status range) < 2 ^ 16) as Hst by (destruct range; vm_compute; split; congruence).
  unfold with_resp at 1. eapply spec_bind with (stuck' := False); [|done].
  eapply spec_weaken; [apply (prepare_spec env P wc status_line (file_status range) (resp r1)) | | done]; try done.
  { pose proof Htext as Ht. unfold text, file_text, response_text in Ht. rewrite zlen_app in Ht. zlen_facts. lia. }
  intros [ret w] (A1 & A2 & A3 & A4 & A5). cbn [spec].
  destruct A5 as [(-> & Hf & Hbytes)|[-> Hfl]]; cbn [Z.eqb negb]; [|by apply served_no].
  apply (serve_spec real mime range st content r (r1<|resp := w|>)); try done.
Qed.

End serve.


End StaticExact.
