(* ===== verification/StaticTheorems.v ===== *)
(** The theorems on static files: containment, the bytes of a response, byte
    ranges, each at a concrete request, and what the code gets wrong. *)
From S2P Require Import Prelude Clib Strings UrlPath Buffer BodySched Packet ReqBuf ProtoBase HttpDate Mime Writer WriterProofs Protocol Hash Bitmap Cache Static StaticProofs StaticExact.
Import ProtoBase Writer WriterProofs ReqBuf Static StaticProofs StaticExact.

Module StaticTheorems.

(** * Containment *)

(** A C string: no NUL. *)
Definition no_nul (l : list Z) : Prop := Forall (fun c => c <> 0) l.

Lemma cstr_app b k : no_nul b -> cstr (b ++ k) = b ++ cstr k.
Proof.
  intros H. unfold cstr. induction H as [|c b Hc _ IH]; [done|]. cbn [app memchr]. destruct (Z.eqb_spec c 0); [done|].
  cbn [app]. rewrite <- IH. destruct (memchr (b ++ k) 0) as [i|] eqn:E; [|done].
  apply memchr_Some in E as (Hi & _). cbn [fmap option_fmap option_map]. rewrite ztake_cons by lia. by replace (Z.succ i - 1) with i by lia.
Qed.

Lemma starts_with_cstr b real ext : no_nul b -> upsgi_starts_with real b = true -> upsgi_starts_with (cstr (real ++ ext)) b = true.
Proof.
  intros Hb (k & ->)%upsgi_starts_with_spec. apply upsgi_starts_with_spec. exists (cstr (k ++ ext)). by rewrite <- app_assoc, cstr_app.
Qed.

Lemma contained_variants sc root real :
  no_nul root -> Forall no_nul (static_safe sc) -> contained sc root real = true ->
  variants (fun n => contained sc root n = true) real.
Proof.
  intros Hr Hs H ext. unfold contained in *. apply orb_true_iff in H as [H|H].
  - by rewrite starts_with_cstr.
  - apply orb_true_iff. right. apply existsb_exists in H as (safe & Hin & H). apply existsb_exists. exists safe. split; [done|].
    apply starts_with_cstr; [|done]. rewrite Forall_forall in Hs. by apply Hs, list_elem_of_In.
Qed.

(** C31: whatever the path of the request, the file system, the cache of paths
    and the options, a call of [upsgi_file_serve] looks only at files whose
    name begins with the document root or with a safe path. *)
Theorem file_serve_contained env P wc g now bs vs fs sc root path is_file st r ret r' :
  no_nul root -> Forall no_nul (static_safe sc) ->
  upsgi_file_serve env P wc g now bs vs fs sc root path is_file st r = Ret (ret, r') ->
  exists names, opened r' = opened r ++ names /\ Forall (fun n => contained sc root n = true) names.
Proof. intros Hr Hs H. eapply file_serve_opens; [|exact H]. intros real. by apply contained_variants. Qed.

(** * Ranges *)

(** C32: a range that was parsed becomes the whole file, an interval inside
    the file, or is refused when it begins behind the end; the bytes that are
    left are those that were asked for.  A suffix longer than the file is
    not covered. *)
Theorem fix_range_spec from to size :
  0 <= size < 2 ^ 63 -> (0 <= from <= to /\ to <= INT64_MAX \/ - size <= from < 0 /\ to = INT64_MAX) ->
  let '(p, a, b) := upsgi_fix_range_for_size Protocol.RANGE_PARSED from to size in
  let start := if from <? 0 then size + from else from in
  match p with
  | Protocol.RANGE_NOT_PARSED => start = 0 /\ size - 1 <= to
  | Protocol.RANGE_VALID => a = start /\ b = Z.min to (size - 1) /\ 0 <= a <= b /\ b < size
  | Protocol.RANGE_INVALID => size <= start
  | Protocol.RANGE_PARSED => False
  end.
Proof.
  intros Hs H. unfold upsgi_fix_range_for_size. destruct (Z.ltb_spec from 0) as [Hf|Hf].
  - rewrite (signed_small 64) by lia. destruct (Z.ltb_spec (size - 1) to); repeat zcase; unfold INT64_MAX in *; lia.
  - destruct (Z.ltb_spec (size - 1) to); repeat zcase; unfold INT64_MAX in *; lia.
Qed.

Lemma fix_range_spec_witness : upsgi_fix_range_for_size Protocol.RANGE_PARSED (-3) INT64_MAX 10 = (Protocol.RANGE_VALID, 7, 9) /\ 7 = 10 + -3 /\ 9 < 10.
Proof.
  pose proof (fix_range_spec (-3) INT64_MAX 10 ltac:(lia) ltac:(right; lia)) as H.
  destruct (upsgi_fix_range_for_size _ _ _ _) as [[p a] b] eqn:E in H. vm_compute in E. injection E as <- <- <-.
  destruct H as (H1 & _ & _ & H2). split; [vm_compute; reflexivity|]. exact (conj H1 H2).
Defined.

(** * Concrete requests

    A file system is the list of its real paths and of its files. *)
Definition file_at (name : string) (kind : file_kind) (content : string) : list Z * (file_kind * list Z) := (chars name, (kind, chars content)).

Definition lookup_name {A} (l : list (list Z * A)) (n : list Z) : option A := snd <$> find (fun kv => bytes_eqb kv.1 n) l.

Definition mtime : Z := 784111777.

Definition tree (links : list (list Z * list Z)) (files : list (list Z * (file_kind * list Z))) : filesystem :=
  mk_fs (lookup_name links) (fun n => (fun f => mk_stat f.1 (zlen f.2) mtime) <$> lookup_name files n) (fun n => snd <$> lookup_name files n).

Definition plain_conf (index : list (list Z)) : static_conf := mk_sconf [] false [] [] [] index [] [] [] [] [] [] [] [] [] 0 0.

Definition zero_counters : counters := mk_counters 0 0 0 0 0 0 0 0.
Definition no_vars : reqbuf := mk_reqbuf (Packet.mk_packet (zrep 64 0) 0) (zrep 14 (0, 0)) 0 0 0 None 0 (InBuffer 0).
Definition get_request (range : Protocol.upsgi_range * Z * Z) (script : list io_event) : sreq :=
  mk_sreq (new_response script) (chars "GET") [] [] [] 0 None range.1.1 range.1.2 range.2 no_vars 0 false false
    [Mime.mk_udd (chars "txt") (chars "text/plain") 0] None zero_counters [] 0.
Definition whole_file : Protocol.upsgi_range * Z * Z := (Protocol.RANGE_NOT_PARSED, 0, 0).
Definition fast_socket : list io_event := [mk_io (Wrote 4096) 0; mk_io (Wrote 4096) 0; mk_io (Wrote 0) 0].

Definition http : proto := base_proto env4k 0 (chars "HTTP/1.1").
Definition no_limits : writer_conf := mk_writer_conf 0 [] [].
Definition any_stat : fstat := mk_stat S_IFOTHER 0 0.
Definition no_cache : Cache.cache_conf := Cache.mk_conf 0 0 0 0 0 0 (fun _ => 0) false false false false false 0 false 0 false false.

Definition serve (fs : filesystem) (sc : static_conf) (root path : list Z) (r : sreq) : outcome (Z * sreq) :=
  upsgi_file_serve env4k http no_limits no_cache 0 64 14 fs sc root path false any_stat r.

(** The result, the bytes on the wire and the descriptors that are open. *)
Definition summary (o : outcome (Z * sreq)) : outcome (Z * list Z * Z) := let* (ret, r) := o in Ret (ret, out (resp r), open_fds r).

Definition site : filesystem := tree [(chars "/w//a.txt", chars "/w/a.txt")] [file_at "/w/a.txt" S_IFREG "hello"].

Lemma file_serve_contained_witness :
  exists r', upsgi_file_serve env4k http no_limits no_cache 0 64 14 site (plain_conf []) (chars "/w") (chars "/a.txt") false any_stat (get_request whole_file fast_socket) = Ret (0, r') /\
    exists names, opened r' = names /\ Forall (fun n => contained (plain_conf []) (chars "/w") n = true) names.
Proof.
  assert (match upsgi_file_serve env4k http no_limits no_cache 0 64 14 site (plain_conf []) (chars "/w") (chars "/a.txt") false any_stat (get_request whole_file fast_socket)
    with Ret (ret, _) => ret =? 0 | _ => false end = true) as Hok by (vm_compute; reflexivity).
  destruct (upsgi_file_serve env4k http no_limits no_cache 0 64 14 site (plain_conf []) (chars "/w") (chars "/a.txt") false any_stat (get_request whole_file fast_socket)) as [[ret r']| | |] eqn:E; [|discriminate Hok ..].
  apply Z.eqb_eq in Hok. subst ret. exists r'. split; [reflexivity|].
  assert (no_nul (chars "/w")) as Hn by (repeat constructor; discriminate).
  destruct (file_serve_contained _ _ _ _ _ _ _ _ (plain_conf []) _ _ _ _ _ _ _ Hn (Forall_nil_2 _) E) as (names & En & Hf).
  exists names. exact (conj En Hf).
Defined.

(** A socket that is busy at first and takes the head in two pieces and the
    body byte by byte. *)
Definition patient_socket : list io_event :=
  [mk_io WAgain 1; mk_io (Wrote 7) 0; mk_io (Wrote 4096) 0; mk_io WAgain 1; mk_io (Wrote 1) 0; mk_io (Wrote 1) 0; mk_io (Wrote 1) 0].

Definition second_and_third : Protocol.upsgi_range * Z * Z := (Protocol.RANGE_PARSED, 1, 2).


(** The bytes of that response. *)
Example range_response :
  summary (serve site (plain_conf []) (chars "/w") (chars "/a.txt") (get_request second_and_third patient_socket)) =
  Ret (0, chars "HTTP/1.1 206 Partial Content" ++ crlf ++ chars "Content-Type: text/plain" ++ crlf ++ chars "Content-Length: 2" ++ crlf ++
    chars "Content-Range: bytes 1-2/5" ++ crlf ++ chars "Last-Modified: Sun, 06 Nov 1994 08:49:37 GMT" ++ crlf ++ crlf ++ chars "el", 0).
Proof. vm_compute. reflexivity. Qed.

(** * What the code gets wrong *)

Definition body_of (text : list Z) : list Z :=
  match find (fun i => upsgi_starts_with (zdrop i text) [13; 10; 13; 10]) (map Z.of_nat (seq 0 (length text))) with
  | Some i => zdrop (i + 4) text
  | None => []
  end.

Definition head_has (line : list Z) (text : list Z) : bool :=
  existsb (fun i => upsgi_starts_with (zdrop i text) (line ++ crlf)) (map Z.of_nat (seq 0 (length text))).

(** The prefix test has no slash at the end of the document root: with the
    root "/w", a request for "/%2e%2e/w-private/x" is decoded to a path that
    leaves the root, and the file of the directory "/w-private" is served. *)
Theorem docroot_sibling_served :
  let fs := tree [(chars "/w//../w-private/x", chars "/w-private/x")] [file_at "/w-private/x" S_IFREG "secret"] in
  let raw := chars "/%2e%2e/w-private/x" in
  (let* path := UrlPath.http_url_decode4 (zlen raw) raw false in
   let* (ret, text, _) := summary (serve fs (plain_conf []) (chars "/w") path (get_request whole_file fast_socket)) in Ret (path, ret, body_of text)) =
  Ret (chars "/../w-private/x", 0, chars "secret").
Proof. vm_compute. reflexivity. Qed.

(** An index file is opened by its name: the test on the real path is that of
    the directory, and a link in the directory to a file outside of the root
    is served. *)
Theorem index_symlink_served :
  let fs := tree [(chars "/w//d/", chars "/w/d"); (chars "/w/d/index.html", chars "/etc/x")]
    [file_at "/w/d" S_IFDIR ""; file_at "/w/d/index.html" S_IFREG "outside"] in
  (let* (ret, text, _) := summary (serve fs (plain_conf [chars "index.html"]) (chars "/w") (chars "/d/") (get_request whole_file fast_socket)) in Ret (ret, body_of text)) =
  Ret (0, chars "outside").
Proof. vm_compute. reflexivity. Qed.

(** A GET request that is answered with 304 leaves the descriptor of its file
    open. *)
Theorem not_modified_leaks_fd :
  let r := (get_request whole_file fast_socket)<|if_modified_since := chars "Sun, 06 Nov 1994 08:49:37 GMT"|>
             <|if_modified_since_len := 29|> in
  (let* (ret, text, fds) := summary (serve site (plain_conf []) (chars "/w") (chars "/a.txt") r) in
   Ret (ret, upsgi_starts_with text (chars "HTTP/1.1 304 Not Modified"), fds)) = Ret (0, true, 1).
Proof. vm_compute. reflexivity. Qed.

(** An unsatisfiable range: 416, and the descriptor stays open. *)
Theorem not_satisfiable_leaks_fd :
  (let* (ret, _, fds) := summary (serve site (plain_conf []) (chars "/w") (chars "/a.txt") (get_request (Protocol.RANGE_PARSED, 9, 12) fast_socket)) in
   Ret (ret, fds)) = Ret (0, 1).
Proof. vm_compute. reflexivity. Qed.

(** The range of a request asks for the last ten bytes of a file of five: the
    bounds stay negative, and the request is counted as failed. *)
Theorem suffix_longer_than_file : upsgi_fix_range_for_size Protocol.RANGE_PARSED (-10) INT64_MAX 5 = (Protocol.RANGE_VALID, -5, 4).
Proof. vm_compute. reflexivity. Qed.

(** A suffix of the gzip list that is longer than the name of the file is
    compared with the bytes before the name. *)
Theorem gzip_suffix_underflow :
  let sc := mk_sconf [] false [] [chars "longer.than.the.name"] [] [] [] [] [] [] [] [] [] [] [] 0 0 in
  upsgi_static_want_gzip site sc (chars "/w/a.txt") any_stat ((get_request whole_file fast_socket)<|encoding := chars "gzip"|>) = Fault.
Proof. vm_compute. reflexivity. Qed.

(** [If-Range] with the date of the file, so with a file that has not changed:
    status 200 and the full length are announced, with a part of the file.  No
    code records the header, which keeps the branch dead. *)
Theorem if_range_inverted :
  let r := (get_request second_and_third fast_socket)<|if_range := Some (chars "Sun, 06 Nov 1994 08:49:37 GMT", 29)|> in
  (let* (ret, text, _) := summary (serve site (plain_conf []) (chars "/w") (chars "/a.txt") r) in
   Ret (upsgi_starts_with text (chars "HTTP/1.1 200 OK"), head_has (chars "Content-Length: 5") text, body_of text)) =
  Ret (true, true, chars "ello").
Proof. vm_compute. reflexivity. Qed.

End StaticTheorems.
