(* ===== verification/CacheUdp.v ===== *)
(** Two nodes that share a cache over UDP (core/cache.c): what one sends is
    what the other executes. *)
From S2P Require Import Prelude Clib Buffer Packet Protocol ProtocolProofs Hash Bitmap Cache.

Module CacheUdp.
Import Cache.

(** * Datagrams *)

(** Reading what comes after a prefix of a known length. *)
Lemma read16_at a n r off : off = zlen a -> 0 <= n < 2 ^ 16 -> Packet.read16 (zdrop off (a ++ le_bytes16 n ++ r)) = Ret n.
Proof. intros -> Hn. rewrite zdrop_app_length by done. by apply Packet.read16_le_bytes. Qed.

(** The datagram for a set, as a list of its parts. *)
Lemma udp_command_set key val expires :
  zlen key + zlen val + zlen (digits 10 expires) + 6 < 2 ^ 16 ->
  udp_command key val expires 10 =
    [111] ++ le_bytes16 (6 + zlen key + zlen val + zlen (digits 10 expires)) ++ [10] ++
    le_bytes16 (zlen key) ++ key ++ le_bytes16 (zlen val) ++ val ++ le_bytes16 (zlen (digits 10 expires)) ++ digits 10 expires.
Proof.
  intros Hlen. zlen_facts. unfold udp_command. rewrite Packet.arg16_id by lia. change (10 =? 10) with true. cbn iota.
  rewrite !zlen_app, !Packet.zlen_le_bytes16, wrap_small by lia. do 2 f_equal. f_equal. lia.
Qed.

(** A set that one node announces is executed by the other: the receiver
    of the datagram calls [upsgi_cache_set2] with the same key, value and
    (absolute) expiration, whatever follows the datagram in its buffer. *)
Theorem udp_set_roundtrip g now key val expires rest c :
  0 <= expires < 10 ^ 19 -> zlen key + zlen val + zlen (digits 10 expires) + 6 < 2 ^ 16 ->
  cache_udp_receive g now (udp_command key val expires 10 ++ rest) (zlen (udp_command key val expires 10)) c =
    let* (_, c) := upsgi_cache_set2 g now key val expires (Z.lor FLAG_UPDATE (Z.lor FLAG_LOCAL FLAG_ABSEXPIRE)) c in Ret c.
Proof.
  intros He Hlen. rewrite udp_command_set by done. pose proof (ProtocolProofs.zlen_digits expires He) as Hd.
  set (es := digits 10 expires) in *. set (pk := 6 + zlen key + zlen val + zlen es).
  assert (0 <= pk < 2 ^ 16) as Hpk by (unfold pk; zlen_facts; lia).
  set (d := [111] ++ le_bytes16 pk ++ [10] ++ le_bytes16 (zlen key) ++ key ++ le_bytes16 (zlen val) ++ val ++ le_bytes16 (zlen es) ++ es).
  assert (zlen d = pk + 4) as Hd4 by (unfold d; rewrite !zlen_app, !Packet.zlen_le_bytes16; change (zlen [111]) with 1; change (zlen [10]) with 1; unfold pk; lia).
  rewrite Hd4. unfold cache_udp_receive. zlen_facts.
  assert (mread (d ++ rest) 0 = Ret 111) as -> by done. cbn [obind]. change (111 =? 111) with true. cbn [negb].
  assert (Packet.read16 (zdrop 1 (d ++ rest)) = Ret pk) as ->
    by (unfold d; rewrite <- !app_assoc; by apply (read16_at [111])). cbn [obind].
  replace (pk =? pk + 4 - 4) with true by (symmetry; apply Z.eqb_eq; lia). cbn [negb].
  assert (Packet.read16 (zdrop 4 (d ++ rest)) = Ret (zlen key)) as ->
    by (unfold d; rewrite <- !app_assoc; apply (read16_at ([111] ++ le_bytes16 pk ++ [10])); [done | lia]). cbn [obind].
  rewrite (proj2 (Z.ltb_ge pk (4 + zlen key))) by lia.
  set (h := [111] ++ le_bytes16 pk ++ [10] ++ le_bytes16 (zlen key)).
  assert (zlen h = 6) as Hh by done.
  assert (d ++ rest = h ++ key ++ le_bytes16 (zlen val) ++ val ++ le_bytes16 (zlen es) ++ es ++ rest) as ->
    by (unfold d, h; by rewrite <- !app_assoc).
  rewrite (mslice_at h) by done. cbn [obind].
  assert (forall r, mread (h ++ r) 3 = Ret 10) as -> by done. cbn [obind]. change (10 =? 10) with true. cbn iota.
  rewrite (proj2 (Z.ltb_ge pk (zlen key + 2 + 2))) by lia.
  rewrite (app_assoc h key), (read16_at (h ++ key)) by (rewrite ?zlen_app; lia). cbn [obind].
  rewrite (proj2 (Z.ltb_ge pk (4 + zlen key + zlen val))) by lia.
  rewrite (app_assoc (h ++ key) (le_bytes16 (zlen val))), (mslice_at ((h ++ key) ++ le_bytes16 (zlen val)))
    by (rewrite ?zlen_app, ?Packet.zlen_le_bytes16; lia). cbn [obind].
  rewrite (proj2 (Z.ltb_lt (2 + zlen key + 2 + zlen val + 2) pk)) by lia.
  rewrite (app_assoc ((h ++ key) ++ le_bytes16 (zlen val)) val), (read16_at (((h ++ key) ++ le_bytes16 (zlen val)) ++ val))
    by (rewrite ?zlen_app, ?Packet.zlen_le_bytes16; lia). cbn [obind].
  rewrite (proj2 (Z.ltb_ge pk (6 + zlen key + zlen val + zlen es))) by lia.
  rewrite (app_assoc (((h ++ key) ++ le_bytes16 (zlen val)) ++ val) (le_bytes16 (zlen es))),
    (mslice_at ((((h ++ key) ++ le_bytes16 (zlen val)) ++ val) ++ le_bytes16 (zlen es)))
    by (rewrite ?zlen_app, ?Packet.zlen_le_bytes16; lia). cbn [obind].
  unfold es. rewrite ProtocolProofs.str_num_digits by done. done.
Qed.

(** The peer stores what was announced. *)
Lemma udp_set_roundtrip_witness :
  let g := mk_conf 4 8 4 16 16 3 Hash.djb33x_hash false false true false false 0 false 0 false false in
  let d := udp_command [97] [1; 2] 15 10 in
  (let* c := upsgi_cache_init g in
   let* c := cache_udp_receive g 9 (d ++ [7; 7]) (zlen d) c in
   let* (r, _) := upsgi_cache_get2 g 10 [97] c in Ret r) = Ret (Some [1; 2]).
Proof.
  intros g d. destruct (upsgi_cache_init g) as [c| | |] eqn:E; try (vm_compute in E; congruence). cbn [obind].
  unfold d. rewrite (udp_set_roundtrip g 9 [97] [1; 2] 15 [7; 7] c) by (vm_compute; try split; congruence).
  vm_compute in E. injection E as <-. vm_compute. reflexivity.
Defined.

(** The deletion that a node announces is dropped by the receiver: it asks
    for two bytes more than the sender writes after the length of the key. *)
Theorem udp_delete_ignored g now key rest c :
  zlen key + 2 < 2 ^ 16 ->
  cache_udp_receive g now (udp_command key [] 0 11 ++ rest) (zlen (udp_command key [] 0 11)) c = Ret c.
Proof.
  intros Hlen. zlen_facts. unfold udp_command. change (11 =? 10) with false. cbn iota. rewrite app_nil_r.
  rewrite zlen_app, Packet.zlen_le_bytes16, wrap_small by lia. set (pk := 2 + zlen key).
  assert (zlen ([111] ++ le_bytes16 pk ++ [11] ++ le_bytes16 (zlen key) ++ key) = pk + 4) as ->
    by (rewrite !zlen_app, !Packet.zlen_le_bytes16; change (zlen [111]) with 1; change (zlen [11]) with 1; unfold pk; lia).
  rewrite <- !app_assoc. unfold cache_udp_receive.
  assert (forall l, mread ([111] ++ l) 0 = Ret 111) as -> by done. cbn [obind]. change (111 =? 111) with true. cbn [negb].
  rewrite (read16_at [111]) by (done || lia). cbn [obind]. replace (pk =? pk + 4 - 4) with true by (symmetry; apply Z.eqb_eq; lia). cbn [negb].
  assert (forall r, Packet.read16 (zdrop 4 ([111] ++ le_bytes16 pk ++ [11] ++ le_bytes16 (zlen key) ++ r)) = Ret (zlen key)) as ->
    by (intros r; apply (read16_at ([111] ++ le_bytes16 pk ++ [11])); [done | lia]). cbn [obind].
  by rewrite (proj2 (Z.ltb_lt pk (4 + zlen key))) by lia.
Qed.

End CacheUdp.
