(* ===== verification/CacheLinks.v ===== *)
(** Doubly linked lists through the arrays of the cache: the chains of the
    hash table, the list of items by last use, and the stack of unused
    items.  The lemmas are on the maps from indices to the link fields. *)
From S2P Require Import Prelude Clib Buffer Packet Protocol Hash Bitmap Cache.

Module CacheLinks.
Import Cache.

(** * Segments

    The items of [l], linked by [nx] and [pv]; [p] is what the first one
    has as predecessor, [n] what the last one has as successor. *)

Definition last_or (p : Z) (l : list Z) : Z := default p (last l).

Fixpoint dseg (nx pv : gmap Z Z) (p : Z) (l : list Z) (n : Z) : Prop :=
  match l with
  | [] => True
  | i :: l => pv !! i = Some p /\ nx !! i = Some (hd n l) /\ dseg nx pv i l n
  end.

Lemma last_or_cons p i l : last_or p (i :: l) = last_or i l.
Proof. unfold last_or. rewrite last_cons. by destruct (last l). Qed.

Lemma last_or_snoc p l i : last_or p (l ++ [i]) = i.
Proof. unfold last_or. by rewrite last_snoc. Qed.

Lemma last_or_elem p l : l <> [] -> last_or p l ∈ l.
Proof.
  revert p. induction l as [|i l IH]; [done|]. intros p _. rewrite last_or_cons.
  destruct l as [|j l]; [by left|]. right. by apply IH.
Qed.

Lemma dseg_app nx pv p l1 l2 n :
  dseg nx pv p (l1 ++ l2) n <-> dseg nx pv p l1 (hd n l2) /\ dseg nx pv (last_or p l1) l2 n.
Proof.
  revert p. induction l1 as [|i l1 IH]; intros p; cbn -[last_or]; [unfold last_or; cbn; tauto|].
  rewrite IH, last_or_cons. replace (hd n (l1 ++ l2)) with (hd (hd n l2) l1) by by destruct l1. tauto.
Qed.

Lemma dseg_frame nx pv nx' pv' p l n :
  (forall j, j ∈ l -> nx' !! j = nx !! j /\ pv' !! j = pv !! j) -> dseg nx pv p l n -> dseg nx' pv' p l n.
Proof.
  revert p. induction l as [|i l IH]; intros p Hf; [done|]. cbn. intros (Hp & Hn & Hs).
  destruct (Hf i ltac:(by left)) as [-> ->]. split_and!; [done | done |]. apply IH; [|done].
  intros j Hj. apply Hf. by right.
Qed.

Lemma dseg_set_next nx pv p l n n' :
  NoDup l -> l <> [] -> dseg nx pv p l n -> dseg (<[last_or p l:=n']> nx) pv p l n'.
Proof.
  revert p. induction l as [|i l IH]; intros p Hnd Hne; [done|]. cbn -[last_or]. intros (Hp & Hn & Hs).
  apply NoDup_cons in Hnd as [Hi Hnd]. rewrite last_or_cons. destruct l as [|j l].
  - unfold last_or. cbn. by rewrite lookup_insert_eq.
  - split_and!; [done | | by apply IH].
    rewrite lookup_insert_ne; [by destruct l|]. intros E. apply Hi. rewrite <- E. by apply last_or_elem.
Qed.

Lemma dseg_set_prev nx pv p p' i l n :
  NoDup (i :: l) -> dseg nx pv p (i :: l) n -> dseg nx (<[i:=p']> pv) p' (i :: l) n.
Proof.
  intros Hnd (Hp & Hn & Hs). apply NoDup_cons in Hnd as [Hi _]. split_and!.
  - by rewrite lookup_insert_eq.
  - done.
  - eapply dseg_frame; [|done]. intros j Hj. split; [done|]. apply lookup_insert_ne. by intros <-.
Qed.

(** The links of the item that follows [l1] and precedes [l2]. *)
Lemma dseg_middle nx pv p l1 i l2 n :
  dseg nx pv p (l1 ++ i :: l2) n -> pv !! i = Some (last_or p l1) /\ nx !! i = Some (hd n l2).
Proof. rewrite dseg_app. cbn. tauto. Qed.

(** Removal of an item: its neighbours are linked to each other. *)
Lemma dseg_remove nx pv l1 i l2 :
  NoDup (l1 ++ i :: l2) -> dseg nx pv 0 (l1 ++ i :: l2) 0 ->
  let nx' := if bool_decide (l1 = []) then nx else <[last_or 0 l1:=hd 0 l2]> nx in
  let pv' := if bool_decide (l2 = []) then pv else <[hd 0 l2:=last_or 0 l1]> pv in
  dseg nx' pv' 0 (l1 ++ l2) 0.
Proof.
  intros Hnd Hs nx' pv'. rewrite dseg_app in Hs. cbn in Hs. destruct Hs as (H1 & _ & _ & H2).
  apply NoDup_app in Hnd as (N1 & Hdis & N2). apply NoDup_cons in N2 as [Hi N2]. rewrite dseg_app.
  assert (dseg nx' pv 0 l1 (hd 0 l2)) as H1'.
  { unfold nx'. destruct (bool_decide_reflect (l1 = [])) as [->|Hne]; [done|]. by eapply dseg_set_next. }
  assert (dseg nx pv' (last_or 0 l1) l2 0) as H2'.
  { unfold pv'. destruct l2 as [|j l2]; [done|]. rewrite bool_decide_eq_false_2 by done. by eapply dseg_set_prev. }
  split; (eapply dseg_frame; [|done]); intros j Hj; (split; [|done]) || (split; [done|]).
  - unfold pv'. case_bool_decide; [done|]. apply lookup_insert_ne. intros <-.
    apply (Hdis (hd 0 l2) Hj). right. by destruct l2; [|left].
  - unfold nx'. case_bool_decide; [done|]. apply lookup_insert_ne. intros <-.
    apply (Hdis (last_or 0 l1)); [by apply last_or_elem | by right].
Qed.

(** An item added at the end. *)
Lemma dseg_append nx pv l i :
  NoDup l -> i ∉ l -> dseg nx pv 0 l 0 ->
  dseg (<[i:=0]> (if bool_decide (l = []) then nx else <[last_or 0 l:=i]> nx)) (<[i:=last_or 0 l]> pv) 0 (l ++ [i]) 0.
Proof.
  intros Hnd Hi Hs. rewrite dseg_app. cbn. rewrite !lookup_insert_eq. split; [|done].
  eapply (dseg_frame (if bool_decide (l = []) then nx else <[last_or 0 l:=i]> nx) pv).
  { intros j Hj. rewrite !lookup_insert_ne; [done | by intros -> ..]. }
  case_bool_decide as E; [by subst|]. by eapply dseg_set_next.
Qed.

(** * Chains

    [slots] gives the hash slot of every item in use, [ch h] the items of
    slot [h]. *)

Record chains_ok (hashsize : Z) (slots nx pv table : gmap Z Z) (ch : Z -> list Z) : Prop := {
  ch_head : forall h, 0 <= h < hashsize -> table !! h = Some (hd 0 (ch h));
  ch_links : forall h, 0 <= h < hashsize -> dseg nx pv 0 (ch h) 0;
  ch_nodup : forall h, NoDup (ch h);
  ch_member : forall h i, i ∈ ch h <-> slots !! i = Some h;
  ch_slots : forall i h, slots !! i = Some h -> 0 < i /\ 0 <= h < hashsize;
}.

Definition ch_update (ch : Z -> list Z) (h : Z) (l : list Z) : Z -> list Z :=
  fun h' => if h' =? h then l else ch h'.

Lemma ch_update_eq ch h l : ch_update ch h l h = l.
Proof. unfold ch_update. by rewrite Z.eqb_refl. Qed.
Lemma ch_update_ne ch h l h' : h' <> h -> ch_update ch h l h' = ch h'.
Proof. intros H. unfold ch_update. by rewrite (proj2 (Z.eqb_neq _ _) H). Qed.

Lemma chains_split hs slots nx pv table ch i h :
  chains_ok hs slots nx pv table ch -> slots !! i = Some h ->
  exists l1 l2, ch h = l1 ++ i :: l2 /\ NoDup (l1 ++ i :: l2) /\ dseg nx pv 0 (l1 ++ i :: l2) 0 /\
    (l1 = [] <-> last_or 0 l1 = 0) /\ (l2 = [] <-> hd 0 l2 = 0).
Proof.
  intros Hc Hi. pose proof (proj2 (ch_member _ _ _ _ _ _ Hc h i) Hi) as Hin.
  apply list_elem_of_split in Hin as (l1 & l2 & E). exists l1, l2.
  pose proof (ch_nodup _ _ _ _ _ _ Hc h) as Hnd. rewrite E in Hnd.
  pose proof (ch_links _ _ _ _ _ _ Hc h (proj2 (ch_slots _ _ _ _ _ _ Hc i h Hi))) as Hl. rewrite E in Hl.
  assert (forall j, j ∈ l1 \/ j ∈ l2 -> 0 < j) as Hpos.
  { intros j Hj. eapply (ch_slots _ _ _ _ _ _ Hc j h), (ch_member _ _ _ _ _ _ Hc). rewrite E. set_solver. }
  split_and!; [done | done | done | |].
  - split; [by intros -> |]. intros H0. destruct (decide (l1 = [])) as [->|Hne]; [done|].
    pose proof (Hpos _ (or_introl (last_or_elem 0 l1 Hne))). lia.
  - destruct l2 as [|j l2]; [done|]. split; [done|]. cbn. intros ->. pose proof (Hpos 0 ltac:(right; by left)). lia.
Qed.

(** Members of other chains. *)
Lemma chains_other hs slots nx pv table ch h h' i :
  chains_ok hs slots nx pv table ch -> i ∈ ch h -> i ∈ ch h' -> h = h'.
Proof. intros Hc. rewrite !(ch_member _ _ _ _ _ _ Hc). congruence. Qed.

Lemma chains_remove hs slots nx pv table ch i h l1 l2 :
  chains_ok hs slots nx pv table ch -> slots !! i = Some h -> ch h = l1 ++ i :: l2 ->
  chains_ok hs (delete i slots)
    (if bool_decide (l1 = []) then nx else <[last_or 0 l1:=hd 0 l2]> nx)
    (if bool_decide (l2 = []) then pv else <[hd 0 l2:=last_or 0 l1]> pv)
    (if bool_decide (l1 = []) then <[h:=hd 0 l2]> table else table)
    (ch_update ch h (l1 ++ l2)).
Proof.
  intros Hc Hi E. pose proof (ch_slots _ _ _ _ _ _ Hc i h Hi) as [Hi0 Hh].
  pose proof (ch_nodup _ _ _ _ _ _ Hc h) as Hnd. pose proof (ch_links _ _ _ _ _ _ Hc h Hh) as Hl.
  rewrite E in Hnd, Hl. split.
  - intros h' Hh'. destruct (decide (h' = h)) as [->|Hne].
    + rewrite ch_update_eq. case_bool_decide as E1; [subst l1; by rewrite lookup_insert_eq|].
      rewrite (ch_head _ _ _ _ _ _ Hc h Hh), E. by destruct l1.
    + rewrite ch_update_ne by done. rewrite <- (ch_head _ _ _ _ _ _ Hc h' Hh').
      case_bool_decide; [by apply lookup_insert_ne | done].
  - intros h' Hh'. destruct (decide (h' = h)) as [->|Hne].
    + rewrite ch_update_eq. by apply (dseg_remove nx pv l1 i l2).
    + rewrite ch_update_ne by done. eapply dseg_frame; [|by apply (ch_links _ _ _ _ _ _ Hc h')].
      intros j Hj. assert (forall x, x ∈ l1 \/ x ∈ l2 -> x <> j) as Hx.
      { intros x Hx ->. apply Hne. eapply chains_other; [done | done |]. rewrite E. set_solver. }
      split; (case_bool_decide; [done|]; apply lookup_insert_ne; apply Hx).
      * left. by apply last_or_elem.
      * right. by destruct l2; [|left].
  - intros h'. destruct (decide (h' = h)) as [->|Hne].
    + rewrite ch_update_eq. apply NoDup_app in Hnd as (N1 & Hdis & N2). apply NoDup_cons in N2 as [Hni N2].
      apply NoDup_app. split_and!; [done | | done]. intros x Hx Hx'. apply (Hdis x Hx). by right.
    + rewrite ch_update_ne by done. apply (ch_nodup _ _ _ _ _ _ Hc).
  - intros h' j. rewrite lookup_delete_Some. destruct (decide (h' = h)) as [->|Hne].
    + rewrite ch_update_eq, <- (ch_member _ _ _ _ _ _ Hc), E.
      apply NoDup_app in Hnd as (_ & Hdis & N2). apply NoDup_cons in N2 as [Hni _].
      rewrite !elem_of_app, elem_of_cons. split.
      * intros [Hj|Hj]; (split; [intros <- | by auto]); [by eapply Hdis; [|left] | done].
      * intros [Hne [?|[->|?]]]; naive_solver.
    + rewrite ch_update_ne by done. rewrite (ch_member _ _ _ _ _ _ Hc). split; [|tauto].
      intros Hj. split; [|done]. intros <-. congruence.
  - intros j h'. rewrite lookup_delete_Some. intros [_ Hj]. by apply (ch_slots _ _ _ _ _ _ Hc).
Qed.

Lemma chains_append hs slots nx pv table ch i h :
  chains_ok hs slots nx pv table ch -> slots !! i = None -> 0 < i -> 0 <= h < hs ->
  chains_ok hs (<[i:=h]> slots)
    (<[i:=0]> (if bool_decide (ch h = []) then nx else <[last_or 0 (ch h):=i]> nx))
    (<[i:=last_or 0 (ch h)]> pv)
    (if bool_decide (ch h = []) then <[h:=i]> table else table)
    (ch_update ch h (ch h ++ [i])).
Proof.
  intros Hc Hi Hi0 Hh. assert (forall h', i ∉ ch h') as Hni.
  { intros h' Hin. apply (ch_member _ _ _ _ _ _ Hc) in Hin. congruence. }
  pose proof (ch_nodup _ _ _ _ _ _ Hc h) as Hnd. split.
  - intros h' Hh'. destruct (decide (h' = h)) as [->|Hne].
    + rewrite ch_update_eq. case_bool_decide as E1; [rewrite E1; by rewrite lookup_insert_eq|].
      rewrite (ch_head _ _ _ _ _ _ Hc h Hh). by destruct (ch h).
    + rewrite ch_update_ne by done. rewrite <- (ch_head _ _ _ _ _ _ Hc h' Hh').
      case_bool_decide; [by apply lookup_insert_ne | done].
  - intros h' Hh'. destruct (decide (h' = h)) as [->|Hne].
    + rewrite ch_update_eq. apply dseg_append; [done | done | by apply (ch_links _ _ _ _ _ _ Hc)].
    + rewrite ch_update_ne by done. eapply dseg_frame; [|by apply (ch_links _ _ _ _ _ _ Hc h')].
      intros j Hj. assert (i <> j) by (intros ->; by eapply Hni).
      rewrite !(lookup_insert_ne _ i) by done. split; [|done].
      case_bool_decide; [done|]. apply lookup_insert_ne. intros <-. apply Hne.
      eapply chains_other; [done | done |]. by apply last_or_elem.
  - intros h'. destruct (decide (h' = h)) as [->|Hne].
    + rewrite ch_update_eq. apply NoDup_app. split_and!; [done | | apply NoDup_singleton].
      intros x Hx Hx'. apply list_elem_of_singleton in Hx' as ->. by eapply Hni.
    + rewrite ch_update_ne by done. apply (ch_nodup _ _ _ _ _ _ Hc).
  - intros h' j. rewrite lookup_insert_Some. destruct (decide (h' = h)) as [->|Hne].
    + rewrite ch_update_eq, elem_of_app, list_elem_of_singleton, (ch_member _ _ _ _ _ _ Hc).
      split; [intros [Hj| ->]; [right; split; [intros ->; congruence | done] | by left] | naive_solver].
    + rewrite ch_update_ne by done. rewrite (ch_member _ _ _ _ _ _ Hc). split.
      * intros Hj. right. split; [intros ->; congruence | done].
      * naive_solver.
  - intros j h'. rewrite lookup_insert_Some. intros [[<- <-]|[_ Hj]]; [done | by apply (ch_slots _ _ _ _ _ _ Hc)].
Qed.

(** Only the links of items in use matter. *)
Lemma chains_frame hs slots nx pv nx' pv' table ch :
  (forall i, is_Some (slots !! i) -> nx' !! i = nx !! i /\ pv' !! i = pv !! i) ->
  chains_ok hs slots nx pv table ch -> chains_ok hs slots nx' pv' table ch.
Proof.
  intros Hf [H1 H2 H3 H4 H5]. split; try done. intros h Hh. eapply dseg_frame; [|by apply H2].
  intros j Hj. apply Hf. apply H4 in Hj. eauto.
Qed.

(** * The list by last use *)

Record lru_ok (slots nx pv : gmap Z Z) (head tail : Z) (l : list Z) : Prop := {
  lr_links : dseg nx pv 0 l 0;
  lr_nodup : NoDup l;
  lr_member : forall i, i ∈ l <-> is_Some (slots !! i);
  lr_head : head = hd 0 l;
  lr_tail : tail = last_or 0 l;
  lr_pos : forall i, i ∈ l -> 0 < i;
}.

Lemma lru_frame slots nx pv nx' pv' head tail l :
  (forall i, is_Some (slots !! i) -> nx' !! i = nx !! i /\ pv' !! i = pv !! i) ->
  lru_ok slots nx pv head tail l -> lru_ok slots nx' pv' head tail l.
Proof.
  intros Hf [H1 H2 H3 H4 H5 H6]. split; try done. eapply dseg_frame; [|done]. intros j Hj. by apply Hf, H3.
Qed.

Lemma last_or_app_r p l i l2 : l2 <> [] -> last_or p (l ++ i :: l2) = last_or p (l ++ l2).
Proof.
  intros Hne. unfold last_or. rewrite !last_app. destruct l2 as [|j l2]; [done|]. by rewrite last_cons_cons.
Qed.

Lemma lru_split slots nx pv head tail l i :
  lru_ok slots nx pv head tail l -> is_Some (slots !! i) ->
  exists l1 l2, l = l1 ++ i :: l2 /\ (l1 = [] <-> last_or 0 l1 = 0) /\ (l2 = [] <-> hd 0 l2 = 0).
Proof.
  intros [Hl Hnd Hm Hh Ht Hpos] Hi. apply Hm in Hi. apply list_elem_of_split in Hi as (l1 & l2 & ->).
  exists l1, l2. split_and!; [done | |].
  - split; [by intros -> |]. intros H0. destruct (decide (l1 = [])) as [->|Hne]; [done|].
    pose proof (Hpos (last_or 0 l1)) as Hp. rewrite elem_of_app in Hp.
    specialize (Hp (or_introl (last_or_elem 0 l1 Hne))). lia.
  - destruct l2 as [|j l2]; [done|]. split; [done|]. cbn. intros ->. specialize (Hpos 0 ltac:(set_solver)). lia.
Qed.

Lemma lru_remove slots nx pv head tail l1 i l2 :
  lru_ok slots nx pv head tail (l1 ++ i :: l2) ->
  lru_ok (delete i slots)
    (if bool_decide (l1 = []) then nx else <[last_or 0 l1:=hd 0 l2]> nx)
    (if bool_decide (l2 = []) then pv else <[hd 0 l2:=last_or 0 l1]> pv)
    (if bool_decide (l1 = []) then hd 0 l2 else head)
    (if bool_decide (l2 = []) then last_or 0 l1 else tail) (l1 ++ l2).
Proof.
  intros [Hl Hnd Hm Hh Ht Hpos]. pose proof Hnd as Hnd'.
  apply NoDup_app in Hnd' as (N1 & Hdis & N2). apply NoDup_cons in N2 as [Hni N2]. split.
  - by apply (dseg_remove nx pv l1 i l2).
  - apply NoDup_app. split_and!; [done | | done]. intros x Hx Hx'. apply (Hdis x Hx). by right.
  - intros j. destruct (decide (j = i)) as [->|Hne].
    + rewrite lookup_delete_eq. split; [|by intros []]. rewrite elem_of_app. intros [Hj|Hj]; [|done].
      exfalso. by eapply Hdis; [|left].
    + rewrite lookup_delete_ne, <- Hm by done. set_solver.
  - case_bool_decide as E; [by subst|]. rewrite Hh. by destruct l1.
  - case_bool_decide as E; [subst; by rewrite app_nil_r|]. rewrite Ht. by apply last_or_app_r.
  - intros j Hj. apply Hpos. set_solver.
Qed.

Lemma lru_append slots nx pv head tail l i h :
  lru_ok slots nx pv head tail l -> slots !! i = None -> 0 < i ->
  lru_ok (<[i:=h]> slots)
    (<[i:=0]> (if bool_decide (l = []) then nx else <[last_or 0 l:=i]> nx))
    (<[i:=last_or 0 l]> pv)
    (if bool_decide (l = []) then i else head) i (l ++ [i]).
Proof.
  intros [Hl Hnd Hm Hh Ht Hpos] Hi Hi0. assert (i ∉ l) as Hni.
  { intros Hin. apply Hm in Hin. rewrite Hi in Hin. by destruct Hin. }
  split.
  - by apply dseg_append.
  - apply NoDup_app. split_and!; [done | | apply NoDup_singleton].
    intros x Hx Hx'. apply list_elem_of_singleton in Hx' as ->. done.
  - intros j. rewrite elem_of_app, list_elem_of_singleton, Hm. destruct (decide (j = i)) as [->|Hne].
    + rewrite lookup_insert_eq. naive_solver.
    + rewrite lookup_insert_ne by done. naive_solver.
  - case_bool_decide as E; [by subst|]. rewrite Hh. by destruct l.
  - by rewrite last_or_snoc.
  - intros j. rewrite elem_of_app, list_elem_of_singleton. intros [?| ->]; auto.
Qed.

(** * The stack of unused items *)

Record stack_ok (max_items : Z) (slots stack : gmap Z Z) (ptr : Z) (fs : list Z) : Prop := {
  sk_ptr : ptr = zlen fs;
  sk_entry : forall k i, fs !! k = Some i -> stack !! (Z.of_nat k + 1) = Some i;
  sk_dom : forall k, 0 <= k < max_items -> is_Some (stack !! k);
  sk_nodup : NoDup fs;
  sk_member : forall i, i ∈ fs <-> (1 <= i < max_items /\ slots !! i = None);
  sk_slots : forall i h, slots !! i = Some h -> 1 <= i < max_items;
}.

(** There are fewer unused items than entries, because one more is in use. *)
Lemma stack_room max slots stack ptr fs i h :
  stack_ok max slots stack ptr fs -> slots !! i = Some h -> ptr + 1 < max.
Proof.
  intros [-> _ _ Hnd Hm Hs] Hi. specialize (Hs i h Hi).
  assert (NoDup (i :: fs)) as Hnd'.
  { apply NoDup_cons. split; [|done]. rewrite Hm. intros [_ ?]. congruence. }
  assert (i :: fs ⊆ seqZ 1 (max - 1)) as Hsub.
  { intros j Hj. apply elem_of_seqZ. apply elem_of_cons in Hj as [->|Hj]; [lia|]. apply Hm in Hj. lia. }
  pose proof (submseteq_length _ _ (NoDup_submseteq _ _ Hnd' Hsub)) as Hlen.
  rewrite length_seqZ in Hlen. cbn in Hlen. unfold zlen. lia.
Qed.

Lemma stack_push max slots stack ptr fs i h :
  stack_ok max slots stack ptr fs -> slots !! i = Some h ->
  is_Some (stack !! (ptr + 1)) /\ stack_ok max (delete i slots) (<[ptr + 1:=i]> stack) (ptr + 1) (fs ++ [i]).
Proof.
  intros Hs Hi. pose proof (stack_room _ _ _ _ _ _ _ Hs Hi) as Hroom.
  destruct Hs as [-> He Hd Hnd Hm Hsl]. split; [apply Hd; zlia|]. pose proof (Hsl i h Hi) as Hr. split.
  - rewrite zlen_app. done.
  - intros k x. rewrite lookup_app. destruct (fs !! k) as [y|] eqn:E.
    + intros [= <-]. apply lookup_lt_Some in E as Hk. rewrite lookup_insert_ne; [by apply He | unfold zlen; lia].
    + apply lookup_ge_None in E. destruct (k - length fs)%nat as [|n] eqn:E'; [|done]. cbn. intros [= <-].
      replace (Z.of_nat k + 1) with (zlen fs + 1) by (unfold zlen; lia). apply lookup_insert_eq.
  - intros k Hk. destruct (decide (k = zlen fs + 1)) as [->|Hne]; [rewrite lookup_insert_eq; eauto|].
    rewrite lookup_insert_ne by done. by apply Hd.
  - apply NoDup_app. split_and!; [done | | apply NoDup_singleton]. intros x Hx Hx'.
    apply list_elem_of_singleton in Hx' as ->. apply Hm in Hx as [_ ?]. congruence.
  - intros j. rewrite elem_of_app, list_elem_of_singleton, Hm, lookup_delete_None. split.
    + intros [[? ?]| ->]; split; auto; lia.
    + intros [? [->|?]]; auto.
  - intros j h'. rewrite lookup_delete_Some. intros [_ ?]. eauto.
Qed.

Lemma stack_pop max slots stack ptr fs i h :
  stack_ok max slots stack ptr (fs ++ [i]) ->
  stack !! ptr = Some i /\ stack_ok max (<[i:=h]> slots) stack (ptr - 1) fs.
Proof.
  intros [-> He Hd Hnd Hm Hsl]. rewrite zlen_app. change (zlen [i]) with 1. split.
  { specialize (He (length fs) i). rewrite lookup_app_r, Nat.sub_diag in He by lia. unfold zlen. by apply He. }
  apply NoDup_app in Hnd as (N1 & Hdis & _). assert (i ∉ fs) as Hni by (intros ?; by eapply Hdis; [|left]).
  pose proof (proj1 (Hm i) ltac:(set_solver)) as [Hr Hi]. split; try done.
  - lia.
  - intros k x Hk. apply He. by apply lookup_app_l_Some.
  - intros j. specialize (Hm j). rewrite elem_of_app, list_elem_of_singleton in Hm.
    rewrite lookup_insert_None. split.
    + intros Hj. assert (i <> j) by (intros ->; done). split; [|split]; [apply Hm; auto | apply Hm; auto | done].
    + intros [? [? ?]]. destruct (proj2 Hm ltac:(auto)) as [?|?]; [done | congruence].
  - intros j h'. rewrite lookup_insert_Some. intros [[<- _]|[_ ?]]; [done | eauto].
Qed.

End CacheLinks.
