(* ===== verification/CacheInv.v ===== *)
(** The invariant of the shared memory cache and what each of its internal
    operations does to it.

    The abstract contents are a finite map from indices to keys with their
    entries ([view]) and, because no key occurs twice, a map from keys to
    entries ([abs]). *)
From S2P Require Import Prelude Clib Buffer Packet Protocol Hash Bitmap Cache CacheLinks.

Module CacheInv.
Import Bitmap Cache CacheLinks.

(** * Abstract contents *)

Record entry : Type := mk_entry { e_val : list Z; e_expires : Z; e_flags : Z; e_hits : Z }.

Definition item_key (it : item) : list Z := ztake it.(i_keysize) it.(i_key).
Definition item_entry (g : cache_conf) (d : list Z) (it : item) : entry :=
  mk_entry (ztake it.(i_valsize) (zdrop (it.(i_first_block) * g.(uc_blocksize)) d)) it.(i_expires) it.(i_flags) it.(i_hits).
Definition item_view (g : cache_conf) (d : list Z) (it : item) : option (list Z * entry) :=
  if 0 <? it.(i_keysize) then Some (item_key it, item_entry g d it) else None.

Abbreviation contents := (gmap Z (list Z * entry)).
Definition view (g : cache_conf) (its : gmap Z item) (d : list Z) : contents := omap (item_view g d) its.
Definition cview (g : cache_conf) (c : cache) : contents := view g c.(items) c.(cdata).

Definition keys_inj (V : contents) : Prop :=
  forall i j k e e', V !! i = Some (k, e) -> V !! j = Some (k, e') -> i = j.

Definition abs_of (V : contents) : gmap (list Z) entry := list_to_map (map_to_list V).*2.
Definition abs (g : cache_conf) (c : cache) : gmap (list Z) entry := abs_of (cview g c).

(** The hash slot of every item in use. *)
Definition slots (g : cache_conf) (V : contents) : gmap Z Z := (fun ke => g.(uc_hash) ke.1 mod g.(uc_hashsize)) <$> V.

(** * Invariant *)

(** What [upsgi_cache_create] checks, and sizes that can be allocated. *)
Record conf_ok (g : cache_conf) : Prop := {
  co_items : 1 <= g.(uc_max_items) <= g.(uc_blocks);
  co_keysize : 0 < g.(uc_keysize) < 65536;
  co_blocksize : 0 < g.(uc_blocksize);
  co_size : g.(uc_blocks) * g.(uc_blocksize) < 2 ^ 60;
  co_hashsize : 0 < g.(uc_hashsize) < 2 ^ 32;
  co_hash : forall k, 0 <= g.(uc_hash) k < 2 ^ 32;
  co_max_size : g.(uc_max_item_size) = if g.(uc_use_bitmap) then g.(uc_blocksize) * g.(uc_blocks) else g.(uc_blocksize);
}.

(** The blocks of an item. *)
Definition item_blocks (g : cache_conf) (it : item) : Z := needed_blocks g.(uc_blocksize) it.(i_valsize).

Record item_ok (g : cache_conf) (i : Z) (it : item) : Prop := {
  io_area : zlen it.(i_key) = g.(uc_keysize);
  io_keysize : 0 <= it.(i_keysize) <= g.(uc_keysize);
  io_used : 0 < it.(i_keysize) ->
    it.(i_hash) = g.(uc_hash) (item_key it) /\ 0 < it.(i_valsize) /\
    0 <= it.(i_first_block) /\ it.(i_first_block) + item_blocks g it <= g.(uc_blocks) /\
    (g.(uc_use_bitmap) = false -> it.(i_first_block) = i /\ item_blocks g it = 1);
}.

Definition in_use (its : gmap Z item) (i : Z) (it : item) : Prop := its !! i = Some it /\ 0 < it.(i_keysize).

Definition runs_disjoint (g : cache_conf) (its : gmap Z item) : Prop :=
  forall i j it jt k, in_use its i it -> in_use its j jt ->
    in_run it.(i_first_block) (item_blocks g it) k = true -> in_run jt.(i_first_block) (item_blocks g jt) k = true -> i = j.

Record bitmap_ok (g : cache_conf) (its : gmap Z item) (bm : list Z) (pos : Z) : Prop := {
  bo_bytes : bytes_ok bm;
  bo_size : g.(uc_blocks) <= 8 * zlen bm < g.(uc_blocks) + 8;
  bo_pos : 0 <= pos < g.(uc_blocks);
  bo_bits : forall k, 0 <= k < 8 * zlen bm ->
    (used bm k = true <->
     g.(uc_blocks) <= k \/ exists i it, in_use its i it /\ in_run it.(i_first_block) (item_blocks g it) k = true);
}.

(** Everything but the links and the stack. *)
Record store_ok (g : cache_conf) (its : gmap Z item) (bm : list Z) (pos : Z) (d : list Z) : Prop := {
  so_dom : forall i, is_Some (its !! i) <-> 0 <= i < g.(uc_max_items);
  so_items : forall i it, its !! i = Some it -> item_ok g i it;
  so_keys : keys_inj (view g its d);
  so_runs : runs_disjoint g its;
  so_bitmap : g.(uc_use_bitmap) = true -> bitmap_ok g its bm pos;
  so_data : zlen d = g.(uc_blocks) * g.(uc_blocksize);
}.

Record cache_inv (g : cache_conf) (ch : Z -> list Z) (lru fs : list Z) (c : cache) : Prop := {
  ci_store : store_ok g c.(items) c.(bitmap) c.(bitmap_pos) c.(cdata);
  ci_chains : chains_ok g.(uc_hashsize) (slots g (cview g c)) (i_next <$> c.(items)) (i_prev <$> c.(items)) c.(hashtable) ch;
  ci_stack : stack_ok g.(uc_max_items) (slots g (cview g c)) c.(unused_stack) c.(stack_ptr) fs;
  ci_lru : g.(uc_purge_lru) = true ->
    lru_ok (slots g (cview g c)) (i_lru_next <$> c.(items)) (i_lru_prev <$> c.(items)) c.(lru_head) c.(lru_tail) lru;
  ci_count : c.(n_items) = g.(uc_max_items) - 1 - zlen fs;
}.

(** [lru]: the items in use, the one used least recently first. *)
Definition inv (g : cache_conf) (lru : list Z) (c : cache) : Prop := exists ch fs, cache_inv g ch lru fs c.

(** * The abstract map *)

Lemma abs_of_lookup V k e : keys_inj V -> abs_of V !! k = Some e <-> exists i, V !! i = Some (k, e).
Proof.
  intros Hinj. unfold abs_of. split.
  - intros H%elem_of_list_to_map_2. apply list_elem_of_fmap in H as ([i [k' e']] & [= <- <-] & H).
    apply elem_of_map_to_list in H. eauto.
  - intros [i Hi]. apply elem_of_list_to_map_1'.
    + intros e' H. apply list_elem_of_fmap in H as ([j [k' e'']] & [= <- <-] & H).
      apply elem_of_map_to_list in H. assert (i = j) as -> by by eapply Hinj. congruence.
    + apply list_elem_of_fmap. exists (i, (k, e)). split; [done|]. by apply elem_of_map_to_list.
Qed.

Lemma map_ext_some {A} (m1 m2 : gmap (list Z) A) :
  (forall k e, m1 !! k = Some e <-> m2 !! k = Some e) -> m1 = m2.
Proof. intros H. apply map_eq. intros k. apply option_eq. apply H. Qed.

Lemma abs_of_None V k : keys_inj V -> abs_of V !! k = None <-> forall i e, V !! i <> Some (k, e).
Proof.
  intros Hinj. rewrite eq_None_not_Some. split.
  - intros H i e Hi. apply H. exists e. apply abs_of_lookup; eauto.
  - intros H [e He]. apply abs_of_lookup in He as [i Hi]; [|done]. by eapply H.
Qed.

Lemma keys_inj_delete V i : keys_inj V -> keys_inj (delete i V).
Proof. intros H a b k e e'. rewrite !lookup_delete_Some. intros [_ Ha] [_ Hb]. by eapply H. Qed.

Lemma keys_inj_insert V i k e :
  keys_inj V -> (forall j e', V !! j = Some (k, e') -> j = i) -> keys_inj (<[i:=(k, e)]> V).
Proof.
  intros H Hk a b x y z. rewrite !lookup_insert_Some.
  intros [[<- [= <- <-]]|[Ha Hva]] [[<- [= <-]]|[Hb Hvb]]; try done.
  - symmetry. by eapply Hk.
  - subst. by eapply Hk.
  - by eapply H.
Qed.

Lemma abs_of_delete V i k e : keys_inj V -> V !! i = Some (k, e) -> abs_of (delete i V) = delete k (abs_of V).
Proof.
  intros Hinj Hi. apply map_ext_some. intros k' e'.
  rewrite abs_of_lookup by by apply keys_inj_delete. rewrite lookup_delete_Some, abs_of_lookup by done. split.
  - intros [j Hj]. apply lookup_delete_Some in Hj as [Hne Hj]. split; [|eauto]. intros <-. apply Hne. by eapply Hinj.
  - intros [Hne [j Hj]]. exists j. apply lookup_delete_Some. split; [|done]. intros <-. congruence.
Qed.

Lemma abs_of_insert V i k e :
  keys_inj V -> (V !! i = None \/ exists e', V !! i = Some (k, e')) ->
  (forall j e', V !! j = Some (k, e') -> j = i) -> abs_of (<[i:=(k, e)]> V) = <[k:=e]> (abs_of V).
Proof.
  intros Hinj Hi Hk. apply map_ext_some. intros k' e'.
  rewrite abs_of_lookup by by apply keys_inj_insert. rewrite lookup_insert_Some, abs_of_lookup by done. split.
  - intros [j Hj]. apply lookup_insert_Some in Hj as [[<- [= <- <-]]|[Hne Hj]]; [by left|]. right. split; [|eauto].
    intros <-. apply Hne. symmetry. by eapply Hk.
  - intros [[<- <-]|[Hne [j Hj]]]; [exists i; by rewrite lookup_insert_eq|]. exists j. rewrite lookup_insert_ne; [done|].
    intros <-. destruct Hi as [?|[? ?]]; congruence.
Qed.

(** * Projections of the items *)

Definition nochain (it : item) : item := it<|i_prev := 0|><|i_next := 0|>.
Definition nolru (it : item) : item := it<|i_lru_prev := 0|><|i_lru_next := 0|>.
(** The fields that are not links. *)
Definition core (it : item) : item := nochain (nolru it).

Lemma proj_eq {A B : Type} (strip : item -> A) (f : item -> B) (f' : A -> B) (a b : gmap Z item) :
  (forall x, f x = f' (strip x)) -> strip <$> a = strip <$> b -> f <$> a = f <$> b.
Proof.
  intros Hf H. apply map_eq. intros i. rewrite !lookup_fmap.
  assert (strip <$> a !! i = strip <$> b !! i) as Hi by (by rewrite <- !lookup_fmap, H).
  destruct (a !! i) as [x|], (b !! i) as [y|]; try done. cbn in *. rewrite !Hf. congruence.
Qed.

Lemma core_of_nochain (a b : gmap Z item) : nochain <$> a = nochain <$> b -> core <$> a = core <$> b.
Proof. apply (proj_eq nochain core core). by intros []. Qed.
Lemma core_of_nolru (a b : gmap Z item) : nolru <$> a = nolru <$> b -> core <$> a = core <$> b.
Proof. apply (proj_eq nolru core core). by intros []. Qed.

Lemma view_core (g : cache_conf) d (a b : gmap Z item) : core <$> a = core <$> b -> view g a d = view g b d.
Proof.
  intros H. apply map_eq. intros i. unfold view. rewrite !lookup_omap.
  assert (core <$> a !! i = core <$> b !! i) as Hi by (by rewrite <- !lookup_fmap, H).
  destruct (a !! i) as [x|], (b !! i) as [y|]; try done. cbn in *.
  assert (forall z, item_view g d (core z) = item_view g d z) as Hz by by intros [].
  rewrite <- (Hz x), <- (Hz y). congruence.
Qed.

(** The lookup of an item under an equality of projections. *)
Lemma core_lookup (a b : gmap Z item) i it : core <$> a = core <$> b -> a !! i = Some it -> exists it', b !! i = Some it' /\ core it = core it'.
Proof.
  intros H Hi. assert (core <$> a !! i = core <$> b !! i) as E by (by rewrite <- !lookup_fmap, H).
  rewrite Hi in E. destruct (b !! i) as [y|]; [|done]. exists y. split; [done|]. by apply (inj Some) in E.
Qed.

Lemma item_ok_core g i it it' : core it = core it' -> item_ok g i it -> item_ok g i it'.
Proof. destruct it, it'. unfold core, nochain, nolru, setter; cbn. intros [= -> -> -> -> -> -> -> ->]. by intros []. Qed.

Lemma in_use_core (a b : gmap Z item) i it : core <$> a = core <$> b -> in_use a i it -> exists it', in_use b i it' /\ core it = core it'.
Proof.
  intros H [Hi Hk]. destruct (core_lookup _ _ _ _ H Hi) as (it' & Hi' & E). exists it'. split; [split; [done|]|done].
  by destruct it, it'; unfold core, nochain, nolru, setter in E; cbn in *; injection E as -> -> -> -> -> -> -> ->.
Qed.

Lemma core_run g it it' k :
  core it = core it' -> in_run (i_first_block it) (item_blocks g it) k = in_run (i_first_block it') (item_blocks g it') k.
Proof. destruct it, it'. unfold core, nochain, nolru, setter; cbn. by intros [= -> -> -> -> -> -> -> ->]. Qed.

(** The store does not depend on the links. *)
Lemma store_ok_core g (a b : gmap Z item) bm pos d : core <$> a = core <$> b -> store_ok g a bm pos d -> store_ok g b bm pos d.
Proof.
  intros H [Hd Hi Hk Hr Hb Hz]. symmetry in H. split.
  - intros i. rewrite <- Hd, <- (fmap_is_Some core (a !! i)), <- (fmap_is_Some core (b !! i)). by rewrite <- !lookup_fmap, H.
  - intros i it Hit. destruct (core_lookup _ _ _ _ H Hit) as (it' & Hit' & E). eapply item_ok_core; [by symmetry|]. by apply Hi.
  - by rewrite (view_core g d b a H).
  - intros i j it jt k Hi1 Hj1 Ha Hb1. destruct (in_use_core _ _ _ _ H Hi1) as (it' & Hi2 & E1).
    destruct (in_use_core _ _ _ _ H Hj1) as (jt' & Hj2 & E2).
    rewrite (core_run g _ _ _ E1) in Ha. rewrite (core_run g _ _ _ E2) in Hb1. by eapply (Hr i j it' jt' k).
  - intros Hu. destruct (Hb Hu) as [B1 B2 B3 B4]. split; [done | done | done |]. intros k Hk'. rewrite (B4 k Hk'). split.
    + intros [?|(i & it & Hi1 & Ha)]; [by left|]. right. symmetry in H.
      destruct (in_use_core _ _ _ _ H Hi1) as (it' & Hi2 & E1). exists i, it'. by rewrite <- (core_run g _ _ _ E1).
    + intros [?|(i & it & Hi1 & Ha)]; [by left|]. right.
      destruct (in_use_core _ _ _ _ H Hi1) as (it' & Hi2 & E1). exists i, it'. by rewrite <- (core_run g _ _ _ E1).
  - done.
Qed.

End CacheInv.
