(* ===== verification/CacheConf.v ===== *)
(** The creation of caches (core/cache.c): from the options of a definition to
    a configuration, and the list of the caches by name. *)
From S2P Require Import Prelude Clib Kvlist Buffer Packet Protocol Strings Hash Bitmap Cache CacheInv.

Module CacheConf.
Import Kvlist Cache CacheInv.

(** The variables [c_name], [c_max_items], ... of [upsgi_cache_create]. *)
Inductive cache_opt : Type :=
| c_name | c_max_items | c_blocksize | c_blocks | c_hash | c_hashsize | c_keysize | c_bitmap | c_math_initial
| c_ignore_full | c_purge_lru | c_lazy_expire | c_sweep_on_full | c_clear_on_full | c_no_expire.
#[export] Instance cache_opt_eq : EqDecision cache_opt.
Proof. solve_decision. Defined.

Definition cache_options : list (list Z * cache_opt) :=
  [(chars "name", c_name); (chars "max_items", c_max_items); (chars "maxitems", c_max_items); (chars "items", c_max_items);
   (chars "blocksize", c_blocksize); (chars "blocks", c_blocks); (chars "hash", c_hash);
   (chars "hashsize", c_hashsize); (chars "hash_size", c_hashsize); (chars "keysize", c_keysize); (chars "key_size", c_keysize);
   (chars "bitmap", c_bitmap); (chars "math_initial", c_math_initial); (chars "ignore_full", c_ignore_full);
   (chars "purge_lru", c_purge_lru); (chars "lru", c_purge_lru); (chars "lazy_expire", c_lazy_expire); (chars "lazy", c_lazy_expire);
   (chars "sweep_on_full", c_sweep_on_full); (chars "clear_on_full", c_clear_on_full); (chars "no_expire", c_no_expire)].

Definition UMAX16 : Z := 65536.

Section creation.
(** The value that each algorithm gives to a key: a function of the key for
    djb33x and murmur2; the others are no use for a cache. *)
Context (hash_value : Hash.hash_algo -> list Z -> Z).
(** [upsgi.hash_algos] and [upsgi.master_process]. *)
Context (algos : Hash.registry) (master : bool).

Definition set_opt (o : option (list Z)) (dflt : Z) : Z := match o with Some v => upsgi_n64 v | None => dflt end.
Definition is_set (o : option (list Z)) : bool := match o with Some _ => true | None => false end.

(** The configuration that the parsed options give. *)
Definition cache_conf_of (o : cache_opt -> option (list Z)) : outcome cache_conf :=
  match o c_max_items with
  | None => Exited
  | Some mi =>
      let max_items := upsgi_n64 mi in
      if max_items =? 0 then Exited
      else
        let blocksize := set_opt (o c_blocksize) UMAX16 in
        if blocksize =? 0 then Exited
        else
          let blocks := set_opt (o c_blocks) max_items in
          if blocks =? 0 then Exited
          else
            match Hash.upsgi_hash_algo_get algos (default (chars "djb33x") (o c_hash)) with
            | None => Exited
            | Some a =>
                (* a 32 bit field *)
                let hashsize := u32 (set_opt (o c_hashsize) UMAX16) in
                if hashsize =? 0 then Exited
                else
                  let keysize := set_opt (o c_keysize) 2048 in
                  if (keysize =? 0) || (UMAX16 <=? keysize) then Exited
                  else
                    let max_item_size := if is_set (o c_bitmap) then u64 (blocksize * blocks) else blocksize in
                    let math_initial := match o c_math_initial with Some v => strtol10 v | None => 0 end in
                    if blocks <? max_items then Exited
                    else Ret (mk_conf max_items keysize blocks blocksize max_item_size hashsize (hash_value a)
                                (is_set (o c_bitmap)) (is_set (o c_purge_lru)) (is_set (o c_lazy_expire))
                                (is_set (o c_no_expire)) (is_set (o c_clear_on_full)) (set_opt (o c_sweep_on_full) 0)
                                false math_initial false master)
            end
  end.

(** A cache of [upsgi.caches]: its name, its configuration, its contents. *)
Record named_cache : Type := mk_named { nc_name : list Z; nc_conf : cache_conf; nc_cache : cache }.

Definition default_conf : outcome cache_conf :=
  match Hash.upsgi_hash_algo_get algos (chars "djb33x") with
  | None => Fault
  | Some a => Ret (mk_conf 64 2048 64 UMAX16 UMAX16 UMAX16 (hash_value a) false false false false false 0 false 0 false master)
  end.

Definition add_cache (name : list Z) (g : cache_conf) (caches : list named_cache) : outcome (list named_cache) :=
  let* c := upsgi_cache_init g in Ret (caches ++ [mk_named name g c]).

(** [None] is the retained local definition. *)
Definition upsgi_cache_create (arg : option (list Z)) (caches : list named_cache) : outcome (list named_cache) :=
  match arg with
  | None => let* g := default_conf in add_cache (chars "default") g caches
  | Some arg =>
      let o := upsgi_kvlist_parse arg 44 61 cache_options no_options in
      match o c_name with
      | None => Exited
      | Some name => let* g := cache_conf_of o in add_cache name g caches
      end
  end.

Fixpoint create_all_loop (args : list (list Z)) (caches : list named_cache) : outcome (list named_cache) :=
  match args with [] => Ret caches | a :: args => let* caches := upsgi_cache_create (Some a) caches in create_all_loop args caches end.

(** [upsgi.cache_setup] and the definitions of [--cache2]. *)
Definition upsgi_cache_create_all (setup : bool) (args : list (list Z)) (caches : list named_cache) : outcome (list named_cache) :=
  if setup then Ret caches else create_all_loop args caches.

(** With an empty name the first cache. *)
Definition upsgi_cache_by_name (name : list Z) (caches : list named_cache) : option named_cache :=
  match name with
  | [] => head caches
  | _ => find (fun nc => bytes_eqb nc.(nc_name) name) caches
  end.

Definition local_conf (max_items blocksize : Z) : outcome cache_conf :=
  match Hash.upsgi_hash_algo_get algos (chars "djb33x") with
  | None => Fault
  | Some a => Ret (mk_conf max_items 2048 max_items blocksize blocksize UMAX16 (hash_value a) false false false false false 0 false 0 false master)
  end.

Definition upsgi_cache_ensure_named_local (name : list Z) (max_items blocksize : Z) (caches : list named_cache)
    : outcome (named_cache * list named_cache) :=
  match upsgi_cache_by_name name caches with
  | Some nc => Ret (nc, caches)
  | None =>
      let* g := local_conf max_items blocksize in
      let* c := upsgi_cache_init g in
      let nc := mk_named name g c in Ret (nc, caches ++ [nc])
  end.

(** * What a definition gives *)

Context (Hhash : forall a k, 0 <= hash_value a k < 2 ^ 32).

Lemma set_opt_nonneg o d : 0 <= d -> 0 <= set_opt o d.
Proof. intros Hd. destruct o; [apply upsgi_n64_range | done]. Qed.

(** A definition that is accepted is a configuration that the operations work
    on, provided its data fits the memory. *)
Lemma cache_conf_of_ok o g : cache_conf_of o = Ret g -> uc_blocks g * uc_blocksize g < 2 ^ 60 -> conf_ok g.
Proof.
  unfold cache_conf_of. intros E Hsz. destruct (o c_max_items) as [mi|]; [|done]. cbn zeta in E.
  pose proof (upsgi_n64_range mi). pose proof (set_opt_nonneg (o c_blocksize) UMAX16 ltac:(done)).
  pose proof (set_opt_nonneg (o c_blocks) (upsgi_n64 mi) ltac:(lia)). pose proof (set_opt_nonneg (o c_keysize) 2048 ltac:(done)).
  pose proof (wrap_range 32 (set_opt (o c_hashsize) UMAX16) ltac:(lia)).
  repeat match type of E with (if ?b then Exited else _) = _ => destruct b eqn:?; [done|] end.
  destruct (Hash.upsgi_hash_algo_get _ _) as [a|]; [|done].
  repeat match type of E with (if ?b then Exited else _) = _ => destruct b eqn:?; [done|] end.
  repeat match goal with H : (_ || _) = false |- _ => apply orb_false_iff in H as [??] end.
  repeat match goal with H : (_ =? _) = false |- _ => apply Z.eqb_neq in H | H : (_ <? _) = false |- _ => apply Z.ltb_ge in H | H : (_ <=? _) = false |- _ => apply Z.leb_gt in H end.
  injection E as <-. cbn in Hsz. change UMAX16 with 65536 in *. split; cbn -[u64]; try done; try lia.
  destruct (is_set (o c_bitmap)); [|done]. rewrite wrap_small; nia.
Qed.

Lemma default_conf_ok g : default_conf = Ret g -> conf_ok g.
Proof. unfold default_conf. destruct (Hash.upsgi_hash_algo_get _ _); [|done]. intros [= <-]. by split; cbn. Qed.

Lemma local_conf_ok max_items blocksize g :
  local_conf max_items blocksize = Ret g -> 1 <= max_items -> 0 < blocksize -> max_items * blocksize < 2 ^ 60 -> conf_ok g.
Proof.
  unfold local_conf. destruct (Hash.upsgi_hash_algo_get _ _); [|done]. intros [= <-] ???. change UMAX16 with 65536. by split; cbn; try lia.
Qed.

End creation.
End CacheConf.
