(* ===== verification/CacheSteps.v ===== *)
(** What the internal steps of the cache do to its links: linking and
    unlinking of chains, the list by last use, the stack, and the search of a
    chain. *)
From S2P Require Import Prelude Clib Buffer Packet Protocol Hash Bitmap Cache CacheLinks CacheInv.

Module CacheSteps.
Import Bitmap Cache CacheLinks CacheInv.

(** * Field updates *)

Lemma cache_item_ok i it c : c.(items) !! i = Some it -> cache_item i c = Ret it.
Proof. intros H. unfold cache_item, aget. by rewrite H. Qed.

Lemma with_item_ok i f it c :
  c.(items) !! i = Some it -> with_item i f c = Ret (c<|items := <[i:=f it]> c.(items)|>).
Proof. intros H. unfold with_item. by rewrite (cache_item_ok i it). Qed.

Lemma fmap_insert_same {B} (f : item -> B) (its : gmap Z item) i it it' :
  its !! i = Some it -> f it' = f it -> f <$> <[i:=it']> its = f <$> its.
Proof. intros Hi Hf. rewrite fmap_insert, Hf. apply insert_id. by rewrite lookup_fmap, Hi. Qed.

Lemma fmap_lookup_Some {B} (f : item -> B) (its : gmap Z item) i x :
  (f <$> its) !! i = Some x -> exists it, its !! i = Some it /\ f it = x.
Proof. rewrite lookup_fmap. destruct (its !! i) as [it|]; cbn; [intros [= <-]; eauto | done]. Qed.

Lemma dseg_elem nx pv p l n j : dseg nx pv p l n -> j ∈ l -> is_Some (nx !! j).
Proof.
  revert p. induction l as [|i l IH]; intros p; [by rewrite elem_of_nil|]. cbn. intros (_ & Hn & Hs).
  rewrite elem_of_cons. intros [->|Hj]; [by rewrite Hn; eauto | by eapply IH].
Qed.

Lemma dseg_item f pv p l n (its : gmap Z item) j :
  dseg (f <$> its) pv p l n -> j ∈ l -> exists it, its !! j = Some it.
Proof.
  intros Hd Hj. destruct (dseg_elem _ _ _ _ _ _ Hd Hj) as [x Hx]. apply fmap_lookup_Some in Hx as (it & ? & _). eauto.
Qed.

Lemma hd_elem (l : list Z) : l <> [] -> hd 0 l ∈ l.
Proof. destruct l; [done|]. by left. Qed.

Ltac cache_eq := repeat match goal with c : cache |- _ => destruct c end; reflexivity.

(** * The list by last use *)

Lemma lru_remove_item_spec sl l1 i l2 c :
  lru_ok sl (i_lru_next <$> c.(items)) (i_lru_prev <$> c.(items)) c.(lru_head) c.(lru_tail) (l1 ++ i :: l2) ->
  exists its' h t, lru_remove_item i c = Ret (c<|items := its'|><|lru_head := h|><|lru_tail := t|>) /\
    lru_ok (delete i sl) (i_lru_next <$> its') (i_lru_prev <$> its') h t (l1 ++ l2) /\
    nolru <$> its' = nolru <$> c.(items).
Proof.
  intros Hl. pose proof (lru_remove _ _ _ _ _ _ _ _ Hl) as Hl'.
  pose proof (lr_nodup _ _ _ _ _ _ Hl) as Hnd. pose proof (lr_links _ _ _ _ _ _ Hl) as Hd.
  pose proof (lr_pos _ _ _ _ _ _ Hl) as Hpos.
  destruct (dseg_middle _ _ _ _ _ _ _ Hd) as [Hp Hn].
  apply fmap_lookup_Some in Hp as (it & Hit & Hp). rewrite lookup_fmap, Hit in Hn. injection Hn as Hn.
  apply NoDup_app in Hnd as (N1 & Hdis & N2). apply NoDup_cons in N2 as [Hi2 _].
  assert (exists its1 t, (if negb (i_lru_next it =? 0)
             then with_item (i_lru_next it) (fun next => next<|i_lru_prev := i_lru_prev it|>) c
             else Ret (c<|lru_tail := i_lru_prev it|>)) = Ret (c<|items := its1|><|lru_tail := t|>) /\
           i_lru_next <$> its1 = i_lru_next <$> c.(items) /\
           i_lru_prev <$> its1 = (if bool_decide (l2 = []) then i_lru_prev <$> c.(items)
                                  else <[hd 0 l2:=last_or 0 l1]> (i_lru_prev <$> c.(items))) /\
           nolru <$> its1 = nolru <$> c.(items) /\ its1 !! i = Some it /\
           t = if bool_decide (l2 = []) then last_or 0 l1 else c.(lru_tail))
    as (its1 & t & E1 & F1 & F2 & F3 & F4 & ->).
  { rewrite Hn, Hp. destruct (bool_decide_reflect (l2 = [])) as [E|E].
    - subst l2. exists c.(items), (last_or 0 l1). split_and!; [by destruct c | done ..].
    - assert (hd 0 l2 <> 0) as Hne by (pose proof (Hpos (hd 0 l2) ltac:(apply elem_of_app; right; right; by apply hd_elem)); lia).
      rewrite (proj2 (Z.eqb_neq _ _) Hne). cbn [negb].
      destruct (dseg_item _ _ _ _ _ _ (hd 0 l2) Hd) as [jt Hj]; [apply elem_of_app; right; right; by apply hd_elem|].
      rewrite (with_item_ok _ _ jt) by done.
      exists (<[hd 0 l2:=jt<|i_lru_prev := last_or 0 l1|>]> c.(items)), c.(lru_tail). split_and!; [by destruct c | | | | | done].
      + by apply (fmap_insert_same _ _ _ jt).
      + by rewrite fmap_insert.
      + by apply (fmap_insert_same _ _ _ jt).
      + rewrite lookup_insert_ne; [done|]. intros Hx. apply Hi2. rewrite <- Hx. by apply hd_elem. }
  unfold lru_remove_item. rewrite (cache_item_ok _ _ _ Hit). cbn [obind]. rewrite E1. cbn [obind].
  rewrite (cache_item_ok i it) by done. cbn [obind]. rewrite Hp, Hn.
  destruct (decide (l1 = [])) as [->|Hne1].
  - rewrite (bool_decide_eq_true_2 ([] = [])) in Hl' by done. exists its1, (hd 0 l2), (if bool_decide (l2 = []) then 0 else lru_tail c).
    split_and!; [by destruct c | | done]. rewrite F1, F2. done.
  - rewrite (bool_decide_eq_false_2 (l1 = [])) in Hl' by done.
    assert (last_or 0 l1 <> 0) as Hz by (pose proof (Hpos (last_or 0 l1) ltac:(apply elem_of_app; left; by apply last_or_elem)); lia).
    rewrite (proj2 (Z.eqb_neq _ _) Hz). cbn [negb].
    rewrite <- F1 in Hd.
    destruct (dseg_item _ _ _ _ _ _ (last_or 0 l1) Hd) as [jt Hj]; [apply elem_of_app; left; by apply last_or_elem|].
    rewrite (with_item_ok _ _ jt) by done.
    exists (<[last_or 0 l1:=jt<|i_lru_next := hd 0 l2|>]> its1), c.(lru_head), (if bool_decide (l2 = []) then last_or 0 l1 else lru_tail c).
    split_and!; [by destruct c | | by rewrite (fmap_insert_same _ _ _ jt)].
    rewrite fmap_insert, (fmap_insert_same i_lru_prev _ _ jt), F1, F2 by done. exact Hl'.
Qed.

Lemma lru_add_item_spec sl l i h0 it c :
  lru_ok sl (i_lru_next <$> c.(items)) (i_lru_prev <$> c.(items)) c.(lru_head) c.(lru_tail) l ->
  sl !! i = None -> 0 < i -> c.(items) !! i = Some it ->
  exists its' h t, lru_add_item i c = Ret (c<|items := its'|><|lru_head := h|><|lru_tail := t|>) /\
    lru_ok (<[i:=h0]> sl) (i_lru_next <$> its') (i_lru_prev <$> its') h t (l ++ [i]) /\
    nolru <$> its' = nolru <$> c.(items).
Proof.
  intros Hl Hi Hi0 Hit. pose proof (lru_append _ _ _ _ _ _ _ h0 Hl Hi Hi0) as Hl'.
  pose proof (lr_tail _ _ _ _ _ _ Hl) as Ht. pose proof (lr_links _ _ _ _ _ _ Hl) as Hd.
  assert (i ∉ l) as Hni by (rewrite (lr_member _ _ _ _ _ _ Hl), Hi; by intros []).
  assert (exists its1 h, (if negb (lru_tail c =? 0)
             then with_item (lru_tail c) (fun prev => prev<|i_lru_next := i|>) c
             else Ret (c<|lru_head := i|>)) = Ret (c<|items := its1|><|lru_head := h|>) /\
           i_lru_next <$> its1 = (if bool_decide (l = []) then i_lru_next <$> c.(items)
                                  else <[last_or 0 l:=i]> (i_lru_next <$> c.(items))) /\
           i_lru_prev <$> its1 = i_lru_prev <$> c.(items) /\
           nolru <$> its1 = nolru <$> c.(items) /\ its1 !! i = Some it /\
           h = if bool_decide (l = []) then i else c.(lru_head))
    as (its1 & h & E1 & F1 & F2 & F3 & F4 & ->).
  { rewrite Ht. destruct (bool_decide_reflect (l = [])) as [E|E].
    - subst l. exists c.(items), i. split_and!; [by destruct c | done ..].
    - assert (last_or 0 l <> 0) as Hne by (pose proof (lr_pos _ _ _ _ _ _ Hl (last_or 0 l) (last_or_elem _ _ E)); lia).
      rewrite (proj2 (Z.eqb_neq _ _) Hne). cbn [negb].
      destruct (dseg_item _ _ _ _ _ _ (last_or 0 l) Hd) as [jt Hj]; [by apply last_or_elem|].
      rewrite (with_item_ok _ _ jt) by done.
      exists (<[last_or 0 l:=jt<|i_lru_next := i|>]> c.(items)), c.(lru_head). split_and!; [by destruct c | | | | | done].
      + by rewrite fmap_insert.
      + by apply (fmap_insert_same _ _ _ jt).
      + by apply (fmap_insert_same _ _ _ jt).
      + rewrite lookup_insert_ne; [done|]. intros Hx. apply Hni. rewrite <- Hx. by apply last_or_elem. }
  unfold lru_add_item. rewrite E1. cbn [obind]. rewrite (with_item_ok i _ it) by done. cbn [obind].
  exists (<[i:=it<|i_lru_next := 0|><|i_lru_prev := lru_tail c|>]> its1), (if bool_decide (l = []) then i else c.(lru_head)), i.
  split_and!; [by destruct c | | by rewrite (fmap_insert_same _ _ _ it)].
  rewrite !fmap_insert, F1, F2. cbn. rewrite Ht. exact Hl'.
Qed.

(** * Chains *)

Lemma set_slot_ok h v x c : c.(hashtable) !! h = Some x -> set_slot h v c = Ret (c<|hashtable := <[h:=v]> c.(hashtable)|>).
Proof. intros H. unfold set_slot, aset. by rewrite H. Qed.

Lemma unlink_item_spec g sl ch i h it c :
  chains_ok g.(uc_hashsize) sl (i_next <$> c.(items)) (i_prev <$> c.(items)) c.(hashtable) ch ->
  sl !! i = Some h -> c.(items) !! i = Some it -> it.(i_hash) mod g.(uc_hashsize) = h ->
  exists its' t' ch', unlink_item g it c = Ret (c<|items := its'|><|hashtable := t'|>) /\
    chains_ok g.(uc_hashsize) (delete i sl) (i_next <$> its') (i_prev <$> its') t' ch' /\
    nochain <$> its' = nochain <$> c.(items).
Proof.
  intros Hc Hi Hit Hh. destruct (chains_split _ _ _ _ _ _ _ _ Hc Hi) as (l1 & l2 & E & Hnd & Hd & Hz1 & Hz2).
  pose proof (chains_remove _ _ _ _ _ _ _ _ _ _ Hc Hi E) as Hc'.
  pose proof (ch_head _ _ _ _ _ _ Hc h (proj2 (ch_slots _ _ _ _ _ _ Hc _ _ Hi))) as Ht.
  destruct (dseg_middle _ _ _ _ _ _ _ Hd) as [Hp Hn].
  rewrite lookup_fmap, Hit in Hp, Hn. injection Hp as Hp. injection Hn as Hn.
  apply NoDup_app in Hnd as (N1 & Hdis & N2). unfold unlink_item. rewrite Hh, Hp, Hn.
  assert (exists its1 t1, (if negb (last_or 0 l1 =? 0)
             then with_item (last_or 0 l1) (fun ucii => ucii<|i_next := hd 0 l2|>) c
             else set_slot h (hd 0 l2) c) = Ret (c<|items := its1|><|hashtable := t1|>) /\
           i_next <$> its1 = (if bool_decide (l1 = []) then i_next <$> c.(items) else <[last_or 0 l1:=hd 0 l2]> (i_next <$> c.(items))) /\
           i_prev <$> its1 = i_prev <$> c.(items) /\ nochain <$> its1 = nochain <$> c.(items) /\
           t1 = if bool_decide (l1 = []) then <[h:=hd 0 l2]> c.(hashtable) else c.(hashtable))
    as (its1 & t1 & -> & F1 & F2 & F3 & ->).
  { destruct (bool_decide_reflect (l1 = [])) as [E1|E1].
    - subst l1. rewrite (set_slot_ok _ _ _ _ Ht). eexists c.(items), _. split_and!; [by destruct c | done ..].
    - rewrite (proj2 (Z.eqb_neq _ _)) by (by rewrite <- Hz1). cbn [negb].
      destruct (dseg_item _ _ _ _ _ _ (last_or 0 l1) Hd) as [jt Hj]; [apply elem_of_app; left; by apply last_or_elem|].
      rewrite (with_item_ok _ _ jt) by done. exists (<[last_or 0 l1:=jt<|i_next := hd 0 l2|>]> c.(items)), c.(hashtable). split_and!; [by destruct c | by rewrite fmap_insert | | | done];
        by apply (fmap_insert_same _ _ _ jt). }
  cbn [obind].
  assert (exists its2, (if negb (hd 0 l2 =? 0)
             then with_item (hd 0 l2) (fun ucii => ucii<|i_prev := last_or 0 l1|>) (c<|items := its1|><|hashtable := if bool_decide (l1 = []) then <[h:=hd 0 l2]> c.(hashtable) else c.(hashtable)|>)
             else Ret (c<|items := its1|><|hashtable := if bool_decide (l1 = []) then <[h:=hd 0 l2]> c.(hashtable) else c.(hashtable)|>))
            = Ret (c<|items := its2|><|hashtable := if bool_decide (l1 = []) then <[h:=hd 0 l2]> c.(hashtable) else c.(hashtable)|>) /\
           i_prev <$> its2 = (if bool_decide (l2 = []) then i_prev <$> c.(items) else <[hd 0 l2:=last_or 0 l1]> (i_prev <$> c.(items))) /\
           i_next <$> its2 = i_next <$> its1 /\ nochain <$> its2 = nochain <$> c.(items))
    as (its2 & -> & G1 & G2 & G3).
  { destruct (bool_decide_reflect (l2 = [])) as [E2|E2].
    - subst l2. exists its1. done.
    - rewrite (proj2 (Z.eqb_neq _ _)) by (by rewrite <- Hz2). cbn [negb].
      destruct (dseg_item _ _ _ _ _ _ (hd 0 l2) Hd) as [jt Hj]; [apply elem_of_app; right; right; by apply hd_elem|].
      assert (is_Some ((i_prev <$> its1) !! hd 0 l2)) as [x Hx] by (rewrite F2, lookup_fmap, Hj; eauto).
      apply fmap_lookup_Some in Hx as (jt' & Hj' & _).
      rewrite (with_item_ok _ _ jt') by done. exists (<[hd 0 l2:=jt'<|i_prev := last_or 0 l1|>]> its1). split_and!; [by destruct c | by rewrite fmap_insert, F2 | |].
      + by apply (fmap_insert_same _ _ _ jt').
      + rewrite <- F3. by apply (fmap_insert_same _ _ _ jt'). }
  cbn [obind]. rewrite F1 in G2. rewrite <- G1, <- G2 in Hc'.
  destruct ((last_or 0 l1 =? 0) && (hd 0 l2 =? 0)) eqn:Eb; [|by eauto 10].
  apply andb_true_iff in Eb as [Eb1%Z.eqb_eq Eb2%Z.eqb_eq]. apply Hz1 in Eb1 as ->. apply Hz2 in Eb2 as ->.
  rewrite (set_slot_ok _ _ 0) by (cbn; by rewrite lookup_insert_eq).
  exists its2, (<[h:=0]> (<[h:=0]> (hashtable c))), (ch_update ch h ([] ++ [])). split_and!; [by destruct c | | done].
  cbn in Hc'. by rewrite insert_insert_eq.
Qed.

(** The chain that a slot starts has no more items than the table. *)
Lemma chain_length hs sl nx pv table ch max h :
  chains_ok hs sl nx pv table ch -> (forall i h, sl !! i = Some h -> 1 <= i < max) -> (length (ch h) < Z.to_nat max \/ ch h = [])%nat.
Proof.
  intros Hc Hs. destruct (decide (ch h = [])); [by right|]. left.
  assert (ch h ⊆ seqZ 1 (max - 1)) as Hsub.
  { intros i Hi. apply (ch_member _ _ _ _ _ _ Hc) in Hi. apply Hs in Hi. apply elem_of_seqZ. lia. }
  pose proof (submseteq_length _ _ (NoDup_submseteq _ _ (ch_nodup _ _ _ _ _ _ Hc h) Hsub)) as Hl.
  rewrite length_seqZ in Hl. destruct (ch h); [done|]. cbn in *. lia.
Qed.

Lemma last_of_chain_spec fuel c p i l :
  (length l < fuel)%nat -> (forall j, j ∈ l -> 0 < j) ->
  dseg (i_next <$> c.(items)) (i_prev <$> c.(items)) p (i :: l) 0 -> last_of_chain fuel i c = Ret (last_or i l).
Proof.
  revert p i l. induction fuel as [|fuel IH]; intros p i l Hf Hpos Hd; [lia|].
  destruct Hd as (_ & Hn & Hd). apply fmap_lookup_Some in Hn as (it & Hit & Hn).
  cbn [last_of_chain]. rewrite (cache_item_ok _ _ _ Hit). cbn [obind]. rewrite Hn.
  destruct l as [|j l]; [done|]. cbn [hd]. pose proof (Hpos j ltac:(by left)).
  rewrite (proj2 (Z.eqb_neq j 0)) by lia. rewrite (IH i j l); [by rewrite last_or_cons | cbn in Hf; lia | | done].
  intros x Hx. apply Hpos. by right.
Qed.

Lemma link_item_spec g sl ch i h it c :
  chains_ok g.(uc_hashsize) sl (i_next <$> c.(items)) (i_prev <$> c.(items)) c.(hashtable) ch ->
  (forall i h, sl !! i = Some h -> 1 <= i < uc_max_items g) ->
  sl !! i = None -> 0 < i -> c.(items) !! i = Some it -> it.(i_hash) mod g.(uc_hashsize) = h -> 0 <= h < g.(uc_hashsize) ->
  exists its' t' ch', link_item g i c = Ret (c<|items := its'|><|hashtable := t'|>) /\
    chains_ok g.(uc_hashsize) (<[i:=h]> sl) (i_next <$> its') (i_prev <$> its') t' ch' /\
    nochain <$> its' = nochain <$> c.(items).
Proof.
  intros Hc Hs Hi Hi0 Hit Hh Hr. pose proof (chains_append _ _ _ _ _ _ _ _ Hc Hi Hi0 Hr) as Hc'.
  pose proof (ch_head _ _ _ _ _ _ Hc h Hr) as Ht. pose proof (ch_links _ _ _ _ _ _ Hc h Hr) as Hd.
  assert (forall j, j ∈ ch h -> 0 < j) as Hpos
    by (intros j Hj; apply (ch_member _ _ _ _ _ _ Hc) in Hj; apply (ch_slots _ _ _ _ _ _ Hc) in Hj; lia).
  assert (i ∉ ch h) as Hni by (rewrite (ch_member _ _ _ _ _ _ Hc); congruence).
  unfold link_item. rewrite (cache_item_ok _ _ _ Hit). cbn [obind].
  rewrite (with_item_ok _ _ _ _ Hit). cbn [obind]. rewrite Hh.
  unfold aget. cbn -[last_or last_of_chain]. rewrite Ht.
  set (it0 := it<|i_prev := 0|><|i_next := 0|>). set (its0 := <[i:=it0]> c.(items)).
  assert (its0 !! i = Some it0) as Hit0 by apply lookup_insert_eq.
  assert (nochain <$> its0 = nochain <$> c.(items)) as Hn0 by by apply (fmap_insert_same _ _ _ it).
  assert (i_next <$> its0 = <[i:=0]> (i_next <$> c.(items))) as Hx0 by (unfold its0; by rewrite fmap_insert).
  assert (i_prev <$> its0 = <[i:=0]> (i_prev <$> c.(items))) as Hp0 by (unfold its0; by rewrite fmap_insert).
  destruct (ch h) as [|j l] eqn:El; cbn -[last_or last_of_chain].
  - rewrite (set_slot_ok _ _ 0) by done. exists its0, (<[h:=i]> (hashtable c)), (ch_update ch h ([] ++ [i])).
    split_and!; [by destruct c | | done]. rewrite Hx0, Hp0. exact Hc'.
  - pose proof (Hpos j ltac:(by left)). rewrite (proj2 (Z.eqb_neq j 0)) by lia.
    rewrite bool_decide_eq_false_2 in Hc' by done. rewrite last_or_cons in Hc'.
    assert (dseg (i_next <$> its0) (i_prev <$> its0) 0 (j :: l) 0) as Hd0.
    { eapply dseg_frame; [|done]. intros x Hx. rewrite Hx0, Hp0, !lookup_insert_ne; [done | by intros -> ..]. }
    destruct (chain_length _ _ _ _ _ _ _ h Hc Hs) as [Hlen|Hlen]; rewrite El in Hlen; [|done].
    rewrite (last_of_chain_spec _ _ 0 j l); [| cbn in Hlen; lia | intros x Hx; apply Hpos; by right | exact Hd0].
    cbn [obind].
    assert (last_or j l ∈ j :: l) as Hlast by (rewrite <- (last_or_cons 0); by apply last_or_elem).
    destruct (dseg_item _ _ _ _ _ _ (last_or j l) Hd0 Hlast) as [jt Hj].
    rewrite (with_item_ok _ _ jt) by done. cbn [obind].
    assert (last_or j l <> i) as Hne by (intros Hx; apply Hni; by rewrite <- Hx).
    rewrite (with_item_ok _ _ it0) by (cbn; by rewrite lookup_insert_ne).
    exists (<[i:=it0<|i_prev := last_or j l|>]> (<[last_or j l:=jt<|i_next := i|>]> its0)), c.(hashtable), (ch_update ch h ((j :: l) ++ [i])).
    split_and!; [by destruct c | | ].
    + rewrite fmap_insert, fmap_insert, Hx0, (insert_insert_ne _ (last_or j l) i), insert_insert_eq by done.
      rewrite fmap_insert, (fmap_insert_same i_prev _ _ jt), Hp0, insert_insert_eq by done. exact Hc'.
    + rewrite !fmap_insert. cbn. rewrite Hn0.
      rewrite <- (insert_id (nochain <$> items c) (last_or j l) (nochain jt)) at 2.
      * rewrite insert_insert_ne by done. f_equal. apply insert_id. rewrite lookup_fmap, Hit. done.
      * rewrite <- Hn0, lookup_fmap, Hj. done.
Qed.

End CacheSteps.
