(* ===== verification/CacheOps.v ===== *)
(** Lookup and deletion in the cache: the invariant is kept and the abstract
    contents change as they should. *)
From S2P Require Import Prelude Clib Buffer Packet Protocol Hash Bitmap Cache CacheLinks CacheInv CacheSteps.

Module CacheOps.
Import Bitmap Cache CacheLinks CacheInv CacheSteps.

(** * Contents of an item *)

Lemma view_lookup g its d i k e :
  view g its d !! i = Some (k, e) <-> exists it, in_use its i it /\ k = item_key it /\ e = item_entry g d it.
Proof.
  unfold view, in_use, item_view. rewrite lookup_omap. destruct (its !! i) as [it|]; cbn; [|naive_solver].
  destruct (Z.ltb_spec 0 (i_keysize it)); split; naive_solver lia.
Qed.

Lemma view_None g its d i it : its !! i = Some it -> 0 <= it.(i_keysize) -> view g its d !! i = None -> it.(i_keysize) = 0.
Proof.
  intros Hi Hk. unfold view. rewrite lookup_omap, Hi. cbn. unfold item_view.
  destruct (Z.ltb_spec 0 (i_keysize it)); [done | lia].
Qed.

Lemma view_insert g its d i it :
  view g (<[i:=it]> its) d =
  match item_view g d it with Some x => <[i:=x]> (view g its d) | None => delete i (view g its d) end.
Proof.
  unfold view. destruct (item_view g d it) as [x|] eqn:E.
  - by rewrite (omap_insert_Some _ _ _ _ x).
  - by rewrite omap_insert_None.
Qed.

Lemma slots_lookup g V i h :
  slots g V !! i = Some h -> exists k e, V !! i = Some (k, e) /\ h = uc_hash g k mod uc_hashsize g.
Proof. unfold slots. rewrite lookup_fmap. destruct (V !! i) as [[k e]|]; cbn; [intros [= <-]; eauto | done]. Qed.

Lemma slots_Some g V i k e : V !! i = Some (k, e) -> slots g V !! i = Some (uc_hash g k mod uc_hashsize g).
Proof. intros H. unfold slots. by rewrite lookup_fmap, H. Qed.

Lemma slots_delete g V i : slots g (delete i V) = delete i (slots g V).
Proof. apply fmap_delete. Qed.
Lemma slots_insert g V i k e : slots g (<[i:=(k, e)]> V) = <[i:=uc_hash g k mod uc_hashsize g]> (slots g V).
Proof. unfold slots. by rewrite fmap_insert. Qed.

Lemma in_use_insert_unused its i it j jt :
  it.(i_keysize) = 0 -> in_use (<[i:=it]> its) j jt <-> j <> i /\ in_use its j jt.
Proof.
  intros Hk. unfold in_use. rewrite lookup_insert_Some. split.
  - intros [[[<- <-]|[? ?]] ?]; [lia | auto].
  - intros (? & ? & ?). auto.
Qed.

(** * Search *)

Lemma item_matches_spec g i it key :
  item_ok g i it -> 0 < it.(i_keysize) -> item_matches it (uc_hash g key) key = Ret (bool_decide (item_key it = key)).
Proof.
  intros [Ha Hk Hu] Hp. destruct (Hu Hp) as (Hh & _). unfold item_matches.
  assert (zlen (item_key it) = i_keysize it) as Hz by (apply zlen_take; lia).
  destruct (Z.eqb_spec (i_hash it) (uc_hash g key)) as [E1|E1]; cbn [negb].
  - destruct (Z.eqb_spec (i_keysize it) (zlen key)) as [E2|E2]; cbn [negb].
    + rewrite mslice_ok by lia. cbn [obind]. rewrite zdrop_0, <- E2. done.
    + rewrite bool_decide_eq_false_2; [done|]. intros <-. by rewrite Hz in E2.
  - rewrite bool_decide_eq_false_2; [done|]. intros <-. by rewrite Hh in E1.
Qed.

Lemma chain_cycle_spec fuel g now key c rounds p i uci l :
  (forall j it, c.(items) !! j = Some it -> item_ok g j it) ->
  (forall j, j ∈ l -> 0 < j /\ exists it, in_use c.(items) j it) ->
  (length l < fuel)%nat -> rounds + Z.of_nat (length l) <= uc_max_items g ->
  dseg (i_next <$> c.(items)) (i_prev <$> c.(items)) p (i :: l) 0 -> c.(items) !! i = Some uci ->
  (exists j it, j ∈ l /\ c.(items) !! j = Some it /\ item_key it = key /\
     chain_cycle fuel g now (uc_hash g key) key rounds uci c = check_lazy g now it j c) \/
  ((forall j it, j ∈ l -> c.(items) !! j = Some it -> item_key it <> key) /\
     chain_cycle fuel g now (uc_hash g key) key rounds uci c = Ret (0, c)).
Proof.
  intros Hok. revert rounds p i uci l. induction fuel as [|fuel IH]; intros rounds p i uci l Hl Hf Hr Hd Hu; [lia|].
  destruct Hd as (_ & Hn & Hd). rewrite lookup_fmap, Hu in Hn. injection Hn as Hn. cbn [chain_cycle]. rewrite Hn.
  destruct l as [|j l]; cbn [hd].
  { right. split; [|done]. intros j it Hj. by apply elem_of_nil in Hj. }
  destruct (Hl j ltac:(by left)) as (Hj0 & jt & Hj & Hju). cbn [length] in *.
  rewrite (proj2 (Z.eqb_neq j 0)) by lia. rewrite (cache_item_ok _ _ _ Hj). cbn [obind].
  rewrite (proj2 (Z.ltb_ge _ _)) by lia. cbn [andb].
  rewrite (item_matches_spec g j) by auto. cbn [obind]. case_bool_decide as E.
  - left. exists j, jt. split_and!; [by left | done | done | done].
  - destruct (IH (rounds + 1) i j jt l) as [(x & xt & Hx & Hxt & Hk & ->)|[Hno ->]];
      [intros x Hx; apply Hl; by right | lia | lia | done | done | |].
    + left. exists x, xt. split_and!; [by right | done ..].
    + right. split; [|done]. intros x xt Hx Hxt. apply elem_of_cons in Hx as [->|Hx]; [congruence | by eapply Hno].
Qed.

Section with_conf.
Context (g : cache_conf) (Hg : conf_ok g).

Lemma slot_range k : 0 <= uc_hash g k mod uc_hashsize g < uc_hashsize g.
Proof. apply Z.mod_pos_bound. pose proof (co_hashsize _ Hg). lia. Qed.

(** The search finds the item of the key, if there is one. *)
Lemma get_index_find now key ch lru fs c :
  cache_inv g ch lru fs c ->
  (exists i it e, cview g c !! i = Some (key, e) /\ in_use c.(items) i it /\
     upsgi_cache_get_index g now key c = check_lazy g now it i c) \/
  ((forall i e, cview g c !! i <> Some (key, e)) /\ upsgi_cache_get_index g now key c = Ret (0, c)).
Proof.
  intros [Hst Hch Hsk _ _]. pose proof (slot_range key) as Hr. set (h := uc_hash g key mod uc_hashsize g) in *.
  pose proof (so_items _ _ _ _ _ Hst) as Hok.
  assert (forall j, j ∈ ch h -> 0 < j /\ exists it, in_use (items c) j it) as Hin.
  { intros j Hj. apply (ch_member _ _ _ _ _ _ Hch) in Hj. pose proof (ch_slots _ _ _ _ _ _ Hch _ _ Hj) as [? _].
    apply slots_lookup in Hj as (k & e & Hj & _). apply view_lookup in Hj as (it & Hit & _). eauto. }
  assert (forall j e, cview g c !! j = Some (key, e) -> j ∈ ch h) as Hmem.
  { intros j e Hj. apply (ch_member _ _ _ _ _ _ Hch). by apply (slots_Some _ _ _ _ e). }
  pose proof (ch_head _ _ _ _ _ _ Hch h Hr) as Ht. pose proof (ch_links _ _ _ _ _ _ Hch h Hr) as Hd.
  destruct (chain_length _ _ _ _ _ _ _ h Hch (sk_slots _ _ _ _ _ Hsk)) as [Hlen|Hlen]; cycle 1.
  { right. split; [intros j e Hj%Hmem; rewrite Hlen in Hj; by apply elem_of_nil in Hj|].
    unfold upsgi_cache_get_index, aget. fold h. by rewrite Ht, Hlen. }
  unfold upsgi_cache_get_index, aget. fold h. rewrite Ht. cbn [obind].
  destruct (ch h) as [|i l] eqn:E; cbn [hd].
  { right. split; [intros j e Hj%Hmem; by apply elem_of_nil in Hj | done]. }
  destruct (Hin i ltac:(by left)) as (Hi0 & it & Hit). rewrite (proj2 (Z.eqb_neq i 0)) by lia.
  rewrite (cache_item_ok _ _ _ (proj1 Hit)). cbn [obind].
  assert (i_hash it mod uc_hashsize g = h) as ->.
  { assert (i ∈ ch h) as Hx by (rewrite E; by left). apply (ch_member _ _ _ _ _ _ Hch), slots_lookup in Hx as (k & e & Hv & ->).
    apply view_lookup in Hv as (it' & [Hit' Hu] & -> & _). destruct Hit as [Hit _]. rewrite Hit in Hit'. injection Hit' as <-.
    by destruct (io_used _ _ _ (Hok _ _ Hit) Hu) as [-> _]. }
  rewrite Z.eqb_refl. cbn [negb].
  rewrite (item_matches_spec g i) by (destruct Hit; auto). cbn [obind]. case_bool_decide as Ek.
  { left. exists i, it, (item_entry g (cdata c) it). split_and!; [|done|done].
    apply view_lookup. eauto. }
  destruct (chain_cycle_spec (S (S (Z.to_nat (uc_max_items g)))) g now key c 0 0 i it l) as [(j & jt & Hj & Hjt & Hk & ->)|[Hno ->]];
    [done | intros j Hj; apply Hin; by right | cbn in Hlen; lia | cbn in Hlen; lia | done | by destruct Hit | |].
  - left. destruct (Hin j ltac:(by right)) as (_ & jt' & Hjt'). destruct Hjt' as [Hjt1 Hjt2]. rewrite Hjt in Hjt1. injection Hjt1 as <-.
    exists j, jt, (item_entry g (cdata c) jt). split_and!; [|done|done]. apply view_lookup. exists jt. done.
  - right. split; [|done]. intros j e Hj. pose proof (Hmem j e Hj) as Hx.
    apply view_lookup in Hj as (jt & [Hjt _] & Hk & _). apply elem_of_cons in Hx as [->|Hx].
    + destruct Hit as [Hit _]. rewrite Hit in Hjt. injection Hjt as <-. congruence.
    + by eapply Hno.
Qed.

(** * Deletion *)

(** Items that are not in use may hold anything but a key. *)
Lemma store_unused its bm pos d i it it' :
  store_ok g its bm pos d -> its !! i = Some it -> it.(i_keysize) = 0 -> it'.(i_keysize) = 0 ->
  zlen it'.(i_key) = zlen it.(i_key) ->
  store_ok g (<[i:=it']> its) bm pos d /\ view g (<[i:=it']> its) d = view g its d.
Proof.
  intros [Hd Hi Hk Hr Hb Hz] Hit H0 H0' Ha.
  assert (view g (<[i:=it']> its) d = view g its d) as Hv.
  { rewrite view_insert. unfold item_view at 1. rewrite H0'. cbn. apply delete_id. unfold view. rewrite lookup_omap, Hit. cbn.
    unfold item_view. by rewrite H0. }
  assert (forall j jt, in_use (<[i:=it']> its) j jt <-> in_use its j jt) as Hiu.
  { intros j jt. rewrite in_use_insert_unused by done. split; [tauto|]. intros Hu. split; [|done]. intros ->.
    destruct Hu as [Hu ?]. rewrite Hit in Hu. injection Hu as <-. lia. }
  split; [|done]. split.
  - intros j. rewrite <- Hd, lookup_insert_is_Some. destruct (decide (i = j)) as [<-|]; [rewrite Hit; naive_solver | naive_solver].
  - intros j jt. rewrite lookup_insert_Some. intros [[<- <-]|[_ ?]]; [|by apply Hi].
    destruct (Hi _ _ Hit) as [? ? ?]. split; [lia | lia | intros; lia].
  - by rewrite Hv.
  - intros a b at_ bt k. rewrite !Hiu. apply Hr.
  - intros Hu. destruct (Hb Hu) as [B1 B2 B3 B4]. split; [done | done | done |]. intros k Hk'. rewrite (B4 k Hk').
    setoid_rewrite Hiu. done.
  - done.
Qed.

(** An item is taken out of use and its blocks are freed. *)
Lemma store_release its bm pos d i it it' bm' :
  store_ok g its bm pos d -> in_use its i it -> it'.(i_keysize) = 0 -> zlen it'.(i_key) = zlen it.(i_key) ->
  (g.(uc_use_bitmap) = true -> bytes_ok bm' /\ zlen bm' = zlen bm /\
     forall k, 0 <= k -> used bm' k = used bm k && negb (in_run it.(i_first_block) (item_blocks g it) k)) ->
  store_ok g (<[i:=it']> its) bm' pos d /\ view g (<[i:=it']> its) d = delete i (view g its d).
Proof.
  intros [Hd Hi Hk Hr Hb Hz] [Hit Hu] H0' Ha Hbm.
  assert (view g (<[i:=it']> its) d = delete i (view g its d)) as Hv.
  { rewrite view_insert. unfold item_view at 1. by rewrite H0'. }
  split; [|done]. split.
  - intros j. rewrite <- Hd, lookup_insert_is_Some. destruct (decide (i = j)) as [<-|]; [rewrite Hit; naive_solver | naive_solver].
  - intros j jt. rewrite lookup_insert_Some. intros [[<- <-]|[_ ?]]; [|by apply Hi].
    destruct (Hi _ _ Hit) as [? ? ?]. split; [lia | lia | intros; lia].
  - rewrite Hv. by apply keys_inj_delete.
  - intros a b at_ bt k. rewrite !in_use_insert_unused by done. intros [_ Ha'] [_ Hb']. by apply Hr.
  - intros Hum. destruct (Hb Hum) as [B1 B2 B3 B4]. destruct (Hbm Hum) as (C1 & C2 & C3).
    split; [done | lia | done |]. intros k Hk'. rewrite C3, andb_true_iff, negb_true_iff, (B4 k) by lia. 
    destruct (io_used _ _ _ (Hi _ _ Hit) Hu) as (_ & _ & Hf0 & Hfit & _). split.
    + intros [[Hge|(j & jt & Hj & Hrun)] Hnot]; [by left|]. right. exists j, jt. rewrite in_use_insert_unused by done.
      split_and!; [|done|done]. intros ->. destruct Hj as [Hj _]. rewrite Hit in Hj. injection Hj as <-. congruence.
    + intros [Hge|(j & jt & Hj & Hrun)].
      * split; [by left|]. unfold in_run. destruct (Z.ltb_spec k (i_first_block it + item_blocks g it)); [lia|].
        by rewrite andb_false_r.
      * apply in_use_insert_unused in Hj as [Hne Hj]; [|done]. split; [right; eauto|].
        destruct (in_run (i_first_block it) (item_blocks g it) k) eqn:Er; [|done]. exfalso. apply Hne.
        symmetry. by eapply (Hr i j it jt k).
  - done.
Qed.

Lemma push_unused_spec sl fs c i h :
  stack_ok (uc_max_items g) sl c.(unused_stack) c.(stack_ptr) fs -> sl !! i = Some h ->
  exists st, push_unused i c = Ret (c<|stack_ptr := stack_ptr c + 1|><|unused_stack := st|>) /\
    stack_ok (uc_max_items g) (delete i sl) st (stack_ptr c + 1) (fs ++ [i]).
Proof.
  intros Hs Hi. destruct (stack_push _ _ _ _ _ _ _ Hs Hi) as [[x Hx] Hs'].
  unfold push_unused, aset. rewrite Hx. cbn [obind]. eauto.
Qed.

Definition lru_del (i : Z) (lru : list Z) : list Z := filter (fun j => j <> i) lru.

Lemma lru_del_id i l : i ∉ l -> lru_del i l = l.
Proof.
  induction l as [|j l IH]; intros Hi; [done|]. apply not_elem_of_cons in Hi as [Hne Hi]. unfold lru_del in *.
  rewrite filter_cons_True by done. by rewrite IH.
Qed.

Lemma lru_del_split l1 i l2 : NoDup (l1 ++ i :: l2) -> lru_del i (l1 ++ i :: l2) = l1 ++ l2.
Proof.
  intros Hnd. apply NoDup_app in Hnd as (_ & Hdis & N2). apply NoDup_cons in N2 as [Hi _].
  unfold lru_del. rewrite filter_app, filter_cons_False by naive_solver.
  fold (lru_del i l1) (lru_del i l2). rewrite !lru_del_id; [done | done |]. intros Hx. by eapply Hdis; [|left].
Qed.

Lemma nolru_next (a b : gmap Z item) : nolru <$> a = nolru <$> b -> i_next <$> a = i_next <$> b /\ i_prev <$> a = i_prev <$> b.
Proof.
  intros H. split; [apply (proj_eq nolru i_next i_next) | apply (proj_eq nolru i_prev i_prev)]; try done; by intros [].
Qed.
Lemma nochain_lru (a b : gmap Z item) :
  nochain <$> a = nochain <$> b -> i_lru_next <$> a = i_lru_next <$> b /\ i_lru_prev <$> a = i_lru_prev <$> b.
Proof.
  intros H. split; [apply (proj_eq nochain i_lru_next i_lru_next) | apply (proj_eq nochain i_lru_prev i_lru_prev)];
    try done; by intros [].
Qed.

(** The links and the stack after [release_item]; the item itself is as it
    was. *)
Lemma release_item_spec ch lru fs c i k e :
  cache_inv g ch lru fs c -> cview g c !! i = Some (k, e) ->
  exists c' ch' it, release_item g i c = Ret c' /\ in_use c.(items) i it /\
    core <$> c'.(items) = core <$> c.(items) /\
    chains_ok (uc_hashsize g) (delete i (slots g (cview g c))) (i_next <$> c'.(items)) (i_prev <$> c'.(items)) c'.(hashtable) ch' /\
    stack_ok (uc_max_items g) (delete i (slots g (cview g c))) c'.(unused_stack) c'.(stack_ptr) (fs ++ [i]) /\
    (g.(uc_purge_lru) = true -> lru_ok (delete i (slots g (cview g c))) (i_lru_next <$> c'.(items)) (i_lru_prev <$> c'.(items))
       c'.(lru_head) c'.(lru_tail) (lru_del i lru)) /\
    (g.(uc_use_bitmap) = true -> bytes_ok c'.(bitmap) /\ zlen c'.(bitmap) = zlen c.(bitmap) /\
       forall x, 0 <= x -> used c'.(bitmap) x = used c.(bitmap) x && negb (in_run it.(i_first_block) (item_blocks g it) x)) /\
    c'.(n_items) = uc_max_items g - 1 - zlen (fs ++ [i]) /\
    c'.(bitmap_pos) = c.(bitmap_pos) /\ c'.(cdata) = c.(cdata) /\ c'.(next_scan) = c.(next_scan).
Proof.
  intros [Hst Hch Hsk Hlru Hcnt] Hv. pose proof Hv as Hv'. apply view_lookup in Hv' as (it & Hu & -> & ->).
  pose proof (slots_Some g _ _ _ _ Hv) as Hsl. destruct Hu as [Hit Hks].
  destruct (io_used _ _ _ (so_items _ _ _ _ _ Hst _ _ Hit) Hks) as (Hh & Hvs & Hfb & Hfit & _).
  unfold release_item. rewrite (cache_item_ok _ _ _ Hit). cbn [obind].
  assert (exists b, (if uc_use_bitmap g
     then let* b := cache_unmark_blocks (bitmap c) (uc_blocksize g) (i_first_block it) (i_valsize it) in Ret (c<|bitmap := b|>)
     else Ret c) = Ret (c<|bitmap := b|>) /\
     (g.(uc_use_bitmap) = true -> bytes_ok b /\ zlen b = zlen c.(bitmap) /\
       forall x, 0 <= x -> used b x = used c.(bitmap) x && negb (in_run it.(i_first_block) (item_blocks g it) x)))
    as (b & -> & Hb).
  { destruct (uc_use_bitmap g) eqn:Eu; [|exists (bitmap c); split; [by destruct c | done]].
    destruct (so_bitmap _ _ _ _ _ Hst Eu) as [B1 B2 _ _]. pose proof (co_blocksize _ Hg). pose proof (co_size _ Hg).
    pose proof (co_items _ Hg). unfold item_blocks in Hfit.
    destruct (unmark_blocks_spec (bitmap c) (uc_blocksize g) (i_first_block it) (i_valsize it)) as (b & -> & X1 & X2 & X3);
      [done | lia | lia | lia | lia | nia |]. exists b. done. }
  set (c0 := c<|bitmap := b|>). cbn [obind].
  destruct (push_unused_spec _ _ c0 _ _ Hsk Hsl) as (st & -> & Hsk').
  set (c1 := c0<|stack_ptr := stack_ptr c0 + 1|><|unused_stack := st|>). cbn [obind].
  rewrite (cache_item_ok _ it c1) by done. cbn [obind].
  destruct (unlink_item_spec g _ ch i _ it c1 Hch Hsl Hit) as (its1 & t1 & ch' & -> & Hch' & Hn1); [by rewrite Hh|].
  set (c2 := c1<|items := its1|><|hashtable := t1|>). cbn [obind]. change (items c1) with (items c) in Hn1.
  pose proof (nochain_lru _ _ Hn1) as [HL1 HL2].
  assert (exists its2 h t, (if uc_purge_lru g then lru_remove_item i c2 else Ret c2) =
      Ret (c2<|items := its2|><|lru_head := h|><|lru_tail := t|>) /\ nolru <$> its2 = nolru <$> its1 /\
      (g.(uc_purge_lru) = true -> lru_ok (delete i (slots g (cview g c))) (i_lru_next <$> its2) (i_lru_prev <$> its2) h t (lru_del i lru)))
    as (its2 & h & t & -> & Hn2 & Hlru').
  { destruct (uc_purge_lru g) eqn:El; [|exists its1, (lru_head c), (lru_tail c); split; [by destruct c | done]].
    specialize (Hlru eq_refl). pose proof (lr_nodup _ _ _ _ _ _ Hlru) as Hnd.
    destruct (lru_split _ _ _ _ _ _ i Hlru) as (l1 & l2 & -> & _ & _); [by rewrite Hsl; eauto|].
    rewrite lru_del_split by done. rewrite <- HL1, <- HL2 in Hlru.
    destruct (lru_remove_item_spec _ l1 i l2 c2 Hlru) as (its2 & h & t & E2 & ? & ?). exists its2, h, t. done. }
  cbn [obind]. pose proof (nolru_next _ _ Hn2) as [HC1 HC2].
  eexists _, ch', it. split_and!; [reflexivity | ..]; unfold c2, c1, c0; cbn -[zlen wrap fmap] in *; try done.
  - rewrite (core_of_nolru _ _ Hn2), (core_of_nochain _ _ Hn1). done.
  - by rewrite HC1, HC2.
  - rewrite Hcnt, zlen_app. change (zlen [i]) with 1. pose proof (stack_room _ _ _ _ _ _ _ Hsk Hsl).
    rewrite (sk_ptr _ _ _ _ _ Hsk) in *. pose proof (co_items _ Hg). pose proof (co_size _ Hg). pose proof (co_blocksize _ Hg).
    zlen_facts. rewrite wrap_small; [lia|]. nia.
Qed.

(** Items in the range of the loop over them. *)
Lemma index_item c lru i : inv g lru c -> 1 <= i < uc_max_items g -> exists it, c.(items) !! i = Some it /\ item_ok g i it.
Proof.
  intros (ch & fs & [Hst _ _ _ _]) Hi. destruct (proj2 (so_dom _ _ _ _ _ Hst i)) as [it Hit]; [lia|].
  exists it. split; [done | by apply (so_items _ _ _ _ _ Hst)].
Qed.

Lemma view_range c lru i k e : inv g lru c -> cview g c !! i = Some (k, e) -> 1 <= i < uc_max_items g.
Proof.
  intros (ch & fs & [_ _ Hsk _ _]) Hv. by apply (sk_slots _ _ _ _ _ Hsk i _ (slots_Some g _ _ _ _ Hv)).
Qed.

Lemma inv_keys c lru : inv g lru c -> keys_inj (cview g c).
Proof. intros (ch & fs & [Hst _ _ _ _]). apply (so_keys _ _ _ _ _ Hst). Qed.

(** An unused item is available as long as one is not in use. *)
Lemma stack_nonempty c lru i :
  inv g lru c -> 1 <= i < uc_max_items g -> cview g c !! i = None -> 0 < c.(stack_ptr).
Proof.
  intros (ch & fs & [_ _ Hsk _ _]) Hi Hv. rewrite (sk_ptr _ _ _ _ _ Hsk).
  assert (i ∈ fs) as Hin. { apply (sk_member _ _ _ _ _ Hsk). split; [done|]. unfold slots. by rewrite lookup_fmap, Hv. }
  destruct fs; [by apply elem_of_nil in Hin|]. rewrite zlen_cons. zlen_facts. lia.
Qed.

Lemma del_index_unused now key flags ch lru fs c i :
  cache_inv g ch lru fs c -> 1 <= i < uc_max_items g -> cview g c !! i = None ->
  exists c', del_index g now key i flags c = Ret (0, c') /\ cache_inv g ch (lru_del i lru) fs c' /\
    cview g c' = cview g c /\ c'.(next_scan) = c.(next_scan).
Proof.
  intros Hinv Hi Hv. pose proof Hinv as [Hst Hch Hsk Hlru Hcnt].
  destruct (proj2 (so_dom _ _ _ _ _ Hst i)) as [it Hit]; [lia|].
  pose proof (so_items _ _ _ _ _ Hst _ _ Hit) as [Ha Hk _].
  pose proof (view_None _ _ _ _ _ Hit (proj1 Hk) Hv) as H0.
  destruct (store_unused _ _ _ _ i it (clear_item it) Hst Hit H0) as [Hst' Hv']; [by destruct it .. |].
  assert (forall j, is_Some (slots g (cview g c) !! j) -> j <> i) as Hne.
  { intros j [h Hj] ->. apply slots_lookup in Hj as (k & e & Hj & _). congruence. }
  unfold del_index. rewrite (proj2 (Z.eqb_neq i 0)) by lia. rewrite (cache_item_ok _ _ _ Hit). cbn [obind].
  rewrite H0. change (0 <? 0) with false. cbn iota. set (c0 := c). cbn [obind]. rewrite (with_item_ok _ _ _ c0 Hit).
  set (c1 := c0<|items := <[i:=clear_item it]> (items c0)|>). cbn [obind].
  eexists. split; [reflexivity|].
  assert (cache_inv g ch (lru_del i lru) fs c1) as [? ? ? ? ?].
  { assert (cview g c1 = cview g c) as Hcv by exact Hv'. split; rewrite ?Hcv; [exact Hst' | | exact Hsk | | exact Hcnt];
      change (items c1) with (<[i:=clear_item it]> (items c)).
    - eapply chains_frame; [|exact Hch]. intros j Hj. rewrite !lookup_fmap, lookup_insert_ne by (symmetry; auto). done.
    - intros Hp. specialize (Hlru Hp). rewrite lru_del_id.
      + eapply lru_frame; [|exact Hlru]. intros j Hj. rewrite !lookup_fmap, lookup_insert_ne by (symmetry; auto). done.
      + rewrite (lr_member _ _ _ _ _ _ Hlru). intros Hx. by apply (Hne i). }
  destruct (uc_use_last_modified g), (uc_nodes g && negb (has flags FLAG_LOCAL)); (split; [by split | split; [exact Hv' | done]]).
Qed.

Lemma del_index_used now key flags ch lru fs c i k e :
  cache_inv g ch lru fs c -> cview g c !! i = Some (k, e) ->
  exists c' ch' fs', del_index g now key i flags c = Ret (0, c') /\ cache_inv g ch' (lru_del i lru) fs' c' /\
    cview g c' = delete i (cview g c) /\ c'.(next_scan) = c.(next_scan).
Proof.
  intros Hinv Hv. assert (inv g lru c) as Hinv' by (exists ch, fs; done).
  pose proof (view_range _ _ _ _ _ Hinv' Hv) as Hi. pose proof Hinv as [Hst _ _ _ _].
  destruct (release_item_spec _ _ _ _ _ _ _ Hinv Hv) as (c1 & ch' & it & E & Hu & Hcore & Hch & Hsk & Hlru & Hb & Hcnt & Hpos & Hd & Hns).
  destruct (core_lookup _ _ i it (eq_sym Hcore) (proj1 Hu)) as (it1 & Hit1 & Ec).
  assert (zlen (i_key it1) = zlen (i_key it)) as Hka by (destruct it, it1; by injection Ec as -> -> -> -> -> -> -> ->).
  destruct (store_release _ _ _ _ i it (clear_item it) (bitmap c1) Hst Hu) as [Hst' Hv']; [by destruct it .. | done |].
  assert (core <$> <[i:=clear_item it]> (items c) = core <$> <[i:=clear_item it1]> (items c1)) as Hcore'.
  { rewrite !fmap_insert, Hcore. f_equal. destruct it, it1. by injection Ec as -> -> -> -> -> -> -> ->. }
  unfold del_index. rewrite (proj2 (Z.eqb_neq i 0)) by lia. rewrite (cache_item_ok _ _ _ (proj1 Hu)). cbn [obind].
  rewrite (proj2 (Z.ltb_lt 0 _)) by apply Hu. rewrite E. cbn [obind]. rewrite (with_item_ok _ _ _ c1 Hit1).
  set (c2 := c1<|items := <[i:=clear_item it1]> (items c1)|>). cbn [obind].
  assert (cview g c2 = delete i (cview g c)) as Hv2.
  { change (cview g c2) with (view g (<[i:=clear_item it1]> (items c1)) (cdata c1)).
    rewrite Hd, <- (view_core g _ _ _ Hcore'). exact Hv'. }
  assert (cache_inv g ch' (lru_del i lru) (fs ++ [i]) c2) as [? ? ? ? ?].
  { split; rewrite ?Hv2, ?slots_delete; change (items c2) with (<[i:=clear_item it1]> (items c1)).
    - change (bitmap_pos c2) with (bitmap_pos c1). change (cdata c2) with (cdata c1). rewrite Hpos, Hd. eapply store_ok_core; [exact Hcore' | exact Hst'].
    - eapply chains_frame; [|exact Hch]. intros j [h Hj]. apply lookup_delete_Some in Hj as [Hne _].
      by rewrite !lookup_fmap, lookup_insert_ne.
    - exact Hsk.
    - intros Hp. eapply lru_frame; [|exact (Hlru Hp)]. intros j [h Hj]. apply lookup_delete_Some in Hj as [Hne _].
      by rewrite !lookup_fmap, lookup_insert_ne.
    - exact Hcnt. }
  eexists _, ch', (fs ++ [i]). split; [reflexivity|].
  destruct (uc_use_last_modified g), (uc_nodes g && negb (has flags FLAG_LOCAL)); (split; [by split | split; [exact Hv2 | exact Hns]]).
Qed.

(** Deletion of an item by its index. *)
Lemma del_index_spec now key flags lru c i :
  inv g lru c -> 1 <= i < uc_max_items g ->
  exists c', del_index g now key i flags c = Ret (0, c') /\ inv g (lru_del i lru) c' /\
    cview g c' = delete i (cview g c) /\ c'.(next_scan) = c.(next_scan).
Proof.
  intros (ch & fs & Hinv) Hi. destruct (cview g c !! i) as [[k e]|] eqn:Hv.
  - destruct (del_index_used now key flags _ _ _ _ _ _ _ Hinv Hv) as (c' & ch' & fs' & ? & ? & ? & ?). exists c'.
    split_and!; [done | by exists ch', fs' | done | done].
  - destruct (del_index_unused now key flags _ _ _ _ _ Hinv Hi Hv) as (c' & ? & ? & ? & ?). exists c'.
    split_and!; [done | by exists ch, fs | | done]. rewrite delete_id by done. done.
Qed.

(** * Lookup with expiration on access *)

Definition expired (now : Z) (e : entry) : bool :=
  negb (e.(e_expires) =? 0) && g.(uc_lazy_expire) && (e.(e_expires) <=? now).

(** The index of the key, or 0; an expired item is deleted. *)
Lemma get_index_spec now key lru c :
  inv g lru c ->
  (exists i it e, upsgi_cache_get_index g now key c = Ret (i, c) /\ in_use c.(items) i it /\
     cview g c !! i = Some (key, e) /\ e = item_entry g c.(cdata) it /\ expired now e = false /\ 1 <= i < uc_max_items g) \/
  (exists i e c', upsgi_cache_get_index g now key c = Ret (0, c') /\ cview g c !! i = Some (key, e) /\ expired now e = true /\
     inv g (lru_del i lru) c' /\ cview g c' = delete i (cview g c)) \/
  (upsgi_cache_get_index g now key c = Ret (0, c) /\ forall i e, cview g c !! i <> Some (key, e)).
Proof.
  intros Hinv. pose proof Hinv as (ch & fs & Hi). destruct (get_index_find now key _ _ _ _ Hi) as [(i & it & e & Hv & Hu & ->)|[Hno ->]];
    [|by right; right].
  pose proof (view_range _ _ _ _ _ Hinv Hv) as Hr. pose proof Hv as Hv'. apply view_lookup in Hv' as (it' & Hu' & -> & ->).
  assert (it' = it) as -> by (destruct Hu, Hu'; congruence).
  unfold check_lazy. destruct (expired now (item_entry g (cdata c) it)) eqn:Ee.
  - right. left. unfold expired in Ee. cbn in Ee. apply andb_true_iff in Ee as [[E1 E2]%andb_true_iff E3].
    apply negb_true_iff in E1. rewrite E1, E2, E3. cbn [orb negb].
    destruct (del_index_spec now [] FLAG_LOCAL _ _ _ Hinv Hr) as (c' & -> & ? & ? & _). cbn [obind].
    exists i, (item_entry g (cdata c) it), c'. split_and!; try done. unfold expired. cbn. by rewrite E1, E2, E3.
  - left. exists i, it, (item_entry g (cdata c) it). split_and!; try done; try lia. unfold expired in Ee. cbn in Ee.
    destruct (i_expires it =? 0), (uc_lazy_expire g); cbn in *; [done ..| |done]. by rewrite Ee.
Qed.

End with_conf.
End CacheOps.
