(* ===== verification/CacheWrite.v ===== *)
(** Changes of an item in use: the touch of a lookup, the storage of a value,
    the insertion of an item. *)
From S2P Require Import Prelude Clib Buffer Packet Protocol Hash Bitmap Cache CacheLinks CacheInv CacheSteps CacheOps.

Module CacheWrite.
Import Bitmap Cache CacheLinks CacheInv CacheSteps CacheOps.

Section with_conf.
Context (g : cache_conf) (Hg : conf_ok g).

(** * Replacing an item

    [it'] takes the place of what was at index [i]; the bitmap and the data
    may change with it as long as the other items keep theirs. *)
Lemma store_replace its bm pos d i it' bm' pos' d' :
  store_ok g its bm pos d -> is_Some (its !! i) -> 0 < it'.(i_keysize) -> item_ok g i it' ->
  (forall j e, view g its d !! j = Some (item_key it', e) -> j = i) ->
  (forall j jt, in_use its j jt -> j <> i -> item_entry g d' jt = item_entry g d jt) ->
  (forall j jt k, in_use its j jt -> j <> i -> in_run jt.(i_first_block) (item_blocks g jt) k = true ->
     in_run it'.(i_first_block) (item_blocks g it') k = false) ->
  zlen d' = zlen d ->
  (g.(uc_use_bitmap) = true -> bytes_ok bm' /\ zlen bm' = zlen bm /\ 0 <= pos' < g.(uc_blocks) /\
     forall k, 0 <= k < 8 * zlen bm ->
       (used bm' k = true <-> in_run it'.(i_first_block) (item_blocks g it') k = true \/ g.(uc_blocks) <= k \/
          exists j jt, j <> i /\ in_use its j jt /\ in_run jt.(i_first_block) (item_blocks g jt) k = true)) ->
  store_ok g (<[i:=it']> its) bm' pos' d' /\
  view g (<[i:=it']> its) d' = <[i:=(item_key it', item_entry g d' it')]> (view g its d).
Proof.
  intros [Hd Hi Hk Hr Hb Hz] Hit Hu Hok Hkey Hval Hdis Hlen Hbm.
  assert (forall j jt, in_use (<[i:=it']> its) j jt <-> (j = i /\ jt = it') \/ (j <> i /\ in_use its j jt)) as Hiu.
  { intros j jt. unfold in_use. rewrite lookup_insert_Some. naive_solver. }
  assert (view g (<[i:=it']> its) d' = <[i:=(item_key it', item_entry g d' it')]> (view g its d)) as Hv.
  { apply map_eq. intros j. apply option_eq. intros [k e]. rewrite lookup_insert_Some, !view_lookup. setoid_rewrite Hiu. split.
    - intros (jt & [[-> ->]|[Hne Hj]] & -> & ->); [by left|]. right. split; [done|]. exists jt.
      split_and!; [done | done | by apply (Hval j)].
    - intros [[<- [= <- <-]]|[Hne (jt & Hj & -> & ->)]]; [eauto 10|]. exists jt. split_and!; [by right | done |].
      symmetry. by apply (Hval j). }
  split; [|done]. split.
  - intros j. rewrite <- Hd, lookup_insert_is_Some. destruct (decide (i = j)) as [<-|]; naive_solver.
  - intros j jt. rewrite lookup_insert_Some. intros [[<- <-]|[_ ?]]; [done | by apply Hi].
  - rewrite Hv. by apply keys_inj_insert.
  - intros a b at_ bt k. rewrite !Hiu. intros [[-> ->]|[Ha Ha']] [[-> ->]|[Hb1 Hb2]] R1 R2; try done.
    + rewrite (Hdis b bt k) in R1; done.
    + rewrite (Hdis a at_ k) in R2; done.
    + by eapply (Hr a b at_ bt k).
  - intros Hum. destruct (Hb Hum) as [B1 B2 B3 B4]. destruct (Hbm Hum) as (C1 & C2 & C3 & C4).
    split; [done | lia | done |]. intros k Hk'. rewrite C4 by lia. setoid_rewrite Hiu. split.
    + intros [Hrun|[?|(j & jt & Hne & Hj & Hrun)]]; [right; exists i, it'; eauto | by left | right; exists j, jt; eauto].
    + intros [?|(j & jt & [[-> ->]|[Hne Hj]] & Hrun)]; [by right; left | by left | right; right; eauto 10].
  - lia.
Qed.

(** Only the expiration, the flags and the hits change. *)
Lemma store_relabel its bm pos d i it it' :
  store_ok g its bm pos d -> in_use its i it ->
  it'.(i_keysize) = it.(i_keysize) -> it'.(i_key) = it.(i_key) -> it'.(i_hash) = it.(i_hash) ->
  it'.(i_valsize) = it.(i_valsize) -> it'.(i_first_block) = it.(i_first_block) ->
  store_ok g (<[i:=it']> its) bm pos d /\
  view g (<[i:=it']> its) d = <[i:=(item_key it, item_entry g d it')]> (view g its d).
Proof.
  intros Hst [Hit Hu] E1 E2 E3 E4 E5. pose proof (so_items _ _ _ _ _ Hst _ _ Hit) as Hok.
  assert (item_key it' = item_key it) as Ek by (unfold item_key; congruence).
  assert (item_blocks g it' = item_blocks g it) as Eb by (unfold item_blocks; congruence).
  rewrite <- Ek. apply (store_replace its bm pos d i it' bm pos d); try done.
  - lia.
  - destruct Hok as [? ? H]. split; [congruence | lia |]. intros _. rewrite Ek, E3, E4, E5, Eb. by apply H.
  - intros j e Hj. eapply (so_keys _ _ _ _ _ Hst); [exact Hj|]. apply view_lookup. exists it.
    split_and!; [done | done | reflexivity].
  - intros j jt k Hj Hne Hrun. destruct (in_run (i_first_block it') (item_blocks g it') k) eqn:E; [|done].
    exfalso. apply Hne. rewrite E5, Eb in E. by eapply (so_runs _ _ _ _ _ Hst j i jt it k).
  - intros Hum. destruct (so_bitmap _ _ _ _ _ Hst Hum) as [B1 B2 B3 B4]. split_and!; [done | done | lia | lia |].
    intros k Hk. rewrite B4, E5, Eb by done. split.
    + intros [?|(j & jt & Hj & Hrun)]; [by right; left|]. destruct (decide (j = i)) as [->|Hne].
      * left. destruct Hj as [Hj _]. rewrite Hit in Hj. by injection Hj as <-.
      * right; right. eauto 10.
    + intros [Hrun|[?|(j & jt & Hne & Hj & Hrun)]]; [right; exists i, it; done | by left | right; eauto].
Qed.

(** The invariant after a change of one item that keeps its links and its
    place in the chains. *)
Lemma inv_relabel ch lru fs c i it f :
  cache_inv g ch lru fs c -> in_use c.(items) i it ->
  (f it).(i_keysize) = it.(i_keysize) -> (f it).(i_key) = it.(i_key) -> (f it).(i_hash) = it.(i_hash) ->
  (f it).(i_valsize) = it.(i_valsize) -> (f it).(i_first_block) = it.(i_first_block) ->
  (f it).(i_next) = it.(i_next) -> (f it).(i_prev) = it.(i_prev) ->
  (f it).(i_lru_next) = it.(i_lru_next) -> (f it).(i_lru_prev) = it.(i_lru_prev) ->
  exists c', with_item i f c = Ret c' /\ c' = c<|items := <[i:=f it]> c.(items)|> /\ cache_inv g ch lru fs c' /\
    cview g c' = <[i:=(item_key it, item_entry g c.(cdata) (f it))]> (cview g c).
Proof.
  intros [Hst Hch Hsk Hlru Hcnt] Hu E1 E2 E3 E4 E5 L1 L2 L3 L4.
  destruct (store_relabel _ _ _ _ i it (f it) Hst Hu E1 E2 E3 E4 E5) as [Hst' Hv'].
  rewrite (with_item_ok _ _ it) by apply Hu. set (c' := c<|items := <[i:=f it]> (items c)|>).
  assert (cview g c' = <[i:=(item_key it, item_entry g c.(cdata) (f it))]> (cview g c)) as Hcv by exact Hv'.
  assert (slots g (cview g c') = slots g (cview g c)) as Hs.
  { rewrite Hcv, slots_insert. apply insert_id. apply (slots_Some _ _ _ _ (item_entry g c.(cdata) it)).
    apply view_lookup. eauto. }
  exists c'. split_and!; [done | done | | done]. destruct Hu as [Hit _].
  split; rewrite ?Hs; change (items c') with (<[i:=f it]> (items c)); [exact Hst' | | exact Hsk | | exact Hcnt].
  - by rewrite !(fmap_insert_same _ _ _ it).
  - by rewrite !(fmap_insert_same _ _ _ it).
Qed.

(** * The touch of a lookup *)

Definition lru_use (i : Z) (lru : list Z) : list Z :=
  if g.(uc_purge_lru) then lru_del i lru ++ [i] else lru.

Lemma lru_touch_spec ch lru fs c i k e :
  cache_inv g ch lru fs c -> cview g c !! i = Some (k, e) ->
  exists its h t, lru_touch g i c = Ret (c<|items := its|><|lru_head := h|><|lru_tail := t|>) /\
    cache_inv g ch (lru_use i lru) fs (c<|items := its|><|lru_head := h|><|lru_tail := t|>) /\
    nolru <$> its = nolru <$> c.(items).
Proof.
  intros Hinv Hv. unfold lru_touch, lru_use. destruct (uc_purge_lru g) eqn:Ep; cycle 1.
  { exists (items c), (lru_head c), (lru_tail c). split_and!; [by destruct c | by destruct c | done]. }
  pose proof Hinv as [Hst Hch Hsk Hlru Hcnt]. specialize (Hlru Ep).
  pose proof (slots_Some g _ _ _ _ Hv) as Hsl. pose proof (lr_nodup _ _ _ _ _ _ Hlru) as Hnd.
  destruct (lru_split _ _ _ _ _ _ i Hlru) as (l1 & l2 & -> & _ & _); [by rewrite Hsl; eauto|].
  rewrite lru_del_split by done.
  destruct (lru_remove_item_spec _ _ _ _ _ Hlru) as (its1 & h1 & t1 & -> & Hl1 & Hn1).
  set (c1 := c<|items := its1|><|lru_head := h1|><|lru_tail := t1|>). cbn [obind].
  apply view_lookup in Hv as (it & [Hit _] & _). 
  assert (exists it1, its1 !! i = Some it1) as [it1 Hit1].
  { destruct (core_lookup (items c) its1 i it) as (it1 & ? & _); [by symmetry; apply core_of_nolru | done | eauto]. }
  pose proof (sk_slots _ _ _ _ _ Hsk _ _ Hsl) as Hi0.
  destruct (lru_add_item_spec (delete i (slots g (cview g c))) (l1 ++ l2) i (uc_hash g k mod uc_hashsize g) it1 c1 Hl1)
    as (its2 & h2 & t2 & -> & Hl2 & Hn2); [by apply lookup_delete_eq | lia | done |].
  change (items c1) with its1 in Hn2. rewrite insert_delete_eq, insert_id in Hl2 by done.
  assert (nolru <$> its2 = nolru <$> items c) as Hn by (by rewrite Hn2).
  pose proof (nolru_next _ _ Hn) as [N1 N2]. pose proof (core_of_nolru _ _ Hn) as Hc.
  exists its2, h2, t2. split_and!; [by destruct c | | done]. set (c2 := c<|items := its2|><|lru_head := h2|><|lru_tail := t2|>).
  assert (cview g c2 = cview g c) as Hcv by (apply (view_core g _ its2 (items c)); done).
  split; rewrite ?Hcv; change (items c2) with its2; [|by rewrite N1, N2 | exact Hsk | done | exact Hcnt].
  eapply store_ok_core; [by symmetry; exact Hc | exact Hst].
Qed.

Definition hit (e : entry) : entry := mk_entry e.(e_val) e.(e_expires) e.(e_flags) (u64 (e.(e_hits) + 1)).

Lemma count_hit_spec ch lru fs c i it :
  cache_inv g ch lru fs c -> in_use c.(items) i it ->
  exists c', count_hit i c = Ret c' /\ cache_inv g ch lru fs c' /\ c'.(cdata) = c.(cdata) /\ c'.(next_scan) = c.(next_scan) /\
    cview g c' = <[i:=(item_key it, hit (item_entry g c.(cdata) it))]> (cview g c).
Proof.
  intros Hinv Hu. unfold count_hit.
  destruct (inv_relabel _ _ _ _ i it (fun uci => uci<|i_hits := u64 (i_hits uci + 1)|>) Hinv Hu) as (c' & E & Ec & [? ? ? ? ?] & Hv);
    [by destruct it .. |].
  rewrite E. cbn [obind]. eexists. split; [reflexivity|]. split; [by split|]. subst c'.
  split; [done|]. split; [done|]. exact Hv.
Qed.

(** * A lookup that finds the key *)

Definition has_entry (c : cache) (i : Z) (key : list Z) (e : entry) : Prop := cview g c !! i = Some (key, e).

(** A gettable entry: its value is returned, its hits are counted and it
    becomes the item used last. *)
Lemma get_hit lru c i it key :
  inv g lru c -> in_use c.(items) i it -> cview g c !! i = Some (key, item_entry g c.(cdata) it) ->
  exists c', (let* c := lru_touch g i c in count_hit i c) = Ret c' /\ inv g (lru_use i lru) c' /\
    cview g c' = <[i:=(key, hit (item_entry g c.(cdata) it))]> (cview g c) /\
    item_value g it c' = Ret (e_val (item_entry g c.(cdata) it)).
Proof.
  intros (ch & fs & Hinv) Hu Hv. destruct (lru_touch_spec _ _ _ _ _ _ _ Hinv Hv) as (its & h & t & -> & Hinv1 & Hn).
  set (c1 := c<|items := its|><|lru_head := h|><|lru_tail := t|>) in *. cbn [obind].
  destruct (in_use_core (items c) its i it) as (it1 & Hu1 & Ec); [by symmetry; apply core_of_nolru | done |].
  destruct (count_hit_spec _ _ _ c1 _ _ Hinv1 Hu1) as (c' & -> & Hinv' & Hd & _ & Hv').
  assert (item_entry g (cdata c) it1 = item_entry g (cdata c) it /\ item_key it1 = item_key it) as [Ee Ek].
  { destruct it, it1. unfold core, nochain, nolru, setter in Ec. cbn in Ec. by injection Ec as -> -> -> -> -> -> -> ->. }
  exists c'. split_and!; [done | by exists ch, fs | |].
  - rewrite Hv'. change (cdata c1) with (cdata c). rewrite Ee, Ek.
    replace (cview g c1) with (cview g c) by (symmetry; apply (view_core g _ its (items c)); by apply core_of_nolru).
    apply view_lookup in Hv as (it0 & Hu0 & -> & _). destruct Hu, Hu0. congruence.
  - unfold item_value. rewrite Hd. change (cdata c1) with (cdata c).
    destruct Hinv as [Hst _ _ _ _]. destruct Hu as [Hit Hus].
    destruct (io_used _ _ _ (so_items _ _ _ _ _ Hst _ _ Hit) Hus) as (_ & Hvs & Hfb & Hfit & _).
    pose proof (co_blocksize _ Hg). destruct (needed_blocks_spec (uc_blocksize g) (i_valsize it)) as [? ?]; [lia | lia |].
    unfold item_blocks in Hfit. rewrite mslice_ok; [done | nia | lia |]. rewrite (so_data _ _ _ _ _ Hst). nia.
Qed.

End with_conf.
End CacheWrite.
