(* ===== verification/CacheFull.v ===== *)
(** The loops over all items: what happens when the cache is full, the
    sweeper of expired items, and the clearing of the cache. *)
From S2P Require Import Prelude Clib Buffer Packet Protocol Hash Bitmap Cache CacheLinks CacheInv CacheSteps CacheOps CacheWrite.

Module CacheFull.
Import Bitmap Cache CacheLinks CacheInv CacheSteps CacheOps CacheWrite.

(** * Loops *)

Lemma for_items_inv {S : Type} (P : Z -> S -> Prop) (body : Z -> S -> outcome S) n i s :
  P i s -> (forall j s, i <= j < i + Z.of_nat n -> P j s -> exists s', body j s = Ret s' /\ P (j + 1) s') ->
  exists s', for_items n i body s = Ret s' /\ P (i + Z.of_nat n) s'.
Proof.
  revert i s. induction n as [|n IH]; intros i s Hp Hb; cbn [for_items].
  { exists s. split; [done|]. by replace (i + Z.of_nat 0) with i by lia. }
  destruct (Hb i s ltac:(lia) Hp) as (s1 & -> & Hp1). cbn [obind].
  destruct (IH (i + 1) s1 Hp1) as (s' & -> & Hp'); [intros j s2 Hj; apply Hb; lia|].
  exists s'. split; [done|]. by replace (i + Z.of_nat (Datatypes.S n)) with (i + 1 + Z.of_nat n) by lia.
Qed.

Section with_conf.
Context (g : cache_conf) (Hg : conf_ok g).

Lemma each_item_inv {S : Type} (P : Z -> S -> Prop) (body : Z -> S -> outcome S) s :
  P 1 s -> (forall i s, 1 <= i < uc_max_items g -> P i s -> exists s', body i s = Ret s' /\ P (i + 1) s') ->
  exists s', each_item g body s = Ret s' /\ P (uc_max_items g) s'.
Proof.
  intros Hp Hb. pose proof (co_items _ Hg). unfold each_item.
  destruct (for_items_inv P body (Z.to_nat (uc_max_items g - 1)) 1 s Hp) as (s' & -> & Hp'); [intros j s0 Hj; apply Hb; lia|].
  exists s'. split; [done|]. by replace (uc_max_items g) with (1 + Z.of_nat (Z.to_nat (uc_max_items g - 1))) by lia.
Qed.

Lemma del2_index now key i flags c : i <> 0 -> upsgi_cache_del2 g now key i flags c = del_index g now key i flags c.
Proof. intros Hi. unfold upsgi_cache_del2. by rewrite (proj2 (Z.eqb_neq i 0) Hi). Qed.

(** A state that has lost, of the contents [V], the items below [i] that [p]
    selects. *)
Definition swept (V : contents) (p : entry -> bool) (i : Z) (c : cache) : Prop :=
  (exists lru, inv g lru c) /\
  forall j, cview g c !! j = if (j <? i) && default false ((fun ke => p ke.2) <$> V !! j) then None else V !! j.

Lemma swept_start V p lru c : inv g lru c -> cview g c = V -> swept V p 1 c.
Proof.
  intros Hi Hv. split; [by exists lru|]. intros j. rewrite Hv. destruct (Z.ltb_spec j 1); [|done].
  destruct (V !! j) as [[k e]|] eqn:E; [|by destruct (_ && _)].
  rewrite <- Hv in E. pose proof (view_range g _ _ _ _ _ Hi E). lia.
Qed.

Lemma swept_here V p i c : swept V p i c -> cview g c !! i = V !! i.
Proof. intros [_ H]. rewrite H. by rewrite Z.ltb_irrefl. Qed.

Lemma swept_skip V p i c :
  swept V p i c -> (forall k e, V !! i = Some (k, e) -> p e = false) -> swept V p (i + 1) c.
Proof.
  intros [Hi H] Hno. split; [done|]. intros j. rewrite H.
  destruct (Z.ltb_spec j i), (Z.ltb_spec j (i + 1)); try lia; try done. cbn [andb].
  replace j with i by lia. destruct (V !! i) as [[k e]|] eqn:E; [|done]. cbn. by rewrite (Hno k e).
Qed.

Lemma swept_delete V p i c now key flags :
  swept V p i c -> 1 <= i < uc_max_items g -> (forall k e, V !! i = Some (k, e) -> p e = true) ->
  exists c', del_index g now key i flags c = Ret (0, c') /\ swept V p (i + 1) c' /\ c'.(next_scan) = c.(next_scan).
Proof.
  intros [[lru Hi] H] Hr Hyes. destruct (del_index_spec g Hg now key flags _ _ _ Hi Hr) as (c' & -> & Hi' & Hv & Hns).
  exists c'. split_and!; [done | | done]. split; [eauto|]. intros j. rewrite Hv. destruct (decide (j = i)) as [->|Hne].
  - rewrite lookup_delete_eq. destruct (Z.ltb_spec i (i + 1)); [|lia]. cbn [andb].
    destruct (V !! i) as [[k e]|] eqn:E; [|done]. cbn. by rewrite (Hyes k e).
  - rewrite lookup_delete_ne, H by done. destruct (Z.ltb_spec j i), (Z.ltb_spec j (i + 1)); try lia; done.
Qed.

(** The end of the loop: exactly the selected entries are gone. *)
Lemma swept_end V p c j k e :
  swept V p (uc_max_items g) c -> (exists lru c0, inv g lru c0 /\ cview g c0 = V) ->
  cview g c !! j = Some (k, e) <-> V !! j = Some (k, e) /\ p e = false.
Proof.
  intros [_ H] (lru & c0 & H0 & <-). rewrite H. destruct (cview g c0 !! j) as [[k' e']|] eqn:E.
  - pose proof (view_range g _ _ _ _ _ H0 E). destruct (Z.ltb_spec j (uc_max_items g)); [|lia]. cbn.
    destruct (p e') eqn:Ep.
    + split; [done|]. intros [[= <- <-] ?]. congruence.
    + split; [by intros [= <- <-] | by intros [? _]].
  - cbn. rewrite andb_false_r. split; [done | by intros [? _]].
Qed.

Lemma swept_subset V p i c : swept V p i c -> cview g c ⊆ V.
Proof.
  intros [_ H]. apply map_subseteq_spec. intros j x. rewrite H. by destruct (_ && _).
Qed.

(** * A full cache *)

Lemma clear_items_spec now lru c :
  inv g lru c -> exists c', clear_items g now c = Ret c' /\ (exists lru', inv g lru' c') /\ cview g c' = ∅.
Proof.
  intros Hi. unfold clear_items.
  destruct (each_item_inv (swept (cview g c) (fun _ => true)) (fun i c => let* (_, c) := upsgi_cache_del2 g now [] i 0 c in Ret c) c)
    as (c' & E & Hs).
  - by eapply swept_start.
  - intros i s Hr Hp. rewrite del2_index by lia. destruct (swept_delete _ _ _ _ now [] 0 Hp Hr) as (s' & -> & ? & _); [done|]. eauto.
  - exists c'. split_and!; [done | apply Hs |]. apply map_eq. intros j. rewrite lookup_empty.
    destruct (cview g c' !! j) as [[k e]|] eqn:Ej; [|done].
    apply (swept_end _ _ _ _ _ _ Hs) in Ej as [_ ?]; [done|]. eauto.
Qed.

Definition due (now : Z) (e : entry) : bool := (0 <? e.(e_expires)) && (e.(e_expires) <=? now).

Lemma expires_of c i it k e :
  c.(items) !! i = Some it -> cview g c !! i = Some (k, e) -> e.(e_expires) = it.(i_expires).
Proof. intros Hit Hv. apply view_lookup in Hv as (it' & [Hit' _] & _ & ->). cbn. congruence. Qed.

Lemma sweep_full_spec now lru c :
  inv g lru c -> exists n c', sweep_full g now c = Ret (n, c') /\ (exists lru', inv g lru' c') /\ cview g c' ⊆ cview g c.
Proof.
  intros Hi. unfold sweep_full. destruct (next_scan c <=? now); [|exists 0, c; eauto].
  set (c0 := c<|next_scan := u64 (now + uc_sweep_on_full g)|>).
  assert (inv g lru c0) as Hi0 by (destruct Hi as (ch & fs & [? ? ? ? ?]); exists ch, fs; by split).
  pose (P := fun (i : Z) (s : Z * cache) => swept (cview g c) (due now) i s.2).
  destruct (each_item_inv P (fun i '(removed, c) =>
      let* uci := cache_item i c in
      if (0 <? uci.(i_expires)) && (uci.(i_expires) <=? now) then
        let* (r, c) := upsgi_cache_del2 g now [] i 0 c in
        Ret (if r =? 0 then removed + 1 else removed, c)
      else Ret (removed, c)) (0, c0)) as ([n c'] & E & Hs).
  - eapply (swept_start _ _ lru); [exact Hi0 | done].
  - intros i [r s] Hr Hp. change (swept (cview g c) (due now) i s) in Hp. pose proof Hp as [[l Hl] _]. destruct (index_item g s l i Hl Hr) as (it & Hit & _).
    rewrite (cache_item_ok _ _ _ Hit). cbn [obind].
    assert (forall k e, cview g c !! i = Some (k, e) -> e_expires e = i_expires it) as Hex.
    { intros k e Hk. rewrite <- (swept_here _ _ _ _ Hp) in Hk. by eapply expires_of. }
    destruct ((0 <? i_expires it) && (i_expires it <=? now)) eqn:Ed.
    + rewrite del2_index by lia. destruct (swept_delete _ _ _ _ now [] 0 Hp Hr) as (s' & -> & ? & _).
      * intros k e Hk. unfold due. by rewrite (Hex k e Hk).
      * cbn [obind]. eauto.
    + exists (r, s). split; [done|]. apply swept_skip; [done|]. intros k e Hk. unfold due. by rewrite (Hex k e Hk).
  - exists n, c'. split_and!; [exact E | apply Hs | by eapply (swept_subset _ _ _ c')].
Qed.

(** The first item of the list is the one to purge. *)
Lemma purge_oldest_spec now lru c :
  inv g lru c ->
  exists c', purge_oldest g now c = Ret c' /\
    inv g (if uc_purge_lru g then tail lru else lru) c' /\
    cview g c' = (if uc_purge_lru g then match lru with i :: _ => delete i (cview g c) | [] => cview g c end else cview g c).
Proof.
  intros Hi. unfold purge_oldest. destruct (uc_purge_lru g) eqn:Ep; cbn [andb]; [|eauto].
  pose proof Hi as (ch & fs & [Hst Hch Hsk Hlru Hcnt]). specialize (Hlru Ep). pose proof (lr_head _ _ _ _ _ _ Hlru) as Hh.
  destruct lru as [|i l]; cbn [hd] in Hh; rewrite Hh; [by eauto|].
  pose proof (lr_pos _ _ _ _ _ _ Hlru i ltac:(by left)) as H0. rewrite (proj2 (Z.eqb_neq i 0)) by lia. cbn [negb].
  assert (is_Some (slots g (cview g c) !! i)) as [h Hs] by (apply (lr_member _ _ _ _ _ _ Hlru); by left).
  pose proof (sk_slots _ _ _ _ _ Hsk _ _ Hs) as Hr.
  rewrite del2_index by lia. destruct (del_index_spec g Hg now [] FLAG_LOCAL _ _ _ Hi Hr) as (c' & -> & Hi' & Hv & _).
  cbn [obind]. exists c'. split_and!; [done | | done].
  pose proof (lru_del_split [] i l (lr_nodup _ _ _ _ _ _ Hlru)) as Hd. cbn [app] in Hd. by rewrite Hd in Hi'.
Qed.

Lemma cache_full_spec now lru c :
  inv g lru c ->
  exists c', cache_full g now c = Ret c' /\ (exists lru', inv g lru' c') /\ cview g c' ⊆ cview g c /\
    (uc_sweep_on_full g = 0 -> uc_clear_on_full g = false ->
     inv g (if uc_purge_lru g then tail lru else lru) c' /\
     cview g c' = (if uc_purge_lru g then match lru with i :: _ => delete i (cview g c) | [] => cview g c end else cview g c)).
Proof.
  intros Hi. unfold cache_full. set (c0 := c<|cfull := u64 (cfull c + 1)|>).
  assert (inv g lru c0) as Hi0 by (destruct Hi as (ch & fs & [? ? ? ? ?]); exists ch, fs; by split).
  destruct (purge_oldest_spec now lru c0 Hi0) as (c1 & -> & Hi1 & Hv1). cbn [obind].
  change (cview g c0) with (cview g c) in Hv1.
  assert (cview g c1 ⊆ cview g c) as Hsub1.
  { rewrite Hv1. destruct (uc_purge_lru g), lru; try done. apply delete_subseteq. }
  assert (exists n c2, (if negb (uc_sweep_on_full g =? 0) then sweep_full g now c1 else Ret (0, c1)) = Ret (n, c2) /\
     (exists lru', inv g lru' c2) /\ cview g c2 ⊆ cview g c1 /\ (uc_sweep_on_full g = 0 -> n = 0 /\ c2 = c1))
    as (n & c2 & -> & [l2 Hi2] & Hsub2 & Hz).
  { destruct (Z.eqb_spec (uc_sweep_on_full g) 0) as [E|E]; cbn [negb]; [exists 0, c1; eauto 10|].
    destruct (sweep_full_spec now _ _ Hi1) as (n & c2 & ? & ? & ?). exists n, c2. done. }
  cbn [obind]. destruct (uc_clear_on_full g && (n =? 0)) eqn:Ec.
  - destruct (clear_items_spec now _ _ Hi2) as (c' & -> & Hi' & Hv'). exists c'. split_and!; [done | done | |].
    + rewrite Hv'. apply map_empty_subseteq.
    + intros _ E. by rewrite E in Ec.
  - exists c2. split_and!; [done | by eauto | by etrans |]. intros Es _. destruct (Hz Es) as [_ ->]. done.
Qed.

End with_conf.
End CacheFull.
