(* ===== verification/CacheSet.v ===== *)
(** Insertion and update in the cache. *)
From S2P Require Import Prelude Clib Buffer Packet Protocol Hash Bitmap Cache CacheLinks CacheInv CacheSteps CacheOps CacheWrite CacheFull.

Module CacheSet.
Import Bitmap Cache CacheLinks CacheInv CacheSteps CacheOps CacheWrite CacheFull.

(** * Data *)

(** A store leaves the bytes outside it alone. *)
Lemma mwrite_other d off val d' a n :
  mwrite d off val = Ret d' -> 0 <= a -> 0 <= n -> a + n <= zlen d -> a + n <= off \/ off + zlen val <= a ->
  ztake n (zdrop a d') = ztake n (zdrop a d).
Proof.
  intros Hw Ha Hn Hfit Hdis. apply list_eq. intros i. unfold ztake, zdrop.
  destruct (decide (i < Z.to_nat n)%nat) as [Hi|Hi]; [|by rewrite !lookup_take_ge by lia].
  rewrite !lookup_take_lt, !lookup_drop by lia.
  replace (Z.to_nat a + i)%nat with (Z.to_nat (a + Z.of_nat i)) by lia.
  rewrite (mwrite_lookup _ _ _ _ _ Hw) by lia. 
  destruct (Z.leb_spec off (a + Z.of_nat i)), (Z.ltb_spec (a + Z.of_nat i) (off + zlen val)); try done; lia.
Qed.

Lemma mwrite_same d off val d' : mwrite d off val = Ret d' -> ztake (zlen val) (zdrop off d') = val.
Proof.
  unfold mwrite. destruct (Z.leb_spec 0 off), (Z.leb_spec (off + zlen val) (zlen d)); try done. cbn [andb].
  intros [= <-]. zlen_facts. rewrite zdrop_app_length by (rewrite zlen_take; lia). by apply ztake_app_length.
Qed.

Lemma mwrite_twice d off a b d' :
  zlen a = zlen b -> mwrite d off a = Ret d' -> mwrite d' off b = mwrite d off b.
Proof.
  intros E. unfold mwrite. rewrite E. destruct (Z.leb_spec 0 off), (Z.leb_spec (off + zlen b) (zlen d)); try done. cbn [andb].
  intros [= <-]. zlen_facts. assert (zlen (ztake off d) = off) as Ht by (apply zlen_take; lia).
  assert (zlen (ztake off d ++ a ++ zdrop (off + zlen b) d) = zlen d) as Hl by (rewrite !zlen_app, zlen_drop by lia; lia).
  rewrite Hl. destruct (Z.leb_spec (off + zlen b) (zlen d)); [|lia]. f_equal.
  rewrite ztake_app_length by done. do 2 f_equal. rewrite app_assoc. apply zdrop_app_length. rewrite zlen_app. lia.
Qed.

(** ** Numbers *)

Lemma le_value_bytes n x : 0 <= x -> le_value (le_bytes n x) = x mod 256 ^ Z.of_nat n.
Proof.
  revert x. induction n as [|n IH]; intros x Hx; cbn [le_bytes le_value]; [by rewrite Z.mod_1_r|].
  rewrite IH by (apply Z.div_pos; lia). replace (Z.of_nat (S n)) with (Z.succ (Z.of_nat n)) by lia.
  rewrite Z.pow_succ_r, Z.rem_mul_r by lia. done.
Qed.

Lemma int64_of_bytes x : int64_of (le_bytes 8 (u64 x)) = i64 x.
Proof.
  pose proof (wrap_range 64 x ltac:(lia)). unfold int64_of. rewrite le_value_bytes by lia.
  change (256 ^ Z.of_nat 8) with (2 ^ 64). unfold signed, wrap. by rewrite !Z.mod_mod.
Qed.

Lemma zlen_le_bytes n x : zlen (le_bytes n x) = Z.of_nat n.
Proof. revert x. induction n as [|n IH]; intros x; cbn [le_bytes]; [done|]. rewrite zlen_cons, IH. lia. Qed.

(** The bytes that a call stores where the number [old] is. *)
Definition stores (flags : Z) (val : list Z) (old : Z) (x : list Z) : Prop :=
  if has flags FLAG_MATH then exists n, math_op flags old (int64_of val) = Ret n /\ x = le_bytes 8 (u64 n) else x = val.

(** The arguments do not trap. *)
Definition math_safe (flags : Z) (val : list Z) : Prop :=
  has flags FLAG_MATH = true -> zlen val = 8 /\ forall old, exists n, math_op flags old (int64_of val) = Ret n.

Lemma math_safe_plain flags val : has flags FLAG_MATH = false -> math_safe flags val.
Proof. intros H H'. congruence. Qed.

Lemma store_value_spec g fb val flags initial c :
  0 <= fb * uc_blocksize g -> fb * uc_blocksize g + zlen val <= zlen c.(cdata) -> math_safe flags val ->
  exists x d', store_value g fb val flags initial c = Ret (c<|cdata := d'|>) /\
    mwrite c.(cdata) (fb * uc_blocksize g) x = Ret d' /\ zlen x = zlen val /\
    stores flags val (match initial with Some n => i64 n | None => int64_of (ztake 8 (zdrop (fb * uc_blocksize g) c.(cdata))) end) x.
Proof.
  intros H0 Hfit Hs. unfold store_value, stores. set (off := fb * uc_blocksize g) in *.
  destruct (has flags FLAG_MATH) eqn:Em; cbn [negb]; cycle 1.
  { destruct (mwrite (cdata c) off val) as [d'| | |] eqn:E; [|by rewrite mwrite_ok in E by lia ..]. exists val, d'. done. }
  destruct (Hs Em) as [Hv Hop].
  assert (forall x, zlen x = 8 -> exists d, mwrite (cdata c) off x = Ret d) as Hw.
  { intros x Hx. rewrite mwrite_ok by lia. eauto. }
  destruct initial as [n0|].
  - destruct (Hw (le_bytes 8 (u64 n0)) (zlen_le_bytes _ _)) as [d0 E0]. rewrite E0. cbn [obind].
    unfold read_num. change (cdata (c<|cdata := d0|>)) with d0. fold off. pose proof (mwrite_len _ _ _ _ E0) as Hl0.
    rewrite mslice_ok by lia. cbn [obind].
    replace (ztake 8 (zdrop off d0)) with (le_bytes 8 (u64 n0)) by (symmetry; apply (mwrite_same _ _ _ _ E0)).
    rewrite int64_of_bytes. destruct (Hop (i64 n0)) as [n En]. rewrite En. cbn [obind].
    rewrite (mwrite_twice _ _ (le_bytes 8 (u64 n0)) (le_bytes 8 (u64 n)) _ ltac:(by rewrite !zlen_le_bytes) E0).
    destruct (Hw (le_bytes 8 (u64 n)) (zlen_le_bytes _ _)) as [d' E']. rewrite E'. cbn [obind].
    exists (le_bytes 8 (u64 n)), d'. split_and!; [by destruct c | done | by rewrite zlen_le_bytes | eauto].
  - cbn [obind]. unfold read_num. fold off. rewrite mslice_ok by lia. cbn [obind].
    destruct (Hop (int64_of (ztake 8 (zdrop off (cdata c))))) as [n En]. rewrite En. cbn [obind].
    destruct (Hw (le_bytes 8 (u64 n)) (zlen_le_bytes _ _)) as [d' E']. rewrite E'. cbn [obind].
    exists (le_bytes 8 (u64 n)), d'. split_and!; [by destruct c | done | by rewrite zlen_le_bytes | eauto].
Qed.

(** Runs without a common block. *)
Lemma runs_apart a n b m :
  0 < n -> 0 < m -> (forall k, in_run a n k = true -> in_run b m k = false) -> a + n <= b \/ b + m <= a.
Proof.
  intros Hn Hm H. destruct (decide (a + n <= b)); [by left|]. destruct (decide (b + m <= a)); [by right|]. exfalso.
  assert (in_run a n (Z.max a b) = true) as H1 by (unfold in_run; repeat (zcase; try lia); done).
  apply H in H1. unfold in_run in H1. repeat (zcase_in H1; try lia); done.
Qed.

Section with_conf.
Context (g : cache_conf) (Hg : conf_ok g).

Lemma size_bounds : 0 < uc_blocksize g /\ 1 <= uc_max_items g <= uc_blocks g /\ uc_blocks g < 2 ^ 60.
Proof. pose proof (co_items _ Hg). pose proof (co_size _ Hg). pose proof (co_blocksize _ Hg). nia. Qed.

(** The value of a used item after a store to a run apart from its own. *)
Lemma entry_other d fb val d' its bm pos j jt :
  store_ok g its bm pos d -> in_use its j jt -> 0 < zlen val -> 0 <= fb ->
  mwrite d (fb * uc_blocksize g) val = Ret d' ->
  (forall k, in_run jt.(i_first_block) (item_blocks g jt) k = true -> in_run fb (needed_blocks (uc_blocksize g) (zlen val)) k = false) ->
  item_entry g d' jt = item_entry g d jt.
Proof.
  intros Hst [Hj Hu] Hv Hfb Hw Hdis. destruct size_bounds as (Hbs & _ & _).
  destruct (io_used _ _ _ (so_items _ _ _ _ _ Hst _ _ Hj) Hu) as (_ & Hvs & Hf & Hfit & _).
  destruct (needed_blocks_spec _ _ Hbs Hvs) as [N1 N2]. destruct (needed_blocks_spec _ _ Hbs Hv) as [N3 N4].
  unfold item_blocks in *. pose proof (so_data _ _ _ _ _ Hst).
  unfold item_entry. f_equal. eapply mwrite_other; [done | nia | lia | nia |].
  destruct (runs_apart _ _ _ _ N1 N3 Hdis); nia.
Qed.

(** * Insertion *)

Definition stored_expires (now expires flags : Z) : Z :=
  if g.(uc_purge_lru) then expires
  else if negb (expires =? 0) && negb (has flags FLAG_ABSEXPIRE) then u64 (expires + now) else expires.

Lemma relative_expire_spec now expires flags c :
  g.(uc_purge_lru) = false -> exists n, relative_expire now expires flags c = (stored_expires now expires flags, c<|next_scan := n|>).
Proof.
  intros Hp. unfold relative_expire, stored_expires. rewrite Hp.
  destruct (negb (expires =? 0) && negb (has flags FLAG_ABSEXPIRE)); [|exists (next_scan c); by destruct c].
  destruct ((next_scan c =? 0) || (u64 (expires + now) <? next_scan c)); [eauto | exists (next_scan c); by destruct c].
Qed.

(** The state in which [insert_item] runs: item [i] was taken from the stack,
    and the blocks from [fb] on are marked in addition to those of [bm0]. *)
Record ready (ch : Z -> list Z) (lru fs : list Z) (c : cache) (i : Z) (it : item) (key : list Z) (vallen : Z) (bm0 : list Z) (pos0 : Z) : Prop := {
  rd_store : store_ok g c.(items) bm0 pos0 c.(cdata);
  rd_chains : chains_ok g.(uc_hashsize) (slots g (cview g c)) (i_next <$> c.(items)) (i_prev <$> c.(items)) c.(hashtable) ch;
  rd_stack : stack_ok g.(uc_max_items) (<[i:=uc_hash g key mod uc_hashsize g]> (slots g (cview g c))) c.(unused_stack) c.(stack_ptr) fs;
  rd_lru : g.(uc_purge_lru) = true ->
    lru_ok (slots g (cview g c)) (i_lru_next <$> c.(items)) (i_lru_prev <$> c.(items)) c.(lru_head) c.(lru_tail) lru;
  rd_count : c.(n_items) = g.(uc_max_items) - 2 - zlen fs;
  rd_item : c.(items) !! i = Some it;
  rd_index : 1 <= i < uc_max_items g;
  rd_unused : it.(i_keysize) = 0;
  rd_key : 0 < zlen key <= uc_keysize g;
  rd_vallen : 0 < vallen;
  rd_fresh : forall j e, cview g c !! j <> Some (key, e);
  rd_fits : 0 <= it.(i_first_block) /\ it.(i_first_block) + needed_blocks (uc_blocksize g) vallen <= uc_blocks g;
  rd_nobitmap : g.(uc_use_bitmap) = false -> it.(i_first_block) = i /\ needed_blocks (uc_blocksize g) vallen = 1;
  rd_apart : forall j jt k, in_use c.(items) j jt -> in_run jt.(i_first_block) (item_blocks g jt) k = true ->
    in_run it.(i_first_block) (needed_blocks (uc_blocksize g) vallen) k = false;
  rd_bitmap : g.(uc_use_bitmap) = true -> bytes_ok c.(bitmap) /\ zlen c.(bitmap) = zlen bm0 /\ 0 <= c.(bitmap_pos) < g.(uc_blocks) /\
     forall k, 0 <= k < 8 * zlen bm0 ->
       used c.(bitmap) k = used bm0 k || in_run it.(i_first_block) (needed_blocks (uc_blocksize g) vallen) k;
}.

Definition new_item (it : item) (key val kmem : list Z) (expires flags : Z) : item :=
  it<|i_expires := expires|><|i_hash := uc_hash g key|><|i_hits := 0|><|i_flags := flags|><|i_key := kmem|>
    <|i_valsize := zlen val|><|i_keysize := zlen key|>.

(** The contents with the new item. *)
Lemma ready_store ch lru fs c i it key val bm0 pos0 kmem x d' expires flags :
  ready ch lru fs c i it key (zlen val) bm0 pos0 -> zlen x = zlen val ->
  mwrite it.(i_key) 0 key = Ret kmem -> mwrite c.(cdata) (it.(i_first_block) * uc_blocksize g) x = Ret d' ->
  let it' := new_item it key val kmem expires flags in
  store_ok g (<[i:=it']> c.(items)) c.(bitmap) c.(bitmap_pos) d' /\
  view g (<[i:=it']> c.(items)) d' = <[i:=(key, mk_entry x expires flags 0)]> (cview g c).
Proof.
  intros [Hst _ _ _ _ Hit Hi H0 Hk Hv Hfresh Hfits Hnob Hapart Hbm] Hx Hkm Hd it'.
  assert (item_key it' = key) as Ek.
  { unfold item_key, it', new_item. cbn. pose proof (mwrite_same _ _ _ _ Hkm) as E. by rewrite zdrop_0 in E. }
  assert (item_entry g d' it' = mk_entry x expires flags 0) as Ee.
  { unfold item_entry, it', new_item. cbn. by rewrite <- Hx, (mwrite_same _ _ _ _ Hd). }
  assert (item_blocks g it' = needed_blocks (uc_blocksize g) (zlen val) /\ i_first_block it' = i_first_block it) as [Eb Ef] by done.
  rewrite <- Ee. replace (<[i:=(key, item_entry g d' it')]> (cview g c))
    with (<[i:=(item_key it', item_entry g d' it')]> (cview g c)) by by rewrite Ek.
  apply (store_replace g _ bm0 pos0 (cdata c)); try done; rewrite ?Eb, ?Ef, ?Ek.
  - unfold it', new_item. cbn. lia.
  - destruct (so_items _ _ _ _ _ Hst _ _ Hit) as [Ha _ _]. split; rewrite ?Eb, ?Ef, ?Ek; unfold it', new_item; cbn.
    + by rewrite (mwrite_len _ _ _ _ Hkm).
    + lia.
    + intros _. split_and!; [done | done | lia | lia | exact Hnob].
  - intros j e Hj. exfalso. by eapply Hfresh.
  - intros j jt Hj Hne. eapply (entry_other _ (i_first_block it) x); [done | done | lia | lia | done |]. intros k Hrun. rewrite Hx. by eapply (Hapart j).
  - intros j jt k Hj Hne Hrun. by eapply Hapart.
  - by eapply mwrite_len.
  - intros Hum. destruct (Hbm Hum) as (C1 & C2 & C3 & C4). destruct (so_bitmap _ _ _ _ _ Hst Hum) as [_ _ _ B4].
    split_and!; [done | done | lia | lia |]. intros k Hk'. rewrite C4, orb_true_iff, B4 by lia. split.
    + intros [[?|(j & jt & Hj & Hrun)]|?]; [by right; left | right; right | by left].
      exists j, jt. split_and!; [|done|done]. intros ->. destruct Hj as [Hj ?]. rewrite Hit in Hj. injection Hj as <-. lia.
    + intros [?|[?|(j & jt & _ & Hj & Hrun)]]; [by right | by left; left | left; right; eauto].
Qed.

Definition lru_new (i : Z) (lru : list Z) : list Z := if g.(uc_purge_lru) then lru ++ [i] else lru.

(** The list by last use with the new item; it is not yet in use. *)
Lemma insert_lru ch lru fs c i it key vallen bm0 pos0 now expires flags :
  ready ch lru fs c i it key vallen bm0 pos0 ->
  exists its h t n, (if uc_purge_lru g then let* c := lru_add_item i c in Ret (expires, c) else Ret (relative_expire now expires flags c))
      = Ret (stored_expires now expires flags, c<|items := its|><|lru_head := h|><|lru_tail := t|><|next_scan := n|>) /\
    nolru <$> its = nolru <$> c.(items) /\
    (g.(uc_purge_lru) = true -> lru_ok (<[i:=uc_hash g key mod uc_hashsize g]> (slots g (cview g c)))
       (i_lru_next <$> its) (i_lru_prev <$> its) h t (lru ++ [i])).
Proof.
  intros [Hst Hch Hsk Hlru _ Hit Hi H0 _ _ _ _ _ _ _]. unfold stored_expires.
  destruct (uc_purge_lru g) eqn:Ep.
  - assert (slots g (cview g c) !! i = None) as Hn.
    { destruct (slots g (cview g c) !! i) eqn:E; [|done]. apply slots_lookup in E as (k & e & E & _).
      apply view_lookup in E as (it' & [E' ?] & _). rewrite Hit in E'. injection E' as <-. lia. }
    destruct (lru_add_item_spec _ lru i (uc_hash g key mod uc_hashsize g) it c (Hlru eq_refl) Hn) as (its & h & t & -> & Hl & Hx);
      [lia | done |]. exists its, h, t, (next_scan c). split_and!; [by destruct c | done | done].
  - destruct (relative_expire_spec now expires flags c Ep) as (n & ->). unfold stored_expires. rewrite Ep.
    exists (items c), (lru_head c), (lru_tail c), n. split_and!; [by destruct c | done | done].
Qed.

Lemma ready_slot ch lru fs c i it key vallen bm0 pos0 :
  ready ch lru fs c i it key vallen bm0 pos0 -> slots g (cview g c) !! i = None.
Proof.
  intros [_ _ _ _ _ Hit _ H0 _ _ _ _ _ _ _]. destruct (slots g (cview g c) !! i) eqn:E; [|done].
  apply slots_lookup in E as (k & e & E & _). apply view_lookup in E as (it' & [E' ?] & _).
  rewrite Hit in E'. injection E' as <-. lia.
Qed.

Lemma insert_item_spec ch lru fs c i it key val bm0 pos0 now expires flags :
  ready ch lru fs c i it key (zlen val) bm0 pos0 -> math_safe flags val ->
  exists c' ch' x, insert_item g now i key val expires flags c = Ret (stored_expires now expires flags, c') /\
    cache_inv g ch' (lru_new i lru) fs c' /\ stores flags val (i64 (uc_math_initial g)) x /\
    cview g c' = <[i:=(key, mk_entry x (stored_expires now expires flags) flags 0)]> (cview g c).
Proof.
  intros Hrd Hm. pose proof Hrd as [Hst Hch Hsk Hlru Hcnt Hit Hi H0 Hk Hv Hfresh [Hf1 Hf2] Hnob Hapart Hbm].
  destruct size_bounds as (Hbs & Hmx & Hbk).
  destruct (insert_lru _ _ _ _ _ _ _ _ _ _ now expires flags Hrd) as (its1 & h & t & n & E1 & Hn1 & Hl1).
  set (e' := stored_expires now expires flags) in *. unfold insert_item. rewrite E1. clear E1.
  set (c1 := c<|items := its1|><|lru_head := h|><|lru_tail := t|><|next_scan := n|>). cbn [obind].
  destruct (core_lookup (items c) its1 i it) as (it1 & Hit1 & Ec); [by symmetry; apply core_of_nolru | done |].
  assert (i_key it1 = i_key it /\ i_first_block it1 = i_first_block it) as [Ek Ef].
  { destruct it, it1. unfold core, nochain, nolru, setter in Ec. cbn in Ec. by injection Ec as -> -> -> -> -> -> -> ->. }
  destruct (so_items _ _ _ _ _ Hst _ _ Hit) as [Ha _ _].
  destruct (mwrite it.(i_key) 0 key) as [kmem| | |] eqn:Ekm; [|by rewrite mwrite_ok in Ekm by lia ..].
  destruct (needed_blocks_spec _ _ Hbs Hv) as [N1 N2].
  unfold fill_item. rewrite (cache_item_ok _ it1 c1) by done. cbn [obind]. rewrite Ek, Ekm. cbn [obind].
  rewrite (with_item_ok _ _ it1 c1) by done.
  set (it2 := it1<|i_expires := e'|><|i_hash := uc_hash g key|><|i_hits := 0|><|i_flags := flags|><|i_key := kmem|>).
  set (c2 := c1<|items := <[i:=it2]> (items c1)|>). cbn [obind].
  rewrite (cache_item_ok _ it2 c2) by apply lookup_insert_eq. cbn [obind].
  change (i_first_block it2) with (i_first_block it1). rewrite Ef.
  destruct (store_value_spec g (i_first_block it) val flags (Some (uc_math_initial g)) c2) as (x & d' & -> & Ed & Hx & Hsx);
    [nia | change (cdata c2) with (cdata c); rewrite (so_data _ _ _ _ _ Hst); nia | done |].
  destruct (ready_store _ _ _ _ _ _ _ _ _ _ kmem x d' e' flags Hrd Hx Ekm Ed) as [Hst' Hv'].
  set (c3 := c2<|cdata := d'|>). cbn [obind]. rewrite (with_item_ok _ _ it2 c3) by apply lookup_insert_eq.
  set (it3 := it2<|i_valsize := zlen val|><|i_keysize := zlen key|>).
  set (c4 := c3<|items := <[i:=it3]> (items c3)|>). cbn [obind].
  assert (items c4 = <[i:=it3]> its1) as Hits4 by (change (items c4) with (<[i:=it3]> (<[i:=it2]> its1)); apply insert_insert_eq).
  pose proof (nolru_next _ _ Hn1) as [N3 N4].
  assert (i_next <$> items c4 = i_next <$> items c) as X1 by (rewrite Hits4, <- N3; by apply (fmap_insert_same _ _ _ it1)).
  assert (i_prev <$> items c4 = i_prev <$> items c) as X2 by (rewrite Hits4, <- N4; by apply (fmap_insert_same _ _ _ it1)).
  assert (i_lru_next <$> items c4 = i_lru_next <$> its1) as X3 by (rewrite Hits4; by apply (fmap_insert_same _ _ _ it1)).
  assert (i_lru_prev <$> items c4 = i_lru_prev <$> its1) as X4 by (rewrite Hits4; by apply (fmap_insert_same _ _ _ it1)).
  pose proof Hch as Hch4. rewrite <- X1, <- X2 in Hch4. pose proof (ready_slot _ _ _ _ _ _ _ _ _ _ Hrd) as Hsl.
  assert (forall j h, slots g (cview g c) !! j = Some h -> 1 <= j < uc_max_items g) as Hrange.
  { intros j s Hj. apply (sk_slots _ _ _ _ _ Hsk j s). rewrite lookup_insert_ne; [done|]. intros ->. congruence. }
  destruct (link_item_spec g (slots g (cview g c)) ch i (uc_hash g key mod uc_hashsize g) it3 c4 Hch4 Hrange Hsl)
    as (its5 & t5 & ch' & -> & Hch5 & Hn5); [lia | by rewrite Hits4, lookup_insert_eq | done | by apply slot_range |].
  cbn [obind]. eexists _, ch', x. split; [reflexivity|].
  set (c5 := c4<|items := its5|><|hashtable := t5|>).
  assert (core <$> <[i:=new_item it key val kmem e' flags]> (items c) = core <$> its5) as Hcore.
  { rewrite (core_of_nochain _ _ Hn5), Hits4, !fmap_insert, (core_of_nolru _ _ Hn1). f_equal.
    destruct it, it1. unfold core, nochain, nolru, setter in Ec. cbn in Ec. by injection Ec as -> -> -> -> -> -> -> ->. }
  pose proof (nochain_lru _ _ Hn5) as [Y1 Y2].
  assert (view g its5 d' = <[i:=(key, mk_entry x e' flags 0)]> (cview g c)) as Hv5
    by (rewrite <- (view_core g d' _ _ Hcore); exact Hv').
  assert (slots g (view g its5 d') = <[i:=uc_hash g key mod uc_hashsize g]> (slots g (cview g c))) as Hs5
    by (by rewrite Hv5, slots_insert).
  split; [|split; [exact Hsx | exact Hv5]]. split; cbn -[slots view wrap zlen fmap]; change (cview g _) with (view g its5 d'); rewrite ?Hs5.
  - eapply store_ok_core; [exact Hcore | exact Hst'].
  - exact Hch5.
  - exact Hsk.
  - intros Hp. unfold lru_new. rewrite Hp, Y1, Y2, X3, X4. by apply Hl1.
  - rewrite Hcnt. zlen_facts. pose proof (sk_ptr _ _ _ _ _ Hsk) as Hptr.
    assert (zlen fs < uc_max_items g - 1).
    { pose proof (stack_room _ _ _ _ _ i (uc_hash g key mod uc_hashsize g) Hsk ltac:(by rewrite lookup_insert_eq)). lia. }
    rewrite wrap_small; lia.
Qed.

(** ** Taking an item from the stack *)

Lemma needed_one bs len : 0 < bs -> 0 < len <= bs -> needed_blocks bs len = 1.
Proof. intros Hb Hl. destruct (needed_blocks_spec bs len Hb) as [H1 H2]; [lia|]. nia. Qed.

(** What the guards of [upsgi_cache_set2] let through, for a key that is not
    there. *)
Record insertable (key val : list Z) (c : cache) : Prop := {
  in_key : 0 < zlen key <= uc_keysize g;
  in_val : 0 < zlen val <= uc_max_item_size g;
  in_fresh : forall j e, cview g c !! j <> Some (key, e);
}.

Lemma inv_first_block ch lru fs c i it fb :
  cache_inv g ch lru fs c -> c.(items) !! i = Some it -> it.(i_keysize) = 0 ->
  cache_inv g ch lru fs (c<|items := <[i:=it<|i_first_block := fb|>]> c.(items)|>) /\
  cview g (c<|items := <[i:=it<|i_first_block := fb|>]> c.(items)|>) = cview g c.
Proof.
  intros [Hst Hch Hsk Hlru Hcnt] Hit H0. destruct (store_unused g _ _ _ _ i it (it<|i_first_block := fb|>) Hst Hit H0) as [Hst' Hv'];
    [by destruct it .. |].
  set (c' := c<|items := <[i:=it<|i_first_block := fb|>]> c.(items)|>).
  assert (cview g c' = cview g c) as Hcv by exact Hv'. split; [|done].
  split; rewrite ?Hcv; change (items c') with (<[i:=it<|i_first_block := fb|>]> (items c));
    [exact Hst' | | exact Hsk | | exact Hcnt]; by rewrite !(fmap_insert_same _ _ _ it).
Qed.

(** The top of the stack is an unused item. *)
Lemma stack_top ch lru fs c :
  cache_inv g ch lru fs c -> c.(stack_ptr) <> 0 ->
  exists fs' i it, fs = fs' ++ [i] /\ c.(unused_stack) !! c.(stack_ptr) = Some i /\ c.(items) !! i = Some it /\
    it.(i_keysize) = 0 /\ 1 <= i < uc_max_items g /\ cview g c !! i = None.
Proof.
  intros [Hst Hch Hsk Hlru Hcnt] Hptr. pose proof (sk_ptr _ _ _ _ _ Hsk) as Hp.
  induction fs as [|i fs' _] using rev_ind; [by rewrite Hp in Hptr|].
  destruct (stack_pop _ _ _ _ _ _ 0 Hsk) as [Htop _].
  pose proof (proj1 (sk_member _ _ _ _ _ Hsk i) ltac:(set_solver)) as [Hi Hsl].
  destruct (proj2 (so_dom _ _ _ _ _ Hst i)) as [it Hit]; [lia|].
  assert (cview g c !! i = None) as Hv by (unfold slots in Hsl; rewrite lookup_fmap in Hsl; by destruct (cview g c !! i)).
  exists fs', i, it. split_and!; try done; try lia. eapply view_None; [done | | exact Hv].
  apply (so_items _ _ _ _ _ Hst _ _ Hit).
Qed.

Lemma ready_nobitmap ch lru fs c i it key val :
  cache_inv g ch lru (fs ++ [i]) c -> c.(items) !! i = Some it -> it.(i_keysize) = 0 -> 1 <= i < uc_max_items g ->
  insertable key val c -> g.(uc_use_bitmap) = false ->
  ready ch lru fs (c<|stack_ptr := stack_ptr c - 1|><|items := <[i:=it<|i_first_block := i|>]> c.(items)|>) i
    (it<|i_first_block := i|>) key (zlen val) c.(bitmap) c.(bitmap_pos).
Proof.
  intros Hinv Hit H0 Hi [Hk Hv Hf] Hum. destruct size_bounds as (Hbs & Hmx & _).
  destruct (inv_first_block _ _ _ _ _ _ i Hinv Hit H0) as [Hinv' Hcv].
  set (it' := it<|i_first_block := i|>) in *. set (c' := c<|items := <[i:=it']> c.(items)|>) in *.
  pose proof (co_max_size _ Hg) as Hms. rewrite Hum in Hms.
  assert (needed_blocks (uc_blocksize g) (zlen val) = 1) as Hone by (apply needed_one; lia).
  destruct Hinv' as [Hst Hch Hsk Hlru Hcnt]. rewrite zlen_app in Hcnt. change (zlen [i]) with 1 in Hcnt.
  destruct (stack_pop _ _ _ _ _ _ (uc_hash g key mod uc_hashsize g) Hsk) as [_ Hsk'].
  split; try done; rewrite ?Hone; try lia.
  - change (n_items _) with (n_items c'). lia.
  - apply lookup_insert_eq.
  - intros j e Hj. apply (Hf j e). by rewrite <- Hcv.
  - cbn. lia.
  - intros j jt k [Hj Hu] Hrun. destruct (io_used _ _ _ (so_items _ _ _ _ _ Hst _ _ Hj) Hu) as (_ & _ & _ & _ & Hx).
    destruct (Hx Hum) as [E1 E2]. rewrite E1, E2 in Hrun. unfold in_run in *. cbn.
    assert (j <> i). { intros ->. cbn in Hj. rewrite lookup_insert_eq in Hj. injection Hj as <-. cbn in Hu. lia. }
    repeat (zcase; zcase_in Hrun; try lia; try done).
  - congruence.
Qed.

(** A run found by the search lies inside the blocks and apart from every
    item in use. *)
Lemma found_run its bm pos d fb n :
  store_ok g its bm pos d -> g.(uc_use_bitmap) = true -> 0 <= fb -> 0 < n -> fb + n <= 8 * zlen bm -> free_run bm fb n ->
  fb + n <= uc_blocks g /\
  forall j jt k, in_use its j jt -> in_run jt.(i_first_block) (item_blocks g jt) k = true -> in_run fb n k = false.
Proof.
  intros Hst Hum Hfb Hn Hfit Hfree. destruct (so_bitmap _ _ _ _ _ Hst Hum) as [B1 B2 B3 B4]. split.
  - apply Znot_gt_le. intros Hgt. pose proof (Hfree (Z.max fb (uc_blocks g)) ltac:(lia)) as Hx.
    assert (used bm (Z.max fb (uc_blocks g)) = true) by (apply B4; [lia | left; lia]). congruence.
  - intros j jt k Hj Hrun. destruct (in_run fb n k) eqn:E; [|done].
    assert (fb <= k < fb + n) as Hk by (unfold in_run in E; repeat (zcase_in E; try lia; try done)).
    assert (used bm k = true) by (apply B4; [lia | right; eauto]). rewrite Hfree in *; [done | lia].
Qed.

Lemma take_blocks_spec its bm pos d fb vallen c :
  store_ok g its bm pos d -> g.(uc_use_bitmap) = true -> c.(bitmap) = bm -> 0 < vallen -> 0 <= fb ->
  fb + needed_blocks (uc_blocksize g) vallen <= uc_blocks g ->
  exists b p, take_blocks g fb vallen c = Ret (c<|bitmap := b|><|bitmap_pos := p|>) /\ bytes_ok b /\ zlen b = zlen bm /\
    0 <= p < uc_blocks g /\
    forall k, 0 <= k < 8 * zlen bm -> used b k = used bm k || in_run fb (needed_blocks (uc_blocksize g) vallen) k.
Proof.
  intros Hst Hum Eb Hv Hfb Hfit. destruct size_bounds as (Hbs & Hmx & Hbk).
  destruct (so_bitmap _ _ _ _ _ Hst Hum) as [B1 B2 B3 B4]. destruct (needed_blocks_spec _ _ Hbs Hv) as [N1 N2].
  destruct (mark_blocks_spec bm (uc_blocksize g) fb vallen) as (b & E & Hl & Hb & Hu); [done | done | done | done | lia | lia |].
  unfold take_blocks. rewrite Eb, E. cbn [obind]. rewrite wrap_small by lia. eexists b, _. split; [reflexivity|].
  split_and!; [done | done | | |].
  - destruct (Z.leb_spec (uc_blocks g) (fb + needed_blocks (uc_blocksize g) vallen)); lia.
  - destruct (Z.leb_spec (uc_blocks g) (fb + needed_blocks (uc_blocksize g) vallen)); lia.
  - intros k Hk. apply Hu. lia.
Qed.

Lemma find_spec its bm pos d need :
  store_ok g its bm pos d -> g.(uc_use_bitmap) = true -> 0 < need ->
  exists fb, upsgi_cache_find_free_blocks bm pos (uc_blocksize g) need = Ret fb /\
    (fb = NO_BLOCKS \/
     (fb <> NO_BLOCKS /\ 0 <= fb /\ fb + needed_blocks (uc_blocksize g) need <= 8 * zlen bm /\
      free_run bm fb (needed_blocks (uc_blocksize g) need))).
Proof.
  intros Hst Hum Hn. destruct size_bounds as (Hbs & Hmx & Hbk). destruct (so_bitmap _ _ _ _ _ Hst Hum) as [B1 B2 B3 B4].
  destruct (needed_blocks_spec _ _ Hbs Hn) as [N1 N2].
  destruct (find_free_run bm pos (uc_blocksize g) need) as (fb & E & Hr); [done | lia | lia | done | done |].
  exists fb. split; [done|]. destruct Hr as [(? & ? & ?)|[-> _]]; [|by left]. right. split_and!; try done.
  unfold NO_BLOCKS. lia.
Qed.

Lemma ready_bitmap ch lru fs c i it key val fb b p :
  cache_inv g ch lru (fs ++ [i]) c -> c.(items) !! i = Some it -> it.(i_keysize) = 0 -> 1 <= i < uc_max_items g ->
  insertable key val c -> g.(uc_use_bitmap) = true ->
  0 <= fb -> fb + needed_blocks (uc_blocksize g) (zlen val) <= 8 * zlen c.(bitmap) ->
  free_run c.(bitmap) fb (needed_blocks (uc_blocksize g) (zlen val)) ->
  bytes_ok b -> zlen b = zlen c.(bitmap) -> 0 <= p < uc_blocks g ->
  (forall k, 0 <= k < 8 * zlen c.(bitmap) -> used b k = used c.(bitmap) k || in_run fb (needed_blocks (uc_blocksize g) (zlen val)) k) ->
  ready ch lru fs (c<|stack_ptr := stack_ptr c - 1|><|items := <[i:=it<|i_first_block := fb|>]> c.(items)|><|bitmap := b|><|bitmap_pos := p|>) i
    (it<|i_first_block := fb|>) key (zlen val) c.(bitmap) c.(bitmap_pos).
Proof.
  intros Hinv Hit H0 Hi [Hk Hv Hf] Hum Hfb Hfit Hfree Hb1 Hb2 Hp Hb3. destruct size_bounds as (Hbs & Hmx & _).
  destruct (inv_first_block _ _ _ _ _ _ fb Hinv Hit H0) as [Hinv' Hcv].
  set (it' := it<|i_first_block := fb|>) in *. set (c' := c<|items := <[i:=it']> c.(items)|>) in *.
  destruct Hinv' as [Hst Hch Hsk Hlru Hcnt]. rewrite zlen_app in Hcnt. change (zlen [i]) with 1 in Hcnt.
  destruct (stack_pop _ _ _ _ _ _ (uc_hash g key mod uc_hashsize g) Hsk) as [_ Hsk'].
  destruct (needed_blocks_spec (uc_blocksize g) (zlen val)) as [N1 N2]; [lia | lia |].
  destruct (found_run _ _ _ _ fb _ Hst Hum Hfb N1 Hfit Hfree) as [Hin Hapart].
  split; try done; try lia.
  - change (n_items _) with (n_items c'). lia.
  - apply lookup_insert_eq.
  - intros j e Hj. apply (Hf j e). by rewrite <- Hcv.
  - congruence.
Qed.

(** The item on top of the stack is filled, or the blocks are missing. *)
Lemma place_new_spec now ch lru fs c i it key val expires flags :
  cache_inv g ch lru (fs ++ [i]) c -> c.(items) !! i = Some it -> it.(i_keysize) = 0 -> 1 <= i < uc_max_items g ->
  insertable key val c -> math_safe flags val ->
  exists r c', place_new g now i key val expires flags (c<|stack_ptr := stack_ptr c - 1|>) = Ret (r, c') /\
    match r with
    | Some e => e = stored_expires now expires flags /\ exists x,
        inv g (lru_new i lru) c' /\ stores flags val (i64 (uc_math_initial g)) x /\
        cview g c' = <[i:=(key, mk_entry x e flags 0)]> (cview g c)
    | None => exists lru', inv g lru' c' /\ cview g c' ⊆ cview g c /\ g.(uc_use_bitmap) = true
    end.
Proof.
  intros Hinv Hit H0 Hir Hins Hm. unfold place_new. set (c2 := c<|stack_ptr := stack_ptr c - 1|>).
  destruct (uc_use_bitmap g) eqn:Hum; cbn [negb]; cycle 1.
  { rewrite (with_item_ok _ _ it c2) by done. set (c3 := c2<|items := <[i:=it<|i_first_block := i|>]> (items c2)|>). cbn [obind].
    assert (ready ch lru fs c3 i (it<|i_first_block := i|>) key (zlen val) (bitmap c) (bitmap_pos c)) as Hrd
      by exact (ready_nobitmap _ _ _ _ _ _ _ _ Hinv Hit H0 Hir Hins Hum).
    destruct (insert_item_spec _ _ _ _ _ _ _ _ _ _ now expires flags Hrd Hm) as (c' & ch' & x & -> & Hinv' & Hsx & Hv').
    cbn [obind]. exists (Some (stored_expires now expires flags)), c'. split; [done|]. split; [done|]. exists x.
    split_and!; [by exists ch', fs | done |]. rewrite Hv'. f_equal. apply (inv_first_block _ _ _ _ _ _ i Hinv Hit H0). }
  change (bitmap c2) with (bitmap c). change (bitmap_pos c2) with (bitmap_pos c). pose proof Hinv as [Hst _ _ _ _].
  destruct Hins as [Hk Hv Hf]. destruct (find_spec _ _ _ _ (zlen val) Hst Hum) as (fb & -> & Hfb); [lia|]. cbn [obind].
  rewrite (with_item_ok _ _ it c2) by done. set (c3 := c2<|items := <[i:=it<|i_first_block := fb|>]> (items c2)|>). cbn [obind].
  destruct Hfb as [->|(Hne & Hfb & Hfit & Hfree)].
  - rewrite Z.eqb_refl. destruct (inv_first_block _ _ _ _ _ _ NO_BLOCKS Hinv Hit H0) as [Hinv2 Hcv2].
    assert (c3<|stack_ptr := stack_ptr c3 + 1|> = c<|items := <[i:=it<|i_first_block := NO_BLOCKS|>]> (items c)|>) as ->.
    { unfold c3, c2. destruct c. unfold setter. cbn. f_equal. lia. }
    assert (inv g lru (c<|items := <[i:=it<|i_first_block := NO_BLOCKS|>]> (items c)|>)) as Hi2 by (eexists _, _; exact Hinv2).
    destruct (cache_full_spec g Hg now _ _ Hi2) as (c4 & -> & [l4 Hi4] & Hsub4 & _). cbn [obind].
    exists None, c4. split; [done|]. exists l4. rewrite Hcv2 in Hsub4. done.
  - rewrite (proj2 (Z.eqb_neq _ _) Hne). destruct (needed_blocks_spec (uc_blocksize g) (zlen val)) as [N1 N2]; [apply size_bounds | lia |].
    destruct (found_run _ _ _ _ fb _ Hst Hum Hfb N1 Hfit Hfree) as [Hin _].
    destruct (take_blocks_spec _ _ _ _ fb (zlen val) c3 Hst Hum eq_refl) as (b & p & -> & Hb1 & Hb2 & Hp & Hb3); [lia | done | done |].
    set (c4 := c3<|bitmap := b|><|bitmap_pos := p|>). cbn [obind].
    assert (ready ch lru fs c4 i (it<|i_first_block := fb|>) key (zlen val) (bitmap c) (bitmap_pos c)) as Hrd
      by exact (ready_bitmap _ _ _ _ _ _ _ _ _ _ _ Hinv Hit H0 Hir (Build_insertable _ _ _ Hk Hv Hf) Hum Hfb Hfit Hfree Hb1 Hb2 Hp Hb3).
    destruct (insert_item_spec _ _ _ _ _ _ _ _ _ _ now expires flags Hrd Hm) as (c' & ch' & x & -> & Hinv' & Hsx & Hv').
    cbn [obind]. exists (Some (stored_expires now expires flags)), c'. split; [done|]. split; [done|]. exists x.
    split_and!; [by exists ch', fs | done |]. rewrite Hv'. f_equal. apply (inv_first_block _ _ _ _ _ _ fb Hinv Hit H0).
Qed.

(** What a cache whose eviction policy is the list by last use alone gives up:
    the item used least recently. *)
Definition evicts_oldest : Prop := uc_sweep_on_full g = 0 /\ uc_clear_on_full g = false /\ uc_purge_lru g = true.

(** The items left after the call that makes room when the stack is empty. *)
Lemma make_room_spec now lru c :
  inv g lru c ->
  exists c1 lru1, (if stack_ptr c =? 0 then cache_full g now c else Ret c) = Ret c1 /\ inv g lru1 c1 /\
     cview g c1 ⊆ cview g c /\ (0 < c.(stack_ptr) -> c1 = c /\ lru1 = lru) /\
     (c.(stack_ptr) = 0 -> evicts_oldest ->
        lru1 = tail lru /\ cview g c1 = match lru with i :: _ => delete i (cview g c) | [] => cview g c end).
Proof.
  intros Hi. destruct (Z.eqb_spec (stack_ptr c) 0) as [E|E]; [|exists c, lru; split_and!; try done; intros; lia].
  destruct (cache_full_spec g Hg now _ _ Hi) as (c1 & -> & [l1 Hi1] & Hsub & Hx).
  destruct (decide (uc_sweep_on_full g = 0 /\ uc_clear_on_full g = false /\ uc_purge_lru g = true)) as [(E1 & E2 & E3)|Hno].
  - destruct (Hx E1 E2) as [Hi1' Hv1]. rewrite E3 in *. exists c1, (tail lru). split_and!; try done; intros; lia.
  - exists c1, l1. split_and!; try done; intros; exfalso; (lia || tauto).
Qed.

(** With every item in use the list by last use is not empty. *)
Lemma full_has_oldest lru c i :
  inv g lru c -> c.(stack_ptr) = 0 -> uc_purge_lru g = true -> 1 <= i < uc_max_items g -> lru <> [].
Proof.
  intros (ch & fs & [_ _ Hsk Hlru _]) A1 A4 Hi ->. specialize (Hlru A4).
  rewrite (sk_ptr _ _ _ _ _ Hsk) in A1. apply zlen_zero_inv in A1 as ->.
  pose proof (proj2 (sk_member _ _ _ _ _ Hsk i)) as Hmem. rewrite elem_of_nil in Hmem. apply Hmem. split; [done|].
  apply eq_None_not_Some. intros Hs. apply (lr_member _ _ _ _ _ _ Hlru) in Hs. by apply elem_of_nil in Hs.
Qed.

(** [V1], [lru1]: the contents and the list after what the full cache had to
    give up. *)
Lemma set_new_spec now lru c key val expires flags :
  inv g lru c -> insertable key val c -> math_safe flags val ->
  exists r c', set_new g now key val expires flags c = Ret (r, c') /\
    match r with
    | Some e => e = stored_expires now expires flags /\ exists i V1 lru1 x,
        V1 ⊆ cview g c /\ V1 !! i = None /\ inv g (lru_new i lru1) c' /\ stores flags val (i64 (uc_math_initial g)) x /\
        cview g c' = <[i:=(key, mk_entry x e flags 0)]> V1 /\
        (0 < c.(stack_ptr) -> V1 = cview g c /\ lru1 = lru) /\
        (c.(stack_ptr) = 0 -> evicts_oldest -> exists o, lru = o :: lru1 /\ V1 = delete o (cview g c))
    | None => exists lru', inv g lru' c' /\ cview g c' ⊆ cview g c /\
        (g.(uc_use_bitmap) = true \/ (c.(stack_ptr) = 0 /\ (evicts_oldest -> uc_max_items g = 1)))
    end.
Proof.
  intros Hi Hins Hm. unfold set_new. destruct (make_room_spec now _ _ Hi) as (c1 & lru1 & -> & Hi1 & Hsub & Hns & Hlr). cbn [obind].
  assert (c.(stack_ptr) = 0 \/ 0 < c.(stack_ptr)) as Hcase.
  { pose proof Hi as (ch & fs & [_ _ Hsk _ _]). pose proof (sk_ptr _ _ _ _ _ Hsk). zlen_facts. lia. }
  destruct (Z.eqb_spec (stack_ptr c1) 0) as [E0|E0].
  { exists None, c1. split; [done|]. exists lru1. split_and!; [done | done |]. right.
    destruct Hcase as [Hz|Hp]; [|destruct (Hns Hp) as [-> _]; lia]. split; [done|]. intros He.
    destruct (Hlr Hz He) as [-> Hv1]. destruct size_bounds as (_ & Hmx & _).
    destruct (decide (uc_max_items g = 1)) as [->|Hne]; [done|]. exfalso.
    destruct lru as [|o lru]; [exfalso; eapply (full_has_oldest [] c 1); [exact Hi | done | apply He | lia | done]|].
    assert (1 <= o < uc_max_items g) as Ho.
    { pose proof Hi as (ch & fs & [_ _ Hsk Hlru _]). specialize (Hlru (proj2 (proj2 He))).
      destruct (proj1 (lr_member _ _ _ _ _ _ Hlru o)) as [h Hh]; [by left|]. by apply (sk_slots _ _ _ _ _ Hsk o h). }
    pose proof (stack_nonempty g _ _ o Hi1 Ho) as Hx. rewrite Hv1 in Hx. specialize (Hx (lookup_delete_eq _ _)). lia. }
  pose proof Hi1 as (ch & fs & Hinv1). destruct (stack_top _ _ _ _ Hinv1 E0) as (fs' & i & it & -> & Htop & Hit & H0 & Hir & Hvi).
  unfold aget. rewrite Htop. cbn [obind].
  assert (insertable key val c1) as Hins1.
  { destruct Hins as [? ? Hf]. split; [done | done |]. intros j e Hj. apply (Hf j e). by eapply lookup_weaken. }
  destruct (place_new_spec now _ _ _ _ _ _ _ _ expires flags Hinv1 Hit H0 Hir Hins1 Hm) as (r & c' & -> & Hr).
  exists r, c'. split; [done|]. destruct r as [e|].
  - destruct Hr as (-> & x & Hi' & Hsx & Hv'). split; [done|]. exists i, (cview g c1), lru1, x. split_and!; try done.
    + intros Hs. by destruct (Hns Hs) as [-> ->].
    + intros A1 He. destruct (Hlr A1 He) as [-> Hv1]. destruct lru as [|o lru]; [|by exists o].
      exfalso. eapply (full_has_oldest [] c i); [exact Hi | done | apply He | done | done].
  - destruct Hr as (l & Hl & Hsub' & Hb). exists l. split_and!; [done | by etrans | by left].
Qed.

(** * Update *)

(** A new value in the blocks from [fb] on; [b] and [p] are the bitmap and its
    position for them. *)
Lemma update_store ch lru fs c i it (val : list Z) fb b p x d' :
  cache_inv g ch lru fs c -> in_use c.(items) i it -> 0 < zlen val -> zlen x = zlen val ->
  0 <= fb -> fb + needed_blocks (uc_blocksize g) (zlen val) <= uc_blocks g ->
  (g.(uc_use_bitmap) = false -> fb = i /\ needed_blocks (uc_blocksize g) (zlen val) = 1) ->
  (forall j jt k, in_use c.(items) j jt -> j <> i -> in_run jt.(i_first_block) (item_blocks g jt) k = true ->
     in_run fb (needed_blocks (uc_blocksize g) (zlen val)) k = false) ->
  (g.(uc_use_bitmap) = true -> bytes_ok b /\ zlen b = zlen c.(bitmap) /\ 0 <= p < g.(uc_blocks) /\
     forall k, 0 <= k < 8 * zlen c.(bitmap) ->
       (used b k = true <-> in_run fb (needed_blocks (uc_blocksize g) (zlen val)) k = true \/ g.(uc_blocks) <= k \/
          exists j jt, j <> i /\ in_use c.(items) j jt /\ in_run jt.(i_first_block) (item_blocks g jt) k = true)) ->
  mwrite c.(cdata) (fb * uc_blocksize g) x = Ret d' ->
  let c' := c<|items := <[i:=it<|i_first_block := fb|><|i_valsize := zlen val|>]> c.(items)|><|bitmap := b|><|bitmap_pos := p|><|cdata := d'|> in
  cache_inv g ch lru fs c' /\
  cview g c' = <[i:=(item_key it, mk_entry x it.(i_expires) it.(i_flags) it.(i_hits))]> (cview g c).
Proof.
  intros [Hst Hch Hsk Hlru Hcnt] Hu Hv Hx Hfb Hfit Hnob Hapart Hbm Hd c'. pose proof Hu as [Hit Hks].
  set (it' := it<|i_first_block := fb|><|i_valsize := zlen val|>).
  assert (item_entry g d' it' = mk_entry x it.(i_expires) it.(i_flags) it.(i_hits)) as Ee.
  { unfold item_entry, it'. cbn. by rewrite <- Hx, (mwrite_same _ _ _ _ Hd). }
  destruct (store_replace g _ _ _ _ i it' b p d' Hst) as [Hst' Hv']; try done.
  - destruct (so_items _ _ _ _ _ Hst _ _ Hit) as [Ha Hk Hused]. destruct (Hused Hks) as (Hh & _). split; [done | done |].
    intros _. split_and!; done.
  - intros j e Hj. eapply (so_keys _ _ _ _ _ Hst); [exact Hj|]. apply view_lookup. exists it. split_and!; [done | done | reflexivity].
  - intros j jt Hj Hne. eapply (entry_other _ fb x); [done | done | lia | lia | done |]. intros k Hrun. rewrite Hx. by eapply (Hapart j).
  - by eapply mwrite_len.
  - rewrite Ee in Hv'. assert (cview g c' = <[i:=(item_key it, mk_entry x it.(i_expires) it.(i_flags) it.(i_hits))]> (cview g c)) as Hcv by exact Hv'.
    assert (slots g (cview g c') = slots g (cview g c)) as Hs.
    { rewrite Hcv, slots_insert. apply insert_id. apply (slots_Some _ _ _ _ (item_entry g c.(cdata) it)). apply view_lookup. eauto. }
    split; [|done]. split; rewrite ?Hs; change (items c') with (<[i:=it']> (items c)); [exact Hst' | | exact Hsk | | exact Hcnt];
      by rewrite !(fmap_insert_same _ _ _ it).
Qed.

(** The blocks of an item are exchanged for new ones. *)
Lemma move_blocks_spec now ch lru fs c i it vallen :
  cache_inv g ch lru fs c -> in_use c.(items) i it -> g.(uc_use_bitmap) = true -> 0 < vallen ->
  exists ok c', move_blocks g now i vallen c = Ret (ok, c') /\
    if ok then exists fb b p, c' = c<|items := <[i:=it<|i_first_block := fb|>]> c.(items)|><|bitmap := b|><|bitmap_pos := p|> /\
      0 <= fb /\ fb + needed_blocks (uc_blocksize g) vallen <= uc_blocks g /\
      (forall j jt k, in_use c.(items) j jt -> j <> i -> in_run jt.(i_first_block) (item_blocks g jt) k = true ->
         in_run fb (needed_blocks (uc_blocksize g) vallen) k = false) /\
      bytes_ok b /\ zlen b = zlen c.(bitmap) /\ 0 <= p < g.(uc_blocks) /\
      (forall k, 0 <= k < 8 * zlen c.(bitmap) ->
       (used b k = true <-> in_run fb (needed_blocks (uc_blocksize g) vallen) k = true \/ g.(uc_blocks) <= k \/
          exists j jt, j <> i /\ in_use c.(items) j jt /\ in_run jt.(i_first_block) (item_blocks g jt) k = true))
    else exists lru', inv g lru' c' /\ cview g c' ⊆ cview g c.
Proof.
  intros Hinv Hu Hum Hv. pose proof Hinv as [Hst _ _ _ _]. pose proof Hu as [Hit Hks]. destruct size_bounds as (Hbs & Hmx & Hbk).
  unfold move_blocks. rewrite (cache_item_ok _ _ _ Hit). cbn [obind].
  destruct (find_spec _ _ _ _ vallen Hst Hum Hv) as (fb & -> & Hfb). cbn [obind].
  destruct Hfb as [->|(Hne & Hfb & Hfit & Hfree)].
  { rewrite Z.eqb_refl. assert (inv g lru c) as Hi by by exists ch, fs.
    destruct (cache_full_spec g Hg now _ _ Hi) as (c' & -> & [l Hl] & Hsub & _). cbn [obind]. exists false, c'. eauto. }
  rewrite (proj2 (Z.eqb_neq _ _) Hne). destruct (needed_blocks_spec _ _ Hbs Hv) as [N1 N2].
  destruct (found_run _ _ _ _ fb _ Hst Hum Hfb N1 Hfit Hfree) as [Hin Hapart].
  rewrite (with_item_ok _ _ _ _ Hit). set (c1 := c<|items := <[i:=it<|i_first_block := fb|>]> c.(items)|>). cbn [obind].
  destruct (take_blocks_spec _ _ _ _ fb vallen c1 Hst Hum eq_refl Hv Hfb Hin) as (b & p & -> & Hb1 & Hb2 & Hp & Hb3).
  set (c2 := c1<|bitmap := b|><|bitmap_pos := p|>). cbn [obind]. change (bitmap c2) with b.
  destruct (io_used _ _ _ (so_items _ _ _ _ _ Hst _ _ Hit) Hks) as (_ & Hvs & Hf0 & Hofit & _).
  destruct (so_bitmap _ _ _ _ _ Hst Hum) as [B1 B2 B3 B4].
  destruct (unmark_blocks_spec b (uc_blocksize g) (i_first_block it) (i_valsize it)) as (b' & -> & Hl' & Hb' & Hu');
    [done | done | done | done | unfold item_blocks in Hofit; lia | lia |].
  cbn [obind]. exists true. eexists. split; [reflexivity|]. exists fb, b', p.
  split_and!; [reflexivity | done | done | intros j jt k Hj _; by apply (Hapart j) | done | lia | lia | lia |].
  intros k Hk. rewrite Hu', Hb3, andb_true_iff, orb_true_iff, negb_true_iff, B4 by lia. fold (item_blocks g it). split.
  - intros [[[?|(j & jt & Hj & Hrun)]|Hrun] Hnot]; [by right; left | right; right | by left].
    exists j, jt. split_and!; [|done|done]. intros ->. destruct Hj as [Hj _]. rewrite Hit in Hj. injection Hj as <-. congruence.
  - intros [Hrun|[Hge|(j & jt & Hnej & Hj & Hrun)]].
    + split; [by right|]. destruct (in_run (i_first_block it) (item_blocks g it) k) eqn:E; [|done].
      by rewrite (Hapart _ _ _ Hu E) in Hrun.
    + split; [by left; left|]. unfold in_run. destruct (Z.ltb_spec k (i_first_block it + item_blocks g it)); [lia|]. by rewrite andb_false_r.
    + split; [left; right; eauto|]. destruct (in_run (i_first_block it) (item_blocks g it) k) eqn:E; [|done].
      exfalso. apply Hnej. by eapply (so_runs _ _ _ _ _ Hst j i jt it k).
Qed.

(** The expiration of an updated item, and the list by last use. *)
Definition updated_expires (now expires flags : Z) (e : entry) : Z :=
  if has flags FLAG_FIXEXPIRE then e.(e_expires) else stored_expires now expires flags.
Definition lru_updated (flags i : Z) (lru : list Z) : list Z :=
  if has flags FLAG_FIXEXPIRE then lru else lru_use g i lru.

Lemma update_expires now ch lru fs c i it key expires flags :
  cache_inv g ch lru fs c -> in_use c.(items) i it -> cview g c !! i = Some (key, item_entry g c.(cdata) it) ->
  exists e c1 it1, (if negb (has flags FLAG_FIXEXPIRE) then
      let* (expires, c) := if g.(uc_purge_lru) then let* c := lru_touch g i c in Ret (expires, c)
                           else Ret (relative_expire now expires flags c) in
      let* c := with_item i (fun uci => uci<|i_expires := expires|>) c in Ret (expires, c)
    else Ret (expires, c)) = Ret (e, c1) /\
    cache_inv g ch (lru_updated flags i lru) fs c1 /\ in_use c1.(items) i it1 /\ c1.(cdata) = c.(cdata) /\
    item_key it1 = key /\
    item_entry g c.(cdata) it1 = mk_entry (e_val (item_entry g c.(cdata) it)) (updated_expires now expires flags (item_entry g c.(cdata) it)) it.(i_flags) it.(i_hits) /\
    cview g c1 = <[i:=(key, item_entry g c.(cdata) it1)]> (cview g c).
Proof.
  intros Hinv Hu Hv. assert (item_key it = key) as Ek.
  { apply view_lookup in Hv as (it0 & Hu0 & -> & _). destruct Hu, Hu0. congruence. }
  unfold updated_expires, lru_updated. destruct (has flags FLAG_FIXEXPIRE); cbn [negb].
  { exists expires, c, it. split_and!; try done. by rewrite insert_id. }
  assert (exists c0 it0, (if g.(uc_purge_lru) then let* c := lru_touch g i c in Ret (expires, c) else Ret (relative_expire now expires flags c))
     = Ret (stored_expires now expires flags, c0) /\ cache_inv g ch (lru_use g i lru) fs c0 /\ in_use c0.(items) i it0 /\
     c0.(cdata) = c.(cdata) /\ core it = core it0 /\ cview g c0 = cview g c) as (c0 & it0 & -> & Hinv0 & Hu0 & Hd0 & Ec & Hv0).
  { unfold lru_use. destruct (uc_purge_lru g) eqn:Ep.
    - destruct (lru_touch_spec g _ _ _ _ _ _ _ Hinv Hv) as (its & h & t & -> & Hinv0 & Hn).
      unfold lru_use in Hinv0. rewrite Ep in Hinv0.
      set (c0 := c<|items := its|><|lru_head := h|><|lru_tail := t|>) in *. cbn [obind].
      destruct (in_use_core (items c) its i it) as (it0 & Hu0 & Ec); [by symmetry; apply core_of_nolru | done |].
      exists c0, it0. unfold stored_expires. rewrite Ep. split_and!; try done.
      apply (view_core g _ its (items c)). by apply core_of_nolru.
    - destruct (relative_expire_spec now expires flags c Ep) as (n & ->). exists (c<|next_scan := n|>), it.
      split_and!; try done. destruct Hinv as [? ? ? ? ?]. by split. }
  cbn [obind]. set (e := stored_expires now expires flags).
  destruct (inv_relabel g _ _ _ _ i it0 (fun uci => uci<|i_expires := e|>) Hinv0 Hu0) as (c1 & -> & -> & Hinv1 & Hv1); [by destruct it0 .. |].
  set (it1 := it0<|i_expires := e|>) in *. cbn [obind]. eexists e, _, it1. split; [reflexivity|].
  assert (item_key it0 = item_key it /\ item_key it1 = item_key it /\
    item_entry g (cdata c) it1 = mk_entry (e_val (item_entry g (cdata c) it)) e (i_flags it) (i_hits it) /\ 0 < i_keysize it1)
    as (Ek0 & Ek1 & Ee & Hk1).
  { destruct Hu as [_ Hu]. destruct it, it0. unfold core, nochain, nolru, setter in Ec. cbn in Ec. by injection Ec as -> -> -> -> -> -> -> ->. }
  rewrite Hd0, Hv0, Ek0, Ek in Hv1. split_and!; try done; [|congruence]. split; [apply lookup_insert_eq | done].
Qed.

(** The end of an update: the value is stored at the blocks of the item. *)
Lemma update_value ch lru fs c i it val fb b p flags :
  cache_inv g ch lru fs c -> in_use c.(items) i it -> 0 < zlen val -> math_safe flags val ->
  0 <= fb -> fb + needed_blocks (uc_blocksize g) (zlen val) <= uc_blocks g ->
  (g.(uc_use_bitmap) = false -> fb = i /\ needed_blocks (uc_blocksize g) (zlen val) = 1) ->
  (forall j jt k, in_use c.(items) j jt -> j <> i -> in_run jt.(i_first_block) (item_blocks g jt) k = true ->
     in_run fb (needed_blocks (uc_blocksize g) (zlen val)) k = false) ->
  (g.(uc_use_bitmap) = true -> bytes_ok b /\ zlen b = zlen c.(bitmap) /\ 0 <= p < g.(uc_blocks) /\
     forall k, 0 <= k < 8 * zlen c.(bitmap) ->
       (used b k = true <-> in_run fb (needed_blocks (uc_blocksize g) (zlen val)) k = true \/ g.(uc_blocks) <= k \/
          exists j jt, j <> i /\ in_use c.(items) j jt /\ in_run jt.(i_first_block) (item_blocks g jt) k = true)) ->
  exists c' x, (let* uci := cache_item i (c<|items := <[i:=it<|i_first_block := fb|>]> c.(items)|><|bitmap := b|><|bitmap_pos := p|>) in
      let* c := store_value g uci.(i_first_block) val flags None
        (c<|items := <[i:=it<|i_first_block := fb|>]> c.(items)|><|bitmap := b|><|bitmap_pos := p|>) in
      with_item i (fun uci => uci<|i_valsize := zlen val|>) c) = Ret c' /\
    cache_inv g ch lru fs c' /\ stores flags val (int64_of (ztake 8 (zdrop (fb * uc_blocksize g) c.(cdata)))) x /\
    cview g c' = <[i:=(item_key it, mk_entry x it.(i_expires) it.(i_flags) it.(i_hits))]> (cview g c).
Proof.
  intros Hinv Hu Hv Hm Hfb Hfit Hnob Hapart Hbm. pose proof Hinv as [Hst _ _ _ _]. destruct size_bounds as (Hbs & _ & _).
  destruct (needed_blocks_spec _ _ Hbs Hv) as [N1 N2].
  set (c1 := c<|items := <[i:=it<|i_first_block := fb|>]> c.(items)|><|bitmap := b|><|bitmap_pos := p|>).
  rewrite (cache_item_ok _ (it<|i_first_block := fb|>) c1) by apply lookup_insert_eq. cbn [obind].
  change (i_first_block (it<|i_first_block := fb|>)) with fb.
  destruct (store_value_spec g fb val flags None c1) as (x & d' & -> & Ed & Hx & Hsx);
    [nia | change (cdata c1) with (cdata c); rewrite (so_data _ _ _ _ _ Hst); nia | done |].
  destruct (update_store _ _ _ _ _ _ _ _ _ _ _ _ Hinv Hu Hv Hx Hfb Hfit Hnob Hapart Hbm Ed) as [Hinv' Hv'].
  cbn [obind]. rewrite (with_item_ok _ _ (it<|i_first_block := fb|>)) by apply lookup_insert_eq.
  eexists _, x. split; [|split_and!; [exact Hinv' | exact Hsx | exact Hv']]. f_equal. destruct c. unfold c1, setter. cbn. by rewrite insert_insert_eq.
Qed.

Lemma set_update_spec now lru c i it key val expires flags :
  inv g lru c -> in_use c.(items) i it -> cview g c !! i = Some (key, item_entry g c.(cdata) it) ->
  0 < zlen val <= uc_max_item_size g -> math_safe flags val ->
  let e0 := item_entry g c.(cdata) it in
  exists r c', set_update g now i val expires flags c = Ret (r, c') /\
    match r with
    | Some _ => inv g (lru_updated flags i lru) c' /\ exists x old, stores flags val old x /\
        (g.(uc_use_bitmap) = false -> zlen (e_val e0) = 8 -> old = int64_of (e_val e0)) /\
        cview g c' = <[i:=(key, mk_entry x (updated_expires now expires flags e0) (e_flags e0) (e_hits e0))]> (cview g c)
    | None => g.(uc_use_bitmap) = true /\ (exists lru', inv g lru' c') /\
        cview g c' ⊆ <[i:=(key, mk_entry (e_val e0) (updated_expires now expires flags e0) (e_flags e0) (e_hits e0))]> (cview g c)
    end.
Proof.
  intros (ch & fs & Hinv) Hu Hvi Hv Hm e0. destruct size_bounds as (Hbs & _ & _).
  destruct (update_expires now _ _ _ _ _ _ _ expires flags Hinv Hu Hvi) as (e & c1 & it1 & E & Hinv1 & Hu1 & Hd1 & Ek1 & Ee1 & Hv1).
  unfold set_update. rewrite E. clear E. cbn [obind].
  assert (i_expires it1 = updated_expires now expires flags e0 /\ i_flags it1 = i_flags it /\ i_hits it1 = i_hits it) as (X1 & X2 & X3).
  { unfold item_entry in Ee1 at 1. by injection Ee1. }
  destruct (uc_use_bitmap g) eqn:Hum.
  - destruct (move_blocks_spec now _ _ _ _ _ _ (zlen val) Hinv1 Hu1 Hum) as (ok & c2 & -> & H2); [lia|]. cbn [obind]. destruct ok; cbn [negb].
    + destruct H2 as (fb & b & p & -> & Hfb & Hfit & Hapart & Hb).
      destruct (update_value _ _ _ _ _ _ val fb b p flags Hinv1 Hu1 ltac:(lia) Hm Hfb Hfit) as (c3 & x & E3 & Hinv3 & Hsx & Hv3); [congruence | done | done |].
      exists (Some e), c3. split.
      * apply obind_Ret_inv in E3 as (uci & -> & E3). cbn [obind]. apply obind_Ret_inv in E3 as (c4 & -> & E3). cbn [obind].
        rewrite E3. done.
      * split; [by exists ch, fs|]. eexists x, _. split_and!; [exact Hsx | done |]. rewrite Hv3, Hv1, Ek1, insert_insert_eq, X1, X2, X3. done.
    + destruct H2 as (l & Hl & Hsub). exists None, c2. split; [done|]. split_and!; [done | eauto |].
      rewrite Hv1, Ee1 in Hsub. exact Hsub.
  - cbn [obind negb].
    destruct Hu1 as [Hit1 Hk1]. pose proof Hinv1 as [Hst1 _ _ _ _].
    destruct (io_used _ _ _ (so_items _ _ _ _ _ Hst1 _ _ Hit1) Hk1) as (_ & _ & Hf0 & Hfit & Hnob). destruct (Hnob Hum) as [Hfi Hone].
    pose proof (co_max_size _ Hg) as Hms. rewrite Hum in Hms.
    assert (needed_blocks (uc_blocksize g) (zlen val) = 1) as Hn1 by (apply needed_one; lia).
    destruct (update_value _ _ _ _ _ _ val (i_first_block it1) (bitmap c1) (bitmap_pos c1) flags Hinv1 (conj Hit1 Hk1) ltac:(lia) Hm Hf0)
      as (c3 & x & E3 & Hinv3 & Hsx & Hv3); [lia | by rewrite Hn1 | | congruence |].
    { intros j jt k Hj Hne Hrun. rewrite Hn1, <- Hone. destruct (in_run (i_first_block it1) (item_blocks g it1) k) eqn:Er; [|done].
      exfalso. apply Hne. by eapply (so_runs _ _ _ _ _ Hst1 j i jt it1 k). }
    assert (c1<|items := <[i:=it1<|i_first_block := i_first_block it1|>]> c1.(items)|><|bitmap := bitmap c1|><|bitmap_pos := bitmap_pos c1|> = c1) as Eid.
    { assert (it1<|i_first_block := i_first_block it1|> = it1) as -> by by destruct it1. rewrite insert_id by done. by destruct c1. }
    rewrite Eid in E3. apply obind_Ret_inv in E3 as (uci & -> & E3). cbn [obind]. apply obind_Ret_inv in E3 as (c4 & -> & E3). cbn [obind].
    rewrite E3. exists (Some e), c3. split; [done|]. split; [by exists ch, fs|]. eexists x, _. split_and!; [exact Hsx | |].
    + intros _ H8. rewrite Hd1. f_equal. unfold item_entry in Ee1. injection Ee1 as Hval _ _ _. fold (item_entry g (cdata c) it) in H8.
      assert (zlen (ztake (i_valsize it1) (zdrop (i_first_block it1 * uc_blocksize g) (cdata c))) = i_valsize it1) as Hz.
      { destruct (io_used _ _ _ (so_items _ _ _ _ _ Hst1 _ _ Hit1) Hk1) as (_ & Hvs & _).
        destruct (needed_blocks_spec (uc_blocksize g) (i_valsize it1)) as [? ?]; [lia | lia |]. unfold item_blocks in *.
        pose proof (so_data _ _ _ _ _ Hst1). rewrite Hd1 in *. apply zlen_take. rewrite zlen_drop by nia. nia. }
      unfold e0, item_entry in H8. cbn in H8. rewrite <- Hval, Hz in H8. unfold e0, item_entry. cbn. rewrite <- Hval. by rewrite H8.
    + rewrite Hv3, Hv1, Ek1, insert_insert_eq, X1, X2, X3. done.
Qed.

End with_conf.
End CacheSet.
