(* ===== verification/CacheProofs.v ===== *)
(** The shared memory cache implements a map from keys to entries: the
    abstract map, what each operation does to it, and the order of eviction. *)
From S2P Require Import Prelude Clib Buffer Packet Protocol Hash Bitmap Cache CacheLinks CacheInv CacheSteps CacheOps CacheWrite CacheFull CacheSet.

Module CacheProofs.
Import Bitmap Cache CacheLinks CacheInv CacheSteps CacheOps CacheWrite CacheFull CacheSet.

(** * The abstract cache *)

(** The entry of a key that has not expired on access. *)
Definition live (g : cache_conf) (now : Z) (m : gmap (list Z) entry) (key : list Z) : option entry :=
  match m !! key with Some e => if expired g now e then None else Some e | None => None end.

(** The map after an access to the key: an expired entry is gone. *)
Definition settle (g : cache_conf) (now : Z) (key : list Z) (m : gmap (list Z) entry) : gmap (list Z) entry :=
  match live g now m key with Some _ => m | None => delete key m end.

Definition gettable (e : entry) : bool := negb (has e.(e_flags) FLAG_UNGETTABLE).

Lemma live_absent g now m key : m !! key = None -> live g now m key = None /\ settle g now key m = m.
Proof. intros H. unfold settle, live. rewrite H. split; [done|]. by apply delete_id. Qed.

Lemma settle_lookup g now key m : settle g now key m !! key = live g now m key.
Proof. unfold settle, live. destruct (m !! key) as [e|] eqn:E; [destruct (expired g now e); [apply lookup_delete_eq | done] | apply lookup_delete_eq]. Qed.

Lemma settle_ne g now key m k : k <> key -> settle g now key m !! k = m !! k.
Proof. intros H. unfold settle. destruct (live g now m key); [done|]. by apply lookup_delete_ne. Qed.

Section with_conf.
Context (g : cache_conf) (Hg : conf_ok g).

Lemma abs_lookup lru c k e : inv g lru c -> abs g c !! k = Some e <-> exists i, cview g c !! i = Some (k, e).
Proof. intros Hi. apply abs_of_lookup. by eapply inv_keys. Qed.

Lemma abs_absent lru c k : inv g lru c -> (forall i e, cview g c !! i <> Some (k, e)) -> abs g c !! k = None.
Proof. intros Hi H. apply abs_of_None; [by eapply inv_keys | done]. Qed.

(** The search, on the abstract map. *)
Lemma get_index_abs now key lru c :
  inv g lru c ->
  exists i c' lru', upsgi_cache_get_index g now key c = Ret (i, c') /\ inv g lru' c' /\
    abs g c' = settle g now key (abs g c) /\
    match live g now (abs g c) key with
    | Some e => c' = c /\ lru' = lru /\ 1 <= i < uc_max_items g /\
        exists it, in_use c.(items) i it /\ e = item_entry g c.(cdata) it /\ cview g c !! i = Some (key, e)
    | None => i = 0 /\ forall j e, cview g c' !! j <> Some (key, e)
    end.
Proof.
  intros Hi. destruct (get_index_spec g Hg now key _ _ Hi)
    as [(i & it & e & -> & Hu & Hv & -> & Hx & Hr)|[(i & e & c' & -> & Hv & Hx & Hi' & Hv')|[-> Hno]]].
  - assert (abs g c !! key = Some (item_entry g (cdata c) it)) as Ha by (apply (abs_lookup _ _ _ _ Hi); eauto).
    assert (live g now (abs g c) key = Some (item_entry g (cdata c) it)) as Hl by (unfold live; by rewrite Ha, Hx).
    exists i, c, lru. rewrite Hl. unfold settle. rewrite Hl. split_and!; try done; try lia. eauto.
  - assert (abs g c !! key = Some e) as Ha by (apply (abs_lookup _ _ _ _ Hi); eauto).
    assert (live g now (abs g c) key = None) as Hl by (unfold live; by rewrite Ha, Hx).
    exists 0, c', (lru_del i lru). rewrite Hl. unfold settle. rewrite Hl. split_and!; try done.
    + unfold abs. rewrite Hv'. apply (abs_of_delete _ i key e); [by eapply inv_keys | done].
    + intros j e'. rewrite Hv', lookup_delete_Some. intros [Hne Hj]. apply Hne. by eapply (inv_keys g _ _ Hi).
  - pose proof (abs_absent _ _ _ Hi Hno) as Ha. destruct (live_absent g now _ _ Ha) as [Hl Hs].
    exists 0, c, lru. rewrite Hl, Hs. done.
Qed.

(** An entry that is replaced. *)
Lemma abs_replace lru c c' i key e e' :
  inv g lru c -> cview g c !! i = Some (key, e) -> cview g c' = <[i:=(key, e')]> (cview g c) ->
  abs g c' = <[key:=e']> (abs g c).
Proof.
  intros Hi Hv Hv'. unfold abs. rewrite Hv'. pose proof (inv_keys g _ _ Hi) as Hk. apply abs_of_insert; [done | eauto |].
  intros j x Hj. by eapply Hk.
Qed.

End with_conf.

(** * Lookup *)

Lemma get2_spec g now key lru c :
  conf_ok g -> inv g lru c ->
  exists r c' lru', upsgi_cache_get2 g now key c = Ret (r, c') /\ inv g lru' c' /\
    match live g now (abs g c) key with
    | Some e => if gettable e then r = Some (e_val e) /\ abs g c' = <[key:=hit e]> (abs g c)
                else r = None /\ abs g c' = abs g c
    | None => r = None /\ abs g c' = delete key (abs g c)
    end.
Proof.
  intros Hg Hi. unfold upsgi_cache_get2, upsgi_cache_get3.
  destruct (get_index_abs g Hg now key _ _ Hi) as (i & c1 & lru1 & -> & Hi1 & Ha & Hr). cbn [obind].
  unfold settle in Ha. destruct (live g now (abs g c) key) as [e|].
  - destruct Hr as (-> & -> & Hir & it & Hu & -> & Hv). rewrite (proj2 (Z.eqb_neq i 0)) by lia. cbn [negb].
    rewrite (cache_item_ok _ it) by apply Hu. cbn [obind]. unfold gettable. change (e_flags (item_entry g (cdata c) it)) with (i_flags it).
    destruct (has (i_flags it) FLAG_UNGETTABLE); cbn [negb].
    + exists None, c, lru. done.
    + destruct (get_hit g Hg _ _ _ _ _ Hi Hu Hv) as (c' & E & Hi' & Hv' & Hval).
      apply obind_Ret_inv in E as (c2 & -> & E). cbn [obind]. rewrite E. cbn [obind]. rewrite Hval. cbn [obind fmap option_fmap option_map fst].
      exists (Some (e_val (item_entry g (cdata c) it))), c', (lru_use g i lru). split_and!; [done | done | done |].
      by eapply abs_replace.
  - destruct Hr as [-> _]. exists None, (count_miss c1), lru1. split_and!; [done | | done |].
    + destruct Hi1 as (ch & fs & [? ? ? ? ?]). exists ch, fs. by split.
    + exact Ha.
Qed.


(** * Deletion *)

Lemma del2_spec g now key flags lru c :
  conf_ok g -> inv g lru c ->
  exists r c' lru', upsgi_cache_del2 g now key 0 flags c = Ret (r, c') /\ inv g lru' c' /\
    abs g c' = delete key (abs g c) /\ r = match live g now (abs g c) key with Some _ => 0 | None => -1 end.
Proof.
  intros Hg Hi. unfold upsgi_cache_del2. cbn [Z.eqb].
  destruct (get_index_abs g Hg now key _ _ Hi) as (i & c1 & lru1 & -> & Hi1 & Ha & Hr). cbn [obind].
  unfold settle in Ha. destruct (live g now (abs g c) key) as [e|].
  - destruct Hr as (-> & -> & Hir & it & Hu & _ & Hv).
    destruct (del_index_spec g Hg now key flags _ _ _ Hi Hir) as (c' & -> & Hi' & Hv' & _).
    exists 0, c', (lru_del i lru). split_and!; [done | done | | done].
    unfold abs. rewrite Hv'. apply (abs_of_delete _ i key e); [by eapply inv_keys | done].
  - destruct Hr as [-> _]. exists (-1), c1, lru1. done.
Qed.


(** * Counting *)

Lemma size_abs_of V : keys_inj V -> size (abs_of V) = size V.
Proof.
  intros Hk. unfold abs_of. rewrite map_size_list_to_map.
  - rewrite length_fmap. apply length_map_to_list.
  - rewrite <- list_fmap_compose. apply NoDup_fmap_2_strong; [|apply NoDup_map_to_list].
    intros [i [k e]] [j [k' e']] Hi Hj E. cbn in E. subst k'. apply elem_of_map_to_list in Hi, Hj.
    assert (i = j) as -> by by eapply Hk. congruence.
Qed.

Lemma size_view g ch lru fs c : conf_ok g -> cache_inv g ch lru fs c -> Z.of_nat (size (cview g c)) = uc_max_items g - 1 - zlen fs.
Proof.
  intros Hg [_ _ Hsk _ _]. pose proof (co_items _ Hg).
  assert ((map_to_list (cview g c)).*1 ++ fs ≡ₚ seqZ 1 (uc_max_items g - 1)) as Hp.
  { assert (forall i, i ∈ (map_to_list (cview g c)).*1 <-> exists h, slots g (cview g c) !! i = Some h) as Hin.
    { intros i. rewrite list_elem_of_fmap. split.
      - intros ([j [k e]] & -> & Hj). apply elem_of_map_to_list in Hj. eexists. exact (slots_Some g _ _ _ _ Hj).
      - intros [h Hh]. apply slots_lookup in Hh as (k & e & Hv & _). exists (i, (k, e)). split; [done|]. by apply elem_of_map_to_list. }
    apply NoDup_Permutation.
    - apply NoDup_app. split_and!; [apply NoDup_fst_map_to_list | | apply (sk_nodup _ _ _ _ _ Hsk)].
      intros i Hi Hf. apply Hin in Hi as [h Hh]. apply (sk_member _ _ _ _ _ Hsk) in Hf as [_ Hf]. congruence.
    - apply NoDup_seqZ.
    - intros i. rewrite elem_of_app, Hin, elem_of_seqZ, (sk_member _ _ _ _ _ Hsk). split.
      + intros [[h Hh]|[? _]]; [|lia]. apply (sk_slots _ _ _ _ _ Hsk) in Hh. lia.
      + intros Hi. destruct (slots g (cview g c) !! i) as [h|] eqn:E; [left; eauto | right; split; [lia | done]]. }
  apply Permutation_length in Hp. rewrite length_app, length_fmap, length_map_to_list, length_seqZ in Hp.
  unfold zlen. lia.
Qed.

(** The counter [n_items] is the number of entries. *)
Lemma n_items_size g lru c : conf_ok g -> inv g lru c -> c.(n_items) = Z.of_nat (size (abs g c)).
Proof.
  intros Hg Hi. unfold abs. rewrite size_abs_of by by eapply inv_keys. destruct Hi as (ch & fs & Hinv).
  rewrite (size_view _ _ _ _ _ Hg Hinv). apply (ci_count _ _ _ _ _ Hinv).
Qed.

Lemma stack_size g lru c : conf_ok g -> inv g lru c -> c.(stack_ptr) = uc_max_items g - 1 - Z.of_nat (size (abs g c)).
Proof.
  intros Hg Hi. unfold abs. rewrite size_abs_of by by eapply inv_keys. destruct Hi as (ch & fs & Hinv).
  rewrite (size_view _ _ _ _ _ Hg Hinv), (sk_ptr _ _ _ _ _ (ci_stack _ _ _ _ _ Hinv)). lia.
Qed.

(** * Writing *)

(** The guards at the start of [upsgi_cache_set2]. *)
Definition args_ok (g : cache_conf) (key val : list Z) (flags : Z) : bool :=
  (0 <? zlen key) && (zlen key <=? uc_keysize g) && (0 <? zlen val) && (zlen val <=? uc_max_item_size g) &&
  (negb (has flags FLAG_MATH) || (zlen val =? 8)).

Lemma args_ok_guards g key val flags :
  args_ok g key val flags = true ->
  (zlen key =? 0) || (zlen val =? 0) = false /\ (uc_keysize g <? zlen key) = false /\
  (uc_max_item_size g <? zlen val) = false /\ has flags FLAG_MATH && negb (zlen val =? 8) = false /\
  0 < zlen key <= uc_keysize g /\ 0 < zlen val <= uc_max_item_size g.
Proof.
  intros Ea. unfold args_ok in Ea. rewrite !andb_true_iff in Ea. destruct Ea as ((((E1 & E2) & E3) & E4) & E5).
  apply Z.ltb_lt in E1, E3. apply Z.leb_le in E2, E4.
  rewrite (proj2 (Z.eqb_neq (zlen key) 0)), (proj2 (Z.eqb_neq (zlen val) 0)), (proj2 (Z.ltb_ge _ _)), (proj2 (Z.ltb_ge _ _)) by lia.
  split_and!; try done; try lia. destruct (has flags FLAG_MATH), (zlen val =? 8); done.
Qed.

Lemma set_done_inv g lru now key val e flags r c :
  inv g lru c -> exists c', set_done g now key val e flags r c = (r, c') /\ inv g lru c' /\ cview g c' = cview g c.
Proof.
  intros (ch & fs & [? ? ? ? ?]). unfold set_done. eexists. split; [reflexivity|].
  destruct (uc_use_last_modified g), (uc_nodes g && (r =? 0) && negb (has flags FLAG_LOCAL));
    (split; [exists ch, fs; by split | done]).
Qed.

(** The result of a call: what it may do to the abstract map. *)
Definition set_result (g : cache_conf) (now : Z) (key val : list Z) (expires flags : Z) (m m' : gmap (list Z) entry) (r : Z) : Prop :=
  match live g now m key with
  | Some e =>
      if has flags FLAG_UPDATE then
        (r = 0 /\ exists x old, stores flags val old x /\
           (g.(uc_use_bitmap) = false -> zlen (e_val e) = 8 -> old = int64_of (e_val e)) /\
           m' = <[key:=mk_entry x (updated_expires g now expires flags e) (e_flags e) (e_hits e)]> m) \/
        (r = -1 /\ g.(uc_use_bitmap) = true /\
           m' ⊆ <[key:=mk_entry (e_val e) (updated_expires g now expires flags e) (e_flags e) (e_hits e)]> m)
      else r = -1 /\ m' = m
  | None =>
      let m0 := delete key m in
      let room := Z.of_nat (size m0) < uc_max_items g - 1 in
      (r = 0 /\ exists x m1, stores flags val (i64 (uc_math_initial g)) x /\ m1 ⊆ m0 /\ (room -> m1 = m0) /\
         m' = <[key:=mk_entry x (stored_expires g now expires flags) flags 0]> m1) \/
      (r = -1 /\ m' ⊆ m0 /\ (g.(uc_use_bitmap) = true \/ (~ room /\ (evicts_oldest g -> uc_max_items g = 1))))
  end.

Lemma abs_of_subseteq V1 V2 : keys_inj V2 -> V1 ⊆ V2 -> abs_of V1 ⊆ abs_of V2.
Proof.
  intros Hk Hs. assert (keys_inj V1) as Hk1.
  { intros i j k e e' Hi Hj. eapply Hk; by eapply lookup_weaken. }
  apply map_subseteq_spec. intros k e He. apply abs_of_lookup in He as [i Hi]; [|done].
  apply abs_of_lookup; [done|]. exists i. by eapply lookup_weaken.
Qed.

Section writing.
Context (g : cache_conf) (Hg : conf_ok g).

Lemma set_new_abs now lru c key val expires flags :
  inv g lru c -> insertable g key val c -> math_safe flags val ->
  exists r c' lru', (let* (r, c) := set_new g now key val expires flags c in
      match r with Some expires => Ret (set_done g now key val expires flags 0 c) | None => Ret (-1, c) end) = Ret (r, c') /\ inv g lru' c' /\
    let room := Z.of_nat (size (abs g c)) < uc_max_items g - 1 in
    ((r = 0 /\ exists x m1, stores flags val (i64 (uc_math_initial g)) x /\ m1 ⊆ abs g c /\ (room -> m1 = abs g c) /\
         abs g c' = <[key:=mk_entry x (stored_expires g now expires flags) flags 0]> m1) \/
      (r = -1 /\ abs g c' ⊆ abs g c /\ (g.(uc_use_bitmap) = true \/ (~ room /\ (evicts_oldest g -> uc_max_items g = 1))))).
Proof.
  intros Hi Hins Hm. pose proof (inv_keys g _ _ Hi) as Hk. pose proof (stack_size g _ _ Hg Hi) as Hsz.
  destruct (set_new_spec g Hg now _ _ _ _ expires flags Hi Hins Hm) as (r & c1 & -> & Hr). cbn [obind]. destruct r as [e|].
  - destruct Hr as (-> & i & V1 & lru1 & x & Hsub & Hvi & Hi1 & Hsx & Hv1 & Hroom & _).
    destruct (set_done_inv g _ now key val (stored_expires g now expires flags) flags 0 c1 Hi1) as (c' & -> & Hi' & Hv').
    exists 0, c', (lru_new g i lru1). split_and!; [done | done |]. left. split; [done|]. exists x, (abs_of V1).
    split_and!; [done | by apply abs_of_subseteq | |].
    + intros Hr. destruct Hroom as [-> _]; [lia | done].
    + unfold abs. rewrite Hv', Hv1. apply abs_of_insert; [|by left|].
      * intros a b k e e' Ha Hb. eapply Hk; by eapply lookup_weaken.
      * intros j e Hj. exfalso. eapply (in_fresh _ _ _ _ Hins j e). by eapply lookup_weaken.
  - destruct Hr as (l & Hl & Hsub & Hno). exists (-1), c1, l. split_and!; [done | done |]. right. split_and!; [done | |].
    + by apply abs_of_subseteq.
    + destruct Hno as [?|[Hz ?]]; [by left|]. right. split; [lia | done].
Qed.

Lemma set_update_abs now lru c i it key val expires flags :
  inv g lru c -> in_use c.(items) i it -> cview g c !! i = Some (key, item_entry g c.(cdata) it) ->
  0 < zlen val <= uc_max_item_size g -> math_safe flags val ->
  let e := item_entry g c.(cdata) it in
  exists r c' lru', (let* (r, c) := set_update g now i val expires flags c in
      match r with Some expires => Ret (set_done g now key val expires flags 0 c) | None => Ret (-1, c) end) = Ret (r, c') /\ inv g lru' c' /\
    ((r = 0 /\ exists x old, stores flags val old x /\
           (g.(uc_use_bitmap) = false -> zlen (e_val e) = 8 -> old = int64_of (e_val e)) /\
           abs g c' = <[key:=mk_entry x (updated_expires g now expires flags e) (e_flags e) (e_hits e)]> (abs g c)) \/
        (r = -1 /\ g.(uc_use_bitmap) = true /\
           abs g c' ⊆ <[key:=mk_entry (e_val e) (updated_expires g now expires flags e) (e_flags e) (e_hits e)]> (abs g c))).
Proof.
  intros Hi Hu Hv Hval Hm e. pose proof (inv_keys g _ _ Hi) as Hk.
  destruct (set_update_spec g Hg now _ _ _ _ _ _ expires flags Hi Hu Hv Hval Hm) as (r & c1 & -> & Hr). cbn [obind].
  destruct r as [e'|].
  - destruct Hr as (Hi1 & x & old & Hsx & Hold & Hv1).
    destruct (set_done_inv g _ now key val e' flags 0 c1 Hi1) as (c' & -> & Hi' & Hv').
    exists 0, c', (lru_updated g flags i lru). split_and!; [done | done |]. left. split; [done|]. exists x, old. split_and!; [done | done |].
    eapply abs_replace; [done | done |]. by rewrite Hv', Hv1.
  - destruct Hr as (Hb & [l Hl] & Hsub). exists (-1), c1, l. split_and!; [done | done |]. right. split_and!; [done | done |].
    unfold abs. etrans; [apply abs_of_subseteq; [|exact Hsub]|].
    + apply keys_inj_insert; [done|]. intros j x Hj. by eapply Hk.
    + rewrite (abs_of_insert _ _ _ _ Hk); [done | eauto |]. intros j x Hj. by eapply Hk.
Qed.

Lemma set2_spec now lru c key val expires flags :
  inv g lru c -> (args_ok g key val flags = true -> math_safe flags val) ->
  exists r c' lru', upsgi_cache_set2 g now key val expires flags c = Ret (r, c') /\ inv g lru' c' /\
    if args_ok g key val flags then set_result g now key val expires flags (abs g c) (abs g c') r else r = -1 /\ c' = c.
Proof.
  intros Hi Hsafe. unfold upsgi_cache_set2.
  destruct (args_ok g key val flags) eqn:Ea; cycle 1.
  { exists (-1), c, lru. split_and!; try done. zlen_facts. unfold args_ok in Ea.
    destruct (Z.eqb_spec (zlen key) 0); [done|]. destruct (Z.eqb_spec (zlen val) 0); [done|]. cbn [orb].
    destruct (Z.ltb_spec (uc_keysize g) (zlen key)); [done|]. destruct (Z.ltb_spec (uc_max_item_size g) (zlen val)); [done|].
    rewrite (proj2 (Z.ltb_lt 0 _)), (proj2 (Z.leb_le _ _)), (proj2 (Z.ltb_lt 0 _)), (proj2 (Z.leb_le _ _)) in Ea by lia. cbn [andb] in Ea.
    apply orb_false_iff in Ea as [E1 E2]. apply negb_false_iff in E1. by rewrite E1, E2. }
  specialize (Hsafe eq_refl). destruct (args_ok_guards g key val flags Ea) as (-> & -> & -> & -> & Hk & Hv).
  destruct (get_index_abs g Hg now key _ _ Hi) as (i & c1 & lru1 & -> & Hi1 & Ha & Hr). cbn [obind].
  unfold set_result. unfold settle in Ha. destruct (live g now (abs g c) key) as [e|].
  - destruct Hr as (-> & -> & Hir & it & Hu & -> & Hvi). rewrite (proj2 (Z.eqb_neq i 0)) by lia.
    destruct (has flags FLAG_UPDATE); [by apply (set_update_abs now lru c i it)|].
    destruct (set_done_inv g _ now key val expires flags (-1) c Hi) as (c' & -> & Hi' & Hv').
    exists (-1), c', lru. split_and!; try done. unfold abs. by rewrite Hv'.
  - destruct Hr as [-> Hno]. cbn [Z.eqb]. rewrite <- Ha. apply set_new_abs with (lru := lru1); [done | | done]. by split.
Qed.

End writing.


(** * Eviction in the order of use *)

(** The keys with their entries, the one used least recently first. *)
Definition recency (g : cache_conf) (lru : list Z) (c : cache) : list (list Z * entry) := omap (fun i => cview g c !! i) lru.

Lemma omap_ext_in {A B} (f f' : A -> option B) (l : list A) : (forall x, x ∈ l -> f x = f' x) -> omap f l = omap f' l.
Proof.
  induction l as [|a l IH]; intros H; [done|]. cbn. rewrite (H a) by by left. rewrite IH; [done|]. intros x Hx. apply H. by right.
Qed.

Lemma lru_in_use g lru c i :
  inv g lru c -> g.(uc_purge_lru) = true -> i ∈ lru <-> exists k e, cview g c !! i = Some (k, e).
Proof.
  intros (ch & fs & [_ _ _ Hlru _]) Hp. rewrite (lr_member _ _ _ _ _ _ (Hlru Hp)). split.
  - intros [h Hh]. apply slots_lookup in Hh as (k & e & ? & _). eauto.
  - intros (k & e & Hv). rewrite (slots_Some g _ _ _ _ Hv). eauto.
Qed.

Lemma lru_nodup g lru c : inv g lru c -> g.(uc_purge_lru) = true -> NoDup lru.
Proof. intros (ch & fs & [_ _ _ Hlru _]) Hp. apply (lr_nodup _ _ _ _ _ _ (Hlru Hp)). Qed.

Lemma lru_evicts_spec g now key val expires flags lru c :
  conf_ok g -> evicts_oldest g -> g.(uc_use_bitmap) = false -> 1 < g.(uc_max_items) ->
  inv g lru c -> abs g c !! key = None -> Z.of_nat (size (abs g c)) = uc_max_items g - 1 ->
  args_ok g key val flags = true -> has flags FLAG_MATH = false ->
  exists c' lru', upsgi_cache_set2 g now key val expires flags c = Ret (0, c') /\ inv g lru' c' /\
    recency g lru' c' = tail (recency g lru c) ++ [(key, mk_entry val expires flags 0)].
Proof.
  intros Hg He Hb Hmax Hi Habs Hfull Ha Hm. pose proof He as (_ & _ & Hp). pose proof (stack_size g _ _ Hg Hi) as Hsz.
  unfold upsgi_cache_set2. destruct (args_ok_guards g key val flags Ha) as (-> & -> & -> & -> & Hk & Hv).
  destruct (get_index_abs g Hg now key _ _ Hi) as (i & c1 & lru1 & E & Hi1 & Ha1 & Hr).
  destruct (live_absent g now _ _ Habs) as [Hl Hs]. rewrite Hl in Hr. destruct Hr as [-> Hno].
  destruct (get_index_spec g Hg now key _ _ Hi) as [(i & it & e & _ & _ & Hx & _)|[(i & e & c2 & _ & Hx & _)|[E' Hno']]];
    [exfalso; assert (abs g c !! key = Some e) by (apply (abs_lookup _ _ _ _ _ Hi); eauto); congruence .. |].
  rewrite E'. cbn [obind Z.eqb].
  assert (insertable g key val c) as Hins by by split.
  destruct (set_new_spec g Hg now _ _ _ _ expires flags Hi Hins (math_safe_plain _ val Hm)) as (r & c2 & -> & Hr). cbn [obind].
  destruct r as [e|].
  - destruct Hr as (-> & j & V1 & lru2 & x & Hsub & Hvj & Hi2 & Hsx & Hv2 & _ & Hold).
    destruct (Hold ltac:(lia) He) as (o & -> & ->). unfold stores in Hsx. rewrite Hm in Hsx. subst x.
    unfold stored_expires in *. rewrite Hp in *. unfold lru_new in Hi2. rewrite Hp in Hi2.
    destruct (set_done_inv g _ now key val expires flags 0 c2 Hi2) as (c' & -> & Hi' & Hv').
    exists c', (lru2 ++ [j]). split_and!; [done | done |]. unfold recency. rewrite Hv', Hv2, omap_app. cbn. rewrite lookup_insert_eq.
    pose proof (lru_nodup g _ _ Hi Hp) as Hnd. apply NoDup_cons in Hnd as [Hno2 Hnd].
    destruct (proj1 (lru_in_use g _ _ o Hi Hp)) as (k0 & e0 & Ho); [by left|]. rewrite Ho. cbn. f_equal.
    apply omap_ext_in. intros y Hy. rewrite lookup_insert_ne, lookup_delete_ne; [done | by intros -> |].
    intros ->. destruct (proj1 (lru_in_use g _ _ y Hi Hp)) as (k1 & e1 & H1); [by right|].
    rewrite lookup_delete_ne in Hvj by (by intros ->). congruence.
  - destruct Hr as (_ & _ & _ & [?|[_ H1]]); [congruence|]. specialize (H1 He). lia.
Qed.

End CacheProofs.
