(* ===== verification/CacheReach.v ===== *)
(** The shared memory cache over time: its creation, the sweeper, and every
    sequence of operations from there. *)
From S2P Require Import Prelude Clib Buffer Packet Protocol Hash Bitmap Cache CacheLinks CacheInv CacheSteps CacheOps CacheWrite CacheFull CacheSet CacheProofs.

Module CacheReach.
Import Bitmap Cache CacheLinks CacheInv CacheSteps CacheOps CacheWrite CacheFull CacheSet CacheProofs.

(** * Creation *)

Lemma fill_lookup {A} n i (x : Z -> A) j :
  fill n i x !! j = if (i <=? j) && (j <? i + Z.of_nat n) then Some (x j) else None.
Proof.
  revert i. induction n as [|n IH]; intros i; cbn [fill].
  - rewrite lookup_empty. destruct (Z.leb_spec i j), (Z.ltb_spec j (i + Z.of_nat 0)); try done; lia.
  - destruct (decide (j = i)) as [->|Hne].
    + rewrite lookup_insert_eq. destruct (Z.leb_spec i i), (Z.ltb_spec i (i + Z.of_nat (S n))); try done; lia.
    + rewrite lookup_insert_ne, IH by done.
      destruct (Z.leb_spec (i + 1) j), (Z.ltb_spec j (i + 1 + Z.of_nat n)), (Z.leb_spec i j), (Z.ltb_spec j (i + Z.of_nat (S n)));
        try done; lia.
Qed.

Lemma calloc_lookup {A} n (x : Z -> A) j : calloc n x !! j = if (0 <=? j) && (j <? n) then Some (x j) else None.
Proof.
  unfold calloc. rewrite fill_lookup.
  destruct (Z.leb_spec 0 j), (Z.ltb_spec j (0 + Z.of_nat (Z.to_nat n))), (Z.ltb_spec j n); try done; lia.
Qed.

Lemma calloc_Some {A} n (x : Z -> A) j : 0 <= j < n -> calloc n x !! j = Some (x j).
Proof. intros H. rewrite calloc_lookup. destruct (Z.leb_spec 0 j), (Z.ltb_spec j n); try done; lia. Qed.

Lemma calloc_inv {A} n (x : Z -> A) j y : calloc n x !! j = Some y -> 0 <= j < n /\ y = x j.
Proof. rewrite calloc_lookup. destruct (Z.leb_spec 0 j), (Z.ltb_spec j n); try done. intros [= <-]. done. Qed.

Section with_conf.
Context (g : cache_conf) (Hg : conf_ok g).

Notation empty_items := (calloc (uc_max_items g) (fun _ => empty_item g)).

Lemma empty_not_used i it : ~ in_use empty_items i it.
Proof. intros [H1 H2]. apply calloc_inv in H1 as [_ ->]. cbn in H2. lia. Qed.

Lemma empty_view d : view g empty_items d = ∅.
Proof.
  apply map_eq. intros i. unfold view. rewrite lookup_omap, lookup_empty. destruct (empty_items !! i) as [it|] eqn:E; [|done].
  apply calloc_inv in E as [_ ->]. done.
Qed.

Lemma empty_slots i : slots g ∅ !! i = None.
Proof. unfold slots. by rewrite lookup_fmap, lookup_empty. Qed.

Lemma empty_store b d :
  (uc_use_bitmap g = true -> init_bitmap (uc_blocks g) = Ret b) -> zlen d = uc_blocks g * uc_blocksize g ->
  store_ok g empty_items b 0 d.
Proof.
  pose proof Hg as [H1 H2 H3 H4 H5 H6 H7]. intros Hb Hd. split.
  - intros i. split; [intros [it Hit]; apply calloc_inv in Hit; lia|]. intros Hi. eexists. by apply calloc_Some.
  - intros i it Hit. apply calloc_inv in Hit as [_ ->]. split; cbn; [|lia|lia]. unfold zrep, zlen. rewrite length_replicate. lia.
  - rewrite empty_view. intros i j k e e' H. by rewrite lookup_empty in H.
  - intros i j it jt k Hi. by apply empty_not_used in Hi.
  - intros Hu. destruct (init_bitmap_spec (uc_blocks g) ltac:(lia)) as (m & E & Hok & Hsz & Hbits).
    rewrite (Hb Hu) in E. injection E as <-. split; [done | done | lia |].
    intros k Hk. rewrite Hbits by done. rewrite Z.leb_le. split; [by left|]. intros [?|(i & it & Hi & _)]; [done|]. by apply empty_not_used in Hi.
  - done.
Qed.

(** A new cache is empty and satisfies the invariant. *)
Lemma init_inv : exists c, upsgi_cache_init g = Ret c /\ inv g [] c /\ abs g c = ∅.
Proof.
  pose proof Hg as [H1 H2 H3 H4 H5 H6 H7]. unfold upsgi_cache_init.
  assert (exists b, (if uc_use_bitmap g then init_bitmap (uc_blocks g) else Ret []) = Ret b /\
     (uc_use_bitmap g = true -> init_bitmap (uc_blocks g) = Ret b)) as (b & -> & Hb).
  { destruct (uc_use_bitmap g); [|by exists []]. destruct (init_bitmap_spec (uc_blocks g) ltac:(lia)) as (m & E & _). eauto. }
  cbn [obind]. eexists. split; [reflexivity|].
  assert (zlen (zrep (uc_blocks g * uc_blocksize g) 0) = uc_blocks g * uc_blocksize g) as Hd
    by (unfold zrep, zlen; rewrite length_replicate; nia).
  split; [|unfold abs, cview; cbn [items cdata]; by rewrite empty_view].
  exists (fun _ => []), (seqZ 1 (uc_max_items g - 1)). split; unfold cview; cbn [items hashtable unused_stack stack_ptr bitmap bitmap_pos cdata n_items lru_head lru_tail]; rewrite ?empty_view.
  - by apply empty_store.
  - split; [| done | constructor | |].
    + intros h Hh. by rewrite calloc_Some.
    + intros h i. by rewrite elem_of_nil, empty_slots.
    + intros i h. by rewrite empty_slots.
  - split.
    + unfold zlen. rewrite length_seqZ. lia.
    + intros k i Hk. apply lookup_seqZ in Hk as [-> Hk]. rewrite calloc_Some by lia. f_equal. lia.
    + intros k Hk. eexists. by apply calloc_Some.
    + apply NoDup_seqZ.
    + intros i. rewrite elem_of_seqZ, empty_slots. intuition lia.
    + intros i h. by rewrite empty_slots.
  - intros _. split; [done | apply NoDup_nil_2 | | done | done |]; intros i; rewrite elem_of_nil; [|done].
    rewrite empty_slots. split; [done | by intros []].
  - unfold zlen. rewrite length_seqZ. lia.
Qed.

(** * The sweeper *)

(** An entry that the sweeper removes at time [t]. *)
Definition overdue (t : Z) (e : entry) : bool := negb (e_expires e =? 0) && (e_expires e <=? t).

(** The next scan is not later than the expiration of any entry below [i] that stays. *)
Definition scheduled (V : contents) (t i ns : Z) : Prop :=
  forall j k e, j < i -> V !! j = Some (k, e) -> overdue t e = false -> e_expires e <> 0 -> ns <> 0 /\ ns <= e_expires e.

Definition sweep_state (V : contents) (t i : Z) (s : Z * cache) : Prop :=
  swept g V (overdue t) i s.2 /\ scheduled V t i (if i =? 1 then 0 else s.2.(next_scan)).

Lemma scheduled_skip V t i ns :
  scheduled V t i ns -> (forall k e, V !! i = Some (k, e) -> overdue t e = false -> e_expires e <> 0 -> ns <> 0 /\ ns <= e_expires e) ->
  scheduled V t (i + 1) ns.
Proof. intros H Hi j k e Hj. destruct (decide (j = i)) as [->|]; [apply Hi|]. apply H. lia. Qed.

Lemma swept_next_scan V p i c x : swept g V p i c -> swept g V p i (c<|next_scan := x|>).
Proof. intros [[lru (ch & fs & [? ? ? ? ?])] H]. split; [|exact H]. exists lru, ch, fs. by split. Qed.

Lemma sweep_one_spec V t i s :
  1 <= i < uc_max_items g -> sweep_state V t i s -> exists s', sweep_one g t i s = Ret s' /\ sweep_state V t (i + 1) s'.
Proof.
  intros Hr [Hs Hn]. destruct s as [freed c]. unfold sweep_one. cbn [snd] in *. unfold sweep_state.
  rewrite (proj2 (Z.eqb_neq (i + 1) 1)) by lia.
  set (c0 := if i =? 1 then c<|next_scan := 0|> else c).
  assert (swept g V (overdue t) i c0) as H0 by (unfold c0; destruct (i =? 1); [by apply swept_next_scan | done]).
  assert (scheduled V t i (next_scan c0)) as Hn0 by (unfold c0; by destruct (i =? 1)).
  clearbody c0. clear Hs Hn c. pose proof H0 as [[l Hl] _]. destruct (index_item g c0 l i Hl Hr) as (it & Hit & _).
  rewrite (cache_item_ok _ _ _ Hit). cbn [obind].
  assert (forall k e, V !! i = Some (k, e) -> e_expires e = i_expires it) as Hex.
  { intros k e Hk. rewrite <- (swept_here _ _ _ _ _ H0) in Hk. by eapply expires_of. }
  assert (forall x, i_expires it = x -> overdue t (mk_entry [] x 0 0) = false ->
            forall k e, V !! i = Some (k, e) -> overdue t e = false) as Hov.
  { intros x Hx Ho k e Hk. unfold overdue in *. cbn in Ho. by rewrite (Hex k e Hk), Hx. }
  destruct (Z.eqb_spec (i_expires it) 0) as [E0|E0]; cbn [negb].
  { exists (freed, c0). split_and!; [done | |]; cbn [snd].
    - apply swept_skip; [done|]. by eapply (Hov 0).
    - apply scheduled_skip; [done|]. intros k e Hk. rewrite (Hex k e Hk). done. }
  destruct (Z.leb_spec (i_expires it) t) as [Ht|Ht].
  - rewrite del2_index by lia.
    assert (forall k e, V !! i = Some (k, e) -> overdue t e = true) as Hyes.
    { intros k e Hk. unfold overdue. rewrite (Hex k e Hk), (proj2 (Z.eqb_neq _ _)), (proj2 (Z.leb_le _ _)) by done. done. }
    destruct (swept_delete g Hg _ _ _ _ t [] FLAG_LOCAL H0 Hr Hyes) as (c' & -> & Hs' & Hns).
    exists (freed + 1, c'). split_and!; [done | done |]. cbn [snd]. rewrite Hns. apply scheduled_skip; [done|].
    intros k e Hk. by rewrite (Hyes k e Hk).
  - assert (forall k e, V !! i = Some (k, e) -> overdue t e = false) as Hno.
    { intros k e Hk. unfold overdue. rewrite (Hex k e Hk), (proj2 (Z.leb_gt _ _)) by done. apply andb_false_r. }
    destruct (Z.eqb_spec (next_scan c0) 0) as [N0|N0], (Z.ltb_spec (i_expires it) (next_scan c0)) as [N1|N1]; cbn [orb];
      eexists; (split_and!; [reflexivity | |]; cbn [snd]);
      try (apply swept_skip; [first [by apply swept_next_scan | done] | done]);
      (apply scheduled_skip; [|intros k e Hk _ _; cbn; rewrite (Hex k e Hk); lia]); cbn; try done;
      intros j k e Hj Hk Ho Hz; specialize (Hn0 j k e Hj Hk Ho Hz); lia.
Qed.

Lemma sweeper_spec t lru c :
  inv g lru c -> (uc_no_expire g || uc_purge_lru g || uc_lazy_expire g) = false -> c.(next_scan) <> 0 -> c.(next_scan) <= t ->
  exists n c', cache_sweeper_free_items g t c = Ret (n, c') /\ sweep_state (cview g c) t (uc_max_items g) (n, c').
Proof.
  intros Hi Hoff Hn0 Hnt. unfold cache_sweeper_free_items. rewrite Hoff, (proj2 (Z.eqb_neq _ _) Hn0), (proj2 (Z.ltb_ge _ _) Hnt). cbn [orb].
  destruct (each_item_inv g Hg (sweep_state (cview g c) t) (sweep_one g t) (0, c)) as ([n c'] & E & Hs); [| |eauto].
  - split; [by eapply swept_start|]. intros j k e Hj Hk. pose proof (view_range g _ _ _ _ _ Hi Hk). lia.
  - intros i s Hr. by apply sweep_one_spec.
Qed.

(** The contents after a loop that removes the entries that [p] selects. *)
Lemma swept_abs p lru c c' :
  inv g lru c -> swept g (cview g c) p (uc_max_items g) c' ->
  abs g c' = filter (fun ke => p ke.2 = false) (abs g c).
Proof.
  intros Hi Hs. pose proof Hs as [[lru' Hi'] _]. apply map_ext_some. intros k e.
  rewrite map_lookup_filter_Some, (abs_lookup g _ _ _ _ Hi), (abs_lookup g _ _ _ _ Hi'). cbn. split.
  - intros [j Hj]. apply (swept_end g _ _ _ _ _ _ Hs) in Hj as [Hj Hp]; eauto.
  - intros [[j Hj] Hp]. exists j. apply (swept_end g _ _ _ _ _ _ Hs); eauto.
Qed.

Lemma clear_spec now lru c :
  inv g lru c -> exists c' lru', upsgi_cache_clear g now c = Ret (0, c') /\ inv g lru' c' /\ abs g c' = ∅.
Proof.
  intros Hi. unfold upsgi_cache_clear.
  pose (P := fun (i : Z) (s : Z * cache) => s.1 = 0 /\ swept g (cview g c) (fun _ => true) i s.2).
  destruct (each_item_inv g Hg P (fun i '(ret, c) => if negb (ret =? 0) then Ret (ret, c) else upsgi_cache_del2 g now [] i 0 c) (0, c))
    as ([n c'] & -> & [Hn Hs]).
  - split; [done|]. by eapply swept_start.
  - intros i [r s] Hr [Hr0 Hp]. cbn in Hr0, Hp. subst r. cbn [Z.eqb negb]. rewrite del2_index by lia.
    destruct (swept_delete g Hg _ _ _ _ now [] 0 Hp Hr) as (s' & -> & ? & _); [done|]. eexists. split; [done|]. by split.
  - cbn in Hn, Hs. subst n. pose proof Hs as [[lru' Hi'] _]. exists c', lru'. split_and!; [done | done |].
    rewrite (swept_abs _ _ _ _ Hi Hs). apply map_empty. intros k. apply map_lookup_filter_None. right. by intros ? ? ?.
Qed.

(** ** Readers *)

Lemma inv_miss lru c : inv g lru c -> inv g lru (count_miss c).
Proof. intros (ch & fs & [? ? ? ? ?]). exists ch, fs. by split. Qed.

(** The value of an item, and its first block, are inside the data. *)
Lemma item_fits lru c i it :
  inv g lru c -> in_use c.(items) i it ->
  0 <= i_first_block it * uc_blocksize g /\ i_first_block it * uc_blocksize g + uc_blocksize g <= zlen c.(cdata) /\
  0 < i_valsize it /\ i_first_block it * uc_blocksize g + i_valsize it <= zlen c.(cdata).
Proof.
  intros (ch & fs & [Hst _ _ _ _]) [Hit Hus]. pose proof (co_blocksize _ Hg).
  destruct (io_used _ _ _ (so_items _ _ _ _ _ Hst _ _ Hit) Hus) as (_ & Hvs & Hfb & Hfit & _).
  destruct (needed_blocks_spec (uc_blocksize g) (i_valsize it)) as [? ?]; [lia | lia |].
  unfold item_blocks in Hfit. rewrite (so_data _ _ _ _ _ Hst). nia.
Qed.

(** A lookup that counts the hit and goes on to read the data. *)
Lemma lookup_hit now key lru c :
  inv g lru c ->
  exists i c1 lru1, upsgi_cache_get_index g now key c = Ret (i, c1) /\ inv g lru1 c1 /\
    (i <> 0 -> exists it c2, cache_item i c1 = Ret it /\ in_use c1.(items) i it /\ count_hit i c1 = Ret c2 /\
       inv g lru1 c2 /\ c2.(cdata) = c1.(cdata)).
Proof.
  intros Hi. destruct (get_index_abs g Hg now key _ _ Hi) as (i & c1 & lru1 & -> & Hi1 & _ & Hr). exists i, c1, lru1.
  split_and!; [done | done |]. intros H0. destruct (live g now (abs g c) key) as [e|]; [|by destruct Hr].
  destruct Hr as (-> & -> & Hir & it & Hu & _ & _). destruct Hi as (ch & fs & Hinv).
  destruct (count_hit_spec g _ _ _ _ _ _ Hinv Hu) as (c2 & E & Hi2 & Hd & _).
  exists it, c2. split_and!; try done; [apply cache_item_ok, Hu | by exists ch, fs].
Qed.

Lemma get4_inv now key lru c :
  inv g lru c -> exists r c' lru', upsgi_cache_get4 g now key c = Ret (r, c') /\ inv g lru' c'.
Proof.
  intros Hi. unfold upsgi_cache_get4. destruct (lookup_hit now key _ _ Hi) as (i & c1 & lru1 & -> & Hi1 & Hr). cbn [obind].
  destruct (Z.eqb_spec i 0) as [->|Hne]; cbn [negb]; [exists None, (count_miss c1), lru1; split; [done | by apply inv_miss]|].
  destruct (Hr Hne) as (it & c2 & -> & Hu & E2 & Hi2 & Hd). cbn [obind]. destruct (has (i_flags it) FLAG_UNGETTABLE); [by eauto 10|].
  rewrite E2. cbn [obind]. pose proof (item_fits _ _ _ _ Hi1 Hu). unfold item_value. rewrite Hd, mslice_ok by lia. cbn [obind]. eauto 10.
Qed.

Lemma num2_inv now key lru c :
  8 <= uc_blocksize g -> inv g lru c -> exists r c' lru', upsgi_cache_num2 g now key c = Ret (r, c') /\ inv g lru' c'.
Proof.
  intros Hb Hi. unfold upsgi_cache_num2. destruct (lookup_hit now key _ _ Hi) as (i & c1 & lru1 & -> & Hi1 & Hr). cbn [obind].
  destruct (Z.eqb_spec i 0) as [->|Hne]; cbn [negb]; [exists 0, (count_miss c1), lru1; split; [done | by apply inv_miss]|].
  destruct (Hr Hne) as (it & c2 & -> & Hu & E2 & Hi2 & Hd). cbn [obind]. destruct (has (i_flags it) FLAG_UNGETTABLE); [by eauto 10|].
  rewrite E2. cbn [obind]. pose proof (item_fits _ _ _ _ Hi1 Hu). unfold read_num. rewrite Hd, mslice_ok by lia. cbn [obind]. eauto 10.
Qed.

Lemma sweeper_inv t lru c :
  inv g lru c -> exists n c' lru', cache_sweeper_free_items g t c = Ret (n, c') /\ inv g lru' c'.
Proof.
  intros Hi. pose proof (sweeper_spec t lru c Hi) as Hs. unfold cache_sweeper_free_items in *.
  destruct (uc_no_expire g || uc_purge_lru g || uc_lazy_expire g); [by eauto 10|].
  destruct (Z.eqb_spec (next_scan c) 0); cbn [orb] in *; [by eauto 10|]. destruct (Z.ltb_spec t (next_scan c)); [by eauto 10|].
  destruct Hs as (k & c' & -> & [[Hl _] _]); [done .. |]. destruct Hl. eauto 10.
Qed.

End with_conf.

(** * Sequences of operations *)

Inductive op : Type :=
| Get (now : Z) (key : list Z)
| Get4 (now : Z) (key : list Z)
| Num (now : Z) (key : list Z)
| Exists (now : Z) (key : list Z)
| Del (now : Z) (key : list Z) (flags : Z)
| Set_ (now : Z) (key val : list Z) (expires flags : Z)
| Sweep (now : Z)
| Clear (now : Z).

(** What an operation does to the cache; its result is dropped. *)
Definition run_op (g : cache_conf) (o : op) (c : cache) : outcome cache :=
  match o with
  | Get now key => let* (_, c) := upsgi_cache_get2 g now key c in Ret c
  | Get4 now key => let* (_, c) := upsgi_cache_get4 g now key c in Ret c
  | Num now key => let* (_, c) := upsgi_cache_num2 g now key c in Ret c
  | Exists now key => let* (_, c) := upsgi_cache_exists2 g now key c in Ret c
  | Del now key flags => let* (_, c) := upsgi_cache_del2 g now key 0 flags c in Ret c
  | Set_ now key val expires flags => let* (_, c) := upsgi_cache_set2 g now key val expires flags c in Ret c
  | Sweep now => let* (_, c) := cache_sweeper_free_items g now c in Ret c
  | Clear now => let* (_, c) := upsgi_cache_clear g now c in Ret c
  end.

Fixpoint run_ops (g : cache_conf) (ops : list op) (c : cache) : outcome cache :=
  match ops with [] => Ret c | o :: ops => let* c := run_op g o c in run_ops g ops c end.

(** A number is read from a block of at least eight bytes, and no division
    traps. *)
Definition op_ok (g : cache_conf) (o : op) : Prop :=
  match o with
  | Num _ _ => 8 <= uc_blocksize g
  | Set_ _ key val _ flags => args_ok g key val flags = true -> math_safe flags val
  | _ => True
  end.

Lemma run_op_inv g o lru c :
  conf_ok g -> op_ok g o -> inv g lru c -> exists c' lru', run_op g o c = Ret c' /\ inv g lru' c'.
Proof.
  intros Hg Ho Hi. destruct o as [now key|now key|now key|now key|now key flags|now key val expires flags|now|now]; cbn [run_op op_ok] in *.
  - destruct (get2_spec g now key lru c Hg Hi) as (r & c' & lru' & -> & ? & _). eauto.
  - destruct (get4_inv g Hg now key lru c Hi) as (r & c' & lru' & -> & ?). eauto.
  - destruct (num2_inv g Hg now key lru c Ho Hi) as (r & c' & lru' & -> & ?). eauto.
  - unfold upsgi_cache_exists2. destruct (get_index_abs g Hg now key lru c Hi) as (i & c' & lru' & -> & ? & _). eauto.
  - destruct (del2_spec g now key flags lru c Hg Hi) as (r & c' & lru' & -> & ? & _). eauto.
  - destruct (set2_spec g Hg now lru c key val expires flags Hi Ho) as (r & c' & lru' & -> & ? & _). eauto.
  - destruct (sweeper_inv g Hg now lru c Hi) as (r & c' & lru' & -> & ?). eauto.
  - destruct (clear_spec g Hg now lru c Hi) as (c' & lru' & -> & ? & _). eauto.
Qed.

Lemma run_ops_inv g ops lru c :
  conf_ok g -> Forall (op_ok g) ops -> inv g lru c -> exists c' lru', run_ops g ops c = Ret c' /\ inv g lru' c'.
Proof.
  intros Hg Ho. revert lru c. induction Ho as [|o ops Ho _ IH]; intros lru c Hi; cbn [run_ops]; [eauto|].
  destruct (run_op_inv g o lru c Hg Ho Hi) as (c1 & lru1 & -> & Hi1). cbn [obind]. by eapply IH.
Qed.

End CacheReach.
