(* ===== verification/CacheFix.v ===== *)
(** Recovery of a cache from its backing store: [upsgi_cache_fix] rebuilds the
    hash table, the stack of unused items, the ends of the list by last use
    and the counters from the items alone. *)
From S2P Require Import Prelude Clib Buffer Packet Protocol Hash Bitmap Cache CacheLinks CacheInv CacheSteps CacheOps CacheWrite CacheFull CacheSet CacheProofs CacheReach.

Module CacheFix.
Import Bitmap Cache CacheLinks CacheInv CacheSteps CacheOps CacheWrite CacheFull CacheSet CacheProofs CacheReach.

(** * The ends of a list *)

Lemma dseg_prev_zero nx pv p l n i :
  dseg nx pv p l n -> (forall j, j ∈ l -> 0 < j) -> i ∈ l -> pv !! i = Some 0 -> 0 < p -> False.
Proof.
  revert p. induction l as [|j l IH]; intros p Hs Hpos Hin Hpv Hp; [by apply elem_of_nil in Hin|].
  destruct Hs as (H1 & H2 & H3). apply elem_of_cons in Hin as [->|Hin].
  - rewrite H1 in Hpv. injection Hpv. lia.
  - eapply (IH j); [done | | done | done | apply Hpos; by left]. intros x Hx. apply Hpos. by right.
Qed.

Lemma dseg_first nx pv l n i :
  dseg nx pv 0 l n -> (forall j, j ∈ l -> 0 < j) -> i ∈ l -> pv !! i = Some 0 <-> i = hd 0 l.
Proof.
  destruct l as [|j l]; intros Hs Hpos Hin; [by apply elem_of_nil in Hin|]. destruct Hs as (H1 & H2 & H3). cbn [hd].
  split; [|by intros ->]. intros Hpv. apply elem_of_cons in Hin as [->|Hin]; [done|]. exfalso.
  eapply (dseg_prev_zero nx pv j l n i); [done | | done | done | apply Hpos; by left]. intros x Hx. apply Hpos. by right.
Qed.

Lemma dseg_last nx pv p l i :
  dseg nx pv p l 0 -> NoDup l -> (forall j, j ∈ l -> 0 < j) -> i ∈ l -> nx !! i = Some 0 <-> i = last_or p l.
Proof.
  revert p. induction l as [|j l IH]; intros p Hs Hnd Hpos Hin; [by apply elem_of_nil in Hin|].
  destruct Hs as (H1 & H2 & H3). apply NoDup_cons in Hnd as [Hj Hnd]. rewrite last_or_cons.
  assert (forall x, x ∈ l -> 0 < x) as Hpos' by (intros x Hx; apply Hpos; by right).
  apply elem_of_cons in Hin as [->|Hin]; [|by apply IH]. rewrite H2. destruct l as [|k l]; cbn [hd].
  - done.
  - split; [intros [= E]; specialize (Hpos' k ltac:(by left)); lia|]. intros E. exfalso. apply Hj. rewrite E. by apply last_or_elem.
Qed.

Section with_conf.
Context (g : cache_conf) (Hg : conf_ok g).

(** The unused items below [i]. *)
Definition unused (its : gmap Z item) (i : Z) : list Z :=
  filter (fun j => (i_keysize <$> its !! j) = Some 0) (seqZ 1 (i - 1)).

(** What is built of a value that belongs at index [x] once the items below
    [i] have been seen. *)
Definition upto (i x : Z) : Z := if x <? i then x else 0.

Record fixed (ch : Z -> list Z) (lru : list Z) (c : cache) (i : Z) (s : Z * Z * cache) : Prop := {
  fx_items : s.2.(items) = c.(items);
  fx_data : s.2.(cdata) = c.(cdata);
  fx_table : forall h, 0 <= h < uc_hashsize g -> s.2.(hashtable) !! h = Some (upto i (hd 0 (ch h)));
  fx_ptr : s.2.(stack_ptr) = zlen (unused c.(items) i);
  fx_stack : forall k j, unused c.(items) i !! k = Some j -> s.2.(unused_stack) !! (Z.of_nat k + 1) = Some j;
  fx_dom : forall k, 0 <= k < uc_max_items g -> is_Some (s.2.(unused_stack) !! k);
  fx_lru : uc_purge_lru g = true -> s.2.(lru_head) = upto i (hd 0 lru) /\ s.2.(lru_tail) = upto i (last_or 0 lru);
  fx_count : s.1.2 = i - 1 - zlen (unused c.(items) i);
  fx_scan : forall j it, 1 <= j < i -> in_use c.(items) j it -> i_expires it <> 0 -> s.1.1 <> 0 /\ s.1.1 <= i_expires it;
}.

Lemma upto_ne i x : x <> i -> upto (i + 1) x = upto i x.
Proof. intros H. unfold upto. destruct (Z.ltb_spec x (i + 1)), (Z.ltb_spec x i); try done; lia. Qed.
Lemma upto_eq i : upto (i + 1) i = i.
Proof. unfold upto. destruct (Z.ltb_spec i (i + 1)); lia. Qed.
Lemma upto_same i : upto i i = 0.
Proof. unfold upto. by rewrite Z.ltb_irrefl. Qed.

Lemma unused_step its i it :
  1 <= i -> its !! i = Some it -> unused its (i + 1) = unused its i ++ (if i_keysize it =? 0 then [i] else []).
Proof.
  intros Hi Hit. unfold unused. replace (i + 1 - 1) with (i - 1 + 1) by lia.
  rewrite seqZ_app by lia. replace (1 + (i - 1)) with i by lia. rewrite filter_app. f_equal.
  change (seqZ i 1) with (seqZ i (Z.succ 0)). rewrite seqZ_cons by lia. cbn [seqZ]. change (Z.pred (Z.succ 0)) with 0. cbn.
  rewrite Hit. cbn. destruct (Z.eqb_spec (i_keysize it) 0) as [E|E]; [rewrite decide_True by congruence | rewrite decide_False by congruence]; done.
Qed.

Lemma unused_room its i : 1 <= i -> zlen (unused its i) <= i - 1.
Proof. intros Hi. unfold unused, zlen. pose proof (length_filter (fun j => (i_keysize <$> its !! j) = Some 0) (seqZ 1 (i - 1))) as H. rewrite length_seqZ in H. lia. Qed.

(** The ends of the list, once [i] has been seen. *)
Lemma lru_ends ch lru fs c i it :
  cache_inv g ch lru fs c -> uc_purge_lru g = true -> in_use c.(items) i it ->
  (i_lru_prev it = 0 <-> i = hd 0 lru) /\ (i_lru_next it = 0 <-> i = last_or 0 lru).
Proof.
  intros [_ _ _ Hlru _] Hp [Hit Hk]. specialize (Hlru Hp). destruct Hlru as [L1 L2 L3 L4 L5 L6].
  assert (i ∈ lru) as Hin.
  { apply L3. destruct (cview g c !! i) as [[k e]|] eqn:E; [rewrite (slots_Some g _ _ _ _ E); eauto|].
    unfold cview, view in E. rewrite lookup_omap, Hit in E. cbn in E. unfold item_view in E. by rewrite (proj2 (Z.ltb_lt _ _) Hk) in E. }
  rewrite <- (dseg_first _ _ _ _ i L1 L6 Hin), <- (dseg_last _ _ _ _ i L1 L2 L6 Hin). rewrite !lookup_fmap, Hit. cbn.
  split; (split; [by intros -> | by intros [= ->]]).
Qed.

(** The head of a chain. *)
Lemma chain_heads ch lru fs c i it :
  cache_inv g ch lru fs c -> in_use c.(items) i it ->
  0 <= i_hash it mod uc_hashsize g < uc_hashsize g /\
  (i_prev it = 0 <-> i = hd 0 (ch (i_hash it mod uc_hashsize g))) /\
  forall h, h <> i_hash it mod uc_hashsize g -> hd 0 (ch h) <> i.
Proof.
  intros [Hst Hch _ _ _] [Hit Hk]. pose proof (co_hashsize _ Hg).
  destruct (io_used _ _ _ (so_items _ _ _ _ _ Hst _ _ Hit) Hk) as (Eh & _).
  assert (cview g c !! i = Some (item_key it, item_entry g (cdata c) it)) as Hv
    by (unfold cview, view; rewrite lookup_omap, Hit; cbn; unfold item_view; by rewrite (proj2 (Z.ltb_lt _ _) Hk)).
  pose proof (slots_Some g _ _ _ _ Hv) as Hs. cbn in Hs. rewrite <- Eh in Hs.
  pose proof (proj2 (ch_member _ _ _ _ _ _ Hch _ i) Hs) as Hin.
  assert (forall h j, j ∈ ch h -> 0 < j) as Hpos by (intros h j Hj; apply (ch_member _ _ _ _ _ _ Hch) in Hj; apply (ch_slots _ _ _ _ _ _ Hch) in Hj as [? _]; done).
  assert (0 <= i_hash it mod uc_hashsize g < uc_hashsize g) as Hr by (apply Z.mod_pos_bound; lia).
  split_and!; [lia | lia | |].
  - rewrite <- (dseg_first _ _ _ _ i (ch_links _ _ _ _ _ _ Hch _ Hr) (Hpos _) Hin).
    rewrite lookup_fmap, Hit. cbn. split; [by intros -> | by intros [= ->]].
  - intros h Hne E. destruct (ch h) as [|j l] eqn:El; cbn in E; [specialize (Hpos _ _ Hin); lia|].
    subst j. assert (i ∈ ch h) as Hi by (rewrite El; by left). apply (ch_member _ _ _ _ _ _ Hch) in Hi. congruence.
Qed.

(** An unused item is the end of no list. *)
Lemma unused_ends ch lru fs c i it :
  cache_inv g ch lru fs c -> c.(items) !! i = Some it -> i_keysize it = 0 -> 1 <= i ->
  (forall h, hd 0 (ch h) <> i) /\ (uc_purge_lru g = true -> hd 0 lru <> i /\ last_or 0 lru <> i).
Proof.
  intros [Hst Hch _ Hlru _] Hit Hk Hi.
  assert (slots g (cview g c) !! i = None) as Hs.
  { unfold slots, cview, view. rewrite lookup_fmap, lookup_omap, Hit. cbn. unfold item_view. by rewrite Hk. }
  split.
  - intros h E. destruct (ch h) as [|j l] eqn:El; cbn in E; [lia|]. subst j.
    assert (i ∈ ch h) as Hin by (rewrite El; by left). apply (ch_member _ _ _ _ _ _ Hch) in Hin. congruence.
  - intros Hp. specialize (Hlru Hp). assert (forall j, j ∈ lru -> j <> i) as Hne.
    { intros j Hj ->. apply (lr_member _ _ _ _ _ _ Hlru) in Hj. rewrite Hs in Hj. by destruct Hj. }
    destruct lru as [|j l]; [unfold last_or; cbn; lia|]. split; [apply Hne; by left | apply Hne, last_or_elem; done].
Qed.

(** The two conditional stores of the ends. *)
Lemma set_ends i (a b : bool) (c : cache) :
  exists h t, (let c1 := if a then c<|lru_head := i|> else c in if b then c1<|lru_tail := i|> else c1) = c<|lru_head := h|><|lru_tail := t|> /\
    h = (if a then i else c.(lru_head)) /\ t = (if b then i else c.(lru_tail)).
Proof. exists (if a then i else c.(lru_head)), (if b then i else c.(lru_tail)). by destruct a, b, c. Qed.

Lemma fixed_used ch lru fs c i it s :
  cache_inv g ch lru fs c -> in_use c.(items) i it -> 1 <= i < uc_max_items g -> fixed ch lru c i s ->
  exists s', fix_one g i s = Ret s' /\ fixed ch lru c (i + 1) s'.
Proof.
  intros Hinv Hu Hi [F1 F2 F3 F4 F5 F6 F7 F8 F9]. destruct s as [[next restored] c0]. cbn [fst snd] in *.
  destruct (chain_heads _ _ _ _ _ _ Hinv Hu) as (Hh & Hprev & Hother). set (h0 := i_hash it mod uc_hashsize g) in *.
  unfold fix_one, cache_item, aget. rewrite F1. destruct Hu as [Hit Hk]. rewrite Hit. cbn [obind].
  rewrite (proj2 (Z.eqb_neq (i_keysize it) 0)) by lia. cbn [negb]. fold h0.
  assert (exists t, (if i_prev it =? 0 then set_slot h0 i c0 else Ret c0) = Ret (c0<|hashtable := t|>) /\
     forall h, 0 <= h < uc_hashsize g -> t !! h = Some (upto (i + 1) (hd 0 (ch h)))) as (t & -> & Ht).
  { destruct (Z.eqb_spec (i_prev it) 0) as [E|E].
    - unfold set_slot, aset. rewrite (F3 h0 Hh). cbn [obind]. eexists. split; [reflexivity|]. intros h Hr. destruct (decide (h = h0)) as [->|Hne].
      + rewrite lookup_insert_eq, <- (proj1 Hprev E). by rewrite upto_eq.
      + rewrite lookup_insert_ne, upto_ne by auto. by apply F3.
    - exists (hashtable c0). split; [by destruct c0|]. intros h Hr. rewrite F3 by done. rewrite upto_ne; [done|].
      destruct (decide (h = h0)) as [->|]; [|auto]. intros E'. by apply E, Hprev. }
  cbn [obind]. set (next' := if negb (i_expires it =? 0) && ((next =? 0) || (i_expires it <? next)) then i_expires it else next).
  destruct (set_ends i ((lru_head c0 =? 0) && (i_lru_prev it =? 0)) ((lru_tail c0 =? 0) && (i_lru_next it =? 0)) (c0<|hashtable := t|>)) as (hd' & tl' & E & Eh & Et).
  cbn zeta in E. eexists. split; [reflexivity|].
  assert (forall b : bool, lru_tail (if b then c0<|hashtable := t|><|lru_head := i|> else c0<|hashtable := t|>) = lru_tail c0) as -> by by intros [].
  change (lru_head (c0<|hashtable := t|>)) with (lru_head c0). rewrite E. rewrite <- (app_nil_r (unused (items c) i)) in F4, F5, F8.
  pose proof (unused_step (items c) i it ltac:(lia) Hit) as Hus. rewrite (proj2 (Z.eqb_neq (i_keysize it) 0)) in Hus by lia.
  split; cbn; rewrite ?Hus; try done.
  - intros Hp. destruct (F7 Hp) as [Fh Ft]. destruct (lru_ends _ _ _ _ _ _ Hinv Hp (conj Hit Hk)) as [L1 L2].
    rewrite Eh, Et. cbn. rewrite Fh, Ft. split.
    + destruct (Z.eqb_spec (i_lru_prev it) 0) as [E0|E0]; rewrite ?andb_true_r, ?andb_false_r.
      * rewrite <- (proj1 L1 E0), upto_same, upto_eq. done.
      * rewrite upto_ne; [done|]. intros E1. by apply E0, L1.
    + destruct (Z.eqb_spec (i_lru_next it) 0) as [E0|E0]; rewrite ?andb_true_r, ?andb_false_r.
      * rewrite <- (proj1 L2 E0), upto_same, upto_eq. done.
      * rewrite upto_ne; [done|]. intros E1. by apply E0, L2.
  - lia.
  - assert (next' = next /\ (i_expires it = 0 \/ (next <> 0 /\ next <= i_expires it)) \/ next' = i_expires it /\ i_expires it <> 0 /\ (next = 0 \/ i_expires it < next)) as Hn.
    { unfold next'. destruct (Z.eqb_spec (i_expires it) 0), (Z.eqb_spec next 0), (Z.ltb_spec (i_expires it) next); cbn; lia. }
    intros j jt Hj Hju Hx. destruct (decide (j = i)) as [->|Hne].
    + destruct Hju as [Hjt _]. assert (jt = it) as -> by congruence. lia.
    + specialize (F9 j jt ltac:(lia) Hju Hx). lia.
Qed.

Lemma fixed_unused ch lru fs c i it s :
  cache_inv g ch lru fs c -> c.(items) !! i = Some it -> i_keysize it = 0 -> 1 <= i < uc_max_items g -> fixed ch lru c i s ->
  exists s', fix_one g i s = Ret s' /\ fixed ch lru c (i + 1) s'.
Proof.
  intros Hinv Hit Hk Hi [F1 F2 F3 F4 F5 F6 F7 F8 F9]. destruct s as [[next restored] c0]. cbn [fst snd] in *.
  destruct (unused_ends _ _ _ _ _ _ Hinv Hit Hk ltac:(lia)) as [Hch Hlru].
  unfold fix_one, cache_item, aget. rewrite F1, Hit. cbn [obind]. rewrite Hk. cbn [Z.eqb negb].
  pose proof (unused_room (items c) i ltac:(lia)) as Hroom. zlen_facts.
  destruct (F6 (stack_ptr c0 + 1) ltac:(lia)) as [x Hx]. unfold push_unused, aset. rewrite Hx. cbn [obind].
  eexists. split; [reflexivity|].
  pose proof (unused_step (items c) i it ltac:(lia) Hit) as Hus. rewrite Hk in Hus. cbn [Z.eqb] in Hus.
  split; cbn; rewrite ?Hus, ?zlen_app; try done.
  - intros h Hh. rewrite upto_ne by done. by apply F3.
  - change (zlen [i]) with 1. lia.
  - intros k j Hkj. rewrite F4. unfold zlen. apply lookup_app_Some in Hkj as [Hkj|[Hge Hkj]].
    + rewrite lookup_insert_ne; [by apply F5|]. apply lookup_lt_Some in Hkj. lia.
    + apply list_lookup_singleton_Some in Hkj as [Hk0 <-]. rewrite <- lookup_insert_eq with (m := unused_stack c0) (i := Z.of_nat k + 1). f_equal. f_equal. lia.
  - intros k Hkr. destruct (decide (k = stack_ptr c0 + 1)) as [->|Hne]; [rewrite lookup_insert_eq; eauto|]. rewrite lookup_insert_ne by done. by apply F6.
  - intros Hp. destruct (Hlru Hp). rewrite !upto_ne by done. by apply F7.
  - change (zlen [i]) with 1. lia.
  - intros j jt Hj Hju Hxx. destruct (decide (j = i)) as [->|Hne]; [destruct Hju; exfalso; congruence || (assert (jt = it) by congruence; subst; lia)|].
    apply (F9 j jt); [lia | done | done].
Qed.

Lemma fixed_start ch lru fs c b x :
  cache_inv g ch lru fs c ->
  fixed ch lru c 1 (0, 0, mk_cache c.(items) (calloc (uc_hashsize g) (fun _ => 0)) (calloc (uc_max_items g) (fun i => i)) 0 b 0 c.(cdata) 0 0 0 x 0 0 0 0 []).
Proof.
  intros [_ Hch _ Hlru _].
  assert (forall l : list Z, (forall j, j ∈ l -> 0 < j) -> upto 1 (hd 0 l) = 0 /\ upto 1 (last_or 0 l) = 0) as H0.
  { intros l Hl. unfold upto. destruct l as [|j l]; [done|].
    pose proof (Hl j ltac:(by left)). pose proof (Hl (last_or 0 (j :: l)) ltac:(by apply last_or_elem)). cbn [hd].
    destruct (Z.ltb_spec j 1), (Z.ltb_spec (last_or 0 (j :: l)) 1); lia. }
  split; cbn; try done.
  - intros h Hh. rewrite calloc_Some by done. f_equal. symmetry. apply H0. intros j Hj.
    apply (ch_member _ _ _ _ _ _ Hch) in Hj. apply (ch_slots _ _ _ _ _ _ Hch) in Hj as [? _]. done.
  - intros k Hk. rewrite calloc_Some by done. eauto.
  - intros Hp. destruct (H0 lru (lr_pos _ _ _ _ _ _ (Hlru Hp))) as [-> ->]. done.
  - intros j it Hj. lia.
Qed.

Lemma upto_end ch lru fs c :
  cache_inv g ch lru fs c ->
  (forall h, upto (uc_max_items g) (hd 0 (ch h)) = hd 0 (ch h)) /\
  (uc_purge_lru g = true -> upto (uc_max_items g) (hd 0 lru) = hd 0 lru /\ upto (uc_max_items g) (last_or 0 lru) = last_or 0 lru).
Proof.
  intros [_ Hch Hsk Hlru _]. pose proof (co_items _ Hg).
  assert (forall i, is_Some (slots g (cview g c) !! i) -> i < uc_max_items g) as Hr
    by (intros i [h Hh]; apply (sk_slots _ _ _ _ _ Hsk) in Hh; lia).
  unfold upto. split.
  - intros h. destruct (ch h) as [|j l] eqn:E; cbn [hd]; [by destruct (_ <? _)|].
    assert (j < uc_max_items g) by (apply Hr; exists h; apply (ch_member _ _ _ _ _ _ Hch); rewrite E; by left).
    by rewrite (proj2 (Z.ltb_lt _ _)).
  - intros Hp. specialize (Hlru Hp). destruct lru as [|j l]; [change (hd 0 []) with 0; change (last_or 0 []) with 0; by destruct (_ <? _)|].
    rewrite !(proj2 (Z.ltb_lt _ _)); [done | | ]; apply Hr, (lr_member _ _ _ _ _ _ Hlru); [by apply last_or_elem | by left].
Qed.

Lemma unused_member c fs ch lru i :
  cache_inv g ch lru fs c -> i ∈ unused c.(items) (uc_max_items g) <-> 1 <= i < uc_max_items g /\ slots g (cview g c) !! i = None.
Proof.
  intros [Hst _ _ _ _]. unfold unused. rewrite list_elem_of_filter, elem_of_seqZ.
  assert (forall it, c.(items) !! i = Some it -> i_keysize it = 0 <-> slots g (cview g c) !! i = None) as Hk.
  { intros it Hit. pose proof (io_keysize _ _ _ (so_items _ _ _ _ _ Hst _ _ Hit)).
    unfold slots, cview, view. rewrite lookup_fmap, lookup_omap, Hit. cbn. unfold item_view.
    destruct (Z.ltb_spec 0 (i_keysize it)); cbn; split; try done; lia. }
  split.
  - intros [E Hr]. split; [lia|]. destruct (items c !! i) as [it|] eqn:Hit; [|done]. cbn in E. injection E as E. by apply (Hk it).
  - intros [Hr Hs]. destruct (proj2 (so_dom _ _ _ _ _ Hst i) ltac:(lia)) as [it Hit]. rewrite Hit. cbn.
    split; [f_equal; by apply (Hk it) | lia].
Qed.

Lemma fix_spec lru c b x :
  g.(uc_use_bitmap) = false -> inv g lru c ->
  exists c', upsgi_cache_fix g (mk_cache c.(items) (calloc (uc_hashsize g) (fun _ => 0)) (calloc (uc_max_items g) (fun i => i))
      (uc_max_items g - 1) b 0 c.(cdata) 0 0 0 x 0 0 0 0 []) = Ret c' /\ inv g lru c' /\ cview g c' = cview g c /\
    forall j k e, cview g c !! j = Some (k, e) -> e_expires e <> 0 -> c'.(next_scan) <> 0 /\ c'.(next_scan) <= e_expires e.
Proof.
  intros Hb (ch & fs & Hinv). unfold upsgi_cache_fix.
  destruct (each_item_inv g Hg (fixed ch lru c) (fix_one g)
      (0, 0, mk_cache c.(items) (calloc (uc_hashsize g) (fun _ => 0)) (calloc (uc_max_items g) (fun i => i)) 0 b 0 c.(cdata) 0 0 0 x 0 0 0 0 []))
    as ([[next restored] c1] & E & [F1 F2 F3 F4 F5 F6 F7 F8 F9]).
  - by eapply fixed_start.
  - intros i s Hr Hf. pose proof Hinv as [Hst _ _ _ _]. destruct (proj2 (so_dom _ _ _ _ _ Hst i) ltac:(lia)) as [it Hit].
    pose proof (io_keysize _ _ _ (so_items _ _ _ _ _ Hst _ _ Hit)).
    destruct (Z.eq_dec (i_keysize it) 0); [by eapply fixed_unused | eapply fixed_used; [done | split; [done | lia] | done | done]].
  - unfold setter in E |- *. cbn in E |- *. rewrite E. cbn [obind fst snd] in *. eexists. split; [reflexivity|].
    assert (view g (items c1) (cdata c1) = cview g c) as Ev by by rewrite F1, F2.
    destruct (upto_end _ _ _ _ Hinv) as [U1 U2]. pose proof (fun i => unused_member c fs ch lru i Hinv) as Hum.
    pose proof Hinv as [[S1 S2 S3 S4 S5 S6] [C1 C2 C3 C4 C5] Hsk Hlru _]. split_and!.
    + exists ch, (unused c.(items) (uc_max_items g)). split; unfold cview; cbn; rewrite ?Ev, ?F1, ?F2; [| | |intros Hp|done].
      * split; try done. intros Hb'. congruence.
      * split; try done. intros h Hh. by rewrite F3, U1.
      * split; [done | done | done | | done | apply (sk_slots _ _ _ _ _ Hsk)]. apply NoDup_filter, NoDup_seqZ.
      * destruct (F7 Hp) as [-> ->]. destruct (U2 Hp) as [-> ->]. destruct (Hlru Hp) as [L1 L2 L3 L4 L5 L6]. by split.
    + exact Ev.
    + intros j k e Hj Hx. cbn. pose proof (view_range g _ _ _ _ _ (ex_intro _ ch (ex_intro _ fs Hinv)) Hj) as Hr.
      apply view_lookup in Hj as (it & Hit & _ & ->). by apply (F9 j it).
Qed.

End with_conf.
End CacheFix.
