(* ===== verification/CacheTheorems.v ===== *)
(** The theorems on the shared memory cache: its operations on the abstract
    map, eviction, expiration and the invariant of every reachable state,
    each at a concrete cache, and what the code gets wrong. *)
From S2P Require Import Prelude Clib Kvlist Buffer Packet Protocol Hash Bitmap Cache CacheLinks CacheInv CacheConf CacheSteps CacheOps CacheWrite CacheFull CacheSet CacheProofs CacheReach CacheFix.

Module CacheTheorems.
Import Kvlist Bitmap Cache CacheLinks CacheInv CacheConf CacheSteps CacheOps CacheWrite CacheFull CacheSet CacheProofs CacheReach CacheFix.

(** * Concrete caches *)

(** Four items of sixteen bytes in three hash slots: the first item is not
    used, so there is room for three keys. *)
Definition small (lru lazy : bool) : cache_conf :=
  mk_conf 4 8 4 16 16 3 Hash.djb33x_hash false lru lazy false false 0 false 0 false false.

Lemma small_ok lru lazy : conf_ok (small lru lazy).
Proof. split; cbn; try lia. intros k. pose proof (Hash.djb33x_range k). lia. Qed.

Definition start (g : cache_conf) (ops : list op) : outcome cache :=
  let* c := upsgi_cache_init g in run_ops g ops c.

Lemma start_inv g ops : conf_ok g -> Forall (op_ok g) ops -> exists c lru, start g ops = Ret c /\ inv g lru c.
Proof.
  intros Hg Ho. unfold start. destruct (init_inv g Hg) as (c & -> & Hi & _). cbn [obind].
  destruct (run_ops_inv g ops [] c Hg Ho Hi) as (c' & lru & ? & ?). eauto.
Qed.

Lemma plain_ok g now key val expires : op_ok g (Set_ now key val expires 0).
Proof. intros _. by apply math_safe_plain. Qed.
#[local] Hint Resolve plain_ok : core.

(** The keys "a", "b" and "c". *)
Definition three : list op := [Set_ 5 [97] [1; 2] 10 0; Set_ 5 [98] [3] 20 0; Set_ 5 [99] [4] 0 0].

Lemma three_inv lru lazy : exists c l, start (small lru lazy) three = Ret c /\ inv (small lru lazy) l c.
Proof. apply start_inv; [apply small_ok|]. unfold three. auto. Qed.

(** * Operations on the abstract map *)

(** C8: [upsgi_cache_get2] is lookup in the abstract map.  In every state
    that satisfies the invariant the call returns; it gives the value of a
    key that is there, gettable and not expired, and nothing otherwise.  A
    hit only counts the hit, a miss only removes the entry if it has expired;
    the invariant is kept. *)
Theorem cache_get_refines g now key lru c :
  conf_ok g -> inv g lru c ->
  exists r c' lru', upsgi_cache_get2 g now key c = Ret (r, c') /\ inv g lru' c' /\
    match live g now (abs g c) key with
    | Some e => if gettable e then r = Some (e_val e) /\ abs g c' = <[key:=hit e]> (abs g c)
                else r = None /\ abs g c' = abs g c
    | None => r = None /\ abs g c' = delete key (abs g c)
    end.
Proof. apply get2_spec. Qed.

Lemma cache_get_refines_witness :
  exists c l c' l', start (small false true) three = Ret c /\ inv (small false true) l c /\
    upsgi_cache_get2 (small false true) 6 [97] c = Ret (Some [1; 2], c') /\ inv (small false true) l' c'.
Proof.
  destruct (three_inv false true) as (c & l & E & Hi).
  destruct (cache_get_refines (small false true) 6 [97] l c (small_ok _ _) Hi) as (r & c' & l' & Eg & Hi' & Hr).
  assert (live (small false true) 6 (abs (small false true) c) [97] = Some (mk_entry [1; 2] 15 0 0)) as El
    by (vm_compute in E; injection E as <-; vm_compute; reflexivity).
  rewrite El in Hr. destruct Hr as [-> _]. exists c, l, c', l'. exact (conj E (conj Hi (conj Eg Hi'))).
Defined.

(** C11: [upsgi_cache_del2] by key is deletion from the abstract map: the key
    is gone afterwards, nothing else changes, and the result tells whether
    there was anything to delete. *)
Theorem cache_del_refines g now key flags lru c :
  conf_ok g -> inv g lru c ->
  exists r c' lru', upsgi_cache_del2 g now key 0 flags c = Ret (r, c') /\ inv g lru' c' /\
    abs g c' = delete key (abs g c) /\ r = match live g now (abs g c) key with Some _ => 0 | None => -1 end.
Proof. apply del2_spec. Qed.

Lemma cache_del_refines_witness :
  exists c l c' l', start (small false false) three = Ret c /\ inv (small false false) l c /\
    upsgi_cache_del2 (small false false) 6 [97] 0 0 c = Ret (0, c') /\ inv (small false false) l' c'.
Proof.
  destruct (three_inv false false) as (c & l & E & Hi).
  destruct (cache_del_refines (small false false) 6 [97] 0 l c (small_ok _ _) Hi) as (r & c' & l' & Eg & Hi' & _ & Hr).
  assert (live (small false false) 6 (abs (small false false) c) [97] = Some (mk_entry [1; 2] 15 0 0)) as El
    by (vm_compute in E; injection E as <-; vm_compute; reflexivity).
  rewrite El in Hr. subst r. exists c, l, c', l'. exact (conj E (conj Hi (conj Eg Hi'))).
Defined.

(** C7: [upsgi_cache_set2] on the abstract map.  Invalid arguments change
    nothing.  A key that is there is replaced if the update flag is set (with
    its flags and hits kept) and left alone otherwise; a new key is added,
    and every other key is kept as long as there is room for one more item;
    a call that fails adds nothing.  The call returns and keeps the invariant
    in every state that satisfies it. *)
Theorem cache_set_refines g now key val expires flags lru c :
  conf_ok g -> inv g lru c -> (args_ok g key val flags = true -> math_safe flags val) ->
  exists r c' lru', upsgi_cache_set2 g now key val expires flags c = Ret (r, c') /\ inv g lru' c' /\
    if args_ok g key val flags then set_result g now key val expires flags (abs g c) (abs g c') r else r = -1 /\ c' = c.
Proof. intros Hg. by apply set2_spec. Qed.

Lemma cache_set_refines_witness :
  exists c l r c' l', start (small false false) three = Ret c /\ inv (small false false) l c /\
    upsgi_cache_set2 (small false false) 6 [97] [9; 9; 9] 0 2 c = Ret (r, c') /\ inv (small false false) l' c'.
Proof.
  destruct (three_inv false false) as (c & l & E & Hi).
  destruct (cache_set_refines (small false false) 6 [97] [9; 9; 9] 0 2 l c (small_ok _ _) Hi) as (r & c' & l' & Eg & Hi' & _).
  { intros _. by apply math_safe_plain. }
  exists c, l, r, c', l'. exact (conj E (conj Hi (conj Eg Hi'))).
Defined.

(** A value that was set is what a later lookup of the key gives, as long
    as it has not expired then and is not marked as ungettable. *)
Theorem cache_set_get g now later key val expires flags lru c c1 :
  conf_ok g -> inv g lru c -> has flags FLAG_MATH = false -> upsgi_cache_set2 g now key val expires flags c = Ret (0, c1) ->
  exists e, abs g c1 !! key = Some e /\ e_val e = val /\
    (expired g later e = false -> gettable e = true -> exists c2, upsgi_cache_get2 g later key c1 = Ret (Some val, c2)).
Proof.
  intros Hg Hi Hm E. destruct (set2_spec g Hg now lru c key val expires flags Hi) as (r & c' & lru' & E' & Hi' & Hr).
  { intros _. by apply math_safe_plain. }
  rewrite E in E'. injection E' as <- <-.
  assert (exists e, abs g c1 !! key = Some e /\ e_val e = val) as (e & He & Hv).
  { destruct (args_ok g key val flags); [|by destruct Hr]. unfold set_result, stores in Hr. rewrite Hm in Hr.
    destruct (live g now (abs g c) key) as [e|].
    - destruct (has flags FLAG_UPDATE); [|by destruct Hr]. destruct Hr as [(_ & x & old & -> & _ & ->)|(? & _)]; [|done].
      eexists. by rewrite lookup_insert_eq.
    - destruct Hr as [(_ & x & m1 & -> & _ & _ & ->)|(? & _)]; [|done]. eexists. by rewrite lookup_insert_eq. }
  exists e. split_and!; [done | done |]. intros Hx Hgt.
  destruct (get2_spec g later key lru' c1 Hg Hi') as (r & c2 & lru2 & -> & _ & Hr2).
  unfold live in Hr2. rewrite He, Hx, Hgt in Hr2. destruct Hr2 as [-> _]. exists c2. by rewrite Hv.
Qed.

Lemma cache_set_get_witness :
  exists c c1 l e, start (small true false) three = Ret c /\ inv (small true false) l c /\
    upsgi_cache_set2 (small true false) 6 [100] [5] 0 0 c = Ret (0, c1) /\
    abs (small true false) c1 !! [100] = Some e /\ e_val e = [5].
Proof.
  destruct (three_inv true false) as (c & l & E & Hi).
  destruct (upsgi_cache_set2 (small true false) 6 [100] [5] 0 0 c) as [[r c1]| | |] eqn:Es;
    try (exfalso; vm_compute in E; injection E as <-; vm_compute in Es; congruence).
  assert (r = 0) as -> by (vm_compute in E; injection E as <-; vm_compute in Es; congruence).
  destruct (cache_set_get (small true false) 6 7 [100] [5] 0 0 l c c1 (small_ok _ _) Hi eq_refl Es) as (e & He & Hv & _).
  exists c, c1, l, e. exact (conj E (conj Hi (conj Es (conj He Hv)))).
Defined.





(** C10: a pass of the sweeper that is due removes exactly the entries whose
    expiration is not after the current time, and the next pass is planned no
    later than the first expiration that is left. *)
Theorem cache_sweep_exact g t lru c :
  conf_ok g -> inv g lru c -> (uc_no_expire g || uc_purge_lru g || uc_lazy_expire g) = false ->
  c.(next_scan) <> 0 -> c.(next_scan) <= t ->
  exists n c' lru', cache_sweeper_free_items g t c = Ret (n, c') /\ inv g lru' c' /\
    abs g c' = filter (fun ke => overdue t ke.2 = false) (abs g c) /\
    forall k e, abs g c' !! k = Some e -> e_expires e <> 0 -> c'.(next_scan) <> 0 /\ c'.(next_scan) <= e_expires e.
Proof.
  intros Hg Hi Hoff H0 Ht. destruct (sweeper_spec g Hg t lru c Hi Hoff H0 Ht) as (n & c' & E & Hs & Hn). cbn [snd] in *.
  pose proof Hs as [[lru' Hi'] _]. exists n, c', lru'. split_and!; [done | done | by eapply swept_abs |].
  intros k e He Hz. apply (abs_lookup g _ _ _ _ Hi') in He as [j Hj].
  apply (swept_end g _ _ _ _ _ _ Hs) in Hj as [Hj Ho]; [|eauto].
  pose proof (view_range g _ _ _ _ _ Hi Hj). specialize (Hn j k e ltac:(lia) Hj Ho Hz).
  destruct (uc_max_items g =? 1); [tauto | done].
Qed.

Lemma cache_sweep_exact_witness :
  exists c l n c' l', start (small false false) three = Ret c /\ inv (small false false) l c /\
    cache_sweeper_free_items (small false false) 17 c = Ret (n, c') /\ inv (small false false) l' c' /\
    abs (small false false) c' !! [97] = None.
Proof.
  destruct (three_inv false false) as (c & l & E & Hi).
  destruct (cache_sweep_exact (small false false) 17 l c (small_ok _ _) Hi) as (n & c' & l' & Es & Hi' & Ha & _);
    [reflexivity | vm_compute in E; injection E as <-; vm_compute; congruence .. |].
  exists c, l, n, c', l'. refine (conj E (conj Hi (conj Es (conj Hi' _)))). rewrite Ha. vm_compute in E. injection E as <-. vm_compute. reflexivity.
Defined.

(** * Creation *)

(** A cache that the operations work on. *)
Definition sound (nc : named_cache) : Prop := conf_ok (nc_conf nc) /\ exists lru, inv (nc_conf nc) lru (nc_cache nc).
Definition fits (nc : named_cache) : Prop := uc_blocks (nc_conf nc) * uc_blocksize (nc_conf nc) < 2 ^ 60.

Lemma add_cache_sound name g caches caches' :
  (uc_blocks g * uc_blocksize g < 2 ^ 60 -> conf_ok g) -> add_cache name g caches = Ret caches' ->
  Forall sound caches -> Forall fits caches' -> Forall sound caches' /\ nc_name <$> caches' = (nc_name <$> caches) ++ [name].
Proof.
  intros Hok E Hs Hf. unfold add_cache in E. destruct (upsgi_cache_init g) as [c| | |] eqn:Ei; try done. injection E as <-.
  apply Forall_app in Hf as [_ Hf]. apply Forall_cons in Hf as [Hf _]. specialize (Hok Hf).
  destruct (init_inv g Hok) as (c0 & E0 & Hi & _). assert (c0 = c) as -> by congruence. split; [|by rewrite fmap_app].
  apply Forall_app. split; [done|]. apply Forall_cons. split; [|done]. split; [done|]. by exists [].
Qed.

(** C12: a definition of a cache either ends the process, or it adds a cache
    with the name in the definition whose configuration satisfies what every
    operation relies on and whose contents satisfy the invariant, whatever
    the definition says. *)
Theorem cache_create_sound hash_value algos master arg caches caches' :
  (forall a k, 0 <= hash_value a k < 2 ^ 32) -> Forall sound caches -> Forall fits caches' ->
  upsgi_cache_create hash_value algos master (Some arg) caches = Ret caches' ->
  Forall sound caches' /\ exists name, upsgi_kvlist_parse arg 44 61 cache_options no_options c_name = Some name /\
    nc_name <$> caches' = (nc_name <$> caches) ++ [name].
Proof.
  intros Hh Hs Hf E. unfold upsgi_cache_create in E. destruct (upsgi_kvlist_parse _ _ _ _ _ c_name) as [name|]; [|done].
  destruct (cache_conf_of _ _ _ _) as [g| | |] eqn:Eg; try done. cbn [obind] in E.
  destruct (add_cache_sound name g caches caches') as [? ?]; try done; [|eauto].
  by eapply cache_conf_of_ok.
Qed.

Lemma cache_create_sound_witness :
  exists nc, upsgi_cache_create (fun _ => Hash.djb33x_hash) (Hash.upsgi_hash_algo_register_all []) false
      (Some (chars "name=c,items=4,hashsize=3,keysize=8,blocksize=16")) [] = Ret [nc] /\ sound nc.
Proof.
  set (r := upsgi_cache_create _ _ _ _ _).
  assert (match r with Ret [nc] => uc_blocks (nc_conf nc) * uc_blocksize (nc_conf nc) =? 64 | _ => false end = true) as E
    by (vm_compute; reflexivity).
  destruct r as [[|nc [|]]| | |] eqn:Er; try discriminate E. exists nc. split; [done|].
  assert (Forall fits [nc]) as Hf by (constructor; [apply Z.eqb_eq in E; unfold fits; lia | constructor]).
  destruct (cache_create_sound _ _ _ _ [] [nc] (fun _ k => Hash.djb33x_range k) (Forall_nil_2 _) Hf Er) as [Hs _].
  by apply Forall_inv in Hs.
Defined.

(** A cache without a block bitmap that is started from its backing store
    is the cache it was when the process ended, for every state it may have
    ended in: same entries, same order of use, invariant restored, and no
    expiration is missed by the next pass of the sweeper. *)
Theorem cache_store_restores g lru c :
  conf_ok g -> g.(uc_use_bitmap) = false -> inv g lru c ->
  exists c', upsgi_cache_init_store g c.(items) c.(cdata) = Ret c' /\ inv g lru c' /\ abs g c' = abs g c /\
    recency g lru c' = recency g lru c /\ c'.(n_items) = c.(n_items) /\
    forall k e, abs g c' !! k = Some e -> e_expires e <> 0 -> c'.(next_scan) <> 0 /\ c'.(next_scan) <= e_expires e.
Proof.
  intros Hg Hb Hi. unfold upsgi_cache_init_store. rewrite Hb. cbn [obind].
  destruct (fix_spec g Hg lru c [] 0 Hb Hi) as (c' & -> & Hi' & Hv & Hs).
  assert (abs g c' = abs g c) as Ha by (unfold abs; by rewrite Hv).
  exists c'. split_and!; [done | done | done | unfold recency; by rewrite Hv | |].
  - by rewrite (n_items_size g lru c' Hg Hi'), (n_items_size g lru c Hg Hi), Ha.
  - intros k e He. rewrite Ha in He. apply (abs_lookup g _ _ _ _ Hi) in He as [j Hj]. by apply (Hs j k e).
Qed.

Lemma cache_store_restores_witness :
  exists c c' l, start (small true false) three = Ret c /\
    upsgi_cache_init_store (small true false) (items c) (cdata c) = Ret c' /\ inv (small true false) l c' /\ n_items c' = 3.
Proof.
  destruct (three_inv true false) as (c & l & E & Hi).
  destruct (cache_store_restores (small true false) l c (small_ok _ _) eq_refl Hi) as (c' & Es & Hi' & _ & _ & Hn & _).
  exists c, c', l. refine (conj E (conj Es (conj Hi' _))). rewrite Hn. vm_compute in E. injection E as <-. reflexivity.
Defined.

(** * What the code gets wrong *)

(** The result of a sequence of operations and a lookup after them. *)
Definition ask (g : cache_conf) (ops : list op) (now : Z) (key : list Z) : outcome (option (list Z)) :=
  let* c := start g ops in let* (r, _) := upsgi_cache_get2 g now key c in Ret r.

(** In bitmap mode an update moves the value to new blocks first, and the
    number that a math operation then changes is whatever the new blocks
    hold: 5 + 1 is not 6. *)
Theorem bitmap_increment_lost :
  let g := mk_conf 4 8 8 16 128 3 Hash.djb33x_hash true false false false false 0 false 0 false false in
  ask g [Set_ 5 [97] (le_bytes 8 5) 0 0; Set_ 6 [97] (le_bytes 8 1) 0 (2 + 16 + 32)] 7 [97] = Ret (Some (le_bytes 8 1)) /\
  let h := mk_conf 4 8 8 16 16 3 Hash.djb33x_hash false false false false false 0 false 0 false false in
  ask h [Set_ 5 [97] (le_bytes 8 5) 0 0; Set_ 6 [97] (le_bytes 8 1) 0 (2 + 16 + 32)] 7 [97] = Ret (Some (le_bytes 8 6)).
Proof. split; vm_compute; reflexivity. Qed.

(** A set with an absolute expiration does not plan a pass of the sweeper: an
    item that is the only one to expire outlives its expiration for ever. *)
Theorem absolute_expiration_not_swept :
  ask (small false false) [Set_ 5 [97] [1] 10 8; Sweep 1000000] 1000001 [97] = Ret (Some [1]) /\
  ask (small false false) [Set_ 5 [97] [1] 10 0; Sweep 1000000] 1000001 [97] = Ret None.
Proof. split; vm_compute; reflexivity. Qed.

(** With eviction by last use the expiration is stored as it was given, not
    added to the time; if items also expire on access, an item that should
    live for ten seconds is gone at once. *)
Theorem lru_expiration_relative :
  ask (small true true) [Set_ 1000 [97] [1] 10 0] 1001 [97] = Ret None /\
  ask (small false true) [Set_ 1000 [97] [1] 10 0] 1001 [97] = Ret (Some [1]).
Proof. split; vm_compute; reflexivity. Qed.

(** The number of an item is read as eight bytes whatever its size: with
    blocks of four bytes the read of the last item leaves the data area. *)
Theorem num_reads_past_the_end :
  let g := mk_conf 3 8 3 4 4 3 Hash.djb33x_hash false false false false false 0 false 0 false false in
  start g [Set_ 5 [97] [1] 0 0; Num 6 [97]] = Fault.
Proof. vm_compute. reflexivity. Qed.

(** With a block bitmap the blocks in use are not marked again when the cache
    is restored, and the next value is stored over one of them. *)
Theorem bitmap_not_restored :
  let g := mk_conf 4 8 8 16 128 3 Hash.djb33x_hash true false false false false 0 false 0 false false in
  (let* c := start g [Set_ 5 [97] [1; 2] 0 0] in
   let* c := upsgi_cache_init_store g (items c) (cdata c) in
   let* c := run_ops g [Set_ 6 [98] [3; 4] 0 0] c in
   let* (r, _) := upsgi_cache_get2 g 7 [97] c in Ret r) = Ret (Some [3; 4]).
Proof. vm_compute. reflexivity. Qed.

End CacheTheorems.
